(* ===== verification/_CoqProject ===== *)
-Q . S2P
Prelude.v
RustStr.v
Json.v
Errors.v
Interrupt.v
Budget.v
Cancel.v
Text.v
Scope.v
Storage.v
MemoryStorage.v
Caching.v
SessionTypes.v
Samples.v
ThreadStore.v
ThreadStoreShared.v
ThreadStoreOwned.v
ControlState.v
Observed.v
Workflow.v
ErrorContext.v
JsonRepair.v
Schema.v
Tools.v
Transcript.v
Llm.v
Redaction.v
Observability.v
Gateway.v
Parsing.v
AgentLoop.v
AgentLaws.v
AgentRuns.v
Dates.v
Analysis.v
Suites.v
ThreadFeedback.v
View.v
WsModels.v
History.v
ThreadState.v
Connection.v
Streaming.v
StreamingLaws.v
StreamingSteps.v
Handlers.v
ThreadContext.v
Headless.v
FileSystem.v
LocalStorage.v
Config.v
S3Storage.v
LlmTypes.v
Providers.v
Limiter.v
Router.v
RouterModel.v
ModelCalls.v
Floats.v
Stats.v
Utf8.v
Vectors.v
KnowledgeBase.v
KnowledgeBaseLaws.v
ExampleSuites.v
SuiteDebugger.v
Terminal.v
TerminalLaws.v
TerminalView.v
TerminalViewLaws.v
TerminalScreen.v
LanceStore.v
Execute.v
StoredThread.v
StoredRuns.v
RegisteredSuites.v
RunLogs.v
RunEngine.v
Contexts.v
Progress.v
