(* ===== verification/Prelude.v ===== *)
(** * A verification library of a ReAct agent runtime

    The repository is a runtime for agents: a Rust workspace whose crate
    [src/src/core] holds the logic (budgets, storage, the thread log, the
    workflow and agent loops, the gateway to the language model), around which
    [src/src/runtime] reads the configuration and talks to the model providers,
    [src/src/transport] serves clients over web sockets and draws a terminal,
    [src/src/view] projects threads for them, [src/src/modules] plugs in the
    storage adapters, and [src/src/suites] holds concrete agents.  This library
    models all of these but what is listed at the end, and proves what each
    part promises to the others.

    ** The program in one paragraph

    A client's request ([ws/server.rs], [ws/handlers.rs]) is checked, noted in
    the log of a thread and handed to a suite, whose run is streamed back
    ([ws/suite_runner.rs]).  A suite runs phases under [workflow/runner.rs]; a
    phase runs the agent loop of [agent/run_loop.rs].  A turn of the loop
    charges the run's budget ([budget.rs]), renders the transcript into a
    prompt ([agent/transcript.rs]), asks the model through the gateway
    ([agent/llm_gateway.rs], with [retry.rs] and [llm_observability.rs]) and
    the router of providers ([runtime/src/llm]), parses the answer
    ([agent/parsing.rs], [json_repair.rs], [schema_registry.rs]) and then
    either offers a completion to the policy or calls a tool ([tools/mod.rs]),
    observed in the thread's audit log ([session/observed.rs]); a failed tool
    leaves an excerpt of its error ([error_context.rs], [text.rs]).  The audit
    log is the thread store ([session/store_io.rs]) and a suite's own state the
    control state store ([session/control_state.rs]); both keep JSON objects
    under keys of a scope ([scope.rs], [keyspace.rs]) behind the storage trait
    of [storage.rs], with its retries and its cache, over memory, files or S3.
    What a client is shown is folded from the log ([src/src/view],
    [ws/thread_state.rs], [ws/history.rs]).

    ** The files

    Foundations:
    - [Prelude]: results, state-passing computations [Act] (a Rust method with
      interior mutability that may fail), programs [Prog] (an [Act] that may
      also panic: [None]), their notations, list lemmas.
    - [RustStr]: a [str] as its UTF-8 bytes, with the operations of the Rust
      standard library the program uses; [Utf8]: lossy decoding; [Floats]: the
      binary formats [f64] and [f32]; [Json]: [serde_json::Value], the order
      of [BTreeMap], the classes [Serde], [Codec], [JsonDisplay] for what
      [serde_json] does; [Samples]: concrete codecs at which theorems are
      instantiated; [Dates]: what is used of [chrono].

    The core, [src/src/core]:
    - [Errors], [Interrupt]: [error.rs], [parse_error.rs], [retry.rs],
      [interrupt.rs]; [Budget], [Cancel]: [budget.rs], sequentially and as step
      relations of interleaved tasks; [Text], [Scope]: [text.rs]; [scope.rs]
      and [keyspace.rs].
    - [Storage]: the storage trait as a class, and its contract [StorageLaws],
      a refinement of the abstract store [Spec]; [Caching] the caching adapter,
      an instance over any instance, and the retried calls.
    - [SessionTypes]: [session/types.rs]; [ThreadStore]: [session/store_io.rs];
      [ThreadStoreOwned]: its operations on storage nobody else writes;
      [ThreadStoreShared]: [append_step] on storage that others append to,
      rewrite and delete from between any two calls; [ControlState], [Observed], [Analysis], [ThreadFeedback]:
      the files of those names; [Suites]: [suite.rs]; [Stats]:
      [discover/stats.rs]; [Vectors]: [provider_traits/vector.rs].
    - [Workflow]: [workflow/]; [Tools]: [tools/mod.rs]; [ErrorContext],
      [JsonRepair], [Schema]: [error_context.rs], [json_repair.rs],
      [schema_registry.rs].
    - [Transcript], [Llm], [Redaction], [Observability], [Gateway], [Parsing]:
      [agent/transcript.rs], [llm.rs], [llm_observability.rs] (two files),
      [agent/llm_gateway.rs], [agent/parsing.rs].
    - [AgentLoop]: [agent/run_loop.rs] and the policies of [agent/mod.rs];
      [AgentLaws]: relations between worlds that a run keeps, and the loop's
      theorems; [AgentRuns]: the non-interactive run and concrete runs in
      the scripted environment [Gateway.Scripted].
    - [StoredThread]: the thread store as the log of a run, an instance of the
      interfaces the loop is written against, and [session/log_writer.rs];
      [StoredRuns]: runs of the loop and messages of a suite over it.
    - [Contexts]: the contexts of agents and suites with their builders, and
      the typed map of [capability.rs]; [Progress]: [helpers/progress.rs].

    The adapters, [src/src/modules]: [MemoryStorage], [FileSystem] with
    [LocalStorage], and [S3Storage], each an instance of the storage class;
    [LanceStore]: the vector store over LanceDB.

    The transport, [src/src/view] and [src/src/transport]:
    - [View], [ThreadState], [History]: what is folded from a log; [WsModels]:
      the messages of the API and their JSON.
    - [Connection], [Handlers], [ThreadContext]: a connection, its requests,
      and the suite and agent of a thread; [Streaming], with [StreamingLaws]
      and [StreamingSteps]: the loop that tells a client of a run; [Headless]:
      runs without a socket.
    - [Terminal] and [TerminalLaws], [TerminalView] and [TerminalViewLaws],
      [TerminalScreen]: the renderer's state, its frames, and their painting.

    The runtime, [src/src/runtime]: [Config]: the configuration; [LlmTypes],
    [Providers], [Limiter], [Router], [RouterModel]: the calls
    of the model providers; [ModelCalls] their theorems; [RunLogs]: the log
    file of a run; [RunEngine]: [run_engine.rs] and [bootstrap.rs], a headless
    run from its configuration to its outcome; [Execute]: [execute.rs],
    [http.rs] and [src/src/http-protocol].

    The suites, [src/src/suites]: [KnowledgeBase] with [KnowledgeBaseLaws],
    [ExampleSuites], [SuiteDebugger]; [RegisteredSuites]: the three as values
    of the suite trait in the registry of a server.

    ** The interfaces

    Parts meet in type classes with laws, which clients assume and
    implementations prove.  [Storage.StorageAdapter] with [StorageLaws] is what
    the stores ask of an adapter; memory, files, S3 and the cache are instances.
    [Observed.StepLog] with [StepLogLaws] is what an observed call asks of its
    log, [Gateway.Runtime] with [RuntimeLaws] what the loop asks of its
    surroundings.  The laws of the log hold where it is in a valid state
    ([log_ok]); for a stored thread that is a store whose object and cache
    agree and whose log can be read ([StoredThread.owns]).
    [StoredThread.hosted_log] and [hosted_runtime] are the instances by the
    thread store, over any adapter with [StorageLaws] and any host with
    [RuntimeLaws].  [Vectors.VectorStore] with its laws is the same for vector
    stores; nothing under src implements that trait outside tests, and
    [LanceStore] models the LanceDB store as it is, on its own.

    A definition has the name of the function it models where that is free; a
    method of a type is in the module of the type ([Budget.BudgetMeter.charge])
    or has a prefix ([cached_get_bytes], [mem_get_bytes]).  Part of a function
    that is named on its own (a loop, a closure, a literal) says so in its
    comment.

    ** What is proved

    - Termination: the agent loop ([AgentLaws.run_until_block_returns]), the
      workflow loop ([Workflow.workflow_run_terminates]), contending charges
      ([Budget.contended_charges_terminate]), the streamed run
      ([StreamingLaws.run_ends_with_its_tasks]), the polling of a background
      response ([ModelCalls.background_polling_ends]), and the steps of the
      limiter of model calls ([Limiter.limiter_is_safe_and_live]).
    - Who decides: a run ends by the policy, its interrupt hook or its
      fallback; a non-interactive run never by the interrupt hook; a tool runs
      only within the budget.
    - Budgets: no counter passes its ceiling under any interleaving; one model
      call charges at most three.
    - Composition: the API, the registry, a suite, the workflow runner, the
      agent loop, the thread store and the storage contract together: a
      completed execution is answered with its completion and on record once
      ([RegisteredSuites.executions_are_on_record]); whatever a run of the loop
      does, the thread in storage only grows ([StoredRuns.runs_are_on_record]).
    - Audit: model calls and tool calls are bracketed in the log; an append is
      atomic among other writers, readable afterwards, and idempotent where the
      code means it to be; titles and the preflight phase settle; the frames
      of a run are recorded once.
    - Storage: memory, files and S3 refine one abstract store, and the cache is
      transparent over any of them; control states are read back; keys of
      different scopes and objects differ, prefixes do not cross scopes; typed
      queries of a vector store read what was written.
    - Clients: requests that are refused change nothing; messages are numbered;
      each step is told once; pages of history are the conversation; the
      folded state agrees with the log; a selection survives a reconnection.
    - The terminal: it never forgets, its focus does not depend on the order
      of a hash map, spans are counted once, and the screen shows the frame.
    - Text: truncations and excerpts fit their limits and cut on characters,
      JSON repairs are repairs, redaction leaves no key id behind, prompt parts
      are logged once, schemas are strict, chunks keep their paragraphs.
    - Configuration and providers: a resolved configuration is complete, a
      request tells the conversation, provider errors are classified.
    - Processes: a complete configuration builds its context; a run fills in
      the environment and ends as the run inside it ended; nothing of its log
      is lost;
      an execution over HTTP is one run of a suite; what is deleted from the
      vector store is what was named.
    - Where the code departs from what it says, a theorem shows the case:
      [Cancel.cancelled_can_lose_the_wakeup],
      [Scope.thread_and_artifact_collide],
      [ThreadStoreOwned.deleting_a_thread_deletes_dotted_threads],
      [Workflow.stuck_counts_idle_turns_twice],
      [Transcript.small_context_overcommits],
      [JsonRepair.a_bracket_in_prose_hides_the_values],
      [Schema.a_property_named_properties_is_corrupted],
      [Redaction.redaction_can_panic], [Redaction.bearer_line_keeps_the_key],
      [Observability.call_ids_start_again],
      [Analysis.a_loop_at_the_end_goes_unseen],
      [View.phase_steps_do_not_reach_the_timeline],
      [View.a_revisited_phase_keeps_its_old_end],
      [LocalStorage.a_deleted_object_blocks_a_name],
      [LocalStorage.a_directory_hides_its_namesakes],
      [LocalStorage.listing_leaves_the_base_directory],
      [S3Storage.a_deleted_object_is_an_error],
      [Config.environment_does_not_set_the_scope],
      [ModelCalls.completions_ignore_the_options],
      [WsModels.tagged_messages_repeat_their_type],
      [ThreadContext.control_state_outlives_a_switch],
      [Stats.the_reservoir_keeps_the_latest],
      [KnowledgeBaseLaws.no_chunks_of_size_zero],
      [KnowledgeBaseLaws.short_embeddings_go_unnoticed],
      [KnowledgeBaseLaws.another_dataset_crowds_out],
      [SuiteDebugger.dashes_name_a_thread],
      [TerminalViewLaws.lines_are_sorted_by_no_order],
      [TerminalViewLaws.typed_details_have_no_summary],
      [TerminalViewLaws.capitals_hide_the_spans],
      [TerminalScreen.a_shrunk_window_loses_its_last_line],
      [LanceStore.the_first_upsert_stores_twice],
      [LanceStore.an_underscore_deletes_its_neighbours],
      [LanceStore.another_namespace_crowds_out],
      [Execute.a_null_meta_is_lost],
      [RunLogs.a_failed_binding_is_never_retried],
      [RunLogs.a_copied_log_stops_growing],
      [RunEngine.a_run_without_suites_keeps_the_terminal],
      [Contexts.a_wide_step_limit_wraps],
      [Contexts.setting_the_steps_forgets_the_limits].

    ** Fuel

    Functions that are not structural take fuel, and none of it is a bound on
    behaviour.  [AgentLoop.run_turns] needs the agent steps left plus one,
    since a turn either charges one step or ends the run; the theorem says so.
    [Workflow.run] gives the loop [max_total_steps + 1] turns, after which the
    hard ceiling has returned.  Loops over a string ([extract_loop],
    [redact_key_ids], [fit_loop], [hard_chunks_loop], splitting, decoding) get
    its length, and each round consumes a byte.  Retry loops recurse on the
    list of delays or on the number of attempts, as the code does.  Polling
    gets the seconds it may wait plus one, paged listing more than the number
    of keys, paged history more than the number of messages, the walk of a
    directory the depth of its tree, embedding the number of documents.  The
    loops that wait for the outside (a streamed run, the renderer, a
    connection) recurse on the schedule of what happens to them.

    ** Integers, strings, panics

    Machine integers are [Z] with the saturating or wrapping operation written
    out, and [usize] lengths and indices that stay below a length are [nat].
    Strings are byte strings; a character is a maximal run of continuation
    bytes with its head.  An index out of bounds or a slice off a character
    boundary is [None].

    ** Parameters

    Third-party code is a class or an argument, with its documented behaviour
    as laws where a theorem needs them: [serde_json] ([Serde], [Codec],
    [DeserializeOwned], [JsonStream], [JsonDisplay], [JsonPretty]), [schemars]
    and the JSON-schema validator ([SchemaTools]), SHA-256, Unicode case
    mapping, the default hasher, the order of hash maps ([HashIter]), [tokio]'s
    [Notify], [select!], timers and channels, the provider's futures
    ([Runtime] with [RuntimeLaws]), HTTP ([HttpAgent]), S3 ([S3Service] with
    [S3Laws]), vector stores ([VectorStore] with [VectorStoreLaws]), [chrono]
    ([Rfc3339], [UtcClock]), colours and the terminal ([Stylize], [Tty] with
    [TtyLaws]), and LanceDB ([LanceDb] with [LanceLaws]).  Each class with laws
    has a concrete instance in this library, at which the theorems are applied.
    Theorems about stored logs assume that a log serde writes it reads back,
    and are applied at codecs that do ([Samples], [StoredRuns.TraceCodec]).

    ** Not modelled

    Concurrency is modelled where the code meets it: the meter, the cancel
    flag, the limiter, the storage shared with other processes, a run beside
    its connection.  Within one process the per-thread lock serializes appends,
    so an operation is one uninterrupted state transformer there; the
    observability caches are not interleaved.  Logging ([tracing]), what is
    printed, and the aborting of tasks are dropped.
    Not modelled at all: the subscribers of [tracing], sockets and their
    framing, the routing of HTTP, the modules generated from the API
    description ([ws/api_gen], but for the messages), and tests.  A call of
    the file system that fails part way leaves nothing behind in the model.  The
    abstract store and the laws of S3 answer every call: throttling, timeouts
    and the retries they cause are modelled ([Caching], [S3Storage]) but not
    met by the theorems over that contract.  The last step of a tool run that
    panics, which the code appends in a task of its own, is appended at once,
    and the times of a tool call are read before its body runs. *)

From stdpp Require Import base list strings pretty.
From Stdlib Require Import ZArith Lia Sorted.

(** ** Results and fallible, stateful computations

    [Result T E] is Rust's [Result<T, E>].  [Act S E A] is a computation that
    may change a state [S] and returns a [Result]; a Rust method that takes
    [&self] with interior mutability, or a storage service, is an [Act]. *)

Inductive Result (T E : Type) : Type :=
| Ok (t : T)
| Err (e : E).

Arguments Ok {T E} t.
Arguments Err {T E} e.

Definition Act (S E A : Type) : Type := S -> Result A E * S.

Definition res_bind {A B E} (m : Result A E) (k : A -> Result B E) : Result B E :=
  match m with
  | Ok a => k a
  | Err e => Err e
  end.

Definition act_ret {S E A} (a : A) : Act S E A := fun s => (Ok a, s).

Definition act_err {S E A} (e : E) : Act S E A := fun s => (Err e, s).

Definition act_bind {S E A B} (m : Act S E A) (k : A -> Act S E B) : Act S E B :=
  fun s =>
    match m s with
    | (Ok a, s') => k a s'
    | (Err e, s') => (Err e, s')
    end.

(** [r?] on a value that is already a [Result]. *)
Definition act_lift {S E A} (r : Result A E) : Act S E A := fun s => (r, s).

(** [x.map_err(f)]. *)
Definition res_map_err {A E F} (f : E -> F) (m : Result A E) : Result A F :=
  match m with
  | Ok a => Ok a
  | Err e => Err (f e)
  end.

Definition act_map_err {S E F A} (f : E -> F) (m : Act S E A) : Act S F A :=
  fun s => let '(r, s') := m s in (res_map_err f r, s').

Definition is_Ok {A E} (m : Result A E) : bool :=
  match m with Ok _ => true | Err _ => false end.

(** [m.ok()] *)
Definition res_ok {A E} (m : Result A E) : option A :=
  match m with Ok a => Some a | Err _ => None end.

(** A computation that may also panic: [None] when it unwinds. *)
Definition Prog (S E A : Type) : Type := S -> option (Result A E) * S.

Definition prog_bind {S E A B} (m : Prog S E A) (k : A -> Prog S E B) : Prog S E B :=
  fun s =>
    match m s with
    | (Some (Ok a), s') => k a s'
    | (Some (Err e), s') => (Some (Err e), s')
    | (None, s') => (None, s')
    end.

Definition prog_ret {S E A} (a : A) : Prog S E A := fun s => (Some (Ok a), s).

(** [return Err(e)], also any early return in a function whose results are [E]. *)
Definition prog_err {S E A} (e : E) : Prog S E A := fun s => (Some (Err e), s).

(** [m.map_err(f)?] on a computation that does not panic. *)
Definition prog_act {S E F A} (f : E -> F) (m : Act S E A) : Prog S F A :=
  fun s => let '(r, s') := m s in (Some (res_map_err f r), s').

Definition prog_map_err {S E F A} (f : E -> F) (m : Prog S E A) : Prog S F A :=
  fun s => let '(r, s') := m s in (option_map (res_map_err f) r, s').

(** An effect of the environment. *)
Definition prog_do {S E A} (f : S -> A * S) : Prog S E A :=
  fun s => let '(a, s') := f s in (Some (Ok a), s').

(** A pure step that may panic. *)
Definition prog_option {S E A} (o : option A) : Prog S E A := fun s => (option_map Ok o, s).

Declare Scope react_scope.
Delimit Scope react_scope with react.
Notation "'let?' x ':=' m 'in' k" := (res_bind m (fun x => k))
  (at level 10, x pattern, m at level 100, k at level 200) : react_scope.
Notation "'do!' x '<-' m ';' k" := (act_bind m (fun x => k))
  (at level 10, x pattern, m at level 100, k at level 200) : react_scope.
Notation "'run!' x '<-' m ';' k" := (prog_bind m (fun x => k))
  (at level 10, x pattern, m at level 100, k at level 200) : react_scope.
Open Scope react_scope.

(** ** Machine integers

    A [w]-bit unsigned integer is a [Z] in [0, max]; saturating, checked and
    truncating operations are written out.  [usize] is the 64-bit one. *)

Definition u8_max : Z := 255%Z.
Definition u16_max : Z := 65535%Z.
Definition u32_max : Z := 4294967295%Z.
Definition u64_max : Z := 18446744073709551615%Z.
Definition usize_max : Z := u64_max.

Definition sat_add (mx a b : Z) : Z := Z.min mx (a + b).
Definition sat_sub (a b : Z) : Z := Z.max 0 (a - b).
Definition sat_mul (mx a b : Z) : Z := Z.min mx (a * b).
Definition checked_add (mx a b : Z) : option Z :=
  if Z.leb (a + b) mx then Some (a + b)%Z else None.
(** [n as uW]: truncation modulo [2^W], given as [max + 1]. *)
Definition cast (mx n : Z) : Z := (n mod (mx + 1))%Z.
Definition wrapping_mul (mx a b : Z) : Z := cast mx (a * b).
Definition wrapping_add (mx a b : Z) : Z := cast mx (a + b).

(** [n as i32] and [n as i64]; also what wrapping addition leaves. *)
Definition as_i32 (v : Z) : Z := let r := cast u32_max v in if (r <=? 2147483647)%Z then r else (r - 4294967296)%Z.
Definition as_i64 (v : Z) : Z :=
  let r := cast u64_max v in if (r <=? 9223372036854775807)%Z then r else (r - 18446744073709551616)%Z.

Definition in_range (mx n : Z) : Prop := (0 <= n <= mx)%Z.

Ltac unfold_ints :=
  unfold in_range, wrapping_add, wrapping_mul, cast, checked_add, sat_mul,
    sat_sub, sat_add, usize_max, u64_max, u32_max, u16_max, u8_max in *.

Ltac int_solve := unfold_ints; repeat case_match; simplify_eq; lia.

(** ** Lemmas and automation shared by the components *)

Create HintDb react.

Ltac invert H := inversion H; clear H; simplify_eq/=.

(** Case analysis on the innermost [match] of the goal or of a hypothesis,
    with the equation kept. *)
Ltac crush :=
  repeat (case_match; simplify_eq/=); try done; try lia.

Lemma act_bind_Ok {S E A B} (m : Act S E A) (k : A -> Act S E B) s a s' :
  m s = (Ok a, s') -> act_bind m k s = k a s'.
Proof. intros H. unfold act_bind. by rewrite H. Qed.

Lemma act_bind_Err {S E A B} (m : Act S E A) (k : A -> Act S E B) s e s' :
  m s = (Err e, s') -> act_bind m k s = (Err e, s').
Proof. intros H. unfold act_bind. by rewrite H. Qed.

Section lists.
Context {A : Type}.

(** [v.len() > n] keeps only a suffix: the common shape of bounded buffers. *)
Definition last_n (n : nat) (l : list A) : list A := drop (length l - n) l.

Lemma last_n_length (n : nat) (l : list A) : length (last_n n l) = Nat.min n (length l).
Proof. unfold last_n. rewrite length_drop. lia. Qed.

Lemma last_n_suffix (n : nat) (l : list A) : last_n n l `suffix_of` l.
Proof. exists (take (length l - n) l). unfold last_n. by rewrite take_drop. Qed.

Lemma last_n_all (n : nat) (l : list A) : length l <= n -> last_n n l = l.
Proof. intros H. unfold last_n. by replace (length l - n) with 0 by lia. Qed.

Lemma find_index_Some (p : A -> bool) (l : list A) (i : nat) (x : A) :
  list_find p l = Some (i, x) -> l !! i = Some x /\ p x = true.
Proof. intros H%list_find_Some. destruct H as (?&H2&_). split; [done|by destruct (p x)]. Qed.
End lists.

(** ** Sorting

    [slice::sort_by], which keeps elements that compare equal in their order. *)

Section sort_by.
Context {A : Type} (R : A -> A -> Prop) `{!RelDecision R}.

Fixpoint sort_insert (x : A) (l : list A) : list A :=
  match l with
  | [] => [x]
  | y :: l' => if decide (R x y) then x :: l else y :: sort_insert x l'
  end.

Definition sort_by (l : list A) : list A := fold_right sort_insert [] l.

Lemma sort_insert_perm x l : sort_insert x l ≡ₚ x :: l.
Proof.
  induction l as [|y l IH]; simpl; [done|]. case_decide; [done|]. rewrite IH. apply perm_swap.
Qed.

Lemma sort_by_perm l : sort_by l ≡ₚ l.
Proof. induction l as [|x l IH]; simpl; [done|]. by rewrite sort_insert_perm, IH. Qed.

Lemma sort_insert_hd x y l : R y x -> HdRel R y l -> HdRel R y (sort_insert x l).
Proof. intros Hyx Hl. destruct Hl as [|z l Hz]; simpl; [by constructor|]. case_decide; by constructor. Qed.

Lemma sort_by_sorted `{!Total R} l : Sorted R (sort_by l).
Proof.
  induction l as [|x l IH]; simpl; [constructor|]. induction IH as [|y l0 Hl IH Hd]; simpl; [by repeat constructor|].
  case_decide as Hxy; [by repeat constructor|]. constructor; [done|]. apply sort_insert_hd; [|done].
  by destruct (total R x y).
Qed.
End sort_by.

#[export] Hint Resolve last_n_length last_n_suffix : react.
