(* ===== verification/RustStr.v ===== *)
(** * Rust strings

    Strings as UTF-8 byte sequences and the standard-library operations the
    program uses on them: [len], [chars], [trim], [starts_with],
    [strip_prefix], [find], [contains], [lines], [split], [join] and the
    ASCII case maps. *)

From stdpp Require Import base list strings pretty.
From Stdlib Require Import ZArith Lia.
From S2P Require Import Prelude.

#[global] Arguments String.append !_ _ / : simpl nomatch.

(** ** Bytes and characters

    A Rust [String] is its UTF-8 byte sequence, so that [len], [starts_with]
    and byte indices read as in the code; a [char] is the byte string of its
    UTF-8 encoding, and [chars] cuts a string before each byte that is not a
    continuation byte. *)

Definition bytes (l : list nat) : string :=
  fold_right (fun n s => String (Ascii.ascii_of_nat n) s) EmptyString l.

Definition is_cont (a : Ascii.ascii) : bool :=
  let n := Ascii.nat_of_ascii a in Nat.leb 128 n && Nat.ltb n 192.

Fixpoint chars_aux (s : string) : string * list string :=
  match s with
  | EmptyString => (EmptyString, [])
  | String a s' =>
      let '(p, l) := chars_aux s' in
      if is_cont a then (String a p, l) else (EmptyString, String a p :: l)
  end.

(** [s.chars().collect()] *)
Definition chars (s : string) : list string :=
  let '(p, l) := chars_aux s in
  match p with
  | EmptyString => l
  | _ => p :: l
  end.

(** [cs.into_iter().collect::<String>()], also [parts.concat()]. *)
Definition concat_strings (l : list string) : string :=
  fold_right String.append EmptyString l.

(** [parts.join(sep)] *)
Fixpoint join (sep : string) (l : list string) : string :=
  match l with
  | [] => EmptyString
  | [x] => x
  | x :: l' => x +:+ sep +:+ join sep l'
  end.

(** [s.chars().count()] *)
Definition char_count (s : string) : nat := length (chars s).

(** ** Searching *)

(** [s.starts_with(p)] *)
Fixpoint starts_with (s p : string) : bool :=
  match p, s with
  | EmptyString, _ => true
  | String b p', String a s' => Ascii.eqb a b && starts_with s' p'
  | String _ _, EmptyString => false
  end.

(** [s.strip_prefix(p)] *)
Fixpoint strip_prefix (s p : string) : option string :=
  match p, s with
  | EmptyString, _ => Some s
  | String b p', String a s' => if Ascii.eqb a b then strip_prefix s' p' else None
  | String _ _, EmptyString => None
  end.

Fixpoint string_drop (n : nat) (s : string) : string :=
  match n, s with
  | 0, _ => s
  | S _, EmptyString => EmptyString
  | S n', String _ s' => string_drop n' s'
  end.

Fixpoint string_take (n : nat) (s : string) : string :=
  match n, s with
  | 0, _ => EmptyString
  | S _, EmptyString => EmptyString
  | S n', String a s' => String a (string_take n' s')
  end.

(** [s.ends_with(p)] *)
Definition ends_with (s p : string) : bool :=
  Nat.leb (String.length p) (String.length s) &&
  String.eqb (string_drop (String.length s - String.length p) s) p.

(** [s.strip_suffix(p)] *)
Definition strip_suffix (s p : string) : option string :=
  if ends_with s p then Some (string_take (String.length s - String.length p) s) else None.

(** [s.find(p)] for a string pattern. *)
Fixpoint str_find (s p : string) : option nat :=
  if starts_with s p then Some 0
  else match s with
       | EmptyString => None
       | String _ s' => option_map S (str_find s' p)
       end.

(** [s.contains(p)] *)
Definition contains (s p : string) : bool :=
  match str_find s p with Some _ => true | None => false end.

(** [s.rfind(p)] *)
Fixpoint str_rfind (s p : string) : option nat :=
  match s with
  | EmptyString => if starts_with s p then Some 0 else None
  | String _ s' =>
      match str_rfind s' p with
      | Some i => Some (S i)
      | None => if starts_with s p then Some 0 else None
      end
  end.

(** [s.trim_start_matches(p)] for a non-empty pattern. *)
Fixpoint trim_start_loop (fuel : nat) (p s : string) : string :=
  match fuel with
  | O => s
  | S fuel => match strip_prefix s p with Some s' => trim_start_loop fuel p s' | None => s end
  end.

Definition trim_start_matches (p s : string) : string := trim_start_loop (String.length s) p s.

(** ** White space and [trim] *)

(** The 25 characters of Unicode's [White_Space] property, as UTF-8. *)
Definition white_space : list string :=
  map (fun n => bytes [n]) [9; 10; 11; 12; 13; 32] ++
  [bytes [194; 133]; bytes [194; 160]; bytes [225; 154; 128]] ++
  map (fun n => bytes [226; 128; n]) [128; 129; 130; 131; 132; 133; 134; 135; 136; 137; 138] ++
  [bytes [226; 128; 168]; bytes [226; 128; 169]; bytes [226; 128; 175];
   bytes [226; 129; 159]; bytes [227; 128; 128]].

(** [c.is_whitespace()] *)
Definition is_whitespace (c : string) : bool := existsb (String.eqb c) white_space.

Fixpoint drop_while {A} (p : A -> bool) (l : list A) : list A :=
  match l with
  | [] => []
  | x :: l' => if p x then drop_while p l' else l
  end.

Definition trim_end_chars (l : list string) : list string :=
  rev (drop_while is_whitespace (rev l)).

(** [s.trim()] *)
Definition trim (s : string) : string :=
  concat_strings (trim_end_chars (drop_while is_whitespace (chars s))).

(** [s.is_empty()] *)
Definition str_is_empty (s : string) : bool :=
  match s with EmptyString => true | _ => false end.

(** [s.trim().is_empty()] *)
Definition is_blank (s : string) : bool := str_is_empty (trim s).

(** ** ASCII case and classes *)

Definition is_ascii_digit (a : Ascii.ascii) : bool :=
  let n := Ascii.nat_of_ascii a in Nat.leb 48 n && Nat.leb n 57.

Definition is_ascii_alphanumeric (a : Ascii.ascii) : bool :=
  let n := Ascii.nat_of_ascii a in
  is_ascii_digit a || (Nat.leb 65 n && Nat.leb n 90) || (Nat.leb 97 n && Nat.leb n 122).

Definition ascii_lower (a : Ascii.ascii) : Ascii.ascii :=
  let n := Ascii.nat_of_ascii a in
  if Nat.leb 65 n && Nat.leb n 90 then Ascii.ascii_of_nat (n + 32) else a.

Fixpoint string_map (f : Ascii.ascii -> Ascii.ascii) (s : string) : string :=
  match s with
  | EmptyString => EmptyString
  | String a s' => String (f a) (string_map f s')
  end.

(** [s.to_ascii_lowercase()] *)
Definition to_ascii_lowercase (s : string) : string := string_map ascii_lower s.

Definition ascii_upper (a : Ascii.ascii) : Ascii.ascii :=
  let n := Ascii.nat_of_ascii a in
  if Nat.leb 97 n && Nat.leb n 122 then Ascii.ascii_of_nat (n - 32) else a.

Definition to_ascii_uppercase (s : string) : string := string_map ascii_upper s.

(** [s.replace(a, b)] for one-byte characters. *)
Definition replace_byte (a b : Ascii.ascii) (s : string) : string :=
  string_map (fun c => if Ascii.eqb c a then b else c) s.

(** [s.trim_end_matches(c)] for a one-byte character. *)
Fixpoint trim_end_byte (c : Ascii.ascii) (s : string) : string :=
  match s with
  | EmptyString => EmptyString
  | String a s' =>
      match trim_end_byte c s' with
      | EmptyString => if Ascii.eqb a c then EmptyString else String a EmptyString
      | t => String a t
      end
  end.

(** ** Numbers *)

(** The digits of a decimal number, most significant first. *)
Fixpoint digits_loop (mx acc : Z) (s : string) : option Z :=
  match s with
  | EmptyString => Some acc
  | String a s' =>
      if is_ascii_digit a then
        let acc := (acc * 10 + (Z.of_nat (Ascii.nat_of_ascii a) - 48))%Z in
        if (acc <=? mx)%Z then digits_loop mx acc s' else None
      else None
  end.

Definition parse_digits (mx : Z) (s : string) : option Z :=
  if str_is_empty s then None else digits_loop mx 0 s.

(** [s.parse::<uN>().ok()]: a plus sign, and digits that do not overflow. *)
Definition parse_uint (mx : Z) (s : string) : option Z :=
  parse_digits mx (match strip_prefix s "+" with Some t => t | None => s end).

(** [s.parse::<iN>().ok()] for the range [-mx-1 .. mx]. *)
Definition parse_int (mx : Z) (s : string) : option Z :=
  match strip_prefix s "-" with
  | Some t => Z.opp <$> parse_digits (mx + 1) t
  | None => parse_uint mx s
  end.

(** ** Splitting *)

(** [s.split(c)] for a one-byte separator: the pieces, separators removed. *)
Fixpoint split_byte (sep : Ascii.ascii) (s : string) : list string :=
  match s with
  | EmptyString => [EmptyString]
  | String a s' =>
      if Ascii.eqb a sep then EmptyString :: split_byte sep s'
      else match split_byte sep s' with
           | [] => [String a EmptyString]
           | w :: ws => String a w :: ws
           end
  end.

(** [s.split(p)] for a non-empty pattern: each occurrence found consumes a
    byte at least, so the length of the text is fuel enough. *)
Fixpoint split_loop (fuel : nat) (p s : string) : list string :=
  match fuel with
  | O => [s]
  | S fuel =>
      match str_find s p with
      | Some i => string_take i s :: split_loop fuel p (string_drop (i + String.length p) s)
      | None => [s]
      end
  end.

Definition split_str (p s : string) : list string := split_loop (String.length s) p s.

Definition nl : string := bytes [10].
Definition cr : Ascii.ascii := Ascii.ascii_of_nat 13.
Definition dquote : string := bytes [34].
Definition backslash : string := bytes [92].

Definition strip_cr (s : string) : string :=
  match strip_suffix s (String cr EmptyString) with Some t => t | None => s end.

(** [s.lines()]: pieces between newlines, a final newline ends the last line,
    one carriage return before a newline is dropped. *)
Definition lines (s : string) : list string :=
  let ps := split_byte (Ascii.ascii_of_nat 10) s in
  let n := length ps in
  let body := map strip_cr (take (n - 1) ps) in
  match last ps with
  | Some EmptyString => body
  | Some l => body ++ [l]
  | None => []
  end.

(** Decimal rendering of an integer, as in [format!("{n}")]. *)
Definition fmt_nat (n : nat) : string := pretty n.
Definition fmt_Z (n : Z) : string := pretty n.

Definition hex_lower (n : nat) : Ascii.ascii :=
  Ascii.ascii_of_nat (if Nat.ltb n 10 then 48 + n else 87 + n).

(** [{:0kx}]: the low [k] hexadecimal digits, most significant first. *)
Fixpoint fmt_hex (k : nat) (n : Z) : string :=
  match k with
  | O => EmptyString
  | S k => fmt_hex k (n / 16)%Z +:+ String (hex_lower (Z.to_nat (n mod 16)%Z)) EmptyString
  end.

(** ** Lemmas *)

Lemma app_nil_r_str (s : string) : s +:+ EmptyString = s.
Proof. induction s; simpl; [done|by f_equal]. Qed.

Lemma app_assoc_str (a b c : string) : (a +:+ b) +:+ c = a +:+ (b +:+ c).
Proof. induction a; simpl; [done|by f_equal]. Qed.

Lemma length_app_str (a b : string) :
  String.length (a +:+ b) = String.length a + String.length b.
Proof. induction a; simpl; [done|by f_equal]. Qed.

(** Reassociates concatenations to the right. *)
Ltac str_assoc := repeat (rewrite app_assoc_str; simpl).

Lemma string_drop_app (p s : string) (n : nat) : string_drop (String.length p + n) (p +:+ s) = string_drop n s.
Proof. induction p; simpl; auto. Qed.

Lemma app_inj_l_str (a b c : string) : a +:+ b = a +:+ c -> b = c.
Proof. induction a; simpl; [done|]. intros [=]; auto. Qed.

Lemma concat_strings_app (l1 l2 : list string) :
  concat_strings (l1 ++ l2) = concat_strings l1 +:+ concat_strings l2.
Proof. induction l1; simpl; [done|]. by rewrite IHl1, app_assoc_str. Qed.

Lemma chars_aux_concat (s : string) :
  let '(p, l) := chars_aux s in p +:+ concat_strings l = s.
Proof.
  induction s as [|a s IH]; simpl; [done|].
  destruct (chars_aux s) as [p l]. destruct (is_cont a); simpl; by f_equal.
Qed.

(** Cutting a string into characters loses nothing. *)
Lemma concat_chars (s : string) : concat_strings (chars s) = s.
Proof.
  unfold chars. pose proof (chars_aux_concat s) as H.
  destruct (chars_aux s) as [[|a p] l]; simpl in *; done.
Qed.

(** A character: a byte that starts one, then continuation bytes only. *)
Fixpoint all_cont (s : string) : bool :=
  match s with
  | EmptyString => true
  | String a s' => is_cont a && all_cont s'
  end.

Definition is_char (c : string) : bool :=
  match c with
  | EmptyString => false
  | String a c' => negb (is_cont a) && all_cont c'
  end.

Definition head_ok (s : string) : bool :=
  match s with EmptyString => true | String a _ => negb (is_cont a) end.

Lemma chars_aux_wf (s : string) :
  all_cont (chars_aux s).1 = true /\ Forall (fun c => is_char c = true) (chars_aux s).2.
Proof.
  induction s as [|a s [IH1 IH2]]; simpl; [done|].
  destruct (chars_aux s) as [p l]; simpl in *.
  destruct (is_cont a) eqn:Ha; simpl; [by rewrite Ha|].
  split; [done|]. constructor; [|done]. simpl. by rewrite Ha.
Qed.

Lemma chars_aux_app_cont (p s : string) :
  all_cont p = true ->
  chars_aux (p +:+ s) = (p +:+ (chars_aux s).1, (chars_aux s).2).
Proof.
  induction p as [|a p IH]; simpl; [by destruct (chars_aux s)|].
  intros [Ha Hp]%andb_prop. rewrite (IH Hp), Ha. done.
Qed.

Lemma chars_aux_head_ok (s : string) : head_ok s = true -> (chars_aux s).1 = EmptyString.
Proof.
  destruct s as [|a s]; simpl; [done|]. destruct (is_cont a); [done|].
  by destruct (chars_aux s).
Qed.

Lemma chars_head_ok (s : string) : head_ok s = true -> chars s = (chars_aux s).2.
Proof.
  intros H%chars_aux_head_ok. unfold chars. destruct (chars_aux s) as [p l]; simpl in *. by subst.
Qed.

(** [chars] is the inverse of concatenation on lists of characters. *)
Lemma chars_concat (l : list string) :
  Forall (fun c => is_char c = true) l -> chars (concat_strings l) = l.
Proof.
  intros H. assert (chars_aux (concat_strings l) = (EmptyString, l)) as E.
  { induction H as [|c l Hc Hl IH]; [done|]. destruct c as [|a c]; [done|].
    simpl in Hc. apply andb_prop in Hc as [Ha Hc]. simpl.
    rewrite chars_aux_app_cont, IH by done. simpl.
    destruct (is_cont a); [done|]. by rewrite app_nil_r_str. }
  unfold chars. by rewrite E.
Qed.

Lemma chars_head_ok_wf (s : string) :
  head_ok s = true -> Forall (fun c => is_char c = true) (chars s).
Proof. intros H. rewrite chars_head_ok by done. apply chars_aux_wf. Qed.

(** ** [trim] is idempotent *)

Lemma drop_while_head {A} (p : A -> bool) l :
  match drop_while p l with [] => True | x :: _ => p x = false end.
Proof. induction l as [|x l IH]; simpl; [done|]. by destruct (p x) eqn:E. Qed.

Lemma drop_while_suffix {A} (p : A -> bool) l : exists k, drop_while p l = drop k l.
Proof.
  induction l as [|x l [k IH]]; simpl; [by exists 0|]. destruct (p x); [by exists (S k)|by exists 0].
Qed.

Lemma drop_while_stop {A} (p : A -> bool) l :
  match l with [] => True | x :: _ => p x = false end -> drop_while p l = l.
Proof. destruct l as [|x l]; simpl; [done|]. by intros ->. Qed.

Lemma drop_while_app_stop {A} (p : A -> bool) l x :
  p x = false -> exists l', drop_while p (l ++ [x]) = l' ++ [x].
Proof.
  intros Hx. induction l as [|y l [l' IH]]; simpl; [rewrite Hx; by exists []|].
  destruct (p y); [eauto|]. by exists (y :: l).
Qed.

Lemma trim_end_chars_prefix l : exists k, trim_end_chars l = take k l.
Proof.
  unfold trim_end_chars. destruct (drop_while_suffix is_whitespace (rev l)) as [k ->].
  exists (length l - k). by rewrite skipn_rev, rev_involutive.
Qed.

Definition trim_chars (l : list string) : list string :=
  trim_end_chars (drop_while is_whitespace l).

Lemma trim_chars_idem l : trim_chars (trim_chars l) = trim_chars l.
Proof.
  unfold trim_chars. pose proof (drop_while_head is_whitespace l) as Hh.
  set (m := drop_while is_whitespace l) in *. clearbody m.
  assert (drop_while is_whitespace (trim_end_chars m) = trim_end_chars m) as ->.
  { destruct m as [|x m]; [done|]. unfold trim_end_chars. simpl.
    destruct (drop_while_app_stop is_whitespace (rev m) x Hh) as [l' ->].
    rewrite rev_app_distr. simpl. by rewrite Hh. }
  unfold trim_end_chars at 1. unfold trim_end_chars at 1. rewrite rev_involutive.
  rewrite drop_while_stop; [done|]. apply drop_while_head.
Qed.

Lemma Forall_trim_chars (P : string -> Prop) l : Forall P l -> Forall P (trim_chars l).
Proof.
  intros H. unfold trim_chars. destruct (trim_end_chars_prefix (drop_while is_whitespace l)) as [k ->].
  destruct (drop_while_suffix is_whitespace l) as [j ->]. by apply Forall_take, Forall_drop.
Qed.

Lemma trim_idem (s : string) : head_ok s = true -> trim (trim s) = trim s.
Proof.
  intros H. unfold trim. fold (trim_chars (chars s)).
  rewrite chars_concat by by apply Forall_trim_chars, chars_head_ok_wf.
  f_equal. apply trim_chars_idem.
Qed.

Lemma head_ok_app (s t : string) : head_ok s = true -> head_ok t = true -> head_ok (s +:+ t) = true.
Proof. by destruct s. Qed.

Lemma chars_app (s t : string) : head_ok s = true -> head_ok t = true -> chars (s +:+ t) = chars s ++ chars t.
Proof.
  intros Hs Ht. rewrite <- (concat_chars s) at 1. rewrite <- (concat_chars t) at 1.
  rewrite <- concat_strings_app. apply chars_concat.
  apply Forall_app. split; by apply chars_head_ok_wf.
Qed.

(** ** Counting characters *)

Lemma chars_aux_app_length (s t : string) :
  length (chars_aux (s +:+ t)).2 = length (chars_aux s).2 + length (chars_aux t).2.
Proof.
  induction s as [|a s IH]; simpl; [done|].
  destruct (chars_aux (s +:+ t)) as [p l], (chars_aux s) as [p' l']; simpl in *.
  destruct (is_cont a); simpl; lia.
Qed.

Lemma char_count_aux (s : string) :
  length (chars_aux s).2 <= char_count s <= S (length (chars_aux s).2).
Proof. unfold char_count, chars. destruct (chars_aux s) as [[|a p] l]; simpl; lia. Qed.

Lemma char_count_head_ok (s : string) : head_ok s = true -> char_count s = length (chars_aux s).2.
Proof. intros H. unfold char_count. by rewrite chars_head_ok. Qed.

Lemma char_count_app_le (s t : string) : char_count (s +:+ t) <= char_count s + char_count t.
Proof.
  destruct s as [|a s]; [simpl; lia|].
  pose proof (chars_aux_app_length (String a s) t) as H.
  pose proof (char_count_aux t) as Ht. unfold char_count, chars in *.
  cbn [String.append chars_aux] in *.
  destruct (chars_aux (s +:+ t)) as [p l], (chars_aux s) as [p' l'].
  destruct (is_cont a); simpl in *; lia.
Qed.

Lemma char_count_le_length (s : string) : char_count s <= String.length s.
Proof.
  assert (length (chars_aux s).2 <= String.length s /\
          ((chars_aux s).1 <> EmptyString -> S (length (chars_aux s).2) <= String.length s)) as [H1 H2].
  { induction s as [|a s [IH1 IH2]]; simpl; [done|].
    destruct (chars_aux s) as [p l]; simpl in *. destruct (is_cont a); simpl; split; try done; lia. }
  unfold char_count, chars. destruct (chars_aux s) as [[|a p] l]; simpl in *; [lia|]. by apply H2.
Qed.

(** The characters of the concatenation of a prefix of [chars s]. *)
Lemma chars_take_any (s : string) (n : nat) :
  chars (concat_strings (take n (chars s))) = take n (chars s).
Proof.
  destruct (chars_aux_wf s) as [Hc Hw]. unfold chars at 2 3. destruct (chars_aux s) as [[|a p] l]; simpl in *.
  { by apply chars_concat, Forall_take. }
  destruct n as [|n]; [done|]. simpl. apply andb_prop in Hc as [Ha Hp].
  assert (chars_aux (concat_strings (take n l)) = (EmptyString, take n l)) as E.
  { pose proof (chars_concat _ (Forall_take _ n _ Hw)) as H.
    assert (head_ok (concat_strings (take n l)) = true) as Hh.
    { destruct (Forall_take _ n _ Hw) as [|c l' Hc _]; [done|]. destruct c; [done|].
      simpl in *. by apply andb_prop in Hc as [-> _]. }
    pose proof (chars_aux_head_ok _ Hh) as H1. rewrite (chars_head_ok _ Hh) in H.
    destruct (chars_aux (concat_strings (take n l))); simpl in *; by subst. }
  pose proof (chars_aux_app_cont (String a p) (concat_strings (take n l))) as H. cbn [String.append] in H.
  unfold chars. rewrite H by (simpl; by rewrite Ha). rewrite E. simpl. by rewrite app_nil_r_str.
Qed.

(** ** Trimming *)

Lemma drop_while_app_all {A} (p : A -> bool) l l' :
  Forall (fun x => p x = true) l -> drop_while p (l ++ l') = drop_while p l'.
Proof. induction 1 as [|x l Hx _ IH]; simpl; [done|]. by rewrite Hx. Qed.

Lemma drop_while_length {A} (p : A -> bool) l : length (drop_while p l) <= length l.
Proof. destruct (drop_while_suffix p l) as [k ->]. rewrite length_drop. lia. Qed.

Lemma trim_end_chars_length l : length (trim_end_chars l) <= length l.
Proof. destruct (trim_end_chars_prefix l) as [k ->]. rewrite length_take. lia. Qed.

(** A list that trimming leaves alone keeps its two ends. *)
Lemma trim_chars_fixed l : trim_chars l = l -> drop_while is_whitespace l = l /\ trim_end_chars l = l.
Proof.
  intros H. unfold trim_chars in H.
  assert (drop_while is_whitespace l = l) as E.
  { destruct (drop_while_suffix is_whitespace l) as [k Hk]. rewrite Hk in *.
    pose proof (trim_end_chars_length (drop k l)) as Hl. rewrite H, length_drop in Hl.
    destruct (decide (k = 0)) as [->|]; [done|]. destruct l; [by rewrite drop_nil|simpl in Hl; lia]. }
  split; [done|]. by rewrite E in H.
Qed.

Lemma trim_chars_sandwich a b c :
  Forall (fun x => is_whitespace x = true) a -> Forall (fun x => is_whitespace x = true) c ->
  trim_chars b = b -> b <> [] -> trim_chars (a ++ b ++ c) = b.
Proof.
  intros Ha Hc Hb Hne. apply trim_chars_fixed in Hb as [H1 H2]. unfold trim_chars.
  rewrite drop_while_app_all by done.
  assert (drop_while is_whitespace (b ++ c) = b ++ c) as ->.
  { apply drop_while_stop. destruct b as [|x b]; [done|]. simpl.
    pose proof (drop_while_head is_whitespace (x :: b)) as H. by rewrite H1 in H. }
  unfold trim_end_chars in *. rewrite rev_app_distr, drop_while_app_all; [done|].
  apply Forall_rev in Hc. exact Hc.
Qed.

(** Both ends are no white space: nothing to trim. *)
Lemma trim_chars_ends x l y :
  is_whitespace x = false -> is_whitespace y = false -> trim_chars (x :: l ++ [y]) = x :: l ++ [y].
Proof.
  intros Hx Hy. unfold trim_chars. cbn [drop_while]. rewrite Hx. unfold trim_end_chars.
  change (x :: l ++ [y]) with ((x :: l) ++ [y]). rewrite rev_app_distr. cbn [rev app drop_while]. rewrite Hy.
  change (y :: rev l ++ [x]) with (rev [y] ++ rev (x :: l)). by rewrite <- rev_app_distr, rev_involutive.
Qed.

Lemma trim_fixed_chars (s : string) : head_ok s = true -> trim s = s -> trim_chars (chars s) = chars s.
Proof.
  intros Hs H. unfold trim in H. fold (trim_chars (chars s)) in H.
  rewrite <- H at 2. rewrite chars_concat; [done|]. by apply Forall_trim_chars, chars_head_ok_wf.
Qed.

Lemma chars_empty (s : string) : chars s = [] -> s = EmptyString.
Proof. intros H. rewrite <- (concat_chars s). by rewrite H. Qed.

(** White space around a trimmed text goes away. *)
Lemma trim_sandwich (a b c : string) :
  head_ok a = true -> head_ok b = true -> head_ok c = true ->
  Forall (fun x => is_whitespace x = true) (chars a) -> Forall (fun x => is_whitespace x = true) (chars c) ->
  trim b = b -> b <> EmptyString -> trim (a +:+ b +:+ c) = b.
Proof.
  intros Ha Hb Hc Hwa Hwc Ht Hne. unfold trim. fold (trim_chars (chars (a +:+ b +:+ c))).
  rewrite !chars_app by (done || by apply head_ok_app).
  rewrite trim_chars_sandwich; [apply concat_chars|done|done|by apply trim_fixed_chars|].
  intros H. by apply Hne, chars_empty.
Qed.

Lemma str_rfind_app (s t p : string) i :
  str_rfind t p = Some i -> str_rfind (s +:+ t) p = Some (String.length s + i).
Proof. intros H. induction s as [|c s IH]; simpl; [done|]. by rewrite IH. Qed.

Lemma string_take_app_exact (s t : string) n : string_take (String.length s + n) (s +:+ t) = s +:+ string_take n t.
Proof. induction s as [|c s IH]; simpl; [done|]. by rewrite IH. Qed.

(** ** Decimal rendering *)

Lemma pretty_N_go_length (k : nat) (x : N) (s : string) :
  (x < 10 ^ N.of_nat k)%N -> String.length (pretty_N_go x s) <= k + String.length s.
Proof.
  revert x s. induction k as [|k IH]; intros x s Hx.
  { simpl in Hx. assert (x = 0%N) as -> by lia. by rewrite pretty_N_go_0. }
  destruct (decide (x = 0%N)) as [->|]; [rewrite pretty_N_go_0; lia|].
  rewrite pretty_N_go_step by lia. etransitivity; [apply IH|simpl; lia].
  rewrite Nat2N.inj_succ, N.pow_succ_r' in Hx. apply N.Div0.div_lt_upper_bound; lia.
Qed.

(** A [usize] has at most twenty digits. *)
Lemma fmt_nat_length (n : nat) : (Z.of_nat n <= usize_max)%Z -> String.length (fmt_nat n) <= 20.
Proof.
  intros H. unfold fmt_nat, pretty, pretty_nat, pretty, pretty_N.
  destruct (decide _); [simpl; lia|]. etransitivity; [apply (pretty_N_go_length 20)|simpl; lia].
  unfold usize_max, u64_max in H. change (10 ^ N.of_nat 20)%N with 100000000000000000000%N. lia.
Qed.

Lemma starts_with_app (s p : string) : starts_with s p = true -> exists r, s = p +:+ r.
Proof.
  revert s. induction p as [|b p IH]; intros s; [by exists s|].
  destruct s as [|a s]; simpl; [done|]. intros [->%Ascii.eqb_eq H]%andb_prop.
  destruct (IH _ H) as [r ->]. eauto.
Qed.

Lemma starts_with_self_app p b : starts_with (p +:+ b) p = true.
Proof.
  induction p as [|c p IH]; [by destruct b|]. cbn [String.append starts_with]. by rewrite Ascii.eqb_refl, IH.
Qed.

Lemma contains_middle a p b : contains (a +:+ p +:+ b) p = true.
Proof.
  unfold contains. induction a as [|c a IH].
  - change (EmptyString +:+ p +:+ b) with (p +:+ b). pose proof (starts_with_self_app p b) as H.
    destruct (p +:+ b); cbn [str_find]; by rewrite H.
  - cbn [String.append str_find]. destruct (starts_with _ p); [done|].
    destruct (str_find (a +:+ p +:+ b) p); [done|discriminate].
Qed.

(** ** Splitting and joining *)

Lemma split_byte_nonempty c s : split_byte c s <> [].
Proof. induction s as [|a s IH]; cbn; [done|]. repeat case_match; done. Qed.

Lemma join_split c s : join (String c EmptyString) (split_byte c s) = s.
Proof.
  induction s as [|a s IH]; [done|]. cbn [split_byte]. pose proof (split_byte_nonempty c s) as Hn.
  destruct (split_byte c s) as [|w ws] eqn:E; [done|]. destruct (Ascii.eqb_spec a c) as [->|].
  - change (EmptyString +:+ String c EmptyString +:+ join (String c EmptyString) (w :: ws) = String c s).
    by rewrite IH.
  - destruct ws; cbn in *; by f_equal.
Qed.

Lemma split_byte_app c a b : split_byte c (a +:+ String c b) = split_byte c a ++ split_byte c b.
Proof.
  induction a as [|x a IH]; cbn [String.append split_byte].
  { by rewrite Ascii.eqb_refl. }
  rewrite IH. destruct (Ascii.eqb x c); [done|]. pose proof (split_byte_nonempty c a).
  by destruct (split_byte c a).
Qed.

Lemma split_byte_inj c a b : split_byte c a = split_byte c b -> a = b.
Proof. intros H. rewrite <- (join_split c a), <- (join_split c b). by rewrite H. Qed.

Lemma trim_start_matches_none p s : starts_with s p = false -> trim_start_matches p s = s.
Proof.
  unfold trim_start_matches. intros H. destruct (String.length s); [done|]. cbn.
  destruct (strip_prefix s p) eqn:E; [|done]. exfalso. revert s s0 H E.
  induction p as [|x p IH]; intros s t H E; [by destruct s|]. destruct s as [|y s]; [done|].
  cbn in *. destruct (Ascii.eqb y x); [|done]. by eapply IH.
Qed.

(** ** Parsed numbers are in range *)

Lemma digits_loop_range mx acc s n :
  (0 <= acc <= mx)%Z -> digits_loop mx acc s = Some n -> (0 <= n <= mx)%Z.
Proof.
  revert acc. induction s as [|a s IH]; intros acc Hacc H; cbn in H; [by simplify_eq|].
  destruct (is_ascii_digit a) eqn:Ed; [|done]. unfold is_ascii_digit in Ed.
  apply andb_prop in Ed as [Ed _]. apply Nat.leb_le in Ed. case_match eqn:E; [|done].
  apply Z.leb_le in E. eapply IH; [|done]. lia.
Qed.

Lemma parse_uint_range mx s n : (0 <= mx)%Z -> parse_uint mx s = Some n -> (0 <= n <= mx)%Z.
Proof.
  unfold parse_uint, parse_digits. intros Hmx H. destruct (str_is_empty _); [done|].
  eapply digits_loop_range; [|done]. lia.
Qed.

Example parse_uint_seven : parse_uint 255 "+007" = Some 7%Z. Proof. reflexivity. Qed.
Example parse_uint_over : parse_uint 255 "256" = None. Proof. reflexivity. Qed.
Example parse_int_min : parse_int 127 "-128" = Some (-128)%Z. Proof. reflexivity. Qed.

(** ** Blank texts *)

Lemma drop_while_nil {A} (p : A -> bool) l : drop_while p l = [] <-> Forall (fun x => p x = true) l.
Proof.
  induction l as [|x l IH]; cbn; [done|]. destruct (p x) eqn:E.
  - rewrite IH, Forall_cons. tauto.
  - rewrite Forall_cons. split; [done|]. intros [? _]. congruence.
Qed.

Lemma is_blank_spec s :
  head_ok s = true -> is_blank s = true <-> Forall (fun c => is_whitespace c = true) (chars s).
Proof.
  intros Hs. unfold is_blank, trim. fold (trim_chars (chars s)). split.
  - intros Hb. assert (concat_strings (trim_chars (chars s)) = EmptyString) as He by (by destruct (concat_strings (trim_chars (chars s)))).
    assert (trim_chars (chars s) = []) as Ht.
    { pose proof (Forall_trim_chars _ _ (chars_head_ok_wf s Hs)) as Hw.
      destruct (trim_chars (chars s)) as [|c l]; [done|]. apply Forall_cons in Hw as [Hc _].
      by destruct c. }
    unfold trim_chars, trim_end_chars in Ht.
    assert (drop_while is_whitespace (rev (drop_while is_whitespace (chars s))) = []) as Hr.
    { apply (f_equal (@rev _)) in Ht. by rewrite rev_involutive in Ht. }
    rewrite drop_while_nil in Hr. apply Forall_rev in Hr. rewrite rev_involutive in Hr.
    apply drop_while_nil. pose proof (drop_while_head is_whitespace (chars s)) as Hh.
    destruct (drop_while is_whitespace (chars s)) as [|c l] eqn:E; [done|].
    apply Forall_cons in Hr as [Hc _]. congruence.
  - intros Hw. apply drop_while_nil in Hw. unfold trim_chars. by rewrite Hw.
Qed.

Lemma is_blank_app s t :
  head_ok s = true -> head_ok t = true -> is_blank (s +:+ t) = is_blank s && is_blank t.
Proof.
  intros Hs Ht. apply eq_true_iff_eq. rewrite andb_true_iff, !is_blank_spec by (done || by apply head_ok_app).
  by rewrite chars_app, Forall_app.
Qed.
