(* ===== verification/Json.v ===== *)
(** * JSON values

    The data type [serde_json::Value] that the program matches on, with the
    accessors it uses.  [serde_json] itself is third-party: its parser and
    printer are parameters of the definitions that call them.  An object is
    the list of its entries in iteration order. *)

From stdpp Require Import base list strings.
From Stdlib Require Import ZArith Lia.
From S2P Require Import Prelude.
From S2P Require Import RustStr.

(** [Float] carries an opaque code of a finite double. *)
Inductive Number : Type :=
| PosInt (n : Z)
| NegInt (n : Z)
| Float (code : Z).

#[warnings="-register-all"]
Inductive Value : Type :=
| VNull
| VBool (b : bool)
| VNumber (n : Number)
| VString (s : string)
| VArray (l : list Value)
| VObject (m : list (string * Value)).

#[export] Instance Number_eq_dec : EqDecision Number.
Proof. solve_decision. Defined.

#[export] Instance Value_eq_dec : EqDecision Value.
Proof.
  refine (fix go (v w : Value) : {v = w} + {v <> w} :=
    let _ : EqDecision Value := @go in
    match v, w with
    | VNull, VNull => left eq_refl
    | VBool a, VBool b => cast_if (decide (a = b))
    | VNumber a, VNumber b => cast_if (decide (a = b))
    | VString a, VString b => cast_if (decide (a = b))
    | VArray a, VArray b => cast_if (decide (a = b))
    | VObject a, VObject b => cast_if (decide (a = b))
    | _, _ => right _
    end);
  repeat match goal with r := _ : EqDecision Value |- _ => clear r end;
  clear go; abstract congruence.
Defined.

(** [m.get(key)] on an object's entries. *)
Fixpoint assoc_get {A} (k : string) (m : list (string * A)) : option A :=
  match m with
  | [] => None
  | (k', v) :: m' => if String.eqb k k' then Some v else assoc_get k m'
  end.

(** [v.get(key)] *)
Definition get (v : Value) (k : string) : option Value :=
  match v with
  | VObject m => assoc_get k m
  | _ => None
  end.

Definition as_str (v : Value) : option string :=
  match v with VString s => Some s | _ => None end.

Definition as_bool (v : Value) : option bool :=
  match v with VBool b => Some b | _ => None end.

Definition as_u64 (v : Value) : option Z :=
  match v with VNumber (PosInt n) => Some n | _ => None end.

Definition as_array (v : Value) : option (list Value) :=
  match v with VArray l => Some l | _ => None end.

Definition as_object (v : Value) : option (list (string * Value)) :=
  match v with VObject m => Some m | _ => None end.

(** Insertion into a [BTreeMap<String, A>], kept as the list of its entries
    sorted by key. *)
Fixpoint btree_insert {A} (k : string) (v : A) (m : list (string * A)) : list (string * A) :=
  match m with
  | [] => [(k, v)]
  | (k', v') :: m' =>
      match String.compare k k' with
      | Lt => (k, v) :: m
      | Eq => (k, v) :: m'
      | Gt => (k', v') :: btree_insert k v m'
      end
  end.

(** The number of a signed or unsigned integer. *)
Definition num (n : Z) : Value := VNumber (if (n <? 0)%Z then NegInt n else PosInt n).

(** [json!({..})] and [to_value] of a struct: the map sorts its keys. *)
Definition json_obj (m : list (string * Value)) : Value :=
  VObject (fold_left (fun acc kv => btree_insert kv.1 kv.2 acc) m []).

(** A field that is left out when it is [None]. *)
Definition opt_field {A} (k : string) (f : A -> Value) (o : option A) : list (string * Value) :=
  match o with Some a => [(k, f a)] | None => [] end.

(** [Display for serde_json::Value], the compact text of a value. *)
Class JsonDisplay := json_text : Value -> string.

(** Induction with hypotheses for the values inside arrays and objects. *)
Section induction.
Variable P : Value -> Prop.
Hypothesis Hnull : P VNull.
Hypothesis Hbool : forall b, P (VBool b).
Hypothesis Hnumber : forall n, P (VNumber n).
Hypothesis Hstring : forall s, P (VString s).
Hypothesis Harray : forall l, Forall P l -> P (VArray l).
Hypothesis Hobject : forall m, Forall (fun kv => P kv.2) m -> P (VObject m).

Fixpoint Value_nested_ind (v : Value) : P v :=
  match v with
  | VNull => Hnull
  | VBool b => Hbool b
  | VNumber n => Hnumber n
  | VString s => Hstring s
  | VArray l =>
      Harray l ((fix go l : Forall P l :=
        match l with
        | [] => Forall_nil_2 P
        | x :: l => Forall_cons_2 P x l (Value_nested_ind x) (go l)
        end) l)
  | VObject m =>
      Hobject m ((fix go m : Forall (fun kv => P kv.2) m :=
        match m with
        | [] => Forall_nil_2 _
        | kv :: m => Forall_cons_2 (fun kv => P kv.2) kv m (Value_nested_ind kv.2) (go m)
        end) m)
  end.
End induction.

Lemma string_compare_refl (a : string) : String.compare a a = Eq.
Proof.
  induction a as [|c a IH]; simpl; [done|]. unfold Ascii.compare. by rewrite N.compare_refl.
Qed.

Lemma string_compare_eq (a b : string) : String.compare a b = Eq <-> a = b.
Proof. split; [apply String.compare_eq_iff|intros ->; apply string_compare_refl]. Qed.

Lemma string_leb_trans (a b c : string) :
  String.leb a b = true -> String.leb b c = true -> String.leb a c = true.
Proof.
  unfold String.leb. revert b c. induction a as [|x a IH]; intros [|y b] [|z c]; simpl; try done.
  unfold Ascii.compare.
  destruct (N.compare_spec (Ascii.N_of_ascii x) (Ascii.N_of_ascii y)) as [Exy|Lxy|]; try done;
    destruct (N.compare_spec (Ascii.N_of_ascii y) (Ascii.N_of_ascii z)) as [Eyz|Lyz|]; try done;
    destruct (N.compare_spec (Ascii.N_of_ascii x) (Ascii.N_of_ascii z)) as [Exz|Lxz|]; try done; try lia.
  apply IH.
Qed.

Lemma assoc_get_insert {A} k (v : A) m : assoc_get k (btree_insert k v m) = Some v.
Proof.
  induction m as [|[k' v'] m IH]; simpl; [by rewrite String.eqb_refl|].
  destruct (String.compare k k') eqn:E; simpl; rewrite ?String.eqb_refl; try done.
  destruct (String.eqb_spec k k') as [->|]; [|done].
  by rewrite (proj2 (string_compare_eq k' k') eq_refl) in E.
Qed.

Lemma assoc_get_insert_ne {A} k k' (v : A) m :
  k <> k' -> assoc_get k' (btree_insert k v m) = assoc_get k' m.
Proof.
  intros Hne. induction m as [|[k0 v0] m IH]; simpl.
  { by destruct (String.eqb_spec k' k) as [->|]. }
  destruct (String.compare k k0) eqn:E; simpl.
  - apply string_compare_eq in E as ->. by destruct (String.eqb_spec k' k0) as [->|].
  - by destruct (String.eqb_spec k' k) as [->|].
  - by rewrite IH.
Qed.

Lemma Forall_btree_insert {A} (P : string * A -> Prop) k v m :
  P (k, v) -> Forall P m -> Forall P (btree_insert k v m).
Proof.
  intros Hkv H. induction H as [|[k' v'] m H1 H2 IH]; simpl; [by repeat constructor|].
  destruct (String.compare k k'); repeat constructor; done.
Qed.
