(* ===== verification/Errors.v ===== *)
(** * Typed errors, their classification, and bounded retry

    [src/src/core/src/error.rs], [parse_error.rs], the error types of
    [storage.rs], [llm.rs] and [budget.rs], and [retry.rs]: the [Classify]
    trait, and [retry_classified], which runs an operation again after each
    retryable failure.  With the texts the [Display] of an error prints. *)

From stdpp Require Import base list strings.
From Stdlib Require Import ZArith Lia.
From S2P Require Import Prelude.
From S2P Require Import RustStr.

(** The trait [Classify]: whether a failed operation is retried. *)
Class Classify (E : Type) := retry : E -> bool.

Module BudgetExhausted.
Inductive t : Type := AutoResumes | LlmCalls | ToolCalls | AgentSteps.

#[global] Instance eq_dec : EqDecision t.
Proof. solve_decision. Defined.

Definition display (e : t) : string :=
  match e with
  | AutoResumes => "auto-resumes exhausted"
  | LlmCalls => "llm-call budget exhausted"
  | ToolCalls => "tool-call budget exhausted"
  | AgentSteps => "agent-step budget exhausted"
  end.
End BudgetExhausted.

Module StorageError.
Inductive t : Type :=
| NotFound (s : string)
| Conflict (s : string)
| AuthExpired (s : string)
| Throttle (s : string)
| Timeout (s : string)
| Other (s : string).

#[global] Instance eq_dec : EqDecision t.
Proof. solve_decision. Defined.

Definition display (e : t) : string :=
  match e with
  | NotFound s => "not found: " +:+ s
  | Conflict s => "conflict: " +:+ s
  | AuthExpired s => "auth expired: " +:+ s
  | Throttle s => "throttle: " +:+ s
  | Timeout s => "timeout: " +:+ s
  | Other s => s
  end.

Definition retryable (e : t) : bool :=
  match e with
  | AuthExpired _ | Throttle _ | Timeout _ => true
  | _ => false
  end.

#[global] Instance classify : Classify t := retryable.
End StorageError.

Module LlmError.
(** [Timeout] holds whole seconds: every construction is [Duration::from_secs]. *)
Inductive t : Type :=
| Fatal (s : string)
| Transient (s : string)
| Timeout (secs : Z)
| Cancelled
| Budget (b : BudgetExhausted.t)
| Protocol (s : string).

#[global] Instance eq_dec : EqDecision t.
Proof. solve_decision. Defined.

Definition display (e : t) : string :=
  match e with
  | Fatal s => "fatal: " +:+ s
  | Transient s => "transient: " +:+ s
  | Timeout d => "timeout after " +:+ fmt_Z d +:+ "s"
  | Cancelled => "cancelled"
  | Budget b => "budget: " +:+ BudgetExhausted.display b
  | Protocol s => "protocol: " +:+ s
  end.

Definition retryable (e : t) : bool :=
  match e with
  | Transient _ | Timeout _ => true
  | _ => false
  end.

#[global] Instance classify : Classify t := retryable.
End LlmError.

Module StepParseError.
Inductive t : Type :=
| NotJson (s : string)
| Schema (s : string)
| ShapeMismatch (s : string)
| Args (s : string).

#[global] Instance eq_dec : EqDecision t.
Proof. solve_decision. Defined.

Definition display (e : t) : string :=
  match e with
  | NotJson s => "not JSON: " +:+ s
  | Schema s => "schema: " +:+ s
  | ShapeMismatch s => "shape: " +:+ s
  | Args s => "args not JSON: " +:+ s
  end.

Definition retriable (e : t) : bool := true.

Definition label (e : t) : string :=
  match e with
  | Schema _ => "schema_validation_failed"
  | NotJson _ | ShapeMismatch _ | Args _ => "invalid_json_from_model"
  end.
End StepParseError.

Module CoreError.
(** [Serialization] holds the text of the [serde_json::Error]. *)
Inductive t : Type :=
| Generic (s : string)
| Storage (e : StorageError.t)
| Llm (e : LlmError.t)
| Serialization (s : string)
| Session (s : string)
| Schema (s : string)
| Agent (s : string)
| Parse (e : StepParseError.t)
| AuditConflict (s : string)
| AuditUnavailable (thread : string) (retries : Z)
| Keyspace (s : string)
| Budget (b : BudgetExhausted.t).

#[global] Instance eq_dec : EqDecision t.
Proof. solve_decision. Defined.

Definition display (e : t) : string :=
  match e with
  | Generic s => s
  | Storage e => "storage error: " +:+ StorageError.display e
  | Llm e => LlmError.display e
  | Serialization s => "serialization error: " +:+ s
  | Session s => "session error: " +:+ s
  | Schema s => "schema error: " +:+ s
  | Agent s => "agent error: " +:+ s
  | Parse e => "parse error: " +:+ StepParseError.display e
  | AuditConflict s => "audit write conflict for '" +:+ s +:+ "'"
  | AuditUnavailable th n =>
      "audit unavailable for '" +:+ th +:+ "' after " +:+ fmt_Z n +:+ " conflicts"
  | Keyspace s => "keyspace error: " +:+ s
  | Budget b => "budget: " +:+ BudgetExhausted.display b
  end.

Definition retryable (e : t) : bool :=
  match e with
  | Llm err => LlmError.retryable err
  | Storage err => StorageError.retryable err
  | _ => false
  end.

#[global] Instance classify : Classify t := retryable.
End CoreError.

(** [is_storage_not_found_error], [should_retry_storage_error] and
    [classify_storage_error] of [storage.rs]. *)
Definition is_storage_not_found_error (e : CoreError.t) : bool :=
  match e with CoreError.Storage (StorageError.NotFound _) => true | _ => false end.

Definition should_retry_storage_error (e : CoreError.t) : bool :=
  match e with CoreError.Storage e => StorageError.retryable e | _ => false end.

Definition classify_storage_error (e : CoreError.t) : option StorageError.t :=
  match e with CoreError.Storage e => Some e | _ => None end.

(** The two views of a storage error agree. *)
Lemma should_retry_is_classified (e : CoreError.t) :
  should_retry_storage_error e = true <->
  exists s, classify_storage_error e = Some s /\ StorageError.retryable s = true.
Proof. destruct e; simpl; split; naive_solver. Qed.

Section retry.
Context {W T E : Type} `{!Classify E}.
Variable op : Act W E T.
(** [on_retry(attempt, err)] and [tokio::time::sleep(delay)]. *)
Variable on_retry : nat -> E -> W -> W.
Variable sleep : Z -> W -> W.

(** The [for (i, delay) in delays_ms.iter().enumerate()] loop; [last] is the
    result of the latest attempt. *)
Fixpoint retry_loop (i : nat) (delays_ms : list Z) (last : Result T E) (w : W)
  : Result T E * W :=
  match delays_ms with
  | [] => (last, w)
  | delay :: rest =>
      match last with
      | Ok _ => (last, w)
      | Err e =>
          if retry e then
            let w1 := on_retry (i + 1) e w in
            let w2 := if Z.ltb 0 delay then sleep delay w1 else w1 in
            let '(last', w3) := op w2 in
            retry_loop (i + 1) rest last' w3
          else (last, w)
      end
  end.

Definition retry_classified (delays_ms : list Z) : Act W E T :=
  fun w =>
    let '(last, w1) := op w in
    retry_loop 0 delays_ms last w1.

(** ** Specification: the runs of the loop

    [attempts n r w r' w'] : after the result [r] in world [w], exactly [n]
    more attempts are made, each after a retryable failure, and the run ends
    with [r'] in [w']. *)
Inductive attempts : nat -> nat -> list Z -> Result T E -> W -> Result T E -> W -> Prop :=
| attempts_done i ds r w : attempts i 0 ds r w r w
| attempts_more i n d ds e w r w3 r' w' :
    retry e = true ->
    op (if Z.ltb 0 d then sleep d (on_retry (i + 1) e w) else on_retry (i + 1) e w) = (r, w3) ->
    attempts (i + 1) n ds r w3 r' w' ->
    attempts i (S n) (d :: ds) (Err e) w r' w'.

Lemma retry_loop_attempts i ds r w :
  exists n r' w', retry_loop i ds r w = (r', w') /\ attempts i n ds r w r' w' /\
    n <= length ds /\
    (forall e, r' = Err e -> retry e = true -> n = length ds).
Proof.
  revert i r w. induction ds as [|d ds IH]; intros i r w; simpl.
  { exists 0, r, w. repeat split; [constructor|lia]. }
  destruct r as [t|e].
  { exists 0, (Ok t), w. repeat split; [constructor|lia|done]. }
  destruct (retry e) eqn:He.
  - destruct (op _) as [r1 w3] eqn:Hop.
    destruct (IH (i + 1) r1 w3) as (n & r' & w' & Hrun & Ha & Hn & Hex).
    exists (S n), r', w'. repeat split; [done|by econstructor|lia|].
    intros e' ? ?. erewrite Hex; eauto.
  - exists 0, (Err e), w. repeat split; [constructor|lia|]. intros e' [=<-]. congruence.
Qed.

(** A run stops early only on a success or on an error that is not retryable,
    and never makes more than one attempt per delay after the first. *)
Lemma retry_classified_attempts ds w r0 w0 :
  op w = (r0, w0) ->
  exists n r' w', retry_classified ds w = (r', w') /\ attempts 0 n ds r0 w0 r' w' /\
    n <= length ds /\
    (forall e, r' = Err e -> retry e = true -> n = length ds).
Proof.
  intros Hop. unfold retry_classified. rewrite Hop. apply retry_loop_attempts.
Qed.

Lemma retry_classified_first ds w r0 w0 :
  op w = (r0, w0) ->
  (forall e, r0 = Err e -> retry e = false) ->
  retry_classified ds w = (r0, w0).
Proof.
  intros Hop Hr. unfold retry_classified. rewrite Hop.
  destruct ds as [|d ds]; simpl; [done|]. destruct r0 as [t|e]; [done|]. by rewrite Hr.
Qed.
End retry.
