(* ===== verification/Interrupt.v ===== *)
(** * Interrupt policies

    [src/src/core/src/interrupt.rs]: how a run answers a request for user
    input, for an approval, or for a review. *)

From stdpp Require Import base strings.
From S2P Require Import Prelude.
From S2P Require Import RustStr.
From S2P Require Import Json.

Module InterruptDecision.
Inductive t : Type := Forward | AutoApprove | Reject (reason : string).
End InterruptDecision.

Module ReviewDecision.
Inductive t : Type := Forward | AutoApprove | Reject (reason : string).
End ReviewDecision.

(** The trait [InterruptPolicy]. *)
Class InterruptPolicy (P : Type) := {
  on_await_user : P -> string -> InterruptDecision.t;
  on_await_approval : P -> string -> InterruptDecision.t;
  on_review : P -> string -> option Value -> ReviewDecision.t
}.

Inductive WsInterruptPolicy : Type := Ws.
Inductive AutoApprovePolicy : Type := AutoApproves.
Inductive RejectPolicy : Type := Rejects.

#[global] Instance ws_policy : InterruptPolicy WsInterruptPolicy := {|
  on_await_user _ _ := InterruptDecision.Forward;
  on_await_approval _ _ := InterruptDecision.Forward;
  on_review _ _ _ := ReviewDecision.Forward
|}.

#[global] Instance auto_approve_policy : InterruptPolicy AutoApprovePolicy := {|
  on_await_user _ _ := InterruptDecision.Reject "ask_user_not_supported_in_headless";
  on_await_approval _ _ := InterruptDecision.AutoApprove;
  on_review _ _ _ := ReviewDecision.AutoApprove
|}.

#[global] Instance reject_policy : InterruptPolicy RejectPolicy := {|
  on_await_user _ prompt :=
    InterruptDecision.Reject ("ask_user_not_supported_in_headless: " +:+ prompt);
  on_await_approval _ prompt :=
    InterruptDecision.Reject ("await_approval_not_supported_in_headless: " +:+ prompt);
  on_review _ _ _ := ReviewDecision.Reject "review_not_supported_in_headless"
|}.

(** A policy that never waits for a user. *)
Definition headless {P} `{InterruptPolicy P} (p : P) : Prop :=
  (forall s, on_await_user p s <> InterruptDecision.Forward) /\
  (forall s, on_await_approval p s <> InterruptDecision.Forward) /\
  (forall s m, on_review p s m <> ReviewDecision.Forward).

Lemma headless_policies : headless AutoApproves /\ headless Rejects.
Proof. by repeat split. Qed.
