(* ===== verification/Budget.v ===== *)
(** * Run budgets

    [src/src/core/src/budget.rs]: the fixed ceilings of a run, the shared
    meter that charges work against them (sequentially, and as a step relation
    over interleaved compare-and-swap loops), the cancel flag, and the ledger
    of repeated failures. *)

From stdpp Require Import base list strings gmap relations.
From Stdlib Require Import ZArith Lia ZifyBool.
From S2P Require Import Prelude.
From S2P Require Import RustStr.
From S2P Require Import Json.
From S2P Require Import Errors.

Local Open Scope Z_scope.

Definition MAX_AUTO_RESUMES : Z := 8.
Definition AUDIT_MAX_CONFLICT_RETRIES : Z := 5.
Definition MAX_REPEATED_ACTION_FAILURES : Z := 3.

Definition charge_auto_resume (used : Z) : Result Z BudgetExhausted.t :=
  match checked_add u8_max used 1 with
  | None => Err BudgetExhausted.AutoResumes
  | Some next =>
      if MAX_AUTO_RESUMES <? next then Err BudgetExhausted.AutoResumes else Ok next
  end.

Inductive Charge : Type := LlmCall | ToolCall | AgentStep.

#[global] Instance Charge_eq_dec : EqDecision Charge.
Proof. solve_decision. Defined.

Record RunBudget : Type := {
  max_llm_calls : Z;
  max_tool_calls : Z;
  max_agent_steps : Z
}.

Definition agent_steps (n : Z) : RunBudget :=
  let per := if n =? 0 then 8 else if u32_max / 8 <? n then u32_max else n * 8 in
  let per := if per <? 8 then 8 else per in
  {| max_llm_calls := per; max_tool_calls := per; max_agent_steps := n |}.

Definition STANDARD : RunBudget := agent_steps 10.

Definition with_agent_steps (self : RunBudget) (n : Z) : RunBudget := agent_steps n.

(** The ceiling of a charge and the error past it. *)
Definition ceiling (b : RunBudget) (c : Charge) : Z :=
  match c with
  | LlmCall => max_llm_calls b
  | ToolCall => max_tool_calls b
  | AgentStep => max_agent_steps b
  end.

Definition exhausted (c : Charge) : BudgetExhausted.t :=
  match c with
  | LlmCall => BudgetExhausted.LlmCalls
  | ToolCall => BudgetExhausted.ToolCalls
  | AgentStep => BudgetExhausted.AgentSteps
  end.

Module BudgetMeter.
Record t : Type := {
  budget : RunBudget;
  llm_calls : Z;
  tool_calls : Z;
  steps : Z
}.

Definition new (b : RunBudget) : t :=
  {| budget := b; llm_calls := 0; tool_calls := 0; steps := 0 |}.

Definition snapshot (m : t) : RunBudget := budget m.

Definition raise_agent_steps (n : Z) (m : t) : t :=
  {| budget := with_agent_steps (budget m) (Z.max n (max_agent_steps (budget m)));
     llm_calls := llm_calls m; tool_calls := tool_calls m; steps := steps m |}.

(** The atomic cell a charge counts in. *)
Definition cell (c : Charge) (m : t) : Z :=
  match c with LlmCall => llm_calls m | ToolCall => tool_calls m | AgentStep => steps m end.

Definition store (c : Charge) (n : Z) (m : t) : t :=
  match c with
  | LlmCall => {| budget := budget m; llm_calls := n; tool_calls := tool_calls m; steps := steps m |}
  | ToolCall => {| budget := budget m; llm_calls := llm_calls m; tool_calls := n; steps := steps m |}
  | AgentStep => {| budget := budget m; llm_calls := llm_calls m; tool_calls := tool_calls m; steps := n |}
  end.

(** [compare_exchange(old, new)]: whether it succeeded, and the cell after. *)
Definition compare_exchange (c : Charge) (old new : Z) (m : t) : bool * t :=
  if cell c m =? old then (true, store c new m) else (false, m).

(** [charge] when no other task runs between its load and its exchange. *)
Definition charge (c : Charge) : Act t BudgetExhausted.t unit :=
  fun m =>
    let max := ceiling (snapshot m) c in
    let n := cell c m in
    if max <=? n then (Err (exhausted c), m)
    else let '(ok, m') := compare_exchange c n (n + 1) m in
         (if ok then Ok tt else Err (exhausted c), m').

Lemma cell_store c c' n m :
  cell c' (store c n m) = if decide (c = c') then n else cell c' m.
Proof. by destruct c, c'. Qed.

Lemma budget_store c n m : budget (store c n m) = budget m.
Proof. by destruct c. Qed.

Lemma compare_exchange_ok c old new m m' :
  compare_exchange c old new m = (true, m') -> old = cell c m /\ m' = store c new m.
Proof. unfold compare_exchange. destruct (Z.eqb_spec (cell c m) old); naive_solver. Qed.

Lemma compare_exchange_fail c old new m m' :
  compare_exchange c old new m = (false, m') -> cell c m <> old /\ m' = m.
Proof. unfold compare_exchange. destruct (Z.eqb_spec (cell c m) old); naive_solver. Qed.
End BudgetMeter.

(** ** The meter shared by concurrent tasks

    [charge] as the code runs it: a task snapshots the ceiling, then loops
    loading the cell and exchanging it.  Each step is one atomic access. *)

Module Contended.
Inductive task : Type :=
| Idle
| Looping (c : Charge) (max : Z)
| Loaded (c : Charge) (max n : Z).

(** [oks c] counts the charges of kind [c] that returned [Ok]. *)
Record state : Type := {
  meter : BudgetMeter.t;
  tasks : list task;
  oks : Charge -> Z
}.

Definition init (b : RunBudget) (n : nat) : state :=
  {| meter := BudgetMeter.new b; tasks := repeat Idle n; oks := fun _ => 0 |}.

Definition bump (c : Charge) (f : Charge -> Z) : Charge -> Z :=
  fun c' => if decide (c = c') then f c' + 1 else f c'.

Definition set_task (i : nat) (k : task) (s : state) : state :=
  {| meter := meter s; tasks := <[i := k]> (tasks s); oks := oks s |}.

(** One atomic access of a task inside [charge]. *)
Inductive work : state -> state -> Prop :=
| work_full s i c max :
    tasks s !! i = Some (Looping c max) ->
    max <= BudgetMeter.cell c (meter s) ->
    work s (set_task i Idle s)
| work_load s i c max :
    tasks s !! i = Some (Looping c max) ->
    BudgetMeter.cell c (meter s) < max ->
    work s (set_task i (Loaded c max (BudgetMeter.cell c (meter s))) s)
| work_cas_ok s i c max n m' :
    tasks s !! i = Some (Loaded c max n) ->
    BudgetMeter.compare_exchange c n (n + 1) (meter s) = (true, m') ->
    work s {| meter := m'; tasks := <[i := Idle]> (tasks s); oks := bump c (oks s) |}
| work_cas_fail s i c max n m' :
    tasks s !! i = Some (Loaded c max n) ->
    BudgetMeter.compare_exchange c n (n + 1) (meter s) = (false, m') ->
    work s {| meter := m'; tasks := <[i := Looping c max]> (tasks s); oks := oks s |}.

(** A task enters [charge], or the host raises the agent steps. *)
Inductive arrive : state -> state -> Prop :=
| arrive_begin s i c :
    tasks s !! i = Some Idle ->
    arrive s (set_task i (Looping c (ceiling (BudgetMeter.snapshot (meter s)) c)) s)
| arrive_raise s n :
    arrive s {| meter := BudgetMeter.raise_agent_steps n (meter s); tasks := tasks s; oks := oks s |}.

Definition step (s s' : state) : Prop := work s s' \/ arrive s s'.

(** The ceiling a task is working with never exceeds the current one. *)
Definition task_ok (b : RunBudget) (k : task) : Prop :=
  match k with
  | Idle => True
  | Looping c max => max <= ceiling b c
  | Loaded c max n => max <= ceiling b c /\ n < max
  end.

Record wf (s : state) : Prop := {
  wf_budget : BudgetMeter.budget (meter s) = agent_steps (max_agent_steps (BudgetMeter.budget (meter s)));
  wf_nonneg : 0 <= max_agent_steps (BudgetMeter.budget (meter s));
  wf_count c : BudgetMeter.cell c (meter s) = oks s c;
  wf_ceiling c : BudgetMeter.cell c (meter s) <= ceiling (BudgetMeter.budget (meter s)) c;
  wf_tasks : Forall (task_ok (BudgetMeter.budget (meter s))) (tasks s)
}.
End Contended.

(** Case analysis on the ceilings of a derived budget. *)
Ltac budget_cases :=
  unfold ceiling, agent_steps in *;
  cbn [max_llm_calls max_tool_calls max_agent_steps] in *;
  change (u32_max / 8) with 536870911 in *; unfold u32_max in *;
  repeat case_match; try lia.

(** Raising the agent steps raises every ceiling of a derived budget. *)
Lemma agent_steps_mono a b c : 0 <= a <= b -> ceiling (agent_steps a) c <= ceiling (agent_steps b) c.
Proof. intros H. destruct c; budget_cases. Qed.

Lemma agent_steps_bounds n c :
  0 <= n <= u32_max -> 0 <= ceiling (agent_steps n) c <= u32_max.
Proof. intros H. destruct c; budget_cases. Qed.

Lemma task_ok_mono b b' k :
  (forall c, ceiling b c <= ceiling b' c) -> Contended.task_ok b k -> Contended.task_ok b' k.
Proof. intros H. destruct k as [|c|c max n]; simpl; [done| |]; specialize (H c); lia. Qed.

Lemma contended_init_wf n k : 0 <= n -> Contended.wf (Contended.init (agent_steps n) k).
Proof.
  intros H. split; simpl; try done.
  - by intros [].
  - intros []; simpl; budget_cases.
  - apply Forall_forall. intros x ->%list_elem_of_In%repeat_spec. done.
Qed.

Lemma wf_lookup s i k :
  Contended.wf s -> Contended.tasks s !! i = Some k ->
  Contended.task_ok (BudgetMeter.budget (Contended.meter s)) k.
Proof. intros [_ _ _ _ Ht] Hi. by eapply Forall_lookup_1 in Ht. Qed.

Lemma contended_work_wf s s' : Contended.wf s -> Contended.work s s' -> Contended.wf s'.
Proof.
  intros Hwf Hstep. pose proof (wf_lookup s) as Hlk. pose proof Hwf as [Hb Hn Hc Hm Ht].
  destruct Hstep as [s i c max Hi Hle|s i c max Hi Hlt|s i c max n m' Hi Hx|s i c max n m' Hi Hx].
  - split; simpl; auto. by apply Forall_insert.
  - split; simpl; auto. apply Forall_insert; [done|]. simpl.
    split; [apply (Hlk _ _ Hwf Hi)|done].
  - apply BudgetMeter.compare_exchange_ok in Hx as [-> ->]. pose proof (Hlk _ _ Hwf Hi) as Hk. simpl in Hk.
    split; simpl; rewrite ?BudgetMeter.budget_store; auto.
    + intros c'. rewrite BudgetMeter.cell_store. unfold Contended.bump.
      case_decide; [subst|done]. by rewrite Hc.
    + intros c'. rewrite BudgetMeter.cell_store. case_decide; [subst; lia|auto].
    + by apply Forall_insert.
  - apply BudgetMeter.compare_exchange_fail in Hx as [Hne ->].
    pose proof (Hlk _ _ Hwf Hi) as Hk. simpl in Hk.
    split; simpl; auto. apply Forall_insert; [done|]. simpl. tauto.
Qed.

Lemma contended_arrive_wf s s' : Contended.wf s -> Contended.arrive s s' -> Contended.wf s'.
Proof.
  intros Hwf Hst. destruct Hst as [s0 i c Hi|s0 n]; destruct Hwf as [Hb Hn Hc Hm Ht].
  - split; simpl; auto. apply Forall_insert; [done|]. simpl. done.
  - assert (forall c, ceiling (BudgetMeter.budget (Contended.meter s0)) c <=
      ceiling (agent_steps (Z.max n (max_agent_steps (BudgetMeter.budget (Contended.meter s0))))) c) as Hup.
    { intros c. rewrite Hb. apply agent_steps_mono. simpl. lia. }
    split; simpl; auto; [lia| |].
    + intros c. etrans; [|apply Hup]. apply (Hm c).
    + eapply Forall_impl; [exact Ht|]. intros k. by apply task_ok_mono.
Qed.

Lemma contended_step_wf s s' : Contended.wf s -> Contended.step s s' -> Contended.wf s'.
Proof. intros Hwf [H|H]; eauto using contended_work_wf, contended_arrive_wf. Qed.

Lemma contended_reachable_wf n k s :
  0 <= n -> rtc Contended.step (Contended.init (agent_steps n) k) s -> Contended.wf s.
Proof.
  intros Hn Hr. assert (Contended.wf (Contended.init (agent_steps n) k)) as H0 by by apply contended_init_wf.
  revert H0. induction Hr; eauto using contended_step_wf.
Qed.

(** ** Termination of the exchange loops *)

Definition task_rank (m : BudgetMeter.t) (k : Contended.task) : nat :=
  match k with
  | Contended.Idle => 0
  | Contended.Looping _ _ => 2
  | Contended.Loaded c _ n => if n =? BudgetMeter.cell c m then 1 else 3
  end.

Definition capacity (m : BudgetMeter.t) : nat :=
  Z.to_nat (ceiling (BudgetMeter.budget m) LlmCall - BudgetMeter.cell LlmCall m) +
  Z.to_nat (ceiling (BudgetMeter.budget m) ToolCall - BudgetMeter.cell ToolCall m) +
  Z.to_nat (ceiling (BudgetMeter.budget m) AgentStep - BudgetMeter.cell AgentStep m).

Definition total_rank (m : BudgetMeter.t) (ks : list Contended.task) : nat :=
  sum_list_with (task_rank m) ks.

Definition work_measure (s : Contended.state) : nat :=
  (capacity (Contended.meter s) * (3 * length (Contended.tasks s) + 1) +
   total_rank (Contended.meter s) (Contended.tasks s))%nat.

Lemma total_rank_bound m ks : (total_rank m ks <= 3 * length ks)%nat.
Proof.
  induction ks as [|k ks IH]; simpl; [lia|].
  assert (task_rank m k <= 3)%nat by (destruct k; simpl; repeat case_match; lia). lia.
Qed.

Lemma total_rank_insert m ks i k k' :
  ks !! i = Some k ->
  (total_rank m (<[i := k']> ks) + task_rank m k = total_rank m ks + task_rank m k')%nat.
Proof.
  revert i. induction ks as [|x ks IH]; intros [|i] Hi; simplify_eq/=; [lia|].
  specialize (IH _ Hi). lia.
Qed.

Lemma capacity_store c m :
  BudgetMeter.cell c m < ceiling (BudgetMeter.budget m) c ->
  (capacity (BudgetMeter.store c (BudgetMeter.cell c m + 1) m) + 1 = capacity m)%nat.
Proof. unfold capacity. rewrite BudgetMeter.budget_store. destruct c; simpl; lia. Qed.

Lemma work_measure_decreases s s' :
  Contended.wf s -> Contended.work s s' -> (work_measure s' < work_measure s)%nat.
Proof.
  intros Hwf Hstep. pose proof (wf_lookup s) as Hlk. unfold work_measure.
  destruct Hstep as [s i c max Hi Hle|s i c max Hi Hlt|s i c max n m' Hi Hx|s i c max n m' Hi Hx];
    simpl; rewrite length_insert; specialize (Hlk _ _ Hwf Hi); simpl in Hlk;
    pose proof (total_rank_insert (Contended.meter s) _ _ _ Contended.Idle Hi) as H0;
    pose proof (total_rank_insert (Contended.meter s) _ _ _ (Contended.Looping c max) Hi) as H1;
    simpl in H0, H1.
  - lia.
  - pose proof (total_rank_insert (Contended.meter s) _ _ _
      (Contended.Loaded c max (BudgetMeter.cell c (Contended.meter s))) Hi) as H2.
    simpl in H2. rewrite Z.eqb_refl in H2. lia.
  - apply BudgetMeter.compare_exchange_ok in Hx as [-> ->].
    pose proof (capacity_store c (Contended.meter s)) as Hcap.
    pose proof (total_rank_bound (BudgetMeter.store c (BudgetMeter.cell c (Contended.meter s) + 1)
      (Contended.meter s)) (<[i:=Contended.Idle]> (Contended.tasks s))) as Hb.
    rewrite length_insert in Hb. rewrite <- Hcap, Nat.mul_add_distr_r by lia. lia.
  - apply BudgetMeter.compare_exchange_fail in Hx as [Hne ->]. case_match; lia.
Qed.

(** The compare-and-swap loops of [BudgetMeter::charge] terminate: from a
    well-formed state, in which any number of tasks may be inside [charge], no
    infinite sequence of their atomic accesses exists, whatever the
    interleaving. *)
Theorem contended_charges_terminate s : Contended.wf s -> sn Contended.work s.
Proof.
  remember (work_measure s) as n eqn:Hn. revert s Hn.
  induction n as [n IH] using lt_wf_ind. intros s -> Hwf. constructor. intros s' Hs.
  eapply IH; eauto using contended_work_wf. by apply work_measure_decreases.
Qed.

(** C23: Tasks charging one meter concurrently, with the ceilings raised at
    any moment, never overshoot: in every reachable state each counter equals
    the number of successful charges and is at most the current ceiling. *)
Theorem meter_never_overshoots n k s c :
  0 <= n -> rtc Contended.step (Contended.init (agent_steps n) k) s ->
  BudgetMeter.cell c (Contended.meter s) = Contended.oks s c /\
  Contended.oks s c <= ceiling (BudgetMeter.budget (Contended.meter s)) c.
Proof.
  intros Hn [Hb Hnn Hc Hm Ht]%contended_reachable_wf; [|done]. rewrite <- Hc. auto.
Qed.

Lemma meter_never_overshoots_witness :
  exists s, rtc Contended.step (Contended.init (agent_steps 0) 2) s /\
  (BudgetMeter.cell AgentStep (Contended.meter s) = Contended.oks s AgentStep /\
   Contended.oks s AgentStep <= ceiling (BudgetMeter.budget (Contended.meter s)) AgentStep).
Proof.
  unshelve refine ((fun H => ex_intro _ _
    (conj H (meter_never_overshoots 0 2 _ AgentStep _ H))) _); [|lia|].
  2: { eapply rtc_l; [right; apply (Contended.arrive_raise _ 1)|].
    eapply rtc_l; [right; by apply (Contended.arrive_begin _ 0 AgentStep)|].
    eapply rtc_l; [left; by eapply (Contended.work_load _ 0)|].
    eapply rtc_l; [left; by eapply (Contended.work_cas_ok _ 0)|].
    apply rtc_refl. }
Defined.

Lemma contended_charges_terminate_witness :
  sn Contended.work (Contended.init (agent_steps 10) 3).
Proof. apply contended_charges_terminate. apply contended_init_wf. lia. Defined.

(** A task that enters [charge] and is not interrupted runs exactly the
    sequential [charge]: it ends idle, with the meter that [charge] computes,
    and counts a success exactly when [charge] returns [Ok]. *)
Theorem charge_refines_contended s i c :
  Contended.tasks s !! i = Some Contended.Idle ->
  let '(r, m') := BudgetMeter.charge c (Contended.meter s) in
  rtc Contended.step s
    {| Contended.meter := m'; Contended.tasks := Contended.tasks s;
       Contended.oks := if is_Ok r then Contended.bump c (Contended.oks s) else Contended.oks s |}.
Proof.
  intros Hi. unfold BudgetMeter.charge.
  pose proof (lookup_lt_Some _ _ _ Hi) as Hlen.
  destruct (Z.leb_spec (ceiling (BudgetMeter.snapshot (Contended.meter s)) c)
    (BudgetMeter.cell c (Contended.meter s))) as [Hle|Hlt].
  - eapply rtc_l; [right; by eapply (Contended.arrive_begin _ i c)|].
    eapply rtc_l; [left; eapply (Contended.work_full _ i c); [by apply list_lookup_insert_eq|done]|].
    destruct s as [m ks o]; simpl in *. unfold Contended.set_task; simpl.
    rewrite list_insert_insert_eq, list_insert_id by done. apply rtc_refl.
  - unfold BudgetMeter.compare_exchange. rewrite Z.eqb_refl.
    eapply rtc_l; [right; by eapply (Contended.arrive_begin _ i c)|].
    eapply rtc_l; [left; eapply (Contended.work_load _ i c); [by apply list_lookup_insert_eq|done]|].
    eapply rtc_l; [left; eapply (Contended.work_cas_ok _ i c); [|]|].
    { simpl. apply list_lookup_insert_eq. by rewrite length_insert. }
    { simpl. unfold BudgetMeter.compare_exchange. by rewrite Z.eqb_refl. }
    simpl. rewrite !list_insert_insert_eq, list_insert_id by done. apply rtc_refl.
Qed.

Lemma charge_refines_contended_witness :
  rtc Contended.step (Contended.init (agent_steps 1) 1)
    {| Contended.meter := BudgetMeter.store LlmCall 1 (BudgetMeter.new (agent_steps 1));
       Contended.tasks := [Contended.Idle];
       Contended.oks := Contended.bump LlmCall (fun _ => 0) |}.
Proof.
  exact (charge_refines_contended (Contended.init (agent_steps 1) 1) 0 LlmCall eq_refl).
Defined.

(** ** Repeated failures of one action *)

Section ledger.
(** [hash_args]: the [DefaultHasher] of the printed arguments. *)
Variable hash_args : Value -> Z.

(** [ActionLedger]: failures seen per (tool, argument hash). *)
Definition ActionLedger : Type := gmap (string * Z) Z.

Definition record_failure (tool : string) (args : Value) (self : ActionLedger)
  : Result Z Z * ActionLedger :=
  let fp := (tool, hash_args args) in
  let n := sat_add u8_max (default 0 (self !! fp)) 1 in
  let seen := <[fp := n]> self in
  (if MAX_REPEATED_ACTION_FAILURES <=? n then Err n else Ok n, seen).

(** The ledger after failures of the given actions, in order. *)
Definition record_all (acts : list (string * Value)) (self : ActionLedger) : ActionLedger :=
  fold_left (fun l a => (record_failure a.1 a.2 l).2) acts self.

Definition fingerprint (a : string * Value) : string * Z := (a.1, hash_args a.2).

Definition occurrences (fp : string * Z) (acts : list (string * Value)) : nat :=
  length (filter (fun a => fingerprint a = fp) acts).

Lemma record_all_count acts self fp :
  default 0 (record_all acts self !! fp) =
  match occurrences fp acts with
  | O => default 0 (self !! fp)
  | n => Z.min u8_max (default 0 (self !! fp) + Z.of_nat n)
  end.
Proof.
  revert self. unfold occurrences, record_all.
  induction acts as [|[t a] acts IH]; intros self; cbn [fold_left]; [done|].
  rewrite IH. rewrite filter_cons. unfold record_failure, fingerprint; cbn [fst snd].
  destruct (decide ((t, hash_args a) = fp)) as [<-|Hne].
  - unfold ActionLedger in *. rewrite lookup_insert_eq. cbn [length default].
    unfold sat_add, u8_max. destruct (length _); simpl; lia.
  - unfold ActionLedger in *. by rewrite lookup_insert_ne.
Qed.

(** [ActionLedger::record_failure] signals a stop exactly when the same
    (tool, arguments) fingerprint has now failed at least three times,
    whatever other failures were recorded in between, and reports the number
    of failures, saturated at 255. *)
Theorem record_failure_stops_at_three acts tool args :
  let n := Z.of_nat (occurrences (tool, hash_args args) acts) + 1 in
  (record_failure tool args (record_all acts ∅)).1 =
    if n <? 3 then Ok n else Err (Z.min 255 n).
Proof.
  unfold record_failure. rewrite record_all_count. unfold ActionLedger.
  rewrite lookup_empty. cbn [default fst].
  unfold sat_add, u8_max, MAX_REPEATED_ACTION_FAILURES.
  destruct (occurrences _ _) as [|k]; [done|].
  repeat case_match; try f_equal; lia.
Qed.
End ledger.

(** ** Auto-resumes *)

(** The resumes granted by [k] consecutive requests from [used]: the run stops
    at the first refusal. *)
Fixpoint grant_resumes (k : nat) (used : Z) : nat :=
  match k with
  | O => O
  | S k' => match charge_auto_resume used with
            | Ok used' => S (grant_resumes k' used')
            | Err _ => O
            end
  end.

(** However many auto-resumes a run asks for, starting from a count that
    fits a [u8], exactly the remainder up to [MAX_AUTO_RESUMES] is granted. *)
Theorem auto_resumes_are_bounded k used :
  in_range u8_max used ->
  grant_resumes k used = Nat.min k (Z.to_nat (MAX_AUTO_RESUMES - used)).
Proof.
  revert used. induction k as [|k IH]; intros used Hr; [done|].
  simpl. unfold charge_auto_resume, checked_add, MAX_AUTO_RESUMES.
  unfold in_range, u8_max in *. repeat case_match; simplify_eq; try lia.
  rewrite IH by lia. unfold MAX_AUTO_RESUMES. lia.
Qed.

Lemma auto_resumes_are_bounded_witness :
  in_range u8_max 0 /\ grant_resumes 20 0 = 8%nat.
Proof. split; [int_solve|]. rewrite (auto_resumes_are_bounded 20 0); [done|int_solve]. Defined.
