(* ===== verification/Cancel.v ===== *)
(** * The cancel flag

    [Cancel] of [src/src/core/src/budget.rs]: an atomic flag and a
    [tokio::sync::Notify].  [cancel] and one [cancelled] waiter run as two
    tasks whose atomic accesses interleave.  [Notify] is third-party: its
    operations are parameters, with the documented behaviour that
    [notify_waiters] wakes the [Notified] futures that exist when it is called
    and stores no permit for later ones. *)

From stdpp Require Import base list relations.
From Stdlib Require Import Lia.
From S2P Require Import Prelude.

(** The operations of a notifier [N] with futures [F]. *)
Class Notify (N F : Type) := {
  notify_new : N;
  notified : N -> F * N;
  notify_waiters : N -> N;
  woken : N -> F -> bool;
  created : N -> F -> Prop
}.

Class NotifyLaws (N F : Type) `{Notify N F} : Prop := {
  notified_created n : created (notified n).2 (notified n).1;
  notified_asleep n : woken (notified n).2 (notified n).1 = false;
  notify_waiters_wakes n f : created n f -> woken (notify_waiters n) f = true
}.

Section cancel.
Context {N F : Type} `{HN : !Notify N F}.

(** Where the task running [cancelled().await] is: about to read the flag,
    past an unset flag and about to call [notified()], awaiting a future, or
    returned.  Where the task running [cancel()] is: before the store, before
    [notify_waiters()], or returned. *)
Inductive waiter : Type := Reading | Subscribing | Awaiting (f : F) | Returned.
Inductive canceller : Type := Storing | Notifying | Finished.

Record Cancel : Type := {
  flag : bool;
  notify : N;
  wpc : waiter;
  cpc : canceller
}.

Definition new : Cancel :=
  {| flag := false; notify := notify_new; wpc := Reading; cpc := Storing |}.

Definition is_cancelled (c : Cancel) : bool := flag c.

(** One step of [cancelled], [None] when the task is blocked or has returned. *)
Definition cancelled_step (c : Cancel) : option Cancel :=
  match wpc c with
  | Reading =>
      if is_cancelled c
      then Some {| flag := flag c; notify := notify c; wpc := Returned; cpc := cpc c |}
      else Some {| flag := flag c; notify := notify c; wpc := Subscribing; cpc := cpc c |}
  | Subscribing =>
      let '(f, n) := notified (notify c) in
      Some {| flag := flag c; notify := n; wpc := Awaiting f; cpc := cpc c |}
  | Awaiting f =>
      if woken (notify c) f
      then Some {| flag := flag c; notify := notify c; wpc := Reading; cpc := cpc c |}
      else None
  | Returned => None
  end.

Definition cancel_step (c : Cancel) : option Cancel :=
  match cpc c with
  | Storing => Some {| flag := true; notify := notify c; wpc := wpc c; cpc := Notifying |}
  | Notifying =>
      Some {| flag := flag c; notify := notify_waiters (notify c); wpc := wpc c; cpc := Finished |}
  | Finished => None
  end.

Definition step (c c' : Cancel) : Prop :=
  cancelled_step c = Some c' \/ cancel_step c = Some c'.

(** The waiter is suspended for ever although the flag is set. *)
Definition lost (c : Cancel) : Prop :=
  flag c = true /\ cpc c = Finished /\ (exists f, wpc c = Awaiting f) /\
  cancelled_step c = None /\ cancel_step c = None.

Context `{!NotifyLaws N F}.

Record inv (c : Cancel) : Prop := {
  inv_flag : cpc c <> Storing -> flag c = true;
  inv_returned : wpc c = Returned -> flag c = true;
  inv_awaiting f : wpc c = Awaiting f -> cpc c <> Finished ->
    created (notify c) f /\ woken (notify c) f = false
}.

Lemma inv_new : inv new.
Proof. split; simpl; done. Qed.

Lemma inv_step c c' : inv c -> step c c' -> inv c'.
Proof.
  intros [I1 I2 I3] [H|H].
  - unfold cancelled_step in H.
    destruct (wpc c) as [| |f|] eqn:Hw; [|destruct (notified (notify c)) as [f n] eqn:Hn|..];
      repeat case_match; simplify_eq; split; simpl; try naive_solver.
    intros f' [= <-] _. pose proof (notified_created (notify c)) as Hc.
    pose proof (notified_asleep (notify c)) as Ha. by rewrite Hn in Hc, Ha.
  - unfold cancel_step in H.
    destruct (cpc c) eqn:Hp; simplify_eq; split; simpl; try naive_solver.
Qed.

Lemma inv_reachable c : rtc step new c -> inv c.
Proof. intros H. pose proof inv_new as H0. revert H0. induction H; eauto using inv_step. Qed.

(** [cancelled] returns only after [cancel] has set the flag. *)
Theorem cancelled_only_when_set c : rtc step new c -> wpc c = Returned -> is_cancelled c = true.
Proof. intros H%inv_reachable. apply inv_returned, H. Qed.

(** The window in which a wakeup is lost exists: the waiter reads an
    unset flag, [cancel] sets it and notifies, and only then does the waiter
    create its [Notified] future; it then waits for ever although the flag is
    set. *)
Theorem cancelled_can_lose_the_wakeup : exists c, rtc step new c /\ lost c.
Proof.
  destruct (notified (notify_waiters notify_new)) as [f n] eqn:Hn.
  pose proof (notified_asleep (notify_waiters notify_new)) as Ha. rewrite Hn in Ha. simpl in Ha.
  exists {| flag := true; notify := n; wpc := Awaiting f; cpc := Finished |}. split.
  - eapply rtc_l; [left; reflexivity|]. eapply rtc_l; [right; reflexivity|].
    eapply rtc_l; [right; reflexivity|]. eapply rtc_l; [|apply rtc_refl].
    left. unfold cancelled_step; simpl. by rewrite Hn.
  - repeat split; simpl; eauto. unfold cancelled_step; simpl. by rewrite Ha.
Qed.

(** The waiter has returned, has still to read a flag that is set, or awaits a
    future that [cancel] wakes or has woken. *)
Definition safe (c : Cancel) : Prop :=
  inv c /\
  (wpc c = Returned \/ (wpc c = Reading /\ flag c = true) \/
   exists f, wpc c = Awaiting f /\ (cpc c = Finished -> woken (notify c) f = true)).

Lemma safe_step c c' : safe c -> step c c' -> safe c'.
Proof.
  intros [Hi Hg] Hs. split; [by eapply inv_step|]. destruct Hi as [I1 I2 I3].
  destruct Hs as [H|H]; [unfold cancelled_step, is_cancelled in H|unfold cancel_step in H].
  - destruct Hg as [Hg|[[Hg Hf]|(f & Hg & Hf)]]; rewrite Hg in H; simplify_eq.
    + rewrite Hf in H. simplify_eq. simpl. auto.
    + case_match eqn:Hwk; simplify_eq. simpl. right; left. split; [done|].
      apply I1. intros Hp. destruct (I3 f Hg) as [_ Hw]; [by rewrite Hp|congruence].
  - destruct (cpc c) eqn:Hp; simplify_eq; simpl.
    + destruct Hg as [Hg|[[Hg Hf]|(f & Hg & Hf)]]; [auto|auto|].
      right; right. exists f. split; [done|done].
    + destruct Hg as [Hg|[[Hg Hf]|(f & Hg & Hf)]]; [auto|auto|].
      right; right. exists f. split; [done|]. intros _. apply notify_waiters_wakes.
      by apply I3.
Qed.

(** Outside that window no wakeup is lost: if the waiter's future exists,
    or the flag is already set when it reads it, before [cancel] notifies, then
    no interleaving of the two tasks gets stuck before [cancelled] returns. *)
Theorem cancelled_returns_outside_the_window c c' :
  inv c -> (exists f, wpc c = Awaiting f) \/ (wpc c = Reading /\ flag c = true) ->
  cpc c <> Finished -> rtc step c c' ->
  cancelled_step c' = None -> cancel_step c' = None -> wpc c' = Returned.
Proof.
  intros Hinv Hw Hc Hr Hs1 Hs2.
  assert (safe c) as H0 by (split; [done|]; naive_solver).
  assert (safe c') as [Hi Hg].
  { clear Hs1 Hs2 Hw Hc Hinv. induction Hr; eauto using safe_step. }
  unfold cancelled_step in Hs1. unfold cancel_step in Hs2.
  destruct (cpc c'); [done..|].
  destruct Hg as [Hg|[[Hg Hf]|(f & Hg & Hf)]]; [done| |]; rewrite Hg in Hs1.
  - by case_match.
  - by rewrite Hf in Hs1.
Qed.
End cancel.

(** A notifier that counts its broadcasts: a future remembers how many it
    missed, and is woken by the next one. *)
Module CountingNotify.
#[export] Instance ops : Notify nat nat := {|
  notify_new := 0;
  notified := fun n => (n, n);
  notify_waiters := S;
  woken := fun n f => Nat.ltb f n;
  created := fun n f => f <= n
|}.

#[export] Instance laws : NotifyLaws nat nat.
Proof.
  split; simpl; [done|intros n; apply Nat.ltb_irrefl|].
  intros n f H. apply Nat.ltb_lt. lia.
Qed.
End CountingNotify.
Import CountingNotify.

Lemma cancelled_only_when_set_witness :
  is_cancelled {| flag := true; notify := 0; wpc := @Returned nat; cpc := Notifying |} = true.
Proof.
  apply cancelled_only_when_set; [|done].
  eapply rtc_l; [right; reflexivity|]. eapply rtc_l; [left; reflexivity|]. apply rtc_refl.
Defined.

Lemma cancelled_can_lose_the_wakeup_witness :
  exists c : Cancel (N := nat) (F := nat), rtc step new c /\ lost c.
Proof. apply cancelled_can_lose_the_wakeup. Defined.

Lemma cancelled_returns_outside_the_window_witness :
  wpc (N := nat) {| flag := true; notify := 1; wpc := @Returned nat; cpc := Finished |} = Returned.
Proof.
  set (c := {| flag := true; notify := 0; wpc := @Reading nat; cpc := Notifying |}).
  apply (cancelled_returns_outside_the_window c); [| | | |done|done].
  - apply (inv_step new); [apply inv_new|by right].
  - by right.
  - done.
  - eapply rtc_l; [right; reflexivity|]. eapply rtc_l; [left; reflexivity|]. apply rtc_refl.
Defined.
