(* ===== verification/Text.v ===== *)
(** * Bounded text

    [src/src/core/src/text.rs]: truncation of UTF-8 text by bytes, by
    characters and by visible terminal columns. *)

From stdpp Require Import base list strings.
From Stdlib Require Import Ascii Lia.
From S2P Require Import Prelude.
From S2P Require Import RustStr.

(** [s.is_char_boundary(i)] *)
Definition is_char_boundary (s : string) (i : nat) : bool :=
  match i with
  | O => true
  | _ => match String.get i s with
         | Some a => negb (is_cont a)
         | None => Nat.eqb i (String.length s)
         end
  end.

(** The [while end > 0 && !s.is_char_boundary(end)] loop. *)
Fixpoint floor_char_boundary (s : string) (end_ : nat) : nat :=
  match end_ with
  | O => O
  | S e => if is_char_boundary s end_ then end_ else floor_char_boundary s e
  end.

Definition truncate_utf8_bytes (s : string) (max_bytes : nat) : string :=
  if Nat.leb (String.length s) max_bytes then s
  else string_take (floor_char_boundary s max_bytes) s.

(** The [for (i, ch) in s.chars().enumerate()] loop. *)
Fixpoint push_chars (i max_chars : nat) (out : string) (cs : list string) : string :=
  match cs with
  | [] => out
  | ch :: cs' =>
      if Nat.leb max_chars i then out else push_chars (S i) max_chars (out +:+ ch) cs'
  end.

Definition truncate_chars (s : string) (max_chars : nat) : string :=
  if Nat.eqb max_chars 0 then EmptyString else push_chars 0 max_chars EmptyString (chars s).

Definition truncate_chars_ellipsis (s : string) (max_chars : nat) : string :=
  let t := truncate_chars s max_chars in
  if Nat.ltb max_chars (char_count s) then t +:+ "..." else t.

(** The character [U+2026]. *)
Definition ellipsis : string := bytes [226; 128; 166].

Definition truncate_chars_fit (s : string) (max_chars : nat) : string :=
  if Nat.eqb max_chars 0 then EmptyString
  else if Nat.leb (char_count s) max_chars then s
  else truncate_chars s (max_chars - 1) +:+ ellipsis.

Definition last_chars (s : string) (n : nat) : string :=
  if Nat.eqb n 0 then EmptyString
  else let total := char_count s in
       if Nat.leb total n then s else concat_strings (drop (total - n) (chars s)).

Definition split_at_chars (s : string) (n : nat) : string * string :=
  let cs := chars s in
  if Nat.ltb n (length cs) then (concat_strings (take n cs), concat_strings (drop n cs))
  else (s, EmptyString).

(** ** Visible columns

    The index [i] of the loops is represented by the rest of the string from
    [i]; [fuel] bounds the iterations, each of which consumes a byte. *)

Definition esc : Ascii.ascii := Ascii.ascii_of_nat 27.
Definition reset : string := bytes [27; 91; 48; 109].

(** [bytes[i] == 0x1b && bytes[i + 1] == b'[']: the rest after the two bytes. *)
Definition sgr_start (s : string) : option string :=
  match s with
  | String a (String b s') =>
      if Ascii.eqb a esc && Ascii.eqb b "["%char then Some s' else None
  | _ => None
  end.

(** [while bytes[i] != b'm']: the bytes skipped and the rest. *)
Fixpoint skip_to_m (s : string) : string * string :=
  match s with
  | EmptyString => (EmptyString, EmptyString)
  | String a s' =>
      if Ascii.eqb a "m"%char then (EmptyString, s)
      else let '(p, r) := skip_to_m s' in (String a p, r)
  end.

Fixpoint span_cont (s : string) : string * string :=
  match s with
  | String a s' =>
      if is_cont a then let '(p, r) := span_cont s' in (String a p, r) else (EmptyString, s)
  | EmptyString => (EmptyString, EmptyString)
  end.

(** [s[i..].chars().next()] and the rest. *)
Definition next_char (s : string) : option (string * string) :=
  match s with
  | EmptyString => None
  | String a s' => let '(p, r) := span_cont s' in Some (String a p, r)
  end.

Fixpoint display_width_loop (fuel : nat) (s : string) (w : nat) : nat :=
  match fuel with
  | O => w
  | S fuel =>
      match s with
      | EmptyString => w
      | _ =>
          match sgr_start s with
          | Some s1 =>
              match (skip_to_m s1).2 with
              | String _ s2 => display_width_loop fuel s2 w
              | EmptyString => display_width_loop fuel EmptyString w
              end
          | None =>
              match next_char s with
              | None => w
              | Some (_, s') => display_width_loop fuel s' (w + 1)
              end
          end
      end
  end.

Definition ansi_display_width (s : string) : nat := display_width_loop (String.length s) s 0.

(** The copying loop of [ansi_fit_line]: what is pushed to [out]. *)
Fixpoint fit_loop (fuel : nat) (s : string) (w width : nat) (out : string) : string :=
  match fuel with
  | O => out
  | S fuel =>
      match s with
      | EmptyString => out
      | _ =>
          if Nat.ltb (w + 1) width then
            match sgr_start s with
            | Some s1 =>
                let '(p, r) := skip_to_m s1 in
                match r with
                | String m s2 =>
                    fit_loop fuel s2 w width
                      (out +:+ String esc (String "["%char (p +:+ String m EmptyString)))
                | EmptyString => out
                end
            | None =>
                match next_char s with
                | None => out
                | Some (ch, s') => fit_loop fuel s' (w + 1) width (out +:+ ch)
                end
            end
          else out
      end
  end.

Definition ansi_fit_line (s : string) (width : nat) : string :=
  if Nat.eqb width 0 then EmptyString
  else if Nat.leb (ansi_display_width s) width then s
  else
    let out := fit_loop (String.length s) s 0 width EmptyString +:+ ellipsis in
    if contains out (String esc EmptyString) && negb (ends_with out reset)
    then out +:+ reset else out.

(** ** Truncation by characters *)

Lemma push_chars_take cs i n out :
  push_chars i n out cs = out +:+ concat_strings (take (n - i) cs).
Proof.
  revert i out. induction cs as [|c cs IH]; intros i out; simpl.
  { by rewrite take_nil, app_nil_r_str. }
  destruct (Nat.leb_spec n i).
  - replace (n - i) with 0 by lia. simpl. by rewrite app_nil_r_str.
  - rewrite IH. replace (n - i) with (S (n - S i)) by lia. simpl. by rewrite app_assoc_str.
Qed.

Lemma truncate_chars_take s n : truncate_chars s n = concat_strings (take n (chars s)).
Proof.
  unfold truncate_chars. destruct (Nat.eqb_spec n 0); [by subst|].
  rewrite push_chars_take. by rewrite Nat.sub_0_r.
Qed.

Lemma char_count_truncate s n : char_count (truncate_chars s n) <= n.
Proof. rewrite truncate_chars_take. unfold char_count. rewrite chars_take_any, length_take. lia. Qed.

Lemma chars_concat_take s n :
  head_ok s = true -> chars (concat_strings (take n (chars s))) = take n (chars s).
Proof. intros H. apply chars_concat, Forall_take. by apply chars_head_ok_wf. Qed.

Lemma chars_truncate s n : head_ok s = true -> chars (truncate_chars s n) = take n (chars s).
Proof. intros H. by rewrite truncate_chars_take, chars_concat_take. Qed.

Lemma head_ok_concat l : Forall (fun c => is_char c = true) l -> head_ok (concat_strings l) = true.
Proof.
  intros H. destruct H as [|c l Hc _]; [done|]. destruct c as [|a c]; simpl in *; [done|].
  by apply andb_prop in Hc as [-> _].
Qed.

(** [truncate_chars_fit] returns at most [max_chars] characters; it
    returns the text itself exactly when that fits, and otherwise its first
    [max_chars - 1] characters followed by an ellipsis. *)
Theorem truncate_chars_fit_spec s n :
  head_ok s = true ->
  char_count (truncate_chars_fit s n) <= n /\
  (char_count s <= n -> n <> 0 -> truncate_chars_fit s n = s) /\
  (n <> 0 -> n < char_count s ->
   chars (truncate_chars_fit s n) = take (n - 1) (chars s) ++ [ellipsis]).
Proof.
  intros Hs. unfold truncate_chars_fit.
  destruct (Nat.eqb_spec n 0) as [->|Hn]; [repeat split; [reflexivity|done|done]|].
  destruct (Nat.leb_spec (char_count s) n) as [Hle|Hlt]; [repeat split; intros; auto; lia|].
  assert (chars (truncate_chars s (n - 1) +:+ ellipsis) = take (n - 1) (chars s) ++ [ellipsis]) as E.
  { rewrite chars_app; [by rewrite chars_truncate| |done].
    rewrite truncate_chars_take. apply head_ok_concat, Forall_take. by apply chars_head_ok_wf. }
  repeat split; [|intros; lia|done]. unfold char_count. rewrite E, length_app, length_take. simpl. lia.
Qed.

Lemma truncate_chars_fit_spec_witness :
  char_count (truncate_chars_fit "abcdef" 4) <= 4.
Proof. apply (truncate_chars_fit_spec "abcdef" 4). reflexivity. Defined.

(** [split_at_chars] cuts without loss. *)
Lemma split_at_chars_app s n : (split_at_chars s n).1 +:+ (split_at_chars s n).2 = s.
Proof.
  unfold split_at_chars. case_match; simpl; [|by rewrite app_nil_r_str].
  by rewrite <- concat_strings_app, take_drop, concat_chars.
Qed.

Lemma last_chars_drop s n : last_chars s n = concat_strings (last_n n (chars s)).
Proof.
  unfold last_chars, last_n, char_count. destruct (Nat.eqb_spec n 0) as [->|].
  - by rewrite Nat.sub_0_r, drop_all.
  - destruct (Nat.leb_spec (length (chars s)) n); [|done].
    replace (length (chars s) - n) with 0 by lia. symmetry. apply concat_chars.
Qed.

(** ** Truncation by bytes *)

Lemma string_take_length n s : n <= String.length s -> String.length (string_take n s) = n.
Proof. revert s. induction n; intros [|a s]; simpl; try lia. intros. rewrite IHn; lia. Qed.

Lemma string_take_drop n s : string_take n s +:+ string_drop n s = s.
Proof. revert s. induction n; intros [|a s]; simpl; try done. by rewrite IHn. Qed.

Lemma floor_le s e : floor_char_boundary s e <= e.
Proof. induction e; [simpl; lia|]. cbn [floor_char_boundary]. case_match; lia. Qed.

Lemma floor_is_boundary s e : is_char_boundary s (floor_char_boundary s e) = true.
Proof. induction e; [done|]. cbn [floor_char_boundary]. case_match; done. Qed.

Lemma floor_maximal s e i :
  is_char_boundary s i = true -> i <= e -> i <= floor_char_boundary s e.
Proof.
  intros Hi. induction e as [|e IH]; intros Hle; [lia|].
  cbn [floor_char_boundary]. destruct (is_char_boundary s (S e)) eqn:Hb; [lia|].
  assert (i <> S e) by congruence. apply IH. lia.
Qed.

Lemma get_string_drop i s : String.get i s =
  match string_drop i s with String a _ => Some a | EmptyString => None end.
Proof. revert s. induction i; intros [|a s]; simpl; auto. Qed.

(** A boundary cuts the string where the rest does not start inside a
    character. *)
Lemma boundary_head_ok s i :
  i <= String.length s -> head_ok s = true ->
  is_char_boundary s i = true -> head_ok (string_drop i s) = true.
Proof.
  intros Hi Hs. unfold is_char_boundary. destruct i as [|i]; [done|].
  rewrite get_string_drop. by destruct (string_drop (S i) s).
Qed.

Lemma head_ok_boundary s p r : p +:+ r = s -> head_ok r = true ->
  is_char_boundary s (String.length p) = true.
Proof.
  intros <- Hr. unfold is_char_boundary. destruct (String.length p) eqn:Hl; [done|].
  rewrite <- Hl, get_string_drop.
  assert (string_drop (String.length p) (p +:+ r) = r) as -> by (clear; induction p; simpl; auto).
  destruct r; simpl in *; [|done]. by rewrite app_nil_r_str, Nat.eqb_refl.
Qed.

Lemma chars_string_take s i :
  i <= String.length s -> head_ok s = true -> is_char_boundary s i = true ->
  chars s = chars (string_take i s) ++ chars (string_drop i s).
Proof.
  intros Hi Hs Hb. rewrite <- chars_app; [by rewrite string_take_drop| |].
  - destruct i; [done|]. destruct s; [done|]. by simpl in *.
  - by apply boundary_head_ok.
Qed.

(** [truncate_utf8_bytes] keeps the longest run of whole characters that
    fits in [max_bytes] bytes: its result is a prefix in characters, fits, and
    every longer prefix in characters does not. *)
Theorem truncate_utf8_bytes_longest s n k :
  head_ok s = true ->
  truncate_utf8_bytes s n =
    concat_strings (take (char_count (truncate_utf8_bytes s n)) (chars s)) /\
  String.length (truncate_utf8_bytes s n) <= n /\
  (String.length (concat_strings (take k (chars s))) <= n ->
   String.length (concat_strings (take k (chars s))) <= String.length (truncate_utf8_bytes s n)).
Proof.
  intros Hs. unfold truncate_utf8_bytes. destruct (Nat.leb_spec (String.length s) n) as [Hle|Hlt].
  { unfold char_count. rewrite firstn_all, concat_chars. repeat split; [lia|]. intros _.
    rewrite <- (concat_chars s) at 2. rewrite <- (take_drop k (chars s)) at 2.
    rewrite concat_strings_app, length_app_str. lia. }
  pose proof (floor_le s n) as Hf. pose proof (floor_is_boundary s n) as Hb.
  set (e := floor_char_boundary s n) in *.
  rewrite string_take_length by lia. repeat split; [|lia|].
  - unfold char_count. rewrite (chars_string_take s e) by (done || lia).
    by rewrite take_app_length, concat_chars.
  - intros Hk. apply floor_maximal; [|done].
    apply (head_ok_boundary s _ (concat_strings (drop k (chars s)))).
    + by rewrite <- concat_strings_app, take_drop, concat_chars.
    + apply head_ok_concat, Forall_drop. by apply chars_head_ok_wf.
Qed.

Lemma truncate_utf8_bytes_longest_witness :
  String.length (truncate_utf8_bytes (ellipsis +:+ ellipsis) 4) <= 4.
Proof. apply (truncate_utf8_bytes_longest (ellipsis +:+ ellipsis) 4 0). reflexivity. Defined.

(** ** Truncation by columns *)

Definition tail (s : string) : string := match s with String _ s' => s' | EmptyString => s end.

Lemma skip_to_m_app s : (skip_to_m s).1 +:+ (skip_to_m s).2 = s.
Proof.
  induction s as [|a s IH]; simpl; [done|]. destruct (Ascii.eqb a "m"%char); [done|].
  destruct (skip_to_m s); simpl in *. by f_equal.
Qed.

Lemma skip_to_m_closed p r a t :
  skip_to_m (p +:+ String a r) = (p, String a r) -> skip_to_m (p +:+ String a t) = (p, String a t).
Proof.
  induction p as [|b p IH]; simpl.
  - destruct (Ascii.eqb a "m"%char); [done|]. destruct (skip_to_m r). intros [=].
  - destruct (Ascii.eqb b "m"%char); [intros [=]|].
    destruct (skip_to_m (p +:+ String a r)) as [p' r'] eqn:E.
    intros [= -> ->]. by rewrite IH.
Qed.

Lemma span_cont_app s : (span_cont s).1 +:+ (span_cont s).2 = s /\ head_ok (span_cont s).2 = true
  /\ all_cont (span_cont s).1 = true.
Proof.
  induction s as [|a s IH]; simpl; [done|]. destruct (is_cont a) eqn:Ha; simpl.
  - destruct (span_cont s); simpl in *. rewrite Ha. destruct IH as (IH1 & IH2 & IH3).
    repeat split; [by f_equal|done|done].
  - by rewrite Ha.
Qed.

Lemma span_cont_closed p t : all_cont p = true -> head_ok t = true -> span_cont (p +:+ t) = (p, t).
Proof.
  intros Hp Ht. induction p as [|a p IH]; simpl in *.
  - destruct t as [|a t]; simpl in *; [done|]. by destruct (is_cont a).
  - apply andb_prop in Hp as [-> Hp]. by rewrite (IH Hp).
Qed.

Lemma next_char_app s c s' : next_char s = Some (c, s') ->
  s = c +:+ s' /\ head_ok s' = true /\ String.length s' < String.length s /\
  exists a c', c = String a c' /\ all_cont c' = true.
Proof.
  destruct s as [|a s]; simpl; [done|]. pose proof (span_cont_app s) as (H1 & H2 & H3).
  destruct (span_cont s) as [p r]; simpl in *. intros [= <- <-].
  rewrite <- H1. simpl. repeat split; auto; [rewrite length_app_str; lia|eauto].
Qed.

Lemma sgr_start_Some s s1 : sgr_start s = Some s1 -> s = String esc (String "["%char s1).
Proof.
  destruct s as [|a [|b s]]; simpl; try done.
  destruct (Ascii.eqb_spec a esc); [|done]. destruct (Ascii.eqb_spec b "["%char); [|done].
  simpl. intros [= <-]. by subst.
Qed.

Lemma width_loop_fuel n f s w :
  String.length s <= n -> String.length s <= f ->
  display_width_loop f s w = w + display_width_loop n s 0.
Proof.
  revert f s w. induction n as [|n IH]; intros f s w Hn Hf.
  { destruct s; simpl in *; [|lia]. destruct f; simpl; lia. }
  destruct f as [|f]; [destruct s; simpl in *; lia|].
  cbn [display_width_loop]. destruct s as [|a s0] eqn:Hs; [lia|]. rewrite <- Hs in *.
  destruct (sgr_start s) as [s1|] eqn:Hg.
  - apply sgr_start_Some in Hg. pose proof (skip_to_m_app s1) as Hm.
    assert (String.length (skip_to_m s1).2 <= String.length s1) as Hl.
    { rewrite <- Hm at 2. rewrite length_app_str. lia. }
    subst s. rewrite Hg in Hn, Hf; simpl in Hn, Hf.
    destruct (skip_to_m s1).2 as [|b s2]; simpl in Hl; apply IH; simpl; lia.
  - destruct (next_char s) as [[c s']|] eqn:Hc; [|lia].
    apply next_char_app in Hc as (_ & _ & Hl & _).
    rewrite (IH f s' (w + 1)) by lia. rewrite (IH n s' (0 + 1)) by lia. lia.
Qed.

Lemma width_sgr s s1 : sgr_start s = Some s1 ->
  ansi_display_width s = ansi_display_width (tail (skip_to_m s1).2).
Proof.
  intros Hg. pose proof Hg as ->%sgr_start_Some. unfold ansi_display_width at 1.
  cbn [String.length]. assert (exists f, f = S (String.length s1)) as [f Hf] by eauto.
  rewrite <- Hf. cbn [display_width_loop]. rewrite Hg. pose proof (skip_to_m_app s1) as Hm.
  assert (String.length (skip_to_m s1).2 <= String.length s1) as Hl.
  { rewrite <- Hm at 2. rewrite length_app_str. lia. }
  destruct (skip_to_m s1).2 as [|b s2]; simpl in Hl; [by subst f|].
  cbn [tail]. rewrite (width_loop_fuel (String.length s2)) by lia. done.
Qed.

Lemma width_char s c s' : sgr_start s = None -> next_char s = Some (c, s') ->
  ansi_display_width s = S (ansi_display_width s').
Proof.
  intros Hg Hc. destruct s as [|a s0] eqn:Hs; [done|]. unfold ansi_display_width at 1.
  cbn [String.length display_width_loop]. rewrite Hg, Hc.
  apply next_char_app in Hc as (_ & _ & Hl & _). simpl in Hl.
  rewrite (width_loop_fuel (String.length s')) by lia. by unfold ansi_display_width.
Qed.

(** What may follow a copied prefix without changing how it is read. *)
Definition closes (t : string) : Prop :=
  match t with EmptyString => True | String a _ => is_cont a = false /\ a <> "["%char end.

(** What the copying loop adds is a prefix of its input whose width is the
    columns it counted, in front of any text that closes it. *)
Lemma fit_loop_prefix fuel s w width out :
  exists p r k, fit_loop fuel s w width out = out +:+ p /\ s = p +:+ r /\
    (k = 0 \/ w + k < width) /\
    (forall t, closes t -> ansi_display_width (p +:+ t) = k + ansi_display_width t).
Proof.
  revert s w out. induction fuel as [|fuel IH]; intros s w out.
  { exists EmptyString, s, 0. simpl. rewrite app_nil_r_str. auto. }
  assert (exists p r k, out = out +:+ p /\ s = p +:+ r /\ (k = 0 \/ w + k < width) /\
    (forall t, closes t -> ansi_display_width (p +:+ t) = k + ansi_display_width t)) as Hstop.
  { exists EmptyString, s, 0. rewrite app_nil_r_str. auto. }
  cbn [fit_loop]. destruct s as [|a s0] eqn:Hs; [done|]. rewrite <- Hs in *. clear Hs.
  destruct (Nat.ltb_spec (w + 1) width) as [Hw|Hw]; [|done].
  destruct (sgr_start s) as [s1|] eqn:Hg.
  - apply sgr_start_Some in Hg. pose proof (skip_to_m_app s1) as Hm.
    destruct (skip_to_m s1) as [p0 [|m s2]] eqn:Hk; [done|]. simpl in Hm.
    destruct (IH s2 w (out +:+ String esc (String "["%char (p0 +:+ String m EmptyString))))
      as (p & r & k & Hrun & Hp & Hkw & Hwd).
    exists (String esc (String "["%char (p0 +:+ String m p))), r, k. repeat split; auto.
    + rewrite Hrun, app_assoc_str. simpl. by rewrite app_assoc_str.
    + rewrite Hg, <- Hm, Hp. simpl. by rewrite app_assoc_str.
    + intros t Ht. simpl. rewrite (width_sgr _ (p0 +:+ String m p +:+ t)).
      2: { simpl. by rewrite app_assoc_str. }
      rewrite <- Hm in Hk. simpl. rewrite (skip_to_m_closed _ _ _ _ Hk). simpl. auto.
  - destruct (next_char s) as [[c s']|] eqn:Hc; [|done].
    pose proof Hc as (Hsc & Hok & _ & b & c' & -> & Hall)%next_char_app.
    destruct (IH s' (w + 1) (out +:+ String b c')) as (p & r & k & Hrun & Hp & Hkw & Hwd).
    exists (String b c' +:+ p), r, (S k). repeat split.
    + by rewrite Hrun, app_assoc_str.
    + by rewrite Hsc, Hp, app_assoc_str.
    + right. lia.
    + intros t Ht. rewrite app_assoc_str.
      assert (head_ok (p +:+ t) = true) as Hhd.
      { destruct p as [|x p]; simpl.
        - destruct t; simpl in *; [done|]. by destruct Ht as [-> _].
        - rewrite Hp in Hok. done. }
      rewrite (width_char _ (String b c') (p +:+ t)); [by rewrite Hwd| |].
      * subst s s'. destruct c' as [|x c']; simpl in *.
        2: { apply andb_prop in Hall as [Hx _]. destruct (Ascii.eqb_spec x "["%char); [by subst|].
             by rewrite andb_false_r. }
        destruct p as [|y p]; simpl in *; [|by case_match].
        destruct t as [|z t]; simpl in *; [done|]. destruct Ht as [_ Hz].
        destruct (Ascii.eqb_spec z "["%char); [done|]. by rewrite andb_false_r.
      * simpl. by rewrite span_cont_closed.
Qed.

(** [ansi_fit_line] never returns a line wider than [width] visible
    columns, and returns a line that already fits unchanged. *)
Theorem ansi_fit_line_fits s width :
  ansi_display_width (ansi_fit_line s width) <= width /\
  (0 < width -> ansi_display_width s <= width -> ansi_fit_line s width = s).
Proof.
  unfold ansi_fit_line. destruct (Nat.eqb_spec width 0) as [->|Hw]; [split; [reflexivity|lia]|].
  destruct (Nat.leb_spec (ansi_display_width s) width) as [Hle|Hlt]; [by split|].
  split; [|intros; lia].
  destruct (fit_loop_prefix (String.length s) s 0 width EmptyString)
    as (p & r & k & Hrun & _ & Hk & Hwd). rewrite Hrun. simpl.
  assert (k + 1 <= width) by lia.
  assert (closes (ellipsis +:+ reset) /\ closes ellipsis) as [C1 C2].
  { repeat split; discriminate. }
  assert (ansi_display_width (ellipsis +:+ reset) = 1 /\ ansi_display_width ellipsis = 1) as [W1 W2].
  { split; reflexivity. }
  case_match; [rewrite app_assoc_str|]; rewrite Hwd by done; lia.
Qed.
