(* ===== verification/Scope.v ===== *)
(** * Request scopes and storage keys

    [src/src/core/src/scope.rs] and [keyspace.rs]: the validated identifiers a
    request is scoped by, the [Keyspace] trait with its key builders, the two
    implementations, and the percent encoding of key components. *)

From stdpp Require Import base list strings.
From Stdlib Require Import Ascii Lia.
From S2P Require Import Prelude.
From S2P Require Import RustStr.
From S2P Require Import Errors.

Definition slash : ascii := "/"%char.

Definition ensure_safe_scope_segment (field value : string) : Result unit CoreError.t :=
  if str_is_empty (trim value) then
    Err (CoreError.Generic ("invalid " +:+ field +:+ ": empty segment"))
  else if contains value ".." then
    Err (CoreError.Generic ("invalid " +:+ field +:+ ": path traversal '..' is not allowed"))
  else if contains value "/" || contains value backslash then
    Err (CoreError.Generic
      ("invalid " +:+ field +:+ ": path separators are not allowed in scope segments"))
  else Ok tt.

Record TenantId : Type := mkTenantId { tenant_str : string }.
Record WorkspaceId : Type := mkWorkspaceId { workspace_str : string }.
Record ProjectId : Type := mkProjectId { project_str : string }.

Definition TenantId_parse (raw : string) : Result TenantId CoreError.t :=
  let? _ := ensure_safe_scope_segment "tenant" raw in Ok (mkTenantId raw).

Definition WorkspaceId_parse (raw : string) : Result WorkspaceId CoreError.t :=
  let? _ := ensure_safe_scope_segment "workspace" raw in Ok (mkWorkspaceId raw).

Definition ProjectId_parse (raw : string) : Result ProjectId CoreError.t :=
  let? _ := ensure_safe_scope_segment "project_id" raw in Ok (mkProjectId raw).

Record RequestScope : Type := {
  tenant : TenantId;
  workspace : WorkspaceId;
  project_id : ProjectId
}.

#[global] Instance RequestScope_eq_dec : EqDecision RequestScope.
Proof.
  intros [[a] [b] [c]] [[a'] [b'] [c']].
  refine (cast_if (decide ((a, b, c) = (a', b', c')))); abstract congruence.
Defined.

Definition RequestScope_parse (t w p : string) : Result RequestScope CoreError.t :=
  let? t' := TenantId_parse t in
  let? w' := WorkspaceId_parse w in
  let? p' := ProjectId_parse p in
  Ok {| tenant := t'; workspace := w'; project_id := p' |}.

(** ** Percent encoding *)

Definition hex_digit (n : nat) : ascii :=
  ascii_of_nat (if Nat.ltb n 10 then 48 + n else 55 + n).

Definition key_safe (b : ascii) : bool :=
  is_ascii_alphanumeric b || Ascii.eqb b "-" || Ascii.eqb b "_" || Ascii.eqb b ".".

Fixpoint encode_key_component (s : string) : string :=
  match s with
  | EmptyString => EmptyString
  | String b s' =>
      if key_safe b then String b (encode_key_component s')
      else
        let n := nat_of_ascii b in
        String "%" (String (hex_digit (n / 16))
          (String (hex_digit (n mod 16)) (encode_key_component s')))
  end.

(** ** The [Keyspace] trait *)

Definition ks_err (e : CoreError.t) : CoreError.t := CoreError.Keyspace (CoreError.display e).

(** The two methods an implementation provides. *)
Class Keyspace (K : Type) := {
  scoped_key : K -> RequestScope -> list string -> string;
  scoped_prefix : K -> RequestScope -> list string -> string
}.

Definition safe_segment (field value : string) : Result unit CoreError.t :=
  res_map_err ks_err (ensure_safe_scope_segment field value).

Section keys.
Context {K : Type} `{!Keyspace K}.
Variable self : K.
Variable scope : RequestScope.

Definition threads_prefix : string := scoped_prefix self scope ["threads"].

Definition thread_key (thread_id : string) : Result string CoreError.t :=
  let? _ := safe_segment "thread_id" thread_id in
  Ok (scoped_key self scope ["threads"; thread_id +:+ ".json"]).

Definition thread_state_key (thread_id : string) : Result string CoreError.t :=
  let? _ := safe_segment "thread_id" thread_id in
  Ok (scoped_key self scope ["state"; thread_id; "state.json"]).

Definition control_state_key (thread_id : string) : Result string CoreError.t :=
  let? _ := safe_segment "thread_id" thread_id in
  Ok (scoped_key self scope ["state"; thread_id; "control.json"]).

Definition thread_artifact_key (thread_id artifact_id : string) : Result string CoreError.t :=
  let? _ := safe_segment "thread_id" thread_id in
  let? _ := safe_segment "artifact_id" artifact_id in
  Ok (scoped_key self scope ["threads"; thread_id +:+ "." +:+ artifact_id +:+ ".json"]).

Definition logs_prefix : string := scoped_prefix self scope ["logs"].

Definition thread_log_key (thread_id : string) : Result string CoreError.t :=
  let? _ := safe_segment "thread_id" thread_id in
  Ok (scoped_key self scope ["logs"; thread_id +:+ ".log"]).

Definition feedback_prefix : string := scoped_prefix self scope ["feedback"].

Definition thread_feedback_prefix (thread_id : string) : Result string CoreError.t :=
  let? _ := safe_segment "thread_id" thread_id in
  Ok (scoped_prefix self scope ["feedback"; thread_id]).

Definition thread_feedback_key (thread_id feedback_id : string) : Result string CoreError.t :=
  let? _ := safe_segment "thread_id" thread_id in
  let? _ := safe_segment "feedback_id" feedback_id in
  Ok (scoped_key self scope ["feedback"; thread_id; feedback_id +:+ ".json"]).

Definition thread_feedback_diagnostics_key (thread_id feedback_id : string)
  : Result string CoreError.t :=
  let? _ := safe_segment "thread_id" thread_id in
  let? _ := safe_segment "feedback_id" feedback_id in
  Ok (scoped_key self scope ["feedback"; thread_id; feedback_id +:+ ".diagnostics.json"]).
End keys.

(** ** The implementations *)

Record DefaultKeyspace : Type := { bucket : string }.
Inductive LocalKeyspace : Type := Local.

Definition default_scoped_key (self : DefaultKeyspace) (scope : RequestScope)
  (segments : list string) : string :=
  let path := tenant_str (tenant scope) +:+ "/" +:+ workspace_str (workspace scope)
                +:+ "/" +:+ project_str (project_id scope) in
  fold_left (fun path seg => path +:+ "/" +:+ seg) segments path.

Definition default_scoped_prefix (self : DefaultKeyspace) (scope : RequestScope)
  (segments : list string) : string :=
  let path := default_scoped_key self scope segments in
  if ends_with path "/" then path else path +:+ "/".

#[global] Instance default_keyspace : Keyspace DefaultKeyspace := {|
  scoped_key := default_scoped_key;
  scoped_prefix := default_scoped_prefix
|}.

#[global] Instance local_keyspace : Keyspace LocalKeyspace := {|
  scoped_key _ := default_scoped_key {| bucket := EmptyString |};
  scoped_prefix _ := default_scoped_prefix {| bucket := EmptyString |}
|}.

(** ** Lemmas on separators *)

Fixpoint no_byte (c : ascii) (s : string) : bool :=
  match s with
  | EmptyString => true
  | String a s' => negb (Ascii.eqb a c) && no_byte c s'
  end.

Lemma contains_byte c s : contains s (String c EmptyString) = negb (no_byte c s).
Proof.
  unfold contains. induction s as [|a s IH]; [done|].
  cbn [str_find starts_with no_byte]. destruct (Ascii.eqb a c); simpl.
  - by destruct s.
  - destruct (str_find s _); simpl in *; done.
Qed.

Lemma no_byte_app c s t : no_byte c (s +:+ t) = no_byte c s && no_byte c t.
Proof. induction s as [|a s IH]; simpl; [done|]. by rewrite IH, andb_assoc. Qed.

Lemma split_byte_no c s : no_byte c s = true -> split_byte c s = [s].
Proof.
  induction s as [|a s IH]; simpl; [done|]. intros [Ha Hs]%andb_prop.
  destruct (Ascii.eqb a c); [done|]. by rewrite IH.
Qed.

Lemma split_byte_first c s t : no_byte c s = true ->
  split_byte c (s +:+ String c t) = s :: split_byte c t.
Proof.
  induction s as [|a s IH]; simpl; [by rewrite Ascii.eqb_refl|].
  intros [Ha Hs]%andb_prop. destruct (Ascii.eqb a c); [done|]. by rewrite IH.
Qed.

(** Splitting a path gives back its segments. *)
Lemma split_byte_join c l :
  l <> [] -> forallb (no_byte c) l = true -> split_byte c (join (String c EmptyString) l) = l.
Proof.
  induction l as [|s l IH]; [done|]. intros _ [Hs Hl]%andb_prop.
  destruct l as [|s' l]; [by apply split_byte_no|].
  change (join (String c EmptyString) (s :: s' :: l))
    with (s +:+ String c (join (String c EmptyString) (s' :: l))).
  by rewrite split_byte_first, IH.
Qed.

Lemma split_byte_prefix c l r :
  l <> [] -> forallb (no_byte c) l = true ->
  split_byte c (join (String c EmptyString) l +:+ String c r) = l ++ split_byte c r.
Proof.
  induction l as [|s l IH]; [done|]. intros _ [Hs Hl]%andb_prop.
  destruct l as [|s' l]; [by apply split_byte_first|].
  change (join (String c EmptyString) (s :: s' :: l))
    with (s +:+ String c (join (String c EmptyString) (s' :: l))).
  rewrite app_assoc_str. cbn [String.append]. by rewrite split_byte_first, IH.
Qed.

Lemma starts_with_refl p r : starts_with (p +:+ r) p = true.
Proof. induction p as [|b p IH]; simpl; [by destruct r|]. by rewrite Ascii.eqb_refl. Qed.

Lemma fold_path path segs :
  fold_left (fun path seg => path +:+ "/" +:+ seg) segs path = join "/" (path :: segs).
Proof.
  revert path. induction segs as [|s segs IH]; intros path; [done|].
  cbn [fold_left]. rewrite IH. destruct segs as [|s' segs]; [done|]. simpl.
  by rewrite !app_assoc_str.
Qed.

(** ** The contract of a keyspace

    A key is the path of the scope's three identifiers and the segments; a
    prefix is that path closed by a slash.  [KeyspaceLaws] states it through
    the pieces between slashes, which is all the clients need. *)

Definition scope_path (scope : RequestScope) : list string :=
  [tenant_str (tenant scope); workspace_str (workspace scope); project_str (project_id scope)].

Definition scope_ok (scope : RequestScope) : Prop :=
  forallb (no_byte slash) (scope_path scope) = true /\ EmptyString ∉ scope_path scope.

(** Segments a prefix may be built from. *)
Definition segs_ok (segs : list string) : Prop :=
  forallb (no_byte slash) segs = true /\ EmptyString ∉ segs.

Class KeyspaceLaws (K : Type) `{!Keyspace K} : Prop := {
  scoped_key_pieces k scope segs :
    scope_ok scope -> forallb (no_byte slash) segs = true ->
    split_byte slash (scoped_key k scope segs) = scope_path scope ++ segs;
  scoped_prefix_pieces k scope segs r :
    scope_ok scope -> segs_ok segs ->
    split_byte slash (scoped_prefix k scope segs +:+ r) = scope_path scope ++ segs ++ split_byte slash r;
  scoped_prefix_of_key k scope segs seg segs' :
    scope_ok scope -> segs_ok segs ->
    starts_with (scoped_key k scope (segs ++ seg :: segs')) (scoped_prefix k scope segs) = true
}.

Lemma default_scoped_key_join k scope segs :
  default_scoped_key k scope segs = join "/" (scope_path scope ++ segs).
Proof.
  unfold default_scoped_key. rewrite fold_path. unfold scope_path.
  destruct segs as [|s segs]; simpl; by str_assoc.
Qed.

Lemma no_byte_drop c n s : no_byte c s = true -> no_byte c (string_drop n s) = true.
Proof.
  revert s. induction n; intros [|a s]; simpl; try done. intros [_ H]%andb_prop. auto.
Qed.

Lemma ends_with_no_byte c p s :
  no_byte c s = true -> s <> EmptyString -> ends_with (p +:+ s) (String c EmptyString) = false.
Proof.
  intros Hn Hs. unfold ends_with. apply andb_false_iff. right.
  destruct s as [|a s]; [done|]. rewrite length_app_str.
  replace (String.length p + _ - _) with (String.length p + String.length s) by (simpl; lia).
  rewrite string_drop_app. apply String.eqb_neq. intros E.
  apply (no_byte_drop c (String.length s)) in Hn. rewrite E in Hn. simpl in Hn.
  by rewrite Ascii.eqb_refl in Hn.
Qed.

Lemma join_last l : l <> [] -> exists p s, join "/" l = p +:+ s /\ last l = Some s.
Proof.
  induction l as [|x l IH]; [done|]. intros _. destruct l as [|y l].
  - exists EmptyString, x. done.
  - destruct IH as (p & s & E & Hl); [done|]. exists (x +:+ "/" +:+ p), s. split; [|done].
    change (join "/" (x :: y :: l)) with (x +:+ "/" +:+ join "/" (y :: l)). rewrite E. by str_assoc.
Qed.

Lemma join_app l1 l2 : l1 <> [] -> l2 <> [] ->
  join "/" (l1 ++ l2) = join "/" l1 +:+ "/" +:+ join "/" l2.
Proof.
  induction l1 as [|x l1 IH]; [done|]. intros _ H2. destruct l1 as [|y l1].
  - destruct l2; [done|]. done.
  - change (join "/" ((x :: y :: l1) ++ l2)) with (x +:+ "/" +:+ join "/" ((y :: l1) ++ l2)).
    rewrite IH by done.
    change (join "/" (x :: y :: l1)) with (x +:+ "/" +:+ join "/" (y :: l1)). by str_assoc.
Qed.

Lemma default_scoped_prefix_join k scope segs :
  scope_ok scope -> segs_ok segs ->
  default_scoped_prefix k scope segs = join "/" (scope_path scope ++ segs) +:+ "/".
Proof.
  intros [H1 H2] [H3 H4]. unfold default_scoped_prefix. rewrite default_scoped_key_join.
  destruct (join_last (scope_path scope ++ segs)) as (p & s & E & Hl); [done|].
  apply last_Some_elem_of in Hl. rewrite E. rewrite ends_with_no_byte; [done| |].
  - assert (forallb (no_byte slash) (scope_path scope ++ segs) = true) as Ha
      by (rewrite forallb_app; by rewrite H1, H3).
    rewrite forallb_forall in Ha. apply Ha. by apply list_elem_of_In.
  - intros ->. apply elem_of_app in Hl; naive_solver.
Qed.

#[global] Instance default_keyspace_laws : KeyspaceLaws DefaultKeyspace.
Proof.
  split; cbn [scoped_key scoped_prefix default_keyspace].
  - intros k scope segs [H1 _] H2. rewrite default_scoped_key_join.
    rewrite (split_byte_join slash); [done|done|]. rewrite forallb_app. by rewrite H1, H2.
  - intros k scope segs r Hs Hg. rewrite default_scoped_prefix_join by done.
    rewrite app_assoc_str. rewrite app_assoc. rewrite <- (split_byte_prefix slash _ r); [done|done|].
    rewrite forallb_app. by rewrite (proj1 Hs), (proj1 Hg).
  - intros k scope segs seg segs' Hs Hg. rewrite default_scoped_prefix_join by done.
    rewrite default_scoped_key_join, app_assoc, (join_app _ (seg :: segs')) by done.
    rewrite <- app_assoc_str. apply starts_with_refl.
Qed.

#[global] Instance local_keyspace_laws : KeyspaceLaws LocalKeyspace.
Proof.
  pose proof default_keyspace_laws as [L1 L2 L3].
  split; intros []; [apply (L1 {| bucket := "" |})|apply (L2 {| bucket := "" |})|apply (L3 {| bucket := "" |})].
Qed.

(** ** Validated identifiers *)

Lemma is_blank_empty : trim EmptyString = EmptyString.
Proof. reflexivity. Qed.

Lemma ensure_safe_ok field v :
  ensure_safe_scope_segment field v = Ok tt ->
  v <> EmptyString /\ no_byte slash v = true /\ no_byte "\"%char v = true /\ contains v ".." = false.
Proof.
  unfold ensure_safe_scope_segment. intros H.
  destruct (str_is_empty (trim v)) eqn:He; [done|].
  destruct (contains v "..") eqn:Hd; [done|].
  change backslash with (String "\"%char EmptyString) in H.
  change (contains v "/") with (contains v (String slash EmptyString)) in H.
  rewrite (contains_byte slash v), (contains_byte "\"%char v) in H.
  destruct (no_byte slash v), (no_byte "\"%char v); simpl in H; try done.
  split; [|done]. intros ->. done.
Qed.

Lemma safe_segment_ok field v : safe_segment field v = Ok tt ->
  v <> EmptyString /\ no_byte slash v = true /\ contains v ".." = false.
Proof.
  unfold safe_segment. destruct (ensure_safe_scope_segment field v) as [[]|] eqn:E; [|done].
  intros _. apply ensure_safe_ok in E. tauto.
Qed.

(** A scope that parses has exactly the given identifiers, and each is
    non-empty, free of path separators and of "..", so that it is one segment
    of a storage path. *)
Theorem parsed_scope_is_safe t w p sc :
  RequestScope_parse t w p = Ok sc ->
  scope_path sc = [t; w; p] /\ scope_ok sc /\
  Forall (fun v => contains v ".." = false /\ no_byte "\"%char v = true) (scope_path sc).
Proof.
  unfold RequestScope_parse, TenantId_parse, WorkspaceId_parse, ProjectId_parse. intros H.
  destruct (ensure_safe_scope_segment _ t) as [[]|] eqn:Et; [|done].
  destruct (ensure_safe_scope_segment _ w) as [[]|] eqn:Ew; [|done].
  destruct (ensure_safe_scope_segment _ p) as [[]|] eqn:Ep; [|done].
  simpl in H. simplify_eq. apply ensure_safe_ok in Et, Ew, Ep. destruct_and!.
  split; [done|]. split; [split|].
  - simpl. repeat (apply andb_true_intro; split); auto.
  - intros Hin. unfold scope_path in Hin.
    repeat (apply elem_of_cons in Hin as [Hin|Hin]; [simpl in Hin; congruence|]).
    by apply elem_of_nil in Hin.
  - repeat constructor; auto.
Qed.

Lemma parsed_scope_is_safe_witness :
  scope_ok {| tenant := mkTenantId "t"; workspace := mkWorkspaceId "w"; project_id := mkProjectId "p" |}.
Proof.
  apply (proj1 (proj2 (parsed_scope_is_safe "t" "w" "p"
    {| tenant := mkTenantId "t"; workspace := mkWorkspaceId "w"; project_id := mkProjectId "p" |}
    eq_refl))).
Defined.

(** ** Separation of keys *)

Lemma scope_path_inj s1 s2 : scope_path s1 = scope_path s2 -> s1 = s2.
Proof.
  destruct s1 as [[a] [b] [c]], s2 as [[a'] [b'] [c']]. unfold scope_path. simpl. by intros [= -> -> ->].
Qed.

Section separation.
Context {K : Type} `{HK : !Keyspace K, HL : !KeyspaceLaws K}.

Lemma scoped_key_inj (k : K) s1 s2 l1 l2 :
  scope_ok s1 -> scope_ok s2 -> forallb (no_byte slash) l1 = true -> forallb (no_byte slash) l2 = true ->
  scoped_key k s1 l1 = scoped_key k s2 l2 -> s1 = s2 /\ l1 = l2.
Proof.
  intros Hs1 Hs2 H1 H2 E. apply (f_equal (split_byte slash)) in E.
  rewrite !scoped_key_pieces in E by done. apply app_inj_1 in E as [Ep El]; [|done].
  split; [by apply scope_path_inj|done].
Qed.

(** C31: A key of one scope starts with a prefix of another only when the two
    scopes are the same and the prefix's segments begin the key's: listing or
    deleting under a prefix never reaches another tenant, workspace or
    project, nor another family of objects. *)
Theorem prefix_isolates_scopes (k : K) s1 s2 segs pre :
  scope_ok s1 -> scope_ok s2 -> forallb (no_byte slash) segs = true -> segs_ok pre ->
  (starts_with (scoped_key k s1 segs) (scoped_prefix k s2 pre) = true <->
   s1 = s2 /\ exists seg rest, segs = pre ++ seg :: rest).
Proof.
  intros Hs1 Hs2 H1 H2. split.
  - intros [r Hr]%starts_with_app. apply (f_equal (split_byte slash)) in Hr.
    rewrite scoped_key_pieces, scoped_prefix_pieces in Hr by done.
    apply app_inj_1 in Hr as [Hp Hl]; [|done]. split; [by apply scope_path_inj|].
    destruct (split_byte slash r) as [|seg rest] eqn:Hsr; [|eauto].
    destruct r as [|x r]; simpl in Hsr; [done|]. destruct (Ascii.eqb x slash); [done|].
    by destruct (split_byte slash r).
  - intros [-> (seg & rest & ->)]. by apply scoped_prefix_of_key.
Qed.

(** The objects a thread owns, and their keys. *)
Inductive object : Type :=
| Thread (tid : string)
| ThreadState (tid : string)
| ControlState (tid : string)
| Artifact (tid aid : string)
| ThreadLog (tid : string)
| Feedback (tid fid : string)
| Diagnostics (tid fid : string).

Definition object_key (k : K) (sc : RequestScope) (o : object) : Result string CoreError.t :=
  match o with
  | Thread t => thread_key k sc t
  | ThreadState t => thread_state_key k sc t
  | ControlState t => control_state_key k sc t
  | Artifact t a => thread_artifact_key k sc t a
  | ThreadLog t => thread_log_key k sc t
  | Feedback t f => thread_feedback_key k sc t f
  | Diagnostics t f => thread_feedback_diagnostics_key k sc t f
  end.

Definition object_segments (o : object) : list string :=
  match o with
  | Thread t => ["threads"; t +:+ ".json"]
  | ThreadState t => ["state"; t; "state.json"]
  | ControlState t => ["state"; t; "control.json"]
  | Artifact t a => ["threads"; t +:+ "." +:+ a +:+ ".json"]
  | ThreadLog t => ["logs"; t +:+ ".log"]
  | Feedback t f => ["feedback"; t; f +:+ ".json"]
  | Diagnostics t f => ["feedback"; t; f +:+ ".diagnostics.json"]
  end.

Definition object_ids (o : object) : list string :=
  match o with
  | Thread t | ThreadState t | ControlState t | ThreadLog t => [t]
  | Artifact t a => [t; a]
  | Feedback t f | Diagnostics t f => [t; f]
  end.

(** The identifiers that make the names unambiguous. *)
Definition dotless (o : object) : Prop := forallb (no_byte "."%char) (object_ids o) = true.

Lemma object_key_ok (k : K) sc o key :
  object_key k sc o = Ok key ->
  key = scoped_key k sc (object_segments o) /\ forallb (no_byte slash) (object_segments o) = true.
Proof.
  intros H. destruct o as [t|t|t|t a|t|t f|t f]; simpl in *;
    unfold thread_key, thread_state_key, control_state_key, thread_artifact_key, thread_log_key,
      thread_feedback_key, thread_feedback_diagnostics_key in H;
    destruct (safe_segment "thread_id" t) as [[]|] eqn:Ht; try done;
    apply safe_segment_ok in Ht as (_ & Ht & _); simpl in H.
  all: try (destruct (safe_segment _ a) as [[]|] eqn:Ha; [|done];
    apply safe_segment_ok in Ha as (_ & Ha & _); simpl in H).
  all: try (destruct (safe_segment _ f) as [[]|] eqn:Hf; [|done];
    apply safe_segment_ok in Hf as (_ & Hf & _); simpl in H).
  all: simplify_eq; split; [done|]; rewrite ?no_byte_app; cbn; rewrite ?no_byte_app, ?Ht, ?Ha, ?Hf; done.
Qed.

Lemma split_dot a b : no_byte "."%char a = true ->
  split_byte "." (a +:+ String "." b) = a :: split_byte "." b.
Proof. apply split_byte_first. Qed.

Lemma object_segments_inj o1 o2 :
  dotless o1 -> dotless o2 -> object_segments o1 = object_segments o2 -> o1 = o2.
Proof.
  unfold dotless. intros H1 H2 E.
  destruct o1, o2; simplify_eq/=; try done;
    repeat match goal with
    | H : _ && _ = true |- _ => apply andb_prop in H as [? ?]
    end.
  all: repeat match goal with
    | H : _ +:+ _ = _ +:+ _ |- _ =>
        apply (f_equal (split_byte ".")) in H; simpl in H;
        rewrite ?split_dot in H by done; simplify_eq; try done
    end.
Qed.

(** For identifiers without a dot, distinct objects never share a key,
    within a scope or across scopes. *)
Theorem dotless_keys_are_distinct (k : K) s1 s2 o1 o2 key :
  scope_ok s1 -> scope_ok s2 -> dotless o1 -> dotless o2 ->
  object_key k s1 o1 = Ok key -> object_key k s2 o2 = Ok key -> s1 = s2 /\ o1 = o2.
Proof.
  intros Hs1 Hs2 Hd1 Hd2 [-> H1]%object_key_ok [E H2]%object_key_ok.
  apply scoped_key_inj in E as [-> E]; [|done..]. split; [done|]. by apply object_segments_inj.
Qed.
End separation.

(** The dot matters: a thread named "a.b" passes validation and is stored
    under the key of artifact "b" of thread "a". *)
Theorem thread_and_artifact_collide (sc : RequestScope) (k : DefaultKeyspace) :
  exists key, thread_key k sc "a.b" = Ok key /\ thread_artifact_key k sc "a" "b" = Ok key.
Proof. eexists. split; reflexivity. Qed.

(** A parsed scope used by the witnesses. *)
Definition sample_scope : RequestScope :=
  {| tenant := mkTenantId "t"; workspace := mkWorkspaceId "w"; project_id := mkProjectId "p" |}.

Lemma sample_scope_ok : scope_ok sample_scope.
Proof.
  split; [done|]. intros Hin. unfold scope_path in Hin.
  repeat (apply elem_of_cons in Hin as [Hin|Hin]; [done|]). by apply elem_of_nil in Hin.
Qed.

Lemma prefix_isolates_scopes_witness :
  starts_with (scoped_key Local sample_scope ["threads"; "a.json"])
    (scoped_prefix Local sample_scope ["threads"]) = true <->
  sample_scope = sample_scope /\ exists seg rest, ["threads"; "a.json"] = ["threads"] ++ seg :: rest.
Proof.
  apply (prefix_isolates_scopes Local); [apply sample_scope_ok|apply sample_scope_ok|done|].
  split; [done|]. intros Hin. apply elem_of_cons in Hin as [Hin|Hin]; [done|]. by apply elem_of_nil in Hin.
Defined.

Lemma dotless_keys_are_distinct_witness :
  sample_scope = sample_scope /\ Thread "a" = Thread "a".
Proof.
  apply (dotless_keys_are_distinct Local _ _ _ _ "t/w/p/threads/a.json");
    [apply sample_scope_ok|apply sample_scope_ok|done|done|reflexivity|reflexivity].
Defined.

(** ** Percent encoding *)

Lemma hex_digit_inj a b : a < 16 -> b < 16 -> hex_digit a = hex_digit b -> a = b.
Proof.
  intros Ha Hb. unfold hex_digit. intros E%(f_equal nat_of_ascii).
  rewrite !nat_ascii_embedding in E by (repeat case_match; lia).
  destruct (Nat.ltb_spec a 10), (Nat.ltb_spec b 10); lia.
Qed.

Lemma hex_pair_inj a b :
  hex_digit (nat_of_ascii a / 16) = hex_digit (nat_of_ascii b / 16) ->
  hex_digit (nat_of_ascii a mod 16) = hex_digit (nat_of_ascii b mod 16) -> a = b.
Proof.
  pose proof (nat_ascii_bounded a). pose proof (nat_ascii_bounded b).
  intros E1%hex_digit_inj E2%hex_digit_inj; try (apply Nat.Div0.div_lt_upper_bound; lia);
    try (apply Nat.mod_upper_bound; lia).
  rewrite <- (ascii_nat_embedding a), <- (ascii_nat_embedding b). f_equal.
  rewrite (Nat.div_mod_eq (nat_of_ascii a) 16), (Nat.div_mod_eq (nat_of_ascii b) 16). lia.
Qed.

(** Percent encoding of key components is injective, and what it emits
    never contains a path separator, so distinct identifiers stay distinct
    and a component stays one path segment. *)
Theorem encode_key_component_injective s t :
  (encode_key_component s = encode_key_component t <-> s = t) /\
  no_byte slash (encode_key_component s) = true.
Proof.
  split; [split; [|by intros ->]|].
  - revert t. induction s as [|a s IH]; intros [|b t]; simpl; try done.
    + by destruct (key_safe b).
    + by destruct (key_safe a).
    + destruct (key_safe a) eqn:Ha, (key_safe b) eqn:Hb; intros E; simplify_eq; try done.
      * f_equal. auto.
      * f_equal; [by apply hex_pair_inj|auto].
  - induction s as [|a s IH]; [done|]. cbn [encode_key_component].
    destruct (key_safe a) eqn:Ha; cbn [no_byte]; rewrite IH.
    + destruct (Ascii.eqb_spec a slash); [by subst|done].
    + assert (forall n, n < 16 -> Ascii.eqb (hex_digit n) slash = false) as Hh.
      { intros n Hn. do 16 (destruct n as [|n]; [done|]). lia. }
      pose proof (nat_ascii_bounded a).
      rewrite !Hh; [done|apply Nat.mod_upper_bound; lia|apply Nat.Div0.div_lt_upper_bound; lia].
Qed.
