(* ===== verification/Storage.v ===== *)
(** * Object storage: the interface and its contract

    [src/src/core/src/storage.rs].  [StorageAdapter] is the trait, as a type
    class over the adapter's state; [StorageLaws] is the contract of an
    adapter that owns its objects, stated as a refinement of the abstract
    store [Spec]; [Caching] is [CachingStorageAdapter], which satisfies the
    contract when the adapter behind it does.  Object contents are byte
    strings.  The locks of the adapters are never poisoned, because no code
    panics while it holds one, so the error of a poisoned lock is not
    modelled. *)

From stdpp Require Import base list strings gmap sorting.
From Stdlib Require Import ZArith Lia.
From S2P Require Import Prelude.
From S2P Require Import RustStr.
From S2P Require Import Json.
From S2P Require Import Errors.
From S2P Require Import Text.

(** [serde_json::to_vec] and [from_slice]; the errors are their texts. *)
Class Serde := {
  to_vec : Value -> Result string string;
  from_slice : string -> Result Value string
}.

Module ConditionalWriteStatus.
Inductive t : Type :=
| Written (etag : string)
| Conflict (current_etag : option string).
End ConditionalWriteStatus.

Notation Op St A := (Act St CoreError.t A).

Class StorageAdapter (St : Type) := {
  get_json : string -> Op St Value;
  put_json : string -> Value -> Op St unit;
  put_json_if_etag_matches : string -> Value -> option string -> Op St ConditionalWriteStatus.t;
  get_bytes : string -> Op St string;
  put_bytes : string -> string -> string -> Op St unit;
  delete_object : string -> Op St unit;
  head_etag : string -> Op St (option string);
  list_prefix : string -> Op St (list string)
}.

Definition storage_err (e : StorageError.t) : CoreError.t := CoreError.Storage e.

Definition not_found (key : string) : CoreError.t := storage_err (StorageError.NotFound key).

(** [CoreError::from(StorageError::other(format!("{op}('{key}'): failed to ...: {e}")))] *)
Definition json_err (op key what e : string) : CoreError.t :=
  storage_err (StorageError.Other
    (op +:+ "('" +:+ key +:+ "'): failed to " +:+ what +:+ " JSON: " +:+ e)).

Definition decode_json `{Serde} (op key : string) (bytes : string) : Result Value CoreError.t :=
  res_map_err (json_err op key "deserialize") (from_slice bytes).

Definition encode_json `{Serde} (op key : string) (v : Value) : Result string CoreError.t :=
  res_map_err (json_err op key "serialize") (to_vec v).

(** [keys.sort()] *)
Definition str_le (a b : string) : Prop := String.leb a b = true.

#[global] Instance str_le_dec : RelDecision str_le.
Proof. intros a b. unfold str_le. apply _. Defined.

Definition sort_strings (l : list string) : list string := merge_sort str_le l.


#[global] Instance str_le_trans : Transitive str_le.
Proof. intros a b c. apply string_leb_trans. Qed.

#[global] Instance str_le_total : Total str_le.
Proof. intros a b. apply String.leb_total. Qed.

#[global] Instance str_le_antisym : AntiSymm eq str_le.
Proof. intros a b. apply String.leb_antisym. Qed.

(** Sorting forgets the order it is given. *)
Lemma sort_strings_perm l l' : l ≡ₚ l' -> sort_strings l = sort_strings l'.
Proof.
  intros Hp. apply (Sorted_unique str_le); [by apply Sorted_merge_sort; apply _..|].
  unfold sort_strings. by rewrite !merge_sort_Permutation.
Qed.

(** ** The abstract store *)

Module Spec.
Definition Store : Type := gmap string string.

Section spec.
Context `{Serde}.
(** The tag of an object with the given contents. *)
Variable etag_of : string -> string.

Definition head_etag (key : string) : Op Store (option string) :=
  fun s => (Ok (etag_of <$> (s : gmap string string) !! key), s).

Definition get_bytes (key : string) : Op Store string :=
  fun s => (match (s : gmap string string) !! key with
            | Some b => Ok b | None => Err (not_found key) end, s).

Definition put_bytes (key bytes content_type : string) : Op Store unit :=
  fun s => (Ok tt, <[key := bytes]> (s : gmap string string)).

Definition delete_object (key : string) : Op Store unit :=
  fun s => (Ok tt, delete key (s : gmap string string)).

Definition get_json (key : string) : Op Store Value :=
  do! bytes <- get_bytes key; act_lift (decode_json "get_json" key bytes).

Definition put_json (key : string) (v : Value) : Op Store unit :=
  do! bytes <- act_lift (encode_json "put_json" key v); put_bytes key bytes "application/json".

Definition put_json_if_etag_matches (key : string) (v : Value) (expected : option string)
  : Op Store ConditionalWriteStatus.t :=
  do! bytes <- act_lift (encode_json "put_json_if_etag_matches" key v);
  do! current <- head_etag key;
  if decide (current = expected) then
    do! _ <- put_bytes key bytes "application/json";
    act_ret (ConditionalWriteStatus.Written (etag_of bytes))
  else act_ret (ConditionalWriteStatus.Conflict current).

Definition list_prefix (prefix : string) : Op Store (list string) :=
  fun s => (Ok (sort_strings
    (filter (fun k => starts_with k prefix = true) (elements (dom (s : gmap string string))))), s).
End spec.
End Spec.

(** ** The contract *)

Class StorageView (St : Type) := {
  contents : St -> Spec.Store;
  valid : St -> Prop;
  etag_of : string -> string
}.

(** [m] does on the adapter what [spec] does on the abstract store. *)
Definition refines {St A} `{!StorageView St} (m : Op St A) (spec : Op Spec.Store A) : Prop :=
  forall s, valid s ->
    (m s).1 = (spec (contents s)).1 /\
    contents (m s).2 = (spec (contents s)).2 /\ valid (m s).2.

Class StorageLaws (St : Type) `{!Serde, !StorageAdapter St, !StorageView St} : Prop := {
  get_json_refines k : refines (get_json k) (Spec.get_json k);
  put_json_refines k v : refines (put_json k v) (Spec.put_json k v);
  put_json_if_refines k v e :
    refines (put_json_if_etag_matches k v e) (Spec.put_json_if_etag_matches etag_of k v e);
  get_bytes_refines k : refines (get_bytes k) (Spec.get_bytes k);
  put_bytes_refines k b c : refines (put_bytes k b c) (Spec.put_bytes k b c);
  delete_refines k : refines (delete_object k) (Spec.delete_object k);
  head_refines k : refines (head_etag k) (Spec.head_etag etag_of k);
  list_refines p : refines (list_prefix p) (Spec.list_prefix p)
}.

Section refinement.
Context {St : Type} `{!StorageView St}.

Lemma refines_ret {A} (a : A) : refines (act_ret a) (act_ret a).
Proof. intros s Hs. done. Qed.

Lemma refines_lift {A} (r : Result A CoreError.t) : refines (act_lift r) (act_lift r).
Proof. intros s Hs. done. Qed.

Lemma refines_bind {A B} (m : Op St A) (k : A -> Op St B) m' k' :
  refines m m' -> (forall a, refines (k a) (k' a)) -> refines (act_bind m k) (act_bind m' k').
Proof.
  intros Hm Hk s Hs. destruct (Hm s Hs) as (H1 & H2 & H3). unfold act_bind.
  destruct (m s) as [r s1], (m' (contents s)) as [r' c1]; simpl in *. subst.
  destruct r' as [a|e]; simpl; [|done]. by apply Hk.
Qed.

Lemma refines_run {A} (m : Op St A) spec s r c :
  refines m spec -> valid s -> spec (contents s) = (r, c) ->
  exists s', m s = (r, s') /\ contents s' = c /\ valid s'.
Proof.
  intros Hm Hs Hr. destruct (Hm s Hs) as (H1 & H2 & H3). rewrite Hr in H1, H2; simpl in *.
  destruct (m s) as [r' s']; simpl in *. subst. eauto.
Qed.
End refinement.

#[export] Hint Resolve refines_ret refines_lift refines_bind get_json_refines put_json_refines
  put_json_if_refines get_bytes_refines put_bytes_refines delete_refines head_refines
  list_refines : react.
