(* ===== verification/MemoryStorage.v ===== *)
(** * The in-memory storage adapter

    [src/src/modules/adaptors/storage-memory/src/lib.rs]: a map from keys to
    objects tagged by an FNV-1a hash of their bytes and their length.  It is
    the reference implementation of the storage contract. *)

From stdpp Require Import base list strings gmap.
From Stdlib Require Import ZArith Lia.
From S2P Require Import Prelude.
From S2P Require Import RustStr.
From S2P Require Import Json.
From S2P Require Import Errors.
From S2P Require Import Storage.

Record StoredObject : Type := { obj_bytes : string; obj_etag : string }.

Definition InMemoryStorageAdapter : Type := gmap string StoredObject.

(** The [for b in bytes] loop of [next_etag]. *)
Fixpoint fnv_loop (hash : Z) (bytes : string) : Z :=
  match bytes with
  | EmptyString => hash
  | String b rest =>
      fnv_loop (wrapping_mul u64_max (Z.lxor hash (Z.of_nat (Ascii.nat_of_ascii b))) 1099511628211) rest
  end.

Definition next_etag (bytes : string) : string :=
  "mem-etag-" +:+ fmt_hex 16 (fnv_loop 1469598103934665603 bytes) +:+ "-" +:+
  fmt_nat (String.length bytes).

Section memory.
Context `{Serde}.

Notation M := InMemoryStorageAdapter.
Implicit Types g : gmap string StoredObject.

Definition mem_get_bytes (key : string) : Op M string :=
  fun g => (match (obj_bytes <$> g !! key) with Some b => Ok b | None => Err (not_found key) end, g).

Definition mem_get_json (key : string) : Op M Value :=
  do! bytes <- mem_get_bytes key; act_lift (decode_json "get_json" key bytes).

Definition mem_put_bytes (key bytes content_type : string) : Op M unit :=
  fun g => (Ok tt, <[key := {| obj_bytes := bytes; obj_etag := next_etag bytes |}]> g).

Definition mem_put_json (key : string) (value : Value) : Op M unit :=
  do! bytes <- act_lift (encode_json "put_json" key value);
  mem_put_bytes key bytes "application/json".

Definition mem_put_json_if_etag_matches (key : string) (value : Value) (expected : option string)
  : Op M ConditionalWriteStatus.t :=
  do! bytes <- act_lift (encode_json "put_json_if_etag_matches" key value);
  fun g =>
    let current_etag := obj_etag <$> g !! key in
    if decide (current_etag <> expected) then
      (Ok (ConditionalWriteStatus.Conflict current_etag), g)
    else
      let etag := next_etag bytes in
      (Ok (ConditionalWriteStatus.Written etag),
       <[key := {| obj_bytes := bytes; obj_etag := etag |}]> g).

Definition mem_delete_object (key : string) : Op M unit := fun g => (Ok tt, delete key g).

Definition mem_head_etag (key : string) : Op M (option string) :=
  fun g => (Ok (obj_etag <$> g !! key), g).

Definition mem_list_prefix (prefix : string) : Op M (list string) :=
  fun g => (Ok (sort_strings (filter (fun k => starts_with k prefix = true) (elements (dom g)))), g).

#[global] Instance memory_adapter : StorageAdapter M := {|
  get_json := mem_get_json;
  put_json := mem_put_json;
  put_json_if_etag_matches := mem_put_json_if_etag_matches;
  get_bytes := mem_get_bytes;
  put_bytes := mem_put_bytes;
  delete_object := mem_delete_object;
  head_etag := mem_head_etag;
  list_prefix := mem_list_prefix
|}.

(** Objects are tagged by their bytes. *)
Definition tagged g : Prop := map_Forall (fun _ o => obj_etag o = next_etag (obj_bytes o)) g.

#[global] Instance memory_view : StorageView M := {|
  contents := fun g => (obj_bytes <$> g : gmap string string);
  valid := tagged;
  etag_of := next_etag
|}.

Lemma tagged_insert g k b :
  tagged g -> tagged (<[k := {| obj_bytes := b; obj_etag := next_etag b |}]> g).
Proof. intros Hg. by apply map_Forall_insert_2. Qed.

Lemma tagged_lookup g k :
  tagged g -> next_etag <$> ((obj_bytes <$> g : gmap string string) !! k) = obj_etag <$> g !! k.
Proof.
  intros Hg. rewrite lookup_fmap. destruct (g !! k) as [o|] eqn:E; simpl; [|done].
  f_equal. symmetry. by apply (Hg k o).
Qed.

Lemma mem_get_bytes_refines k : refines (mem_get_bytes k) (Spec.get_bytes k).
Proof. intros g Hg. cbn. rewrite lookup_fmap. done. Qed.

Lemma mem_put_bytes_refines k b c : refines (mem_put_bytes k b c) (Spec.put_bytes k b c).
Proof. intros g Hg. cbn. rewrite fmap_insert. eauto using tagged_insert. Qed.

Lemma mem_head_refines k : refines (mem_head_etag k) (Spec.head_etag next_etag k).
Proof. intros g Hg. cbn. rewrite tagged_lookup by done. done. Qed.

Lemma mem_put_json_if_refines k v e :
  refines (mem_put_json_if_etag_matches k v e) (Spec.put_json_if_etag_matches next_etag k v e).
Proof.
  apply refines_bind; [apply refines_lift|]. intros b g Hg.
  unfold Spec.head_etag, act_bind, act_ret, contents, memory_view. rewrite tagged_lookup by done.
  do 2 case_decide; simpl; rewrite ?fmap_insert; try done. eauto using tagged_insert.
Qed.

#[global] Instance memory_laws : StorageLaws M.
Proof.
  split; intros; simpl.
  - apply refines_bind; [apply mem_get_bytes_refines|intros; apply refines_lift].
  - apply refines_bind; [apply refines_lift|intros; apply mem_put_bytes_refines].
  - apply mem_put_json_if_refines.
  - apply mem_get_bytes_refines.
  - apply mem_put_bytes_refines.
  - intros g Hg. cbn. rewrite fmap_delete. split; [done|]. split; [done|].
    by apply map_Forall_delete.
  - apply mem_head_refines.
  - intros g Hg. cbn. rewrite dom_fmap_L. done.
Qed.
End memory.
