(* ===== verification/Caching.v ===== *)
(** * The caching storage adapter and the retrying calls

    [CachingStorageAdapter] and the [retry_*] functions of
    [src/src/core/src/storage.rs].  The cache keeps written or read bytes per
    key, with the tag they were read under, and remembers missing keys.  Over
    an adapter that satisfies the storage contract, both satisfy it again. *)

From stdpp Require Import base list strings gmap.
From Stdlib Require Import ZArith Lia.
From S2P Require Import Prelude.
From S2P Require Import RustStr.
From S2P Require Import Json.
From S2P Require Import Errors.
From S2P Require Import Text.
From S2P Require Import Storage.
From S2P Require Import MemoryStorage.

Module CacheEntry.
Inductive t : Type :=
| Bytes (bytes : string) (etag : option string)
| Missing.
End CacheEntry.

Record CachingStorageAdapter (St : Type) : Type := mkCaching {
  inner : St;
  entries : gmap string CacheEntry.t
}.

Arguments mkCaching {St} _ _.
Arguments inner {St} _.
Arguments entries {St} _.

Section caching.
Context {St : Type} `{HSd : !Serde, HSt : !StorageAdapter St}.

Notation C := (CachingStorageAdapter St).

Definition caching_new (i : St) : C := mkCaching i ∅.

(** A call of the adapter behind the cache. *)
Definition on_inner {A} (m : Op St A) : Op C A :=
  fun c => let '(r, i) := m (inner c) in (r, mkCaching i (entries c)).

Definition read_entry (key : string) : Op C (option CacheEntry.t) :=
  fun c => (Ok (entries c !! key), c).

Definition write_entry (key : string) (e : CacheEntry.t) : Op C unit :=
  fun c => (Ok tt, mkCaching (inner c) (<[key := e]> (entries c))).

Definition invalidate_entry (key : string) : Op C unit :=
  fun c => (Ok tt, mkCaching (inner c) (delete key (entries c))).

Definition cached_missing_error (key : string) : CoreError.t := not_found key.

Definition remember_bytes (key bytes : string) (etag : option string) : Op C unit :=
  write_entry key (CacheEntry.Bytes bytes etag).

(** The part of [get_bytes] after the cache was consulted. *)
Definition fetch_bytes (key : string) : Op C string :=
  do! current_etag <- on_inner (head_etag key);
  fun c =>
    match on_inner (get_bytes key) c with
    | (Ok bytes, c1) =>
        (do! _ <- remember_bytes key bytes current_etag; act_ret bytes) c1
    | (Err err, c1) =>
        if is_storage_not_found_error err
        then (do! _ <- write_entry key CacheEntry.Missing; act_err err) c1
        else (Err err, c1)
    end.

Definition cached_get_bytes (key : string) : Op C string :=
  do! e <- read_entry key;
  match e with
  | Some (CacheEntry.Bytes bytes (Some etag)) =>
      do! current <- on_inner (head_etag key);
      if decide (current = Some etag) then act_ret bytes else fetch_bytes key
  | Some (CacheEntry.Bytes bytes None) => act_ret bytes
  | Some CacheEntry.Missing => act_err (cached_missing_error key)
  | None => fetch_bytes key
  end.

Definition cached_get_json (key : string) : Op C Value :=
  do! bytes <- cached_get_bytes key; act_lift (decode_json "get_json" key bytes).

Definition cached_put_bytes (key bytes content_type : string) : Op C unit :=
  do! _ <- on_inner (put_bytes key bytes content_type); remember_bytes key bytes None.

Definition cached_put_json (key : string) (value : Value) : Op C unit :=
  do! bytes <- act_lift (encode_json "put_json" key value);
  do! _ <- on_inner (put_bytes key bytes "application/json");
  remember_bytes key bytes None.

Definition cached_put_json_if_etag_matches (key : string) (value : Value)
  (expected_etag : option string) : Op C ConditionalWriteStatus.t :=
  do! bytes <- act_lift (encode_json "put_json_if_etag_matches" key value);
  do! status <- on_inner (put_json_if_etag_matches key value expected_etag);
  match status with
  | ConditionalWriteStatus.Written etag =>
      do! _ <- remember_bytes key bytes (Some etag);
      act_ret (ConditionalWriteStatus.Written etag)
  | ConditionalWriteStatus.Conflict current_etag =>
      do! _ <- invalidate_entry key;
      act_ret (ConditionalWriteStatus.Conflict current_etag)
  end.

Definition cached_delete_object (key : string) : Op C unit :=
  do! _ <- on_inner (delete_object key); write_entry key CacheEntry.Missing.

Definition cached_head_etag (key : string) : Op C (option string) :=
  do! e <- read_entry key;
  match e with
  | Some CacheEntry.Missing => act_ret None
  | _ => on_inner (head_etag key)
  end.

Definition cached_list_prefix (prefix : string) : Op C (list string) :=
  on_inner (list_prefix prefix).

#[global] Instance caching_adapter : StorageAdapter C := {|
  get_json := cached_get_json;
  put_json := cached_put_json;
  put_json_if_etag_matches := cached_put_json_if_etag_matches;
  get_bytes := cached_get_bytes;
  put_bytes := cached_put_bytes;
  delete_object := cached_delete_object;
  head_etag := cached_head_etag;
  list_prefix := cached_list_prefix
|}.

(** ** Coherence *)

Context `{HV : !StorageView St}.

(** What the cache may hold about a key of the store.  An entry with a tag is
    validated before use, so it only has to be right under that tag. *)
Definition entry_ok (s : Spec.Store) (key : string) (e : CacheEntry.t) : Prop :=
  match e with
  | CacheEntry.Bytes b None => (s : gmap string string) !! key = Some b
  | CacheEntry.Bytes b (Some t) =>
      forall b', (s : gmap string string) !! key = Some b' -> etag_of b' = t -> b' = b
  | CacheEntry.Missing => (s : gmap string string) !! key = None
  end.

#[global] Instance caching_view : StorageView C := {|
  contents c := contents (inner c);
  valid c := valid (inner c) /\
    map_Forall (entry_ok (contents (inner c))) (entries c);
  etag_of := etag_of
|}.
End caching.

Section coherence.
Context {St : Type} `{HSd : !Serde, HSt : !StorageAdapter St, HV : !StorageView St, HL : !StorageLaws St}.

Notation C := (CachingStorageAdapter St).
Implicit Types c : C.

(** An inner operation that leaves the store as it is keeps the cache right. *)
Lemma on_inner_refines {A} (m : Op St A) (spec : Op Spec.Store A) :
  refines m spec -> (forall s, (spec s).2 = s) -> refines (on_inner m) spec.
Proof.
  intros Hm Hro c [Hv He]. destruct (Hm (inner c) Hv) as (H1 & H2 & H3). unfold on_inner.
  destruct (m (inner c)) as [r i]; simpl in *. repeat split; try done.
  rewrite H2, Hro. done.
Qed.

(** Entries of other keys survive a write to the store under one key. *)
Lemma entries_other (s s' : gmap string string) key (es : gmap string CacheEntry.t) e :
  map_Forall (entry_ok s) es -> (forall k, k <> key -> s' !! k = s !! k) ->
  entry_ok s' key e -> map_Forall (entry_ok s') (<[key := e]> es).
Proof.
  intros Hes Hs He k x. destruct (decide (k = key)) as [->|Hne].
  - rewrite lookup_insert_eq. by intros [= <-].
  - rewrite lookup_insert_ne by done. intros Hx. specialize (Hes k x Hx).
    unfold entry_ok in *. by rewrite Hs.
Qed.

Lemma write_after_refines {A} (m : Op St A) (spec : Op Spec.Store A) key e :
  refines m spec ->
  (forall s k, k <> key -> ((spec s).2 : gmap string string) !! k = (s : gmap string string) !! k) ->
  (forall s a s', spec s = (Ok a, s') -> entry_ok s' key e) ->
  (forall s, is_Ok (spec s).1 = true) ->
  refines (do! a <- on_inner m; do! _ <- write_entry key e; act_ret a) spec.
Proof.
  intros Hm Hk He Hok c [Hv Hes]. destruct (Hm (inner c) Hv) as (H1 & H2 & H3).
  unfold act_bind, on_inner. destruct (m (inner c)) as [r i]; simpl in H1, H2, H3 |- *.
  specialize (Hok (contents (inner c))). destruct (spec (contents (inner c))) as [r' s'] eqn:Hsp.
  simpl in *. subst. destruct r' as [a|]; [|done]. simpl. repeat split; try done.
  eapply entries_other; [done| |].
  - intros k Hne. specialize (Hk (contents (inner c)) k Hne). by rewrite Hsp in Hk.
  - by eapply He.
Qed.

Lemma fetch_bytes_refines key : refines (fetch_bytes key) (Spec.get_bytes key).
Proof.
  intros c [Hv Hes]. unfold fetch_bytes, act_bind, on_inner.
  destruct (head_refines key (inner c) Hv) as (H1 & H2 & H3).
  destruct (head_etag key (inner c)) as [r i]; simpl in H1, H2, H3. subst r. simpl.
  destruct (get_bytes_refines key i H3) as (G1 & G2 & G3).
  destruct (get_bytes key i) as [r j]; cbn in G1, G2, G3 |- *. rewrite H2 in G1, G2.
  destruct ((contents (inner c) : gmap string string) !! key) as [b|] eqn:Hb; subst r;
    simpl; (split; [done|]; split; [done|]; split; [done|]); cbn; rewrite G2.
  - eapply entries_other; [done|done|]. cbn. congruence.
  - eapply entries_other; [done|done|]. done.
Qed.

Lemma cached_get_bytes_refines key : refines (cached_get_bytes key) (Spec.get_bytes key).
Proof.
  intros c Hc. pose proof Hc as [Hv Hes]. unfold cached_get_bytes.
  rewrite (act_bind_Ok (read_entry key) _ c (entries c !! key) c) by done.
  destruct (entries c !! key) as [[b [t|]|]|] eqn:He; [| | |by apply fetch_bytes_refines];
    pose proof (Hes key _ He) as Hok.
  - unfold act_bind, on_inner. destruct (head_refines key (inner c) Hv) as (H1 & H2 & H3).
    destruct (head_etag key (inner c)) as [r i]; simpl in H1, H2, H3. subst r. cbn.
    assert (valid (mkCaching i (entries c))) as Hc' by (split; simpl; by rewrite ?H2).
    case_decide as Ht.
    + destruct ((contents (inner c) : gmap string string) !! key) as [b'|] eqn:Hb; [|done].
      simpl in Ht. simplify_eq. cbn. rewrite (Hok b'); done.
    + destruct (fetch_bytes_refines key _ Hc') as (F1 & F2 & F3). cbn in F1, F2.
      by rewrite H2 in F1, F2.
  - cbn. cbn in Hok. by rewrite Hok.
  - cbn. cbn in Hok. by rewrite Hok.
Qed.

Lemma cached_put_bytes_refines key b ct : refines (cached_put_bytes key b ct) (Spec.put_bytes key b ct).
Proof.
  intros c Hc.
  destruct (write_after_refines (put_bytes key b ct) (Spec.put_bytes key b ct) key
    (CacheEntry.Bytes b None)) with c as (H1 & H2 & H3); try done.
  - by apply put_bytes_refines.
  - intros s k Hne. cbn. by rewrite lookup_insert_ne.
  - intros s a s' [= <- <-]. cbn. by rewrite lookup_insert_eq.
  - unfold cached_put_bytes, act_bind in *.
    destruct (on_inner (put_bytes key b ct) c) as [[[]|] c1]; done.
Qed.

Lemma cached_delete_refines key : refines (cached_delete_object key) (Spec.delete_object key).
Proof.
  intros c Hc.
  destruct (write_after_refines (delete_object key) (Spec.delete_object key) key
    CacheEntry.Missing) with c as (H1 & H2 & H3); try done.
  - by apply delete_refines.
  - intros s k Hne. cbn. by rewrite lookup_delete_ne.
  - intros s a s' [= <- <-]. cbn. by rewrite lookup_delete_eq.
  - unfold cached_delete_object, act_bind in *.
    destruct (on_inner (delete_object key) c) as [[[]|] c1]; done.
Qed.

Lemma cached_head_refines key : refines (cached_head_etag key) (Spec.head_etag etag_of key).
Proof.
  intros c Hc. pose proof Hc as [Hv Hes]. unfold cached_head_etag.
  rewrite (act_bind_Ok (read_entry key) _ c (entries c !! key) c) by done.
  destruct (on_inner_refines (head_etag key) (Spec.head_etag etag_of key)) with c as (H1 & H2 & H3);
    [by apply head_refines|done|done|].
  destruct (entries c !! key) as [[b t|]|] eqn:He; try done.
  pose proof (Hes key _ He) as Hok. cbn in Hok |- *. by rewrite Hok.
Qed.

Lemma cached_put_json_if_refines key v e :
  refines (cached_put_json_if_etag_matches key v e) (Spec.put_json_if_etag_matches etag_of key v e).
Proof.
  intros c [Hv Hes]. unfold cached_put_json_if_etag_matches, Spec.put_json_if_etag_matches.
  destruct (put_json_if_refines key v e (inner c) Hv) as (H1 & H2 & H3).
  unfold Spec.put_json_if_etag_matches in H1, H2.
  destruct (encode_json "put_json_if_etag_matches" key v) as [b|x] eqn:Hb; [|done].
  rewrite (act_bind_Ok (act_lift (Ok b)) _ c b c) by done.
  destruct (put_json_if_etag_matches key v e (inner c)) as [r i] eqn:Hp.
  simpl in H1, H2, H3. subst r. cbn in H2, Hp |- *.
  case_decide as Hd; cbn in H2, Hp |- *;
    (erewrite act_bind_Ok; [|by unfold on_inner; rewrite Hp]); cbn; rewrite H2;
    repeat split; try done.
  - eapply entries_other; [done| |].
    + intros k Hne. by rewrite lookup_insert_ne.
    + cbn. rewrite lookup_insert_eq. by intros b' [= <-].
  - by apply map_Forall_delete.
Qed.

#[global] Instance caching_laws : StorageLaws C.
Proof.
  split; intros; simpl.
  - apply refines_bind; [apply cached_get_bytes_refines|intros; apply refines_lift].
  - apply refines_bind; [apply refines_lift|intros b; apply (cached_put_bytes_refines k b)].
  - apply cached_put_json_if_refines.
  - apply cached_get_bytes_refines.
  - apply cached_put_bytes_refines.
  - apply cached_delete_refines.
  - apply cached_head_refines.
  - apply on_inner_refines; [by apply list_refines|done].
Qed.
End coherence.

(** ** Retrying calls *)

Definition SAFE_STORAGE_RETRY_DELAYS_MS : list Z := [100; 200; 400; 800; 1600; 3200]%Z.

Definition summarize_storage_retry_error (err : CoreError.t) : string :=
  truncate_chars_ellipsis (CoreError.display err) 240.

(** [tokio::time::sleep]: what else may happen to the store in the meantime. *)
Class Timer (St : Type) := sleep : Z -> St -> St.

Section retrying.
Context {St : Type} `{HSd : !Serde, HSt : !StorageAdapter St, HT : !Timer St}.

(** The observer only logs. *)
Definition retry_storage_call {A} (call : Op St A) : Op St A :=
  retry_classified call (fun _ _ s => s) sleep SAFE_STORAGE_RETRY_DELAYS_MS.

Definition retry_get_json (key : string) : Op St Value := retry_storage_call (get_json key).
Definition retry_put_json (key : string) (value : Value) : Op St unit :=
  retry_storage_call (put_json key value).
Definition retry_put_json_if_etag_matches (key : string) (value : Value) (expected : option string)
  : Op St ConditionalWriteStatus.t :=
  retry_storage_call (put_json_if_etag_matches key value expected).
Definition retry_get_bytes (key : string) : Op St string := retry_storage_call (get_bytes key).
Definition retry_put_bytes (key bytes content_type : string) : Op St unit :=
  retry_storage_call (put_bytes key bytes content_type).
Definition retry_delete_object (key : string) : Op St unit := retry_storage_call (delete_object key).
Definition retry_head_etag (key : string) : Op St (option string) := retry_storage_call (head_etag key).
Definition retry_list_prefix (prefix : string) : Op St (list string) :=
  retry_storage_call (list_prefix prefix).
End retrying.

(** An operation whose errors are never transient is called once. *)
Lemma retry_once {St A} `{HT : !Timer St} (call : Op St A) s :
  (forall e, (call s).1 = Err e -> CoreError.retryable e = false) ->
  retry_storage_call call s = call s.
Proof.
  intros H. unfold retry_storage_call. destruct (call s) as [r s'] eqn:E.
  erewrite retry_classified_first; [done|done|]. intros e ->. by apply H.
Qed.

Section retry_refines.
Context {St : Type} `{HSd : !Serde, HSt : !StorageAdapter St, HV : !StorageView St, HT : !Timer St}.

(** On an adapter that owns its objects the errors are permanent, so the
    retrying calls are the plain ones. *)
Lemma retry_refines {A} (call : Op St A) spec :
  refines call spec ->
  (forall s e, (spec s).1 = Err e -> CoreError.retryable e = false) ->
  refines (retry_storage_call call) spec.
Proof.
  intros Hc He s Hs. destruct (Hc s Hs) as (H1 & H2 & H3). rewrite retry_once; [done|].
  intros e. rewrite H1. apply He.
Qed.
End retry_refines.

(** ** Transparency *)

Module Call.
Inductive t : Type :=
| GetJson (key : string)
| PutJson (key : string) (v : Value)
| PutJsonIf (key : string) (v : Value) (expected : option string)
| GetBytes (key : string)
| PutBytes (key bytes content_type : string)
| Delete (key : string)
| HeadEtag (key : string)
| ListPrefix (prefix : string).

Inductive reply : Type :=
| RJson (v : Value)
| RUnit
| RStatus (s : ConditionalWriteStatus.t)
| RBytes (b : string)
| REtag (e : option string)
| RKeys (l : list string).

Section run.
Context {St : Type} `{HSd : !Serde, HSt : !StorageAdapter St}.

Definition map_reply {A} (f : A -> reply) (m : Op St A) : Op St reply :=
  do! a <- m; act_ret (f a).

Definition run (c : t) : Op St reply :=
  match c with
  | GetJson k => map_reply RJson (get_json k)
  | PutJson k v => map_reply (fun _ => RUnit) (put_json k v)
  | PutJsonIf k v e => map_reply RStatus (put_json_if_etag_matches k v e)
  | GetBytes k => map_reply RBytes (get_bytes k)
  | PutBytes k b ct => map_reply (fun _ => RUnit) (put_bytes k b ct)
  | Delete k => map_reply (fun _ => RUnit) (delete_object k)
  | HeadEtag k => map_reply REtag (head_etag k)
  | ListPrefix p => map_reply RKeys (list_prefix p)
  end.

(** A client's calls in order, with what each returned. *)
Fixpoint run_all (cs : list t) (s : St) : list (Result reply CoreError.t) * St :=
  match cs with
  | [] => ([], s)
  | c :: cs => let '(r, s1) := run c s in let '(rs, s2) := run_all cs s1 in (r :: rs, s2)
  end.
End run.
End Call.

(** Two adapters that keep the contract with the same tags answer alike. *)
Lemma run_same {S1 S2} `{HSd : !Serde, HA1 : !StorageAdapter S1, HV1 : !StorageView S1, HL1 : !StorageLaws S1,
    HA2 : !StorageAdapter S2, HV2 : !StorageView S2, HL2 : !StorageLaws S2} c (s1 : S1) (s2 : S2) :
  etag_of (St := S1) = etag_of (St := S2) ->
  valid s1 -> valid s2 -> contents s1 = contents s2 ->
  (Call.run c s1).1 = (Call.run c s2).1 /\ valid (Call.run c s1).2 /\ valid (Call.run c s2).2 /\
  contents (Call.run c s1).2 = contents (Call.run c s2).2.
Proof.
  intros He V1 V2 Hc.
  assert (exists spec, refines (Call.run c : Op S1 _) spec /\ refines (Call.run c : Op S2 _) spec)
    as (spec & R1 & R2).
  { destruct c; simpl; unfold Call.map_reply; eexists; split;
      (eapply refines_bind; [rewrite ?He; eauto with react|intros a; apply refines_ret]). }
  destruct (R1 _ V1) as (A1 & A2 & A3), (R2 _ V2) as (B1 & B2 & B3).
  rewrite A1, A2, B1, B2, Hc. done.
Qed.

(** C4: The cache is transparent for the process that owns the objects: over
    any adapter that keeps the storage contract, every sequence of calls made
    through a fresh cache gets, call by call, the replies and errors the
    adapter alone would give, and leaves the same objects behind. *)
Theorem cache_is_transparent {St} `{HSd : !Serde, HA : !StorageAdapter St, HV : !StorageView St,
    HL : !StorageLaws St} (cs : list Call.t) (i : St) :
  valid i ->
  (Call.run_all cs (caching_new i)).1 = (Call.run_all cs i).1 /\
  contents (inner (Call.run_all cs (caching_new i)).2) = contents (Call.run_all cs i).2.
Proof.
  intros Hv. assert (valid (caching_new i)) as Hc by (split; [done|apply map_Forall_empty]).
  assert (contents (caching_new i) = contents i) as Hs by done.
  revert Hv Hc Hs. generalize (caching_new i). generalize i. clear i.
  induction cs as [|c cs IH]; intros i s Hv Hc Hs; [done|]. cbn [Call.run_all].
  destruct (run_same c s i) as (R1 & R2 & R3 & R4); try done.
  destruct (Call.run c s) as [r1 s1], (Call.run c i) as [r2 i1]; simpl in *.
  destruct (IH i1 s1) as [I1 I2]; try done.
  destruct (Call.run_all cs s1), (Call.run_all cs i1); simpl in *. by subst.
Qed.

(** A codec of JSON strings only, to instantiate the interface. *)
Definition string_serde : Serde := {|
  to_vec v := match v with VString s => Ok s | _ => Err "unsupported" end;
  from_slice b := Ok (VString b)
|}.

Lemma cache_is_transparent_witness :
  let cs := [Call.PutJson "k" (VString "x"); Call.GetJson "k"; Call.Delete "k"; Call.HeadEtag "k"] in
  (@Call.run_all _ (@caching_adapter _ string_serde (@memory_adapter string_serde)) cs
     (caching_new (∅ : InMemoryStorageAdapter))).1 =
  (@Call.run_all _ (@memory_adapter string_serde) cs (∅ : InMemoryStorageAdapter)).1.
Proof.
  refine (proj1 (@cache_is_transparent InMemoryStorageAdapter string_serde _ memory_view
    (@memory_laws string_serde) _ _ _)). apply map_Forall_empty.
Defined.

(** A conditional write that reports a conflict drops the cached object,
    so that whatever other processes wrote, the next read goes to the adapter
    behind the cache; this holds for every adapter and every state of it. *)
Theorem conflict_refreshes_the_cache {St} `{HSd : !Serde, HA : !StorageAdapter St}
    key v expected cur (c c1 : CachingStorageAdapter St) (i : St) :
  cached_put_json_if_etag_matches key v expected c = (Ok (ConditionalWriteStatus.Conflict cur), c1) ->
  cached_get_bytes key (mkCaching i (entries c1)) = fetch_bytes key (mkCaching i (entries c1)).
Proof.
  unfold cached_put_json_if_etag_matches. intros H.
  destruct (encode_json _ key v) as [b|e]; [|done].
  rewrite (act_bind_Ok (act_lift (Ok b)) _ c b c) in H by done.
  unfold act_bind at 1, on_inner in H.
  destruct (put_json_if_etag_matches key v expected (inner c)) as [[[etag|cur']|e] i1]; try done.
  unfold act_bind, invalidate_entry, act_ret in H. simplify_eq. cbn [entries inner]. unfold cached_get_bytes.
  rewrite (act_bind_Ok (read_entry key) _ _ None (mkCaching i (delete key (entries c)))); [done|].
  unfold read_entry; cbn [entries]. by rewrite lookup_delete_eq.
Qed.

Lemma conflict_refreshes_the_cache_witness :
  let i : InMemoryStorageAdapter := ∅ in
  let A := @memory_adapter string_serde in
  cached_get_bytes "k" (mkCaching i (delete "k" ∅)) = fetch_bytes "k" (mkCaching i (delete "k" ∅)).
Proof.
  intros i A.
  exact (@conflict_refreshes_the_cache InMemoryStorageAdapter string_serde A
    "k" (VString "x") (Some "old") None (caching_new i) (mkCaching i (delete "k" ∅)) i eq_refl).
Defined.
