(* ===== verification/SessionTypes.v ===== *)
(** * Session data

    [src/src/core/src/session/types.rs]: the thread log, its seventeen kinds
    of steps, observations, statuses, and the views of them.  Timestamps are
    their RFC 3339 strings; a [BTreeMap] is the list of its entries sorted by
    key. *)

From stdpp Require Import base list strings.
From Stdlib Require Import ZArith Lia.
From S2P Require Import Prelude.
From S2P Require Import RustStr.
From S2P Require Import Json.

Definition THREAD_SCHEMA_VERSION : Z := 4.
Definition CONTROL_STATE_ENVELOPE_SCHEMA_VERSION : Z := 1.

Record VersionedValue (T : Type) : Type := { etag : option string; value : T }.
Arguments etag {T} _.
Arguments value {T} _.

Inductive LoadState (T : Type) : Type :=
| Missing
| Loaded (v : VersionedValue T).
Arguments Missing {T}.
Arguments Loaded {T} v.

Record ControlStateEnvelope : Type := {
  cse_schema_version : Z;
  suite_id : string;
  cse_payload : Value
}.

Module ThreadEventKind.
Inductive t : Type := ToolStart | ToolEnd | LlmStart | LlmEnd.
Definition as_str (k : t) : string :=
  match k with
  | ToolStart => "tool_start"
  | ToolEnd => "tool_end"
  | LlmStart => "llm_start"
  | LlmEnd => "llm_end"
  end.
#[global] Instance eq_dec : EqDecision t.
Proof. solve_decision. Defined.
End ThreadEventKind.

Module ThreadEventStatus.
Inductive t : Type := Running | Ok | Failed.
End ThreadEventStatus.

Module ToolStepStatus.
Inductive t : Type := Running | Ok | Failed.
Definition as_str (s : t) : string :=
  match s with Running => "running" | Ok => "ok" | Failed => "failed" end.
#[global] Instance eq_dec : EqDecision t.
Proof. solve_decision. Defined.
End ToolStepStatus.

Module RunLoopStopKind.
Inductive t : Type := RejectedComplete | StepLimitExceeded | PolicyBlocked.
Definition as_str (k : t) : string :=
  match k with
  | RejectedComplete => "rejected_complete"
  | StepLimitExceeded => "step_limit_exceeded"
  | PolicyBlocked => "policy_blocked"
  end.
End RunLoopStopKind.

Module LlmStepStatus.
Inductive t : Type := Ok | Failed.
#[global] Instance eq_dec : EqDecision t.
Proof. solve_decision. Defined.
End LlmStepStatus.

(** [impl From<ToolStepStatus> for ThreadEventStatus] and the one for LLM
    steps. *)
Definition tool_event_status (s : ToolStepStatus.t) : ThreadEventStatus.t :=
  match s with
  | ToolStepStatus.Running => ThreadEventStatus.Running
  | ToolStepStatus.Ok => ThreadEventStatus.Ok
  | ToolStepStatus.Failed => ThreadEventStatus.Failed
  end.

Definition llm_event_status (s : LlmStepStatus.t) : ThreadEventStatus.t :=
  match s with
  | LlmStepStatus.Ok => ThreadEventStatus.Ok
  | LlmStepStatus.Failed => ThreadEventStatus.Failed
  end.

Record ArtifactKind : Type := mkArtifactKind { kind_str : string }.

Module ArtifactSaveStatus.
Inductive t : Type := Added | Modified | Ok | Failed | Other (s : string).

Definition as_str (s : t) : string :=
  match s with
  | Added => "added"
  | Modified => "modified"
  | Ok => "ok"
  | Failed => "failed"
  | Other s => s
  end.

Definition from_string (v : string) : t :=
  if String.eqb v "added" then Added
  else if String.eqb v "modified" then Modified
  else if String.eqb v "ok" then Ok
  else if String.eqb v "failed" then Failed
  else Other v.

Definition into_string (s : t) : string :=
  match s with
  | Added => "added"
  | Modified => "modified"
  | Ok => "ok"
  | Failed => "failed"
  | Other s => s
  end.

(** Values [from_string] can produce. *)
Definition canonical (s : t) : Prop :=
  match s with
  | Other v => v ∉ ["added"; "modified"; "ok"; "failed"]
  | _ => True
  end.

Lemma from_string_into s : into_string (from_string s) = s.
Proof.
  unfold from_string. repeat (case_match eqn:E; [apply String.eqb_eq in E; by subst|clear E]). done.
Qed.

Lemma into_string_from s : canonical s -> from_string (into_string s) = s.
Proof.
  destruct s as [| | | |v]; try done. cbn. intros Hv. unfold from_string.
  repeat (case_match eqn:E; [apply String.eqb_eq in E; subst; exfalso; apply Hv;
    repeat constructor|clear E]). done.
Qed.
End ArtifactSaveStatus.

(** [ExecutionContext { data: BTreeMap<String, Value> }] *)
Definition ExecutionContext : Type := list (string * Value).

Module Ctx.
Definition get (c : ExecutionContext) (key : string) : option Value := assoc_get key c.
Definition get_str (c : ExecutionContext) (key : string) : option string :=
  match get c key with Some v => as_str v | None => None end.
Definition set (key : string) (v : Value) (c : ExecutionContext) : ExecutionContext :=
  btree_insert key v c.
End Ctx.

Record ThreadEvent : Type := {
  te_step_idx : nat;
  te_event_kind : ThreadEventKind.t;
  te_ts : string;
  te_tool_id : option string;
  te_name : option string;
  te_clean_name : option string;
  te_status : option ThreadEventStatus.t;
  te_runtime_ms : option Z;
  te_payload : option Value;
  te_error : option string;
  te_call_id : option Z;
  te_model : option string;
  te_phase : option string;
  te_ctx : option ExecutionContext
}.

Record ExecutionPlanKind : Type := mkExecutionPlanKind { plan_kind : string }.

Module Observation.
Record t : Type := { ok : bool; errors : list string; warnings : list string }.
Definition success : t := {| ok := true; errors := []; warnings := [] |}.
Definition fail (errs : list string) : t := {| ok := false; errors := errs; warnings := [] |}.
End Observation.

Module ToolObservation.
Record t : Type := {
  ok : bool;
  errors : list string;
  warnings : list string;
  extra : list (string * Value)
}.

Definition success (extra : list (string * Value)) : t :=
  {| ok := true; errors := []; warnings := []; extra := extra |}.

Definition fail (errs : list string) (extra : list (string * Value)) : t :=
  {| ok := false; errors := errs; warnings := []; extra := extra |}.

Definition extra_from_value (v : Value) : list (string * Value) :=
  match v with
  | VObject m => fold_left (fun acc kv => btree_insert kv.1 kv.2 acc) m []
  | other => btree_insert "value" other []
  end.

Definition from_success (v : Value) : t := success (extra_from_value v).

Definition from_failure (message : string) : t := fail [message] [].

Definition non_empty_string_field (extra : list (string * Value)) (key : string) : option string :=
  match assoc_get key extra with
  | Some v =>
      match as_str v with
      | Some s => let s := trim s in if str_is_empty s then None else Some s
      | None => None
      end
  | None => None
  end.

Fixpoint first_field (extra : list (string * Value)) (keys : list string) : option string :=
  match keys with
  | [] => None
  | key :: keys =>
      match non_empty_string_field extra key with
      | Some s => Some s
      | None => first_field extra keys
      end
  end.

Definition first_error_or_context (o : t) : option string :=
  match head (errors o) with
  | Some e => Some e
  | None => first_field (extra o) ["message"; "reason"; "detail"]
  end.
End ToolObservation.

Module ThreadStep.
Inductive t : Type :=
| SwitchSuite (from : option string) (to_ : string) (observation : Observation.t) (ts agent : string)
| SwitchAgent (from : option string) (to_ : string) (observation : Observation.t) (ts agent : string)
| User (text : string) (observation : Observation.t) (ts agent : string)
| ToolStart (tool_id name clean_name : string) (args : Value) (status : ToolStepStatus.t)
    (payload : option Value) (ctx : option ExecutionContext) (ts agent : string)
| ToolEnd (tool_id name clean_name : string) (args : Value) (status : ToolStepStatus.t)
    (payload : option Value) (ctx : option ExecutionContext) (observation : ToolObservation.t)
    (ts agent : string)
| LlmStart (call_id : Z) (model : option string) (phase : string) (ctx : option ExecutionContext)
    (ts agent : string)
| LlmEnd (call_id : Z) (model : option string) (phase : string) (status : LlmStepStatus.t)
    (error : option string) (ctx : option ExecutionContext) (ts agent : string)
| LlmCall (call_id : Z) (model phase prompt_hash : string) (parts : list Value)
    (part_hashes : list (string * string)) (response_hash : string) (response_text : option string)
    (observation : Observation.t) (ts agent : string)
| Phase (phase : string) (from_phase reason_code : option string) (reason_detail : option Value)
    (observation : Observation.t) (ts agent : string)
| GuardBlock (phase kind reason : string) (observation : Observation.t) (ts agent : string)
| RunLoopStop (kind : RunLoopStopKind.t) (reason : string) (observation : Observation.t)
    (ts agent : string)
| ArtifactFocus (kind : ArtifactKind) (name : string) (entity_id : option string) (exists_ : bool)
    (observation : Observation.t) (ts agent : string)
| ArtifactSaved (kind : ArtifactKind) (name : string) (entity_id : option string) (key : string)
    (status : ArtifactSaveStatus.t) (lines_added lines_removed : Z) (observation : Observation.t)
    (ts agent : string)
| Interrupt (kind prompt : string) (observation : Observation.t) (ts agent : string)
| ReviewResponse (text : string) (meta : option Value) (observation : Observation.t) (ts agent : string)
| Complete (kind : string) (payload : Value) (display : option string) (observation : Observation.t)
    (ts agent : string)
| Checkpoint (kind : string) (payload : Value) (display : option string)
    (observation : Observation.t) (ts agent : string).

Definition ts (s : t) : string :=
  match s with
  | SwitchSuite _ _ _ ts _ | SwitchAgent _ _ _ ts _ | User _ _ ts _
  | ToolStart _ _ _ _ _ _ _ ts _ | ToolEnd _ _ _ _ _ _ _ _ ts _
  | LlmStart _ _ _ _ ts _ | LlmEnd _ _ _ _ _ _ ts _ | LlmCall _ _ _ _ _ _ _ _ _ ts _
  | Phase _ _ _ _ _ ts _ | GuardBlock _ _ _ _ ts _ | RunLoopStop _ _ _ ts _
  | ArtifactFocus _ _ _ _ _ ts _ | ArtifactSaved _ _ _ _ _ _ _ _ ts _
  | Interrupt _ _ _ ts _ | ReviewResponse _ _ _ ts _ | Complete _ _ _ _ ts _
  | Checkpoint _ _ _ _ ts _ => ts
  end.
End ThreadStep.

Record ThreadResult : Type := {
  tr_kind : string;
  tr_payload : Value;
  tr_display : option string
}.

Module ThreadLog.
Record t : Type := {
  schema_version : Z;
  steps : list ThreadStep.t;
  result : option ThreadResult;
  title : option string;
  title_locked : bool
}.

Definition default : t :=
  {| schema_version := THREAD_SCHEMA_VERSION; steps := []; result := None; title := None;
     title_locked := false |}.

(** The [for step in self.steps.iter().rev()] loop. *)
Fixpoint last_phase (rev_steps : list ThreadStep.t) : option string :=
  match rev_steps with
  | [] => None
  | ThreadStep.Phase phase _ _ _ _ _ _ :: rest =>
      let t := trim phase in if str_is_empty t then last_phase rest else Some t
  | _ :: rest => last_phase rest
  end.

Definition current_phase (log : t) : option string := last_phase (rev (steps log)).

Definition push (step : ThreadStep.t) (log : t) : t :=
  {| schema_version := schema_version log; steps := steps log ++ [step]; result := result log;
     title := title log; title_locked := title_locked log |}.

Definition with_result (r : ThreadResult) (log : t) : t :=
  {| schema_version := schema_version log; steps := steps log; result := Some r;
     title := title log; title_locked := title_locked log |}.

Definition with_title (title : string) (locked : bool) (log : t) : t :=
  {| schema_version := schema_version log; steps := steps log; result := result log;
     title := Some title; title_locked := locked |}.

(** A phase step that names a phase becomes the current one; other steps leave
    the current phase alone. *)
Lemma current_phase_push log step :
  current_phase (push step log) =
  match step with
  | ThreadStep.Phase phase _ _ _ _ _ _ =>
      if str_is_empty (trim phase) then current_phase log else Some (trim phase)
  | _ => current_phase log
  end.
Proof.
  unfold current_phase, push; cbn [steps]. rewrite rev_app_distr. cbn [rev app].
  by destruct step.
Qed.
End ThreadLog.

(** The derived [Serialize]/[Deserialize] code of a type [T], to and from JSON
    values; the errors are their texts. *)
Class Codec (T : Type) := {
  to_value : T -> Result Value string;
  from_value : Value -> Result T string
}.
