(* ===== verification/Samples.v ===== *)
(** * Concrete instances of the third-party interfaces

    Small codecs that satisfy the laws assumed of [serde_json], at which the
    theorems about the stores are instantiated. *)

From stdpp Require Import base list strings.
From Stdlib Require Import ZArith Lia.
From S2P Require Import Prelude.
From S2P Require Import RustStr.
From S2P Require Import Json.
From S2P Require Import Storage.
From S2P Require Import SessionTypes.

Module CountCodec.
(** Logs that repeat one step; the codec stores their length. *)
Definition step : ThreadStep.t := ThreadStep.Interrupt "ask" "hi" Observation.success "t" "a".

Definition is_step (s : ThreadStep.t) : bool :=
  match s with
  | ThreadStep.Interrupt kind text o ts agent =>
      String.eqb kind "ask" && String.eqb text "hi" && Observation.ok o && bool_decide (Observation.errors o = []) &&
      bool_decide (Observation.warnings o = []) && String.eqb ts "t" && String.eqb agent "a"
  | _ => false
  end.

Definition log (n : nat) : ThreadLog.t :=
  {| ThreadLog.schema_version := 4; ThreadLog.steps := repeat step n; ThreadLog.result := None;
     ThreadLog.title := None; ThreadLog.title_locked := false |}.

Definition is_log (l : ThreadLog.t) : bool :=
  Z.eqb (ThreadLog.schema_version l) 4 && forallb is_step (ThreadLog.steps l) &&
  bool_decide (ThreadLog.title l = None) && negb (ThreadLog.title_locked l) &&
  match ThreadLog.result l with None => true | Some _ => false end.

Lemma is_step_sound s : is_step s = true -> s = step.
Proof.
  destruct s; try done. unfold is_step. rewrite !andb_true_iff, !bool_decide_eq_true, !String.eqb_eq.
  intros [[[[[[-> ->] Ho] He] Hw] ->] ->]. destruct observation; simpl in *. by subst.
Qed.

Lemma is_log_sound l : is_log l = true -> l = log (length (ThreadLog.steps l)).
Proof.
  destruct l as [v ss r t lk]. unfold is_log; cbn [ThreadLog.schema_version ThreadLog.steps
    ThreadLog.title ThreadLog.title_locked ThreadLog.result].
  rewrite !andb_true_iff, bool_decide_eq_true, Z.eqb_eq. intros [[[[-> Hs] ->] Hl] Hr].
  destruct r; [done|]. destruct lk; [done|]. unfold log. f_equal.
  induction ss as [|s ss IH]; simpl in *; [done|]. apply andb_prop in Hs as [->%is_step_sound Hs].
  f_equal. auto.
Qed.

Fixpoint unary (n : nat) : string :=
  match n with O => EmptyString | S n => String (Ascii.ascii_of_nat 97) (unary n) end.

Lemma unary_length n : String.length (unary n) = n.
Proof. induction n; simpl; auto. Qed.

Definition serde : Serde := {|
  to_vec v := match v with VArray l => Ok (unary (length l)) | _ => Err "unsupported" end;
  from_slice b := Ok (VArray (repeat VNull (String.length b)))
|}.

Definition codec : Codec ThreadLog.t := {|
  to_value l := if is_log l then Ok (VArray (repeat VNull (length (ThreadLog.steps l))))
                else Err "unsupported";
  from_value v := match v with VArray l => Ok (log (length l)) | _ => Err "unsupported" end
|}.
End CountCodec.

Module TitleCodec.
(** Logs without steps; the codec stores the title and its lock. *)
Definition serde : Serde := {|
  to_vec v := match v with VString s => Ok s | _ => Err "unsupported" end;
  from_slice b := Ok (VString b)
|}.

Definition log (title : option string) (locked : bool) : ThreadLog.t :=
  {| ThreadLog.schema_version := 4; ThreadLog.steps := []; ThreadLog.result := None;
     ThreadLog.title := title; ThreadLog.title_locked := locked |}.

Definition codec : Codec ThreadLog.t := {|
  to_value l := match ThreadLog.title l with
                | Some t => Ok (VString ((if ThreadLog.title_locked l then "L" else "U") +:+ t))
                | None => Err "unsupported"
                end;
  from_value v := match v with
                  | VString (String a t) => Ok (log (Some t) (Ascii.eqb a (Ascii.ascii_of_nat 76)))
                  | _ => Err "unsupported"
                  end
|}.
End TitleCodec.

Module PhaseCodec.
(** Logs of one phase step recorded at a fixed time; the codec stores the
    phase. *)
Definition log (phase : string) : ThreadLog.t :=
  ThreadLog.push (ThreadStep.Phase phase None (Some "thread_started") None Observation.success "t" "a")
    ThreadLog.default.

Definition serde : Serde := TitleCodec.serde.

Definition codec : Codec ThreadLog.t := {|
  to_value l := match ThreadLog.steps l with
                | [ThreadStep.Phase p _ _ _ _ _ _] => Ok (VString p)
                | _ => Err "unsupported"
                end;
  from_value v := match v with VString p => Ok (log p) | _ => Err "unsupported" end
|}.
End PhaseCodec.

Module EnvelopeCodec.
(** Envelopes with a string payload, stored as "suite|payload". *)
Definition object (suite payload : string) : Value :=
  VObject [("schema_version", VNumber (PosInt 1)); ("suite_id", VString suite);
           ("payload", VString payload)].

Definition serde : Serde := {|
  to_vec v := match v with
              | VObject [_; (_, VString suite); (_, VString payload)] =>
                  Ok (suite +:+ "|" +:+ payload)
              | _ => Err "unsupported"
              end;
  from_slice b := match split_byte (Ascii.ascii_of_nat 124) b with
                  | [suite; payload] => Ok (object suite payload)
                  | _ => Err "unsupported"
                  end
|}.

Definition codec : Codec ControlStateEnvelope := {|
  to_value e := match cse_payload e with
                | VString p => Ok (object (suite_id e) p)
                | _ => Err "unsupported"
                end;
  from_value v := match v with
                  | VObject [(_, VNumber (PosInt n)); (_, VString suite); (_, p)] =>
                      Ok {| cse_schema_version := n; suite_id := suite; cse_payload := p |}
                  | _ => Err "unsupported"
                  end
|}.

Definition state : Codec string := {|
  to_value s := Ok (VString s);
  from_value v := match v with VString s => Ok s | _ => Err "unsupported" end
|}.
End EnvelopeCodec.
