(* ===== verification/ThreadStore.v ===== *)
(** * The thread store

    [src/src/core/src/session/store_io.rs], with the configuration and cache
    of [session/mod.rs]: the append-only audit log of each thread, kept as one
    JSON object, written with a conditional write and retried on conflict.

    The per-key session lock orders the calls of one process; writers of other
    processes act between the storage calls.  [Shared] below is a store with
    such writers, on which the conflict protocol is proved. *)

From stdpp Require Import base list strings gmap.
From Stdlib Require Import ZArith Lia.
From S2P Require Import Prelude.
From S2P Require Import RustStr.
From S2P Require Import Json.
From S2P Require Import Errors.
From S2P Require Import Scope.
From S2P Require Import Storage.
From S2P Require Import Caching.
From S2P Require Import Budget.
From S2P Require Import SessionTypes.

(** [s.trim_end_matches('/')] *)
Fixpoint trim_end_slash (s : string) : string :=
  match s with
  | EmptyString => EmptyString
  | String a s' =>
      let t := trim_end_slash s' in
      if str_is_empty t && Ascii.eqb a slash then EmptyString else String a t
  end.

(** [{:?}] of a string of printable characters, and of an optional one. *)
Fixpoint debug_escape (s : string) : string :=
  match s with
  | EmptyString => EmptyString
  | String a s' =>
      let rest := debug_escape s' in
      if String.eqb (String a EmptyString) dquote || String.eqb (String a EmptyString) backslash
      then backslash +:+ String a rest else String a rest
  end.

Definition debug_opt (o : option string) : string :=
  match o with
  | Some s => "Some(" +:+ dquote +:+ debug_escape s +:+ dquote +:+ ")"
  | None => "None"
  end.

Record ThreadStoreConfig : Type := { cache_ttl_secs : Z; max_events : nat }.

Definition default_config : ThreadStoreConfig := {| cache_ttl_secs := 5; max_events := 200 |}.

Record CacheEntry : Type := { ce_log : ThreadLog.t; ce_etag : string }.

(** The mutable part of a [ThreadStore]: its storage and its cache of logs. *)
Record ThreadStore (St : Type) : Type := mkThreadStore {
  storage : St;
  cache : gmap string CacheEntry
}.

Arguments mkThreadStore {St} _ _.
Arguments storage {St} _.
Arguments cache {St} _.

Definition ensure_thread_log_schema (log : ThreadLog.t) : Result unit CoreError.t :=
  if Z.eqb (ThreadLog.schema_version log) THREAD_SCHEMA_VERSION then Ok tt
  else Err (CoreError.Schema
    ("thread schema_version mismatch: expected " +:+ fmt_Z THREAD_SCHEMA_VERSION +:+ ", got "
       +:+ fmt_Z (ThreadLog.schema_version log))).

Section store.
Context {St K : Type} `{HSt : !StorageAdapter St, HT : !Timer St, HK : !Keyspace K,
  HC : !Codec ThreadLog.t}.
Variable scope : RequestScope.
Variable keyspace : K.

Notation TS := (ThreadStore St).

Definition new (s : St) : TS := mkThreadStore s ∅.

Definition on_storage {A} (m : Op St A) : Op TS A :=
  fun s => let '(r, st) := m (storage s) in (r, mkThreadStore st (cache s)).

Definition thread_store_key (thread_id : string) : Result string CoreError.t :=
  res_map_err (fun e => CoreError.Session
      ("failed to build thread key for '" +:+ thread_id +:+ "': " +:+ CoreError.display e))
    (thread_key keyspace scope thread_id).

Definition store_list_prefix : string := trim_end_slash (threads_prefix keyspace scope) +:+ "/".

Definition remember_log (key : string) (log : ThreadLog.t) (etag : string) : Op TS unit :=
  fun s => (Ok tt, mkThreadStore (storage s) (<[key := {| ce_log := log; ce_etag := etag |}]> (cache s))).

Definition forget_log (key : string) : Op TS unit :=
  fun s => (Ok tt, mkThreadStore (storage s) (delete key (cache s))).

Definition parse_log (v : Value) : Result ThreadLog.t CoreError.t :=
  res_map_err (fun e => CoreError.Session ("failed to parse thread log: " +:+ e)) (from_value v).

(** The cached log of a key, when it was cached under [etag]. *)
Definition cached_log (key etag : string) (s : TS) : option ThreadLog.t :=
  match cache s !! key with
  | Some e => if String.eqb (ce_etag e) etag then Some (ce_log e) else None
  | None => None
  end.

Definition load_thread_log_for_write (key : string) : Op TS (LoadState ThreadLog.t) :=
  do! current_etag <- on_storage (retry_head_etag key);
  match current_etag with
  | None => act_ret Missing
  | Some etag =>
      do! log <- (fun s => match cached_log key etag s with
                           | Some log => (Ok log, s)
                           | None =>
                               (do! v <- on_storage (retry_get_json key);
                                do! log <- act_lift (parse_log v);
                                do! _ <- remember_log key log etag;
                                act_ret log) s
                           end);
      do! _ <- act_lift (ensure_thread_log_schema log);
      act_ret (Loaded {| etag := Some etag; value := log |})
  end.

Definition save_thread_log_if_etag_matches (thread_id key : string) (log : ThreadLog.t)
  (expected_etag : option string) : Op TS string :=
  do! val <- act_lift (res_map_err (fun e => CoreError.Session
      ("thread_log('" +:+ thread_id +:+ "'): failed to serialize thread log: " +:+ e)) (to_value log));
  do! status <- on_storage (retry_put_json_if_etag_matches key val expected_etag);
  match status with
  | ConditionalWriteStatus.Written etag => act_ret etag
  | ConditionalWriteStatus.Conflict current_etag =>
      act_err (CoreError.AuditConflict
        ("thread_log('" +:+ thread_id +:+ "'): write conflict detected (expected_etag="
           +:+ debug_opt expected_etag +:+ ", current_etag=" +:+ debug_opt current_etag +:+ ")"))
  end.

(** [expected_etag] and [log] of a [LoadState], as every writer derives them. *)
Definition loaded_etag (l : LoadState ThreadLog.t) : option string :=
  match l with Missing => None | Loaded v => etag v end.

Definition loaded_log (l : LoadState ThreadLog.t) : ThreadLog.t :=
  match l with Missing => ThreadLog.default | Loaded v => value v end.

(** The log after [step]: a [Complete] step also sets the thread's result. *)
Definition apply_step (step : ThreadStep.t) (log : ThreadLog.t) : ThreadLog.t :=
  let log :=
    match step with
    | ThreadStep.Complete kind payload display _ _ _ =>
        ThreadLog.with_result {| tr_kind := kind; tr_payload := payload; tr_display := display |} log
    | _ => log
    end in
  ThreadLog.push step log.

Definition append_step_locked (key thread_id : string) (step : ThreadStep.t) : Op TS unit :=
  do! loaded <- load_thread_log_for_write key;
  let log := apply_step step (loaded_log loaded) in
  do! etag <- save_thread_log_if_etag_matches thread_id key log (loaded_etag loaded);
  remember_log key log etag.

(** The [for _attempt in 0..=AUDIT_MAX_CONFLICT_RETRIES] loop. *)
Fixpoint append_attempts (attempts : nat) (key thread_id : string) (step : ThreadStep.t) : Op TS unit :=
  match attempts with
  | O => act_err (CoreError.AuditUnavailable thread_id AUDIT_MAX_CONFLICT_RETRIES)
  | S attempts =>
      fun s =>
        match append_step_locked key thread_id step s with
        | (Ok _, s1) => (Ok tt, s1)
        | (Err (CoreError.AuditConflict _), s1) =>
            (do! _ <- forget_log key; append_attempts attempts key thread_id step) s1
        | (Err e, s1) => (Err e, s1)
        end
  end.

Definition append_step (thread_id : string) (step : ThreadStep.t) : Op TS unit :=
  do! key <- act_lift (thread_store_key thread_id);
  append_attempts (Z.to_nat AUDIT_MAX_CONFLICT_RETRIES + 1) key thread_id step.

Definition get (thread_id : string) : Op TS ThreadLog.t :=
  do! key <- act_lift (thread_store_key thread_id);
  do! current_etag <- on_storage (retry_head_etag key);
  fun s =>
    match (match current_etag with Some etag => cached_log key etag s | None => None end) with
    | Some log => (Ok log, s)
    | None =>
        (do! v <- act_map_err (fun e => CoreError.Session
             ("get('" +:+ thread_id +:+ "'): " +:+ CoreError.display e))
           (on_storage (retry_get_json key));
         do! log <- act_lift (parse_log v);
         do! _ <- act_lift (ensure_thread_log_schema log);
         do! _ <- match current_etag with
                  | Some etag => remember_log key log etag
                  | None => act_ret tt
                  end;
         act_ret log) s
    end.

(** The step of the log that makes [step] a duplicate. *)
Definition same_event (step s : ThreadStep.t) : bool :=
  match step, s with
  | ThreadStep.Complete kind payload _ _ _ _, ThreadStep.Complete k p _ _ _ _ =>
      String.eqb k kind && bool_decide (p = payload)
  | ThreadStep.Interrupt kind prompt _ _ _, ThreadStep.Interrupt k p _ _ _ =>
      String.eqb k kind && String.eqb p prompt
  | _, _ => false
  end.

Definition append_step_if_new (thread_id : string) (step : ThreadStep.t) : Op TS unit :=
  let check : Op TS bool :=
    fun s => let '(r, s1) := get thread_id s in
             (Ok match r with
                 | Ok log => existsb (same_event step) (rev (ThreadLog.steps log))
                 | Err _ => false
                 end, s1) in
  do! is_dup <- match step with
                | ThreadStep.Complete _ _ _ _ _ _ | ThreadStep.Interrupt _ _ _ _ _ => check
                | _ => act_ret false
                end;
  if is_dup then act_ret tt else append_step thread_id step.

(** The first phase step of a log, with its index. *)
Fixpoint first_phase (idx : nat) (steps : list ThreadStep.t) : option (nat * string) :=
  match steps with
  | [] => None
  | ThreadStep.Phase phase _ _ _ _ _ _ :: _ => Some (idx, phase)
  | _ :: steps => first_phase (S idx) steps
  end.

(** [now] is [chrono::Utc::now().to_rfc3339()]. *)
Definition ensure_preflight_phase_step (now thread_id agent : string) (suite : option string)
  (initial_phase : string) : Op TS (option (nat * string)) :=
  do! key <- act_lift (thread_store_key thread_id);
  do! loaded <- load_thread_log_for_write key;
  let log := loaded_log loaded in
  match first_phase 0 (ThreadLog.steps log) with
  | Some found => act_ret (Some found)
  | None =>
      let reason_detail := (fun sid => VObject [("suite_id", VString sid)]) <$> suite in
      let log := ThreadLog.push (ThreadStep.Phase initial_phase None (Some "thread_started")
        reason_detail Observation.success now agent) log in
      let idx := length (ThreadLog.steps log) - 1 in
      do! etag <- save_thread_log_if_etag_matches thread_id key log (loaded_etag loaded);
      do! _ <- remember_log key log etag;
      act_ret (Some (idx, initial_phase))
  end.

(** The loop of [list] over the keys under the prefix. *)
Fixpoint thread_names (prefix : string) (keys : list string) : list string :=
  match keys with
  | [] => []
  | k :: keys =>
      match strip_prefix k prefix with
      | Some s =>
          match strip_suffix s ".json" with
          | Some name => if contains name "." then thread_names prefix keys
                         else name :: thread_names prefix keys
          | None => thread_names prefix keys
          end
      | None => thread_names prefix keys
      end
  end.

Definition list_threads : TS -> list string * TS :=
  fun s =>
    let prefix := store_list_prefix in
    let '(r, s1) := on_storage (retry_list_prefix prefix) s in
    (sort_strings (match r with Ok keys => thread_names prefix keys | Err _ => [] end), s1).

Fixpoint delete_keys (keys : list string) : Op TS unit :=
  match keys with
  | [] => act_ret tt
  | k :: keys => do! _ <- on_storage (retry_delete_object k); delete_keys keys
  end.

Definition delete_thread (thread_id : string) : Op TS unit :=
  do! key <- act_lift (thread_store_key thread_id);
  let thread_prefix := trim_end_slash (threads_prefix keyspace scope) +:+ "/" +:+ thread_id +:+ "." in
  do! _ <- on_storage (retry_delete_object key);
  do! keys <- on_storage (retry_list_prefix thread_prefix);
  do! _ <- delete_keys keys;
  forget_log key.

Definition set_title_if_absent (thread_id title : string) : Op TS unit :=
  do! key <- act_lift (thread_store_key thread_id);
  do! loaded <- load_thread_log_for_write key;
  let log := loaded_log loaded in
  if (match ThreadLog.title log with None => true | Some t => str_is_empty t end) then
    let log := ThreadLog.with_title title (ThreadLog.title_locked log) log in
    do! etag <- save_thread_log_if_etag_matches thread_id key log (loaded_etag loaded);
    remember_log key log etag
  else act_ret tt.

Definition lock_title (thread_id title : string) : Op TS unit :=
  do! key <- act_lift (thread_store_key thread_id);
  do! loaded <- load_thread_log_for_write key;
  let log := loaded_log loaded in
  if negb (ThreadLog.title_locked log) then
    let log := ThreadLog.with_title title true log in
    do! etag <- save_thread_log_if_etag_matches thread_id key log (loaded_etag loaded);
    remember_log key log etag
  else act_ret tt.

(** [ThreadLogReader for ThreadStore] *)
Definition get_log (thread_id : string) : Op TS ThreadLog.t := get thread_id.
Definition get_step_count (thread_id : string) : Op TS nat :=
  do! log <- get thread_id; act_ret (length (ThreadLog.steps log)).
Definition list_thread_ids : TS -> list string * TS := list_threads.
End store.
