(* ===== verification/ThreadStoreShared.v ===== *)
(** * The thread store among other writers

    A store whose objects other processes change between any two storage calls
    of this one, and the proof that [append_step] on it is atomic: it succeeds
    only by appending to the log that is in the store at that instant, and
    fails without writing. *)

From stdpp Require Import base list strings gmap.
From Stdlib Require Import ZArith Lia.
From S2P Require Import Prelude.
From S2P Require Import RustStr.
From S2P Require Import Json.
From S2P Require Import Errors.
From S2P Require Import Scope.
From S2P Require Import Storage.
From S2P Require Import Caching.
From S2P Require Import Budget.
From S2P Require Import SessionTypes.
From S2P Require Import ThreadStore.
From S2P Require Import Samples.

(** ** The shared store

    [past] are the stores there have been, the latest first; [others] are the
    changes the other processes still make, one before each storage call, in
    view of all there has been; [mine] are the stores before and after each
    write of this process. *)
Record Shared : Type := {
  now : gmap string string;
  past : list (gmap string string);
  others : list (list (gmap string string) -> gmap string string -> gmap string string);
  mine : list (gmap string string * gmap string string)
}.

Section shared.
Context `{HSd : !Serde}.
Variable tag : string -> string.

Definition interfere (s : Shared) : Shared :=
  match others s with
  | [] => s
  | f :: fs => {| now := f (past s) (now s); past := now s :: past s; others := fs; mine := mine s |}
  end.

Definition shared_read {A} (m : Op Spec.Store A) : Op Shared A :=
  fun s => let s := interfere s in ((m (now s)).1, s).

(** [wrote] tells whether the result means that the object was written. *)
Definition shared_write {A} (wrote : Result A CoreError.t -> bool) (m : Op Spec.Store A) : Op Shared A :=
  fun s =>
    let s := interfere s in
    let '(r, n) := m (now s) in
    (r, {| now := n; past := if wrote r then now s :: past s else past s; others := others s;
           mine := if wrote r then mine s ++ [(now s, n)] else mine s |}).

Definition is_written (r : Result ConditionalWriteStatus.t CoreError.t) : bool :=
  match r with Ok (ConditionalWriteStatus.Written _) => true | _ => false end.

#[global] Instance shared_adapter : StorageAdapter Shared := {|
  get_json k := shared_read (Spec.get_json k);
  put_json k v := shared_write is_Ok (Spec.put_json k v);
  put_json_if_etag_matches k v e := shared_write is_written (Spec.put_json_if_etag_matches tag k v e);
  get_bytes k := shared_read (Spec.get_bytes k);
  put_bytes k b c := shared_write is_Ok (Spec.put_bytes k b c);
  delete_object k := shared_write is_Ok (Spec.delete_object k);
  head_etag k := shared_read (Spec.head_etag tag k);
  list_prefix p := shared_read (Spec.list_prefix p)
|}.

#[global] Instance shared_timer : Timer Shared := fun _ s => interfere s.

Context `{HC : !Codec ThreadLog.t}.

(** The log an object holds. *)
Definition decode_log (b : string) : option ThreadLog.t :=
  match from_slice b with
  | Ok v => res_ok (from_value v)
  | Err _ => None
  end.

(** The object under [key] has been [b], and is no more. *)
Definition gone (key : string) (s : Shared) (b : string) : Prop :=
  Exists (fun n => n !! key = Some b) (past s) /\ now s !! key <> Some b.

(** Between [s] and [s'] no object that was gone came back under [key]. *)
Definition later (key : string) (s s' : Shared) : Prop :=
  (forall b, gone key s b -> gone key s' b) /\
  (forall b, now s !! key = Some b -> now s' !! key = Some b \/ gone key s' b).

(** The other processes append to the log under [key], rewrite it, delete it
    and make it anew, but never bring back the very bytes of a former object. *)
Definition no_return (key : string) (s : Shared) : Prop :=
  Forall (fun f => forall past n b, f past n !! key = Some b ->
    n !! key = Some b \/ Forall (fun m => m !! key <> Some b) past) (others s).

(** A cached log is the one stored under its tag, unless that object is
    already history. *)
Definition cache_ok (key : string) (s : ThreadStore Shared) : Prop :=
  forall e b, cache s !! key = Some e -> tag b = ce_etag e ->
    decode_log b = Some (ce_log e) \/ gone key (storage s) b.

Definition good (key : string) (s : ThreadStore Shared) : Prop :=
  no_return key (storage s) /\ cache_ok key s.

(** [log] is what [o] holds for as long as [o] may still be the object. *)
Definition claims (key : string) (s : Shared) (o : option string) (log : ThreadLog.t) : Prop :=
  forall s', later key s s' -> now s' !! key = o ->
    match o with None => log = ThreadLog.default | Some b => decode_log b = Some log end.

#[global] Instance later_preorder key : PreOrder (later key).
Proof.
  split; [intros s; split; auto|]. intros s1 s2 s3 [G1 N1] [G2 N2]. split; [auto|].
  intros b [H|H]%N1; auto.
Qed.

Lemma claims_known key s b log : decode_log b = Some log \/ gone key s b -> claims key s (Some b) log.
Proof. intros [H|H] s' [G _] Hn; [done|]. by destruct (G b H). Qed.

Lemma interfere_spec key s :
  no_return key s ->
  later key s (interfere s) /\ no_return key (interfere s) /\ mine (interfere s) = mine s.
Proof.
  unfold no_return, interfere. intros H. destruct (others s) as [|f fs] eqn:E; simpl.
  - rewrite E. split; [reflexivity|done].
  - inversion H as [|? ? Hf Hfs]; subst. split; [|done].
    assert (forall b, Exists (fun n => n !! key = Some b) (past s) -> now s !! key <> Some b ->
      f (past s) (now s) !! key <> Some b) as Hback.
    { intros b Hp Hn Hb. destruct (Hf _ _ _ Hb) as [|Hall]; [done|].
      apply Exists_exists in Hp as (m & Hm & Hmb). rewrite Forall_forall in Hall. by apply (Hall m). }
    split; cbn.
    + intros b [Hp Hn]. split; [by apply Exists_cons_tl|]. by apply Hback.
    + intros b Hb. destruct (decide (f (past s) (now s) !! key = Some b)); [by left|right].
      split; [by apply Exists_cons_hd|done].
Qed.

Lemma cache_ok_later key s st :
  cache_ok key s -> later key (storage s) st -> cache_ok key (mkThreadStore st (cache s)).
Proof. intros Hc [G _] e b He Hb. simpl in *. destruct (Hc e b He Hb); auto. Qed.

(** A storage call that only reads: it sees the store after some interference. *)
Lemma on_read_spec {A} key (m : Op Shared A) (spec : Op Spec.Store A) s :
  m = shared_read spec -> (forall n e, (spec n).1 = Err e -> CoreError.retryable e = false) ->
  good key s ->
  exists s', on_storage (retry_storage_call m) s = ((spec (now (storage s'))).1, s') /\
    good key s' /\ later key (storage s) (storage s') /\
    mine (storage s') = mine (storage s) /\ cache s' = cache s.
Proof.
  intros -> Hp [Ha Hc]. destruct (interfere_spec key (storage s) Ha) as (H1 & H2 & H3).
  exists (mkThreadStore (interfere (storage s)) (cache s)).
  unfold on_storage. rewrite retry_once; [|intros e He; exact (Hp _ _ He)].
  split; [done|]. split; [split; [done|by apply cache_ok_later]|done].
Qed.

Lemma head_spec key s : good key s ->
  exists s', on_storage (retry_head_etag key) s = (Ok (tag <$> now (storage s') !! key), s') /\
    good key s' /\ later key (storage s) (storage s') /\
    mine (storage s') = mine (storage s) /\ cache s' = cache s.
Proof. intros Hg. apply (on_read_spec key (head_etag key) (Spec.head_etag tag key) s); done. Qed.

Lemma get_json_permanent key n e : (Spec.get_json key n).1 = Err e -> CoreError.retryable e = false.
Proof.
  unfold Spec.get_json, act_bind, Spec.get_bytes. destruct ((n : gmap string string) !! key) as [b|]; simpl.
  - unfold decode_json. destruct (from_slice b); simpl; by intros [= <-].
  - by intros [= <-].
Qed.

Lemma get_json_spec key s : good key s ->
  exists s', on_storage (retry_get_json key) s = ((Spec.get_json key (now (storage s'))).1, s') /\
    good key s' /\ later key (storage s) (storage s') /\
    mine (storage s') = mine (storage s) /\ cache s' = cache s.
Proof.
  intros Hg. apply (on_read_spec key (get_json key) (Spec.get_json key) s); [done| |done].
  apply get_json_permanent.
Qed.

Lemma decode_json_log op key b v log :
  decode_json op key b = Ok v -> parse_log v = Ok log -> decode_log b = Some log.
Proof.
  unfold decode_json, parse_log, decode_log. destruct (from_slice b); simpl; [|done].
  intros [= ->]. by destruct (from_value v); simpl; intros [= ->].
Qed.

Lemma cache_ok_insert key s log e :
  (forall b, tag b = e -> decode_log b = Some log \/ gone key (storage s) b) ->
  cache_ok key (mkThreadStore (storage s) (<[key := {| ce_log := log; ce_etag := e |}]> (cache s))).
Proof.
  intros Hl x b Hx Hb. cbn [cache storage] in *. rewrite lookup_insert_eq in Hx.
  simplify_eq/=. auto.
Qed.

Context (tag_inj : forall b1 b2, tag b1 = tag b2 -> b1 = b2).

(** Closes the case of a run that stops with an error in a good state. *)
Ltac stop_here :=
  eexists _, _; split; [reflexivity|]; split; [done|]; split; [congruence|done].

(** The log fetched after its tag [tag b1] was read. *)
Lemma fetch_spec key b1 s : good key s -> now (storage s) !! key = Some b1 ->
  exists r s', (do! v <- on_storage (retry_get_json key);
                do! log <- act_lift (parse_log v);
                do! _ <- remember_log key log (tag b1);
                act_ret log) s = (r, s') /\
    good key s' /\ mine (storage s') = mine (storage s) /\
    forall log, r = Ok log -> claims key (storage s') (Some b1) log.
Proof.
  intros Hg Hb1. destruct (get_json_spec key s Hg) as (s2 & E2 & G2 & V2 & M2 & C2).
  unfold Spec.get_json, act_bind at 1, Spec.get_bytes in E2.
  assert (forall log b2, now (storage s2) !! key = Some b2 -> decode_log b2 = Some log ->
    forall b, tag b = tag b1 -> decode_log b = Some log \/ gone key (storage s2) b)
    as Hrem.
  { intros log b2 Hb2 Hl b ->%tag_inj. destruct V2 as [_ V2]. destruct (V2 _ Hb1); [left; congruence|by right]. }
  destruct (now (storage s2) !! key) as [b2|] eqn:Hb2.
  2: { rewrite (act_bind_Err _ _ _ _ _ E2). stop_here. }
  cbn in E2. destruct (decode_json "get_json" key b2) as [v|e] eqn:Hd; simpl in E2.
  2: { rewrite (act_bind_Err _ _ _ _ _ E2). stop_here. }
  rewrite (act_bind_Ok _ _ _ _ _ E2).
  destruct (parse_log v) as [log|e] eqn:Hp.
  2: { rewrite (act_bind_Err _ _ s2 e s2) by done. stop_here. }
  rewrite (act_bind_Ok _ _ s2 log s2) by done.
  eexists _, _. split; [reflexivity|].
  assert (decode_log b2 = Some log) as Hlog by by eapply decode_json_log.
  cbn [storage]. split; [|split; [done|]].
  - split; [apply G2|]. apply cache_ok_insert. by eapply Hrem.
  - intros log' [= <-]. apply claims_known. by eapply Hrem.
Qed.

(** What [load_thread_log_for_write] returns is the log of the object whose
    tag it returns, as long as that object stays; it writes nothing. *)
Lemma load_spec key s : good key s ->
  exists r s', load_thread_log_for_write key s = (r, s') /\ good key s' /\
    mine (storage s') = mine (storage s) /\
    forall l, r = Ok l -> exists o, loaded_etag l = tag <$> o /\
      claims key (storage s') o (loaded_log l).
Proof.
  intros Hg. unfold load_thread_log_for_write.
  destruct (head_spec key s Hg) as (s1 & E1 & G1 & V1 & M1 & C1).
  rewrite (act_bind_Ok _ _ _ _ _ E1).
  destruct (now (storage s1) !! key) as [b1|] eqn:Hb1; cbn [fmap option_fmap option_map].
  2: { exists (Ok Missing), s1. repeat split; try done; try apply G1.
       intros l [= <-]. exists None. done. }
  set (inner := fun s0 => match cached_log key (tag b1) s0 with Some log => _ | None => _ end).
  assert (exists r s', inner s1 = (r, s') /\ good key s' /\ mine (storage s') = mine (storage s1) /\
    forall log, r = Ok log -> claims key (storage s') (Some b1) log)
    as (r & s2 & E2 & G2 & M2 & Hr).
  { subst inner. cbn beta. destruct (cached_log key (tag b1) s1) as [log|] eqn:Hcl;
      [|by apply fetch_spec].
    eexists _, _. split; [reflexivity|]. split; [done|]. split; [done|]. intros log' [= <-]. apply claims_known.
    unfold cached_log in Hcl. destruct (cache s1 !! key) as [ce|] eqn:Hce; [|done].
    destruct (String.eqb_spec (ce_etag ce) (tag b1)) as [Heq|]; [|done]. simplify_eq.
    destruct G1 as [_ Hc]. exact (Hc ce b1 Hce (eq_sym Heq)). }
  destruct r as [log|e].
  - rewrite (act_bind_Ok _ _ _ _ _ E2).
    destruct (ensure_thread_log_schema log) as [[]|e] eqn:Hsch.
    + rewrite (act_bind_Ok _ _ s2 tt s2) by done. eexists _, _. split; [reflexivity|].
      split; [done|]. split; [congruence|]. intros l [= <-]. exists (Some b1). auto.
    + rewrite (act_bind_Err _ _ s2 e s2) by done. stop_here.
  - rewrite (act_bind_Err _ _ _ _ _ E2). stop_here.
Qed.

Definition encode_log (log : ThreadLog.t) : option string :=
  match to_value log with
  | Ok v => res_ok (to_vec v)
  | Err _ => None
  end.

Context (roundtrip : forall log b, encode_log log = Some b -> decode_log b = Some log).

(** The log an object stands for: the empty one when it is missing. *)
Definition holds (o : option string) (log : ThreadLog.t) : Prop :=
  match o with None => log = ThreadLog.default | Some b => decode_log b = Some log end.

(** [n'] is [n] with [step] appended to the log that [n] holds under [key]. *)
Definition appended (key : string) (step : ThreadStep.t) (n n' : gmap string string) : Prop :=
  exists log b, holds (n !! key) log /\ n' = <[key := b]> n /\ decode_log b = Some (apply_step step log).

(** The conditional write of [step] appended to [log]. *)
Lemma save_spec key thread_id step o log s :
  good key s -> claims key (storage s) o log ->
  exists r s', save_thread_log_if_etag_matches thread_id key (apply_step step log) (tag <$> o) s = (r, s') /\
    no_return key (storage s') /\
    match r with
    | Ok e => exists n, mine (storage s') = mine (storage s) ++ [(n, now (storage s'))] /\
        appended key step n (now (storage s')) /\
        exists b, now (storage s') !! key = Some b /\ e = tag b /\
          decode_log b = Some (apply_step step log)
    | Err _ => cache_ok key s' /\ mine (storage s') = mine (storage s)
    end.
Proof.
  intros [Ha Hc] Hcl. unfold save_thread_log_if_etag_matches.
  destruct (to_value (apply_step step log)) as [v|x] eqn:Hv; simpl res_map_err.
  2: { erewrite act_bind_Err; [|reflexivity]. eexists _, _. split; [reflexivity|]. done. }
  rewrite (act_bind_Ok _ _ s v s) by done.
  destruct (interfere_spec key (storage s) Ha) as (V & A & M).
  unfold retry_put_json_if_etag_matches, on_storage, act_bind at 1.
  rewrite retry_once.
  2: { intros e. cbn. unfold shared_write, Spec.put_json_if_etag_matches, act_bind, act_lift, encode_json.
       destruct (to_vec v); simpl; [case_decide|]; by intros [= <-]. }
  cbn. unfold shared_write, Spec.put_json_if_etag_matches, act_bind, act_lift, encode_json.
  destruct (to_vec v) as [b|x] eqn:Hb; simpl.
  2: { eexists _, _. split; [reflexivity|]. split; [done|].
       split; [by apply cache_ok_later|done]. }
  case_decide as Hd; simpl.
  2: { eexists _, _. split; [reflexivity|]. split; [done|].
       split; [by apply cache_ok_later|done]. }
  assert (now (interfere (storage s)) !! key = o) as Ho.
  { destruct (now (interfere (storage s)) !! key), o; simpl in Hd; simplify_eq; [|done].
    f_equal. by apply tag_inj. }
  assert (decode_log b = Some (apply_step step log)) as Hdec.
  { apply roundtrip. unfold encode_log. by rewrite Hv, Hb. }
  assert (appended key step (now (interfere (storage s))) (<[key:=b]> (now (interfere (storage s))))) as Happ.
  { exists log, b. split; [|done]. rewrite Ho. exact (Hcl _ V Ho). }
  eexists _, _. split; [reflexivity|]. split; [done|]. cbn. exists (now (interfere (storage s))). rewrite M. split; [done|]. split; [done|].
  exists b. rewrite lookup_insert_eq. done.
Qed.

(** One attempt either appends atomically or writes nothing. *)
Lemma append_locked_spec key thread_id step s : good key s ->
  exists r s', append_step_locked key thread_id step s = (r, s') /\ good key s' /\
    match r with
    | Ok _ => exists n n', mine (storage s') = mine (storage s) ++ [(n, n')] /\ appended key step n n'
    | Err _ => mine (storage s') = mine (storage s)
    end.
Proof.
  intros Hg. unfold append_step_locked.
  destruct (load_spec key s Hg) as (r & s1 & E1 & G1 & M1 & Hl).
  destruct r as [l|e]; [|rewrite (act_bind_Err _ _ _ _ _ E1); eauto 6].
  rewrite (act_bind_Ok _ _ _ _ _ E1). destruct (Hl l eq_refl) as (o & -> & Hcl).
  destruct (save_spec key thread_id step o (loaded_log l) s1 G1 Hcl) as (r & s2 & E2 & A2 & Hr).
  destruct r as [e|e]; [|rewrite (act_bind_Err _ _ _ _ _ E2); destruct Hr as [C2 M2]; eexists _, _; split; [reflexivity|]; split; [done|congruence]].
  rewrite (act_bind_Ok _ _ _ _ _ E2). destruct Hr as (n & Hm & Happ & b & Hb & -> & Hdec).
  eexists _, _. split; [reflexivity|]. split.
  - split; [done|]. apply cache_ok_insert. intros b' ->%tag_inj. auto.
  - cbn. exists n, (now (storage s2)). split; [congruence|done].
Qed.

Lemma append_attempts_spec k key thread_id step s : good key s ->
  exists r s', append_attempts k key thread_id step s = (r, s') /\ good key s' /\
    match r with
    | Ok _ => exists n n', mine (storage s') = mine (storage s) ++ [(n, n')] /\ appended key step n n'
    | Err _ => mine (storage s') = mine (storage s)
    end.
Proof.
  revert s. induction k as [|k IH]; intros s Hg; [eexists _, _; split; [reflexivity|]; done|].
  cbn [append_attempts].
  destruct (append_locked_spec key thread_id step s Hg) as (r & s1 & E1 & G1 & Hr). rewrite E1.
  destruct r as [[]|e]; [eexists _, _; split; [reflexivity|]; done|].
  destruct e; try (eexists _, _; split; [reflexivity|]; done).
  erewrite act_bind_Ok; [|reflexivity].
  destruct (IH (mkThreadStore (storage s1) (delete key (cache s1)))) as (r & s2 & E2 & G2 & Hr2).
  { destruct G1 as [A1 C1]. split; [done|]. intros ce b Hce. cbn in Hce.
    by rewrite lookup_delete_eq in Hce. }
  cbn in Hr2. eexists _, _. split; [exact E2|]. split; [done|].
  destruct r; [destruct Hr2 as (n & n' & Hm & Ha)|]; rewrite ?Hm, ?Hr in *; eauto; congruence.
Qed.
End shared.

(** C3: [append_step] is an atomic append, whatever other processes do to the
    same thread between its storage calls, append, rewrite, delete and make
    anew, short of bringing back the very bytes of an object that was replaced:
    if it returns [Ok], it wrote exactly once, and that write appended the step
    to the log that was in the store at that very instant, losing nothing; if
    it returns an error, it wrote nothing.  (Tags identify contents, and stored
    logs read back as written.) *)
Theorem append_step_is_atomic `{HSd : !Serde, HC : !Codec ThreadLog.t, HK : !Keyspace K}
    (tag : string -> string) (scope : RequestScope) (ks : K) thread_id key step s :
  (forall b1 b2, tag b1 = tag b2 -> b1 = b2) ->
  (forall log b, encode_log log = Some b -> decode_log b = Some log) ->
  thread_store_key scope ks thread_id = Ok key ->
  good tag key s ->
  exists r s', append_step (HSt := shared_adapter tag) scope ks thread_id step s = (r, s') /\
    good tag key s' /\
    match r with
    | Ok _ => exists n n', mine (storage s') = mine (storage s) ++ [(n, n')] /\ appended key step n n'
    | Err _ => mine (storage s') = mine (storage s)
    end.
Proof.
  intros Hinj Hrt Hk Hg. unfold append_step.
  rewrite (act_bind_Ok _ _ s key s) by (unfold act_lift; by rewrite Hk).
  by apply append_attempts_spec.
Qed.

(** Another process appends the sample step just before this one's write, if
    that makes no object that has been there before. *)
Definition rival (key : string) (past : list (gmap string string)) (n : gmap string string) : gmap string string :=
  let b := "a" +:+ default EmptyString (n !! key) in
  if decide (Forall (fun m => m !! key <> Some b) past) then <[key := b]> n else n.

Lemma rival_fresh key past n b :
  rival key past n !! key = Some b -> n !! key = Some b \/ Forall (fun m => m !! key <> Some b) past.
Proof.
  unfold rival. case_decide as H; [|by left]. rewrite lookup_insert_eq. intros [= <-]. by right.
Qed.

(** Another process deletes the object. *)
Definition remover (key : string) (past : list (gmap string string)) (n : gmap string string) : gmap string string :=
  delete key n.

Lemma count_roundtrip log b :
  encode_log (HSd := CountCodec.serde) (HC := CountCodec.codec) log = Some b ->
  decode_log (HSd := CountCodec.serde) (HC := CountCodec.codec) b = Some log.
Proof.
  unfold encode_log, decode_log. cbn. destruct (CountCodec.is_log log) eqn:Hl; [|done]. cbn.
  intros [= <-]. rewrite !repeat_length, CountCodec.unary_length. f_equal. symmetry.
  by apply CountCodec.is_log_sound.
Qed.

Definition contended_store : ThreadStore Shared :=
  let key := "t/w/p/threads/x.json" in
  new {| now := {[ key := "a" ]}; past := [];
         others := [rival key; fun _ n => n; rival key; fun _ n => n; fun _ n => n; remover key]; mine := [] |}.

(** The first attempt loses the race to a rival, the second to the removal of
    the thread, the third makes the log anew. *)
Example contended_append_retries :
  now (storage (append_step (HSt := shared_adapter (HSd := CountCodec.serde) id)
    (HC := CountCodec.codec) sample_scope Local "x" CountCodec.step contended_store).2)
  = {[ "t/w/p/threads/x.json" := "a" ]}.
Proof. vm_compute. reflexivity. Qed.

Lemma append_step_is_atomic_witness :
  exists r s', append_step (HSt := shared_adapter (HSd := CountCodec.serde) id)
    (HC := CountCodec.codec) sample_scope Local "x" CountCodec.step contended_store = (r, s') /\
    good (HSd := CountCodec.serde) (HC := CountCodec.codec) id "t/w/p/threads/x.json" s' /\
    match r with
    | Ok _ => exists n n', mine (storage s') = mine (storage contended_store) ++ [(n, n')] /\
        appended (HSd := CountCodec.serde) (HC := CountCodec.codec) "t/w/p/threads/x.json"
          CountCodec.step n n'
    | Err _ => mine (storage s') = mine (storage contended_store)
    end.
Proof.
  apply (append_step_is_atomic (HSd := CountCodec.serde) (HC := CountCodec.codec) id).
  - done.
  - apply count_roundtrip.
  - reflexivity.
  - split; [|done].
    repeat (apply Forall_cons_2; [first [apply rival_fresh|by left|intros past n b; cbn; unfold remover;
      by rewrite lookup_delete_eq]|]). apply Forall_nil_2.
Defined.
