(* ===== verification/ThreadStoreOwned.v ===== *)
(** * The thread store on storage it owns

    The functional behaviour of the thread store's operations over any adapter
    that keeps the storage contract: what each returns, what it leaves in the
    store, and that other objects are untouched. *)

From stdpp Require Import base list strings gmap sorting.
From Stdlib Require Import ZArith Lia.
From S2P Require Import Prelude.
From S2P Require Import RustStr.
From S2P Require Import Json.
From S2P Require Import Errors.
From S2P Require Import Scope.
From S2P Require Import Storage.
From S2P Require Import MemoryStorage.
From S2P Require Import Caching.
From S2P Require Import Budget.
From S2P Require Import SessionTypes.
From S2P Require Import Samples.
From S2P Require Import ThreadStore.
From S2P Require Import ThreadStoreShared.

Section owned.
Context {St K : Type} `{HSd : !Serde, HSt : !StorageAdapter St, HV : !StorageView St,
  HL : !StorageLaws St, HT : !Timer St, HK : !Keyspace K, HC : !Codec ThreadLog.t}.
Implicit Types s : ThreadStore St.

Definition object (key : string) s : option string := (contents (storage s) : gmap string string) !! key.

(** The storage is in a valid state and a log cached under the current tag of
    the object is the object's log. *)
Definition coherent (key : string) s : Prop :=
  valid (storage s) /\
  forall ce b, cache s !! key = Some ce -> object key s = Some b -> etag_of b = ce_etag ce ->
    decode_log b = Some (ce_log ce).

Definition readable (log : ThreadLog.t) : Prop := ThreadLog.schema_version log = THREAD_SCHEMA_VERSION.

Lemma on_storage_run {A} (m : Op St A) spec s r c :
  refines m spec -> valid (storage s) -> spec (contents (storage s)) = (r, c) ->
  exists st, on_storage m s = (r, mkThreadStore st (cache s)) /\ contents st = c /\ valid st.
Proof.
  intros Hm Hv Hs. destruct (refines_run m spec _ _ _ Hm Hv Hs) as (st & E & Hc & Hv').
  exists st. unfold on_storage. by rewrite E.
Qed.

Lemma coherent_same key s st :
  coherent key s -> contents st = contents (storage s) -> valid st ->
  coherent key (mkThreadStore st (cache s)).
Proof. intros [_ Hc] E Hv. split; [done|]. intros ce b. unfold object. simpl. rewrite E. apply Hc. Qed.

Lemma head_owned key s : coherent key s ->
  exists s', on_storage (retry_head_etag key) s = (Ok (etag_of <$> object key s), s') /\
    coherent key s' /\ contents (storage s') = contents (storage s) /\ cache s' = cache s.
Proof.
  intros Hc. pose proof Hc as [Hv _].
  destruct (on_storage_run (retry_head_etag key) (Spec.head_etag etag_of key) s
    (Ok (etag_of <$> object key s)) (contents (storage s))) as (st & E & Hst & Hv'); try done.
  { apply retry_refines; [by apply head_refines|done]. }
  eexists. split; [exact E|]. split; [by apply coherent_same|done].
Qed.

Lemma get_json_owned key s r : coherent key s ->
  (Spec.get_json key (contents (storage s))).1 = r ->
  exists s', on_storage (retry_get_json key) s = (r, s') /\
    coherent key s' /\ contents (storage s') = contents (storage s) /\ cache s' = cache s.
Proof.
  intros Hc Hr. pose proof Hc as [Hv _].
  destruct (on_storage_run (retry_get_json key) (Spec.get_json key) s r (contents (storage s)))
    as (st & E & Hst & Hv'); try done.
  { apply retry_refines; [by apply get_json_refines|apply get_json_permanent]. }
  { rewrite <- Hr. unfold Spec.get_json, act_bind, Spec.get_bytes.
    by destruct ((contents (storage s) : gmap string string) !! key). }
  eexists. split; [exact E|]. split; [by apply coherent_same|done].
Qed.

Lemma decode_log_json key b log : decode_log b = Some log ->
  exists v, decode_json "get_json" key b = Ok v /\ parse_log v = Ok log.
Proof.
  unfold decode_log, decode_json, parse_log. destruct (from_slice b) as [v|]; [|done].
  destruct (from_value v) as [l|] eqn:E; simpl; [|done]. intros [= ->]. exists v. by rewrite E.
Qed.

Lemma spec_get_json_log key (n : gmap string string) b log : n !! key = Some b ->
  decode_log b = Some log ->
  exists v, (Spec.get_json key n).1 = Ok v /\ parse_log v = Ok log.
Proof.
  intros Hb (v & H1 & H2)%(decode_log_json key). exists v. split; [|done].
  unfold Spec.get_json, act_bind, Spec.get_bytes. rewrite Hb. simpl. unfold act_lift. by rewrite H1.
Qed.

Lemma coherent_remember key s b log :
  coherent key s -> object key s = Some b -> decode_log b = Some log ->
  coherent key (mkThreadStore (storage s) (<[key := {| ce_log := log; ce_etag := etag_of b |}]> (cache s))).
Proof.
  intros [Hv Hc] Hb Hl. split; [done|]. intros ce b'. unfold object in *. simpl.
  rewrite lookup_insert_eq. intros [= <-]. rewrite Hb. by intros [= <-].
Qed.

Lemma cached_log_owned key s b log e :
  coherent key s -> object key s = Some b -> cached_log key (etag_of b) s = Some log -> e = etag_of b ->
  decode_log b = Some log.
Proof.
  intros [_ Hc] Hb Hl _. unfold cached_log in Hl.
  destruct (cache s !! key) as [ce|] eqn:Hce; [|done].
  destruct (String.eqb_spec (ce_etag ce) (etag_of b)) as [Heq|]; [|done]. simplify_eq.
  by apply (Hc ce b).
Qed.

(** Loading for a write returns the log of the object and its tag. *)
Lemma load_owned key s log : coherent key s -> holds (object key s) log -> readable log ->
  exists l s', load_thread_log_for_write key s = (Ok l, s') /\ loaded_log l = log /\
    loaded_etag l = etag_of <$> object key s /\ coherent key s' /\
    contents (storage s') = contents (storage s).
Proof.
  intros Hc Hh Hr. unfold load_thread_log_for_write.
  destruct (head_owned key s Hc) as (s1 & E1 & C1 & S1 & K1). rewrite (act_bind_Ok _ _ _ _ _ E1).
  destruct (object key s) as [b|] eqn:Hb; cbn [fmap option_fmap option_map].
  2: { eexists _, _. split; [reflexivity|]. done. }
  assert (object key s1 = Some b) as Hb1 by (unfold object; by rewrite S1).
  assert (ensure_thread_log_schema log = Ok tt) as Hsch.
  { unfold ensure_thread_log_schema. by rewrite Hr. }
  set (inner := fun s0 => match cached_log key (etag_of b) s0 with Some log => _ | None => _ end).
  assert (exists s', inner s1 = (Ok log, s') /\ coherent key s' /\
    contents (storage s') = contents (storage s1)) as (s2 & E2 & C2 & S2).
  { subst inner. cbn beta. destruct (cached_log key (etag_of b) s1) as [log'|] eqn:Hcl.
    - eapply cached_log_owned in Hcl; [|done..]. cbn in Hh. simplify_eq. eauto.
    - cbn in Hh. destruct (spec_get_json_log key _ b log Hb1 Hh) as (v & Hv & Hp).
      destruct (get_json_owned key s1 _ C1 Hv) as (s2 & E2 & C2 & S2 & K2).
      rewrite (act_bind_Ok _ _ _ _ _ E2), Hp.
      rewrite (act_bind_Ok _ _ s2 log s2) by done.
      eexists. split; [reflexivity|]. split; [|done].
      apply coherent_remember; [done| |done]. unfold object. by rewrite S2. }
  rewrite (act_bind_Ok _ _ _ _ _ E2), Hsch. rewrite (act_bind_Ok _ _ s2 tt s2) by done.
  eexists _, _. split; [reflexivity|]. cbn. split; [done|]. split; [done|]. split; [done|]. congruence.
Qed.

(** Saving over the tag just loaded succeeds and replaces only this object. *)
Lemma save_owned key thread_id s log b : coherent key s ->
  encode_log log = Some b -> decode_log b = Some log ->
  exists s', (do! etag <- save_thread_log_if_etag_matches thread_id key log (etag_of <$> object key s);
              remember_log key log etag) s = (Ok tt, s') /\
    coherent key s' /\ contents (storage s') = <[key := b]> (contents (storage s) : gmap string string).
Proof.
  intros Hc He Hd. pose proof Hc as [Hv _]. unfold encode_log in He.
  destruct (to_value log) as [v|] eqn:Hval; [|done].
  destruct (to_vec v) as [b'|] eqn:Hvec; simpl in He; simplify_eq.
  destruct (on_storage_run (retry_put_json_if_etag_matches key v (etag_of <$> object key s))
    (Spec.put_json_if_etag_matches etag_of key v (etag_of <$> object key s)) s
    (Ok (ConditionalWriteStatus.Written (etag_of b))) (<[key := b]> (contents (storage s) : gmap string string)))
    as (st & E & Hst & Hv').
  { apply retry_refines; [by apply put_json_if_refines|]. intros n e. cbn.
    unfold Spec.put_json_if_etag_matches, act_bind, act_lift, encode_json.
    rewrite Hvec. simpl. by case_decide. }
  { done. }
  { unfold Spec.put_json_if_etag_matches, act_bind, act_lift, encode_json. rewrite Hvec. simpl.
    by rewrite decide_True. }
  unfold save_thread_log_if_etag_matches. rewrite Hval. cbn [res_map_err].
  eexists. split.
  { erewrite (act_bind_Ok _ _ s (etag_of b)); [reflexivity|].
    rewrite (act_bind_Ok _ _ s v s) by done. by rewrite (act_bind_Ok _ _ _ _ _ E). }
  cbn. split; [|done]. split; [done|]. intros ce b'. unfold object. simpl. rewrite Hst, !lookup_insert_eq.
  intros [= <-] [= <-] _. done.
Qed.

Lemma append_owned key thread_id step s log b :
  coherent key s -> holds (object key s) log -> readable log ->
  encode_log (apply_step step log) = Some b -> decode_log b = Some (apply_step step log) ->
  exists s', append_step_locked key thread_id step s = (Ok tt, s') /\ coherent key s' /\
    contents (storage s') = <[key := b]> (contents (storage s) : gmap string string).
Proof.
  intros Hc Hh Hr He Hd. unfold append_step_locked.
  destruct (load_owned key s log Hc Hh Hr) as (l & s1 & E1 & Hl & Ht & C1 & S1).
  rewrite (act_bind_Ok _ _ _ _ _ E1), Hl, Ht. unfold object. rewrite <- S1.
  by apply save_owned.
Qed.

Lemma get_owned (scope : RequestScope) (ks : K) thread_id key s b log :
  thread_store_key scope ks thread_id = Ok key -> coherent key s ->
  object key s = Some b -> decode_log b = Some log -> readable log ->
  exists s', get scope ks thread_id s = (Ok log, s') /\ coherent key s' /\
    contents (storage s') = contents (storage s).
Proof.
  intros Hk Hc Hb Hd Hr. unfold get.
  rewrite (act_bind_Ok _ _ s key s) by (unfold act_lift; by rewrite Hk).
  destruct (head_owned key s Hc) as (s1 & E1 & C1 & S1 & K1). rewrite (act_bind_Ok _ _ _ _ _ E1), Hb.
  cbn [fmap option_fmap option_map].
  assert (object key s1 = Some b) as Hb1 by (unfold object; by rewrite S1).
  destruct (cached_log key (etag_of b) s1) as [log'|] eqn:Hcl.
  { eapply cached_log_owned in Hcl; [|done..]. simplify_eq. eauto. }
  destruct (spec_get_json_log key _ b log Hb1 Hd) as (v & Hv & Hp).
  destruct (get_json_owned key s1 _ C1 Hv) as (s2 & E2 & C2 & S2 & K2).
  rewrite (act_bind_Ok _ _ s1 v s2) by (unfold act_map_err; by rewrite E2).
  rewrite Hp, (act_bind_Ok _ _ s2 log s2) by done.
  assert (ensure_thread_log_schema log = Ok tt) as -> by (unfold ensure_thread_log_schema; by rewrite Hr).
  rewrite (act_bind_Ok _ _ s2 tt s2) by done.
  eexists. split; [reflexivity|]. cbn. split; [|congruence].
  apply coherent_remember; [done| |done]. unfold object. by rewrite S2, S1.
Qed.
Lemma get_missing_owned (scope : RequestScope) (ks : K) thread_id key s :
  thread_store_key scope ks thread_id = Ok key -> coherent key s -> object key s = None ->
  exists e s', get scope ks thread_id s = (Err e, s') /\ coherent key s' /\
    contents (storage s') = contents (storage s).
Proof.
  intros Hk Hc Hb. unfold get.
  rewrite (act_bind_Ok _ _ s key s) by (unfold act_lift; by rewrite Hk).
  destruct (head_owned key s Hc) as (s1 & E1 & C1 & S1 & K1). rewrite (act_bind_Ok _ _ _ _ _ E1), Hb.
  cbn [fmap option_fmap option_map].
  destruct (get_json_owned key s1 (Err (not_found key)) C1) as (s2 & E2 & C2 & S2 & K2).
  { unfold Spec.get_json, act_bind, Spec.get_bytes. unfold object in Hb. by rewrite S1, Hb. }
  eexists _, s2. split; [|split; [done|congruence]].
  eapply act_bind_Err. unfold act_map_err. by rewrite E2.
Qed.

Lemma append_step_owned (scope : RequestScope) (ks : K) thread_id key step s log b :
  thread_store_key scope ks thread_id = Ok key ->
  coherent key s -> holds (object key s) log -> readable log ->
  encode_log (apply_step step log) = Some b -> decode_log b = Some (apply_step step log) ->
  exists s', append_step scope ks thread_id step s = (Ok tt, s') /\ coherent key s' /\
    contents (storage s') = <[key := b]> (contents (storage s) : gmap string string).
Proof.
  intros Hk Hc Hh Hr He Hd.
  destruct (append_owned key thread_id step s log b Hc Hh Hr He Hd) as (s1 & E1 & C1 & S1).
  exists s1. split; [|done]. unfold append_step.
  rewrite (act_bind_Ok _ _ s key s) by (unfold act_lift; by rewrite Hk).
  change (Z.to_nat AUDIT_MAX_CONFLICT_RETRIES + 1) with 6. cbn [append_attempts]. by rewrite E1.
Qed.

(** The duplicate check of [append_step_if_new]. *)
Lemma duplicate_check_owned (scope : RequestScope) (ks : K) thread_id key step s log :
  thread_store_key scope ks thread_id = Ok key ->
  coherent key s -> holds (object key s) log -> readable log ->
  exists s', (let '(r, s1) := get scope ks thread_id s in
              (Ok match r with
                  | Ok log => existsb (same_event step) (rev (ThreadLog.steps log))
                  | Err _ => false
                  end, s1)) = (Ok (existsb (same_event step) (ThreadLog.steps log)) : Result bool CoreError.t, s') /\
    coherent key s' /\ contents (storage s') = contents (storage s).
Proof.
  intros Hk Hc Hh Hr. destruct (object key s) as [b|] eqn:Hb.
  - destruct (get_owned scope ks thread_id key s b log Hk Hc Hb Hh Hr) as (s1 & -> & C1 & S1).
    exists s1. split; [|done]. do 2 f_equal. apply eq_true_iff_eq.
    rewrite !existsb_exists. setoid_rewrite <- in_rev. done.
  - destruct (get_missing_owned scope ks thread_id key s Hk Hc Hb) as (e & s1 & -> & C1 & S1).
    exists s1. cbn in Hh. by subst.
Qed.
End owned.

(** On storage the process owns, appending a step always succeeds: reading
    the thread afterwards returns the previous log with the step at its end
    (and, for a [Complete] step, with its result), and no other object of the
    store changes. *)
Theorem append_then_get {St K} `{HSd : !Serde, HSt : !StorageAdapter St, HV : !StorageView St,
    HL : !StorageLaws St, HT : !Timer St, HK : !Keyspace K, HC : !Codec ThreadLog.t}
    (scope : RequestScope) (ks : K) thread_id key step (s : ThreadStore St) log b :
  thread_store_key scope ks thread_id = Ok key ->
  coherent key s -> holds (object key s) log -> readable log ->
  encode_log (apply_step step log) = Some b -> decode_log b = Some (apply_step step log) ->
  exists s1 s2, append_step scope ks thread_id step s = (Ok tt, s1) /\
    contents (storage s1) = <[key := b]> (contents (storage s) : gmap string string) /\
    get scope ks thread_id s1 = (Ok (apply_step step log), s2) /\
    coherent key s2 /\ contents (storage s2) = contents (storage s1).
Proof.
  intros Hk Hc Hh Hr He Hd.
  destruct (append_step_owned scope ks thread_id key step s log b Hk Hc Hh Hr He Hd)
    as (s1 & E1 & C1 & S1).
  assert (readable (apply_step step log)) as Hr' by (by destruct step).
  assert (object key s1 = Some b) as Hb by (unfold object; by rewrite S1, lookup_insert_eq).
  destruct (get_owned scope ks thread_id key s1 b (apply_step step log) Hk C1 Hb Hd Hr')
    as (s2 & E2 & C2 & S2).
  by exists s1, s2.
Qed.

(** The store of the witnesses: an empty in-memory adapter with the sample
    codec. *)
Definition sample_store : ThreadStore InMemoryStorageAdapter := new (∅ : InMemoryStorageAdapter).

#[global] Instance still_timer : Timer InMemoryStorageAdapter := fun _ s => s.

Lemma sample_store_coherent key :
  coherent (HSd := CountCodec.serde) (HC := CountCodec.codec) key sample_store.
Proof. split; [apply map_Forall_empty|]. done. Qed.

Lemma append_then_get_witness :
  exists s1 s2, append_step (HSt := @memory_adapter CountCodec.serde) (HC := CountCodec.codec)
      sample_scope Local "x" CountCodec.step sample_store = (Ok tt, s1) /\
    contents (storage s1) = <["t/w/p/threads/x.json" := "a"]> (contents (storage sample_store) : gmap string string) /\
    get (HSt := @memory_adapter CountCodec.serde) (HC := CountCodec.codec) sample_scope Local "x" s1
      = (Ok (CountCodec.log 1), s2) /\
    coherent (HSd := CountCodec.serde) (HC := CountCodec.codec) "t/w/p/threads/x.json" s2 /\
    contents (storage s2) = contents (storage s1).
Proof.
  apply (append_then_get (HSd := CountCodec.serde) (HC := CountCodec.codec)
    sample_scope Local "x" "t/w/p/threads/x.json" CountCodec.step sample_store ThreadLog.default "a");
    [reflexivity|apply sample_store_coherent|reflexivity|reflexivity|reflexivity|reflexivity].
Defined.

(** [append_step_if_new] records a completion or an interrupt once: when
    the log already holds the same event, nothing is written; otherwise the
    step is appended. *)
Theorem append_if_new_is_idempotent {St K} `{HSd : !Serde, HSt : !StorageAdapter St, HV : !StorageView St,
    HL : !StorageLaws St, HT : !Timer St, HK : !Keyspace K, HC : !Codec ThreadLog.t}
    (scope : RequestScope) (ks : K) thread_id key step (s : ThreadStore St) log b :
  thread_store_key scope ks thread_id = Ok key ->
  coherent key s -> holds (object key s) log -> readable log ->
  encode_log (apply_step step log) = Some b -> decode_log b = Some (apply_step step log) ->
  exists s', append_step_if_new scope ks thread_id step s = (Ok tt, s') /\
    contents (storage s') =
      if existsb (same_event step) (ThreadLog.steps log) then contents (storage s)
      else <[key := b]> (contents (storage s) : gmap string string).
Proof.
  intros Hk Hc Hh Hr He Hd.
  destruct (duplicate_check_owned scope ks thread_id key step s log Hk Hc Hh Hr) as (s1 & E1 & C1 & S1).
  assert (exists s2, append_step scope ks thread_id step s1 = (Ok tt, s2) /\ coherent key s2 /\
    contents (storage s2) = <[key := b]> (contents (storage s1) : gmap string string))
    as (s2 & E2 & C2 & S2).
  { apply (append_step_owned scope ks thread_id key step s1 log b); try done.
    unfold object. by rewrite S1. }
  assert (forall t, existsb (same_event step) t = false \/
    match step with ThreadStep.Complete _ _ _ _ _ _ | ThreadStep.Interrupt _ _ _ _ _ => True | _ => False end)
    as Hother.
  { intros t. destruct step; auto; left; induction t; done. }
  unfold append_step_if_new.
  destruct step; try (rewrite (act_bind_Ok _ _ s false s) by done;
    destruct (append_step_owned scope ks thread_id key _ s log b Hk Hc Hh Hr He Hd) as (s3 & E3 & C3 & S3);
    exists s3; destruct (Hother (ThreadLog.steps log)) as [->|[]]; done).
  all: rewrite (act_bind_Ok _ _ _ _ _ E1); destruct (existsb _ _);
    [exists s1; done|exists s2; split; [done|congruence]].
Qed.

(** Titles settle: [set_title_if_absent] writes only over a missing or
    empty title, and [lock_title] only over an unlocked one, so a non-empty
    locked title is final. *)
Theorem titles_settle {St K} `{HSd : !Serde, HSt : !StorageAdapter St, HV : !StorageView St,
    HL : !StorageLaws St, HT : !Timer St, HK : !Keyspace K, HC : !Codec ThreadLog.t}
    (scope : RequestScope) (ks : K) thread_id key title (s : ThreadStore St) log b1 b2 :
  thread_store_key scope ks thread_id = Ok key ->
  coherent key s -> holds (object key s) log -> readable log ->
  let log1 := ThreadLog.with_title title (ThreadLog.title_locked log) log in
  let log2 := ThreadLog.with_title title true log in
  encode_log log1 = Some b1 -> decode_log b1 = Some log1 ->
  encode_log log2 = Some b2 -> decode_log b2 = Some log2 ->
  (exists s', set_title_if_absent scope ks thread_id title s = (Ok tt, s') /\
    contents (storage s') =
      match ThreadLog.title log with
      | Some (String _ _) => contents (storage s)
      | _ => <[key := b1]> (contents (storage s) : gmap string string)
      end) /\
  (exists s', lock_title scope ks thread_id title s = (Ok tt, s') /\
    contents (storage s') =
      if ThreadLog.title_locked log then contents (storage s)
      else <[key := b2]> (contents (storage s) : gmap string string)).
Proof.
  intros Hk Hc Hh Hr log1 log2 E1 D1 E2 D2.
  destruct (load_owned key s log Hc Hh Hr) as (l & s1 & El & Hl & Ht & C1 & S1).
  destruct (save_owned key thread_id s1 log1 b1 C1 E1 D1) as (s2 & W1 & _ & T1).
  destruct (save_owned key thread_id s1 log2 b2 C1 E2 D2) as (s3 & W2 & _ & T2).
  unfold object in Ht, W1, W2. rewrite <- S1, <- ?Ht in *.
  split; unfold set_title_if_absent, lock_title;
    rewrite (act_bind_Ok _ _ s key s) by (unfold act_lift; by rewrite Hk);
    rewrite (act_bind_Ok _ _ _ _ _ El), Hl.
  - destruct (ThreadLog.title log) as [[|a t]|] eqn:Htl; simpl.
    + exists s2. by split.
    + exists s1. done.
    + exists s2. by split.
  - destruct (ThreadLog.title_locked log); simpl.
    + exists s1. done.
    + exists s3. by split.
Qed.

Lemma append_if_new_is_idempotent_witness :
  exists s', append_step_if_new (HSt := @memory_adapter CountCodec.serde) (HC := CountCodec.codec)
      sample_scope Local "x" CountCodec.step sample_store = (Ok tt, s') /\
    contents (storage s') =
      if existsb (same_event CountCodec.step) [] then contents (storage sample_store)
      else <["t/w/p/threads/x.json" := "a"]> (contents (storage sample_store) : gmap string string).
Proof.
  apply (append_if_new_is_idempotent (HSd := CountCodec.serde) (HC := CountCodec.codec)
    sample_scope Local "x" "t/w/p/threads/x.json" CountCodec.step sample_store ThreadLog.default "a");
    [reflexivity|apply sample_store_coherent|reflexivity|reflexivity|reflexivity|reflexivity].
Defined.

Lemma titles_settle_witness :
  exists s', lock_title (HSt := @memory_adapter TitleCodec.serde) (HC := TitleCodec.codec)
      sample_scope Local "x" "T" sample_store = (Ok tt, s') /\
    contents (storage s') =
      <["t/w/p/threads/x.json" := "LT"]> (contents (storage sample_store) : gmap string string).
Proof.
  refine (proj2 (titles_settle (HSd := TitleCodec.serde) (HC := TitleCodec.codec)
    (HL := @memory_laws TitleCodec.serde)
    sample_scope Local "x" "t/w/p/threads/x.json" "T" sample_store ThreadLog.default "UT" "LT"
    _ _ _ _ _ _ _ _)); try reflexivity.
  split; [apply map_Forall_empty|done].
Defined.

(** ** Preflight phase, deletion and listing *)

Lemma first_phase_push i steps phase from rc rd o ts agent :
  first_phase i steps = None ->
  first_phase i (steps ++ [ThreadStep.Phase phase from rc rd o ts agent]) = Some (i + length steps, phase).
Proof.
  revert i. induction steps as [|st steps IH]; intros i H; simpl; [by rewrite Nat.add_0_r|].
  destruct st; simpl in H |- *; try (rewrite (IH (S i) H); do 2 f_equal; lia). done.
Qed.

Section owned_more.
Context {St K : Type} `{HSd : !Serde, HSt : !StorageAdapter St, HV : !StorageView St,
  HL : !StorageLaws St, HT : !Timer St, HK : !Keyspace K, HC : !Codec ThreadLog.t}.
Implicit Types s : ThreadStore St.

Lemma preflight_found (scope : RequestScope) (ks : K) now thread_id agent suite phase key s log r :
  thread_store_key scope ks thread_id = Ok key ->
  coherent key s -> holds (object key s) log -> readable log ->
  first_phase 0 (ThreadLog.steps log) = Some r ->
  exists s', ensure_preflight_phase_step scope ks now thread_id agent suite phase s = (Ok (Some r), s') /\
    coherent key s' /\ contents (storage s') = contents (storage s).
Proof.
  intros Hk Hc Hh Hr Hf. unfold ensure_preflight_phase_step.
  rewrite (act_bind_Ok _ _ s key s) by (unfold act_lift; by rewrite Hk).
  destruct (load_owned key s log Hc Hh Hr) as (l & s1 & El & Hl & Ht & C1 & S1).
  rewrite (act_bind_Ok _ _ _ _ _ El), Hl, Hf. by exists s1.
Qed.

Lemma delete_keys_owned keys s : valid (storage s) ->
  exists s', delete_keys keys s = (Ok tt, s') /\ valid (storage s') /\ cache s' = cache s /\
    forall k, (contents (storage s') : gmap string string) !! k =
      if decide (k ∈ keys) then None else (contents (storage s) : gmap string string) !! k.
Proof.
  revert s. induction keys as [|x keys IH]; intros s Hv.
  { exists s. split; [done|]. split; [done|]. split; [done|]. intros k.
    rewrite decide_False; [done|apply not_elem_of_nil]. }
  cbn [delete_keys].
  destruct (on_storage_run (retry_delete_object x) (Spec.delete_object x) s (Ok tt)
    (delete x (contents (storage s) : gmap string string))) as (st & E & Hst & Hv'); try done.
  { apply retry_refines; [by apply delete_refines|done]. }
  rewrite (act_bind_Ok _ _ _ _ _ E).
  destruct (IH (mkThreadStore st (cache s)) Hv') as (s' & E' & V' & C' & H').
  exists s'. split; [done|]. split; [done|]. split; [done|]. intros k. rewrite H'. simpl.
  rewrite Hst. destruct (decide (k = x)) as [->|Hne].
  - rewrite lookup_delete_eq. rewrite (decide_True (P := x ∈ x :: keys)) by set_solver. by case_decide.
  - rewrite lookup_delete_ne by done. repeat case_decide; set_solver.
Qed.

Lemma list_owned p s : valid (storage s) ->
  exists keys s', on_storage (retry_list_prefix p) s = (Ok keys, s') /\ valid (storage s') /\
    cache s' = cache s /\ contents (storage s') = contents (storage s) /\
    forall k, k ∈ keys <->
      starts_with k p = true /\ is_Some ((contents (storage s) : gmap string string) !! k).
Proof.
  intros Hv.
  destruct (on_storage_run (retry_list_prefix p) (Spec.list_prefix p) s
    (Spec.list_prefix p (contents (storage s))).1 (contents (storage s))) as (st & E & Hst & Hv'); try done.
  { apply retry_refines; [by apply list_refines|done]. }
  eexists _, _. split; [exact E|]. repeat split; try done.
  - unfold sort_strings in *. rewrite merge_sort_Permutation, list_elem_of_filter in H. by destruct H.
  - unfold sort_strings in *. rewrite merge_sort_Permutation, list_elem_of_filter in H.
    destruct H as [_ H]. by apply elem_of_elements, elem_of_dom in H.
  - intros [Hp Hi]. unfold sort_strings. rewrite merge_sort_Permutation, list_elem_of_filter.
    split; [done|]. by apply elem_of_elements, elem_of_dom.
Qed.
End owned_more.

(** A preflight phase step is recorded once: when the thread already has a
    phase step, [ensure_preflight_phase_step] reports the first one with its
    index and writes nothing; otherwise it appends one and reports it; and a
    later call, with any other phase, reports the same. *)
Theorem preflight_phase_is_recorded_once {St K} `{HSd : !Serde, HSt : !StorageAdapter St,
    HV : !StorageView St, HL : !StorageLaws St, HT : !Timer St, HK : !Keyspace K, HC : !Codec ThreadLog.t}
    (scope : RequestScope) (ks : K) now thread_id agent suite phase now' agent' suite' phase'
    key (s : ThreadStore St) log b :
  thread_store_key scope ks thread_id = Ok key ->
  coherent key s -> holds (object key s) log -> readable log ->
  let log' := ThreadLog.push (ThreadStep.Phase phase None (Some "thread_started")
    ((fun sid => VObject [("suite_id", VString sid)]) <$> suite) Observation.success now agent) log in
  encode_log log' = Some b -> decode_log b = Some log' ->
  let r := default (length (ThreadLog.steps log), phase) (first_phase 0 (ThreadLog.steps log)) in
  exists s1 s2,
    ensure_preflight_phase_step scope ks now thread_id agent suite phase s = (Ok (Some r), s1) /\
    contents (storage s1) =
      match first_phase 0 (ThreadLog.steps log) with
      | Some _ => contents (storage s)
      | None => <[key := b]> (contents (storage s) : gmap string string)
      end /\
    ensure_preflight_phase_step scope ks now' thread_id agent' suite' phase' s1 = (Ok (Some r), s2) /\
    contents (storage s2) = contents (storage s1).
Proof.
  intros Hk Hc Hh Hr log' He Hd r. destruct (first_phase 0 (ThreadLog.steps log)) as [f|] eqn:Hf.
  - destruct (preflight_found scope ks now thread_id agent suite phase key s log f Hk Hc Hh Hr Hf)
      as (s1 & E1 & C1 & S1).
    destruct (preflight_found scope ks now' thread_id agent' suite' phase' key s1 log f Hk C1)
      as (s2 & E2 & C2 & S2); [unfold object; by rewrite S1|done|done|].
    exists s1, s2. done.
  - destruct (load_owned key s log Hc Hh Hr) as (l & s0 & El & Hl & Ht & C0 & S0).
    destruct (save_owned key thread_id s0 log' b C0 He Hd) as (s1 & W1 & C1 & T1).
    destruct (preflight_found scope ks now' thread_id agent' suite' phase' key s1 log' r Hk C1)
      as (s2 & E2 & C2 & S2); [unfold object; by rewrite T1, lookup_insert_eq|done|by apply first_phase_push|].
    exists s1, s2. split; [|rewrite <- S0; done].
    unfold ensure_preflight_phase_step.
    rewrite (act_bind_Ok _ _ s key s) by (unfold act_lift; by rewrite Hk).
    rewrite (act_bind_Ok _ _ _ _ _ El), Hl, Hf. fold log'.
    unfold object in Ht, W1. rewrite S0, <- Ht in W1.
    unfold act_bind in W1 |- *.
    destruct (save_thread_log_if_etag_matches thread_id key log' (loaded_etag l) s0) as [[e|e] s3]; [|done].
    unfold remember_log, act_ret in *. cbn in W1 |- *. injection W1 as <-. do 3 f_equal.
    unfold log', r. cbn. rewrite length_app. simpl. f_equal. lia.
Qed.

(** C30: [delete] removes the thread's object and every object whose key starts
    with the thread's id and a dot, and no other. *)
Theorem delete_removes_the_thread_family {St K} `{HSd : !Serde, HSt : !StorageAdapter St,
    HV : !StorageView St, HL : !StorageLaws St, HT : !Timer St, HK : !Keyspace K, HC : !Codec ThreadLog.t}
    (scope : RequestScope) (ks : K) thread_id key (s : ThreadStore St) :
  thread_store_key scope ks thread_id = Ok key -> valid (storage s) ->
  exists s', delete_thread scope ks thread_id s = (Ok tt, s') /\ cache s' !! key = None /\
    forall k, (contents (storage s') : gmap string string) !! k =
      if decide (k = key) then None
      else if starts_with k (trim_end_slash (threads_prefix ks scope) +:+ "/" +:+ thread_id +:+ ".")
      then None else (contents (storage s) : gmap string string) !! k.
Proof.
  intros Hk Hv. unfold delete_thread.
  rewrite (act_bind_Ok _ _ s key s) by (unfold act_lift; by rewrite Hk).
  destruct (on_storage_run (retry_delete_object key) (Spec.delete_object key) s (Ok tt)
    (delete key (contents (storage s) : gmap string string))) as (st & E & Hst & Hv'); try done.
  { apply retry_refines; [by apply delete_refines|done]. }
  rewrite (act_bind_Ok _ _ _ _ _ E).
  destruct (list_owned (trim_end_slash (threads_prefix ks scope) +:+ "/" +:+ thread_id +:+ ".")
    (mkThreadStore st (cache s)) Hv') as (keys & s1 & E1 & V1 & K1 & S1 & H1).
  rewrite (act_bind_Ok _ _ _ _ _ E1).
  destruct (delete_keys_owned keys s1 V1) as (s2 & E2 & V2 & K2 & H2).
  rewrite (act_bind_Ok _ _ _ _ _ E2).
  eexists. split; [reflexivity|]. split; [simpl; by rewrite lookup_delete_eq|].
  intros k. simpl. rewrite H2, S1. simpl. rewrite Hst. specialize (H1 k). simpl in H1. rewrite Hst in H1.
  destruct (decide (k = key)) as [->|Hne]; [rewrite lookup_delete_eq; by case_decide|].
  rewrite lookup_delete_ne in * by done.
  destruct (starts_with k _) eqn:Hsw.
  - destruct ((contents (storage s) : gmap string string) !! k) eqn:Hlk; [|by case_decide].
    rewrite decide_True; [done|]. apply H1. eauto.
  - rewrite decide_False; [done|]. intros Hin. by apply H1 in Hin as [? _].
Qed.

Lemma preflight_phase_is_recorded_once_witness :
  exists s1 s2,
    ensure_preflight_phase_step (HSt := @memory_adapter PhaseCodec.serde) (HC := PhaseCodec.codec)
      sample_scope Local "t" "x" "a" None "plan" sample_store = (Ok (Some (0, "plan")), s1) /\
    contents (storage s1) =
      <["t/w/p/threads/x.json" := "plan"]> (contents (storage sample_store) : gmap string string) /\
    ensure_preflight_phase_step (HSt := @memory_adapter PhaseCodec.serde) (HC := PhaseCodec.codec)
      sample_scope Local "t2" "x" "b" (Some "s") "other" s1 = (Ok (Some (0, "plan")), s2) /\
    contents (storage s2) = contents (storage s1).
Proof.
  apply (preflight_phase_is_recorded_once (HSd := PhaseCodec.serde) (HC := PhaseCodec.codec)
    (HL := @memory_laws PhaseCodec.serde)
    sample_scope Local "t" "x" "a" None "plan" "t2" "b" (Some "s") "other"
    "t/w/p/threads/x.json" sample_store ThreadLog.default "plan"); try reflexivity.
  split; [apply map_Forall_empty|done].
Defined.

Lemma delete_removes_the_thread_family_witness :
  exists s', delete_thread (HSt := @memory_adapter CountCodec.serde) sample_scope Local "x" sample_store
      = (Ok tt, s') /\ cache s' !! "t/w/p/threads/x.json" = None /\
    forall k, (contents (storage s') : gmap string string) !! k =
      if decide (k = "t/w/p/threads/x.json") then None
      else if starts_with k (trim_end_slash (threads_prefix Local sample_scope) +:+ "/" +:+ "x" +:+ ".")
      then None else (contents (storage sample_store) : gmap string string) !! k.
Proof.
  apply (delete_removes_the_thread_family (HSd := CountCodec.serde) (HC := CountCodec.codec)
    (HL := @memory_laws CountCodec.serde)); [reflexivity|apply map_Forall_empty].
Defined.

(** A thread whose id has a dot is at the mercy of the thread named by the
    part before it: deleting thread "a" deletes thread "a.b", which [list]
    never shows. *)
Theorem deleting_a_thread_deletes_dotted_threads :
  let A := @memory_adapter CountCodec.serde in
  let s := append_step (HSt := A) (HC := CountCodec.codec) sample_scope Local "a.b" CountCodec.step sample_store in
  let l := list_threads (HSt := A) sample_scope Local s.2 in
  let d := delete_thread (HSt := A) sample_scope Local "a" l.2 in
  let g := get (HSt := A) (HC := CountCodec.codec) sample_scope Local "a.b" in
  s.1 = Ok tt /\ is_Ok (g s.2).1 = true /\ l.1 = [] /\ d.1 = Ok tt /\ is_Ok (g d.2).1 = false.
Proof. vm_compute. repeat split; reflexivity. Qed.
