(* ===== verification/ControlState.v ===== *)
(** * Suite control state

    [src/src/core/src/session/control_state.rs]: the one opaque state object a
    suite keeps per thread, wrapped in an envelope that names the suite and a
    schema version. *)

From stdpp Require Import base list strings gmap.
From Stdlib Require Import ZArith Lia.
From S2P Require Import Prelude.
From S2P Require Import RustStr.
From S2P Require Import Json.
From S2P Require Import Errors.
From S2P Require Import Scope.
From S2P Require Import Storage.
From S2P Require Import MemoryStorage.
From S2P Require Import Caching.
From S2P Require Import SessionTypes.
From S2P Require Import ThreadStore.
From S2P Require Import ThreadStoreShared.
From S2P Require Import Samples.

Section control.
Context {St K : Type} `{HSt : !StorageAdapter St, HT : !Timer St, HK : !Keyspace K,
  HE : !Codec ControlStateEnvelope}.
Variable scope : RequestScope.
Variable keyspace : K.

Definition control_key (thread_id : string) : Result string CoreError.t :=
  res_map_err (fun e => CoreError.Session
      ("failed to build control state key for '" +:+ thread_id +:+ "': " +:+ CoreError.display e))
    (control_state_key keyspace scope thread_id).

Definition decode (raw : Value) (expected_suite_id : string) : Result (option Value) CoreError.t :=
  let? env := res_map_err (fun e => CoreError.Session
      ("control state envelope deserialization failed (suite='" +:+ expected_suite_id +:+ "'): " +:+ e))
    (from_value raw) in
  if Z.eqb (cse_schema_version env) CONTROL_STATE_ENVELOPE_SCHEMA_VERSION
     && String.eqb (trim (suite_id env)) (trim expected_suite_id)
  then Ok (Some (cse_payload env)) else Ok None.

Definition encode (suite : string) (payload : Value) : Result Value CoreError.t :=
  res_map_err (fun e => CoreError.Session
      ("encode_control_state(suite_id='" +:+ suite +:+ "'): " +:+ e))
    (to_value {| cse_schema_version := CONTROL_STATE_ENVELOPE_SCHEMA_VERSION;
                 suite_id := trim suite; cse_payload := payload |}).

Definition load_raw (thread_id : string) : Op St (LoadState Value) :=
  do! key <- act_lift (control_key thread_id);
  do! tag <- retry_head_etag key;
  match tag with
  | None => act_ret Missing
  | Some tag =>
      do! v <- retry_get_json key;
      act_ret (Loaded {| etag := Some tag; value := v |})
  end.

Definition save_raw (thread_id : string) (v : Value) : Op St unit :=
  do! key <- act_lift (control_key thread_id);
  retry_put_json key v.

Definition save_raw_if_etag_matches (thread_id : string) (v : Value) (expected_etag : option string)
  : Op St unit :=
  do! key <- act_lift (control_key thread_id);
  do! status <- retry_put_json_if_etag_matches key v expected_etag;
  match status with
  | ConditionalWriteStatus.Written _ => act_ret tt
  | ConditionalWriteStatus.Conflict current_etag =>
      act_err (CoreError.Session
        ("control_state('" +:+ thread_id +:+ "'): write conflict detected (expected_etag="
           +:+ debug_opt expected_etag +:+ ", current_etag=" +:+ debug_opt current_etag +:+ ")"))
  end.

Definition delete_control (thread_id : string) : Op St unit :=
  do! key <- act_lift (control_key thread_id);
  do! _ <- retry_delete_object key;
  act_ret tt.

Definition load_suite_id (thread_id : string) : Op St (option string) :=
  do! loaded <- load_raw thread_id;
  match loaded with
  | Missing => act_ret None
  | Loaded raw =>
      act_ret match res_ok (from_value (T := ControlStateEnvelope) (value raw)) with
              | Some env => if str_is_empty (trim (suite_id env)) then None else Some (suite_id env)
              | None => None
              end
  end.

Section payload.
Context {T : Type} `{HP : !Codec T}.

Definition parse_payload (payload : Value) : Result T CoreError.t :=
  res_map_err (fun e => CoreError.Session ("failed to parse control state payload: " +:+ e))
    (from_value payload).

Definition serialize_payload (state : T) : Result Value CoreError.t :=
  res_map_err (fun e => CoreError.Session ("failed to serialize control state payload: " +:+ e))
    (to_value state).

Definition load (thread_id suite : string) : Op St (option T) :=
  do! loaded <- load_raw thread_id;
  match loaded with
  | Missing => act_ret None
  | Loaded raw =>
      do! payload <- act_lift (decode (value raw) suite);
      match payload with
      | None => act_ret None
      | Some payload =>
          do! parsed <- act_lift (parse_payload payload);
          act_ret (Some parsed)
      end
  end.

Definition save (thread_id suite : string) (state : T) : Op St unit :=
  do! payload <- act_lift (serialize_payload state);
  do! envelope <- act_lift (encode suite payload);
  save_raw thread_id envelope.

Definition mutate (thread_id suite : string) (f : option T -> Result T CoreError.t) : Op St T :=
  do! key <- act_lift (control_key thread_id);
  do! loaded <- load_raw thread_id;
  let expected_etag := match loaded with Missing => None | Loaded raw => etag raw end in
  do! current <- match loaded with
                 | Missing => act_ret None
                 | Loaded raw =>
                     do! payload <- act_lift (decode (value raw) suite);
                     match payload with
                     | Some payload => do! t <- act_lift (parse_payload payload); act_ret (Some t)
                     | None => act_ret None
                     end
                 end;
  do! next <- act_lift (f current);
  do! payload <- act_lift (serialize_payload next);
  do! envelope <- act_lift (encode suite payload);
  do! _ <- save_raw_if_etag_matches thread_id envelope expected_etag;
  act_ret next.
End payload.
End control.

(** ** Behaviour on storage the process owns *)

Section owned.
Context {St K : Type} `{HSd : !Serde, HSt : !StorageAdapter St, HV : !StorageView St,
  HL : !StorageLaws St, HT : !Timer St, HK : !Keyspace K, HE : !Codec ControlStateEnvelope}.
Context {T : Type} `{HP : !Codec T}.
Variable scope : RequestScope.
Variable ks : K.
Implicit Types s : St.

(** The bytes an envelope of [suite] with the state [t] is stored as, when it
    reads back as it was written. *)
Definition stored_as (suite : string) (t : T) (b : string) : Prop :=
  exists p v, to_value t = Ok p /\
    to_value {| cse_schema_version := CONTROL_STATE_ENVELOPE_SCHEMA_VERSION;
                suite_id := trim suite; cse_payload := p |} = Ok v /\
    to_vec v = Ok b /\ from_slice b = Ok v /\ from_value p = Ok t /\
    from_value v = Ok {| cse_schema_version := CONTROL_STATE_ENVELOPE_SCHEMA_VERSION;
                         suite_id := trim suite; cse_payload := p |}.

Lemma trim_eq_dec a b : String.eqb (trim a) (trim b) = true <-> trim a = trim b.
Proof. apply String.eqb_eq. Qed.

Lemma retried {A} (call : Op St A) spec s r c :
  refines call spec -> (forall n e, (spec n).1 = Err e -> CoreError.retryable e = false) ->
  valid s -> spec (contents s) = (r, c) ->
  exists s', retry_storage_call call s = (r, s') /\ contents s' = c /\ valid s'.
Proof. intros Hr He Hv Hs. eapply refines_run; [by apply retry_refines|done|done]. Qed.

Lemma load_raw_owned thread_id key s b v :
  control_key scope ks thread_id = Ok key -> valid s ->
  (contents s : gmap string string) !! key = Some b -> from_slice b = Ok v ->
  exists s', load_raw scope ks thread_id s = (Ok (Loaded {| etag := Some (etag_of b); value := v |}), s') /\
    valid s' /\ contents s' = contents s.
Proof.
  intros Hk Hv Hb Hs. unfold load_raw.
  rewrite (act_bind_Ok _ _ s key s) by (unfold act_lift; by rewrite Hk).
  destruct (retried (head_etag key) (Spec.head_etag etag_of key) s (Ok (Some (etag_of b))) (contents s))
    as (s1 & E1 & S1 & V1); [by apply head_refines|done|done|unfold Spec.head_etag; by rewrite Hb|].
  unfold retry_head_etag. rewrite (act_bind_Ok _ _ _ _ _ E1).
  destruct (retried (get_json key) (Spec.get_json key) s1 (Ok v) (contents s))
    as (s2 & E2 & S2 & V2); [by apply get_json_refines|apply get_json_permanent|done| |].
  { unfold Spec.get_json, act_bind, Spec.get_bytes, act_lift, decode_json. by rewrite S1, Hb, Hs. }
  unfold retry_get_json. rewrite (act_bind_Ok _ _ _ _ _ E2). by exists s2.
Qed.

Lemma decode_stored suite suite' t p v :
  to_value (T := T) t = Ok p ->
  from_value v = Ok {| cse_schema_version := CONTROL_STATE_ENVELOPE_SCHEMA_VERSION;
                       suite_id := trim suite; cse_payload := p |} ->
  trim (trim suite) = trim suite ->
  decode v suite' = Ok (if String.eqb (trim suite) (trim suite') then Some p else None).
Proof.
  intros Hp Hv Ht. unfold decode. rewrite Hv. simpl. rewrite Ht. by destruct (String.eqb _ _).
Qed.

Lemma load_owned_state thread_id key suite suite' t b s :
  control_key scope ks thread_id = Ok key -> valid s -> trim (trim suite) = trim suite ->
  (contents s : gmap string string) !! key = Some b -> stored_as suite t b ->
  exists s', load scope ks thread_id suite' s =
      (Ok (if String.eqb (trim suite) (trim suite') then Some t else None), s') /\
    valid s' /\ contents s' = contents s.
Proof.
  intros Hk Hv Ht Hb (p & v & H1 & H2 & H3 & H4 & H5 & H6).
  destruct (load_raw_owned thread_id key s b v Hk Hv Hb H4) as (s1 & E1 & V1 & S1).
  exists s1. split; [|done]. unfold load. rewrite (act_bind_Ok _ _ _ _ _ E1).
  cbn [value]. rewrite (decode_stored suite suite' t p v H1 H6 Ht).
  destruct (String.eqb _ _).
  - rewrite (act_bind_Ok _ _ s1 (Some p) s1) by done. unfold parse_payload. rewrite H5. done.
  - by rewrite (act_bind_Ok _ _ s1 None s1).
Qed.
End owned.

(** What a suite saves is what it loads: after [save], [load] for the same
    suite returns the state, [load] for any other suite returns nothing rather
    than another suite's state, and [load_suite_id] names the suite; names
    differing only in surrounding white space are the same. *)
Theorem save_then_load {St K} `{HSd : !Serde, HSt : !StorageAdapter St, HV : !StorageView St,
    HL : !StorageLaws St, HT : !Timer St, HK : !Keyspace K, HE : !Codec ControlStateEnvelope}
    {T} `{HP : !Codec T} (scope : RequestScope) (ks : K) thread_id key suite suite' (t : T) b (s : St) :
  control_key scope ks thread_id = Ok key -> valid s -> head_ok suite = true ->
  stored_as suite t b ->
  exists s1 s2 s3, save scope ks thread_id suite t s = (Ok tt, s1) /\
    contents s1 = <[key := b]> (contents s : gmap string string) /\
    load scope ks thread_id suite' s1 =
      (Ok (if String.eqb (trim suite) (trim suite') then Some t else None), s2) /\
    load_suite_id scope ks thread_id s1 =
      (Ok (if str_is_empty (trim suite) then None else Some (trim suite)), s3).
Proof.
  intros Hk Hv Hh Hst. pose proof (trim_idem suite Hh) as Ht.
  pose proof Hst as (p & v & H1 & H2 & H3 & H4 & H5 & H6).
  destruct (retried (put_json key v) (Spec.put_json key v) s (Ok tt)
    (<[key := b]> (contents s : gmap string string))) as (s1 & E1 & S1 & V1);
    [by apply put_json_refines| |done| |].
  { intros n e. unfold Spec.put_json, act_bind, act_lift, encode_json. by rewrite H3. }
  { unfold Spec.put_json, act_bind, act_lift, encode_json. by rewrite H3. }
  assert ((contents s1 : gmap string string) !! key = Some b) as Hb by by rewrite S1, lookup_insert_eq.
  destruct (load_owned_state scope ks thread_id key suite suite' t b s1 Hk V1 Ht Hb Hst)
    as (s2 & E2 & _ & _).
  destruct (load_raw_owned scope ks thread_id key s1 b v Hk V1 Hb H4) as (s3 & E3 & _ & _).
  exists s1, s2, s3. split; [|split; [done|split; [done|]]].
  - unfold save, serialize_payload. rewrite H1. cbn [res_map_err].
    rewrite (act_bind_Ok _ _ s p s) by done. unfold encode. rewrite H2. cbn [res_map_err].
    rewrite (act_bind_Ok _ _ s v s) by done. unfold save_raw.
    rewrite (act_bind_Ok _ _ s key s) by (unfold act_lift; by rewrite Hk). done.
  - unfold load_suite_id. rewrite (act_bind_Ok _ _ _ _ _ E3). cbn [value]. rewrite H6. cbn [res_ok suite_id].
    rewrite Ht. by destruct (str_is_empty _).
Qed.

(** [mutate] replaces a suite's state by the function of the state it
    loaded: with the stored state of the same suite, with nothing when the
    thread has none or another suite's; and when the function fails, nothing
    is written. *)
Theorem mutate_applies_the_function {St K} `{HSd : !Serde, HSt : !StorageAdapter St, HV : !StorageView St,
    HL : !StorageLaws St, HT : !Timer St, HK : !Keyspace K, HE : !Codec ControlStateEnvelope}
    {T} `{HP : !Codec T} (scope : RequestScope) (ks : K) thread_id key suite suite0 (t0 : T) b0
    (f : option T -> Result T CoreError.t) (s : St) :
  control_key scope ks thread_id = Ok key -> valid s -> head_ok suite0 = true ->
  (contents s : gmap string string) !! key = Some b0 -> stored_as suite0 t0 b0 ->
  let current := if String.eqb (trim suite0) (trim suite) then Some t0 else None in
  (forall e, f current = Err e ->
    exists s', mutate scope ks thread_id suite f s = (Err e, s') /\ contents s' = contents s) /\
  (forall t b, f current = Ok t -> stored_as suite t b ->
    exists s', mutate scope ks thread_id suite f s = (Ok t, s') /\
      contents s' = <[key := b]> (contents s : gmap string string)).
Proof.
  intros Hk Hv Hh Hb0 Hst0 current. pose proof (trim_idem suite0 Hh) as Ht0.
  destruct Hst0 as (p0 & v0 & H1 & H2 & H3 & H4 & H5 & H6).
  destruct (load_raw_owned scope ks thread_id key s b0 v0 Hk Hv Hb0 H4) as (s1 & E1 & V1 & S1).
  assert (mutate scope ks thread_id suite f s =
    (do! next <- act_lift (f current);
     do! payload <- act_lift (serialize_payload next);
     do! envelope <- act_lift (encode suite payload);
     do! _ <- save_raw_if_etag_matches scope ks thread_id envelope (Some (etag_of b0));
     act_ret next) s1) as Hrun.
  { unfold mutate. rewrite (act_bind_Ok _ _ s key s) by (unfold act_lift; by rewrite Hk).
    rewrite (act_bind_Ok _ _ _ _ _ E1). cbn [etag value].
    rewrite (decode_stored suite0 suite t0 p0 v0 H1 H6 Ht0). subst current.
    erewrite (act_bind_Ok _ _ s1); [reflexivity|]. destruct (String.eqb _ _).
    - rewrite (act_bind_Ok _ _ s1 (Some p0) s1) by done. unfold parse_payload. by rewrite H5.
    - by rewrite (act_bind_Ok _ _ s1 None s1). }
  rewrite Hrun. split.
  - intros e ->. exists s1. done.
  - intros t b -> (p & v & G1 & G2 & G3 & _).
    destruct (retried (put_json_if_etag_matches key v (Some (etag_of b0)))
      (Spec.put_json_if_etag_matches etag_of key v (Some (etag_of b0))) s1
      (Ok (ConditionalWriteStatus.Written (etag_of b))) (<[key := b]> (contents s : gmap string string)))
      as (s2 & E2 & S2 & V2); [by apply put_json_if_refines| |done| |].
    { intros n e. unfold Spec.put_json_if_etag_matches, act_bind, act_lift, encode_json. rewrite G3.
      simpl. by case_decide. }
    { unfold Spec.put_json_if_etag_matches, act_bind, act_lift, encode_json, Spec.head_etag. rewrite G3.
      simpl. rewrite S1, Hb0. by rewrite decide_True. }
    exists s2. split; [|done]. rewrite (act_bind_Ok _ _ s1 t s1) by done.
    unfold serialize_payload. rewrite G1. cbn [res_map_err].
    rewrite (act_bind_Ok _ _ s1 p s1) by done. unfold encode. rewrite G2. cbn [res_map_err].
    rewrite (act_bind_Ok _ _ s1 v s1) by done.
    unfold save_raw_if_etag_matches.
    erewrite (act_bind_Ok _ _ s1 tt s2); [done|].
    rewrite (act_bind_Ok _ _ s1 key s1) by (unfold act_lift; by rewrite Hk).
    unfold retry_put_json_if_etag_matches. by rewrite (act_bind_Ok _ _ _ _ _ E2).
Qed.

Definition sample_stored (suite : string) (t b : string) : Prop :=
  stored_as (HSd := EnvelopeCodec.serde) (HE := EnvelopeCodec.codec) (HP := EnvelopeCodec.state) suite t b.

Lemma sample_is_stored : sample_stored " kb " "st" "kb|st".
Proof. eexists _, _. repeat split; reflexivity. Qed.

#[local] Instance still : Timer InMemoryStorageAdapter := fun _ s => s.

Lemma save_then_load_witness :
  exists s1 s2 s3,
    save (HSt := @memory_adapter EnvelopeCodec.serde) (HE := EnvelopeCodec.codec)
      (HP := EnvelopeCodec.state) sample_scope Local "x" " kb " "st" (∅ : InMemoryStorageAdapter)
      = (Ok tt, s1) /\
    contents s1 = <["t/w/p/state/x/control.json" := "kb|st"]> (contents (∅ : InMemoryStorageAdapter) : gmap string string) /\
    load (HSt := @memory_adapter EnvelopeCodec.serde) (HE := EnvelopeCodec.codec)
      (HP := EnvelopeCodec.state) sample_scope Local "x" "other" s1 = (Ok None, s2) /\
    load_suite_id (HSt := @memory_adapter EnvelopeCodec.serde) (HE := EnvelopeCodec.codec)
      sample_scope Local "x" s1 = (Ok (Some "kb"), s3).
Proof.
  apply (save_then_load (HL := @memory_laws EnvelopeCodec.serde) sample_scope Local "x"
    "t/w/p/state/x/control.json" " kb " "other" "st" "kb|st");
    [reflexivity|apply map_Forall_empty|reflexivity|apply sample_is_stored].
Defined.

(** A store that already holds the sample state. *)
Definition holding_store : InMemoryStorageAdapter :=
  {[ "t/w/p/state/x/control.json" := {| obj_bytes := "kb|st"; obj_etag := next_etag "kb|st" |} ]}.

Lemma mutate_applies_the_function_witness :
  exists s', mutate (HSt := @memory_adapter EnvelopeCodec.serde) (HE := EnvelopeCodec.codec)
      (HP := EnvelopeCodec.state) sample_scope Local "x" "kb"
      (fun o => match o with Some _ => Ok "st" | None => Err (CoreError.Generic "no state") end)
      holding_store = (Ok "st", s') /\
    contents s' = <["t/w/p/state/x/control.json" := "kb|st"]> (contents holding_store : gmap string string).
Proof.
  apply (mutate_applies_the_function (HL := @memory_laws EnvelopeCodec.serde)
    sample_scope Local "x" "t/w/p/state/x/control.json" "kb" " kb " "st" "kb|st"
    (fun o => match o with Some _ => Ok "st" | None => Err (CoreError.Generic "no state") end)
    holding_store);
    [reflexivity|apply map_Forall_singleton; reflexivity|reflexivity|reflexivity
    |apply sample_is_stored|reflexivity|].
  eexists _, _. repeat split; reflexivity.
Defined.
