(* ===== verification/Observed.v ===== *)
(** * Observed tool runs

    [src/src/core/src/session/observed.rs]: [run_observed] brackets an
    operation between a [ToolStart] and a [ToolEnd] step of the audit log.
    The log is reached only through [append_step]; [StepLog] is what a tool
    run needs of it. *)

From stdpp Require Import base list strings.
From Stdlib Require Import ZArith Lia.
From S2P Require Import Prelude.
From S2P Require Import RustStr.
From S2P Require Import Json.
From S2P Require Import Errors.
From S2P Require Import SessionTypes.

(** A world with an append-only log. *)
Class StepLog (W : Type) := {
  steps_of : W -> list ThreadStep.t;
  append : ThreadStep.t -> Act W CoreError.t unit;
  log_ok : W -> Prop
}.

(** The world [w'] has [new] at the end of the log of [w], if that log was in
    a valid state. *)
Definition logs `{!StepLog W} (w : W) (new : list ThreadStep.t) (w' : W) : Prop :=
  log_ok w -> log_ok w' /\ steps_of w' = steps_of w ++ new.

(** A successful append adds the step at the end, a failed one nothing. *)
Class StepLogLaws (W : Type) `{!StepLog W} : Prop := {
  append_logs step w : logs w (if is_Ok (append step w).1 then [step] else []) (append step w).2
}.

Section logs.
Context {W : Type} `{!StepLog W}.
Implicit Types w : W.

Lemma logs_nil w : logs w [] w.
Proof. intros H. by rewrite app_nil_r. Qed.

Lemma logs_trans w1 w2 w3 new1 new2 : logs w1 new1 w2 -> logs w2 new2 w3 -> logs w1 (new1 ++ new2) w3.
Proof. intros H1 H2 Ho. destruct (H1 Ho) as [O2 E2]. destruct (H2 O2) as [O3 E3]. split; [done|]. by rewrite E3, E2, app_assoc. Qed.
End logs.

Record ToolStepMeta : Type := {
  tm_agent : string;
  tm_phase : string;
  tm_name : string;
  tm_clean_name : string;
  tm_args : Value;
  tm_ctx : option ExecutionContext
}.

(** How an awaited operation ends. *)
Inductive Outcome (T : Type) : Type :=
| Returned (r : Result T string)
| Panicked.
Arguments Returned {T} r.
Arguments Panicked {T}.

Section observed.
Context {W T : Type} `{!StepLog W}.

(** The values the environment supplies: the fresh tool id, the times of the
    steps, and whether a runtime is current when a panic unwinds. *)
Variables (tool_id ts_start ts_guard ts_end : string) (runtime : bool).
Variable meta : ToolStepMeta.
Variable operation : W -> Outcome T * W.
Variable to_observation : T -> Result Value string.

Definition tool_start : ThreadStep.t :=
  ThreadStep.ToolStart tool_id (tm_name meta) (tm_clean_name meta) (tm_args meta)
    ToolStepStatus.Running None (tm_ctx meta) ts_start (tm_agent meta).

Definition tool_end (status : ToolStepStatus.t) (payload : option Value) (obs : ToolObservation.t)
  (ts : string) : ThreadStep.t :=
  ThreadStep.ToolEnd tool_id (tm_name meta) (tm_clean_name meta) (tm_args meta) status payload
    (tm_ctx meta) obs ts (tm_agent meta).

(** The step the panic guard appends. *)
Definition panic_step : ThreadStep.t :=
  tool_end ToolStepStatus.Failed None
    (ToolObservation.from_failure
       ("tool '" +:+ tm_name meta +:+ "' panicked before producing a normal observation")) ts_guard.

(** [Drop for ToolEndPanicGuard] while armed and panicking: the appended step
    is best effort, its failure only logged. *)
Definition panic_guard_drop (w : W) : W :=
  if runtime then (append panic_step w).2 else w.

(** Status, observation and result from what the operation returned. *)
Definition observe (result : Result T string)
  : ToolStepStatus.t * ToolObservation.t * Result T string :=
  match result with
  | Ok v =>
      match to_observation v with
      | Ok raw => (ToolStepStatus.Ok, ToolObservation.from_success raw, Ok v)
      | Err e =>
          let msg := "failed to build observation for " +:+ tm_name meta +:+ ": " +:+ e in
          (ToolStepStatus.Failed, ToolObservation.from_failure msg, Err msg)
      end
  | Err e => (ToolStepStatus.Failed, ToolObservation.from_failure e, Err e)
  end.

(** [None] when the panic of the operation propagates. *)
Definition run_observed (w : W) : option (Result T string) * W :=
  match append tool_start w with
  | (Err e, w1) => (Some (Err ("audit unavailable (tool_start): " +:+ CoreError.display e)), w1)
  | (Ok _, w1) =>
      match operation w1 with
      | (Panicked, w2) => (None, panic_guard_drop w2)
      | (Returned result, w2) =>
          let '(status, obs, return_result) := observe result in
          let payload :=
            match assoc_get "payload" (ToolObservation.extra obs) with
            | Some p => Some p
            | None => assoc_get "ui_payload" (ToolObservation.extra obs)
            end in
          match append (tool_end status payload obs ts_end) w2 with
          | (Err e, w3) => (Some (Err ("audit unavailable (tool_end): " +:+ CoreError.display e)), w3)
          | (Ok _, w3) => (Some return_result, w3)
          end
      end
  end.
End observed.

(** The tool id of a bracketing step. *)
Definition tool_id_of (s : ThreadStep.t) : option string :=
  match s with
  | ThreadStep.ToolStart i _ _ _ _ _ _ _ _ => Some i
  | ThreadStep.ToolEnd i _ _ _ _ _ _ _ _ _ => Some i
  | _ => None
  end.

(** Worlds whose log records every append, to instantiate the interface; an
    append fails once [capacity] steps are stored. *)
Record BoundedLog : Type := { logged : list ThreadStep.t; capacity : nat }.

#[global] Instance bounded_log : StepLog BoundedLog := {|
  steps_of := logged;
  append step w :=
    if Nat.ltb (length (logged w)) (capacity w)
    then (Ok tt, {| logged := logged w ++ [step]; capacity := capacity w |})
    else (Err (CoreError.AuditUnavailable "x" 5), w);
  log_ok _ := True
|}.

#[global] Instance bounded_log_laws : StepLogLaws BoundedLog.
Proof. split. intros step w _. simpl. destruct (Nat.ltb _ _); simpl; by rewrite ?app_nil_r. Qed.

Section brackets.
Context {W T : Type} `{HW : !StepLog W, HL : !StepLogLaws W}.

(** What the caller is told of an operation whose end was logged. *)
Definition reported (meta : ToolStepMeta) (obs : T -> Result Value string) (result : Result T string) : Result T string :=
  match result with
  | Ok v => match obs v with
            | Ok _ => Ok v
            | Err e => Err ("failed to build observation for " +:+ tm_name meta +:+ ": " +:+ e)
            end
  | Err e => Err e
  end.

(** The operation succeeded and its observation could be built. *)
Definition went_well (obs : T -> Result Value string) (o : Outcome T) : bool :=
  match o with Returned (Ok v) => is_Ok (obs v) | _ => false end.

(** What [run_observed] hands out when its closing append came to [c]. *)
Definition handed_out (meta : ToolStepMeta) (obs : T -> Result Value string) (o : Outcome T)
  (c : Result unit CoreError.t) : option (Result T string) :=
  match o, c with
  | Panicked, _ => None
  | Returned result, Ok _ => Some (reported meta obs result)
  | Returned _, Err e => Some (Err ("audit unavailable (tool_end): " +:+ CoreError.display e))
  end.

(** C22: A tool run is bracketed in the audit log.  If the opening append
    fails, the operation never runs, the log is unchanged and the caller is
    told so.  Otherwise the operation runs after it, and whatever it does,
    return, fail or panic (while a runtime is there to append the last step),
    the run ends with one append of a [ToolEnd] of the same tool id: the log
    gains the [ToolStart], what the operation itself logged, and, unless just
    that append failed, the [ToolEnd].  Its status is [ok] exactly when the
    operation succeeded and its observation could be built.  The caller gets
    the result of the operation, or is told that its end could not be logged;
    a panic is passed on. *)
Theorem run_observed_brackets tool_id t1 t2 t3 meta (op : W -> Outcome T * W) obs w
    (Hop : forall w, exists extra, logs w extra (op w).2) :
  let start := tool_start tool_id t1 meta in
  let '(r, w') := run_observed tool_id t1 t2 t3 true meta op obs w in
  match append start w with
  | (Err e, w1) =>
      r = Some (Err ("audit unavailable (tool_start): " +:+ CoreError.display e)) /\ w' = w1 /\ logs w [] w'
  | (Ok _, w1) =>
      exists extra status payload observation ts c,
        let stop := tool_end tool_id meta status payload observation ts in
        append stop (op w1).2 = (c, w') /\
        logs w (start :: extra ++ if is_Ok c then [stop] else []) w' /\
        status = (if went_well obs (op w1).1 then ToolStepStatus.Ok else ToolStepStatus.Failed) /\
        ToolObservation.ok observation = went_well obs (op w1).1 /\
        r = handed_out meta obs (op w1).1 c
  end.
Proof.
  intros start. unfold run_observed. fold start.
  pose proof (append_logs start w) as H1. destruct (append start w) as [[[]|e] w1]; simpl in H1; [|done].
  destruct (Hop w1) as [extra H2]. destruct (op w1) as [o w2]; cbn [fst snd] in *.
  assert (forall stop, logs w (start :: extra ++ if is_Ok (append stop w2).1 then [stop] else []) (append stop w2).2) as H3.
  { intros stop. exact (logs_trans _ _ _ _ _ H1 (logs_trans _ _ _ _ _ H2 (append_logs stop w2))). }
  destruct o as [result|]; cbn [went_well handed_out].
  - assert (exists status ob, observe meta obs result = (status, ob, reported meta obs result) /\
      status = (if went_well obs (Returned result) then ToolStepStatus.Ok else ToolStepStatus.Failed) /\
      ToolObservation.ok ob = went_well obs (Returned result)) as (status & ob & -> & Hs & Ho).
    { unfold observe, reported, went_well. destruct result as [v|e]; [destruct (obs v)|];
        eexists _, _; (split; [reflexivity|done]). }
    match goal with |- context [append ?stop w2] => specialize (H3 stop); destruct (append stop w2) as [[[]|e] w3] eqn:E end;
      exists extra; eexists _, _, _, _, _; (split; [exact E|split; [exact H3|done]]).
  - unfold panic_guard_drop. specialize (H3 (panic_step tool_id t2 meta)).
    exists extra; eexists _, _, _, _, _. split; [apply surjective_pairing|]. split; [exact H3|done].
Qed.
End brackets.

Lemma run_observed_brackets_witness :
  let meta := {| tm_agent := "a"; tm_phase := "p"; tm_name := "sql"; tm_clean_name := "Sql";
                 tm_args := VNull; tm_ctx := None |} in
  let w := {| logged := []; capacity := 5 |} in
  let start := tool_start "id" "1" meta in
  let '(r, w') := run_observed "id" "1" "2" "3" true meta (fun w => (@Panicked Value, w)) (fun v => Ok v) w in
  exists extra status payload observation ts c,
    let stop := tool_end "id" meta status payload observation ts in
    append stop {| logged := [start]; capacity := 5 |} = (c, w') /\
    logs w (start :: extra ++ if is_Ok c then [stop] else []) w' /\
    status = ToolStepStatus.Failed /\ ToolObservation.ok observation = false /\ r = None.
Proof.
  exact (run_observed_brackets "id" "1" "2" "3" _ (fun w : BoundedLog => (@Panicked Value, w)) (fun v => Ok v)
    {| logged := []; capacity := 5 |} (fun w => ex_intro _ [] (logs_nil w))).
Defined.
