(* ===== verification/Workflow.v ===== *)
(** * The workflow loop

    [src/src/core/src/workflow/]: the outcomes of a phase turn, the counters
    of replanning, and the loop that runs a suite's phases under its budgets.
    An executor acts on a world [W] and emits frames of a type [F]. *)

From stdpp Require Import base list strings.
From Stdlib Require Import ZArith Lia.
From S2P Require Import Prelude.
From S2P Require Import RustStr.
From S2P Require Import Json.

Module WorkflowError.
Inductive t : Type :=
| HardCeiling (total : Z)
| PhaseBudget (total : Z)
| Stuck (waits : Z) (last : string)
| BacktrackCap (cap : Z)
| Failed (reason : string).

Definition display (e : t) : string :=
  match e with
  | HardCeiling total => "hard ceiling: total=" +:+ fmt_Z total
  | PhaseBudget total => "phase budget exhausted after " +:+ fmt_Z total +:+ " steps"
  | Stuck waits last => "stuck waiting " +:+ fmt_Z waits +:+ " times: " +:+ last
  | BacktrackCap cap => "replan backtrack cap " +:+ fmt_Z cap +:+ " reached"
  | Failed s => s
  end.
End WorkflowError.

Inductive TransitionIntent : Type := Annotation | Forward | Loopback.

#[global] Instance TransitionIntent_eq_dec : EqDecision TransitionIntent.
Proof. solve_decision. Defined.

Module PhaseDirective.
Inductive t (P R G : Type) : Type :=
| Transition (to_ : P) (intent : TransitionIntent) (reason_code : option R) (reason_detail : option Value)
| Block (phase : P) (kind : G) (reason : string).
End PhaseDirective.

Module PreTurnDirective.
Inductive t (G : Type) : Type :=
| Proceed
| FailFast (kind : G) (reason : string).
End PreTurnDirective.

(** The counters are [usize]; the cap is reported as a [u16]. *)
Definition next_replan_backtracks (current : Z) (intent : TransitionIntent) (is_backtrack : bool) (cap : Z)
  : Result Z WorkflowError.t :=
  match intent with
  | Annotation => Ok current
  | Forward => Ok 0%Z
  | Loopback =>
      if negb is_backtrack then Ok current
      else
        let next := sat_add usize_max current 1 in
        if Z.ltb cap next
        then Err (WorkflowError.BacktrackCap (if Z.leb cap u16_max then cap else u16_max))
        else Ok next
  end.

Module PhaseOutcome.
Inductive t (F : Type) : Type :=
| StayedWithProgress (detail : string)
| StayedWaiting (reason : string)
| TransitionCommitted
| Return (frames : list F)
| Failed (reason : string).
Arguments StayedWithProgress {F} detail.
Arguments StayedWaiting {F} reason.
Arguments TransitionCommitted {F}.
Arguments Return {F} frames.
Arguments Failed {F} reason.
End PhaseOutcome.

Record Config : Type := {
  max_phase_steps : nat;
  max_consecutive_waiting_idle : nat;
  max_consecutive_waiting_active : nat;
  max_total_steps : nat
}.

Definition default_config : Config := {|
  max_phase_steps := 50;
  max_consecutive_waiting_idle := 5;
  max_consecutive_waiting_active := 12;
  max_total_steps := 500
|}.

(** The trait [PhaseExecutor]. *)
Class PhaseExecutor (W F : Type) := {
  execute_turn : list F -> W -> PhaseOutcome.t F * list F * W;
  on_budget_exhausted : list F -> nat -> W -> list F * W;
  step_count : W -> nat * W
}.

Section run.
Context {W F : Type} `{!PhaseExecutor W F}.
Variable config : Config.

Definition Verdict : Type := Result (list F) (WorkflowError.t * list F).

Definition as_u32 (n : nat) : Z := cast u32_max (Z.of_nat n).

(** Whether a waiting turn was active, and the counter after it. *)
Definition after_waiting (before after consecutive_waiting : nat) : bool * nat :=
  let was_active := Nat.ltb (before + 2) after in
  (was_active, if was_active then consecutive_waiting + 1 else consecutive_waiting + 2).

(** The [while remaining_steps > 0] loop and what follows it; [None] when
    [fuel] iterations do not end it. *)
Fixpoint run_loop (fuel remaining_steps total_steps consecutive_waiting : nat) (out_frames : list F)
  (w : W) : option (Verdict * W) :=
  match fuel with
  | O => None
  | S fuel =>
      match remaining_steps with
      | O =>
          let '(out_frames, w) := on_budget_exhausted out_frames total_steps w in
          Some (Err (WorkflowError.PhaseBudget (as_u32 total_steps), out_frames), w)
      | S remaining_steps =>
          let total_steps := total_steps + 1 in
          if Nat.ltb (max_total_steps config) total_steps then
            let '(out_frames, w) := on_budget_exhausted out_frames total_steps w in
            Some (Err (WorkflowError.HardCeiling (as_u32 total_steps), out_frames), w)
          else
            let '(step_count_before, w) := step_count w in
            let '(outcome, out_frames, w) := execute_turn out_frames w in
            match outcome with
            | PhaseOutcome.StayedWithProgress _ =>
                run_loop fuel (max_phase_steps config) total_steps 0 out_frames w
            | PhaseOutcome.StayedWaiting reason =>
                let '(step_count_after, w) := step_count w in
                let '(was_active, consecutive_waiting) :=
                  after_waiting step_count_before step_count_after consecutive_waiting in
                let limit := if was_active then max_consecutive_waiting_active config
                             else max_consecutive_waiting_idle config in
                if Nat.leb limit consecutive_waiting then
                  Some (Err (WorkflowError.Stuck (as_u32 consecutive_waiting) reason, out_frames), w)
                else run_loop fuel remaining_steps total_steps consecutive_waiting out_frames w
            | PhaseOutcome.TransitionCommitted =>
                run_loop fuel remaining_steps total_steps 0 out_frames w
            | PhaseOutcome.Return frames => Some (Ok (out_frames ++ frames), w)
            | PhaseOutcome.Failed reason => Some (Err (WorkflowError.Failed reason, out_frames), w)
            end
      end
  end.

(** Every iteration counts a step, and the one past [max_total_steps] ends the
    loop, so [max_total_steps + 1] iterations are enough. *)
Definition run (w : W) : option (Verdict * W) :=
  run_loop (max_total_steps config + 1) (max_phase_steps config) 0 0 [] w.

(** ** Termination and budgets *)

(** An observer of the world that counts the turns executed. *)
Record counts_turns (count : W -> nat) : Prop := {
  count_turn frames w : count (execute_turn frames w).2 = count w + 1;
  count_steps w : count (step_count w).2 = count w;
  count_exhausted frames n w : count (on_budget_exhausted frames n w).2 = count w
}.

(** What a verdict says about the turns [k] the loop ran from its state. *)
Definition verdict_ok (remaining total k : nat) (v : Verdict) : Prop :=
  match v with
  | Err (WorkflowError.HardCeiling t, _) =>
      total + k = max_total_steps config /\ t = as_u32 (max_total_steps config + 1)
  | Err (WorkflowError.PhaseBudget t, _) => t = as_u32 (total + k) /\ remaining <= k
  | Err (WorkflowError.Stuck n _, _) =>
      exists c, n = as_u32 c /\ 1 <= k /\
        (max_consecutive_waiting_idle config <= c \/ max_consecutive_waiting_active config <= c)
  | Err (WorkflowError.BacktrackCap _, _) => False
  | Err (WorkflowError.Failed _, _) | Ok _ => 1 <= k
  end.

Lemma verdict_ok_mono remaining remaining' total k v :
  remaining <= S remaining' -> verdict_ok remaining' (total + 1) k v -> verdict_ok remaining total (S k) v.
Proof.
  intros Hr. unfold verdict_ok. destruct v as [f|[[] f]]; try (intros; lia).
  - intros [H1 H2]. split; [rewrite H1; f_equal; lia|lia].
  - intros (c & H1 & H2 & H3). exists c. split; [done|]. split; [lia|done].
Qed.

Lemma run_loop_spec count fuel remaining total waiting frames w :
  counts_turns count ->
  total <= max_total_steps config -> max_total_steps config < fuel + total ->
  remaining <= max_phase_steps config ->
  exists v w' k, run_loop fuel remaining total waiting frames w = Some (v, w') /\
    count w' = count w + k /\ total + k <= max_total_steps config /\ verdict_ok remaining total k v.
Proof.
  intros Hcount. revert remaining total waiting frames w.
  induction fuel as [|fuel IH]; intros remaining total waiting frames w Htot Hfuel Hrem; [lia|].
  cbn [run_loop]. destruct remaining as [|remaining].
  { pose proof (count_exhausted count Hcount frames total w) as Hc.
    destruct (on_budget_exhausted frames total w) as [fr w1].
    exists (Err (WorkflowError.PhaseBudget (as_u32 total), fr)), w1, 0. simpl in *.
    rewrite !Nat.add_0_r. repeat split; [done|done|lia]. }
  destruct (Nat.ltb_spec (max_total_steps config) (total + 1)) as [Hlt|Hle].
  { pose proof (count_exhausted count Hcount frames (total + 1) w) as Hc.
    destruct (on_budget_exhausted frames (total + 1) w) as [fr w1].
    exists (Err (WorkflowError.HardCeiling (as_u32 (total + 1)), fr)), w1, 0. simpl in *.
    rewrite !Nat.add_0_r. repeat split; [done|lia|lia|f_equal; lia]. }
  pose proof (count_steps count Hcount w) as Hc1. destruct (step_count w) as [before w1]. simpl in Hc1.
  pose proof (count_turn count Hcount frames w1) as Hc2.
  destruct (execute_turn frames w1) as [[outcome fr] w2]. simpl in Hc2.
  assert (forall remaining' waiting' w3, count w3 = count w + 1 ->
    remaining' <= max_phase_steps config -> S remaining <= S remaining' ->
    exists v w' k, run_loop fuel remaining' (total + 1) waiting' fr w3 = Some (v, w') /\
      count w' = count w + k /\ total + k <= max_total_steps config /\ verdict_ok (S remaining) total k v)
    as Hnext.
  { intros remaining' waiting' w3 Hw3 Hr1 Hr2.
    destruct (IH remaining' (total + 1) waiting' fr w3) as (v & w' & k & H1 & H2 & H3 & H4); try lia.
    exists v, w', (S k). repeat split; [done|lia|lia|]. by eapply verdict_ok_mono. }
  destruct outcome as [d|reason| |frames'|reason].
  - apply Hnext; lia.
  - pose proof (count_steps count Hcount w2) as Hc3. destruct (step_count w2) as [after w3]. simpl in Hc3.
    destruct (after_waiting before after waiting) as [active c].
    destruct (Nat.leb_spec (if active then max_consecutive_waiting_active config
      else max_consecutive_waiting_idle config) c) as [Hlim|_]; [|apply Hnext; lia].
    eexists _, w3, 1. split; [done|]. split; [lia|]. split; [lia|].
    exists c. split; [done|]. split; [lia|]. destruct active; lia.
  - apply Hnext; lia.
  - eexists _, w2, 1. split; [done|]. split; [lia|]. split; [lia|]. simpl; lia.
  - eexists _, w2, 1. split; [done|]. split; [lia|]. split; [lia|]. simpl; lia.
Qed.
End run.

(** C5: The workflow loop always ends.  Whatever the executor does, [run]
    returns a verdict after at most [max_total_steps] turns; it reports a hard
    ceiling only after exactly that many, an exhausted phase budget only after
    at least [max_phase_steps] turns and with their number, and being stuck
    only once a waiting limit is reached. *)
Theorem workflow_run_terminates {W F} `{!PhaseExecutor W F} (config : Config) (count : W -> nat) (w : W) :
  counts_turns count ->
  exists v w' k, run config w = Some (v, w') /\ count w' = count w + k /\
    k <= max_total_steps config /\ verdict_ok config (max_phase_steps config) 0 k v.
Proof. intros Hc. by apply run_loop_spec; [|lia|lia|]. Qed.

(** An executor that always waits, without any logged step; the world counts
    the turns. *)
#[local] Instance idle_executor : PhaseExecutor nat unit := {|
  execute_turn frames w := (PhaseOutcome.StayedWaiting "idle", frames, S w);
  on_budget_exhausted frames _ w := (frames, w);
  step_count w := (0, w)
|}.

Lemma workflow_run_terminates_witness :
  exists v w' k, run default_config 0 = Some (v, w') /\ w' = 0 + k /\
    k <= 500 /\ verdict_ok default_config 50 0 k v.
Proof.
  apply (workflow_run_terminates default_config (fun n => n) 0). split; intros; simpl; lia.
Defined.

(** The number of waits reported for a stuck workflow is not the number of
    waiting turns: an idle turn counts twice, so an executor that waits idly is
    reported as stuck "6 times" after three turns. *)
Theorem stuck_counts_idle_turns_twice :
  run default_config 0 = Some (Err (WorkflowError.Stuck 6 "idle", []), 3).
Proof. reflexivity. Qed.

(** The replan counter obeys its cap: it stays within it, is reset by a
    forward transition, is left alone by annotations and by loopbacks that are
    not backtracks, and reaching the cap stops the workflow. *)
Theorem replan_backtracks_within_cap current intent is_backtrack cap :
  in_range usize_max current -> in_range usize_max cap -> (current <= cap)%Z ->
  match next_replan_backtracks current intent is_backtrack cap with
  | Ok n => in_range usize_max n /\ (n <= cap)%Z /\
      (n = match intent with
           | Forward => 0
           | Annotation => current
           | Loopback => if is_backtrack then sat_add usize_max current 1 else current
           end)%Z
  | Err e => intent = Loopback /\ is_backtrack = true /\
      current = cap /\ e = WorkflowError.BacktrackCap (Z.min cap u16_max)
  end.
Proof.
  intros H1 H2 H3. unfold next_replan_backtracks.
  destruct intent; [int_solve|int_solve|]. destruct is_backtrack; simpl; [|int_solve].
  unfold_ints. destruct (Z.ltb_spec cap (Z.min 18446744073709551615 (current + 1))).
  - repeat split; [lia|]. destruct (Z.leb_spec cap 65535); f_equal; lia.
  - lia.
Qed.

Lemma replan_backtracks_within_cap_witness :
  match next_replan_backtracks 3 Loopback true 3 with
  | Ok n => in_range usize_max n /\ (n <= 3)%Z /\ (n = sat_add usize_max 3 1)%Z
  | Err e => Loopback = Loopback /\ true = true /\ (3 = 3)%Z /\
      e = WorkflowError.BacktrackCap (Z.min 3 u16_max)
  end.
Proof. apply (replan_backtracks_within_cap 3 Loopback true 3); int_solve. Defined.
