(* ===== verification/ErrorContext.v ===== *)
(** * Failure contexts

    [src/src/core/src/error_context.rs]: the text a failed tool call leaves in
    the prompt.  The whole error when it fits, otherwise an excerpt of the
    lines around keyword matches with the head and the tail.  The excerpt loop
    indexes its lines; [None] is the panic of an index out of bounds. *)

From stdpp Require Import base list strings sorting.
From Stdlib Require Import ZArith Lia.
From S2P Require Import Prelude.
From S2P Require Import RustStr.
From S2P Require Import Json.
From S2P Require Import Text.
From S2P Require Import SessionTypes.

Definition MIN_EXCERPT_CHARS : nat := 256.
Definition KEYWORD_CONTEXT_LINES_AFTER : nat := 9.

Definition default_error_markers : list string :=
  ["error"; "exception"; "panic"; "traceback"; "failed"; "failure"; "fatal"; "timeout"; "denied";
   "permission"; "cannot"; "not found"; "invalid"; "mismatched"; "expected"; "line "; "at "].

(** ** Line ranges *)

(** A half-open range [start, end) of line indices. *)
Definition range : Type := nat * nat.

(** The order of [sort_by_key(|(s, e)| ( *s, *e))]. *)
Definition range_le (a b : range) : Prop := a.1 < b.1 \/ (a.1 = b.1 /\ a.2 <= b.2).

#[global] Instance range_le_dec : RelDecision range_le.
Proof. intros a b. unfold range_le. apply _. Defined.

(** The loop of [merge_overlapping_ranges]; [rev_merged] is [merged] backwards,
    so that its head is [merged.last_mut()]. *)
Fixpoint merge_loop (ranges rev_merged : list range) : list range :=
  match ranges with
  | [] => rev rev_merged
  | (s, e) :: rest =>
      if Nat.leb e s then merge_loop rest rev_merged
      else match rev_merged with
           | (ms, me) :: m =>
               if Nat.leb s me then merge_loop rest ((Nat.min ms s, Nat.max me e) :: m)
               else merge_loop rest ((s, e) :: rev_merged)
           | [] => merge_loop rest [(s, e)]
           end
  end.

Definition merge_overlapping_ranges (ranges : list range) : list range :=
  merge_loop (merge_sort range_le ranges) [].

(** Whether a line matches a pattern: [ll.contains(p)]. *)
Definition matches (patterns : list string) (line : string) : bool :=
  let ll := to_ascii_lowercase line in
  existsb (fun p => negb (str_is_empty p) && contains ll p) patterns.

(** The [for (i, line) in lines.iter().enumerate()] loop. *)
Fixpoint keyword_ranges (patterns : list string) (total i : nat) (lines : list string) : list range :=
  match lines with
  | [] => []
  | line :: rest =>
      let tl := keyword_ranges patterns total (S i) rest in
      if matches patterns line
      then (i - 3, Nat.min (i + KEYWORD_CONTEXT_LINES_AFTER) total) :: tl
      else tl
  end.

Definition excerpt_ranges (patterns : list string) (lines : list string) : list range :=
  let n := length lines in
  keyword_ranges patterns n 0 lines
    ++ [(0, Nat.min 10 n)]
    ++ (if Nat.ltb (Nat.min 10 n) n then [(n - Nat.min 10 n, n)] else []).

(** ** The excerpt *)

Definition omitted_marker (max_chars included_lines total_lines : nat) : string :=
  nl +:+ "...omitted (excerpt truncated; max_chars=" +:+ fmt_nat max_chars +:+ ", included_lines="
     +:+ fmt_nat included_lines +:+ ", total_lines=" +:+ fmt_nat total_lines +:+ ")".

(** What a loop does: [Cut] is the early return. *)
Inductive emitted : Type :=
| Cut (s : string)
| More (out : string) (included_lines : nat).

Section excerpt.
Variables (lines : list string) (max_chars : nat).

(** [for i in s..e], [n] iterations from [i]. *)
Fixpoint emit_lines (n i : nat) (out : string) (included_lines : nat) : option emitted :=
  match n with
  | O => Some (More out included_lines)
  | S n =>
      match lines !! i with
      | None => None
      | Some line =>
          let out := if is_blank line then out +:+ nl else out +:+ line +:+ nl in
          let included_lines := S included_lines in
          if Nat.leb max_chars (char_count out) then
            let marker := omitted_marker max_chars included_lines (length lines) in
            let keep := max_chars - char_count marker in
            Some (Cut (truncate_chars out keep +:+ marker))
          else emit_lines n (S i) out included_lines
      end
  end.

(** [for (s, e) in merged] *)
Fixpoint emit_ranges (merged : list range) (out : string) (included_lines : nat) : option string :=
  match merged with
  | [] => Some (truncate_chars out max_chars)
  | (s, e) :: rest =>
      let out := if str_is_empty out then out else out +:+ nl in
      let out := out +:+ "--- excerpt lines " +:+ fmt_nat (s + 1) +:+ ".." +:+ fmt_nat e +:+ " ---" +:+ nl in
      match emit_lines (e - s) s out included_lines with
      | None => None
      | Some (Cut r) => Some r
      | Some (More out included_lines) => emit_ranges rest out included_lines
      end
  end.
End excerpt.

Definition excerpt_by_keywords (text : string) (max_chars : nat) (patterns : list string) : option string :=
  let max_chars := Nat.max max_chars MIN_EXCERPT_CHARS in
  let ls := lines text in
  match ls with
  | [] => Some (truncate_chars text max_chars)
  | _ => emit_ranges ls max_chars (merge_overlapping_ranges (excerpt_ranges patterns ls)) EmptyString 0
  end.

(** ** The error text *)

(** [serde_json::to_string_pretty]. *)
Class JsonPretty := to_string_pretty : Value -> Result string string.

Definition interesting (path : string) : bool :=
  let p := to_ascii_lowercase path in
  existsb (contains p) ["stderr"; "stdout"; "logs"; "trace"; "message"; "detail"; "error"].

(** [extract_common_string_fields]; [levels] is [max_depth + 1 - depth], so that
    [depth > max_depth] is [levels = 0]. *)
Fixpoint extract_common_string_fields (levels : nat) (v : Value) (out : list (string * string)) (path : string)
  : list (string * string) :=
  match levels with
  | O => out
  | S levels =>
      match v with
      | VString s =>
          if interesting path && negb (is_blank s) then btree_insert path s out else out
      | VObject m =>
          fold_left (fun out '(k, vv) =>
            let next := if str_is_empty path then k else path +:+ "." +:+ k in
            extract_common_string_fields levels vv out next) m out
      | VArray arr =>
          snd (fold_left (fun '(i, out) vv =>
            let next := path +:+ "[" +:+ fmt_nat i +:+ "]" in
            (S i, extract_common_string_fields levels vv out next)) arr (0, out))
      | _ => out
      end
  end.

Section blob.
Context `{!JsonPretty}.

Definition extracted_fields (o : ToolObservation.t) : list (string * string) :=
  extract_common_string_fields 7 (VObject (ToolObservation.extra o)) [] EmptyString.

Definition error_parts (o : ToolObservation.t) : list string :=
  match ToolObservation.errors o with
  | [] => []
  | errors => "errors:" :: List.filter (fun e => negb (is_blank e)) errors
  end.

Definition extra_parts (o : ToolObservation.t) : list string :=
  match extracted_fields o with
  | [] =>
      match ToolObservation.extra o with
      | [] => []
      | extra =>
          match to_string_pretty (VObject extra) with
          | Ok s => ["extra_json:"; s]
          | Err _ => []
          end
      end
  | extracted =>
      "extra:" :: flat_map (fun '(k, v) => if is_blank v then [] else ["-- " +:+ k +:+ " --"; v]) extracted
  end.

Definition build_error_blob (o : ToolObservation.t) : string :=
  match (error_parts o ++ extra_parts o)%list with
  | [] =>
      match to_string_pretty (VObject
              [("errors", VArray (map VString (ToolObservation.errors o)));
               ("extra", VObject (ToolObservation.extra o));
               ("ok", VBool (ToolObservation.ok o));
               ("warnings", VArray (map VString (ToolObservation.warnings o)))]) with
      | Ok s => s
      | Err _ => "{}"
      end
  | parts => join nl parts
  end.

Definition render_failure_context (observation : ToolObservation.t) (max_chars : nat) : option string :=
  let max_chars := Nat.max max_chars MIN_EXCERPT_CHARS in
  let full := build_error_blob observation in
  if Nat.leb (char_count full) max_chars then Some full
  else excerpt_by_keywords full max_chars default_error_markers.
End blob.

(** ** Merging keeps the lines and separates the ranges *)

Definition covers (rs : list range) (i : nat) : Prop := exists r, r ∈ rs /\ r.1 <= i < r.2.

(** Ranges in increasing order, non-empty, with a gap between each two, from
    [lo] on and up to [n]. *)
Fixpoint separated (lo n : nat) (rs : list range) : Prop :=
  match rs with
  | [] => True
  | (s, e) :: rest => lo <= s /\ s < e /\ e <= n /\ separated (S e) n rest
  end.

Lemma covers_cons r rs i : covers (r :: rs) i <-> r.1 <= i < r.2 \/ covers rs i.
Proof. unfold covers. setoid_rewrite elem_of_cons. naive_solver. Qed.

Lemma covers_app rs rs' i : covers (rs ++ rs') i <-> covers rs i \/ covers rs' i.
Proof. unfold covers. setoid_rewrite elem_of_app. naive_solver. Qed.

Lemma covers_nil i : ~ covers [] i.
Proof. intros (r & H & _). by apply elem_of_nil in H. Qed.

Lemma list_elem_of_rev {A} (x : A) l : x ∈ rev l <-> x ∈ l.
Proof. by rewrite !list_elem_of_In, <- in_rev. Qed.

Lemma covers_rev rs i : covers (rev rs) i <-> covers rs i.
Proof. unfold covers. by setoid_rewrite list_elem_of_rev. Qed.

Lemma separated_app lo n rs s e :
  separated lo n rs -> (forall r, r ∈ rs -> r.2 < s) -> lo <= s -> s < e -> e <= n ->
  separated lo n (rs ++ [(s, e)]).
Proof.
  revert lo. induction rs as [|[s0 e0] rs IH]; intros lo Hs Hb ???; [done|].
  destruct Hs as (?&?&?&Hs). simpl. repeat split; try done.
  apply IH; try done; intros; [by apply Hb, elem_of_cons; right|].
  specialize (Hb (s0, e0) ltac:(by apply elem_of_cons; left)). simpl in Hb. lia.
Qed.

Lemma separated_widen lo n rs ms me e :
  separated lo n (rs ++ [(ms, me)]) -> e <= n -> separated lo n (rs ++ [(ms, Nat.max me e)]).
Proof.
  intros H He. revert lo H. induction rs as [|[s0 e0] rs IH]; intros lo; simpl; [lia|].
  intros (?&?&?&?). repeat split; try done. by apply IH.
Qed.

(** What is merged so far: [rev_merged] backwards is separated, every end is
    at most [me], and the ranges still to come start at or after the last
    start. *)
Lemma merge_loop_spec n ranges rev_merged :
  Sorted range_le ranges ->
  (forall r, r ∈ ranges -> r.2 <= n) ->
  separated 0 n (rev rev_merged) ->
  (forall r r', r ∈ ranges -> r' ∈ rev_merged -> r'.1 <= r.1) ->
  (match rev_merged with [] => True | m :: rest => forall r', r' ∈ rest -> r'.2 < m.1 end) ->
  separated 0 n (merge_loop ranges rev_merged) /\
  forall i, covers (merge_loop ranges rev_merged) i <-> covers ranges i \/ covers rev_merged i.
Proof.
  revert rev_merged. induction ranges as [|[s e] ranges IH]; intros rm Hsort Hn Hsep Hle Hlast; simpl.
  { split; [done|]. intros i. rewrite covers_rev. pose proof (covers_nil i). tauto. }
  assert (Sorted range_le ranges) as Hsort' by by inversion Hsort.
  assert (forall r, r ∈ ranges -> s <= r.1) as Hs.
  { apply Sorted_StronglySorted in Hsort; [|unfold range_le; intros [??] [??] [??]; simpl; lia].
    apply StronglySorted_inv in Hsort as [_ Hf]. rewrite Forall_forall in Hf.
    intros r Hr%Hf. unfold range_le in Hr. simpl in Hr. lia. }
  assert (forall r, r ∈ ranges -> r.2 <= n) as Hn' by (intros; apply Hn; by apply elem_of_cons; right).
  pose proof (Hn (s, e) ltac:(by apply elem_of_cons; left)) as He. simpl in He.
  assert (forall r', r' ∈ rm -> r'.1 <= s) as Hle0
    by (intros r' Hr'; apply (Hle (s, e)); [by apply elem_of_cons; left|done]).
  assert (forall r r', r ∈ ranges -> r' ∈ rm -> r'.1 <= r.1) as Hle'
    by (intros; apply Hle; [by apply elem_of_cons; right|done]).
  setoid_rewrite covers_cons. cbn [fst snd]. destruct (Nat.leb_spec e s) as [|Hse].
  { destruct (IH rm) as [H1 H2]; try done. split; [done|]. intros i. rewrite H2.
    assert (~ s <= i < e) by lia. tauto. }
  destruct rm as [|[ms me] m].
  { destruct (IH [(s, e)]) as [H1 H2]; try done.
    - simpl. lia.
    - intros r r' Hr Hr'. apply list_elem_of_singleton in Hr' as ->. by apply Hs.
    - intros r' Hr'. by apply elem_of_nil in Hr'.
    - split; [done|]. intros i. rewrite H2, covers_cons. tauto. }
  specialize (Hle0 (ms, me) ltac:(by apply elem_of_cons; left)) as Hms. simpl in Hms.
  cbn [rev] in Hsep. destruct (Nat.leb_spec s me) as [Hov|Hgap].
  - rewrite (Nat.min_l ms s) by lia. pose proof (separated_widen _ _ _ _ _ e Hsep He) as Hsep'.
    destruct (IH ((ms, Nat.max me e) :: m)) as [H1 H2]; try done.
    + intros r r' Hr [->|Hr']%elem_of_cons; [simpl; specialize (Hs r Hr); lia|].
      apply Hle'; [done|]. by apply elem_of_cons; right.
    + split; [done|]. intros i. rewrite H2, !covers_cons. simpl.
      assert (ms <= i < Nat.max me e <-> ms <= i < me \/ s <= i < e) by lia. tauto.
  - destruct (IH ((s, e) :: (ms, me) :: m)) as [H1 H2]; try done.
    + cbn [rev]. apply separated_app; try done; try lia.
      intros r Hr. apply elem_of_app in Hr as [Hr|Hr%list_elem_of_singleton]; [|subst r; simpl; lia].
      rewrite list_elem_of_rev in Hr. specialize (Hlast _ Hr). simpl in Hlast. lia.
    + intros r r' Hr [->|Hr']%elem_of_cons; [by apply Hs|]. by apply Hle'.
    + intros r' [->|Hr']%elem_of_cons; [done|]. specialize (Hlast _ Hr'). simpl in *. lia.
    + split; [done|]. intros i. rewrite H2, !covers_cons. simpl. tauto.
Qed.

Lemma merge_spec n ranges :
  (forall r, r ∈ ranges -> r.2 <= n) ->
  separated 0 n (merge_overlapping_ranges ranges) /\
  forall i, covers (merge_overlapping_ranges ranges) i <-> covers ranges i.
Proof.
  intros Hn. unfold merge_overlapping_ranges.
  assert (Total range_le) by (intros [a b] [c d]; unfold range_le; simpl; lia).
  pose proof (merge_sort_Permutation range_le ranges) as HP.
  destruct (merge_loop_spec n (merge_sort range_le ranges) []) as [H1 H2]; try done.
  - by apply Sorted_merge_sort.
  - intros r Hr. apply Hn. by rewrite <- HP.
  - intros r r' _ Hr'. by apply elem_of_nil in Hr'.
  - split; [done|]. intros i. rewrite H2. unfold covers at 1 3. setoid_rewrite HP.
    pose proof (covers_nil i). tauto.
Qed.

Lemma keyword_ranges_spec patterns total i ls :
  (forall r, r ∈ keyword_ranges patterns total i ls -> r.2 <= total) /\
  forall j, covers (keyword_ranges patterns total i ls) j <->
    exists k line, ls !! k = Some line /\ matches patterns line = true /\
      i + k - 3 <= j < Nat.min (i + k + KEYWORD_CONTEXT_LINES_AFTER) total.
Proof.
  revert i. induction ls as [|line ls IH]; intros i; cbn [keyword_ranges].
  { split; [intros r Hr; by apply elem_of_nil in Hr|]. intros j. split; [by intros ?%covers_nil|].
    intros (k & l & H & _). by rewrite lookup_nil in H. }
  destruct (IH (S i)) as [H1 H2]. split.
  - destruct (matches patterns line); [|done]. intros r [->|Hr]%elem_of_cons; [simpl; lia|by apply H1].
  - intros j. transitivity ((matches patterns line = true /\
        i - 3 <= j < Nat.min (i + KEYWORD_CONTEXT_LINES_AFTER) total) \/
      covers (keyword_ranges patterns total (S i) ls) j).
    { destruct (matches patterns line); [rewrite covers_cons; simpl; tauto|].
      split; [tauto|]. intros [[? _]|?]; done. }
    rewrite H2. split.
    + intros [[Hm Hj]|(k & l & Hk & Hm & Hj)].
      * exists 0, line. by rewrite Nat.add_0_r.
      * exists (S k), l. by rewrite Nat.add_succ_r.
    + intros ([|k] & l & Hk & Hm & Hj); simpl in Hk.
      * left. simplify_eq. by rewrite Nat.add_0_r in Hj.
      * right. exists k, l. by rewrite Nat.add_succ_r in Hj.
Qed.

(** The excerpt of an error shows exactly the lines near a match and the
    two ends: the merged ranges are in order, non-empty, pairwise separated and
    inside the text, and line [j] is in one of them exactly when it is at most
    three lines before or eight after a line that contains one of the
    patterns, or among the first or the last ten lines. *)
Theorem excerpt_ranges_cover patterns ls :
  let n := length ls in
  let merged := merge_overlapping_ranges (excerpt_ranges patterns ls) in
  separated 0 n merged /\
  forall j, covers merged j <-> j < n /\
    ((exists k line, ls !! k = Some line /\ matches patterns line = true /\ k - 3 <= j < k + 9) \/
     j < 10 \/ n - 10 <= j).
Proof.
  intros n merged. destruct (keyword_ranges_spec patterns n 0 ls) as [Hk1 Hk2].
  destruct (merge_spec n (excerpt_ranges patterns ls)) as [H1 H2].
  { intros r. unfold excerpt_ranges. fold n. rewrite !elem_of_app.
    intros [Hr|[Hr%list_elem_of_singleton|Hr]]; [by apply Hk1|subst r; cbn [snd]; lia|].
    destruct (Nat.ltb _ _); [|by apply elem_of_nil in Hr]. apply list_elem_of_singleton in Hr as ->. cbn [snd]. lia. }
  split; [done|]. intros j. unfold merged. rewrite H2. unfold excerpt_ranges. fold n.
  rewrite !covers_app, Hk2, covers_cons. unfold KEYWORD_CONTEXT_LINES_AFTER. cbn [fst snd Nat.add].
  destruct (Nat.ltb_spec (Nat.min 10 n) n) as [Hlt|Hge]; rewrite ?covers_cons; cbn [fst snd];
    pose proof (covers_nil j) as Hnil; split.
  all: try (intros [(k & l & Hk & Hm & Hj)|[[Hj|?]|[Hj|?]]]; try done; split; try lia).
  all: try (intros [(k & l & Hk & Hm & Hj)|[[Hj|?]|?]]; try done; split; try lia).
  all: try (intros [Hj [(k & l & Hk & Hm & Hj')|[Hj'|Hj']]]).
  all: first [left; exists k, l; repeat split; (done || lia) | right; lia
    | right; left; left; lia | right; right; left; lia].
Qed.

(** ** The excerpt fits *)

Lemma split_byte_length sep s :
  length (split_byte sep s) <= S (String.length s) /\
  (last (split_byte sep s) = Some EmptyString \/ length (split_byte sep s) <= String.length s).
Proof.
  induction s as [|a s [IH1 IH2]]; simpl; [auto|].
  destruct (Ascii.eqb a sep); simpl; [destruct (split_byte sep s) as [|w [|w' ws]] eqn:E; simpl in *; naive_solver lia|].
  destruct (split_byte sep s) as [|w [|w' ws]]; simpl in *; [lia|lia|].
  split; [lia|]. destruct IH2; [by left|right; lia].
Qed.

Lemma lines_length s : length (lines s) <= String.length s.
Proof.
  unfold lines. destruct (split_byte_length (Ascii.ascii_of_nat 10) s) as [H1 H2].
  destruct (last (split_byte _ s)) as [[|a l]|] eqn:E; simpl; [| |lia].
  - rewrite length_map, length_take. lia.
  - rewrite length_app, length_map, length_take. simpl. destruct H2 as [[=]|H2].
    assert (split_byte (Ascii.ascii_of_nat 10) s <> []) by (intros H; by rewrite H in E).
    destruct (split_byte (Ascii.ascii_of_nat 10) s); [done|]. simpl in *. lia.
Qed.

Lemma omitted_marker_length a b c :
  (Z.of_nat a <= usize_max)%Z -> (Z.of_nat b <= usize_max)%Z -> (Z.of_nat c <= usize_max)%Z ->
  char_count (omitted_marker a b c) <= MIN_EXCERPT_CHARS.
Proof.
  intros Ha%fmt_nat_length Hb%fmt_nat_length Hc%fmt_nat_length.
  etransitivity; [apply char_count_le_length|]. unfold omitted_marker, MIN_EXCERPT_CHARS.
  rewrite !length_app_str. simpl. lia.
Qed.

Section fits.
Variables (ls : list string) (max_chars : nat).
Hypothesis Hmin : MIN_EXCERPT_CHARS <= max_chars.
Hypothesis Hmax : (Z.of_nat max_chars <= usize_max)%Z.
Hypothesis Hlen : (Z.of_nat (length ls) <= usize_max)%Z.

Lemma emit_lines_spec n i out inc :
  i + n <= length ls -> inc <= i ->
  (exists s, emit_lines ls max_chars n i out inc = Some (Cut s) /\ char_count s <= max_chars) \/
  exists out', emit_lines ls max_chars n i out inc = Some (More out' (inc + n)).
Proof.
  revert i out inc. induction n as [|n IH]; intros i out inc Hi Hinc; simpl.
  { right. exists out. by rewrite Nat.add_0_r. }
  destruct (lookup_lt_is_Some_2 ls i) as [line ->]; [lia|].
  set (out' := if is_blank line then _ else _). clearbody out'. case_match.
  - left. eexists. split; [done|]. etransitivity; [apply char_count_app_le|].
    set (m := omitted_marker _ _ _).
    assert (char_count m <= MIN_EXCERPT_CHARS) by (apply omitted_marker_length; lia).
    pose proof (char_count_truncate out' (max_chars - char_count m)). lia.
  - destruct (IH (S i) out' (S inc)) as [?|[out2 H2]]; [lia|lia|by left|right].
    exists out2. rewrite H2. do 2 f_equal. lia.
Qed.

Lemma emit_ranges_spec merged lo out inc :
  separated lo (length ls) merged -> inc <= lo ->
  exists s, emit_ranges ls max_chars merged out inc = Some s /\ char_count s <= max_chars.
Proof.
  revert lo out inc. induction merged as [|[s e] merged IH]; intros lo out inc Hs Hinc; cbn [emit_ranges].
  { eexists. split; [done|]. apply char_count_truncate. }
  destruct Hs as (?&?&?&Hs).
  set (out1 := (if str_is_empty out then out else out +:+ nl) +:+ _). clearbody out1.
  destruct (emit_lines_spec (e - s) s out1 inc) as [(r & -> & Hr)|[out2 ->]]; [lia|lia|eauto|].
  apply (IH (S e)); [done|lia].
Qed.
End fits.

Lemma excerpt_fits text max_chars patterns :
  (Z.of_nat max_chars <= usize_max)%Z -> (Z.of_nat (String.length text) <= usize_max)%Z ->
  exists s, excerpt_by_keywords text max_chars patterns = Some s /\
            char_count s <= Nat.max max_chars MIN_EXCERPT_CHARS.
Proof.
  intros Hm Ht. unfold excerpt_by_keywords. set (m := Nat.max max_chars MIN_EXCERPT_CHARS).
  pose proof (lines_length text) as Hl.
  destruct (lines text) as [|l ls]; [eexists; split; [done|apply char_count_truncate]|].
  apply (emit_ranges_spec (l :: ls) m ltac:(lia)) with (lo := 0); [| |apply excerpt_ranges_cover|lia].
  - unfold m, MIN_EXCERPT_CHARS. unfold usize_max, u64_max in *. lia.
  - lia.
Qed.

(** The context of a failed tool call always fits: [render_failure_context]
    never panics on an index, keeps the whole error text when it has at most
    [max_chars] characters (256 if that is less), and otherwise returns an
    excerpt that has at most that many, the truncation marker included. *)
Theorem failure_context_fits `{!JsonPretty} o max_chars :
  (Z.of_nat max_chars <= usize_max)%Z ->
  (Z.of_nat (String.length (build_error_blob o)) <= usize_max)%Z ->
  exists s, render_failure_context o max_chars = Some s /\
    char_count s <= Nat.max max_chars MIN_EXCERPT_CHARS /\
    (char_count (build_error_blob o) <= max_chars -> s = build_error_blob o).
Proof.
  intros Hm Hb. unfold render_failure_context. case_match eqn:E.
  - apply Nat.leb_le in E. eauto.
  - apply Nat.leb_gt in E.
    destruct (excerpt_fits (build_error_blob o) (Nat.max max_chars MIN_EXCERPT_CHARS) default_error_markers)
      as (s & -> & Hs); [unfold MIN_EXCERPT_CHARS, usize_max, u64_max in *; lia|done|].
    eexists. split; [done|]. split; [lia|lia].
Qed.

(** An error of a hundred lines under the smallest budget. *)
Lemma failure_context_fits_witness :
  let o := ToolObservation.from_failure (join nl (replicate 100 "fatal")) in
  exists s, render_failure_context (H := fun _ => Ok "{}") o 100 = Some s /\
    char_count s <= Nat.max 100 MIN_EXCERPT_CHARS /\
    (char_count (build_error_blob (H := fun _ => Ok "{}") o) <= 100 ->
     s = build_error_blob (H := fun _ => Ok "{}") o).
Proof. intros o. apply (failure_context_fits (H := fun _ => Ok "{}") o 100); vm_compute; done. Defined.

Example a_long_error_is_cut :
  let o := ToolObservation.from_failure (join nl (replicate 100 "fatal")) in
  match render_failure_context (H := fun _ => Ok "{}") o 100 with
  | Some s => Nat.leb (char_count s) 256 && contains s "fatal" && contains s "excerpt truncated"
  | None => false
  end = true.
Proof. by vm_compute. Qed.
