(* ===== verification/JsonRepair.v ===== *)
(** * Repair of almost-JSON text

    [src/src/core/src/json_repair.rs]: the text of a model that should be JSON
    is parsed after repairs.  [serde_json] is a parameter; the repairs and the
    extraction of bracketed values out of prose are the program's own.  The
    loops run over characters, so a text is the list of its characters. *)

From stdpp Require Import base list strings.
From Stdlib Require Import ZArith Lia.
From S2P Require Import Prelude.
From S2P Require Import RustStr.
From S2P Require Import Json.

(** [serde_json::from_str::<T>] and [serde_json::from_value::<T>]. *)
Class DeserializeOwned (T : Type) := {
  from_str : string -> Result T string;
  from_value : Value -> Result T string
}.

(** The first item of [Deserializer::from_str(s).into_iter::<Value>()], when it
    is a value, with the byte offset after it. *)
Class JsonStream := first_value : string -> option (Value * nat).

Definition is_ch (c : string) (a : string) : bool := String.eqb c a.

(** [c as u32] of a one-byte character. *)
Definition ascii_code (c : string) : option nat :=
  match c with
  | String a EmptyString => Some (Ascii.nat_of_ascii a)
  | _ => None
  end.

(** ** Control characters in string literals *)

(** What the match on a character inside a literal pushes. *)
Definition escape_char (ch : string) : list string :=
  match ascii_code ch with
  | Some 10 => [backslash; "n"]
  | Some 13 => [backslash; "r"]
  | Some 9 => [backslash; "t"]
  | Some 8 => [backslash; "b"]
  | Some 12 => [backslash; "f"]
  | Some n =>
      if Nat.ltb n 32 then backslash :: "u" :: chars (fmt_hex 4 (Z.of_nat n)) else [ch]
  | None => [ch]
  end.

(** The loop, with what is pushed to [out] as its result. *)
Fixpoint escape_loop (in_str esc : bool) (cs : list string) : list string :=
  match cs with
  | [] => []
  | ch :: rest =>
      if in_str then
        if esc then ch :: escape_loop true false rest
        else if is_ch ch backslash then ch :: escape_loop true true rest
        else if is_ch ch dquote then ch :: escape_loop false false rest
        else escape_char ch ++ escape_loop true false rest
      else if esc then ch :: escape_loop false false rest
      else if is_ch ch dquote then ch :: escape_loop true false rest
      else if is_ch ch backslash then ch :: escape_loop false true rest
      else ch :: escape_loop false false rest
  end.

Definition escape_control_chars_in_json_strings (s : string) : string :=
  concat_strings (escape_loop false false (chars s)).

(** ** Invalid escapes in string literals *)

Definition valid_escape (next : string) : bool :=
  existsb (String.eqb next) [dquote; backslash; "/"; "b"; "f"; "n"; "r"; "t"; "u"].

Fixpoint repair_loop (in_str : bool) (cs : list string) : list string :=
  match cs with
  | [] => []
  | ch :: rest =>
      if negb in_str then ch :: repair_loop (is_ch ch dquote) rest
      else if is_ch ch dquote then ch :: repair_loop false rest
      else if is_ch ch backslash then
        match rest with
        | [] => [ch]
        | next :: rest' =>
            if valid_escape next then ch :: next :: repair_loop true rest'
            else backslash :: backslash :: repair_loop true rest
        end
      else ch :: repair_loop true rest
  end.

Definition repair_invalid_json_escapes (s : string) : string :=
  concat_strings (repair_loop false (chars s)).

(** ** Values in prose *)

Definition is_open (ch : string) : bool := is_ch ch "{" || is_ch ch "[".

(** [s[i..]] from the first opening bracket. *)
Fixpoint find_start (cs : list string) : option (list string) :=
  match cs with
  | [] => None
  | ch :: rest => if is_open ch then Some cs else find_start rest
  end.

Definition push_front (ch : string) (r : option (list string * list string))
  : option (list string * list string) :=
  match r with
  | Some (piece, rest) => Some (ch :: piece, rest)
  | None => None
  end.

(** The scan from [st]: the characters up to [end], and the rest.  [stack] has
    its top first. *)
Fixpoint scan_value (stack : list string) (in_str esc : bool) (cs : list string)
  : option (list string * list string) :=
  match cs with
  | [] => None
  | ch :: rest =>
      let close opener :=
        match stack with
        | top :: stack' =>
            if is_ch top opener && match stack' with [] => true | _ => false end
            then Some ([ch], rest)
            else push_front ch (scan_value stack' false esc rest)
        | [] => None
        end in
      match stack with
      | [] => push_front ch (scan_value [ch] in_str esc rest)
      | _ =>
          if in_str then
            if esc then push_front ch (scan_value stack true false rest)
            else if is_ch ch backslash then push_front ch (scan_value stack true true rest)
            else if is_ch ch dquote then push_front ch (scan_value stack false esc rest)
            else push_front ch (scan_value stack true esc rest)
          else if is_ch ch dquote then push_front ch (scan_value stack true esc rest)
          else if is_open ch then push_front ch (scan_value (ch :: stack) false esc rest)
          else if is_ch ch "}" then close "{"
          else if is_ch ch "]" then close "["
          else push_front ch (scan_value stack false esc rest)
      end
  end.

(** [while i < s.len() && out.len() < max]; [room] is [max - out.len()], and
    every iteration consumes a character. *)
Fixpoint extract_loop (fuel room : nat) (cs : list string) : list string :=
  match fuel, room with
  | S fuel, S room =>
      match find_start cs with
      | None => []
      | Some from =>
          match scan_value [] false false from with
          | None => []
          | Some (piece, rest) => concat_strings piece :: extract_loop fuel room rest
          end
      end
  | _, _ => []
  end.

Definition extract_all_json_values (s : string) (max : nat) : list string :=
  let cs := chars s in extract_loop (length cs) max cs.

(** ** Parsing with repairs *)

Section parse.
Context `{!JsonStream}.

Definition try_first_json_value (s : string) : option Value := option_map fst (first_value s).

Definition find_first_json_object_end (s : string) : option nat := option_map snd (first_value s).

(** [if let Ok(v) = r { return Ok(v); }] *)
Definition or_else {A} (r : Result A string) (k : Result A string) : Result A string :=
  match r with Ok v => Ok v | Err _ => k end.

(** The loop over the extracted texts. *)
Fixpoint first_parsed {T} `{!DeserializeOwned T} (vals : list string) (k : Result T string) : Result T string :=
  match vals with
  | [] => k
  | vtxt :: vals => or_else (from_str vtxt) (first_parsed vals k)
  end.

Definition resilient_parse {T} `{!DeserializeOwned T} (text : string) : Result T string :=
  let s := trim text in
  or_else (from_str s)
    (or_else (match try_first_json_value s with Some first => from_value first | None => Err EmptyString end)
      (or_else (from_str (escape_control_chars_in_json_strings s))
        (or_else (from_str (repair_invalid_json_escapes s))
          (first_parsed (extract_all_json_values s 8)
            (Err "LLM response did not contain valid JSON"))))).

Definition resilient_parse_string_field `{!DeserializeOwned Value} (raw_json : string) : Result Value string :=
  or_else (from_str raw_json)
    (or_else (from_str (escape_control_chars_in_json_strings raw_json))
      (let repaired_esc := repair_invalid_json_escapes raw_json in
       or_else (from_str repaired_esc)
         (res_map_err (fun e => "not valid JSON string: " +:+ e)
           (from_str (escape_control_chars_in_json_strings repaired_esc))))).
End parse.

(** ** The repairs leave sound text alone *)

Definition plain (c : string) : Prop :=
  is_ch c backslash = false /\ is_ch c dquote = false /\ escape_char c = [c].

Lemma escape_char_shape ch :
  is_ch ch backslash = false -> is_ch ch dquote = false ->
  plain ch \/ exists x xs, escape_char ch = backslash :: x :: xs /\ Forall plain xs /\
    is_char x = true /\ Forall (fun c => is_char c = true) xs.
Proof.
  intros Hb Hq. unfold plain. destruct ch as [|a [|b s]]; [by left|..|by left].
  destruct a as [[] [] [] [] [] [] [] []];
    first [left; by vm_compute
          | right; eexists _, _; split; [by vm_compute|];
            split; [repeat constructor|split; [done|repeat constructor]]].
Qed.

Lemma escape_loop_plain xs t :
  Forall plain xs -> escape_loop true false (xs ++ t) = xs ++ escape_loop true false t.
Proof.
  induction 1 as [|x xs (Hb & Hq & Hx) _ IH]; [done|]. cbn [app escape_loop].
  by rewrite Hb, Hq, Hx, IH.
Qed.

Lemma escape_loop_idem in_str esc cs :
  escape_loop in_str esc (escape_loop in_str esc cs) = escape_loop in_str esc cs.
Proof.
  revert in_str esc. induction cs as [|ch cs IH]; intros in_str esc; [done|]. cbn [escape_loop].
  destruct in_str, esc; cbn [escape_loop]; try (by rewrite IH).
  - destruct (is_ch ch backslash) eqn:Hb; [cbn [escape_loop]; by rewrite Hb, IH|].
    destruct (is_ch ch dquote) eqn:Hq; [cbn [escape_loop]; by rewrite Hb, Hq, IH|].
    destruct (escape_char_shape ch Hb Hq) as [(_ & _ & E)|(x & xs & -> & Hxs & _)].
    + rewrite E. cbn [app escape_loop]. by rewrite Hb, Hq, E, IH.
    + cbn [app escape_loop]. change (is_ch backslash backslash) with true. cbn [escape_loop].
      by rewrite escape_loop_plain, IH.
  - destruct (is_ch ch dquote) eqn:Hq; [cbn [escape_loop]; by rewrite Hq, IH|].
    destruct (is_ch ch backslash) eqn:Hb; cbn [escape_loop]; by rewrite Hq, Hb, IH.
Qed.

Definition all_chars (cs : list string) : Prop := Forall (fun c => is_char c = true) cs.

Lemma escape_loop_chars in_str esc cs : all_chars cs -> all_chars (escape_loop in_str esc cs).
Proof.
  intros H. revert in_str esc. induction H as [|ch cs Hch _ IH]; intros in_str esc; [constructor|].
  cbn [escape_loop].
  destruct in_str, esc, (is_ch ch backslash) eqn:Hb, (is_ch ch dquote) eqn:Hq;
    try (constructor; [done|apply IH]).
  destruct (escape_char_shape ch Hb Hq) as [(_ & _ & ->)|(x & xs & -> & _ & Hx & Hxs)].
  - constructor; [done|apply IH].
  - cbn [app]. constructor; [done|]. constructor; [done|]. apply Forall_app; split; [done|apply IH].
Qed.

(** No control character: nothing below [0x20]. *)
Definition printable (c : string) : bool :=
  match ascii_code c with Some n => Nat.leb 32 n | None => true end.

Lemma escape_char_printable c : printable c = true -> escape_char c = [c].
Proof.
  unfold printable, escape_char. destruct (ascii_code c) as [n|]; [|done]. intros H%Nat.leb_le.
  do 32 (destruct n as [|n]; [lia|]). done.
Qed.

Lemma escape_loop_printable in_str esc cs :
  Forall (fun c => printable c = true) cs -> escape_loop in_str esc cs = cs.
Proof.
  intros H. revert in_str esc. induction H as [|ch cs Hch _ IH]; intros in_str esc; [done|].
  cbn [escape_loop]. rewrite (escape_char_printable _ Hch), !IH. cbn [app]. by repeat case_match.
Qed.

(** Escaping the control characters of string literals is a repair: it
    leaves a text without control characters exactly as it is, and doing it
    twice is doing it once. *)
Theorem escaping_is_a_repair s :
  head_ok s = true ->
  escape_control_chars_in_json_strings (escape_control_chars_in_json_strings s) =
    escape_control_chars_in_json_strings s /\
  (Forall (fun c => printable c = true) (chars s) -> escape_control_chars_in_json_strings s = s).
Proof.
  intros Hs. unfold escape_control_chars_in_json_strings. split.
  - rewrite chars_concat by by apply escape_loop_chars, chars_head_ok_wf. by rewrite escape_loop_idem.
  - intros H. rewrite escape_loop_printable by done. apply concat_chars.
Qed.

(** A literal with a raw newline. *)
Definition raw_newline : string := "{" +:+ dquote +:+ "a" +:+ nl +:+ "b" +:+ dquote +:+ "}".

Lemma escaping_is_a_repair_witness :
  escape_control_chars_in_json_strings (escape_control_chars_in_json_strings raw_newline) =
    escape_control_chars_in_json_strings raw_newline /\
  (Forall (fun c => printable c = true) (chars raw_newline) ->
   escape_control_chars_in_json_strings raw_newline = raw_newline).
Proof. by apply (escaping_is_a_repair raw_newline). Defined.

(** In a literal, each backslash is followed by a character JSON allows there;
    a lone one at the end of the text is not an escape. *)
Fixpoint escapes_ok (in_str : bool) (cs : list string) : bool :=
  match cs with
  | [] => true
  | ch :: rest =>
      if negb in_str then escapes_ok (is_ch ch dquote) rest
      else if is_ch ch dquote then escapes_ok false rest
      else if is_ch ch backslash then
        match rest with
        | [] => true
        | next :: rest' => valid_escape next && escapes_ok true rest'
        end
      else escapes_ok true rest
  end.

Lemma repair_loop_spec n in_str cs :
  length cs <= n ->
  escapes_ok in_str (repair_loop in_str cs) = true /\
  (escapes_ok in_str cs = true -> repair_loop in_str cs = cs) /\
  (all_chars cs -> all_chars (repair_loop in_str cs)).
Proof.
  revert in_str cs. induction n as [|n IH]; intros in_str [|ch cs] Hn; try (simpl in Hn; lia);
    try (repeat split; done).
  simpl in Hn. cbn [repair_loop escapes_ok].
  destruct in_str; cbn [negb].
  2: { destruct (IH (is_ch ch dquote) cs) as (H1 & H2 & H3); [lia|]. cbn [escapes_ok negb].
       split; [done|]. split; [by intros ?%H2; f_equal|]. intros [? ?]%Forall_cons. constructor; [done|by apply H3]. }
  destruct (is_ch ch dquote) eqn:Hq.
  { destruct (IH false cs) as (H1 & H2 & H3); [lia|]. cbn [escapes_ok negb]. rewrite Hq.
    split; [done|]. split; [by intros ?%H2; f_equal|]. intros [? ?]%Forall_cons. constructor; [done|by apply H3]. }
  destruct (is_ch ch backslash) eqn:Hb.
  2: { destruct (IH true cs) as (H1 & H2 & H3); [lia|]. cbn [escapes_ok negb]. rewrite Hq, Hb.
       split; [done|]. split; [by intros ?%H2; f_equal|]. intros [? ?]%Forall_cons. constructor; [done|by apply H3]. }
  destruct cs as [|next cs].
  { cbn [escapes_ok negb]. by rewrite Hq, Hb. }
  destruct (valid_escape next) eqn:Hv.
  - destruct (IH true cs) as (H1 & H2 & H3); [simpl in Hn; lia|]. cbn [escapes_ok negb]. rewrite Hq, Hb, Hv.
    split; [done|]. split; [intros H; by rewrite H2|].
    intros [? [? ?]%Forall_cons]%Forall_cons. constructor; [done|]. constructor; [done|by apply H3].
  - destruct (IH true (next :: cs)) as (H1 & H2 & H3); [simpl in *; lia|]. split; [|split].
    + cbn [escapes_ok negb]. change (is_ch backslash dquote) with false.
      change (is_ch backslash backslash) with true. change (valid_escape backslash) with true. done.
    + done.
    + intros [? ?]%Forall_cons. constructor; [done|]. constructor; [done|by apply H3].
Qed.

(** Repairing invalid escapes is a repair: afterwards every backslash in a
    literal starts a valid escape, a text where that already holds is left
    exactly as it is, and doing it twice is doing it once. *)
Theorem escape_repair_is_a_repair s :
  head_ok s = true ->
  escapes_ok false (chars (repair_invalid_json_escapes s)) = true /\
  (escapes_ok false (chars s) = true -> repair_invalid_json_escapes s = s) /\
  repair_invalid_json_escapes (repair_invalid_json_escapes s) = repair_invalid_json_escapes s.
Proof.
  intros Hs. destruct (repair_loop_spec _ false (chars s) (Nat.le_refl _)) as (H1 & H2 & H3).
  unfold repair_invalid_json_escapes.
  rewrite chars_concat by by apply H3, chars_head_ok_wf. split; [done|]. split.
  - intros H. rewrite H2 by done. apply concat_chars.
  - f_equal. destruct (repair_loop_spec _ false (repair_loop false (chars s)) (Nat.le_refl _)) as (_ & H2' & _).
    by apply H2'.
Qed.

(** The pattern [\s] in a literal. *)
Definition regex_text : string := "{" +:+ dquote +:+ backslash +:+ "s+" +:+ dquote +:+ "}".

Lemma escape_repair_is_a_repair_witness :
  escapes_ok false (chars (repair_invalid_json_escapes regex_text)) = true /\
  (escapes_ok false (chars regex_text) = true -> repair_invalid_json_escapes regex_text = regex_text) /\
  repair_invalid_json_escapes (repair_invalid_json_escapes regex_text) = repair_invalid_json_escapes regex_text.
Proof. by apply (escape_repair_is_a_repair regex_text). Defined.

(** ** Extraction finds the values *)

Lemma push_front_Some ch r p t :
  push_front ch r = Some (p, t) -> exists p', p = ch :: p' /\ r = Some (p', t).
Proof. destruct r as [[p' t']|]; simpl; naive_solver. Qed.

(** The scan looks at nothing after the piece it returns. *)
Lemma scan_value_local stack in_str esc cs p r :
  scan_value stack in_str esc cs = Some (p, r) ->
  cs = p ++ r /\ forall t, scan_value stack in_str esc (p ++ t) = Some (p, t).
Proof.
  revert stack in_str esc p. induction cs as [|ch cs IH]; intros stack in_str esc p H; [done|].
  cbn [scan_value] in H.
  repeat match type of H with
  | context [match stack with _ => _ end] => destruct stack as [|top stack] eqn:Hst
  | context [if ?b then _ else _] => destruct b eqn:?
  end; simplify_eq/=;
  try (apply push_front_Some in H as (p' & -> & H); apply IH in H as [-> H];
       split; [done|]; intros t; cbn [app scan_value];
       repeat match goal with E : _ = _ |- _ => rewrite E end; by rewrite H);
  split; try done; intros t; cbn [app scan_value];
  repeat match goal with E : _ = _ |- _ => rewrite E end; done.
Qed.

Definition no_open (cs : list string) : Prop := Forall (fun c => is_open c = false) cs.

Lemma find_start_gap g c t :
  no_open g -> is_open c = true -> find_start (g ++ c :: t) = Some (c :: t).
Proof. intros Hg Hc. induction Hg as [|x g Hx _ IH]; simpl; [by rewrite Hc|by rewrite Hx]. Qed.

Lemma find_start_none g : no_open g -> find_start g = None.
Proof. induction 1 as [|x g Hx _ IH]; simpl; [done|by rewrite Hx]. Qed.

(** A bracketed value: a text that opens with a bracket and that the scan
    reads exactly to its end. *)
Definition one_value (v : string) : Prop :=
  match chars v with
  | c :: _ => is_open c = true
  | [] => False
  end /\ scan_value [] false false (chars v) = Some (chars v, []).

#[global] Instance one_value_dec v : Decision (one_value v).
Proof.
  unfold one_value. apply and_dec; [destruct (chars v); apply _|].
  apply option_eq_dec.
Defined.

(** Prose with values in it: each value after a gap, then a last gap. *)
Fixpoint mix (l : list (string * string)) (gap : string) : string :=
  match l with
  | [] => gap
  | (g, v) :: l => g +:+ v +:+ mix l gap
  end.

Definition prose (g : string) : Prop := head_ok g = true /\ no_open (chars g).

#[global] Instance prose_dec g : Decision (prose g).
Proof. unfold prose, no_open. apply _. Defined.

Lemma one_value_head_ok v : one_value v -> head_ok v = true.
Proof.
  intros [H _]. rewrite <- (concat_chars v). destruct (chars v) as [|c cs]; [done|].
  unfold is_open, is_ch in H. apply orb_prop in H as [->%String.eqb_eq| ->%String.eqb_eq]; done.
Qed.

Lemma extract_mix l gap fuel room :
  Forall (fun gv => prose gv.1 /\ one_value gv.2) l -> prose gap ->
  length (chars (mix l gap)) <= fuel ->
  head_ok (mix l gap) = true /\
  extract_loop fuel room (chars (mix l gap)) = take room (map snd l).
Proof.
  intros Hl Hgap. revert fuel room.
  induction Hl as [|[g v] l [[Hg1 Hg2] Hv] Hl IH]; intros fuel room Hfuel; cbn [mix fst snd] in *.
  { split; [apply Hgap|]. destruct fuel, room; try done. cbn [extract_loop]. by rewrite find_start_none by apply Hgap. }
  pose proof (one_value_head_ok v Hv) as Hvh.
  assert (head_ok (mix l gap) = true) as Hm by (by apply (IH (length (chars (mix l gap))) 0)).
  split; [by repeat apply head_ok_app|].
  rewrite !chars_app, !length_app in Hfuel by (try done; by apply head_ok_app).
  rewrite !chars_app by (try done; by apply head_ok_app).
  destruct Hv as [Ho Hscan]. destruct (chars v) as [|c cs] eqn:Hcv; [done|].
  destruct fuel as [|fuel]; [simpl in Hfuel; lia|]. destruct room as [|room]; [done|].
  cbn [extract_loop app]. rewrite find_start_gap by done.
  apply scan_value_local in Hscan as [_ Hscan]. specialize (Hscan (chars (mix l gap))). cbn [app] in Hscan.
  rewrite Hscan. cbn [map take snd]. rewrite <- Hcv, concat_chars. f_equal.
  apply IH. simpl in Hfuel. lia.
Qed.

(** C39: Every bracketed value in prose is found, in order and verbatim, up to
    [max]: when the text between the values has no opening bracket,
    [extract_all_json_values] returns exactly the first [max] of them. *)
Theorem extraction_finds_every_value l gap max :
  Forall (fun gv => prose gv.1 /\ one_value gv.2) l -> prose gap ->
  extract_all_json_values (mix l gap) max = take max (map snd l).
Proof. intros Hl Hg. by apply (extract_mix l gap _ max Hl Hg). Qed.

Definition quoted (s : string) : string := dquote +:+ s +:+ dquote.

Definition sample_mix : list (string * string) :=
  [("Here: ", "{" +:+ quoted "a]" +:+ ":[1]}"); (" and ", "[2]")].

Lemma sample_mix_ok : Forall (fun gv => prose gv.1 /\ one_value gv.2) sample_mix.
Proof. by apply (bool_decide_eq_true_1 _); vm_compute. Qed.

Lemma sample_gap_ok : prose " done.".
Proof. by apply (bool_decide_eq_true_1 _); vm_compute. Qed.

Lemma extraction_finds_every_value_witness :
  extract_all_json_values (mix sample_mix " done.") 5 = ["{" +:+ quoted "a]" +:+ ":[1]}"; "[2]"].
Proof.
  apply (extraction_finds_every_value sample_mix " done." 5 sample_mix_ok sample_gap_ok).
Defined.

(** An opening bracket in the prose hides every value after it: the scan
    that starts there never closes, and the loop gives up instead of going on
    with the next bracket. *)
Theorem a_bracket_in_prose_hides_the_values :
  extract_all_json_values ("use { then " +:+ "[1]") 5 = [] /\
  extract_all_json_values "[1]" 5 = ["[1]"].
Proof. by vm_compute. Qed.

(** ** What the resilient parse accepts *)

Lemma or_else_Ok {A} (r k : Result A string) : is_Ok r || is_Ok k = is_Ok (or_else r k).
Proof. by destruct r. Qed.

Lemma first_parsed_Ok {T} `{!DeserializeOwned T} vals k :
  is_Ok (first_parsed vals k) = existsb (fun v => is_Ok (from_str v)) vals || is_Ok k.
Proof. induction vals as [|v vals IH]; simpl; [done|]. by rewrite <- or_else_Ok, IH, orb_assoc. Qed.

(** The resilient parse never changes the meaning of a text that parses,
    and accepts more: a text that parses as it is gives that parse; a text
    with a value in its prose that parses, among the first eight bracketed
    ones, is never an error. *)
Theorem resilient_parse_accepts_embedded_values {T} `{HS : !JsonStream, HD : !DeserializeOwned T} text l gap :
  trim text = mix l gap ->
  Forall (fun gv => prose gv.1 /\ one_value gv.2) l -> prose gap ->
  (forall v, from_str (T := T) (trim text) = Ok v -> resilient_parse (T := T) text = Ok v) /\
  (forall v, v ∈ take 8 (map snd l) -> is_Ok (from_str (T := T) v) = true ->
   is_Ok (resilient_parse (T := T) text) = true).
Proof.
  intros Htext Hl Hgap. split.
  - intros v Hv. unfold resilient_parse. by rewrite Hv.
  - intros v Hin Hv. unfold resilient_parse. rewrite <- !or_else_Ok, first_parsed_Ok.
    replace (extract_all_json_values (trim text) 8) with (take 8 (map snd l))
      by (rewrite Htext; symmetry; by apply (extract_mix l gap _ 8 Hl Hgap)).
    assert (existsb (fun v => is_Ok (from_str (T := T) v)) (take 8 (map snd l)) = true) as ->.
    { apply existsb_exists. exists v. split; [by apply list_elem_of_In|done]. }
    by rewrite !orb_true_r.
Qed.

(** A parser that accepts the one text [[2]]. *)
Definition only_two : DeserializeOwned nat := {|
  from_str s := if String.eqb s "[2]" then Ok 2 else Err "no";
  from_value _ := Err "no"
|}.

Lemma resilient_parse_accepts_embedded_values_witness :
  let text := mix sample_mix " done." in
  (forall v, from_str (DeserializeOwned := only_two) (trim text) = Ok v ->
     resilient_parse (H := fun _ => None) (DeserializeOwned0 := only_two) text = Ok v) /\
  (forall v, v ∈ take 8 (map snd sample_mix) -> is_Ok (from_str (DeserializeOwned := only_two) v) = true ->
     is_Ok (resilient_parse (H := fun _ => None) (DeserializeOwned0 := only_two) text) = true).
Proof.
  intros text.
  apply (resilient_parse_accepts_embedded_values (HS := fun _ => None) (HD := only_two)
           text sample_mix " done." ltac:(by vm_compute) sample_mix_ok sample_gap_ok).
Defined.
