(* ===== verification/Schema.v ===== *)
(** * Strict JSON schemas

    [src/src/core/src/schema_registry.rs]: the schema sent to a provider is the
    one [schemars] derives, unwrapped and made strict.  [schemars] and the
    validator of [jsonschema] are parameters; the rewriting is the program's. *)

From stdpp Require Import base list strings sorting.
From Stdlib Require Import ZArith Lia.
From S2P Require Import Prelude.
From S2P Require Import RustStr.
From S2P Require Import Json.
From S2P Require Import Errors.
From S2P Require Import Storage.

Inductive SchemaId : Type := AgentStepV1Id.

Definition schema_name (id : SchemaId) : string :=
  match id with AgentStepV1Id => "agent.step.v1" end.

(** ** The wire format of an agent step *)

Record CompleteEnvelopeV1 : Type := {
  cv_kind : string;
  cv_payload : string;
  cv_display : option string
}.

Inductive AgentStepTypeV1 : Type := TypeTool | TypeComplete.

Record AgentStepV1 : Type := {
  type_ : AgentStepTypeV1;
  name : option string;
  args : option string;
  complete : option CompleteEnvelopeV1
}.

(** ** Strictness *)

Definition keys (m : list (string * Value)) : list string := map fst m.

(** [m.entry(k).or_insert(v)] *)
Definition or_insert (k : string) (v : Value) (m : list (string * Value)) : list (string * Value) :=
  match assoc_get k m with Some _ => m | None => btree_insert k v m end.

(** [req_set.dedup()]: consecutive repetitions removed. *)
Fixpoint dedup (l : list string) : list string :=
  match l with
  | x :: (y :: _) as rest => if String.eqb x y then dedup rest else x :: dedup rest
  | _ => l
  end.

(** The loop that pushes the missing property keys. *)
Definition push_missing (prop_keys req_set : list string) : list string :=
  fold_left (fun acc k => if existsb (String.eqb k) acc then acc else acc ++ [k]) prop_keys req_set.

Definition strings_of (v : Value) : list string :=
  match v with
  | VArray a => omap as_str a
  | _ => []
  end.

Definition ensure_all_properties_required (m : list (string * Value)) : list (string * Value) :=
  match assoc_get "properties" m with
  | Some (VObject props) =>
      let prop_keys := keys props in
      let m := or_insert "additionalProperties" (VBool false) m in
      let m := or_insert "required" (VArray []) m in
      let req_set := match assoc_get "required" m with Some req => strings_of req | None => [] end in
      let req_set := dedup (sort_strings (push_missing prop_keys req_set)) in
      btree_insert "required" (VArray (map VString req_set)) m
  | _ => m
  end.

(** [openai_structured_outputs_strictify_schema] *)
Fixpoint strictify (v : Value) : Value :=
  match v with
  | VArray a => VArray (map strictify a)
  | VObject m =>
      match assoc_get "$ref" m with
      | Some ref_value => VObject [("$ref", ref_value)]
      | None => VObject (ensure_all_properties_required (map (fun kv => (kv.1, strictify kv.2)) m))
      end
  | _ => v
  end.

(** [inner.as_object_mut()] then [obj.insert(k, v)]. *)
Definition insert_field (k : string) (v : Value) (inner : Value) : Value :=
  match inner with
  | VObject m => VObject (btree_insert k v m)
  | _ => inner
  end.

Definition copy_defs (root inner : Value) (defs_key : string) : Value :=
  match get root defs_key with
  | Some (VObject (d :: ds)) => insert_field defs_key (VObject (d :: ds)) inner
  | _ => inner
  end.

Definition root_schema_json_to_json_schema_value (root_v : Value) : Value :=
  let out :=
    match get root_v "schema" with
    | Some schema_v =>
        let inner := fold_left (copy_defs root_v) ["definitions"; "$defs"] schema_v in
        match get root_v "$schema" with
        | Some meta => insert_field "$schema" meta inner
        | None => inner
        end
    | None => root_v
    end in
  let out :=
    match out with
    | VObject obj => VObject (or_insert "type" (VString "object") obj)
    | _ => out
    end in
  strictify out.

Record OpenAiStrictSchema : Type := { os_name : string; os_schema : Value }.

(** The schema [schemars] derives for a type, as [serde_json] writes it. *)
Class JsonSchema (T : Type) := schema_for_type : Result Value string.

Definition strict_json_schema_for (T : Type) `{!JsonSchema T} : Result Value CoreError.t :=
  match schema_for_type (T := T) with
  | Ok root_v => Ok (root_schema_json_to_json_schema_value root_v)
  | Err e => Err (CoreError.Schema ("schema serialization failed: " +:+ e))
  end.

Definition for_type (T : Type) `{!JsonSchema T} (name : string) : Result OpenAiStrictSchema CoreError.t :=
  match strict_json_schema_for T with
  | Ok schema => Ok {| os_name := name; os_schema := schema |}
  | Err e => Err e
  end.

(** [serde_json::to_value(schemars::schema_for!(T))] of the types the registry
    derives, and the compiled validator. *)
Class SchemaTools := {
  schema_for : SchemaId -> Value;
  validator_error : SchemaId -> Value -> option string
}.

Section registry.
Context `{!SchemaTools}.

Definition json_schema (id : SchemaId) : Value := root_schema_json_to_json_schema_value (schema_for id).

Definition for_schema_id (id : SchemaId) : OpenAiStrictSchema :=
  {| os_name := schema_name id; os_schema := json_schema id |}.

Definition validate (id : SchemaId) (inst : Value) : Result unit CoreError.t :=
  match validator_error id inst with
  | Some first => Err (CoreError.Schema (schema_name id +:+ " validation error: " +:+ first))
  | None => Ok tt
  end.
End registry.

(** ** What strictness promises *)

(** The list is sorted without repetitions. *)
Definition ordered (l : list string) : Prop := StronglySorted str_le l /\ NoDup l.

(** An object with [$ref] has nothing else; an object with [properties]
    requires every one of them, in order and once, and says whether others are
    allowed; and so on inside. *)
Inductive strict : Value -> Prop :=
| strict_null : strict VNull
| strict_bool b : strict (VBool b)
| strict_number n : strict (VNumber n)
| strict_string s : strict (VString s)
| strict_array l : Forall strict l -> strict (VArray l)
| strict_ref r : strict (VObject [("$ref", r)])
| strict_object m :
    assoc_get "$ref" m = None ->
    Forall (fun kv => strict kv.2) m ->
    (forall props, assoc_get "properties" m = Some (VObject props) ->
       (exists b, assoc_get "additionalProperties" m = Some b) /\
       exists req, assoc_get "required" m = Some (VArray (map VString req)) /\ ordered req /\
                   forall k, k ∈ keys props -> k ∈ req) ->
    strict (VObject m).

Lemma elem_of_existsb k l : existsb (String.eqb k) l = true <-> k ∈ l.
Proof.
  rewrite existsb_exists. split; [intros (x & Hx & ->%String.eqb_eq); by apply list_elem_of_In|].
  intros H%list_elem_of_In. exists k. by rewrite String.eqb_refl.
Qed.

Lemma push_missing_elem prop_keys req k :
  k ∈ push_missing prop_keys req <-> k ∈ req \/ k ∈ prop_keys.
Proof.
  revert req. induction prop_keys as [|x l IH]; intros req; simpl.
  { pose proof (not_elem_of_nil k). tauto. }
  rewrite IH, elem_of_cons. destruct (existsb (String.eqb x) req) eqn:E.
  - apply elem_of_existsb in E. naive_solver.
  - rewrite elem_of_app, list_elem_of_singleton. naive_solver.
Qed.

Lemma dedup_cons x y l :
  dedup (x :: y :: l) = if String.eqb x y then dedup (y :: l) else x :: dedup (y :: l).
Proof. done. Qed.

Lemma dedup_elem k l : k ∈ dedup l <-> k ∈ l.
Proof.
  induction l as [|x [|y l] IH]; [done..|]. rewrite dedup_cons. destruct (String.eqb_spec x y) as [->|].
  - rewrite IH, !elem_of_cons. tauto.
  - rewrite elem_of_cons, IH, !elem_of_cons. tauto.
Qed.

(** In a sorted list equal elements are next to each other. *)
Lemma dedup_ordered l : StronglySorted str_le l -> ordered (dedup l).
Proof.
  induction l as [|x [|y l] IH]; intros H; [split; [done|constructor]|split; [done|apply NoDup_singleton]|].
  apply StronglySorted_inv in H as [H Hx]. destruct (IH H) as [IH1 IH2]. rewrite dedup_cons.
  destruct (String.eqb_spec x y) as [->|Hne]; [done|].
  assert (forall z, z ∈ dedup (y :: l) -> str_le x z) as Hle.
  { intros z Hz. rewrite dedup_elem in Hz. rewrite Forall_forall in Hx. by apply Hx. }
  split; [constructor; [done|by rewrite Forall_forall]|]. constructor; [|done].
  intros Hin. rewrite dedup_elem in Hin. apply Hne.
  assert (str_le x y) by (rewrite Forall_forall in Hx; apply Hx; by apply elem_of_cons; left).
  apply String.leb_antisym; [done|]. apply StronglySorted_inv in H as [_ Hy].
  apply elem_of_cons in Hin as [->|Hin]; [by destruct (String.leb_total y y)|].
  rewrite Forall_forall in Hy. by apply Hy.
Qed.

Lemma required_ordered prop_keys req :
  let r := dedup (sort_strings (push_missing prop_keys req)) in
  ordered r /\ forall k, k ∈ prop_keys -> k ∈ r.
Proof.
  intros r. split.
  - apply dedup_ordered. apply Sorted_StronglySorted; [apply _|]. apply Sorted_merge_sort. apply _.
  - intros k Hk. apply dedup_elem. unfold sort_strings.
    rewrite merge_sort_Permutation. apply push_missing_elem. by right.
Qed.

Lemma strict_strings l : Forall strict (map VString l).
Proof. induction l; simpl; repeat constructor; done. Qed.

Lemma or_insert_strict k v m :
  strict v -> Forall (fun kv => strict kv.2) m -> Forall (fun kv => strict kv.2) (or_insert k v m).
Proof. intros Hv Hm. unfold or_insert. case_match; [done|]. by apply Forall_btree_insert. Qed.

Lemma or_insert_ne k k' v m : k <> k' -> assoc_get k' (or_insert k v m) = assoc_get k' m.
Proof. intros H. unfold or_insert. case_match; [done|]. by apply assoc_get_insert_ne. Qed.

Lemma or_insert_same k v m : exists b, assoc_get k (or_insert k v m) = Some b.
Proof. unfold or_insert. case_match; [eauto|]. rewrite assoc_get_insert. eauto. Qed.

Lemma ensure_strict m :
  assoc_get "$ref" m = None -> Forall (fun kv => strict kv.2) m ->
  strict (VObject (ensure_all_properties_required m)).
Proof.
  intros Href Hm. unfold ensure_all_properties_required.
  destruct (assoc_get "properties" m) as [p|] eqn:Hp.
  2: { constructor; [done..|]. intros props H. congruence. }
  destruct p as [| | | | |props]; try (constructor; [done..|]; intros ? ?; congruence).
  set (m2 := or_insert "required" _ _).
  set (req := dedup _). constructor.
  - rewrite assoc_get_insert_ne by done. unfold m2. by rewrite !or_insert_ne.
  - apply Forall_btree_insert; [constructor; apply strict_strings|].
    unfold m2. repeat apply or_insert_strict; try done; repeat constructor.
  - intros props'. rewrite assoc_get_insert_ne by done. unfold m2. rewrite !or_insert_ne by done.
    rewrite Hp. intros [= <-]. split.
    + rewrite assoc_get_insert_ne by done. rewrite or_insert_ne by done. apply or_insert_same.
    + exists req. rewrite assoc_get_insert. split; [done|]. apply required_ordered.
Qed.

Lemma assoc_get_map (f : Value -> Value) k m :
  assoc_get k (map (fun kv => (kv.1, f kv.2)) m) = option_map f (assoc_get k m).
Proof. induction m as [|[k' v] m IH]; simpl; [done|]. by destruct (String.eqb k k'). Qed.

(** The schema sent to a provider is strict, whatever the derived one is:
    at every level of it a [$ref] stands alone, and an object with properties
    lists all of them as required, sorted and once each, and says whether
    additional ones are allowed. *)
Lemma converted_schema_is_strict root : strict (root_schema_json_to_json_schema_value root).
Proof.
  unfold root_schema_json_to_json_schema_value.
  set (out := match _ with VObject _ => _ | _ => _ end). clearbody out.
  induction out as [| | | |l IH|m IH] using Value_nested_ind; simpl; try constructor.
  - by apply Forall_map.
  - destruct (assoc_get "$ref" m) as [r|] eqn:Href; [constructor|].
    apply ensure_strict; [by rewrite assoc_get_map, Href|]. by apply Forall_map.
Qed.

(** So are the registered schema and that of any type, which keeps its name;
    only a type whose schema cannot be written has none. *)
Theorem json_schema_is_strict `{!SchemaTools} id : strict (json_schema id).
Proof. apply converted_schema_is_strict. Qed.

Theorem for_type_is_strict T `{!JsonSchema T} name :
  match for_type T name with
  | Ok s => os_name s = name /\ strict (os_schema s)
  | Err e => exists d, schema_for_type (T := T) = Err d /\ e = CoreError.Schema ("schema serialization failed: " +:+ d)
  end.
Proof.
  unfold for_type, strict_json_schema_for. destruct schema_for_type as [root|d]; [|by exists d].
  split; [done|]. apply converted_schema_is_strict.
Qed.

(** A property called [properties] breaks the schema: the map of the
    properties is itself rewritten as if it were an object schema, gains the
    entries [additionalProperties] and [required], and these become required
    properties that the type does not have. *)
Theorem a_property_named_properties_is_corrupted :
  let any := VObject [("type", VString "object")] in
  strictify (VObject [("properties", VObject [("properties", any)])]) =
  VObject
    [("additionalProperties", VBool false);
     ("properties",
      VObject [("additionalProperties", VBool false); ("properties", any);
               ("required", VArray [VString "type"])]);
     ("required", VArray [VString "additionalProperties"; VString "properties"; VString "required"])].
Proof. by vm_compute. Qed.
