(* ===== verification/Tools.v ===== *)
(** * Tools

    [src/src/core/src/tools/mod.rs]: the outcome of a tool call, the bound on
    what a tool returns, and the registry that dispatches calls by name.  A
    tool acts on a world [W]; [serde_json::to_string] is the [to_vec] of the
    [Serde] interface, which produces the same text. *)

From stdpp Require Import base list strings gmap sorting.
From Stdlib Require Import ZArith Lia.
From S2P Require Import Prelude.
From S2P Require Import RustStr.
From S2P Require Import Json.
From S2P Require Import Errors.
From S2P Require Import Text.
From S2P Require Import Storage.
From S2P Require Import SessionTypes.

Definition MAX_OUTPUT_BYTES : nat := 16 * 1024.

Record ToolError : Type := mkToolError { message : string }.

Module ToolOutcome.
Inductive t : Type :=
| Ok (v : Value)
| Failed (e : ToolError).
End ToolOutcome.

Section bound.
Context `{HSd : !Serde}.

(** The object that replaces a value whose text is [s]. *)
Definition truncated_value (s : string) (max_bytes : nat) : Value :=
  VObject [("bytes", VNumber (PosInt (Z.of_nat (String.length s))));
           ("preview", VString (truncate_utf8_bytes s (max_bytes - 80)));
           ("truncated", VBool true)].

Definition bound_tool_value (v : Value) (max_bytes : nat) : Value :=
  match to_vec v with
  | Err _ => v
  | Ok s => if Nat.leb (String.length s) max_bytes then v else truncated_value s max_bytes
  end.

Definition from_result (r : Result Value string) (max_bytes : nat) : ToolOutcome.t :=
  match r with
  | Ok v => ToolOutcome.Ok (bound_tool_value v max_bytes)
  | Err e => ToolOutcome.Failed (mkToolError e)
  end.
End bound.

Definition outcome_is_ok (o : ToolOutcome.t) : bool :=
  match o with ToolOutcome.Ok _ => true | ToolOutcome.Failed _ => false end.

Definition outcome_value (o : ToolOutcome.t) : option Value :=
  match o with ToolOutcome.Ok v => Some v | ToolOutcome.Failed _ => None end.

Definition as_interrupt_value (o : ToolOutcome.t) : Value :=
  match o with
  | ToolOutcome.Ok v => v
  | ToolOutcome.Failed e => VObject [("errors", VArray [VString (message e)])]
  end.

Definition outcome_observation (o : ToolOutcome.t) : ToolObservation.t :=
  match o with
  | ToolOutcome.Ok v => ToolObservation.from_success v
  | ToolOutcome.Failed e => ToolObservation.from_failure (message e)
  end.

(** ** The registry *)

Record Tool (W : Type) : Type := {
  tool_name : string;
  description : string;
  max_output_bytes : nat;
  tool_call : Value -> Act W string Value
}.
Arguments tool_name {W} _.
Arguments description {W} _.
Arguments max_output_bytes {W} _.
Arguments tool_call {W} _ _.

Record DuplicateTool : Type := { duplicate_name : string }.

Section registry.
Context {W : Type} `{HSd : !Serde}.

Definition ToolRegistry : Type := gmap string (Tool W).

Definition registry_new : ToolRegistry := ∅.

Definition register (t : Tool W) (r : ToolRegistry) : Result ToolRegistry DuplicateTool :=
  match r !! tool_name t with
  | Some _ => Err {| duplicate_name := tool_name t |}
  | None => Ok (<[tool_name t := t]> r)
  end.

Definition call (r : ToolRegistry) (name : string) (args : Value) (w : W) : ToolOutcome.t * W :=
  match r !! name with
  | Some t =>
      let '(res, w') := tool_call t args w in (from_result res (max_output_bytes t), w')
  | None => (ToolOutcome.Failed (mkToolError ("unknown tool '" +:+ name +:+ "'")), w)
  end.

(** The names in the order of [sort_by_key]. *)
Definition sorted_names (r : ToolRegistry) : list string := sort_strings (elements (dom r)).

Definition card_line (r : ToolRegistry) (name : string) : string :=
  match r !! name with
  | Some t =>
      if str_is_empty (description t) then nl +:+ "- " +:+ name
      else nl +:+ "- " +:+ name +:+ ": " +:+ description t
  | None => EmptyString
  end.

Definition tool_card (r : ToolRegistry) : string :=
  "Available tools:" +:+ concat_strings (map (card_line r) (sorted_names r)).

Definition registry_contains (r : ToolRegistry) (name : string) : bool :=
  match r !! name with Some _ => true | None => false end.

Definition registry_len (r : ToolRegistry) : nat := size r.

(** Tools registered one after the other, stopping at the first duplicate. *)
Fixpoint register_all (ts : list (Tool W)) (r : ToolRegistry) : Result ToolRegistry DuplicateTool :=
  match ts with
  | [] => Ok r
  | t :: ts => let? r := register t r in register_all ts r
  end.

Lemma register_all_lookup ts r r' :
  register_all ts r = Ok r' ->
  forall name t, r' !! name = Some t <-> r !! name = Some t \/ (t ∈ ts /\ tool_name t = name).
Proof.
  revert r. induction ts as [|t0 ts IH]; intros r; simpl.
  { intros [= <-] name t. split; [auto|]. intros [?|[H _]]; [done|]. by apply elem_of_nil in H. }
  unfold register. destruct (r !! tool_name t0) as [x|] eqn:E; [done|]. simpl. intros H name t.
  rewrite (IH _ H), elem_of_cons. unfold ToolRegistry in *.
  destruct (decide (tool_name t0 = name)) as [<-|Hne].
  - rewrite lookup_insert_eq, E. naive_solver.
  - rewrite lookup_insert_ne by done. naive_solver.
Qed.
End registry.

(** Registration never overwrites: when every tool of a list registers, the
    registry dispatches each name to the one tool of that name, unknown names
    to an error, and two tools of one name never both register. *)
Theorem registry_dispatches_by_name {W} `{HSd : !Serde} (ts : list (Tool W)) r name args w :
  register_all ts registry_new = Ok r ->
  match call r name args w with
  | (o, w') =>
      (exists t, t ∈ ts /\ tool_name t = name /\ (tool_call t args w).2 = w' /\
         o = from_result (tool_call t args w).1 (max_output_bytes t) /\
         forall t', t' ∈ ts -> tool_name t' = name -> t' = t) \/
      ((forall t, t ∈ ts -> tool_name t <> name) /\ w' = w /\
         o = ToolOutcome.Failed (mkToolError ("unknown tool '" +:+ name +:+ "'")))
  end.
Proof.
  intros H. pose proof (register_all_lookup ts _ r H name) as Hl.
  assert (forall t, (registry_new : gmap string (Tool W)) !! name = Some t -> False) as He.
  { intros t. change (registry_new) with (∅ : gmap string (Tool W)). by rewrite lookup_empty. }
  unfold call. destruct (r !! name) as [t|] eqn:E.
  - destruct (proj1 (Hl t) eq_refl) as [?|[Hin Hn]]; [by exfalso; eapply He|].
    destruct (tool_call t args w) as [res w1] eqn:Hc. left. exists t. rewrite Hc. repeat split; try done.
    intros t' Hin' Hn'. specialize (proj2 (Hl t') (or_intror (conj Hin' Hn'))). congruence.
  - right. repeat split. intros t Hin Hn. specialize (proj2 (Hl t) (or_intror (conj Hin Hn))). done.
Qed.

Definition echo_tool : Tool nat := {|
  tool_name := "echo"; description := ""; max_output_bytes := 100;
  tool_call := fun v w => (Ok v, S w)
|}.

Lemma registry_dispatches_by_name_witness :
  let r := <["echo" := echo_tool]> ∅ in
  match call (HSd := {| to_vec _ := Ok "x"; from_slice _ := Err "" |}) r "echo" VNull 0 with
  | (o, w') =>
      (exists t, t ∈ [echo_tool] /\ tool_name t = "echo" /\ (tool_call t VNull 0).2 = w' /\
         o = from_result (HSd := {| to_vec _ := Ok "x"; from_slice _ := Err "" |})
               (tool_call t VNull 0).1 (max_output_bytes t) /\
         forall t', t' ∈ [echo_tool] -> tool_name t' = "echo" -> t' = t) \/
      ((forall t, t ∈ [echo_tool] -> tool_name t <> "echo") /\ w' = 0 /\
         o = ToolOutcome.Failed (mkToolError ("unknown tool '" +:+ "echo" +:+ "'")))
  end.
Proof. intros r. by apply (registry_dispatches_by_name [echo_tool] r "echo" VNull 0). Defined.
