(* ===== verification/Transcript.v ===== *)
(** * The agent transcript

    [src/src/core/src/agent/transcript.rs]: what the agent loop remembers and
    how it is rendered into chat messages under a token budget. *)

From stdpp Require Import base list strings.
From Stdlib Require Import ZArith Lia.
From S2P Require Import Prelude.
From S2P Require Import RustStr.
From S2P Require Import Json.
From S2P Require Import Text.
From S2P Require Import Tools.

Module ChatRole.
Inductive t : Type := System | User | Assistant.
Definition display (r : t) : string :=
  match r with System => "system" | User => "user" | Assistant => "assistant" end.
#[global] Instance eq_dec : EqDecision t.
Proof. solve_decision. Defined.
End ChatRole.

Record ChatMessage : Type := { role : ChatRole.t; content : string }.

(** ** Token budgets *)

Record PromptBudget : Type := { total_tokens : Z; per_entry_tokens : Z }.

Definition DEFAULT_CONTEXT : Z := 8192.
Definition DEFAULT_MAX_OUTPUT : Z := 4096.

(** The tokens [from_model] keeps for the answer. *)
Definition reserved_tokens (context_length max_output : Z) : Z :=
  Z.max 1 (Z.min max_output (sat_sub (Z.max context_length 1024) 512)).

Definition from_model (context_length max_output : Z) : PromptBudget :=
  let ctx := Z.max context_length 1024 in
  let reserved := reserved_tokens context_length max_output in
  let total := Z.max (sat_sub ctx reserved) 1024 in
  let per_entry := Z.max (total / 8) 256 in
  {| total_tokens := total; per_entry_tokens := per_entry |}.

(** [from_resolved] on the two fields it reads. *)
Definition from_resolved (context_length : option Z) (max_tokens : option Z) : PromptBudget :=
  from_model (cast u32_max (default DEFAULT_CONTEXT context_length))
    (default DEFAULT_MAX_OUTPUT max_tokens).

Definition tokens_to_chars (tokens : Z) : Z := sat_mul usize_max tokens 4.
Definition per_entry_chars (b : PromptBudget) : Z := tokens_to_chars (per_entry_tokens b).
Definition total_chars (b : PromptBudget) : Z := tokens_to_chars (total_tokens b).

Definition estimate_tokens (text : string) : Z :=
  sat_add u32_max (cast u32_max (Z.of_nat (char_count text / 4))) 1.

(** [" …(truncated)"] *)
Definition truncated_suffix : string := " " +:+ ellipsis +:+ "(truncated)".

Definition truncate_entry (s : string) (max_chars : Z) : string :=
  if Z.leb (Z.of_nat (char_count s)) max_chars then s
  else truncate_chars s (Z.to_nat (sat_sub max_chars 14)) +:+ truncated_suffix.

(** ** The error ledger *)

Definition LEDGER_CAP : nat := 8.
Definition LEDGER_EXCERPT_CHARS : nat := 400.

Record LedgerEntry : Type := { fingerprint : string; count : Z; excerpt : string }.

Definition ErrorLedger : Type := list LedgerEntry.

(** [entries.iter().position(|e| e.fingerprint == fingerprint)], with the entry
    and the list without it. *)
Fixpoint ledger_find (fp : string) (l : ErrorLedger) : option (LedgerEntry * ErrorLedger) :=
  match l with
  | [] => None
  | e :: l' =>
      if String.eqb (fingerprint e) fp then Some (e, l')
      else match ledger_find fp l' with
           | Some (x, rest) => Some (x, e :: rest)
           | None => None
           end
  end.

Definition ledger_record (fp raw_excerpt : string) (l : ErrorLedger) : ErrorLedger :=
  let excerpt := truncate_chars raw_excerpt LEDGER_EXCERPT_CHARS in
  match ledger_find fp l with
  | Some (e, rest) =>
      rest ++ [{| fingerprint := fingerprint e; count := sat_add u16_max (count e) 1; excerpt := excerpt |}]
  | None =>
      (if Nat.leb LEDGER_CAP (length l) then tl l else l)
        ++ [{| fingerprint := fp; count := 1; excerpt := excerpt |}]
  end.

Definition ledger_line (e : LedgerEntry) : string :=
  nl +:+ "- " +:+ fingerprint e +:+ " (" +:+ fmt_Z (count e) +:+ "x): " +:+ excerpt e.

Definition ledger_render (l : ErrorLedger) : option string :=
  match l with
  | [] => None
  | _ => Some ("Known failures:" +:+ concat_strings (map ledger_line l))
  end.

(** ** Entries *)

Module Entry.
Inductive t : Type :=
| System (s : string)
| ToolCard (s : string)
| OutputContract (s : string)
| Prelude (s : string)
| User (s : string)
| Assistant (s : string)
| Observation (tool : string) (outcome : ToolOutcome.t)
| ParseRejected (s : string)
| CompletionRejected (reason : string).

Definition role (e : t) : ChatRole.t :=
  match e with
  | System _ | ToolCard _ | OutputContract _ | Prelude _ => ChatRole.System
  | User _ | Observation _ _ | ParseRejected _ | CompletionRejected _ => ChatRole.User
  | Assistant _ => ChatRole.Assistant
  end.

Section text.
Context `{!JsonDisplay}.

Definition raw (e : t) : string :=
  match e with
  | System s | Prelude s | User s | Assistant s | ToolCard s | OutputContract s => s
  | Observation tool (ToolOutcome.Ok v) => tool +:+ " -> " +:+ json_text v
  | Observation tool (ToolOutcome.Failed err) => tool +:+ " failed: " +:+ message err
  | ParseRejected s => "parse rejected: " +:+ s
  | CompletionRejected reason => "completion rejected: " +:+ reason
  end.

Definition content (e : t) (per_entry_chars : Z) : string := truncate_entry (raw e) per_entry_chars.

Definition trace (e : t) : string :=
  match e with
  | System s => "system " +:+ s
  | ToolCard s => "tools " +:+ s
  | OutputContract s => "contract " +:+ s
  | Prelude s => "prelude " +:+ s
  | User s => "user " +:+ s
  | Assistant s => "assistant " +:+ s
  | Observation tool (ToolOutcome.Ok _) => "observation " +:+ tool +:+ " ok"
  | Observation tool (ToolOutcome.Failed _) => "observation " +:+ tool +:+ " failed"
  | ParseRejected s => "parse_rejected " +:+ s
  | CompletionRejected reason => "completion_rejected " +:+ reason
  end.
End text.
End Entry.

(** ** Transcripts *)

Record Transcript : Type := {
  head : list Entry.t;
  tail : list Entry.t;
  ledger : ErrorLedger
}.

Section transcript.
Context `{!JsonDisplay}.

Definition start (system tools_card output_contract : string) (prelude : list Entry.t) (question : string)
  : Transcript :=
  let as_prelude e :=
    match e with
    | Entry.Prelude _ => e
    | other => Entry.Prelude (Entry.content other usize_max)
    end in
  {| head := [Entry.System system; Entry.ToolCard tools_card; Entry.OutputContract output_contract]
               ++ map as_prelude prelude ++ [Entry.User question];
     tail := [];
     ledger := [] |}.

Definition push (e : Entry.t) (t : Transcript) : Transcript :=
  {| head := head t; tail := tail t ++ [e]; ledger := ledger t |}.

Definition record_error (fp excerpt : string) (t : Transcript) : Transcript :=
  {| head := head t; tail := tail t; ledger := ledger_record fp excerpt (ledger t) |}.

(** The loop over the head: the system parts and the question. *)
Fixpoint head_parts (per_chars : Z) (es : list Entry.t) (parts : list string) (question : option string)
  : list string * option string :=
  match es with
  | [] => (parts, question)
  | Entry.User q :: es => head_parts per_chars es parts (Some (truncate_entry q per_chars))
  | other :: es => head_parts per_chars es (parts ++ [Entry.content other per_chars]) question
  end.

Definition entry_message (per_chars : Z) (e : Entry.t) : ChatMessage :=
  {| role := Entry.role e; content := Entry.content e per_chars |}.

(** The loop over the tail, newest first. *)
Fixpoint take_tail (per_chars total : Z) (used : Z) (rev_tail : list Entry.t) (tail_msgs : list ChatMessage)
  : list ChatMessage :=
  match rev_tail with
  | [] => tail_msgs
  | e :: rest =>
      let msg := entry_message per_chars e in
      let t := estimate_tokens (content msg) in
      if Z.ltb total (sat_add u32_max used t) then tail_msgs
      else take_tail per_chars total (sat_add u32_max used t) rest (tail_msgs ++ [msg])
  end.

(** The messages that are never dropped: the system parts with the known
    failures, and the question. *)
Definition head_messages (per_chars : Z) (t : Transcript) : list ChatMessage :=
  let '(parts, question) := head_parts per_chars (head t) [] None in
  let parts := match ledger_render (ledger t) with
               | Some l => parts ++ [truncate_entry l per_chars]
               | None => parts
               end in
  {| role := ChatRole.System; content := join nl parts |} ::
  match question with
  | Some q => [{| role := ChatRole.User; content := q |}]
  | None => []
  end.

(** [iter().map(...).sum::<u32>()] *)
Definition sum_u32 (l : list Z) : Z := fold_left (fun a b => wrapping_add u32_max a b) l 0%Z.

Definition render (budget : PromptBudget) (t : Transcript) : list ChatMessage :=
  let per_chars := per_entry_chars budget in
  let out := head_messages per_chars t in
  let used := sum_u32 (map (fun m => estimate_tokens (content m)) out) in
  let tail_msgs := take_tail per_chars (total_tokens budget) used (rev (tail t)) [] in
  out ++ rev tail_msgs.
End transcript.

(** ** Bounds of the budget *)

(** A prompt budget fits the model: when the context leaves at least 1024
    tokens beside the reserved answer, prompt and answer together fill the
    context exactly; the total is never below 1024 nor the ceiling of an entry
    below 256, and both fit their [u32]. *)
Theorem prompt_budget_fits ctx max_output :
  in_range u32_max ctx -> in_range u32_max max_output ->
  let b := from_model ctx max_output in
  let r := reserved_tokens ctx max_output in
  (1024 <= total_tokens b <= u32_max)%Z /\ (256 <= per_entry_tokens b <= u32_max)%Z /\
  (1 <= r)%Z /\
  (Z.max ctx 1024 - r >= 1024 -> total_tokens b + r = Z.max ctx 1024)%Z /\
  (Z.max ctx 1024 - r < 1024 -> total_tokens b = 1024)%Z.
Proof.
  intros H1 H2 b r. subst b r. unfold from_model, reserved_tokens. cbn [total_tokens per_entry_tokens].
  set (d := (_ / 8)%Z). assert (0 <= d)%Z by (subst d; apply Z.div_pos; int_solve).
  assert (8 * d <= u32_max)%Z.
  { subst d. etrans; [apply Z.mul_div_le; lia|]. int_solve. }
  clearbody d. unfold_ints. lia.
Qed.

Lemma prompt_budget_fits_witness :
  (1024 <= total_tokens (from_model 8192 4096) <= u32_max)%Z.
Proof. apply (prompt_budget_fits 8192 4096); int_solve. Defined.

(** For a small context the budget overcommits: with a context of 1024
    tokens and 512 reserved for the answer, the prompt alone may fill the whole
    context. *)
Theorem small_context_overcommits :
  reserved_tokens 1024 512 = 512%Z /\ total_tokens (from_model 1024 512) = 1024%Z.
Proof. split; reflexivity. Qed.

(** ** The ledger *)

Definition fingerprints (l : ErrorLedger) : list string := map fingerprint l.

Lemma ledger_find_spec fp l :
  match ledger_find fp l with
  | Some (e, rest) => exists l1 l2, l = l1 ++ e :: l2 /\ rest = l1 ++ l2 /\ fingerprint e = fp /\
      fp ∉ fingerprints l1
  | None => fp ∉ fingerprints l
  end.
Proof.
  induction l as [|e l IH]; simpl; [apply not_elem_of_nil|].
  destruct (String.eqb_spec (fingerprint e) fp) as [Heq|Hne].
  - exists [], l. repeat split; [done|apply not_elem_of_nil].
  - destruct (ledger_find fp l) as [[x rest]|]; simpl.
    + destruct IH as (l1 & l2 & -> & -> & Hf & Hn). exists (e :: l1), l2. repeat split; [done|].
      simpl. intros [|]%elem_of_cons; [congruence|done].
    + intros [|]%elem_of_cons; [congruence|done].
Qed.

(** The ledger of known failures holds at most eight entries, one per
    fingerprint, the latest failure last; a repeated failure moves to the end
    with its count (saturating at 65535) raised by one, and only when a new
    failure finds the ledger full is the oldest entry dropped. *)
Theorem ledger_keeps_recent_failures fp excerpt l :
  NoDup (fingerprints l) -> length l <= LEDGER_CAP ->
  let l' := ledger_record fp excerpt l in
  NoDup (fingerprints l') /\ length l' <= LEDGER_CAP /\
  exists old e, l' = old ++ [e] /\ fingerprint e = fp /\
    match ledger_find fp l with
    | Some (e0, rest) => old = rest /\ count e = Z.min u16_max (count e0 + 1)
    | None => count e = 1%Z /\ (old = l \/ (length l = LEDGER_CAP /\ exists dropped, l = dropped :: old))
    end.
Proof.
  intros Hnd Hlen l'. subst l'. unfold ledger_record. pose proof (ledger_find_spec fp l) as Hf.
  destruct (ledger_find fp l) as [[e rest]|].
  - destruct Hf as (l1 & l2 & -> & -> & <- & Hn). unfold fingerprints in *.
    rewrite !map_app in *. simpl in *. rewrite length_app in *. simpl in *.
    split; [|split; [rewrite length_app; simpl; lia|]].
    + eapply NoDup_Permutation_proper; [|exact Hnd].
      rewrite <- app_assoc. apply Permutation_app_head. symmetry. apply Permutation_cons_append.
    + eexists _, _. split; [reflexivity|]. done.
  - assert (forall old, (exists p, l = p ++ old) -> length old < LEDGER_CAP ->
      let l' := old ++ [{| fingerprint := fp; count := 1; excerpt := truncate_chars excerpt LEDGER_EXCERPT_CHARS |}] in
      NoDup (fingerprints l') /\ length l' <= LEDGER_CAP) as Hold.
    { intros old [p ->] Hl l'. unfold fingerprints in *. subst l'. rewrite map_app in *.
      apply NoDup_app in Hnd as (_ & _ & Hnd). rewrite length_app. simpl. split; [|lia].
      apply NoDup_app. split; [done|]. split; [|apply NoDup_singleton].
      intros x Hx ->%list_elem_of_singleton. apply Hf. rewrite elem_of_app. by right. }
    destruct (Nat.leb_spec LEDGER_CAP (length l)) as [Hge|Hlt].
    + destruct l as [|x l]; [simpl in Hge; unfold LEDGER_CAP in Hge; lia|]. simpl in *.
      destruct (Hold l) as [H1 H2]; [by exists [x]|lia|].
      split; [done|]. split; [done|]. eexists _, _. split; [reflexivity|].
      split; [done|]. split; [done|]. right. split; [lia|eauto].
    + destruct (Hold l) as [H1 H2]; [by exists []|done|].
      split; [done|]. split; [done|]. eexists _, _. split; [reflexivity|]. auto.
Qed.

Lemma ledger_keeps_recent_failures_witness :
  length (ledger_record "sql" "boom" []) <= LEDGER_CAP.
Proof. apply (ledger_keeps_recent_failures "sql" "boom" []); [apply NoDup_nil_2|simpl; unfold LEDGER_CAP; lia]. Defined.

(** ** Rendering *)

Section rendering.
Context `{!JsonDisplay}.

(** Tokens used after adding messages one by one. *)
Definition used_after (used : Z) (msgs : list ChatMessage) : Z :=
  fold_left (fun u m => sat_add u32_max u (estimate_tokens (content m))) msgs used.

Lemma take_tail_spec pc total used l acc :
  exists k, k <= length l /\
    take_tail pc total used l acc = acc ++ map (entry_message pc) (take k l) /\
    (0 < k -> (used_after used (map (entry_message pc) (take k l)) <= total)%Z) /\
    (k < length l -> (total < used_after used (map (entry_message pc) (take (S k) l)))%Z).
Proof.
  revert used acc. induction l as [|e l IH]; intros used acc; simpl.
  { exists 0. rewrite app_nil_r. repeat split; lia. }
  destruct (Z.ltb_spec total (sat_add u32_max used (estimate_tokens (Entry.content e pc)))) as [Hlt|Hge].
  - exists 0. simpl. rewrite app_nil_r. repeat split; lia.
  - destruct (IH (sat_add u32_max used (estimate_tokens (Entry.content e pc))) (acc ++ [entry_message pc e]))
      as (k & H1 & H2 & H3 & H4).
    exists (S k). split; [lia|]. split; [rewrite H2, <- app_assoc; done|].
    split; [|intros; apply H4; lia]. intros _. simpl. destruct k as [|k]; [done|]. apply H3. lia.
Qed.

Lemma truncate_entry_bound s n :
  head_ok s = true -> (14 <= n)%Z -> (Z.of_nat (char_count (truncate_entry s n)) <= n)%Z.
Proof.
  intros Hs Hn. unfold truncate_entry. destruct (Z.leb_spec (Z.of_nat (char_count s)) n); [done|].
  unfold char_count. rewrite chars_app; [|
    rewrite truncate_chars_take; apply head_ok_concat, Forall_take; by apply chars_head_ok_wf|reflexivity].
  rewrite length_app, chars_truncate, length_take by done.
  change (length (chars truncated_suffix)) with 13. unfold sat_sub. lia.
Qed.
End rendering.

(** A text within [n] characters, cut and marked where it is longer. *)
Definition cut (n : Z) (s : string) : string :=
  if decide (Z.of_nat (char_count s) <= n)%Z then s
  else concat_strings (take (Z.to_nat (n - 14)) (chars s)) +:+ truncated_suffix.

Lemma truncate_entry_cut s n : truncate_entry s n = cut n s.
Proof.
  unfold truncate_entry, cut. destruct (Z.leb_spec (Z.of_nat (char_count s)) n); case_decide; try lia; [done|].
  rewrite truncate_chars_take. do 3 f_equal. unfold sat_sub. lia.
Qed.

(** What a run opens with: the system prompt, the tools, the contract, what
    was said before and the known failures in one message, each cut to the
    ceiling of an entry, and the question in another. *)
Definition opening `{!JsonDisplay} (n : Z) (system tools_card contract : string) (prelude : list Entry.t)
  (failures : ErrorLedger) (question : string) : list ChatMessage :=
  let said e := match e with Entry.Prelude s => s | other => cut usize_max (Entry.raw other) end in
  [{| role := ChatRole.System;
      content := join nl (map (cut n) ([system; tools_card; contract] ++ map said prelude ++
                   match failures with
                   | [] => []
                   | _ => ["Known failures:" +:+ concat_strings (map ledger_line failures)]
                   end)) |};
   {| role := ChatRole.User; content := cut n question |}].

Lemma head_parts_preludes `{!JsonDisplay} n prelude question parts :
  head_parts n (map Entry.Prelude prelude ++ [Entry.User question]) parts None =
  (parts ++ map (cut n) prelude, Some (cut n question)).
Proof.
  revert parts. induction prelude as [|s l IH]; intros parts; cbn [map app head_parts].
  - by rewrite app_nil_r, truncate_entry_cut.
  - rewrite IH. unfold Entry.content. by rewrite truncate_entry_cut, <- app_assoc.
Qed.

Lemma head_messages_opening `{!JsonDisplay} n system tools_card contract prelude question tl failures :
  head_messages n {| head := head (start system tools_card contract prelude question); tail := tl; ledger := failures |} =
  opening n system tools_card contract prelude failures question.
Proof.
  unfold head_messages, start, opening. cbn [head ledger].
  set (said := fun e => match e with Entry.Prelude s => s | other => cut usize_max (Entry.raw other) end).
  assert (map (fun e => match e with Entry.Prelude _ => e | other => Entry.Prelude (Entry.content other usize_max) end) prelude =
          map Entry.Prelude (map said prelude)) as ->.
  { rewrite map_map. apply map_ext. intros e. unfold said, Entry.content.
    destruct e; rewrite ?truncate_entry_cut; done. }
  cbn [app head_parts]. rewrite head_parts_preludes. unfold Entry.content. cbn [Entry.raw app].
  rewrite !truncate_entry_cut.
  unfold ledger_render. cbn [map]. destruct failures as [|e l]; [by rewrite app_nil_r|].
  by rewrite truncate_entry_cut, map_app.
Qed.

(** C38: Rendering keeps the opening of a run and drops the oldest of the rest
    first.  Of a transcript as [start] makes it, whatever was pushed to its
    tail and recorded in its ledger since, the messages are the system message,
    with every part of it in order and the known failures, then the question,
    each text cut to the ceiling of an entry; then the latest [k] entries of
    the tail in order, where [k] is the largest number whose messages keep the
    estimated total within the budget. *)
Theorem render_keeps_head_and_recent_tail `{!JsonDisplay} (b : PromptBudget)
    system tools_card contract prelude question tl failures :
  let t := {| head := head (start system tools_card contract prelude question); tail := tl; ledger := failures |} in
  let pc := per_entry_chars b in
  let first := opening pc system tools_card contract prelude failures question in
  let used := sum_u32 (map (fun m => estimate_tokens (content m)) first) in
  let newest j := map (entry_message pc) (rev (last_n j tl)) in
  exists k, k <= length tl /\
    render b t = first ++ map (entry_message pc) (last_n k tl) /\
    (0 < k -> (used_after used (newest k) <= total_tokens b)%Z) /\
    (k < length tl -> (total_tokens b < used_after used (newest (S k)))%Z).
Proof.
  intros t pc first used newest. unfold render. fold pc.
  replace (head_messages pc t) with first by (unfold first, t; by rewrite head_messages_opening). fold used.
  destruct (take_tail_spec pc (total_tokens b) used (rev (tail t)) []) as (k & H1 & H2 & H3 & H4).
  change (tail t) with tl in *. rewrite length_rev in *.
  assert (forall j, take j (rev tl) = rev (last_n j tl)) as Hrev.
  { intros j. unfold last_n. by rewrite firstn_rev. }
  exists k. split; [done|]. split; [|unfold newest; by rewrite <- !Hrev].
  rewrite H2, Hrev. simpl. by rewrite <- map_rev, rev_involutive.
Qed.

(** An entry is rendered within the entry ceiling of any budget a model
    gives, whatever its text. *)
Theorem entries_are_bounded `{!JsonDisplay} ctx max_output e :
  in_range u32_max ctx -> in_range u32_max max_output -> head_ok (Entry.raw e) = true ->
  let pc := per_entry_chars (from_model ctx max_output) in
  (Z.of_nat (char_count (Entry.content e pc)) <= pc)%Z /\
  ((Z.of_nat (char_count (Entry.raw e)) <= pc)%Z -> Entry.content e pc = Entry.raw e).
Proof.
  intros H1 H2 Hs pc. split.
  - apply truncate_entry_bound; [done|]. unfold pc, per_entry_chars, tokens_to_chars, from_model.
    cbn [per_entry_tokens]. set (d := (_ / 8)%Z). clearbody d. int_solve.
  - intros Hle. unfold Entry.content, truncate_entry. by apply Z.leb_le in Hle as ->.
Qed.

Lemma entries_are_bounded_witness :
  let pc := per_entry_chars (from_model 8192 4096) in
  (Z.of_nat (char_count (Entry.content (H := fun _ => "null") (Entry.User "hello") pc)) <= pc)%Z.
Proof. apply (entries_are_bounded (H := fun _ => "null") 8192 4096 (Entry.User "hello")); [int_solve|int_solve|reflexivity]. Defined.
