(* ===== verification/Llm.v ===== *)
(** * The language-model interface

    [src/src/core/src/llm.rs]: the options of a call, the laws every provider
    adapter shares, and the backoff of the gateway.  The messages and roles are
    in [Transcript]. *)

From stdpp Require Import base list strings.
From Stdlib Require Import ZArith Lia Ascii.
From S2P Require Import Prelude.
From S2P Require Import RustStr.
From S2P Require Import Json.
From S2P Require Import Errors.
From S2P Require Import Schema.
From S2P Require Import Transcript.

Inductive LlmExpectedFormat : Type :=
| Text
| JsonObject
| JsonSchema (s : OpenAiStrictSchema).

Inductive ReasoningEffort : Type := EffortNone | Low | Medium | High | ExtraHigh.

(** Temperatures and probabilities are opaque codes of finite floats. *)
Record LlmCallOptions : Type := {
  prompt_id : string;
  opt_thread_id : option string;
  model : option string;
  expected_format : LlmExpectedFormat;
  max_output_tokens : option Z;
  temperature : option Z;
  top_p : option Z;
  reasoning_effort : option ReasoningEffort;
  timeout_secs : option Z
}.

Definition set_expected_format (f : LlmExpectedFormat) (o : LlmCallOptions) : LlmCallOptions :=
  {| prompt_id := prompt_id o; opt_thread_id := opt_thread_id o; model := model o; expected_format := f;
     max_output_tokens := max_output_tokens o; temperature := temperature o; top_p := top_p o;
     reasoning_effort := reasoning_effort o; timeout_secs := timeout_secs o |}.

(** [if options.thread_id.is_none() { options.thread_id = t }] *)
Definition default_thread_id (t : option string) (o : LlmCallOptions) : LlmCallOptions :=
  match opt_thread_id o with
  | Some _ => o
  | None =>
      {| prompt_id := prompt_id o; opt_thread_id := t; model := model o; expected_format := expected_format o;
         max_output_tokens := max_output_tokens o; temperature := temperature o; top_p := top_p o;
         reasoning_effort := reasoning_effort o; timeout_secs := timeout_secs o |}
  end.

Definition require_nonempty_messages {T} (messages : list T) : Result unit LlmError.t :=
  match messages with
  | [] => Err (LlmError.Protocol "chat request has no messages")
  | _ => Ok tt
  end.

Inductive OpenAiApi : Type := Responses | ChatCompletions.

Definition openai_api_for_model (model : string) : OpenAiApi :=
  let m := to_ascii_lowercase (trim model) in
  if starts_with m "gpt-5" then Responses
  else match m with
       | String b0 (String b1 _) =>
           if Ascii.eqb b0 "o"%char && is_ascii_digit b1 then Responses else ChatCompletions
       | _ => ChatCompletions
       end.

Definition ChatRole_try_from (s : string) : Result ChatRole.t string :=
  let other := to_ascii_lowercase (trim s) in
  if String.eqb other "system" then Ok ChatRole.System
  else if String.eqb other "user" then Ok ChatRole.User
  else if String.eqb other "assistant" then Ok ChatRole.Assistant
  else Err ("unknown ChatRole: '" +:+ other +:+ "'").

Definition LLM_TRANSIENT_RETRY_DELAYS_MS : list Z := [2000; 4000]%Z.

(** The role of a message survives being written and read. *)
Lemma ChatRole_round_trip r : ChatRole_try_from (ChatRole.display r) = Ok r.
Proof. by destruct r; vm_compute. Qed.

Example api_gpt5 : openai_api_for_model " GPT-5-mini " = Responses.
Proof. by vm_compute. Qed.

Example api_o3 : openai_api_for_model "o3" = Responses.
Proof. by vm_compute. Qed.

Example api_4o : openai_api_for_model "gpt-4o" = ChatCompletions.
Proof. by vm_compute. Qed.
