(* ===== verification/Observability.v ===== *)
(** * Observability of model calls

    [src/src/core/src/llm_observability.rs]: call ids and the deduplicated
    prompt parts that are logged.  The two process-wide caches are a record;
    SHA-256 is a parameter. *)

From stdpp Require Import base list strings gmap pretty.
From Stdlib Require Import ZArith Lia.
From S2P Require Import Prelude.
From S2P Require Import RustStr.
From S2P Require Import Json.
From S2P Require Import Storage.
From S2P Require Import Transcript.
From S2P Require Import Redaction.

(** [hex::encode(Sha256::digest(bytes))]. *)
Class Sha256 := sha256_hex_str : string -> string.

(** [env_truthy] of [src/src/core/src/lib.rs], over the variables [env]. *)
Definition env_truthy `{!UnicodeLower} (env : string -> option string) (key : string) : bool :=
  match env key with
  | Some v =>
      let vv := to_lowercase (trim v) in
      String.eqb vv "1" || String.eqb vv "true" || String.eqb vv "yes"
  | None => false
  end.

Section switches.
Context `{!UnicodeLower} (env : string -> option string).

Definition llm_calls_enabled : bool :=
  env_truthy env "REACT_LOG_LLM_CALLS" || env_truthy env "REACT_LOG_THREAD_STEPS".

Definition llm_response_text_enabled : bool :=
  env_truthy env "REACT_LOG_LLM_RESPONSE_TEXT" || env_truthy env "REACT_LOG_THREAD_STEPS".
End switches.

(** [serde_json::json!] of a message, keys in order. *)
Definition message_value (m : ChatMessage) : Value :=
  VObject [("content", VString (content m)); ("role", VString (ChatRole.display (role m)))].

Definition prompt_hash_for_messages `{!Sha256, !Serde} (messages : list ChatMessage) : string :=
  sha256_hex_str
    (match to_vec (VArray (map message_value messages)) with Ok b => b | Err _ => EmptyString end).

(** ** The caches *)

Record Caches : Type := {
  part_seen : gset string;
  call_ids : gmap string Z
}.

Definition MAX_PART_SEEN_ENTRIES : nat := 10 * 1000.
Definition MAX_CALL_ID_ENTRIES : nat := 10 * 1000.

Definition evict_part_seen_cache_if_full (c : Caches) : Caches :=
  if Nat.ltb MAX_PART_SEEN_ENTRIES (size (part_seen c))
  then {| part_seen := ∅; call_ids := call_ids c |} else c.

Definition evict_call_id_cache_if_full (c : Caches) : Caches :=
  if Nat.ltb MAX_CALL_ID_ENTRIES (size (call_ids c))
  then {| part_seen := part_seen c; call_ids := ∅ |} else c.

Definition next_call_id (thread_id : string) (c : Caches) : Z * Caches :=
  let entry := (default 0 (call_ids c !! thread_id) + 1)%Z in
  (entry,
   evict_call_id_cache_if_full
     {| part_seen := part_seen c; call_ids := <[thread_id := entry]> (call_ids c) |}).

Record PartInput : Type := { part_name : string; part_text : string }.

Record BuiltParts : Type := { parts : list Value; part_hashes : list (string * string) }.

Definition blank_line : string := nl +:+ nl.

Section build.
Context `{!Sha256, !UnicodeLower}.

Definition chunk_key (thread_id name chunk_hash : string) : string :=
  thread_id +:+ "::" +:+ name +:+ "::" +:+ chunk_hash.

(** One chunk: its rendering, [None] when the redaction panics. *)
Definition render_chunk (thread_id name ch : string) (c : Caches) : option string * Caches :=
  let chunk_hash := sha256_hex_str ch in
  let key := chunk_key thread_id name chunk_hash in
  let is_seen := bool_decide (key ∈ part_seen c) in
  let c := evict_part_seen_cache_if_full
             {| part_seen := {[key]} ∪ part_seen c; call_ids := call_ids c |} in
  if is_seen then (Some ("unchanged: " +:+ chunk_hash), c)
  else (option_map (fun t => "hash: " +:+ chunk_hash +:+ nl +:+ t) (redact_common_secrets ch), c).

Fixpoint render_chunks (thread_id name : string) (chunks : list string) (c : Caches)
  : option (list string) * Caches :=
  match chunks with
  | [] => (Some [], c)
  | ch :: chunks =>
      match render_chunk thread_id name ch c with
      | (None, c) => (None, c)
      | (Some r, c) =>
          let '(rs, c) := render_chunks thread_id name chunks c in
          (option_map (cons r) rs, c)
      end
  end.

Definition render_part (thread_id : string) (p : PartInput) (c : Caches) : option string * Caches :=
  let '(rs, c) := render_chunks thread_id (trim (part_name p)) (split_str blank_line (part_text p)) c in
  (option_map (join blank_line) rs, c).

Definition part_value (name hash text : string) : Value :=
  VObject [("hash", VString hash); ("name", VString name); ("text", VString text)].

Fixpoint build_parts_loop (thread_id : string) (ps : list PartInput) (out_parts : list Value)
  (out_hashes : list (string * string)) (c : Caches) : option BuiltParts * Caches :=
  match ps with
  | [] => (Some {| parts := out_parts; part_hashes := out_hashes |}, c)
  | p :: ps =>
      let name := trim (part_name p) in
      let hash := sha256_hex_str (part_text p) in
      match render_part thread_id p c with
      | (None, c) => (None, c)
      | (Some rendered, c) =>
          build_parts_loop thread_id ps (out_parts ++ [part_value name hash rendered])
            (btree_insert name hash out_hashes) c
      end
  end.

Definition build_parts_for_thread (thread_id : string) (ps : list PartInput) (c : Caches)
  : option BuiltParts * Caches := build_parts_loop thread_id ps [] [] c.
End build.

(** ** Parts are logged once *)

Section parts_once.
Context `{!Sha256, !UnicodeLower}.

Definition chunks_of (p : PartInput) : list string := split_str blank_line (part_text p).

Definition keys_of (thread_id : string) (p : PartInput) : list string :=
  map (fun ch => chunk_key thread_id (trim (part_name p)) (sha256_hex_str ch)) (chunks_of p).

Definition unchanged (ch : string) : string := "unchanged: " +:+ sha256_hex_str ch.

Definition unchanged_part (p : PartInput) : Value :=
  part_value (trim (part_name p)) (sha256_hex_str (part_text p))
    (join blank_line (map unchanged (chunks_of p))).

Definition has_room (c : Caches) (n : nat) : Prop := size (part_seen c) + n <= MAX_PART_SEEN_ENTRIES.

Definition grew (keys : list string) (c c' : Caches) : Prop :=
  part_seen c ⊆ part_seen c' /\ (forall k, k ∈ keys -> k ∈ part_seen c') /\
  size (part_seen c') <= size (part_seen c) + length keys.

Lemma size_union_one (k : string) (s : gset string) : size ({[k]} ∪ s) <= S (size s).
Proof.
  destruct (decide (k ∈ s)); [replace ({[k]} ∪ s) with s by set_solver; lia|].
  rewrite size_union by set_solver. rewrite size_singleton. lia.
Qed.

Lemma no_evict s (c : Caches) :
  size s <= MAX_PART_SEEN_ENTRIES ->
  evict_part_seen_cache_if_full {| part_seen := s; call_ids := call_ids c |} =
  {| part_seen := s; call_ids := call_ids c |}.
Proof. intros Hs. unfold evict_part_seen_cache_if_full. simpl. by rewrite (proj2 (Nat.ltb_ge _ _)). Qed.

Lemma render_chunks_grows thread_id name chunks c rs c' :
  render_chunks thread_id name chunks c = (Some rs, c') -> has_room c (length chunks) ->
  grew (map (fun ch => chunk_key thread_id name (sha256_hex_str ch)) chunks) c c'.
Proof.
  revert c rs c'. induction chunks as [|ch chunks IH]; intros c rs c' Hr Hroom; cbn [render_chunks] in Hr.
  { injection Hr as <- <-. split_and!; [done|intros k Hk; by apply elem_of_nil in Hk|simpl; lia]. }
  unfold render_chunk in Hr. set (key := chunk_key _ _ _) in *.
  pose proof (size_union_one key (part_seen c)) as Hsz. unfold has_room in Hroom. cbn [length] in Hroom.
  rewrite no_evict in Hr by lia. set (c1 := {| part_seen := _; call_ids := _ |}) in *.
  assert (exists rs', render_chunks thread_id name chunks c1 = (Some rs', c')) as [rs' Hrs].
  { destruct (bool_decide _); [|destruct (redact_common_secrets ch); [|done]]; cbn [option_map] in Hr;
      destruct (render_chunks thread_id name chunks c1) as [[rs'|] c2]; simplify_eq/=; eauto. }
  destruct (IH _ _ _ Hrs) as (H1 & H2 & H3); [unfold has_room; simpl; lia|]. simpl in H1, H3.
  split_and!; [set_solver| |simpl; lia]. intros k [->|Hk]%elem_of_cons; [set_solver|by apply H2].
Qed.

Lemma render_chunks_seen thread_id name chunks c :
  size (part_seen c) <= MAX_PART_SEEN_ENTRIES ->
  (forall ch, ch ∈ chunks -> chunk_key thread_id name (sha256_hex_str ch) ∈ part_seen c) ->
  render_chunks thread_id name chunks c = (Some (map unchanged chunks), c).
Proof.
  intros Hsz Hin. induction chunks as [|ch chunks IH]; [done|]. cbn [render_chunks]. unfold render_chunk.
  pose proof (Hin ch ltac:(by apply elem_of_cons; left)) as Hk.
  rewrite bool_decide_eq_true_2 by done.
  replace ({[chunk_key thread_id name (sha256_hex_str ch)]} ∪ part_seen c) with (part_seen c) by set_solver.
  rewrite no_evict by done. destruct c as [seen ids]; cbn [part_seen call_ids] in *.
  rewrite IH; [done|]. intros ch' Hc. apply Hin. by apply elem_of_cons; right.
Qed.

Definition all_keys (thread_id : string) (ps : list PartInput) : list string :=
  flat_map (keys_of thread_id) ps.

Lemma build_loop_grows thread_id ps out hs c b c' :
  build_parts_loop thread_id ps out hs c = (Some b, c') -> has_room c (length (all_keys thread_id ps)) ->
  grew (all_keys thread_id ps) c c'.
Proof.
  revert out hs c. induction ps as [|p ps IH]; intros out hs c Hb Hroom; cbn [build_parts_loop] in Hb.
  { injection Hb as <- <-. split_and!; [done|intros k Hk; by apply elem_of_nil in Hk|simpl; lia]. }
  cbn [all_keys flat_map] in *. fold (all_keys thread_id ps) in *.
  unfold has_room in Hroom. rewrite length_app in Hroom. unfold keys_of at 1 in Hroom. rewrite length_map in Hroom.
  unfold render_part in Hb. fold (chunks_of p) in Hb.
  destruct (render_chunks thread_id (trim (part_name p)) (chunks_of p) c) as [[rs|] c1] eqn:Er; [|done].
  cbn [option_map] in Hb. destruct (render_chunks_grows _ _ _ _ _ _ Er) as (H1 & H2 & H3); [unfold has_room; lia|].
  fold (keys_of thread_id p) in H2, H3.
  assert (length (keys_of thread_id p) = length (chunks_of p)) as Hl by apply length_map.
  destruct (IH _ _ _ Hb) as (H4 & H5 & H6); [unfold has_room; lia|].
  split_and!; [set_solver| |rewrite length_app; lia].
  intros k [Hk|Hk]%elem_of_app; [|by apply H5]. apply H4. by apply H2.
Qed.

Lemma build_loop_seen thread_id ps out hs c :
  size (part_seen c) <= MAX_PART_SEEN_ENTRIES ->
  (forall k, k ∈ all_keys thread_id ps -> k ∈ part_seen c) ->
  exists b, build_parts_loop thread_id ps out hs c = (Some b, c) /\
            parts b = out ++ map unchanged_part ps.
Proof.
  intros Hsz. revert out hs. induction ps as [|p ps IH]; intros out hs Hin; cbn [build_parts_loop map].
  { eexists. split; [done|]. by rewrite app_nil_r. }
  cbn [all_keys flat_map] in Hin. fold (all_keys thread_id ps) in Hin.
  unfold render_part. fold (chunks_of p). rewrite render_chunks_seen; [|done|].
  - cbn [option_map]. destruct (IH (out ++ [unchanged_part p])
      (btree_insert (trim (part_name p)) (sha256_hex_str (part_text p)) hs)) as (b & Hb & Hp).
    { intros k Hk. apply Hin. apply elem_of_app. by right. }
    exists b. split; [exact Hb|]. by rewrite Hp, <- app_assoc.
  - intros ch Hch. apply Hin. apply elem_of_app. left. unfold keys_of.
    apply list_elem_of_In, in_map_iff. exists ch. split; [done|by apply list_elem_of_In].
Qed.

(** A prompt is logged once: when a thread's parts have been built and the
    cache had room for their chunks, building the same parts again logs no
    text, only the hash of each chunk, and leaves the cache as it is. *)
Theorem parts_are_logged_once thread_id ps c b c' :
  build_parts_for_thread thread_id ps c = (Some b, c') ->
  size (part_seen c) + length (all_keys thread_id ps) <= MAX_PART_SEEN_ENTRIES ->
  exists b', build_parts_for_thread thread_id ps c' = (Some b', c') /\
    parts b' = map unchanged_part ps.
Proof.
  intros Hb Hroom. destruct (build_loop_grows _ _ _ _ _ _ _ Hb Hroom) as (_ & H2 & H3).
  apply (build_loop_seen thread_id ps [] [] c'); [lia|done].
Qed.
End parts_once.

Definition no_caches : Caches := {| part_seen := ∅; call_ids := ∅ |}.

Lemma parts_are_logged_once_witness :
  let _ : Sha256 := fun s => s in
  let _ : UnicodeLower := to_ascii_lowercase in
  let ps := [{| part_name := "user.0"; part_text := "head" +:+ blank_line +:+ "tail" |}] in
  exists b', build_parts_for_thread "t" ps (build_parts_for_thread "t" ps no_caches).2
             = (Some b', (build_parts_for_thread "t" ps no_caches).2) /\
    parts b' = map unchanged_part ps.
Proof.
  intros H L ps.
  destruct (build_parts_for_thread "t" ps no_caches) as [[b|] c'] eqn:E; [|by vm_compute in E].
  apply (parts_are_logged_once "t" ps no_caches b c' E). unfold MAX_PART_SEEN_ENTRIES.
  change (length (all_keys "t" ps)) with 2. change (size (part_seen no_caches)) with 0. lia.
Defined.

(** ** Call ids *)

(** The cache of call ids forgets: when ten thousand threads have one and
    another thread makes a call, every counter is dropped, and the next call
    of a thread already at [n] is numbered 1 again, as its first one was. *)
Theorem call_ids_start_again c thread_id other n :
  size (call_ids c) = MAX_CALL_ID_ENTRIES -> call_ids c !! thread_id = Some n -> call_ids c !! other = None ->
  (next_call_id thread_id c).1 = (n + 1)%Z /\
  (next_call_id thread_id (next_call_id other c).2).1 = 1%Z.
Proof.
  intros Hsz Ht Ho. unfold next_call_id. rewrite Ht. split; [done|]. rewrite Ho. cbn [fst snd].
  unfold evict_call_id_cache_if_full at 1. cbn [call_ids part_seen].
  rewrite map_size_insert_None by done. rewrite (proj2 (Nat.ltb_lt _ _)) by lia. cbn [call_ids].
  by rewrite lookup_empty.
Qed.

(** A cache with the ids of the first [n] numbers' threads. *)
Definition ids_up_to (n : nat) : list (string * Z) := (fun i => (pretty i, 7%Z)) <$> seq 0 n.

Lemma ids_up_to_keys n : (ids_up_to n).*1 = (pretty : nat -> string) <$> seq 0 n.
Proof. unfold ids_up_to. by rewrite <- list_fmap_compose. Qed.

Lemma ids_up_to_NoDup n : NoDup (ids_up_to n).*1.
Proof. rewrite ids_up_to_keys. apply NoDup_fmap_2; [apply _|]. apply NoDup_seq. Qed.

Definition full_ids (n : nat) : gmap string Z := list_to_map (ids_up_to n).

Lemma full_ids_size n : size (full_ids n) = n.
Proof.
  unfold full_ids. rewrite map_size_list_to_map by apply ids_up_to_NoDup.
  unfold ids_up_to. by rewrite length_fmap, length_seq.
Qed.

Lemma full_ids_lookup n i : i < n -> full_ids n !! pretty i = Some 7%Z.
Proof.
  intros Hi. apply elem_of_list_to_map_1; [apply ids_up_to_NoDup|].
  unfold ids_up_to. apply list_elem_of_fmap. exists i. split; [done|]. apply elem_of_seq. lia.
Qed.

Lemma full_ids_none n i : n <= i -> full_ids n !! pretty i = None.
Proof.
  intros Hi. apply not_elem_of_list_to_map_1. rewrite ids_up_to_keys.
  intros [j [Hj Hin]]%list_elem_of_fmap. apply (inj pretty) in Hj as <-. apply elem_of_seq in Hin. lia.
Qed.

Lemma call_ids_start_again_witness :
  let c := {| part_seen := ∅; call_ids := full_ids MAX_CALL_ID_ENTRIES |} in
  (next_call_id (pretty 3) c).1 = 8%Z /\
  (next_call_id (pretty 3) (next_call_id (pretty MAX_CALL_ID_ENTRIES) c).2).1 = 1%Z.
Proof.
  intros c. apply (call_ids_start_again c (pretty 3) (pretty MAX_CALL_ID_ENTRIES) 7).
  - apply full_ids_size.
  - apply full_ids_lookup. unfold MAX_CALL_ID_ENTRIES. lia.
  - by apply full_ids_none.
Defined.
