(* ===== verification/Gateway.v ===== *)
(** * The gateway to the language model

    [AgentCtx] and [src/src/core/src/agent/llm_gateway.rs]: every chat call
    goes through [llm_chat], which charges the budget, retries transient
    failures and logs the call.  The model provider, the timers and the clock
    are the operations of [Runtime]; the thread's log is [StepLog]. *)

From stdpp Require Import base list strings gmap.
From Stdlib Require Import ZArith Lia.
From S2P Require Import Prelude.
From S2P Require Import RustStr.
From S2P Require Import Json.
From S2P Require Import Errors.
From S2P Require Import Budget.
From S2P Require Import Storage.
From S2P Require Import SessionTypes.
From S2P Require Import Observed.
From S2P Require Import JsonRepair.
From S2P Require Import Transcript.
From S2P Require Import Llm.
From S2P Require Import Redaction.
From S2P Require Import Observability.

(** The branch of a [tokio::select!] that completed first. *)
Inductive Raced (A : Type) : Type :=
| Finished (a : A)
| CancelWon
| TimerWon.
Arguments Finished {A} a.
Arguments CancelWon {A}.
Arguments TimerWon {A}.

(** What a run needs of its surroundings.  [chat] is the provider's future
    raced against [cancelled()] ([None] when that wins), [chat_within] the
    same raced against a timer too, and [tool_race] says how the race of a
    tool call against both ends; when the call loses, the world it returns has
    whatever the dropped future did.  [throttle] is the observer, doing nothing
    when none is installed. *)
Class Runtime (W : Type) := {
  meter : W -> BudgetMeter.t;
  set_meter : BudgetMeter.t -> W -> W;
  is_cancelled : W -> bool;
  caches : W -> Caches;
  set_caches : Caches -> W -> W;
  now : W -> string * W;
  fresh_uuid : W -> string * W;
  sleep : Z -> W -> W;
  throttle : string -> string -> nat -> W -> W;
  send_progress : nat -> W -> W;
  send_pre_step : string -> W -> W;
  send_trace : string -> W -> W;
  read_steps : Act W CoreError.t (list ThreadStep.t);
  chat : list ChatMessage -> LlmCallOptions -> W -> option (Result string LlmError.t) * W;
  chat_within : Z -> list ChatMessage -> LlmCallOptions -> W -> Raced (Result string LlmError.t) * W;
  embed : list string -> W -> option (Result (list (list Z)) LlmError.t) * W;
  tool_race : string -> Value -> Z -> W -> Raced unit * W
}.

(** The settings of a run.  Channels, scope, keyspace, vector store and
    capabilities are not read by the loop; [ctx_llm] is the [llm] section of
    the resolved configuration (context length, output limit, model). *)
Record AgentCtx : Type := {
  ctx_thread_id : option string;
  ctx_agent_name : option string;
  ctx_per_step_timeout_secs : Z;
  ctx_exec_ctx : option ExecutionContext;
  ctx_has_store : bool;
  ctx_llm : option (option Z * option Z * option string)
}.

Definition agent_name_or_default (ctx : AgentCtx) : string := default "unknown" (ctx_agent_name ctx).

Definition prompt_budget (ctx : AgentCtx) : PromptBudget :=
  match ctx_llm ctx with
  | Some (context_length, max_tokens, _) => from_resolved context_length max_tokens
  | None => from_model DEFAULT_CONTEXT DEFAULT_MAX_OUTPUT
  end.

Definition resolved_model_name (ctx : AgentCtx) : string :=
  match ctx_llm ctx with
  | Some (_, _, Some m) => m
  | _ => "unknown"
  end.

Section gateway.
Context {W : Type} `{HR : !Runtime W, HL : !StepLog W, HSha : !Sha256, HLow : !UnicodeLower, HSd : !Serde}.
(** The environment variables. *)
Variable env : string -> option string.
Variable ctx : AgentCtx.

Definition charge (c : Charge) : Act W BudgetExhausted.t unit :=
  fun w => let '(r, m) := BudgetMeter.charge c (meter w) in (r, set_meter m w).

(** ** One call, and its retries *)

Definition invoke_llm_once (messages : list ChatMessage) (options : LlmCallOptions) : Act W LlmError.t string :=
  fun w =>
    if is_cancelled w then (Err LlmError.Cancelled, w)
    else match charge LlmCall w with
         | (Err b, w) => (Err (LlmError.Budget b), w)
         | (Ok _, w) =>
             match timeout_secs options with
             | Some timeout =>
                 match chat_within timeout messages options w with
                 | (Finished result, w) => (result, w)
                 | (CancelWon, w) => (Err LlmError.Cancelled, w)
                 | (TimerWon, w) => (Err (LlmError.Timeout timeout), w)
                 end
             | None =>
                 match chat messages options w with
                 | (Some result, w) => (result, w)
                 | (None, w) => (Err LlmError.Cancelled, w)
                 end
             end
         end.

Definition invoke_llm (messages : list ChatMessage) (options : LlmCallOptions) : Act W CoreError.t string :=
  act_map_err CoreError.Llm
    (retry_classified (invoke_llm_once messages options)
       (fun attempt err w => throttle (prompt_id options) (LlmError.display err) attempt w)
       sleep LLM_TRANSIENT_RETRY_DELAYS_MS).

(** ** Logging *)

Record ObservabilityContext : Type := {
  call_id : option Z;
  oc_phase : string;
  oc_prompt_hash : string;
  parts_built : option BuiltParts
}.

(** The last phase with a name, of the steps backwards. *)
Fixpoint find_phase (rev_steps : list ThreadStep.t) : string :=
  match rev_steps with
  | [] => "suite_llm"
  | ThreadStep.Phase phase _ _ _ _ _ _ :: rest =>
      let t := trim phase in if str_is_empty t then find_phase rest else t
  | _ :: rest => find_phase rest
  end.

Definition current_log_phase : Prog W CoreError.t string :=
  fun w =>
    if ctx_has_store ctx then
      match read_steps w with
      | (Ok steps, w) => (Some (Ok (find_phase (rev steps))), w)
      | (Err _, w) => (Some (Ok "suite_llm"), w)
      end
    else (Some (Ok "suite_llm"), w).

(** The named parts of the messages. *)
Definition message_part (i : nat) (m : ChatMessage) : PartInput :=
  {| part_name := ChatRole.display (role m) +:+ "." +:+ fmt_nat i; part_text := content m |}.

Definition on_caches {A} (f : Caches -> A * Caches) : W -> A * W :=
  fun w => let '(a, c) := f (caches w) in (a, set_caches c w).

Definition prepare_observability (messages : list ChatMessage) : Prog W CoreError.t ObservabilityContext :=
  match (if llm_calls_enabled env then ctx_thread_id ctx else None) with
  | None =>
      prog_ret {| call_id := None; oc_phase := "suite_llm"; oc_prompt_hash := EmptyString; parts_built := None |}
  | Some tid =>
      run! id <- prog_do (on_caches (next_call_id tid));
      run! phase <- current_log_phase;
      run! built <- (fun w => let '(b, w) := on_caches (build_parts_for_thread tid (imap message_part messages)) w in
                              (option_map Ok b, w));
      prog_ret {| call_id := Some id; oc_phase := phase;
                  oc_prompt_hash := prompt_hash_for_messages messages; parts_built := Some built |}
  end.

(** The condition of all three log steps: a call id, a thread and a store. *)
Definition logged (oc : ObservabilityContext) : option Z :=
  match call_id oc, ctx_thread_id ctx, ctx_has_store ctx with
  | Some id, Some _, true => Some id
  | _, _, _ => None
  end.

Definition append_step (step : ThreadStep.t) : Prog W CoreError.t unit := prog_act id (append step).

Definition llm_start_step (oc : ObservabilityContext) (id : Z) (ts : string) : ThreadStep.t :=
  ThreadStep.LlmStart id (Some (resolved_model_name ctx)) (oc_phase oc) (ctx_exec_ctx ctx) ts
    (agent_name_or_default ctx).

Definition emit_llm_start_step (oc : ObservabilityContext) : Prog W CoreError.t unit :=
  match logged oc with
  | Some id => run! ts <- prog_do now; append_step (llm_start_step oc id ts)
  | None => prog_ret tt
  end.

Definition response_raw (res : Result string CoreError.t) : string :=
  match res with Ok txt => txt | Err e => CoreError.display e end.

Definition llm_end_step (oc : ObservabilityContext) (id : Z) (res : Result string CoreError.t) (ts : string)
  : ThreadStep.t :=
  ThreadStep.LlmEnd id (Some (resolved_model_name ctx)) (oc_phase oc)
    (if is_Ok res then LlmStepStatus.Ok else LlmStepStatus.Failed)
    (if is_Ok res then None else Some (response_raw res)) (ctx_exec_ctx ctx) ts (agent_name_or_default ctx).

Definition emit_llm_end_step (oc : ObservabilityContext) (res : Result string CoreError.t)
  : Prog W CoreError.t unit :=
  match logged oc with
  | Some id => run! ts <- prog_do now; append_step (llm_end_step oc id res ts)
  | None => prog_ret tt
  end.

Definition llm_call_step (oc : ObservabilityContext) (id : Z) (built : BuiltParts)
  (res : Result string CoreError.t) (text : option string) (ts : string) : ThreadStep.t :=
  ThreadStep.LlmCall id (resolved_model_name ctx) (oc_phase oc) (oc_prompt_hash oc)
    (parts built) (part_hashes built) (sha256_hex_str (response_raw res)) text
    (if is_Ok res then Observation.success else Observation.fail ["llm_call_failed"])
    ts (agent_name_or_default ctx).

Definition record_llm_observation (oc : ObservabilityContext) (res : Result string CoreError.t)
  : Prog W CoreError.t unit :=
  match logged oc, parts_built oc with
  | Some id, Some built =>
      run! text <- prog_option (if llm_response_text_enabled env
                                then option_map Some (redact_common_secrets (response_raw res))
                                else Some None);
      run! ts <- prog_do now;
      append_step (llm_call_step oc id built res text ts)
  | _, _ => prog_ret tt
  end.

(** ** The single entry point *)

Definition llm_chat (messages : list ChatMessage) (options : LlmCallOptions) : Prog W CoreError.t string :=
  run! oc <- prepare_observability messages;
  run! _ <- emit_llm_start_step oc;
  fun w =>
    let '(res, w) := invoke_llm messages (default_thread_id (ctx_thread_id ctx) options) w in
    prog_bind (emit_llm_end_step oc res) (fun _ =>
    prog_bind (record_llm_observation oc res) (fun _ =>
    prog_act id (act_lift res))) w.

Definition json_only : ChatMessage :=
  {| role := ChatRole.User;
     content := "IMPORTANT: Return ONLY a single valid JSON object. No markdown, no code fences, no prose." |}.

(** [llm_chat] with a JSON parse and one retry. *)
Definition llm_chat_json {T} `{!JsonStream, !DeserializeOwned T, HV : !DeserializeOwned Value}
  (messages : list ChatMessage) (options : LlmCallOptions) : Prog W CoreError.t T :=
  run! raw <- llm_chat messages options;
  match resilient_parse (T := T) raw with
  | Ok v => prog_ret v
  | Err _ =>
      let first_err :=
        match from_str (DeserializeOwned := HV) raw with
        | Ok _ => StepParseError.ShapeMismatch "valid JSON of the wrong shape"
        | Err e => StepParseError.NotJson e
        end in
      run! raw2 <- llm_chat (messages ++ [json_only]) options;
      prog_act id (act_lift (res_map_err (fun e2 =>
        CoreError.Parse (StepParseError.NotJson
          (prompt_id options +:+ ": " +:+ e2 +:+ " (first_error: " +:+ StepParseError.display first_err +:+ ")")))
        (resilient_parse (T := T) raw2)))
  end.

Definition llm_embed (texts : list string) : Act W CoreError.t (list (list Z)) :=
  fun w =>
    if is_cancelled w then (Err (CoreError.Llm LlmError.Cancelled), w)
    else match charge LlmCall w with
         | (Err b, w) => (Err (CoreError.Budget b), w)
         | (Ok _, w) =>
             match embed texts w with
             | (Some result, w) => (res_map_err CoreError.Llm result, w)
             | (None, w) => (Err (CoreError.Llm LlmError.Cancelled), w)
             end
         end.
End gateway.

(** ** Laws of the environment *)

(** The shared meter only moves forward: other tasks may charge it, nobody
    changes its ceilings. *)
Definition moved `{!Runtime W} (w w' : W) : Prop :=
  BudgetMeter.budget (meter w') = BudgetMeter.budget (meter w) /\
  forall c, (BudgetMeter.cell c (meter w) <= BudgetMeter.cell c (meter w'))%Z.

(** ... and the thread's log is left alone. *)
Definition quiet `{!Runtime W, !StepLog W} (w w' : W) : Prop := logs w [] w' /\ moved w w'.

#[global] Instance moved_preorder `{!Runtime W} : PreOrder moved.
Proof.
  split.
  - intros w. split; [done|]. intros c. lia.
  - intros a b c [H1 H2] [H3 H4]. split; [congruence|]. intros d. specialize (H2 d). specialize (H4 d). lia.
Qed.

#[global] Instance quiet_preorder `{!Runtime W, !StepLog W} : PreOrder quiet.
Proof.
  split; [by split; [apply logs_nil|]|]. intros a b c [H1 H2] [H3 H4].
  split; [exact (logs_trans _ _ _ _ _ H1 H3)|by etrans].
Qed.

Class RuntimeLaws (W : Type) `{!Runtime W, !StepLog W} : Prop := {
  meter_set m w : meter (set_meter m w) = m;
  logs_set m w : logs w [] (set_meter m w);
  quiet_caches c w : quiet w (set_caches c w);
  quiet_now w : quiet w (now w).2;
  quiet_uuid w : quiet w (fresh_uuid w).2;
  quiet_sleep d w : quiet w (sleep d w);
  quiet_throttle p e n w : quiet w (throttle p e n w);
  quiet_progress n w : quiet w (send_progress n w);
  quiet_pre_step s w : quiet w (send_pre_step s w);
  quiet_trace s w : quiet w (send_trace s w);
  quiet_read w : quiet w (read_steps w).2;
  quiet_chat m o w : quiet w (chat m o w).2;
  quiet_chat_within t m o w : quiet w (chat_within t m o w).2;
  quiet_embed t w : quiet w (embed t w).2;
  moved_race n a t w : moved w (tool_race n a t w).2;
  moved_append s w : moved w (append s w).2;
  runtime_log :: StepLogLaws W
}.

Lemma budget_charge_cell c m :
  let '(r, m') := BudgetMeter.charge c m in
  BudgetMeter.budget m' = BudgetMeter.budget m /\
  match r with
  | Ok _ => BudgetMeter.cell c m' = (BudgetMeter.cell c m + 1)%Z /\
            (BudgetMeter.cell c m < ceiling (BudgetMeter.budget m) c)%Z /\
            forall c', c' <> c -> BudgetMeter.cell c' m' = BudgetMeter.cell c' m
  | Err b => m' = m /\ b = exhausted c /\ (ceiling (BudgetMeter.budget m) c <= BudgetMeter.cell c m)%Z
  end.
Proof.
  unfold BudgetMeter.charge, BudgetMeter.snapshot, BudgetMeter.compare_exchange.
  destruct (Z.leb_spec (ceiling (BudgetMeter.budget m) c) (BudgetMeter.cell c m)); [done|].
  rewrite Z.eqb_refl. split; [apply BudgetMeter.budget_store|]. split_and!; [|done|].
  - rewrite BudgetMeter.cell_store. by destruct (decide (c = c)).
  - intros c' Hne. rewrite BudgetMeter.cell_store. by destruct (decide (c = c')).
Qed.

(** A relation that every step of the environment keeps, the appends to the
    log and the tools apart. *)
Class Stable {W : Type} `{!Runtime W} (R : relation W) : Prop := {
  stable_preorder :: PreOrder R;
  stable_charge c w : R w (charge c w).2;
  stable_caches c w : R w (set_caches c w);
  stable_now w : R w (now w).2;
  stable_uuid w : R w (fresh_uuid w).2;
  stable_sleep d w : R w (sleep d w);
  stable_throttle p e n w : R w (throttle p e n w);
  stable_progress n w : R w (send_progress n w);
  stable_pre_step s w : R w (send_pre_step s w);
  stable_trace s w : R w (send_trace s w);
  stable_read w : R w (read_steps w).2;
  stable_chat m o w : R w (chat m o w).2;
  stable_chat_within t m o w : R w (chat_within t m o w).2;
  stable_embed t w : R w (embed t w).2
}.

(** ... and one that these keep too. *)
Class Advancing {W : Type} `{!Runtime W, !StepLog W} (R : relation W) : Prop := {
  advancing_stable :: Stable R;
  advancing_append s w : R w (append s w).2;
  advancing_race n a t w : R w (tool_race n a t w).2
}.

Section gateway_laws.
Context {W : Type} `{HR : !Runtime W, HL : !StepLog W, HLaws : !RuntimeLaws W}.

Lemma quiet_charge c w : quiet w (charge c w).2.
Proof.
  unfold charge. pose proof (budget_charge_cell c (meter w)) as H.
  destruct (BudgetMeter.charge c (meter w)) as [r m]. destruct H as [Hb Hr]. simpl.
  split; [apply logs_set|]. split; [by rewrite meter_set|]. intros c'. rewrite meter_set.
  destruct r as [u|b]; [|by destruct Hr as (-> & _)].
  destruct Hr as (H1 & _ & H2). destruct (decide (c' = c)) as [->|Hne]; [lia|]. rewrite H2 by done. lia.
Qed.

#[export] Instance quiet_stable : Stable quiet.
Proof.
  split; first [exact _|apply quiet_charge|apply quiet_caches|apply quiet_now|apply quiet_uuid|apply quiet_sleep
    |apply quiet_throttle|apply quiet_progress|apply quiet_pre_step|apply quiet_trace|apply quiet_read
    |apply quiet_chat|apply quiet_chat_within|apply quiet_embed].
Qed.

(** Coarser than [quiet], so stable. *)
Lemma stable_coarser (R : relation W) `{!PreOrder R} : (forall w w', quiet w w' -> R w w') -> Stable R.
Proof.
  intros H. split; first [done|intros; apply H; first [apply quiet_charge|apply stable_caches|apply stable_now
    |apply stable_uuid|apply stable_sleep|apply stable_throttle|apply stable_progress|apply stable_pre_step
    |apply stable_trace|apply stable_read|apply stable_chat|apply stable_chat_within|apply stable_embed]].
Qed.

#[export] Instance moved_advancing : Advancing moved.
Proof.
  split; [refine (stable_coarser moved _); by intros w w' [_ H]|apply moved_append|apply moved_race].
Qed.
End gateway_laws.

(** ** What a call to the model keeps *)

Section stable.
Context {W : Type} `{HR : !Runtime W, HL : !StepLog W, HSha : !Sha256, HLow : !UnicodeLower, HSd : !Serde}.
Context (R : relation W) `{HStable : !Stable R}.
Variable env : string -> option string.
Variable ctx : AgentCtx.

Lemma stable_invoke_once messages options w : R w (invoke_llm_once messages options w).2.
Proof.
  unfold invoke_llm_once. destruct (is_cancelled w); [done|].
  pose proof (stable_charge LlmCall w) as H. destruct (charge LlmCall w) as [[u|b] w1]; [|done]. cbn [snd] in H.
  destruct (timeout_secs options) as [t|].
  - pose proof (stable_chat_within t messages options w1) as H2.
    destruct (chat_within t messages options w1) as [[?| |] w2]; etrans; done.
  - pose proof (stable_chat messages options w1) as H2.
    destruct (chat messages options w1) as [[?|] w2]; etrans; done.
Qed.

Lemma stable_retry {T} (op : Act W LlmError.t T) on_retry slp i ds last w :
  (forall w, R w (op w).2) -> (forall n e w, R w (on_retry n e w)) -> (forall d w, R w (slp d w)) ->
  R w (retry_loop op on_retry slp i ds last w).2.
Proof.
  intros Ho Hr Hs. revert i last w. induction ds as [|d ds IH]; intros i last w; cbn [retry_loop]; [done|].
  destruct last as [t|e]; [done|]. destruct (retry e); [|done].
  set (w2 := if (0 <? d)%Z then _ else _).
  assert (R w w2) as H2.
  { unfold w2. destruct (0 <? d)%Z; [|apply Hr]. etrans; [apply Hr|apply Hs]. }
  pose proof (Ho w2) as H3. destruct (op w2) as [last' w3]. etrans; [exact H2|]. etrans; [exact H3|]. apply IH.
Qed.

Lemma stable_invoke messages options w : R w (invoke_llm messages options w).2.
Proof.
  unfold invoke_llm, act_map_err, retry_classified.
  pose proof (stable_invoke_once messages options w) as H.
  destruct (invoke_llm_once messages options w) as [last w1]. cbn [snd] in H.
  match goal with |- context [retry_loop ?op ?r ?s ?i ?ds ?l ?w] =>
    pose proof (stable_retry op r s i ds l w (stable_invoke_once messages options)
      (fun n e w => stable_throttle _ _ n w) stable_sleep) as H2;
    destruct (retry_loop op r s i ds l w) as [r' w2] end.
  simpl in *. by etrans.
Qed.

Lemma stable_caches_op {A} (f : Caches -> A * Caches) w : R w (on_caches f w).2.
Proof. unfold on_caches. destruct (f (caches w)). apply stable_caches. Qed.

Lemma stable_prepare messages w : R w (prepare_observability env ctx messages w).2.
Proof.
  unfold prepare_observability. destruct (if llm_calls_enabled env then _ else _) as [tid|]; [|done].
  unfold prog_bind at 1, prog_do.
  pose proof (stable_caches_op (next_call_id tid) w) as H1.
  destruct (on_caches (next_call_id tid) w) as [id w1]. cbn [snd] in H1.
  unfold prog_bind at 1, current_log_phase.
  assert (exists phase w2, (if ctx_has_store ctx then
      match read_steps w1 with
      | (Ok steps, w) => (Some (Ok (find_phase (rev steps)) : Result string CoreError.t), w)
      | (Err _, w) => (Some (Ok "suite_llm"), w)
      end else (Some (Ok "suite_llm"), w1)) = (Some (Ok phase), w2) /\ R w1 w2) as (phase & w2 & -> & H2).
  { pose proof (stable_read w1) as H. destruct (ctx_has_store ctx); [|by eexists _, _].
    destruct (read_steps w1) as [[?|?] w2]; by eexists _, _. }
  unfold prog_bind. match goal with |- context [on_caches ?f w2] =>
    pose proof (stable_caches_op f w2) as H3; destruct (on_caches f w2) as [[built|] w3] end;
    cbn in *; (etrans; [exact H1|]); by etrans.
Qed.
End stable.

(** ** How often the model is asked *)

(** Nobody else uses the meter while the provider and the timers run. *)
Record sole_user `{!Runtime W} : Prop := {
  sole_chat m o (w : W) : meter (chat m o w).2 = meter w;
  sole_chat_within t m o (w : W) : meter (chat_within t m o w).2 = meter w;
  sole_sleep d (w : W) : meter (sleep d w) = meter w;
  sole_throttle p e n (w : W) : meter (throttle p e n w) = meter w
}.
Arguments sole_user W {_}.

Section attempts.
Context {W : Type} `{HR : !Runtime W}.
Hypothesis Hset : forall m (w : W), meter (set_meter m w) = m.
Hypothesis Hsole : sole_user W.

Definition llm_used (w : W) : Z := BudgetMeter.cell LlmCall (meter w).

Lemma invoke_once_charges messages options w :
  let '(r, w') := invoke_llm_once messages options w in
  llm_used w' = llm_used w \/ llm_used w' = (llm_used w + 1)%Z /\
  (llm_used w < ceiling (BudgetMeter.budget (meter w)) LlmCall)%Z.
Proof.
  unfold invoke_llm_once. destruct (is_cancelled w); [by left|]. unfold charge.
  pose proof (budget_charge_cell LlmCall (meter w)) as Hc.
  destruct (BudgetMeter.charge LlmCall (meter w)) as [[u|b] m]; destruct Hc as [_ Hc].
  - destruct Hc as (Hc & Hlt & _).
    assert (forall w', meter w' = meter (set_meter m w) -> llm_used w' = (llm_used w + 1)%Z) as Hw.
    { intros w' Hw'. unfold llm_used at 1. by rewrite Hw', Hset. }
    destruct (timeout_secs options) as [t|].
    + pose proof (sole_chat_within Hsole t messages options (set_meter m w)) as Hm.
      destruct (chat_within t messages options (set_meter m w)) as [[result| |] w2]; right; auto.
    + pose proof (sole_chat Hsole messages options (set_meter m w)) as Hm.
      destruct (chat messages options (set_meter m w)) as [[result|] w2]; right; auto.
  - destruct Hc as (-> & _ & _). left. unfold llm_used. by rewrite Hset.
Qed.

(** An attempt that is not refused is charged. *)
Lemma invoke_once_ok messages options w txt :
  (invoke_llm_once messages options w).1 = Ok txt ->
  llm_used (invoke_llm_once messages options w).2 = (llm_used w + 1)%Z.
Proof.
  pose proof (invoke_once_charges messages options w) as H. unfold invoke_llm_once in *.
  destruct (is_cancelled w); [done|]. unfold charge in *.
  pose proof (budget_charge_cell LlmCall (meter w)) as Hc.
  destruct (BudgetMeter.charge LlmCall (meter w)) as [[u|b] m]; destruct Hc as [_ Hc]; [|done].
  destruct Hc as (Hc & _ & _). intros _. unfold llm_used.
  destruct (timeout_secs options) as [t|].
  - pose proof (sole_chat_within Hsole t messages options (set_meter m w)) as Hm.
    destruct (chat_within t messages options (set_meter m w)) as [[result| |] w2]; simpl in *; by rewrite Hm, Hset.
  - pose proof (sole_chat Hsole messages options (set_meter m w)) as Hm.
    destruct (chat messages options (set_meter m w)) as [[result|] w2]; simpl in *; by rewrite Hm, Hset.
Qed.

Lemma retry_charges messages options on_retry slp i ds last w :
  (forall n e w, meter (on_retry n e w) = meter w) -> (forall d w, meter (slp d w) = meter w) ->
  let '(r, w') := retry_loop (invoke_llm_once messages options) on_retry slp i ds last w in
  (llm_used w <= llm_used w' <= llm_used w + Z.of_nat (length ds))%Z /\
  (is_Ok r = true -> is_Ok last = true \/ (llm_used w < llm_used w')%Z).
Proof.
  intros Hr Hs. revert i last w. induction ds as [|d ds IH]; intros i last w; cbn [retry_loop].
  { simpl. split; [lia|auto]. }
  destruct last as [t|e]; [split; [simpl length; lia|auto]|].
  destruct (retry e); [|split; [simpl length; lia|auto]].
  set (w2 := if (0 <? d)%Z then _ else _).
  assert (llm_used w2 = llm_used w) as Hw2.
  { unfold llm_used, w2. destruct (0 <? d)%Z; by rewrite ?Hs, Hr. }
  pose proof (invoke_once_charges messages options w2) as Ho.
  pose proof (invoke_once_ok messages options w2) as Hok.
  destruct (invoke_llm_once messages options w2) as [last' w3]. cbn [fst snd] in Hok.
  specialize (IH (i + 1) last' w3). destruct (retry_loop _ _ _ _ _ _ _) as [r w'].
  destruct IH as [IH1 IH2]. split; [simpl length; lia|]. intros Hr'. right.
  destruct (IH2 Hr') as [Hl|]; [|lia]. destruct last' as [txt|]; [|done]. rewrite (Hok txt eq_refl) in IH1. lia.
Qed.

(** C25: One chat call asks the model at most three times: while nobody else
    uses the meter, [invoke_llm] is charged for one to three calls when it
    succeeds and for at most three in any case. *)
Theorem invoke_llm_charges_at_most_three messages options w :
  let '(r, w') := invoke_llm messages options w in
  (llm_used w <= llm_used w' <= llm_used w + 3)%Z /\ (is_Ok r = true -> llm_used w < llm_used w')%Z.
Proof.
  unfold invoke_llm, act_map_err, retry_classified.
  pose proof (invoke_once_charges messages options w) as H1.
  pose proof (invoke_once_ok messages options w) as Hok.
  destruct (invoke_llm_once messages options w) as [last w1]; cbn [fst snd] in Hok.
  set (thr := fun attempt err (w : W) => throttle (prompt_id options) (LlmError.display err) attempt w).
  pose proof (retry_charges messages options thr sleep 0 LLM_TRANSIENT_RETRY_DELAYS_MS last w1) as H2.
  destruct (retry_loop _ thr sleep 0 LLM_TRANSIENT_RETRY_DELAYS_MS last w1) as [r w'] eqn:Er.
  specialize (H2 (fun n e w => sole_throttle Hsole _ _ n w) (sole_sleep Hsole)).
  cbn [length LLM_TRANSIENT_RETRY_DELAYS_MS] in H2. destruct H2 as [H2 H3].
  split; [lia|]. intros Hr. destruct r as [txt|]; [|done]. destruct (H3 eq_refl) as [Hl|]; [|lia].
  destruct last as [txt'|]; [|done]. rewrite (Hok txt' eq_refl) in H2. lia.
Qed.
End attempts.

(** ** The log of a call *)

Section bracket.
Context {W : Type} `{HR : !Runtime W, HL : !StepLog W, HSha : !Sha256, HLow : !UnicodeLower, HSd : !Serde}.
Context `{HLaws : !RuntimeLaws W}.
Variable env : string -> option string.
Variable ctx : AgentCtx.

(** Appending at a fresh time: the log gains the step, or the append failed and
    it gains nothing. *)
Lemma append_tried (f : string -> ThreadStep.t) w :
  exists ts w1 c w', prog_bind (prog_do now) (fun ts => append_step (f ts)) w = (Some c, w') /\
    append (f ts) w1 = (c, w') /\ logs w (if is_Ok c then [f ts] else []) w'.
Proof.
  unfold prog_bind, prog_do. pose proof (quiet_now w) as [H1 _]. destruct (now w) as [ts w1]. cbn [snd] in H1.
  unfold append_step, prog_act. pose proof (append_logs (f ts) w1) as H2.
  destruct (append (f ts) w1) as [c w2] eqn:E; cbn [fst snd] in *. exists ts, w1, c, w2.
  split; [by destruct c|]. split; [done|]. exact (logs_trans _ _ _ _ _ H1 H2).
Qed.

Lemma append_now (f : string -> ThreadStep.t) w :
  let '(r, w') := prog_bind (prog_do now) (fun ts => append_step (f ts)) w in
  (exists ts, r = Some (Ok tt) /\ logs w [f ts] w') \/
  (exists e : CoreError.t, r = Some (Err e) /\ logs w [] w').
Proof.
  destruct (append_tried f w) as (ts & w1 & c & w' & -> & _ & H). destruct c as [[]|e]; cbn [is_Ok] in H; [left|right]; eauto.
Qed.

(** The three steps of a logged call: all of one call id, the end with the
    status and the error of the model's answer, the record with its hash. *)
Definition call_bracket (id : Z) (res : Result string CoreError.t) (steps : list ThreadStep.t) : Prop :=
  match steps with
  | [ThreadStep.LlmStart i1 _ _ _ _ _; ThreadStep.LlmEnd i2 _ _ status error _ _ _;
     ThreadStep.LlmCall i3 _ _ _ _ _ response_hash _ observation _ _] =>
      i1 = id /\ i2 = id /\ i3 = id /\
      match res with
      | Ok text => status = LlmStepStatus.Ok /\ error = None /\ response_hash = sha256_hex_str text /\
          observation = Observation.success
      | Err e => status = LlmStepStatus.Failed /\ error = Some (CoreError.display e) /\
          response_hash = sha256_hex_str (CoreError.display e) /\ observation = Observation.fail ["llm_call_failed"]
      end
  | _ => False
  end.

(** The append of the step was tried and failed, and that is all the caller
    learns. *)
Definition append_failed (s : option ThreadStep.t) (r : option (Result string CoreError.t)) (w' : W) : Prop :=
  exists step wx e, s = Some step /\ append step wx = (Err e, w') /\ r = Some (Err e).

(** The text of the answer was to be logged and its redaction panicked. *)
Definition redaction_panicked (res : Result string CoreError.t) : Prop :=
  llm_response_text_enabled env = true /\
  redact_common_secrets (match res with Ok text => text | Err e => CoreError.display e end) = None.

(** C21: A logged chat call is bracketed.  What goes wrong before the call is
    known logs nothing and asks no model.  Otherwise there are three steps,
    [LlmStart], [LlmEnd], [LlmCall], of one call id, whose status, error and
    response hash are those of the model's answer, and the thread's log gains
    the first [n] of them: the model is asked only with [LlmStart] in the log
    and nothing else; with all three in the log the caller gets the model's
    answer; and with fewer the append of the next one failed and the caller
    gets that failure, or, before the third, the redaction of the answer
    panicked. *)
Theorem chat_is_bracketed messages options w tid :
  llm_calls_enabled env = true -> ctx_thread_id ctx = Some tid -> ctx_has_store ctx = true ->
  let '(prepared, w1) := prepare_observability env ctx messages w in
  let '(r, w') := llm_chat env ctx messages options w in
  match prepared with
  | Some (Ok oc) =>
      exists n id res steps, call_bracket id res steps /\ logs w (take n steps) w' /\
        (0 < n -> exists before after, logs w (take 1 steps) before /\ logs w (take 1 steps) after /\
           invoke_llm messages (default_thread_id (Some tid) options) before = (res, after)) /\
        ((n = 3 /\ r = Some res) \/
         (n < 3 /\ append_failed (steps !! n) r w') \/
         (n = 2 /\ r = None /\ redaction_panicked res))
  | Some (Err e) => r = Some (Err e) /\ w' = w1 /\ logs w [] w'
  | None => r = None /\ w' = w1 /\ logs w [] w'
  end.
Proof.
  intros Hen Htid Hstore. unfold llm_chat, prog_bind at 1. rewrite Htid.
  pose proof (stable_prepare quiet env ctx messages w) as Hprep.
  destruct (prepare_observability env ctx messages w) as [[[oc|e]|] w1] eqn:Ep; cbn [snd] in Hprep.
  2-3: split_and!; [done..|apply Hprep].
  assert (exists id built, logged ctx oc = Some id /\ parts_built oc = Some built) as (id & built & Hlog & Hbuilt).
  { unfold prepare_observability in Ep. rewrite Hen, Htid in Ep. unfold prog_bind, prog_do, prog_ret in Ep.
    repeat case_match; simplify_eq; unfold logged; simpl; rewrite Htid, Hstore; eauto. }
  destruct Hprep as [Hs1 _]. unfold prog_bind at 1, emit_llm_start_step. rewrite Hlog.
  set (steps res text t1 t2 t3 := [llm_start_step ctx oc id t1; llm_end_step ctx oc id res t2;
                                   llm_call_step ctx oc id built res text t3]).
  assert (forall res text t1 t2 t3, call_bracket id res (steps res text t1 t2 t3)) as Hsteps
    by (intros [a|e]; done).
  destruct (append_tried (llm_start_step ctx oc id) w1) as (t1 & x1 & c1 & w2 & -> & A1 & H1).
  pose proof (logs_trans _ _ _ _ _ Hs1 H1) as L1.
  destruct c1 as [[]|e]; cbn [is_Ok app] in L1.
  2: { exists 0, id, (Err e), (steps (Err e) None t1 EmptyString EmptyString). split_and!; [done..|lia|].
       right; left. split; [lia|]. by eexists _, _, _. }
  pose proof (stable_invoke quiet messages (default_thread_id (Some tid) options) w2) as [Hinv _].
  destruct (invoke_llm messages (default_thread_id (Some tid) options) w2) as [res w3] eqn:Einv. cbn [snd] in Hinv.
  pose proof (logs_trans _ _ _ _ _ L1 Hinv) as L2.
  assert (exists before after, logs w [llm_start_step ctx oc id t1] before /\ logs w [llm_start_step ctx oc id t1] after /\
    invoke_llm messages (default_thread_id (Some tid) options) before = (res, after)) as Hasked by by exists w2, w3.
  unfold prog_bind at 1, emit_llm_end_step. rewrite Hlog.
  destruct (append_tried (llm_end_step ctx oc id res) w3) as (t2 & x2 & c2 & w4 & -> & A2 & H2).
  pose proof (logs_trans _ _ _ _ _ L2 H2) as L3.
  destruct c2 as [[]|e]; cbn [is_Ok app] in L3.
  2: { exists 1, id, res, (steps res None t1 t2 EmptyString). split_and!; [done..|].
       right; left. split; [lia|]. by eexists _, _, _. }
  unfold record_llm_observation. rewrite Hlog, Hbuilt.
  unfold prog_bind at 1. unfold prog_bind at 1, prog_option.
  destruct (if llm_response_text_enabled env then _ else _) as [text|] eqn:Et; cbn [option_map].
  2: { exists 2, id, res, (steps res None t1 t2 EmptyString). split_and!; [done..|]. right; right.
       split_and!; [done..|]. unfold redaction_panicked. destruct (llm_response_text_enabled env); [|done]. split; [done|].
       unfold response_raw in Et. by destruct (redact_common_secrets _). }
  destruct (append_tried (llm_call_step ctx oc id built res text) w4) as (t3 & x3 & c3 & w5 & -> & A3 & H3).
  pose proof (logs_trans _ _ _ _ _ L3 H3) as L4.
  destruct c3 as [[]|e]; cbn [is_Ok app] in L4.
  - exists 3, id, res, (steps res text t1 t2 t3). split_and!; [done..|]. left. by destruct res.
  - exists 2, id, res, (steps res text t1 t2 t3). split_and!; [done..|].
    right; left. split; [lia|]. by eexists _, _, _.
Qed.
End bracket.

(** ** A scripted environment

    An environment whose provider answers from a list, to instantiate the
    interface. *)
Module Scripted.
Record World : Type := {
  w_meter : BudgetMeter.t;
  w_cancelled : bool;
  w_caches : Caches;
  w_log : list ThreadStep.t;
  w_replies : list (Result string LlmError.t)
}.

Definition reply (w : World) : Result string LlmError.t * World :=
  match w_replies w with
  | [] => (Err (LlmError.Fatal "no reply"), w)
  | r :: rest =>
      (r, {| w_meter := w_meter w; w_cancelled := w_cancelled w; w_caches := w_caches w; w_log := w_log w;
             w_replies := rest |})
  end.

#[global] Instance runtime : Runtime World := {|
  meter := w_meter;
  set_meter m w := {| w_meter := m; w_cancelled := w_cancelled w; w_caches := w_caches w; w_log := w_log w;
                      w_replies := w_replies w |};
  is_cancelled := w_cancelled;
  caches := w_caches;
  set_caches c w := {| w_meter := w_meter w; w_cancelled := w_cancelled w; w_caches := c; w_log := w_log w;
                       w_replies := w_replies w |};
  now w := ("now", w);
  fresh_uuid w := ("id", w);
  sleep _ w := w;
  throttle _ _ _ w := w;
  send_progress _ w := w;
  send_pre_step _ w := w;
  send_trace _ w := w;
  read_steps w := (Ok (w_log w), w);
  chat _ _ w := let '(r, w) := reply w in (Some r, w);
  chat_within _ _ _ w := let '(r, w) := reply w in (Finished r, w);
  embed _ w := (Some (Ok []), w);
  tool_race _ _ _ w := (Finished tt, w)
|}.

#[global] Instance steps : StepLog World := {|
  steps_of := w_log;
  append s w := (Ok tt, {| w_meter := w_meter w; w_cancelled := w_cancelled w; w_caches := w_caches w;
                           w_log := w_log w ++ [s]; w_replies := w_replies w |});
  log_ok _ := True
|}.

Lemma same_world (w w' : World) : w_meter w' = w_meter w -> w_log w' = w_log w -> quiet w w'.
Proof.
  intros Hm Hl. split; [intros _; simpl; by rewrite Hl, app_nil_r|].
  unfold moved. simpl. rewrite Hm. split; [done|]. intros c. lia.
Qed.

#[global] Instance laws : RuntimeLaws World.
Proof.
  split; try (intros; by apply same_world); try done.
  - intros m w _. simpl. by rewrite app_nil_r.
  - intros m o w. apply same_world; simpl; unfold reply; by destruct (w_replies w).
  - intros t m o w. apply same_world; simpl; unfold reply; by destruct (w_replies w).
Qed.

Lemma sole : sole_user World.
Proof. split; try done; intros; simpl; unfold reply; by destruct (w_replies w). Qed.

Definition start (replies : list (Result string LlmError.t)) : World :=
  {| w_meter := BudgetMeter.new STANDARD; w_cancelled := false; w_caches := no_caches; w_log := [];
     w_replies := replies |}.

Definition options : LlmCallOptions :=
  {| prompt_id := "p"; opt_thread_id := None; model := None; expected_format := Llm.Text;
     max_output_tokens := None; temperature := None; top_p := None; reasoning_effort := None;
     timeout_secs := Some 30%Z |}.

Definition ctx : AgentCtx :=
  {| ctx_thread_id := Some "t"; ctx_agent_name := None; ctx_per_step_timeout_secs := 30; ctx_exec_ctx := None;
     ctx_has_store := true; ctx_llm := None |}.

(** The variables that switch the logging of calls on. *)
Definition env (key : string) : option string :=
  if String.eqb key "REACT_LOG_LLM_CALLS" then Some "true" else None.

Definition serde : Serde := {| to_vec _ := Ok "[]"; from_slice _ := Err "unused" |}.
End Scripted.

(** Two transient failures, then an answer: three calls are charged. *)
Lemma invoke_llm_charges_at_most_three_witness :
  let w := Scripted.start [Err (LlmError.Transient "busy"); Err (LlmError.Timeout 30); Ok "hi"] in
  let '(r, w') := invoke_llm [] Scripted.options w in
  (llm_used w <= llm_used w' <= llm_used w + 3)%Z /\ (is_Ok r = true -> llm_used w < llm_used w')%Z.
Proof.
  intros w. exact (invoke_llm_charges_at_most_three (fun m w => eq_refl) Scripted.sole [] Scripted.options w).
Defined.

Lemma chat_is_bracketed_witness :
  let _ : Sha256 := fun s => s in
  let _ : UnicodeLower := to_ascii_lowercase in
  let _ := Scripted.serde in
  let w := Scripted.start [Ok "hi"] in
  let '(r, w') := llm_chat Scripted.env Scripted.ctx [] Scripted.options w in
  exists n id res steps, call_bracket id res steps /\ logs w (take n steps) w' /\
    (0 < n -> exists before after, logs w (take 1 steps) before /\ logs w (take 1 steps) after /\
       invoke_llm [] (default_thread_id (Some "t") Scripted.options) before = (res, after)) /\
    ((n = 3 /\ r = Some res) \/ (n < 3 /\ append_failed (steps !! n) r w') \/
     (n = 2 /\ r = None /\ redaction_panicked Scripted.env res)).
Proof.
  intros HSha HLow HSd w.
  exact (chat_is_bracketed Scripted.env Scripted.ctx [] Scripted.options w "t" eq_refl eq_refl eq_refl).
Defined.
