(* ===== verification/Parsing.v ===== *)
(** * Parsing the model's step

    [src/src/core/src/agent/parsing.rs]: the text of the model becomes an
    [AgentStep]: code fences are stripped, the JSON is parsed with repairs and
    validated, and the wire format is turned into one of the two shapes. *)

From stdpp Require Import base list strings.
From Stdlib Require Import ZArith Lia.
From S2P Require Import Prelude.
From S2P Require Import RustStr.
From S2P Require Import Json.
From S2P Require Import Errors.
From S2P Require Import Schema.
From S2P Require Import JsonRepair.

Record CompleteEnvelope : Type := {
  env_kind : string;
  env_payload : Value;
  env_display : option string
}.

Module AgentStep.
Inductive t : Type :=
| Tool (name : string) (args : Value)
| Complete (complete_env : CompleteEnvelope).
End AgentStep.

Definition fence : string := "```".

Definition strip_markdown_code_fences (raw : string) : string :=
  let t := trim raw in
  if negb (starts_with t fence) then t
  else
    let t := trim (trim_start_matches fence (trim_start_matches (fence +:+ "json") t)) in
    match str_rfind t fence with
    | Some stop => trim (string_take stop t)
    | None => t
    end.

Definition debug_type (t : AgentStepTypeV1) : string :=
  match t with TypeTool => "Tool" | TypeComplete => "Complete" end.

Definition debug_bool (b : bool) : string := if b then "true" else "false".

Definition is_some {A} (o : option A) : bool := match o with Some _ => true | None => false end.

Section parsing.
Context `{HSt : !JsonStream, HV : !DeserializeOwned Value, HS : !DeserializeOwned AgentStepV1, HT : !SchemaTools}.

Definition CompleteEnvelope_try_from (comp : CompleteEnvelopeV1) : CompleteEnvelope :=
  let payload :=
    match resilient_parse_string_field (cv_payload comp) with
    | Ok v => v
    | Err _ => VString (cv_payload comp)
    end in
  {| env_kind := cv_kind comp; env_payload := payload; env_display := cv_display comp |}.

Definition AgentStep_try_from (step : AgentStepV1) : Result AgentStep.t StepParseError.t :=
  match type_ step, name step, args step, complete step with
  | TypeTool, Some name, Some args_json, None =>
      let? args := res_map_err StepParseError.Args (resilient_parse_string_field args_json) in
      Ok (AgentStep.Tool name args)
  | TypeComplete, None, None, Some comp => Ok (AgentStep.Complete (CompleteEnvelope_try_from comp))
  | t, n, a, c =>
      Err (StepParseError.ShapeMismatch
        ("type=" +:+ debug_type t +:+ " name=" +:+ debug_bool (is_some n) +:+ " args=" +:+ debug_bool (is_some a)
           +:+ " complete=" +:+ debug_bool (is_some c)))
  end.

(** The count of extra JSON values is only logged. *)
Definition parse_agent_step (raw : string) : Result AgentStep.t CoreError.t :=
  let trimmed := trim (strip_markdown_code_fences raw) in
  res_map_err CoreError.Parse
    (let? v := res_map_err StepParseError.NotJson (resilient_parse (T := Value) trimmed) in
     let? _ := res_map_err (fun e => StepParseError.Schema (CoreError.display e)) (validate AgentStepV1Id v) in
     let? step := res_map_err (fun e =>
         StepParseError.ShapeMismatch ("failed to deserialize " +:+ schema_name AgentStepV1Id +:+ ": " +:+ e))
       (from_value (T := AgentStepV1) v) in
     AgentStep_try_from step).

(** The wire format is read strictly: a step is accepted exactly when it is
    a tool call with a name and arguments that parse and no envelope, or a
    completion with an envelope and neither name nor arguments; a completion
    is never refused for its payload, which stays a string when it is no JSON. *)
Theorem accepted_steps_have_one_shape step s :
  AgentStep_try_from step = Ok s <->
  (exists n a v, type_ step = TypeTool /\ name step = Some n /\ args step = Some a /\ complete step = None /\
     resilient_parse_string_field a = Ok v /\ s = AgentStep.Tool n v) \/
  (exists c, type_ step = TypeComplete /\ name step = None /\ args step = None /\ complete step = Some c /\
     s = AgentStep.Complete (CompleteEnvelope_try_from c)).
Proof.
  unfold AgentStep_try_from. destruct step as [t n a c]; cbn [type_ name args complete]. split.
  - intros H. repeat case_match; simplify_eq.
    + destruct (resilient_parse_string_field _) as [v|e] eqn:E; simplify_eq/=. left. eauto 10.
    + right. eauto 10.
  - intros [(n' & a' & v & -> & -> & -> & -> & E & ->)|(c' & -> & -> & -> & -> & ->)]; [|done].
    by rewrite E.
Qed.
End parsing.

(** ** Code fences *)

Definition fenced (body : string) : string := fence +:+ "json" +:+ nl +:+ body +:+ nl +:+ fence.

Lemma trim_fenced body : head_ok body = true -> trim (fenced body) = fenced body.
Proof.
  intros Hb. unfold trim. fold (trim_chars (chars (fenced body))). unfold fenced.
  rewrite !chars_app by (done || by repeat apply head_ok_app).
  change (chars fence) with ["`"; "`"; "`"]. set (m := chars "json" ++ chars nl ++ chars body ++ chars nl).
  assert (["`"; "`"; "`"] ++ chars "json" ++ chars nl ++ chars body ++ chars nl ++ ["`"; "`"; "`"] =
          "`" :: (["`"; "`"] ++ m ++ ["`"; "`"]) ++ ["`"]) as ->.
  { unfold m. by rewrite <- !app_assoc. }
  rewrite trim_chars_ends by done. unfold m. cbn [app concat_strings fold_right].
  change (fold_right String.append EmptyString) with concat_strings.
  rewrite !concat_strings_app, !concat_chars. simpl. by rewrite !app_assoc_str.
Qed.

Lemma trim_tail body :
  head_ok body = true -> trim body = body -> body <> EmptyString ->
  trim (body +:+ nl +:+ fence) = body +:+ nl +:+ fence.
Proof.
  intros Hb Ht Hne. pose proof (trim_fixed_chars _ Hb Ht) as Hf.
  unfold trim. fold (trim_chars (chars (body +:+ nl +:+ fence))).
  assert (trim_chars (chars (body +:+ nl +:+ fence)) = chars (body +:+ nl +:+ fence)) as ->; [|apply concat_chars].
  rewrite (chars_app body) by done. change (chars (nl +:+ fence)) with [nl; "`"; "`"; "`"].
  destruct (chars body) as [|x l] eqn:E; [by apply chars_empty in E|].
  apply trim_chars_fixed in Hf as [Hx _]. pose proof (drop_while_head is_whitespace (x :: l)) as Hh.
  rewrite Hx in Hh. change ([nl; "`"; "`"; "`"]) with ([nl; "`"; "`"] ++ ["`"]).
  rewrite app_assoc. cbn [app]. by apply trim_chars_ends.
Qed.

Lemma strip_fenced body :
  head_ok body = true -> trim body = body -> body <> EmptyString ->
  strip_markdown_code_fences (fenced body) = body.
Proof.
  intros Hb Ht Hne. unfold strip_markdown_code_fences. rewrite trim_fenced by done.
  change (starts_with (fenced body) fence) with true. cbn [negb].
  assert (trim_start_matches (fence +:+ "json") (fenced body) = nl +:+ body +:+ nl +:+ fence) as -> by done.
  assert (trim_start_matches fence (nl +:+ body +:+ nl +:+ fence) = nl +:+ body +:+ nl +:+ fence) as -> by done.
  set (inner := body +:+ nl +:+ fence).
  assert (trim (nl +:+ inner) = inner) as ->.
  { rewrite <- (app_nil_r_str inner) at 1. apply trim_sandwich; try done.
    - by apply head_ok_app.
    - repeat constructor.
    - by apply trim_tail.
    - unfold inner. by destruct body. }
  unfold inner. rewrite (str_rfind_app body (nl +:+ fence) fence 1 eq_refl).
  rewrite string_take_app_exact. change (string_take 1 (nl +:+ fence)) with nl.
  apply (trim_sandwich EmptyString body nl); try done; repeat constructor.
Qed.

(** Code fences do not matter: a step wrapped in a json code fence parses
    exactly as the bare step. *)
Theorem fences_do_not_matter
  `{HSt : !JsonStream, HV : !DeserializeOwned Value, HS : !DeserializeOwned AgentStepV1, HT : !SchemaTools} body :
  head_ok body = true -> trim body = body -> body <> EmptyString -> starts_with body fence = false ->
  parse_agent_step (fenced body) = parse_agent_step body.
Proof.
  intros Hb Ht Hne Hf. unfold parse_agent_step. rewrite strip_fenced by done.
  assert (strip_markdown_code_fences body = body) as ->; [|done].
  unfold strip_markdown_code_fences. by rewrite Ht, Hf.
Qed.

(** A parser that accepts one completion text. *)
Module OneStep.
Definition text : string := "{step}".
Definition wire : AgentStepV1 :=
  {| type_ := TypeComplete; name := None; args := None;
     complete := Some {| cv_kind := "generic"; cv_payload := "{}"; cv_display := None |} |}.
#[export] Instance stream : JsonStream := fun _ => None.
#[export] Instance value : DeserializeOwned Value := {|
  from_str s := if String.eqb s text then Ok (VString text) else if String.eqb s "{}" then Ok (VObject []) else Err "no";
  from_value v := Ok v
|}.
#[export] Instance step : DeserializeOwned AgentStepV1 := {|
  from_str _ := Err "no";
  from_value v := if decide (v = VString text) then Ok wire else Err "no"
|}.
#[export] Instance tools : SchemaTools := {| schema_for _ := VObject []; validator_error _ _ := None |}.
End OneStep.
Import OneStep.

Example one_step_parses :
  parse_agent_step (fenced OneStep.text) =
  Ok (AgentStep.Complete {| env_kind := "generic"; env_payload := VObject []; env_display := None |}).
Proof. by vm_compute. Qed.

Lemma fences_do_not_matter_witness : parse_agent_step (fenced OneStep.text) = parse_agent_step OneStep.text.
Proof. by apply (fences_do_not_matter OneStep.text). Defined.
