(* ===== verification/AgentLoop.v ===== *)
(** * The agent loop

    [src/src/core/src/agent/mod.rs] (policies and outcomes), [helpers.rs] and
    [run_loop.rs]: the loop that charges a step, asks the model, parses its
    step, runs the tool or offers the completion to the policy, until a
    completion is accepted, the policy interrupts, or a budget runs out.

    A tool or policy acts on the world [W] and returns; an awaited call that
    loses its race is in [Runtime].  [None] is a panic.  The loop takes fuel,
    and [run_until_block_returns] says how much is always enough. *)

From stdpp Require Import base list strings gmap.
From Stdlib Require Import ZArith Lia Ascii.
From S2P Require Import Prelude.
From S2P Require Import RustStr.
From S2P Require Import Json.
From S2P Require Import Errors.
From S2P Require Import Budget.
From S2P Require Import Storage.
From S2P Require Import SessionTypes.
From S2P Require Import Observed.
From S2P Require Import ErrorContext.
From S2P Require Import JsonRepair.
From S2P Require Import Schema.
From S2P Require Import Tools.
From S2P Require Import Transcript.
From S2P Require Import Llm.
From S2P Require Import Redaction.
From S2P Require Import Observability.
From S2P Require Import Gateway.
From S2P Require Import Parsing.

(** ** Outcomes *)

Module InterruptKind.
Inductive t : Type := AwaitUser | AwaitApproval.
Definition as_str (k : t) : string :=
  match k with AwaitUser => "await_user" | AwaitApproval => "await_approval" end.
End InterruptKind.

Module RunOutcome.
Inductive t : Type :=
| Complete (thread_id : string) (result : ThreadResult)
| Interrupt (thread_id : string) (kind : InterruptKind.t) (prompt : string).
End RunOutcome.

Module CompleteDecision.
Inductive t : Type :=
| Accept (result : ThreadResult)
| Reject (reason : string).
End CompleteDecision.

Inductive StepBoundaryReason : Type := StepBudgetExhausted.

Module NonInteractive.
Inductive t : Type :=
| Complete (thread_id : string) (result : ThreadResult)
| StepBoundary (thread_id : string) (reason : StepBoundaryReason).
End NonInteractive.

Module RunLoopStop.
Inductive t : Type :=
| RejectedComplete (reason : string)
| StepLimitExceeded
| PolicyBlocked (reason : string).
End RunLoopStop.

(** ** Policies *)

(** The trait [AgentPolicy].  A method that gets the transcript returns it. *)
Record AgentPolicy (W : Type) : Type := {
  prelude_entries : AgentCtx -> string -> W -> list Entry.t;
  interrupt_for_action : string -> Value -> Value -> option (InterruptKind.t * string);
  timeout_for_tool : string -> option Z;
  clean_tool_name : string -> Value -> string;
  handle_complete : AgentCtx -> string -> CompleteEnvelope -> Transcript ->
    Act W string (CompleteDecision.t * Transcript);
  fallback : AgentCtx -> string -> Transcript -> Act W string RunOutcome.t
}.
Arguments prelude_entries {W} _.
Arguments interrupt_for_action {W} _.
Arguments timeout_for_tool {W} _.
Arguments clean_tool_name {W} _.
Arguments handle_complete {W} _.
Arguments fallback {W} _.

(** [char::to_uppercase]. *)
Class UnicodeUpper := to_uppercase : string -> string.

(** [s.split_whitespace()] on characters. *)
Fixpoint words (cs : list string) (word : list string) : list (list string) :=
  match cs with
  | [] => match word with [] => [] | _ => [word] end
  | c :: cs =>
      if is_whitespace c then match word with [] => words cs [] | _ => word :: words cs [] end
      else words cs (word ++ [c])
  end.

Definition title_case_words `{!UnicodeUpper} (s : string) : string :=
  join " " (map (fun w => match w with c :: rest => to_uppercase c +:+ concat_strings rest | [] => EmptyString end)
              (words (chars s) [])).

Definition underscores_to_spaces (s : string) : string :=
  string_map (fun a => if Ascii.eqb a "_"%char then " "%char else a) s.

Section defaults.
Context {W : Type} `{HR : !Runtime W, HL : !StepLog W, HU : !UnicodeUpper}.

(** The trait's default methods. *)
Definition default_prelude_entries (ctx : AgentCtx) (tid : string) (w : W) : list Entry.t := [].
Definition default_interrupt_for_action (action : string) (args obs : Value)
  : option (InterruptKind.t * string) := None.
Definition default_timeout_for_tool (action : string) : option Z := None.
Definition default_clean_tool_name (name : string) (args : Value) : string :=
  title_case_words (underscores_to_spaces name).
Definition default_fallback (ctx : AgentCtx) (tid : string) (t : Transcript) : Act W string RunOutcome.t :=
  act_ret (RunOutcome.Interrupt tid InterruptKind.AwaitUser
    "Agent reached step limit without producing a valid completion. Please retry.").

(** [DefaultPolicy::handle_complete] *)
Definition accept_any (ctx : AgentCtx) (tid : string) (env : CompleteEnvelope) (t : Transcript)
  : Act W string (CompleteDecision.t * Transcript) :=
  let result := {| tr_kind := env_kind env; tr_payload := env_payload env;
                   tr_display := env_display env |} in
  if ctx_has_store ctx then
    fun w =>
      let '(ts, w) := now w in
      act_bind
        (act_map_err CoreError.display
           (append (ThreadStep.Complete (env_kind env) (env_payload env) (env_display env) Observation.success ts
                      (agent_name_or_default ctx))))
        (fun _ => act_ret (CompleteDecision.Accept result, t)) w
  else act_ret (CompleteDecision.Accept result, t).

Definition DefaultPolicy : AgentPolicy W := {|
  prelude_entries := default_prelude_entries;
  interrupt_for_action := default_interrupt_for_action;
  timeout_for_tool := default_timeout_for_tool;
  clean_tool_name := default_clean_tool_name;
  handle_complete := accept_any;
  fallback := default_fallback
|}.

Definition NonInteractivePolicyAdapter (inner : AgentPolicy W) : AgentPolicy W := {|
  prelude_entries := prelude_entries inner;
  interrupt_for_action _ _ _ := None;
  timeout_for_tool := timeout_for_tool inner;
  clean_tool_name := clean_tool_name inner;
  handle_complete := handle_complete inner;
  fallback := fallback inner
|}.
End defaults.

(** ** One turn *)

Definition is_retriable_parse_error (e : CoreError.t) : bool :=
  match e with
  | CoreError.Parse p => StepParseError.retriable p
  | CoreError.Schema _ => true
  | _ => false
  end.

Section agent.
Context {W : Type} `{HR : !Runtime W, HL : !StepLog W, HSha : !Sha256, HLow : !UnicodeLower, HSd : !Serde}.
Context `{HSt : !JsonStream, HV : !DeserializeOwned Value, HS : !DeserializeOwned AgentStepV1, HT : !SchemaTools}.
Context `{HJ : !JsonDisplay, HP : !JsonPretty}.
Variable env : string -> option string.
Variable hash_args : Value -> Z.
Variable ctx : AgentCtx.
Variable tools : @ToolRegistry W.
Variable policy : AgentPolicy W.

(** What a run returns, also the early return of the loop's body. *)
Definition Verdict : Type := Result RunOutcome.t CoreError.t.

(** [e?] in the loop. *)
Definition or_return {A} (m : Prog W CoreError.t A) : Prog W Verdict A := prog_map_err Err m.

Definition stop_kind (stop : RunLoopStop.t) : RunLoopStopKind.t * string :=
  match stop with
  | RunLoopStop.RejectedComplete reason => (RunLoopStopKind.RejectedComplete, reason)
  | RunLoopStop.StepLimitExceeded =>
      (RunLoopStopKind.StepLimitExceeded, "agent reached max_steps without an accepted completion")
  | RunLoopStop.PolicyBlocked reason => (RunLoopStopKind.PolicyBlocked, reason)
  end.

Definition stop_step (stop : RunLoopStop.t) (ts : string) : ThreadStep.t :=
  let '(kind, reason) := stop_kind stop in
  ThreadStep.RunLoopStop kind reason Observation.success ts (agent_name_or_default ctx).

Definition record_run_loop_stop (stop : RunLoopStop.t) : Prog W CoreError.t unit :=
  if ctx_has_store ctx
  then run! ts <- prog_do now; append_step (stop_step stop ts)
  else prog_ret tt.

Definition trace_entry (e : Entry.t) : W -> unit * W := fun w => (tt, send_trace (Entry.trace e) w).

Definition prompt_messages (t : Transcript) : W -> list ChatMessage * W :=
  fun w =>
    let budget := prompt_budget ctx in
    let messages := render budget t in
    let chars := fold_left Nat.add (map (fun m => char_count (content m)) messages) 0 in
    (messages,
     send_trace ("prompt_size chars=" +:+ fmt_nat chars +:+ " messages=" +:+ fmt_nat (length messages)
                   +:+ " budget_tokens=" +:+ fmt_Z (total_tokens budget)) w).

(** [bounded_tool_result] around [tools.call]. *)
Definition bounded_tool_result (action : string) (args : Value) (timeout : Z) : W -> ToolOutcome.t * W :=
  fun w =>
    match tool_race action args timeout w with
    | (Finished _, w) => Tools.call tools action args w
    | (CancelWon, w) => (from_result (Err "cancelled") MAX_OUTPUT_BYTES, w)
    | (TimerWon, w) => (from_result (Err "tool timeout") MAX_OUTPUT_BYTES, w)
    end.

Definition as_returned (o : ToolOutcome.t) : Outcome Value :=
  match o with
  | ToolOutcome.Ok v => Returned (Ok v)
  | ToolOutcome.Failed e => Returned (Err (message e))
  end.

(** The call once it is charged.  The tool id and the times of the bracketing
    steps are drawn beforehand. *)
Definition charged_tool_call (action : string) (args : Value) : W -> option ToolOutcome.t * W :=
  fun w =>
    let timeout := Z.max 1 (default (ctx_per_step_timeout_secs ctx) (timeout_for_tool policy action)) in
    if ctx_has_store ctx then
      let meta := {| tm_agent := agent_name_or_default ctx; tm_phase := "agent_loop"; tm_name := action;
                     tm_clean_name := clean_tool_name policy action args; tm_args := args;
                     tm_ctx := ctx_exec_ctx ctx |} in
      let '(tool_id, w) := fresh_uuid w in
      let '(ts_start, w) := now w in
      let '(ts_end, w) := now w in
      match run_observed tool_id ts_start ts_end ts_end true meta
              (fun w => let '(o, w) := bounded_tool_result action args timeout w in (as_returned o, w))
              (fun raw => Ok raw) w with
      | (Some (Ok v), w) => (Some (ToolOutcome.Ok v), w)
      | (Some (Err e), w) => (Some (ToolOutcome.Failed (mkToolError e)), w)
      | (None, w) => (None, w)
      end
    else let '(o, w) := bounded_tool_result action args timeout w in (Some o, w).

Definition execute_tool_call (action : string) (args : Value) : W -> option ToolOutcome.t * W :=
  fun w =>
    if is_cancelled w then (Some (from_result (Err "cancelled") MAX_OUTPUT_BYTES), w)
    else match charge ToolCall w with
         | (Err e, w) => (Some (from_result (Err (BudgetExhausted.display e)) MAX_OUTPUT_BYTES), w)
         | (Ok _, w) => charged_tool_call action args w
         end.

Definition append_observation_to_transcript (t : Transcript) (raw_model_output action : string)
  (outcome : ToolOutcome.t) : Prog W Verdict Transcript :=
  let assistant := Entry.Assistant raw_model_output in
  run! _ <- prog_do (trace_entry assistant);
  let t := push assistant t in
  run! shown <- prog_option
    (match outcome with
     | ToolOutcome.Ok v => Some (t, ToolOutcome.Ok v)
     | ToolOutcome.Failed err =>
         let max_chars := Z.to_nat (per_entry_chars (prompt_budget ctx)) in
         option_map (fun rendered => (record_error action (message err) t, ToolOutcome.Failed (mkToolError rendered)))
           (render_failure_context (outcome_observation outcome) max_chars)
     end);
  let '(t, outcome) := shown in
  let obs := Entry.Observation action outcome in
  run! _ <- prog_do (trace_entry obs);
  prog_ret (push obs t).

(** ** Parsing, with two more tries *)

Definition error_label (e : CoreError.t) : string :=
  match e with
  | CoreError.Parse p => StepParseError.label p
  | CoreError.Schema _ => "schema_validation_failed"
  | _ => "invalid_json_from_model"
  end.

Definition rejected_entry (e : CoreError.t) (raw : string) : Entry.t :=
  Entry.ParseRejected
    (error_label e +:+ " " +:+ CoreError.display e +:+ " hash=" +:+ sha256_hex_str raw +:+ " bytes="
       +:+ fmt_nat (String.length raw)).

Definition retry_entry (e : CoreError.t) : Entry.t :=
  Entry.User ("IMPORTANT: Your previous response did not match schema " +:+ schema_name AgentStepV1Id
    +:+ ". Error: " +:+ CoreError.display e +:+ ". Return ONLY one JSON object that matches the schema.").

Definition last_retry_entry (e : CoreError.t) : Entry.t :=
  Entry.User ("Return ONLY one JSON object matching schema " +:+ schema_name AgentStepV1Id
    +:+ ". Error: " +:+ CoreError.display e +:+ ".").

(** The model is shown the transcript and asked. *)
Definition ask (options : LlmCallOptions) (t : Transcript) : Prog W CoreError.t string :=
  run! messages <- prog_do (prompt_messages t);
  llm_chat env ctx messages options.

(** The step, the text it was parsed from, and the transcript. *)
Definition parse_with_retry (options : LlmCallOptions) (raw : string) (t : Transcript)
  : Prog W CoreError.t (AgentStep.t * string * Transcript) :=
  match parse_agent_step raw with
  | Ok v => prog_ret (v, raw, t)
  | Err e =>
      if negb (is_retriable_parse_error e) then prog_err e
      else
        let t := record_error (error_label e) (CoreError.display e) t in
        let rejected := rejected_entry e raw in
        run! _ <- prog_do (trace_entry rejected);
        let t := push (retry_entry e) (push rejected t) in
        run! raw <- ask options t;
        match parse_agent_step raw with
        | Ok v => prog_ret (v, raw, t)
        | Err e2 =>
            if negb (is_retriable_parse_error e2) then prog_err e2
            else
              let t := record_error "parse_retry" (CoreError.display e2) t in
              let t := push (last_retry_entry e2) t in
              run! raw <- ask options t;
              prog_act id (act_lift (let? v := parse_agent_step raw in Ok (v, raw, t)))
        end
  end.

(** ** The loop *)

(** [policy.fallback(..)] after the stop is recorded, in either of its places. *)
Definition stop_and_fall_back {A} (tid : string) (t : Transcript) : Prog W Verdict A :=
  run! _ <- or_return (record_run_loop_stop RunLoopStop.StepLimitExceeded);
  fun w => let '(r, w) := fallback policy ctx tid t w in (Some (Err (res_map_err CoreError.Generic r)), w).

(** A completion offered to the policy. *)
Definition complete_turn (tid : string) (ce : CompleteEnvelope) (t : Transcript) (ledger : ActionLedger)
  : Prog W Verdict (Transcript * ActionLedger) :=
  run! decided <- or_return (prog_act CoreError.Generic (handle_complete policy ctx tid ce t));
  let '(decision, t) := decided in
  match decision with
  | CompleteDecision.Accept result => prog_err (Ok (RunOutcome.Complete tid result))
  | CompleteDecision.Reject reason =>
      let t := record_error "complete" reason t in
      run! _ <- or_return (record_run_loop_stop (RunLoopStop.RejectedComplete reason));
      prog_ret (t, ledger)
  end.

(** A tool call, the interrupt it may become, and the failure it may count as. *)
Definition tool_turn (tid raw action : string) (args : Value) (t : Transcript) (ledger : ActionLedger)
  : Prog W Verdict (Transcript * ActionLedger) :=
  run! outcome <- (fun w => let '(o, w) := execute_tool_call action args w in (option_map Ok o, w));
  match interrupt_for_action policy action args (as_interrupt_value outcome) with
  | Some (kind, prompt) =>
      run! _ <- or_return (record_run_loop_stop
        (RunLoopStop.PolicyBlocked (InterruptKind.as_str kind +:+ ": " +:+ prompt)));
      prog_err (Ok (RunOutcome.Interrupt tid kind prompt))
  | None =>
      run! t <- append_observation_to_transcript t raw action outcome;
      if outcome_is_ok outcome then prog_ret (t, ledger)
      else
        let '(r, ledger) := record_failure hash_args action args ledger in
        match r with
        | Ok _ => prog_ret (t, ledger)
        | Err _ => stop_and_fall_back tid t
        end
  end.

(** The turn once its step is charged: ask, parse, act. *)
Definition charged_turn (options : LlmCallOptions) (tid : string) (step_idx : nat) (t : Transcript)
  (ledger : ActionLedger) : Prog W Verdict (Transcript * ActionLedger) :=
  run! _ <- prog_do (fun w => (tt, send_progress step_idx w));
  run! _ <- prog_do (fun w => (tt, send_pre_step ("step " +:+ fmt_nat (step_idx + 1)) w));
  run! raw <- or_return (ask options t);
  run! parsed <- or_return (parse_with_retry options raw t);
  let '(step, raw, t) := parsed in
  match step with
  | AgentStep.Complete ce => complete_turn tid ce t ledger
  | AgentStep.Tool action args => tool_turn tid raw action args t ledger
  end.

(** The body of [loop]; the early return is the verdict. *)
Definition turn (options : LlmCallOptions) (tid : string) (step_idx : nat) (t : Transcript) (ledger : ActionLedger)
  : Prog W Verdict (Transcript * ActionLedger) :=
  fun w =>
    match charge AgentStep w with
    | (Err BudgetExhausted.AgentSteps, w) => stop_and_fall_back tid t w
    | (Err e, w) => prog_err (Err (CoreError.Budget e)) w
    | (Ok _, w) =>
        if is_cancelled w then prog_err (Err (CoreError.Llm LlmError.Cancelled)) w
        else charged_turn options tid step_idx t ledger w
    end.

(** [loop { .. }]; the outer [None] is fuel that ran out. *)
Fixpoint run_turns (fuel : nat) (options : LlmCallOptions) (tid : string) (step_idx : nat) (t : Transcript)
  (ledger : ActionLedger) (w : W) : option (option Verdict * W) :=
  match fuel with
  | O => None
  | S fuel =>
      match turn options tid step_idx t ledger w with
      | (None, w) => Some (None, w)
      | (Some (Err verdict), w) => Some (Some verdict, w)
      | (Some (Ok (t, ledger)), w) => run_turns fuel options tid (S step_idx) t ledger w
      end
  end.

Definition output_contract : string :=
  "OUTPUT_CONTRACT schema_id=" +:+ schema_name AgentStepV1Id
    +:+ ". Return exactly one JSON object matching this schema_id.".

Definition run_until_block (fuel : nat) (system_prompt tools_card question : string) (options : LlmCallOptions)
  (w : W) : option (option Verdict * W) :=
  let options := set_expected_format (JsonSchema (for_schema_id AgentStepV1Id)) options in
  let '(tid, w) := match ctx_thread_id ctx with Some tid => (tid, w) | None => fresh_uuid w end in
  let prelude := prelude_entries policy ctx tid w in
  let t := start system_prompt tools_card output_contract prelude question in
  let w := send_trace ("transcript start question=" +:+ question) w in
  run_turns fuel options tid 0 t ∅ w.
End agent.

(** The same loop under the adapter; an interrupt can only be the fallback's. *)
Definition run_until_block_non_interactive {W}
  `{HR : !Runtime W, HL : !StepLog W, HSha : !Sha256, HLow : !UnicodeLower, HSd : !Serde,
    HSt : !JsonStream, HV : !DeserializeOwned Value, HS : !DeserializeOwned AgentStepV1, HT : !SchemaTools,
    HJ : !JsonDisplay, HP : !JsonPretty}
  (env : string -> option string) (hash_args : Value -> Z) (ctx : AgentCtx) (tools : @ToolRegistry W)
  (policy : AgentPolicy W) (fuel : nat) (system_prompt tools_card question : string) (options : LlmCallOptions)
  (w : W) : option (option (Result NonInteractive.t CoreError.t) * W) :=
  match run_until_block env hash_args ctx tools (NonInteractivePolicyAdapter policy) fuel
          system_prompt tools_card question options w with
  | None => None
  | Some (None, w) => Some (None, w)
  | Some (Some (Err e), w) => Some (Some (Err e), w)
  | Some (Some (Ok (RunOutcome.Complete tid result)), w) => Some (Some (Ok (NonInteractive.Complete tid result)), w)
  | Some (Some (Ok (RunOutcome.Interrupt tid _ _)), w) =>
      Some (Some (Ok (NonInteractive.StepBoundary tid StepBudgetExhausted)), w)
  end.
