(* ===== verification/AgentLaws.v ===== *)
(** * What the agent loop guarantees

    A relation between worlds that the steps of the environment, the appends
    to the log, the tools and the policy keep is kept by a turn of the loop
    and by a whole run: the meter that only moves forward, a log that only
    grows, objects of the store that nobody touches.  The loop of [AgentLoop]
    returns, whatever the model answers, and what it returns was decided by
    the policy. *)

From stdpp Require Import base list strings gmap.
From Stdlib Require Import ZArith Lia.
From S2P Require Import Prelude.
From S2P Require Import RustStr.
From S2P Require Import Json.
From S2P Require Import Errors.
From S2P Require Import Budget.
From S2P Require Import Storage.
From S2P Require Import SessionTypes.
From S2P Require Import Observed.
From S2P Require Import ErrorContext.
From S2P Require Import JsonRepair.
From S2P Require Import Schema.
From S2P Require Import Tools.
From S2P Require Import Transcript.
From S2P Require Import Llm.
From S2P Require Import Redaction.
From S2P Require Import Observability.
From S2P Require Import Gateway.
From S2P Require Import Parsing.
From S2P Require Import AgentLoop.

(** ** Programs that keep a relation between worlds *)

Definition moves {W} (R : relation W) {E A} (m : Prog W E A) : Prop := forall w, R w (m w).2.

Section progs.
Context {W : Type} {R : relation W} `{HP : !PreOrder R}.

Lemma moves_bind {E A B} (m : Prog W E A) (k : A -> Prog W E B) :
  moves R m -> (forall a, moves R (k a)) -> moves R (prog_bind m k).
Proof.
  intros Hm Hk w. unfold prog_bind. specialize (Hm w). destruct (m w) as [[[a|e]|] w1]; cbn [snd] in *; try done.
  etrans; [exact Hm|apply Hk].
Qed.

Lemma moves_ret {E A} (a : A) : moves R (E := E) (prog_ret a).
Proof. by intros w. Qed.

Lemma moves_err {E A} (e : E) : moves R (A := A) (prog_err e).
Proof. by intros w. Qed.

Lemma moves_option {E A} (o : option A) : moves R (E := E) (prog_option o).
Proof. by intros w. Qed.

Lemma moves_act {E F A} (f : E -> F) (m : Act W E A) :
  (forall w, R w (m w).2) -> moves R (prog_act f m).
Proof. intros H w. unfold prog_act. specialize (H w). by destruct (m w). Qed.

Lemma moves_map_err {E F A} (f : E -> F) (m : Prog W E A) : moves R m -> moves R (prog_map_err f m).
Proof. intros H w. unfold prog_map_err. specialize (H w). by destruct (m w). Qed.

Lemma moves_do {E A} (f : W -> A * W) : (forall w, R w (f w).2) -> moves R (E := E) (prog_do f).
Proof. intros H w. unfold prog_do. specialize (H w). by destruct (f w). Qed.
End progs.

#[export] Hint Resolve moves_ret moves_err moves_option : react.

Section kept.
Context {W : Type} `{HR : !Runtime W, HL : !StepLog W, HSha : !Sha256, HLow : !UnicodeLower, HSd : !Serde}.
Context `{HSt : !JsonStream, HV : !DeserializeOwned Value, HS : !DeserializeOwned AgentStepV1, HT : !SchemaTools}.
Context `{HJ : !JsonDisplay, HP : !JsonPretty}.
Context (R : relation W) `{HA : !Advancing R}.
Variable env : string -> option string.
Variable hash_args : Value -> Z.
Variable ctx : AgentCtx.
Variable tools : @ToolRegistry W.


(** The tools and the policy keep the relation. *)
Record keeps (policy : AgentPolicy W) : Prop := {
  keeps_tool name t args w : (tools : gmap string (Tool W)) !! name = Some t -> R w (tool_call t args w).2;
  keeps_complete tid ce t w : R w (handle_complete policy ctx tid ce t w).2;
  keeps_fallback tid t w : R w (fallback policy ctx tid t w).2
}.

Lemma moves_append_step s : moves R (append_step s).
Proof. apply moves_act. intros w. apply advancing_append. Qed.

Lemma moves_append_now (f : string -> ThreadStep.t) :
  moves R (prog_bind (prog_do now) (fun ts => append_step (f ts))).
Proof. apply moves_bind; [apply moves_do, stable_now|]. intros ts. apply moves_append_step. Qed.

Lemma moves_chat messages options : moves R (llm_chat env ctx messages options).
Proof.
  intros w. unfold llm_chat, prog_bind at 1.
  pose proof (stable_prepare R env ctx messages w) as H1.
  destruct (prepare_observability env ctx messages w) as [[[oc|e]|] w1]; cbn [snd] in H1; try done.
  etrans; [exact H1|]. clear H1 w.
  assert (moves R (emit_llm_start_step ctx oc)) as H2.
  { unfold emit_llm_start_step. destruct (logged ctx oc); [apply moves_append_now|apply moves_ret]. }
  unfold prog_bind at 1. specialize (H2 w1). destruct (emit_llm_start_step ctx oc w1) as [[[u|e]|] w2]; try done.
  etrans; [exact H2|]. clear H2 w1.
  pose proof (stable_invoke R messages (default_thread_id (ctx_thread_id ctx) options) w2) as H3.
  destruct (invoke_llm messages _ w2) as [res w3]. etrans; [exact H3|]. clear H3 w2.
  cbn [snd]. match goal with |- R _ (?m w3).2 => enough (moves R m) as H by apply H end.
  apply moves_bind.
  { unfold emit_llm_end_step. destruct (logged ctx oc); [apply moves_append_now|apply moves_ret]. }
  intros _. apply moves_bind; [|intros _; by apply moves_act].
  unfold record_llm_observation. destruct (logged ctx oc); [|apply moves_ret].
  destruct (parts_built oc); [|apply moves_ret].
  apply moves_bind; [apply moves_option|]. intros text. apply moves_append_now.
Qed.

Lemma moves_trace_entry {E} e : moves R (E := E) (prog_do (trace_entry e)).
Proof. apply moves_do. intros w. apply stable_trace. Qed.

Lemma moves_ask options t : moves R (ask env ctx options t).
Proof.
  apply moves_bind; [|intros ms; apply moves_chat]. apply moves_do. intros w. apply stable_trace.
Qed.

Lemma moves_parse options raw t : moves R (parse_with_retry env ctx options raw t).
Proof.
  unfold parse_with_retry. destruct (parse_agent_step raw) as [v|e]; [apply moves_ret|].
  destruct (negb _); [apply moves_err|]. apply moves_bind; [apply moves_trace_entry|]. intros _.
  apply moves_bind; [apply moves_ask|]. intros raw2.
  destruct (parse_agent_step raw2) as [v|e2]; [apply moves_ret|].
  destruct (negb _); [apply moves_err|].
  apply moves_bind; [apply moves_ask|]. intros raw3. by apply moves_act.
Qed.

Lemma moves_stop stop : moves R (record_run_loop_stop ctx stop).
Proof. unfold record_run_loop_stop. destruct (ctx_has_store ctx); [apply moves_append_now|apply moves_ret]. Qed.

Variable policy : AgentPolicy W.
Hypothesis Hkeeps : keeps policy.

Lemma moves_call action args w : R w (Tools.call tools action args w).2.
Proof.
  unfold Tools.call. destruct (tools !! action) as [t|] eqn:E; [|reflexivity].
  pose proof (keeps_tool _ Hkeeps _ _ args w E) as H. by destruct (tool_call t args w).
Qed.

Lemma moves_bounded action args timeout w : R w (bounded_tool_result tools action args timeout w).2.
Proof.
  unfold bounded_tool_result. pose proof (advancing_race action args timeout w) as H.
  destruct (tool_race action args timeout w) as [[u| |] w1]; try done. etrans; [exact H|apply moves_call].
Qed.

Lemma moves_observed tool_id t1 t2 t3 meta (op : W -> Outcome Value * W) obs w :
  (forall w, R w (op w).2) -> R w (run_observed tool_id t1 t2 t3 true meta op obs w).2.
Proof.
  intros Hop. unfold run_observed. set (s1 := tool_start _ _ _). pose proof (advancing_append s1 w) as H1.
  destruct (append s1 w) as [[u|e] w1]; cbn [snd] in *; [|done].
  pose proof (Hop w1) as H2. destruct (op w1) as [[r|] w2]; cbn [snd] in *.
  - destruct (observe meta obs r) as [[st o] rr]. set (s2 := tool_end _ _ _ _ _ _).
    pose proof (advancing_append s2 w2) as H3. destruct (append s2 w2) as [[u'|e] w3]; cbn [snd] in *;
      (etrans; [exact H1|]); by etrans.
  - unfold panic_guard_drop. etrans; [exact H1|]. etrans; [exact H2|]. apply advancing_append.
Qed.

Lemma moves_charged_call action args w : R w (charged_tool_call ctx tools policy action args w).2.
Proof.
  unfold charged_tool_call. set (timeout := Z.max 1 _). destruct (ctx_has_store ctx).
  - pose proof (stable_uuid w) as H2. destruct (fresh_uuid w) as [id w2].
    pose proof (stable_now w2) as H3. destruct (now w2) as [ts1 w3].
    pose proof (stable_now w3) as H4. destruct (now w3) as [ts2 w4]. cbn [snd] in *.
    etrans; [exact H2|]. etrans; [exact H3|]. etrans; [exact H4|].
    match goal with |- context [run_observed id ts1 ts2 ts2 true ?m ?op ?obs w4] =>
      pose proof (moves_observed id ts1 ts2 ts2 m op obs w4) as H5;
      destruct (run_observed id ts1 ts2 ts2 true m op obs w4) as [[[v|e]|] w5] end;
      apply H5; intros w'; pose proof (moves_bounded action args timeout w') as H;
      by destruct (bounded_tool_result tools action args timeout w').
  - pose proof (moves_bounded action args timeout w) as H.
    by destruct (bounded_tool_result tools action args timeout w).
Qed.

Lemma moves_execute action args w : R w (execute_tool_call ctx tools policy action args w).2.
Proof.
  unfold execute_tool_call. destruct (is_cancelled w); [done|].
  pose proof (stable_charge ToolCall w) as H1. destruct (charge ToolCall w) as [[u|e] w1]; cbn [snd] in H1; [|done].
  etrans; [exact H1|apply moves_charged_call].
Qed.

Lemma moves_fall_back {A} tid t : moves R (A := A) (stop_and_fall_back ctx policy tid t).
Proof.
  apply moves_bind; [apply moves_map_err, moves_stop|]. intros _ w.
  pose proof (keeps_fallback _ Hkeeps tid t w) as H. by destruct (fallback policy ctx tid t w).
Qed.

Lemma moves_complete tid ce t ledger : moves R (complete_turn ctx policy tid ce t ledger).
Proof.
  apply moves_bind.
  - apply moves_map_err, moves_act. intros w. apply (keeps_complete _ Hkeeps).
  - intros [[result|reason] t']; [apply moves_err|].
    apply moves_bind; [apply moves_map_err, moves_stop|]. intros _. apply moves_ret.
Qed.

Lemma moves_observation t raw action outcome : moves R (append_observation_to_transcript ctx t raw action outcome).
Proof.
  apply moves_bind; [apply moves_trace_entry|]. intros _. apply moves_bind; [apply moves_option|].
  intros [t' o']. apply moves_bind; [apply moves_trace_entry|]. intros _. apply moves_ret.
Qed.

Lemma moves_tool tid raw action args t ledger :
  moves R (tool_turn hash_args ctx tools policy tid raw action args t ledger).
Proof.
  apply moves_bind.
  { intros w. pose proof (moves_execute action args w) as H. by destruct (execute_tool_call _ _ _ _ _ w). }
  intros outcome. destruct (interrupt_for_action policy action args _) as [[kind prompt]|].
  - apply moves_bind; [apply moves_map_err, moves_stop|]. intros _. apply moves_err.
  - apply moves_bind; [apply moves_observation|]. intros t'. destruct (outcome_is_ok outcome); [apply moves_ret|].
    destruct (record_failure _ _ _ _) as [[n|n] l]; [apply moves_ret|apply moves_fall_back].
Qed.

(** The rest of a turn, after the step is charged. *)
Lemma moves_work options tid step_idx t ledger :
  moves R (charged_turn env hash_args ctx tools policy options tid step_idx t ledger).
Proof.
  apply moves_bind; [apply moves_do, stable_progress|]. intros _.
  apply moves_bind; [apply moves_do, stable_pre_step|]. intros _.
  apply moves_bind; [apply moves_map_err, moves_ask|]. intros raw.
  apply moves_bind; [apply moves_map_err, moves_parse|]. intros [[[action args|ce] raw'] t'].
  - apply moves_tool.
  - apply moves_complete.
Qed.

Lemma moves_turn options tid step_idx t ledger :
  moves R (turn env hash_args ctx tools policy options tid step_idx t ledger).
Proof.
  intros w. unfold turn. pose proof (stable_charge AgentStep w) as H.
  destruct (charge AgentStep w) as [[u|b] w1]; cbn [snd] in H.
  - destruct (is_cancelled w1); [done|]. etrans; [exact H|apply moves_work].
  - destruct b; (etrans; [exact H|]); first [done|apply moves_fall_back].
Qed.

Lemma kept_run_turns fuel options tid step_idx t ledger w v w' :
  run_turns env hash_args ctx tools policy fuel options tid step_idx t ledger w = Some (v, w') -> R w w'.
Proof.
  revert step_idx t ledger w. induction fuel as [|fuel IH]; intros step_idx t ledger w H; [done|].
  cbn [run_turns] in H. pose proof (moves_turn options tid step_idx t ledger w) as Ht.
  destruct (turn _ _ _ _ _ _ _ _ _ _ w) as [[[[t' l']|v']|] w1]; cbn [snd] in Ht; simplify_eq; try done.
  etrans; [exact Ht|by eapply IH].
Qed.
End kept.

(** ** The laws of the loop *)

Section laws.
Context {W : Type} `{HR : !Runtime W, HL : !StepLog W, HSha : !Sha256, HLow : !UnicodeLower, HSd : !Serde}.
Context `{HSt : !JsonStream, HV : !DeserializeOwned Value, HS : !DeserializeOwned AgentStepV1, HT : !SchemaTools}.
Context `{HJ : !JsonDisplay, HP : !JsonPretty}.
Context `{HLaws : !RuntimeLaws W}.
Variable env : string -> option string.
Variable hash_args : Value -> Z.
Variable ctx : AgentCtx.
Variable tools : @ToolRegistry W.

(** Tools and policies use the shared meter only to charge it. *)
Definition calm : AgentPolicy W -> Prop := keeps moved ctx tools.

(** ** A turn that goes on has charged a step *)

Variable policy : AgentPolicy W.
Hypothesis Hcalm : calm policy.

Definition agent_used (w : W) : Z := BudgetMeter.cell AgentStep (meter w).
Definition agent_ceiling (w : W) : Z := ceiling (BudgetMeter.budget (meter w)) AgentStep.

Notation turn := (turn env hash_args ctx tools policy).

Lemma turn_charges options tid step_idx t ledger w :
  match turn options tid step_idx t ledger w with
  | (Some (Ok _), w') =>
      (agent_used w < agent_ceiling w)%Z /\ (agent_used w + 1 <= agent_used w')%Z /\ agent_ceiling w' = agent_ceiling w
  | _ => True
  end.
Proof.
  unfold AgentLoop.turn, charge. pose proof (budget_charge_cell AgentStep (meter w)) as Hc.
  destruct (BudgetMeter.charge AgentStep (meter w)) as [[u|b] m]; destruct Hc as [Hb Hc].
  2: { destruct Hc as (-> & -> & _). cbn. unfold stop_and_fall_back, prog_bind.
       destruct (or_return _ _) as [[[u|e]|] w1]; [|done|done]. by destruct (fallback _ _ _ _ _). }
  destruct Hc as (Hc & Hlt & _). destruct (is_cancelled _); [done|].
  pose proof (moves_work moved env hash_args ctx tools policy Hcalm options tid step_idx t ledger (set_meter m w)) as Hm.
  match goal with |- match ?x with _ => _ end => destruct x as [[[r|v]|] w'] eqn:E end; try done.
  cbn [snd] in Hm. destruct Hm as [H1 H2]. specialize (H2 AgentStep).
  rewrite meter_set in H1, H2. unfold agent_used, agent_ceiling. rewrite H1, Hb. split_and!; [done|lia|done].
Qed.

(** ** The loop returns *)

Lemma run_turns_return fuel options tid step_idx t ledger w :
  Z.to_nat (agent_ceiling w - agent_used w) < fuel ->
  is_Some (run_turns env hash_args ctx tools policy fuel options tid step_idx t ledger w).
Proof.
  revert step_idx t ledger w. induction fuel as [|fuel IH]; intros step_idx t ledger w Hf; [lia|].
  cbn [run_turns]. pose proof (turn_charges options tid step_idx t ledger w) as H.
  destruct (turn options tid step_idx t ledger w) as [[[[t' l']|v]|] w']; [|done|done].
  destruct H as (H1 & H2 & H3). apply IH. rewrite H3. lia.
Qed.

(** C1: The agent loop always returns: however the model, the tools and the
    policy answer, as long as they do not raise the ceiling of the meter they
    share, the loop ends within the steps left in the budget and one more,
    with a verdict (or the panic of one of them). *)
Theorem run_until_block_returns fuel system_prompt tools_card question options w :
  Z.to_nat (agent_ceiling w - agent_used w) < fuel ->
  is_Some (run_until_block env hash_args ctx tools policy fuel system_prompt tools_card question options w).
Proof.
  intros Hf. unfold run_until_block.
  assert (forall w', moved w w' -> Z.to_nat (agent_ceiling w' - agent_used w') < fuel) as Hw.
  { intros w' [H1 H2]. specialize (H2 AgentStep). unfold agent_ceiling, agent_used in *. rewrite H1. lia. }
  destruct (ctx_thread_id ctx) as [tid|].
  - apply run_turns_return, Hw, stable_trace.
  - pose proof (stable_uuid w : moved w _) as Hu. destruct (fresh_uuid w) as [tid w1]. cbn [snd] in Hu.
    apply run_turns_return, Hw. etrans; [exact Hu|apply stable_trace].
Qed.

(** ** Who decides *)

(** Where a verdict came from. *)
Definition decided (v : Verdict) : Prop :=
  match v with
  | Ok (RunOutcome.Complete tid result) =>
      (exists ce t w t', (handle_complete policy ctx tid ce t w).1 = Ok (CompleteDecision.Accept result, t')) \/
      (exists id t w, (fallback policy ctx id t w).1 = Ok (RunOutcome.Complete tid result))
  | Ok (RunOutcome.Interrupt tid kind prompt) =>
      (exists action args obs, interrupt_for_action policy action args obs = Some (kind, prompt)) \/
      (exists id t w, (fallback policy ctx id t w).1 = Ok (RunOutcome.Interrupt tid kind prompt))
  | Err _ => True
  end.

Definition decides {A} (m : Prog W Verdict A) : Prop :=
  forall w, match (m w).1 with Some (Err v) => decided v | _ => True end.

Lemma decides_bind {A B} (m : Prog W Verdict A) (k : A -> Prog W Verdict B) :
  decides m -> (forall a, decides (k a)) -> decides (prog_bind m k).
Proof.
  intros Hm Hk w. unfold prog_bind. specialize (Hm w). destruct (m w) as [[[a|e]|] w1]; cbn [fst] in *; try done.
  apply Hk.
Qed.

Lemma decides_or_return {A} (m : Prog W CoreError.t A) : decides (or_return m).
Proof. intros w. unfold or_return, prog_map_err. destruct (m w) as [[[a|e]|] w1]; done. Qed.

Lemma decides_do {A} (f : W -> A * W) : decides (prog_do f).
Proof. intros w. unfold prog_do. by destruct (f w). Qed.

Lemma decides_option {A} (o : option A) : decides (prog_option o).
Proof. intros w. by destruct o. Qed.

Lemma decides_ret {A} (a : A) : decides (prog_ret a).
Proof. by intros w. Qed.

Lemma decides_observation t raw action outcome : decides (append_observation_to_transcript ctx t raw action outcome).
Proof.
  apply decides_bind; [apply decides_do|intros _]. apply decides_bind; [apply decides_option|intros [t' o']].
  apply decides_bind; [apply decides_do|intros _]. apply decides_ret.
Qed.

Lemma decides_complete tid ce t ledger : decides (complete_turn ctx policy tid ce t ledger).
Proof.
  intros w. unfold complete_turn, prog_bind at 1, or_return at 1, prog_map_err, prog_act.
  destruct (handle_complete policy ctx tid ce t w) as [[[d t']|e] w1] eqn:E; [|done]. cbn [option_map res_map_err].
  destruct d as [result|reason].
  - left. exists ce, t, w, t'. by rewrite E.
  - revert w1 E. intros w1 _. revert w1.
    match goal with |- forall w1, match (?m w1).1 with _ => _ end => change (decides m) end.
    apply decides_bind; [apply decides_or_return|intros _]. apply decides_ret.
Qed.

Lemma decides_fall_back {A} tid t : decides (A := A) (stop_and_fall_back ctx policy tid t).
Proof.
  apply decides_bind; [apply decides_or_return|]. intros _ w.
  destruct (fallback policy ctx tid t w) as [r w1] eqn:E. cbn [fst]. destruct r as [o|e]; [|done].
  cbn [res_map_err]. destruct o; right; exists tid, t, w; by rewrite E.
Qed.

Lemma decides_turn options tid step_idx t ledger : decides (turn options tid step_idx t ledger).
Proof.
  intros w. unfold AgentLoop.turn. destruct (charge AgentStep w) as [[u|[]] w1]; try done; [|apply decides_fall_back].
  destruct (is_cancelled w1); [done|]. revert w1.
  change (decides (charged_turn env hash_args ctx tools policy options tid step_idx t ledger)).
  do 2 (apply decides_bind; [by intros w1|intros _]).
  apply decides_bind; [apply decides_or_return|]. intros raw.
  apply decides_bind; [apply decides_or_return|]. intros [[[action args|ce] raw'] t'].
  - apply decides_bind; [intros w1; by destruct (execute_tool_call _ _ _ _ _ w1) as [[o|] w2]|]. intros outcome.
    destruct (interrupt_for_action policy action args _) as [[kind prompt]|] eqn:Ei.
    + apply decides_bind; [apply decides_or_return|]. intros _ w1. left. eauto.
    + apply decides_bind.
      { apply decides_observation. }
      intros t2. destruct (outcome_is_ok outcome); [by intros w1|].
      destruct (record_failure _ _ _ _) as [[n|n] l]; [by intros w1|apply decides_fall_back].
  - apply decides_complete.
Qed.

Lemma run_turns_decided fuel options tid step_idx t ledger w v w' :
  run_turns env hash_args ctx tools policy fuel options tid step_idx t ledger w = Some (Some v, w') -> decided v.
Proof.
  revert step_idx t ledger w. induction fuel as [|fuel IH]; intros step_idx t ledger w H; [done|].
  cbn [run_turns] in H. pose proof (decides_turn options tid step_idx t ledger w) as Hd.
  destruct (turn options tid step_idx t ledger w) as [[[[t' l']|v']|] w1]; cbn [fst] in Hd; simplify_eq; [|done].
  by apply IH in H.
Qed.

(** C2: Every verdict is the policy's: a run completes only with a result that
    [handle_complete] accepted for this thread or that [fallback] returned,
    and is interrupted only as [interrupt_for_action] or [fallback] said. *)
Theorem verdicts_are_the_policys fuel system_prompt tools_card question options w v w' :
  run_until_block env hash_args ctx tools policy fuel system_prompt tools_card question options w = Some (Some v, w') ->
  decided v.
Proof.
  unfold run_until_block. destruct (match ctx_thread_id ctx with Some tid => _ | None => _ end) as [tid w1].
  apply run_turns_decided.
Qed.

(** Recording a stop: one step, or an error and none. *)
Lemma stop_log stop w :
  let '(r, w') := record_run_loop_stop ctx stop w in
  (exists ts, r = Some (Ok tt) /\
     logs w (if ctx_has_store ctx then [stop_step ctx stop ts] else []) w') \/
  (exists e : CoreError.t, r = Some (Err e) /\ logs w [] w').
Proof.
  unfold record_run_loop_stop. destruct (ctx_has_store ctx).
  - apply (append_now (stop_step ctx stop) w).
  - left. exists EmptyString. split; [done|apply logs_nil].
Qed.

(** At the end of the step budget the run stops in an orderly way: the next
    turn asks no model and runs no tool; the log gains exactly one
    [RunLoopStop] of kind [step_limit_exceeded] (if there is a store), and the
    verdict is the policy's fallback, unless that step could not be logged. *)
Theorem exhausted_run_falls_back fuel options tid step_idx t ledger w :
  (agent_ceiling w <= agent_used w)%Z ->
  exists v w', run_turns env hash_args ctx tools policy (S fuel) options tid step_idx t ledger w = Some (Some v, w') /\
  ((exists e, v = Err e /\ logs w [] w') \/
   exists ts w1,
     logs w (if ctx_has_store ctx then [stop_step ctx RunLoopStop.StepLimitExceeded ts] else []) w1 /\
     v = res_map_err CoreError.Generic (fallback policy ctx tid t w1).1 /\ w' = (fallback policy ctx tid t w1).2).
Proof.
  intros Hex. cbn [run_turns]. unfold AgentLoop.turn.
  pose proof (quiet_charge AgentStep w) as [Hs _].
  assert (exists w0, charge AgentStep w = (Err BudgetExhausted.AgentSteps, w0)) as [w0 E].
  { unfold charge, BudgetMeter.charge, BudgetMeter.snapshot. unfold agent_ceiling, agent_used in Hex.
    rewrite (proj2 (Z.leb_le _ _) Hex). by eexists. }
  rewrite E in Hs |- *. cbn [snd] in Hs. unfold stop_and_fall_back, prog_bind, or_return, prog_map_err.
  pose proof (stop_log RunLoopStop.StepLimitExceeded w0) as Ha.
  destruct (record_run_loop_stop ctx RunLoopStop.StepLimitExceeded w0) as [r w1].
  destruct Ha as [(ts & -> & H1)|(e & -> & H1)]; cbn [option_map res_map_err].
  - destruct (fallback policy ctx tid t w1) as [r2 w2] eqn:Ef. eexists _, _. split; [done|].
    right. exists ts, w1. rewrite Ef. split; [exact (logs_trans _ _ _ _ _ Hs H1)|done].
  - eexists _, _. split; [done|]. left. exists e. split; [done|exact (logs_trans _ _ _ _ _ Hs H1)].
Qed.

(** C24: A tool runs only within the budget: a cancelled run answers the call
    with a failure and changes nothing; a run out of tool calls answers it
    with a failure, logs nothing and runs nothing; in every other case one tool
    call is charged. *)
Theorem tools_run_within_the_budget action args w :
  (is_cancelled w = true ->
     execute_tool_call ctx tools policy action args w = (Some (ToolOutcome.Failed (mkToolError "cancelled")), w)) /\
  (is_cancelled w = false ->
     let used := BudgetMeter.cell ToolCall (meter w) in
     let max := ceiling (BudgetMeter.budget (meter w)) ToolCall in
     let '(o, w') := execute_tool_call ctx tools policy action args w in
     ((max <= used)%Z /\ quiet w w' /\
        o = Some (ToolOutcome.Failed (mkToolError (BudgetExhausted.display BudgetExhausted.ToolCalls)))) \/
     ((used < max)%Z /\ (used + 1 <= BudgetMeter.cell ToolCall (meter w'))%Z)).
Proof.
  split; [intros H; unfold execute_tool_call; by rewrite H|]. intros H used max.
  unfold execute_tool_call. rewrite H. unfold charge.
  pose proof (budget_charge_cell ToolCall (meter w)) as Hc.
  destruct (BudgetMeter.charge ToolCall (meter w)) as [[u|b] m]; destruct Hc as [Hb Hc].
  - destruct Hc as (Hc & Hlt & _). pose proof (moves_charged_call moved ctx tools policy Hcalm action args (set_meter m w)) as [_ Hm].
    specialize (Hm ToolCall). destruct (charged_tool_call _ _ _ _ _ _) as [o w']. cbn [snd] in Hm.
    rewrite meter_set in Hm. right. split; [done|]. unfold used. lia.
  - destruct Hc as (-> & -> & Hle). left. split_and!; [done| |done].
    split; [apply logs_set|]. split; [by rewrite meter_set|]. intros c. rewrite meter_set. lia.
Qed.
End laws.
