(* ===== verification/AgentRuns.v ===== *)
(** * Runs of the agent loop

    Non-interactive runs, and concrete runs in the scripted environment of
    [Gateway] that instantiate the theorems of [AgentLaws]. *)

From stdpp Require Import base list strings gmap.
From Stdlib Require Import ZArith Lia.
From S2P Require Import Prelude.
From S2P Require Import RustStr.
From S2P Require Import Json.
From S2P Require Import Errors.
From S2P Require Import Budget.
From S2P Require Import Storage.
From S2P Require Import SessionTypes.
From S2P Require Import Observed.
From S2P Require Import ErrorContext.
From S2P Require Import JsonRepair.
From S2P Require Import Schema.
From S2P Require Import Tools.
From S2P Require Import Transcript.
From S2P Require Import Llm.
From S2P Require Import Redaction.
From S2P Require Import Observability.
From S2P Require Import Gateway.
From S2P Require Import Parsing.
From S2P Require Import AgentLoop.
From S2P Require Import AgentLaws.
Import OneStep.

(** A non-interactive run never stops for a tool: its interrupts are
    suppressed, so a run that ends at a step boundary ended there because the
    inner policy's fallback asked for an interrupt, and one that completes did
    so because that policy accepted the result or fell back to it. *)
Theorem non_interactive_runs_end_by_the_fallback {W}
  `{HR : !Runtime W, HL : !StepLog W, HSha : !Sha256, HLow : !UnicodeLower, HSd : !Serde,
    HSt : !JsonStream, HV : !DeserializeOwned Value, HS : !DeserializeOwned AgentStepV1, HT : !SchemaTools,
    HJ : !JsonDisplay, HP : !JsonPretty}
  env hash_args ctx tools (policy : AgentPolicy W) fuel system_prompt tools_card question options w r w' :
  run_until_block_non_interactive env hash_args ctx tools policy fuel system_prompt tools_card question options w
    = Some (Some (Ok r), w') ->
  match r with
  | NonInteractive.Complete tid result =>
      (exists ce t w t', (handle_complete policy ctx tid ce t w).1 = Ok (CompleteDecision.Accept result, t')) \/
      (exists id t w, (fallback policy ctx id t w).1 = Ok (RunOutcome.Complete tid result))
  | NonInteractive.StepBoundary tid _ =>
      exists kind prompt id t w, (fallback policy ctx id t w).1 = Ok (RunOutcome.Interrupt tid kind prompt)
  end.
Proof.
  unfold run_until_block_non_interactive, run_until_block.
  destruct (match ctx_thread_id ctx with Some tid => _ | None => _ end) as [tid w1].
  destruct (run_turns _ _ _ _ _ _ _ _ _ _ _ _) as [[[[o|e]|] w2]|] eqn:E; try done.
  apply run_turns_decided in E. destruct o as [tid' result|tid' kind prompt]; intros [= <- <-]; [exact E|].
  destruct E as [(? & ? & ? & [=])|(id & t & w0 & E)]. eauto 10.
Qed.

(** ** The scripted agent *)

Definition no_hash : Sha256 := fun s => s.
Definition ascii_lower_all : UnicodeLower := to_ascii_lowercase.
Definition no_upper : UnicodeUpper := fun c => c.
Definition display : JsonDisplay := fun _ => "{}".
Definition pretty_json : JsonPretty := fun _ => Ok "{}".
#[local] Existing Instances no_hash ascii_lower_all no_upper display pretty_json Scripted.serde.

Definition no_tools : @ToolRegistry Scripted.World := ∅.
Definition policy : AgentPolicy Scripted.World := DefaultPolicy.

Lemma calm_default : calm Scripted.ctx no_tools policy.
Proof.
  split.
  - intros name t args w H. change no_tools with (∅ : gmap string (Tool Scripted.World)) in H.
    by rewrite lookup_empty in H.
  - intros tid ce t w. simpl. split; [done|]. intros c. simpl. lia.
  - intros tid t w. done.
Qed.

Definition run (fuel : nat) (w : Scripted.World) :=
  run_until_block Scripted.env (fun _ => 0%Z) Scripted.ctx no_tools policy fuel "sys" "card" "question"
    Scripted.options w.

(** An answer that is no JSON, then a fenced completion: the run completes with
    it, after two logged calls. *)
Example a_bad_answer_is_retried :
  match run 11 (Scripted.start [Ok "sorry"; Ok (fenced OneStep.text)]) with
  | Some (Some (Ok (RunOutcome.Complete tid result)), w) =>
      tid = "t" /\ tr_kind result = "generic" /\ length (steps_of w) = 7
  | _ => False
  end.
Proof. by vm_compute. Qed.

Lemma run_until_block_returns_witness : is_Some (run 11 (Scripted.start [])).
Proof.
  apply (run_until_block_returns Scripted.env (fun _ => 0%Z) Scripted.ctx no_tools policy calm_default 11
           "sys" "card" "question" Scripted.options (Scripted.start [])).
  vm_compute. lia.
Defined.

Lemma verdicts_are_the_policys_witness :
  exists v w', run 11 (Scripted.start [Ok OneStep.text]) = Some (Some v, w') /\
               decided Scripted.ctx policy v.
Proof.
  destruct (run 11 (Scripted.start [Ok OneStep.text])) as [[[v|] w']|] eqn:E; [|by vm_compute in E..].
  exists v, w'. split; [done|].
  exact (verdicts_are_the_policys Scripted.env (fun _ => 0%Z) Scripted.ctx no_tools policy 11
           "sys" "card" "question" Scripted.options _ _ _ E).
Defined.

(** A world whose step budget is used up. *)
Definition spent : Scripted.World :=
  {| Scripted.w_meter := BudgetMeter.store AgentStep 10 (BudgetMeter.new STANDARD);
     Scripted.w_cancelled := false; Scripted.w_caches := no_caches; Scripted.w_log := [];
     Scripted.w_replies := [] |}.

Lemma exhausted_run_falls_back_witness :
  let t := start "sys" "card" "contract" [] "question" in
  exists v w', run_turns Scripted.env (fun _ => 0%Z) Scripted.ctx no_tools policy 1 Scripted.options "t" 0 t ∅ spent
               = Some (Some v, w') /\
  ((exists e, v = Err e /\ logs spent [] w') \/
   exists ts w1,
     logs spent (if ctx_has_store Scripted.ctx then [stop_step Scripted.ctx RunLoopStop.StepLimitExceeded ts] else []) w1 /\
     v = res_map_err CoreError.Generic (fallback policy Scripted.ctx "t" t w1).1 /\
     w' = (fallback policy Scripted.ctx "t" t w1).2).
Proof.
  intros t.
  apply (exhausted_run_falls_back Scripted.env (fun _ => 0%Z) Scripted.ctx no_tools policy 0
           Scripted.options "t" 0 t ∅ spent).
  vm_compute. congruence.
Defined.

Lemma tools_run_within_the_budget_witness :
  let w := Scripted.start [] in
  (is_cancelled w = true ->
     execute_tool_call Scripted.ctx no_tools policy "sql" VNull w
     = (Some (ToolOutcome.Failed (mkToolError "cancelled")), w)) /\
  (is_cancelled w = false ->
     let used := BudgetMeter.cell ToolCall (meter w) in
     let max := ceiling (BudgetMeter.budget (meter w)) ToolCall in
     let '(o, w') := execute_tool_call Scripted.ctx no_tools policy "sql" VNull w in
     ((max <= used)%Z /\ quiet w w' /\
        o = Some (ToolOutcome.Failed (mkToolError (BudgetExhausted.display BudgetExhausted.ToolCalls)))) \/
     ((used < max)%Z /\ (used + 1 <= BudgetMeter.cell ToolCall (meter w'))%Z)).
Proof.
  intros w. exact (tools_run_within_the_budget Scripted.ctx no_tools policy calm_default "sql" VNull w).
Defined.

Lemma non_interactive_runs_end_by_the_fallback_witness :
  exists tid w', run_until_block_non_interactive Scripted.env (fun _ => 0%Z) Scripted.ctx no_tools policy 11
      "sys" "card" "question" Scripted.options spent
    = Some (Some (Ok (NonInteractive.StepBoundary tid StepBudgetExhausted)), w') /\
  exists kind prompt id t w, (fallback policy Scripted.ctx id t w).1 = Ok (RunOutcome.Interrupt tid kind prompt).
Proof.
  destruct (run_until_block_non_interactive Scripted.env (fun _ => 0%Z) Scripted.ctx no_tools policy 11
      "sys" "card" "question" Scripted.options spent) as [[[[[tid' result|tid []]|e]|] w']|] eqn:E;
    try (by vm_compute in E).
  exists tid, w'. split; [done|].
  exact (non_interactive_runs_end_by_the_fallback Scripted.env (fun _ => 0%Z) Scripted.ctx no_tools policy 11
           "sys" "card" "question" Scripted.options spent (NonInteractive.StepBoundary tid StepBudgetExhausted) w' E).
Defined.
