(* ===== verification/Dates.v ===== *)
(** * Dates

    What the program uses of [chrono]: dates are parsed from RFC 3339 strings
    and subtracted. *)

From stdpp Require Import base strings.
From Stdlib Require Import ZArith Lia Ascii.
From S2P Require Import Prelude.
From S2P Require Import RustStr.

(** [DateTime::parse_from_rfc3339], as nanoseconds of UTC. *)
Class Rfc3339 := parse_from_rfc3339 : string -> option Z.

(** [(b - a).num_milliseconds()], truncated towards zero. *)
Definition num_milliseconds (a b : Z) : Z := ((b - a) ÷ 1000000)%Z.

(** [chrono::Utc::now()], in nanoseconds, of a world that keeps time, and
    [DateTime::to_rfc3339]. *)
Class UtcClock (W : Type) := utc_now : W -> Z * W.
Class ToRfc3339 := to_rfc3339 : Z -> string.

(** [chrono::Utc::now().to_rfc3339()] *)
Definition now_iso {W} `{!UtcClock W, !ToRfc3339} (w : W) : string * W :=
  let '(t, w) := utc_now w in (to_rfc3339 t, w).

(** Dates of the form of one digit, in seconds, for the samples. *)
Definition digit_dates : Rfc3339 := fun s =>
  match s with
  | String a EmptyString => Some (Z.of_nat (nat_of_ascii a - 48) * 1000000000)%Z
  | _ => None
  end.
