(* ===== verification/Analysis.v ===== *)
(** * Analysis of a thread

    [src/src/core/src/session/analysis.rs]: the summary of a thread log and
    the detectors of loops, stalls, error rates, runs of model calls and
    revisited phases.  A [HashMap] is iterated in an order the program does
    not choose ([HashIter]); the decimal text of a number of seconds is a
    parameter. *)

From stdpp Require Import base list strings sorting sets.
From Stdlib Require Import ZArith Lia.
From S2P Require Import Prelude.
From S2P Require Import RustStr.
From S2P Require Import Json.
From S2P Require Import SessionTypes.
From S2P Require Import Dates.

Record PhaseSummary : Type := { ps_name : string; ps_steps : nat; ps_duration_ms : option Z }.

Record ToolCallSummary : Type := { tc_name : string; tc_count : nat; tc_successes : nat; tc_failures : nat }.

Module IssueKind.
Inductive t : Type := Loop | Stall | HighErrorRate | ExcessiveLlmCalls | PhaseRegression.
#[global] Instance eq_dec : EqDecision t.
Proof. solve_decision. Defined.
End IssueKind.

Record Issue : Type := {
  issue_kind : IssueKind.t;
  issue_description : string;
  step_range : nat * nat
}.

Record ThreadSummary : Type := {
  total_steps : nat;
  phases : list PhaseSummary;
  llm_calls : nat;
  tool_calls : list ToolCallSummary;
  total_duration_ms : option Z;
  issues : list Issue;
  summary_result : option string
}.

(** A hash map of counts, as the list of its entries in the order of their
    first insertion; [update] is [entry(k).or_insert(d)] and then [f]. *)
Fixpoint update {A} (k : string) (d : A) (f : A -> A) (m : list (string * A)) : list (string * A) :=
  match m with
  | [] => [(k, f d)]
  | (k', a) :: m => if String.eqb k k' then (k', f a) :: m else (k', a) :: update k d f m
  end.

(** The order in which a hash map is iterated. *)
Class HashIter := {
  hash_order : forall {A}, list (string * A) -> list (string * A);
  hash_order_perm A (m : list (string * A)) : hash_order m ≡ₚ m
}.

Section analysis.
Context `{HD : !Rfc3339, HI : !HashIter}.
(** [format!("{:.1}", ms as f64 / 1000.0)] *)
Variable fmt_seconds : Z -> string.

(** ** The summary *)

(** [start_ts.zip(end_ts).map(|(s, e)| (e - s).num_milliseconds())] *)
Definition duration_between (s e : option Z) : option Z :=
  match s, e with Some s, Some e => Some (num_milliseconds s e) | _, _ => None end.

(** The loop's variables. *)
Record Acc : Type := {
  acc_phases : list PhaseSummary;
  acc_current : option (string * nat * option Z);
  acc_llm : nat;
  acc_tools : list (string * (nat * nat * nat))
}.

(** [current_phase.take()], pushed as a summary that ends at [idx]. *)
Definition close_phase (idx : nat) (end_ts : option Z) (a : Acc) : list PhaseSummary :=
  match acc_current a with
  | Some (name, start_idx, start_ts) =>
      acc_phases a ++ [{| ps_name := name; ps_steps := idx - start_idx;
                          ps_duration_ms := duration_between start_ts end_ts |}]
  | None => acc_phases a
  end.

Definition count_tool (status : ToolStepStatus.t) (c : nat * nat * nat) : nat * nat * nat :=
  let '(n, ok, fail) := c in
  match status with
  | ToolStepStatus.Ok => (n + 1, ok + 1, fail)
  | ToolStepStatus.Failed => (n + 1, ok, fail + 1)
  | ToolStepStatus.Running => (n + 1, ok, fail)
  end.

Definition visit (idx : nat) (step : ThreadStep.t) (a : Acc) : Acc :=
  match step with
  | ThreadStep.Phase phase _ _ _ _ ts _ =>
      {| acc_phases := close_phase idx (parse_from_rfc3339 ts) a;
         acc_current := Some (phase, idx, parse_from_rfc3339 ts);
         acc_llm := acc_llm a; acc_tools := acc_tools a |}
  | ThreadStep.LlmEnd _ _ _ status _ _ _ _ =>
      {| acc_phases := acc_phases a; acc_current := acc_current a;
         acc_llm := if decide (status = LlmStepStatus.Ok) then acc_llm a + 1 else acc_llm a;
         acc_tools := acc_tools a |}
  | ThreadStep.ToolEnd _ name _ _ status _ _ _ _ _ =>
      {| acc_phases := acc_phases a; acc_current := acc_current a; acc_llm := acc_llm a;
         acc_tools := update name (0, 0, 0) (count_tool status) (acc_tools a) |}
  | _ => a
  end.

Fixpoint visit_all (idx : nat) (steps : list ThreadStep.t) (a : Acc) : Acc :=
  match steps with
  | [] => a
  | step :: steps => visit_all (S idx) steps (visit idx step a)
  end.

Definition tool_summary (e : string * (nat * nat * nat)) : ToolCallSummary :=
  let '(name, (n, ok, fail)) := e in
  {| tc_name := name; tc_count := n; tc_successes := ok; tc_failures := fail |}.

(** [v.sort_by(|a, b| b.count.cmp(&a.count))], a stable sort. *)
Definition by_count (a b : ToolCallSummary) : Prop := tc_count b <= tc_count a.
#[global] Instance by_count_dec : RelDecision by_count.
Proof. unfold by_count. intros a b. apply _. Defined.

Definition step_time (s : option ThreadStep.t) : option Z :=
  match s with Some s => parse_from_rfc3339 (ThreadStep.ts s) | None => None end.

(** ** The detectors *)

Definition tool_end_name (s : ThreadStep.t) : option string :=
  match s with ThreadStep.ToolEnd _ name _ _ _ _ _ _ _ _ => Some name | _ => None end.

Definition LOOP_WINDOW : nat := 10.
Definition LOOP_THRESHOLD : nat := 3.

(** The counts of the tools that ended in [steps[start..end]]. *)
Definition window_counts (steps : list ThreadStep.t) (start stop : nat) : list (string * nat) :=
  fold_left (fun m s => match tool_end_name s with Some name => update name 0 S m | None => m end)
    (take (stop - start) (drop start steps)) [].

Definition report_loop (start stop : nat) (found : list Issue) (e : string * nat) : list Issue :=
  let '(name, count) := e in
  if Nat.leb LOOP_THRESHOLD count then
    if existsb (fun i => bool_decide (issue_kind i = IssueKind.Loop) && contains (issue_description i) name
                         && Nat.leb start (step_range i).2) found
    then found
    else found ++ [{| issue_kind := IssueKind.Loop;
                      issue_description := "Tool '" +:+ name +:+ "' called " +:+ fmt_nat count +:+ " times in "
                                             +:+ fmt_nat LOOP_WINDOW +:+ " steps";
                      step_range := (start, stop) |}]
  else found.

Definition detect_loops (steps : list ThreadStep.t) (found : list Issue) : list Issue :=
  let iterations := Nat.min (Nat.max (length steps - LOOP_WINDOW) 1) (length steps) in
  fold_left (fun found start =>
    let stop := Nat.min (start + LOOP_WINDOW) (length steps) in
    fold_left (report_loop start stop) (hash_order (window_counts steps start stop)) found)
    (seq 0 iterations) found.

Definition STALL_THRESHOLD_MS : Z := 60000.

(** Consecutive steps, the first at index [i]. *)
Fixpoint detect_stalls (i : nat) (steps : list ThreadStep.t) : list Issue :=
  match steps with
  | prev :: ((cur :: _) as rest) =>
      match parse_from_rfc3339 (ThreadStep.ts prev), parse_from_rfc3339 (ThreadStep.ts cur) with
      | Some p, Some c =>
          let gap := num_milliseconds p c in
          if Z.ltb STALL_THRESHOLD_MS gap
          then {| issue_kind := IssueKind.Stall;
                  issue_description := "Gap of " +:+ fmt_seconds gap +:+ "s between steps";
                  step_range := (i, S i) |} :: detect_stalls (S i) rest
          else detect_stalls (S i) rest
      | _, _ => detect_stalls (S i) rest
      end
  | _ => []
  end.

(** The closure [flush].  [fail as f64 / total as f64 > 0.5] compares exactly
    what [2 * fail > total] does while the counts are below 2^53. *)
Definition flush (phase : string) (start stop ok fail : nat) : list Issue :=
  let total := ok + fail in
  if Nat.leb 4 total && Nat.ltb total (2 * fail) then
    [{| issue_kind := IssueKind.HighErrorRate;
        issue_description := "Phase '" +:+ phase +:+ "': " +:+ fmt_nat fail +:+ "/" +:+ fmt_nat total
                               +:+ " tool calls failed";
        step_range := (start, stop) |}]
  else [].

Fixpoint detect_high_error_rate (idx : nat) (steps : list ThreadStep.t) (current_phase : string)
  (phase_start ok fail : nat) : list Issue :=
  match steps with
  | [] => flush current_phase phase_start idx ok fail
  | ThreadStep.Phase phase _ _ _ _ _ _ :: steps =>
      flush current_phase phase_start idx ok fail ++ detect_high_error_rate (S idx) steps phase idx 0 0
  | ThreadStep.ToolEnd _ _ _ _ status _ _ _ _ _ :: steps =>
      match status with
      | ToolStepStatus.Ok => detect_high_error_rate (S idx) steps current_phase phase_start (ok + 1) fail
      | ToolStepStatus.Failed => detect_high_error_rate (S idx) steps current_phase phase_start ok (fail + 1)
      | ToolStepStatus.Running => detect_high_error_rate (S idx) steps current_phase phase_start ok fail
      end
  | _ :: steps => detect_high_error_rate (S idx) steps current_phase phase_start ok fail
  end.

Definition LLM_THRESHOLD : nat := 10.

(** The run of model calls after a step: its length and its start. *)
Definition llm_run (idx : nat) (step : ThreadStep.t) (consecutive_llm run_start : nat) : nat * nat :=
  match step with
  | ThreadStep.LlmEnd _ _ _ _ _ _ _ _ =>
      (consecutive_llm + 1, if Nat.eqb consecutive_llm 0 then idx else run_start)
  | ThreadStep.ToolEnd _ _ _ _ ToolStepStatus.Ok _ _ _ _ _ => (0, run_start)
  | _ => (consecutive_llm, run_start)
  end.

Fixpoint detect_excessive_llm_calls (idx : nat) (steps : list ThreadStep.t)
  (consecutive_llm run_start : nat) : list Issue :=
  match steps with
  | [] => []
  | step :: steps =>
      let '(consecutive_llm, run_start) := llm_run idx step consecutive_llm run_start in
      if Nat.leb LLM_THRESHOLD consecutive_llm then
        {| issue_kind := IssueKind.ExcessiveLlmCalls;
           issue_description := fmt_nat consecutive_llm +:+ " LLM calls without a successful tool call";
           step_range := (run_start, idx) |} :: detect_excessive_llm_calls (S idx) steps 0 run_start
      else detect_excessive_llm_calls (S idx) steps consecutive_llm run_start
  end.

Definition phase_name (s : ThreadStep.t) : option string :=
  match s with ThreadStep.Phase phase _ _ _ _ _ _ => Some phase | _ => None end.

(** The phases in order, a repeated one once. *)
Definition phase_order (steps : list ThreadStep.t) : list string :=
  fold_left (fun order s =>
    match phase_name s with
    | Some phase => if decide (last order = Some phase) then order else order ++ [phase]
    | None => order
    end) steps [].

(** [iter().enumerate().filter(..).nth(1).map_or(0, ..)] *)
Definition second_visit (steps : list ThreadStep.t) (cur : string) : nat :=
  default 0 (filter (fun idx => (steps !! idx) ≫= phase_name = Some cur)
               (seq 0 (length steps)) !! 1).

Definition detect_phase_regression (steps : list ThreadStep.t) : list Issue :=
  let order := phase_order steps in
  flat_map (fun i =>
    match order !! i with
    | Some cur =>
        match list_find (fun p => p = cur) (take i order) with
        | Some (first_seen, _) =>
            if Nat.ltb first_seen (i - 1) then
              let step_idx := second_visit steps cur in
              [{| issue_kind := IssueKind.PhaseRegression;
                  issue_description := "Phase '" +:+ cur +:+ "' revisited (first at position "
                    +:+ fmt_nat first_seen +:+ ", again at " +:+ fmt_nat i +:+ ")";
                  step_range := (step_idx, step_idx) |}]
            else []
        | None => []
        end
    | None => []
    end) (seq 1 (length order - 1)).

Definition detect_issues (log : ThreadLog.t) : list Issue :=
  let steps := ThreadLog.steps log in
  detect_loops steps [] ++ detect_stalls 0 steps ++ detect_high_error_rate 0 steps EmptyString 0 0 0
    ++ detect_excessive_llm_calls 0 steps 0 0 ++ detect_phase_regression steps.

Definition summarize (log : ThreadLog.t) : ThreadSummary :=
  let steps := ThreadLog.steps log in
  let a := visit_all 0 steps {| acc_phases := []; acc_current := None; acc_llm := 0; acc_tools := [] |} in
  {| total_steps := length steps;
     phases := close_phase (length steps) (step_time (last steps)) a;
     llm_calls := acc_llm a;
     tool_calls := sort_by by_count (map tool_summary (hash_order (acc_tools a)));
     total_duration_ms := duration_between (step_time (head steps)) (step_time (last steps));
     issues := detect_issues log;
     summary_result := option_map tr_kind (ThreadLog.result log) |}.
End analysis.

(** ** Tallies

    Both the summary and the loop detector count steps per tool name. *)

Section tally.
Context {A B : Type} (key : A -> option string) (d : B) (f : A -> B -> B).

Definition tally (l : list A) (m : list (string * B)) : list (string * B) :=
  fold_left (fun m s => match key s with Some k => update k d (f s) m | None => m end) l m.

Lemma update_get k k' (g : B -> B) m :
  assoc_get k (update k' d g m) =
  if decide (k = k') then Some (g (default d (assoc_get k m))) else assoc_get k m.
Proof.
  induction m as [|[k1 b] m IH]; cbn [update assoc_get].
  - case_decide as Hk; [subst; by rewrite String.eqb_refl|].
    destruct (String.eqb_spec k k'); [done|done].
  - destruct (String.eqb_spec k' k1) as [->|Hn]; cbn [assoc_get].
    + case_decide as Hk; [subst; by rewrite String.eqb_refl|].
      destruct (String.eqb_spec k k1); [done|done].
    + destruct (String.eqb_spec k k1) as [->|]; [|exact IH]. by rewrite decide_False by done.
Qed.

Lemma update_keys k (g : B -> B) m k' :
  k' ∈ map fst (update k d g m) <-> k' = k \/ k' ∈ map fst m.
Proof.
  induction m as [|[k1 b] m IH]; cbn [update map fst]; [set_solver|].
  destruct (String.eqb_spec k k1) as [->|]; cbn [map fst]; [set_solver|].
  rewrite !elem_of_cons, IH. set_solver.
Qed.

Lemma update_NoDup k (g : B -> B) m : NoDup (map fst m) -> NoDup (map fst (update k d g m)).
Proof.
  induction m as [|[k1 b] m IH]; cbn [update map fst]; [intros _; apply NoDup_singleton|].
  intros [Hn Hm]%NoDup_cons. destruct (String.eqb_spec k k1) as [->|]; cbn [map fst]; apply NoDup_cons; [done|].
  split; [|by apply IH]. rewrite update_keys. set_solver.
Qed.

Lemma tally_get l m k :
  default d (assoc_get k (tally l m)) =
  fold_left (fun b s => f s b) (filter (fun s => key s = Some k) l) (default d (assoc_get k m)).
Proof.
  revert m. induction l as [|s l IH]; intros m; [done|]. cbn [tally fold_left]. fold (tally l).
  rewrite filter_cons, IH. destruct (key s) as [k'|].
  - rewrite update_get. case_decide as Hk; [subst; by rewrite decide_True by done|].
    rewrite decide_False by congruence. done.
  - by rewrite decide_False by done.
Qed.

Lemma tally_keys l m k : k ∈ map fst (tally l m) <-> k ∈ map fst m \/ k ∈ omap key l.
Proof.
  revert m. induction l as [|s l IH]; intros m; [cbn; set_solver|]. cbn [tally fold_left omap list_omap].
  fold (tally l). rewrite IH. destruct (key s); [rewrite update_keys|]; set_solver.
Qed.

Lemma tally_NoDup l m : NoDup (map fst m) -> NoDup (map fst (tally l m)).
Proof.
  revert m. induction l as [|s l IH]; intros m Hm; [done|]. cbn [tally fold_left]. fold (tally l). apply IH.
  destruct (key s); [by apply update_NoDup|done].
Qed.

Lemma assoc_get_elem (m : list (string * B)) k b :
  NoDup (map fst m) -> (k, b) ∈ m <-> assoc_get k m = Some b.
Proof.
  induction m as [|[k1 b1] m IH]; cbn [map fst assoc_get]; [set_solver|]. intros [Hn Hm]%NoDup_cons.
  rewrite elem_of_cons. destruct (String.eqb_spec k k1) as [->|].
  - split; [|intros [=->]; by left]. intros [[= ->]|Hin]; [done|].
    destruct Hn. apply (list_elem_of_fmap_2 fst) in Hin. exact Hin.
  - rewrite <- IH by done. split; [intros [[=]|]; done|by right].
Qed.

(** An entry of a tally is the fold over the items of its key, and there is
    one for every key. *)
Lemma tally_spec l k b :
  (k, b) ∈ tally l [] <->
  k ∈ omap key l /\ b = fold_left (fun b s => f s b) (filter (fun s => key s = Some k) l) d.
Proof.
  pose proof (tally_NoDup l [] (NoDup_nil_2)) as Hnd. rewrite (assoc_get_elem _ _ _ Hnd).
  pose proof (tally_get l [] k) as Hg. pose proof (tally_keys l [] k) as Hk. cbn [assoc_get default] in Hg.
  split.
  - intros H. rewrite H in Hg. split; [|exact Hg].
    apply (assoc_get_elem _ _ _ Hnd), (list_elem_of_fmap_2 fst) in H. apply Hk in H. set_solver.
  - intros [Hin ->]. destruct (assoc_get k (tally l [])) as [b|] eqn:E; [by rewrite <- Hg|].
    exfalso. assert (k ∈ map fst (tally l [])) as H by (apply Hk; by right).
    apply list_elem_of_In, in_map_iff in H as ([k' b] & Heq & H). cbn in Heq. subst k'.
    apply list_elem_of_In, (assoc_get_elem _ _ _ Hnd) in H. congruence.
Qed.
End tally.

(** ** The summary counts the log *)

Definition tool_end_status (s : ThreadStep.t) : option ToolStepStatus.t :=
  match s with ThreadStep.ToolEnd _ _ _ _ status _ _ _ _ _ => Some status | _ => None end.

Definition llm_ok (s : ThreadStep.t) : Prop :=
  match s with ThreadStep.LlmEnd _ _ _ LlmStepStatus.Ok _ _ _ _ => True | _ => False end.
#[global] Instance llm_ok_dec s : Decision (llm_ok s).
Proof. unfold llm_ok. repeat case_match; apply _. Defined.

(** The ends of a tool's runs, and those of a status. *)
Definition ends_of (name : string) (steps : list ThreadStep.t) : list ThreadStep.t :=
  filter (fun s => tool_end_name s = Some name) steps.
Definition ended_with (name : string) (st : ToolStepStatus.t) (steps : list ThreadStep.t) : list ThreadStep.t :=
  filter (fun s => tool_end_status s = Some st) (ends_of name steps).

Definition expected_summary (name : string) (steps : list ThreadStep.t) : ToolCallSummary :=
  {| tc_name := name; tc_count := length (ends_of name steps);
     tc_successes := length (ended_with name ToolStepStatus.Ok steps);
     tc_failures := length (ended_with name ToolStepStatus.Failed steps) |}.

Section summary.
Context `{HD : !Rfc3339, HI : !HashIter}.

Definition count_end (s : ThreadStep.t) (c : nat * nat * nat) : nat * nat * nat :=
  match tool_end_status s with Some st => count_tool st c | None => c end.

Lemma visit_all_tools idx steps a :
  acc_tools (visit_all idx steps a) = tally tool_end_name (0, 0, 0) count_end steps (acc_tools a).
Proof.
  revert idx a. induction steps as [|s steps IH]; intros idx a; [done|].
  cbn [visit_all]. rewrite IH. cbn [tally fold_left]. by destruct s.
Qed.

Lemma visit_all_llm idx steps a :
  acc_llm (visit_all idx steps a) = acc_llm a + length (filter llm_ok steps).
Proof.
  revert idx a. induction steps as [|s steps IH]; intros idx a; [cbn; lia|].
  cbn [visit_all]. rewrite IH, filter_cons.
  assert (acc_llm (visit idx s a) = acc_llm a + if decide (llm_ok s) then 1 else 0) as ->.
  { destruct s as [| | | | | |? ? ? [] | | | | | | | | | |]; case_decide as H; cbn in *;
      (done || (by destruct H) || lia). }
  case_decide; cbn [length]; lia.
Qed.

Lemma count_end_fold l n o f :
  Forall (fun s => is_Some (tool_end_status s)) l ->
  fold_left (fun c s => count_end s c) l (n, o, f) =
    (n + length l, o + length (filter (fun s => tool_end_status s = Some ToolStepStatus.Ok) l),
     f + length (filter (fun s => tool_end_status s = Some ToolStepStatus.Failed) l)).
Proof.
  revert n o f. induction l as [|s l IH]; intros n o f; [cbn; intros _; repeat f_equal; lia|].
  intros [[st Hst] Hl]%Forall_cons. cbn [fold_left length]. rewrite !filter_cons, Hst.
  unfold count_end at 2. rewrite Hst.
  destruct st; cbn [count_tool]; rewrite IH by done; cbn [length];
    repeat case_decide; try done; cbn [length];
    (apply (f_equal2 pair); [apply (f_equal2 pair)|]; lia).
Qed.

Lemma tool_summaries steps c :
  c ∈ map tool_summary (tally tool_end_name (0, 0, 0) count_end steps []) <->
  tc_name c ∈ omap tool_end_name steps /\ c = expected_summary (tc_name c) steps.
Proof.
  assert (forall name b, b = fold_left (fun b s => count_end s b) (filter (fun s => tool_end_name s = Some name) steps) (0, 0, 0) ->
            tool_summary (name, b) = expected_summary name steps) as Hs.
  { intros name b ->. rewrite count_end_fold; [done|]. apply Forall_forall.
    intros s [Hs _]%list_elem_of_filter. by destruct s. }
  split.
  - intros ([name b] & -> & Hin)%list_elem_of_fmap. apply tally_spec in Hin as [Hin ->].
    rewrite Hs by done. done.
  - intros [Hin ->]. apply list_elem_of_fmap. set (b := fold_left (fun b s => count_end s b)
      (filter (fun s => tool_end_name s = Some (tc_name c)) steps) (0, 0, 0)).
    exists (tc_name c, b). split; [symmetry; by apply Hs|].
    by apply tally_spec.
Qed.

(** The phases of the steps read so far, the open one closed at the end. *)
Lemma visit_all_phase_names idx steps a n t :
  map ps_name (close_phase n t (visit_all idx steps a)) =
  map ps_name (close_phase n t a) ++ omap phase_name steps.
Proof.
  revert idx a. induction steps as [|s steps IH]; intros idx a; [by rewrite app_nil_r|].
  cbn [visit_all]. rewrite IH. destruct s; try done. cbn [visit omap list_omap phase_name].
  unfold close_phase at 1. cbn [acc_current acc_phases].
  rewrite map_app. cbn [map ps_name]. rewrite <- app_assoc. f_equal.
  unfold close_phase. destruct (acc_current a) as [[[] ]|]; [|done]. by rewrite !map_app.
Qed.

Definition steps_total (l : list PhaseSummary) : nat := sum_list_with ps_steps l.

Lemma visit_all_phase_steps idx steps a t :
  match acc_current a with Some (_, start, _) => start <= idx | None => acc_phases a = [] end ->
  steps_total (close_phase (idx + length steps) t (visit_all idx steps a)) =
  match acc_current a with
  | Some (_, start, _) => steps_total (acc_phases a) + (idx + length steps - start)
  | None => match list_find (fun s => is_Some (phase_name s)) steps with
            | Some (i, _) => length steps - i
            | None => 0
            end
  end.
Proof.
  revert idx a. induction steps as [|s steps IH]; intros idx a Ha.
  - cbn [visit_all length list_find]. unfold close_phase. destruct (acc_current a) as [[[name start] ts]|].
    + unfold steps_total. rewrite sum_list_with_app. cbn [sum_list_with ps_steps]. lia.
    + by rewrite Ha.
  - cbn [visit_all length]. replace (idx + S (length steps)) with (S idx + length steps) by lia.
    destruct (phase_name s) as [p|] eqn:Hp.
    + destruct s; try done. cbn [list_find phase_name]. rewrite decide_True by done.
      rewrite IH by (cbn; lia). cbn [visit acc_current acc_phases]. unfold close_phase.
      destruct (acc_current a) as [[[name start] ts0]|].
      * unfold steps_total. rewrite sum_list_with_app. cbn [sum_list_with ps_steps]. lia.
      * rewrite Ha. cbn. lia.
    + assert (acc_current (visit idx s a) = acc_current a /\ acc_phases (visit idx s a) = acc_phases a) as [E1 E2]
        by by destruct s.
      rewrite IH; rewrite E1, ?E2.
      * destruct (acc_current a) as [[[name start] ts0]|]; [done|].
        cbn [list_find]. rewrite Hp, decide_False by (by intros []).
        destruct (list_find _ steps) as [[i x]|]; cbn; [lia|done].
      * destruct (acc_current a) as [[[name start] ts0]|]; [lia|done].
Qed.

(** The summary accounts for the whole log: it counts every step and every
    successful model call; its phases are those of the phase steps, in order,
    and cover every step from the first of them on; and it has exactly one
    line per tool that ended a run, with the numbers of its runs, successes
    and failures, the most used tool first. *)
Theorem summary_accounts_for_the_log (fmt : Z -> string) log :
  let steps := ThreadLog.steps log in
  let s := summarize fmt log in
  total_steps s = length steps /\ llm_calls s = length (filter llm_ok steps) /\
  map ps_name (phases s) = omap phase_name steps /\
  sum_list_with ps_steps (phases s) =
    match list_find (fun s => is_Some (phase_name s)) steps with
    | Some (i, _) => length steps - i
    | None => 0
    end /\
  Sorted by_count (tool_calls s) /\ NoDup (map tc_name (tool_calls s)) /\
  forall c, c ∈ tool_calls s <->
    tc_name c ∈ omap tool_end_name steps /\ c = expected_summary (tc_name c) steps.
Proof.
  cbn zeta. cbn [summarize total_steps llm_calls phases tool_calls].
  set (a := {| acc_phases := []; acc_current := None; acc_llm := 0; acc_tools := [] |}).
  set (calls := sort_by _ _).
  assert (calls ≡ₚ map tool_summary (tally tool_end_name (0, 0, 0) count_end (ThreadLog.steps log) [])) as Hc.
  { unfold calls. rewrite sort_by_perm, visit_all_tools. apply Permutation_map, hash_order_perm. }
  split_and!; [done|apply visit_all_llm| | | | |].
  - rewrite visit_all_phase_names. done.
  - apply (visit_all_phase_steps 0 (ThreadLog.steps log) a). done.
  - apply sort_by_sorted. intros x y. unfold by_count. lia.
  - rewrite Hc, map_map. replace (map _ _) with (map fst (tally tool_end_name (0, 0, 0) count_end (ThreadLog.steps log) []))
      by (apply map_ext; by intros [? [[]]]). apply tally_NoDup. apply NoDup_nil_2.
  - intros c. rewrite Hc. apply tool_summaries.
Qed.
End summary.

(** ** The loop detector *)

Definition window (steps : list ThreadStep.t) (start : nat) : list ThreadStep.t :=
  take (Nat.min (start + LOOP_WINDOW) (length steps) - start) (drop start steps).

(** The windows it looks at. *)
Definition windows (steps : list ThreadStep.t) : nat :=
  Nat.min (Nat.max (length steps - LOOP_WINDOW) 1) (length steps).

Definition loop_text (name : string) (count : nat) : string :=
  "Tool '" +:+ name +:+ "' called " +:+ fmt_nat count +:+ " times in " +:+ fmt_nat LOOP_WINDOW +:+ " steps".

(** An issue that names a tool called often enough in a window. *)
Definition true_loop (steps : list ThreadStep.t) (i : Issue) : Prop :=
  exists name start, issue_kind i = IssueKind.Loop /\ start < windows steps /\
    LOOP_THRESHOLD <= length (ends_of name (window steps start)) /\
    issue_description i = loop_text name (length (ends_of name (window steps start))) /\
    step_range i = (start, Nat.min (start + LOOP_WINDOW) (length steps)).

(** An issue that mentions the tool and reaches the window. *)
Definition mentions (name : string) (start : nat) (i : Issue) : Prop :=
  issue_kind i = IssueKind.Loop /\ contains (issue_description i) name = true /\ start <= (step_range i).2.

Section loops.
Context `{HI : !HashIter}.

Lemma window_counts_spec steps start stop name count :
  (name, count) ∈ window_counts steps start stop <->
  name ∈ omap tool_end_name (take (stop - start) (drop start steps)) /\
  count = length (ends_of name (take (stop - start) (drop start steps))).
Proof.
  unfold window_counts. set (l := take _ _).
  assert (forall m, fold_left (fun m s => match tool_end_name s with Some name => update name 0 S m | None => m end) l m
            = tally tool_end_name 0 (fun _ => S) l m) as -> by done.
  rewrite tally_spec. unfold ends_of. generalize (filter (fun s => tool_end_name s = Some name) l). intros es.
  enough (fold_left (fun b (_ : ThreadStep.t) => S b) es 0 = length es) as -> by done.
  rewrite <- (Nat.add_0_r (length es)). generalize 0.
  induction es as [|e es IH]; intros n; [done|]. cbn [fold_left length]. rewrite IH. lia.
Qed.

Lemma report_loop_grows start stop found e : found `prefix_of` report_loop start stop found e.
Proof. unfold report_loop. destruct e. repeat case_match; try done. by eexists. Qed.

Lemma fold_grows {A} (f : list Issue -> A -> list Issue) l found :
  (forall found a, found `prefix_of` f found a) -> found `prefix_of` fold_left f l found.
Proof.
  intros Hf. revert found. induction l as [|a l IH]; intros found; [done|]. cbn. etrans; [apply Hf|apply IH].
Qed.

(** What has been found when an item is handled is there at the end. *)
Lemma fold_finds {A} (f : list Issue -> A -> list Issue) l found a (P : Issue -> Prop) :
  (forall found a, found `prefix_of` f found a) -> a ∈ l ->
  (forall found, Exists P (f found a)) -> Exists P (fold_left f l found).
Proof.
  intros Hf Ha HP. revert found. induction l as [|b l IH]; intros found; [by apply not_elem_of_nil in Ha|].
  cbn. apply elem_of_cons in Ha as [->|Ha]; [|by apply IH].
  destruct (fold_grows f l (f found b) Hf) as [k ->]. apply Exists_app. left. apply HP.
Qed.

Lemma fold_keeps {A} (f : list Issue -> A -> list Issue) l found (P : Issue -> Prop) :
  (forall found a, a ∈ l -> Forall P found -> Forall P (f found a)) -> Forall P found ->
  Forall P (fold_left f l found).
Proof.
  revert found. induction l as [|a l IH]; intros found Hf Hfound; [done|]. cbn. apply IH.
  - intros found' b Hb. apply Hf. by right.
  - apply Hf; [by left|done].
Qed.

Lemma report_loop_mentions start stop found name count :
  LOOP_THRESHOLD <= count -> start <= stop ->
  Exists (mentions name start) (report_loop start stop found (name, count)).
Proof.
  intros Hc Hs. unfold report_loop. destruct (Nat.leb_spec LOOP_THRESHOLD count); [|lia].
  case_match eqn:E.
  - apply Exists_exists. apply existsb_exists in E as (i & Hi & Ht). exists i.
    split; [by apply list_elem_of_In|]. apply andb_prop in Ht as [[Hk%bool_decide_eq_true Hd]%andb_prop Hr].
    split_and!; [done..|]. by apply Nat.leb_le.
  - apply Exists_app. right. constructor. split_and!; [done| |exact Hs]. apply contains_middle.
Qed.

(** The loop detector misses no tool of a window it looks at, and reports only
    what is there: for every window and every tool that ended three runs in
    it, some reported loop mentions the tool and reaches the window; and every
    reported loop states the number of runs of a tool in a window, three or
    more. *)
Theorem loops_are_reported steps name start :
  Forall (true_loop steps) (detect_loops steps []) /\
  (start < windows steps -> LOOP_THRESHOLD <= length (ends_of name (window steps start)) ->
   Exists (mentions name start) (detect_loops steps [])).
Proof.
  unfold detect_loops. fold (windows steps). split.
  - apply fold_keeps; [|constructor]. intros found s Hs%elem_of_seq Hfound. apply fold_keeps; [|done].
    clear found Hfound. intros found [n c] Hin Hfound.
    rewrite (hash_order_perm _ _) in Hin. apply window_counts_spec in Hin as [_ ->].
    unfold report_loop. fold (window steps s).
    destruct (Nat.leb_spec LOOP_THRESHOLD (length (ends_of n (window steps s)))) as [Hle|Hgt]; [|done].
    case_match; [done|].
    apply Forall_app. split; [done|]. constructor; [|constructor]. exists n, s. split_and!; [done|lia|done|done|done].
  - intros Hs Hc. eapply fold_finds with (a := start).
    + intros found a. apply fold_grows. intros. apply report_loop_grows.
    + apply elem_of_seq. lia.
    + intros found. eapply fold_finds with (a := (name, length (ends_of name (window steps start)))).
      * intros. apply report_loop_grows.
      * rewrite (hash_order_perm _ _). apply window_counts_spec. split; [|done]. fold (window steps start).
        destruct (ends_of name (window steps start)) as [|s l] eqn:E; [unfold LOOP_THRESHOLD in Hc; cbn in Hc; lia|].
        apply list_elem_of_omap. exists s.
        assert (s ∈ ends_of name (window steps start)) as Hin by (rewrite E; by left).
        apply list_elem_of_filter in Hin as [? ?]. done.
      * intros. apply report_loop_mentions; [done|]. unfold windows in Hs. lia.
Qed.
End loops.

Definition ended (name : string) : ThreadStep.t :=
  ThreadStep.ToolEnd "id" name name VNull ToolStepStatus.Ok None None (ToolObservation.success []) "" "agent".
Definition said : ThreadStep.t := ThreadStep.User "hi" Observation.success "" "user".

Definition in_order : HashIter.
Proof. refine {| hash_order A m := m |}. done. Defined.

(** The last window of a log of more than ten steps is not looked at: a tool
    that ended its last three steps goes unreported. *)
Theorem a_loop_at_the_end_goes_unseen :
  let steps := repeat said 8 ++ repeat (ended "sql_run") 3 in
  length (ends_of "sql_run" (take LOOP_WINDOW (drop 1 steps))) = 3 /\
  detect_loops (HI := in_order) steps [] = [].
Proof. by vm_compute. Qed.

Lemma loops_are_reported_witness :
  Exists (mentions "sql_run" 0) (detect_loops (HI := in_order) (repeat (ended "sql_run") 3) []).
Proof.
  apply (loops_are_reported (HI := in_order) (repeat (ended "sql_run") 3) "sql_run" 0); vm_compute; lia.
Defined.
