(* ===== verification/Suites.v ===== *)
(** * Suites

    [src/src/core/src/suite.rs]: what a suite hands to the transport
    ([FlowFrame]) and how it is recorded in the thread's log, the [Suite] trait
    as a record of its operations, the registries, and the storage of a default
    context.  [SuiteCtx] itself is the values it carries: the storage is the
    world [W] the operations run in, scope and keyspace are arguments. *)

From stdpp Require Import base list strings gmap.
From Stdlib Require Import ZArith Lia.
From S2P Require Import Prelude.
From S2P Require Import RustStr.
From S2P Require Import Json.
From S2P Require Import Errors.
From S2P Require Import Scope.
From S2P Require Import Storage.
From S2P Require Import MemoryStorage.
From S2P Require Import Caching.
From S2P Require Import SessionTypes.
From S2P Require Import Samples.
From S2P Require Import ThreadStore.
From S2P Require Import ThreadStoreShared.
From S2P Require Import ThreadStoreOwned.
From S2P Require Import Dates.
From S2P Require Import Analysis.

(** ** Frames *)

Record FlowKind : Type := mkFlowKind { flow_kind : string }.

Module FlowFrame.
Inductive t : Type :=
| Complete (kind : FlowKind) (payload : Value) (display : option string)
| Review (text : string) (meta : option Value)
| Checkpoint (kind : FlowKind) (payload : Value) (display : option string)
| Interrupt (kind : FlowKind) (prompt : string).
End FlowFrame.

Definition flow_frame_to_step (ts : string) (frame : FlowFrame.t) (agent_type : string) : ThreadStep.t :=
  match frame with
  | FlowFrame.Complete kind payload display =>
      ThreadStep.Complete (flow_kind kind) payload display Observation.success ts agent_type
  | FlowFrame.Review text meta => ThreadStep.ReviewResponse text meta Observation.success ts agent_type
  | FlowFrame.Checkpoint kind payload display =>
      ThreadStep.Checkpoint (flow_kind kind) payload display Observation.success ts agent_type
  | FlowFrame.Interrupt kind prompt =>
      ThreadStep.Interrupt (flow_kind kind) prompt Observation.success ts agent_type
  end.

Section frames.
Context {St K : Type} `{HSt : !StorageAdapter St, HT : !Timer St, HK : !Keyspace K,
  HC : !Codec ThreadLog.t, HU : !UtcClock St, HR : !ToRfc3339}.
Variable scope : RequestScope.
Variable keyspace : K.

(** The clock, read by a thread store. *)
Definition store_now : Op (ThreadStore St) string :=
  fun s => let '(ts, st) := now_iso (storage s) in (Ok ts, mkThreadStore st (cache s)).

(** The loop of [record_flow_frames], with its writer. *)
Fixpoint record_frames (thread_id agent_type : string) (frames : list FlowFrame.t)
  : Op (ThreadStore St) unit :=
  match frames with
  | [] => act_ret tt
  | frame :: frames =>
      do! ts <- store_now;
      let step := flow_frame_to_step ts frame agent_type in
      do! _ <- (match step with
                | ThreadStep.Complete _ _ _ _ _ _ | ThreadStep.Interrupt _ _ _ _ _ =>
                    append_step_if_new scope keyspace thread_id step
                | _ => append_step scope keyspace thread_id step
                end);
      record_frames thread_id agent_type frames
  end.

Definition record_flow_frames (thread_id agent_type : string) (frames : list FlowFrame.t) : Op St unit :=
  fun st => let '(r, s) := record_frames thread_id agent_type frames (new st) in (r, storage s).
End frames.

(** ** The suite trait and its registry *)

Record Suite (W : Type) : Type := mkSuite {
  suite_id : string;
  label : string;
  supported_agent_types : list string;
  default_agent_type : string;
  phase_order : string -> list string;
  initial_phase : string;
  load_ws_plans : string -> Act W string (list Value);
  handle_new : string -> string -> string -> Act W string (list FlowFrame.t);
  handle_open : string -> string -> string -> Act W string (list FlowFrame.t);
  handle_user : string -> string -> string -> Act W string (list FlowFrame.t)
}.

Arguments suite_id {W} _.
Arguments label {W} _.
Arguments supported_agent_types {W} _.
Arguments default_agent_type {W} _.
Arguments phase_order {W} _ _.
Arguments initial_phase {W} _.
Arguments load_ws_plans {W} _ _.
Arguments handle_new {W} _ _ _ _.
Arguments handle_open {W} _ _ _ _.
Arguments handle_user {W} _ _ _ _.

(** A suite that overrides no default of the trait. *)
Definition plain_suite {W} (id : string)
  (on_new on_open on_user : string -> string -> string -> Act W string (list FlowFrame.t)) : Suite W := {|
  suite_id := id;
  label := id;
  supported_agent_types := ["ask"];
  default_agent_type := "ask";
  phase_order _ := [];
  initial_phase := "preflight";
  load_ws_plans _ := act_ret [];
  handle_new := on_new;
  handle_open := on_open;
  handle_user := on_user
|}.

Definition SuiteRegistry (W : Type) : Type := gmap string (Suite W).

Module Registry.
Section registry.
Context {W : Type}.
Definition new : SuiteRegistry W := (∅ : gmap string (Suite W)).
Definition register (s : Suite W) (r : SuiteRegistry W) : SuiteRegistry W :=
  <[suite_id s := s]> (r : gmap string (Suite W)).
Definition get (r : SuiteRegistry W) (suite_id : string) : option (Suite W) :=
  (r : gmap string (Suite W)) !! suite_id.
Definition list_ids (r : SuiteRegistry W) : list string :=
  sort_strings (elements (dom (r : gmap string (Suite W)))).
End registry.
End Registry.

Record DebugProvider : Type := {
  dp_suite_id : string;
  detect_domain_issues : ThreadLog.t -> list Issue;
  domain_context : string
}.

Module DebugRegistry.
Definition t : Type := gmap string DebugProvider.
Definition register (p : DebugProvider) (r : t) : t := <[dp_suite_id p := p]> (r : gmap string DebugProvider).
Definition get (r : t) (suite_id : string) : option DebugProvider := (r : gmap string DebugProvider) !! suite_id.
End DebugRegistry.

(** ** The storage of [SuiteCtx::default()] *)

Definition null_err {A} (op key : string) : Result A CoreError.t :=
  Err (storage_err (StorageError.Other ("NullStorageAdapter: " +:+ op +:+ "('" +:+ key +:+ "')"))).

Definition NullStorageAdapter : StorageAdapter unit := {|
  get_json key := act_lift (null_err "get_json" key);
  put_json key _ := act_lift (null_err "put_json" key);
  put_json_if_etag_matches key _ _ := act_lift (null_err "put_json_if_etag_matches" key);
  get_bytes key := act_lift (null_err "get_bytes" key);
  put_bytes key _ _ := act_lift (null_err "put_bytes" key);
  delete_object key := act_lift (null_err "delete_object" key);
  head_etag key := act_lift (null_err "head_etag" key);
  list_prefix prefix := act_lift (null_err "list_prefix" prefix)
|}.

(** ** What recording frames leaves in the log *)

(** A step as [record_flow_frames] writes it: a final step only once. *)
Definition record_step (step : ThreadStep.t) (log : ThreadLog.t) : ThreadLog.t :=
  if existsb (same_event step) (ThreadLog.steps log) then log else apply_step step log.

(** The log after the frames, written at the times [stamps]. *)
Fixpoint recorded (agent : string) (frames : list FlowFrame.t) (stamps : list string) (log : ThreadLog.t)
  : ThreadLog.t :=
  match frames, stamps with
  | frame :: frames, ts :: stamps =>
      recorded agent frames stamps (record_step (flow_frame_to_step ts frame agent) log)
  | _, _ => log
  end.

(** A clock that leaves the storage alone and reads dates of [times]. *)
Class ClockOf (St : Type) `{HU : !UtcClock St, HR : !ToRfc3339, HV : !StorageView St} (times : string -> Prop) : Prop := {
  clock_contents w : contents (now_iso w).2 = contents w;
  clock_valid w : valid w -> valid (now_iso w).2;
  clock_times w : times (now_iso w).1
}.

Lemma same_event_kinds step steps :
  existsb (same_event step) steps = true ->
  match step with ThreadStep.Complete _ _ _ _ _ _ | ThreadStep.Interrupt _ _ _ _ _ => True | _ => False end.
Proof. destruct step; try done; cbn; by induction steps. Qed.

Section recording.
Context {St K : Type} `{HSd : !Serde, HSt : !StorageAdapter St, HV : !StorageView St,
  HL : !StorageLaws St, HT : !Timer St, HK : !Keyspace K, HC : !Codec ThreadLog.t,
  HU : !UtcClock St, HR : !ToRfc3339}.
Variables (scope : RequestScope) (ks : K) (thread_id key agent : string).
Hypothesis Hkey : thread_store_key scope ks thread_id = Ok key.

Definition storable (log : ThreadLog.t) : Prop :=
  exists b, encode_log log = Some b /\ decode_log b = Some log.

(** Every object but the one at [key] is as before. *)
Definition only_key (c c' : Spec.Store) : Prop :=
  delete key (c' : gmap string string) = delete key (c : gmap string string).

Lemma only_key_insert (c : Spec.Store) b : only_key c (<[key := b]> (c : gmap string string)).
Proof. unfold only_key, Spec.Store in *. apply delete_insert_eq. Qed.

Lemma write_step_owned step (s : ThreadStore St) log :
  coherent key s -> holds (object key s) log -> readable log -> storable (apply_step step log) ->
  exists s', (match step with
              | ThreadStep.Complete _ _ _ _ _ _ | ThreadStep.Interrupt _ _ _ _ _ =>
                  append_step_if_new scope ks thread_id step
              | _ => append_step scope ks thread_id step
              end) s = (Ok tt, s') /\
    coherent key s' /\ holds (object key s') (record_step step log) /\
    only_key (contents (storage s)) (contents (storage s')).
Proof using Hkey HL.
  intros Hc Hh Hr (b & He & Hd).
  assert (forall s0, coherent key s0 -> contents (storage s0) = contents (storage s) ->
    exists s', append_step scope ks thread_id step s0 = (Ok tt, s') /\ coherent key s' /\
      holds (object key s') (apply_step step log) /\ only_key (contents (storage s)) (contents (storage s')))
    as Happ.
  { intros s0 C0 S0. destruct (append_step_owned scope ks thread_id key step s0 log b) as (s1 & E1 & C1 & S1); try done.
    { unfold object. by rewrite S0. }
    exists s1. split; [done|]. split; [done|]. unfold object. rewrite S1, S0. split; [|apply only_key_insert].
    unfold Spec.Store in *. by rewrite lookup_insert_eq. }
  destruct (duplicate_check_owned scope ks thread_id key step s log Hkey Hc Hh Hr) as (s1 & E1 & C1 & S1).
  unfold record_step. pose proof (same_event_kinds step (ThreadLog.steps log)) as Hkind.
  destruct (existsb (same_event step) (ThreadLog.steps log)) eqn:Hdup.
  - specialize (Hkind eq_refl). exists s1. unfold object, only_key in *. rewrite S1.
    split; [|done]. by destruct step; try done; unfold append_step_if_new; rewrite (act_bind_Ok _ _ _ _ _ E1).
  - clear Hkind. destruct step; try (apply (Happ s); done);
      unfold append_step_if_new; rewrite (act_bind_Ok _ _ _ _ _ E1); apply (Happ s1); done.
Qed.

Lemma readable_record step log : readable log -> readable (record_step step log).
Proof. unfold record_step, readable. destruct (existsb _ _); [done|]. by destruct step. Qed.

Lemma record_frames_owned (times : string -> Prop) `{HO : !ClockOf St times} frames (s : ThreadStore St) log :
  coherent key s -> holds (object key s) log -> readable log ->
  (forall n stamps, Forall times stamps -> length stamps = n -> n <= length frames ->
    forall f ts, frames !! n = Some f -> times ts ->
    storable (apply_step (flow_frame_to_step ts f agent) (recorded agent (take n frames) stamps log))) ->
  exists stamps s', record_frames scope ks thread_id agent frames s = (Ok tt, s') /\
    length stamps = length frames /\ Forall times stamps /\
    coherent key s' /\ holds (object key s') (recorded agent frames stamps log) /\
    only_key (contents (storage s)) (contents (storage s')).
Proof using Hkey HL.
  revert s log. induction frames as [|f frames IH]; intros s log Hc Hh Hr Hs.
  { exists [], s. split_and!; try done. }
  cbn [record_frames]. unfold store_now at 1, act_bind at 1.
  pose proof (clock_contents (storage s)) as Ht1. pose proof (clock_valid (storage s)) as Ht2.
  pose proof (clock_times (storage s)) as Ht3. destruct (now_iso (storage s)) as [ts st]; cbn [fst snd] in *.
  assert (coherent key (mkThreadStore st (cache s))) as C0 by (apply coherent_same; [done|done|apply Ht2, Hc]).
  destruct (write_step_owned (flow_frame_to_step ts f agent) (mkThreadStore st (cache s)) log)
    as (s1 & E1 & C1 & H1 & O1); [done|by unfold object; cbn; rewrite Ht1|done| |].
  { apply (Hs 0 []); [by apply Forall_nil_2|done|lia|done|done]. }
  destruct (IH s1 (record_step (flow_frame_to_step ts f agent) log)) as (stamps & s2 & E2 & Hl & Hf & C2 & H2 & O2);
    [done|done|by apply readable_record| |].
  { intros n stamps Hst Hn Hle f' ts' Hf' Hts'.
    apply (Hs (S n) (ts :: stamps)); [by apply Forall_cons_2|by cbn; f_equal|cbn; lia|done|done]. }
  exists (ts :: stamps), s2. rewrite (act_bind_Ok _ _ _ _ _ E1).
  split_and!; [done|by cbn; f_equal|by apply Forall_cons_2|done|done|].
  unfold only_key in *. cbn in O1. by rewrite O2, O1, Ht1.
Qed.
End recording.

(** The step says what the frame says; of a final frame, its kind and payload
    or prompt. *)
Definition tells (frame : FlowFrame.t) (step : ThreadStep.t) : Prop :=
  match frame, step with
  | FlowFrame.Complete kind payload _, ThreadStep.Complete k p _ _ _ _ => flow_kind kind = k /\ payload = p
  | FlowFrame.Review text meta, ThreadStep.ReviewResponse t m _ _ _ => text = t /\ meta = m
  | FlowFrame.Checkpoint kind payload display, ThreadStep.Checkpoint k p d _ _ _ =>
      flow_kind kind = k /\ payload = p /\ display = d
  | FlowFrame.Interrupt kind prompt, ThreadStep.Interrupt k p _ _ _ => flow_kind kind = k /\ prompt = p
  | _, _ => False
  end.

Lemma same_event_tells frame ts agent s :
  same_event (flow_frame_to_step ts frame agent) s = true -> tells frame s.
Proof.
  destruct frame, s; try done; cbn; intros [E1 E2]%andb_prop; apply String.eqb_eq in E1; split; try done.
  - by apply bool_decide_eq_true in E2.
  - by apply String.eqb_eq in E2.
Qed.

Lemma apply_step_steps step log :
  ThreadLog.steps (apply_step step log) = ThreadLog.steps log ++ [step].
Proof. by destruct step. Qed.

(** One completion or interrupt says again what the other said. *)
Definition repeats (s s' : ThreadStep.t) : Prop :=
  match s, s' with
  | ThreadStep.Complete k p _ _ _ _, ThreadStep.Complete k' p' _ _ _ _ => k = k' /\ p = p'
  | ThreadStep.Interrupt k p _ _ _, ThreadStep.Interrupt k' p' _ _ _ => k = k' /\ p = p'
  | _, _ => False
  end.

Lemma same_event_repeats s s' : repeats s s' -> same_event s s' = true.
Proof.
  destruct s, s'; try done; cbn; intros [-> ->]; rewrite String.eqb_refl; cbn;
    first [apply String.eqb_refl|by apply bool_decide_eq_true_2].
Qed.

(** The frames of which a run has only one end. *)
Definition final (f : FlowFrame.t) : bool :=
  match f with FlowFrame.Complete _ _ _ | FlowFrame.Interrupt _ _ => true | _ => false end.

(** [new] tells [frames] after [old]: some of the frames in order, among them
    all that end nothing, one step each, and none of the steps repeats what
    was logged before it. *)
Definition told_once (old new : list ThreadStep.t) (frames : list FlowFrame.t) : Prop :=
  exists kept, sublist kept frames /\ Forall2 tells kept new /\
    List.filter (fun f => negb (final f)) kept = List.filter (fun f => negb (final f)) frames /\
    forall i s, new !! i = Some s -> Forall (fun s' => ~ repeats s s') (old ++ take i new).

Lemma told_once_nil old : told_once old [] [].
Proof. exists []. split_and!; [done|by constructor|done|]. by intros i s H. Qed.

Lemma told_once_skip old new frame frames :
  final frame = true -> told_once old new frames -> told_once old new (frame :: frames).
Proof.
  intros Hf (kept & H1 & H2 & H3 & H4). exists kept. split_and!; [by apply sublist_cons|done| |done].
  cbn. by rewrite Hf.
Qed.

Lemma told_once_cons old step new frame frames :
  tells frame step -> Forall (fun s' => ~ repeats step s') old -> told_once (old ++ [step]) new frames ->
  told_once old (step :: new) (frame :: frames).
Proof.
  intros Ht Hn (kept & H1 & H2 & H3 & H4). exists (frame :: kept). split_and!.
  - by apply sublist_skip.
  - by constructor.
  - cbn. by rewrite H3.
  - intros [|i] s; cbn; [intros [= <-]; by rewrite app_nil_r|]. intros Hs%H4. by rewrite <- app_assoc in Hs.
Qed.

Lemma recorded_spec agent frames stamps log :
  length stamps = length frames ->
  exists new, ThreadLog.steps (recorded agent frames stamps log) = ThreadLog.steps log ++ new /\
    told_once (ThreadLog.steps log) new frames /\
    Forall (fun f => Exists (tells f) (ThreadLog.steps log ++ new)) frames.
Proof.
  revert stamps log. induction frames as [|f frames IH]; intros [|ts stamps] log Hl; try done.
  { exists []. split_and!; [by rewrite app_nil_r|apply told_once_nil|apply Forall_nil_2]. }
  injection Hl as Hl. cbn [recorded]. set (step := flow_frame_to_step ts f agent).
  destruct (IH stamps (record_step step log) Hl) as (new & En & Ht & Hf). revert En Ht Hf. unfold record_step.
  pose proof (same_event_kinds step (ThreadLog.steps log)) as Hkind.
  destruct (existsb (same_event step) (ThreadLog.steps log)) eqn:Hdup; intros En Ht Hf.
  - specialize (Hkind eq_refl). exists new. split; [done|]. split.
    + apply told_once_skip; [|done]. unfold step in Hkind. by destruct f.
    + apply Forall_cons_2; [|done]. apply Exists_app. left.
      apply existsb_exists in Hdup as (s & Hin & Hs). apply Exists_exists. exists s.
      split; [by apply list_elem_of_In|by eapply same_event_tells].
  - rewrite apply_step_steps in En, Ht, Hf. exists (step :: new). rewrite <- app_assoc in En, Hf. cbn [app] in En, Hf.
    assert (tells f step) as Hstep by (unfold step; by destruct f). split; [done|]. split.
    + apply told_once_cons; [done| |done]. apply Forall_forall. intros s Hs Hr%same_event_repeats.
      assert (existsb (same_event step) (ThreadLog.steps log) = true) as Hd by
        (apply existsb_exists; exists s; split; [by apply list_elem_of_In|done]).
      congruence.
    + apply Forall_cons_2; [|done]. apply Exists_app. right. by apply Exists_cons_hd.
Qed.

(** C28: On storage nobody else writes, recording the frames of a run succeeds
    and touches no other object.  The log gains one step for every frame that
    ends nothing and at most one for a completion or an interrupt, in the order
    of the frames, each saying what its frame says; a completion or an
    interrupt is not logged when the log, from before or of this run, has the
    same one already; and afterwards every frame is told by some step. *)
Theorem frames_are_recorded {St K} `{HSd : !Serde, HSt : !StorageAdapter St, HV : !StorageView St,
    HL : !StorageLaws St, HT : !Timer St, HK : !Keyspace K, HC : !Codec ThreadLog.t,
    HU : !UtcClock St, HR : !ToRfc3339} (times : string -> Prop) `{HO : !ClockOf St times}
    (scope : RequestScope) (ks : K) thread_id key agent frames (w : St) log :
  thread_store_key scope ks thread_id = Ok key -> valid w ->
  holds ((contents w : gmap string string) !! key) log -> readable log ->
  (forall n stamps, Forall times stamps -> length stamps = n -> n <= length frames ->
    forall f ts, frames !! n = Some f -> times ts ->
    storable (apply_step (flow_frame_to_step ts f agent) (recorded agent (take n frames) stamps log))) ->
  exists log' w' new, record_flow_frames scope ks thread_id agent frames w = (Ok tt, w') /\
    valid w' /\ only_key key (contents w) (contents w') /\
    holds ((contents w' : gmap string string) !! key) log' /\
    ThreadLog.steps log' = ThreadLog.steps log ++ new /\
    told_once (ThreadLog.steps log) new frames /\
    Forall (fun f => Exists (tells f) (ThreadLog.steps log')) frames.
Proof.
  intros Hk Hv Hh Hr Hs.
  destruct (record_frames_owned scope ks thread_id key agent Hk times frames (new w) log)
    as (stamps & s' & E & Hl & _ & [C _] & H & O); try done.
  destruct (recorded_spec agent frames stamps log Hl) as (new & En & Ht & Hf).
  exists (recorded agent frames stamps log), (storage s'), new. unfold record_flow_frames. rewrite E, En.
  by split_and!.
Qed.

(** A clock that stands still. *)
Definition still_clock {W} : UtcClock W := fun w => (0%Z, w).
Definition one_date : ToRfc3339 := fun _ => "t".

Lemma still_clock_of St (HV : StorageView St) :
  ClockOf (HU := still_clock) (HR := one_date) St (eq "t").
Proof. by split. Qed.

Definition asking : list FlowFrame.t := [FlowFrame.Interrupt (mkFlowKind "ask") "hi"; FlowFrame.Interrupt (mkFlowKind "ask") "hi"].

Lemma frames_are_recorded_witness :
  exists log' w', record_flow_frames (HSt := @memory_adapter CountCodec.serde) (HC := CountCodec.codec)
      (HU := still_clock) (HR := one_date) sample_scope Local "x" "a" asking (∅ : InMemoryStorageAdapter) = (Ok tt, w') /\
    told_once [] (ThreadLog.steps log') asking /\
    Forall (fun f => Exists (tells f) (ThreadLog.steps log')) asking.
Proof.
  destruct (frames_are_recorded (HSd := CountCodec.serde) (HC := CountCodec.codec)
    (HSt := @memory_adapter CountCodec.serde) (HL := @memory_laws CountCodec.serde)
    (HU := still_clock) (HR := one_date) (eq "t") (HO := still_clock_of _ _)
    sample_scope Local "x" "t/w/p/threads/x.json" "a" asking
    (∅ : InMemoryStorageAdapter) ThreadLog.default) as (log' & w' & new & E & _ & _ & _ & En & Ht & Hf);
    [reflexivity|apply map_Forall_empty|reflexivity|reflexivity| |].
  - intros n stamps Hst Hl Hn f ts Hf <-.
    destruct n as [|[|n]]; [destruct stamps; [|done]|destruct stamps as [|a [|]]; try done|done];
      injection Hf as <-.
    + exists "a". split; reflexivity.
    + apply Forall_cons in Hst as [<- _]. exists "aa". split; reflexivity.
  - exists log', w'. split; [exact E|]. rewrite En. cbn [app ThreadLog.steps ThreadLog.default] in *. split; [exact Ht|]. by rewrite En in Hf.
Defined.
