(* ===== verification/ThreadFeedback.v ===== *)
(** * Feedback on threads

    [src/src/core/src/thread_feedback.rs]: verdicts kept beside a thread, their
    resolution, and diagnostics stored next to them.  The identifiers
    ([uuid::Uuid::new_v4]) and the clock's reading are arguments: both are
    read once in the operation that uses them. *)

From stdpp Require Import base list strings gmap sorting.
From Stdlib Require Import ZArith Lia.
From S2P Require Import Prelude.
From S2P Require Import RustStr.
From S2P Require Import Json.
From S2P Require Import Errors.
From S2P Require Import Scope.
From S2P Require Import Storage.
From S2P Require Import MemoryStorage.
From S2P Require Import Caching.
From S2P Require Import SessionTypes.
From S2P Require Import ThreadStoreOwned.

Module Verdict.
Inductive t : Type := Good | Bad.
#[global] Instance eq_dec : EqDecision t.
Proof. solve_decision. Defined.
End Verdict.

Record ThreadFeedback : Type := mkFeedback {
  feedback_id : string;
  fb_thread_id : string;
  verdict : Verdict.t;
  comment : string;
  created_at : string;
  resolved : bool;
  resolved_at : option string
}.

#[global] Instance ThreadFeedback_eq_dec : EqDecision ThreadFeedback.
Proof. solve_decision. Defined.

Record ThreadFeedbackDiagnostics : Type := {
  fd_feedback_id : string;
  fd_thread_id : string;
  fd_created_at : string;
  fd_payload : Value
}.

Definition normalize_comment (comment : string) : Result string CoreError.t :=
  let trimmed := trim comment in
  if str_is_empty trimmed then Err (CoreError.Generic "feedback comment cannot be empty") else Ok trimmed.

(** [b.created_at.cmp(&a.created_at)], as an order: newest first. *)
Definition newer (a b : ThreadFeedback) : Prop := str_le (created_at b) (created_at a).

#[global] Instance newer_dec : RelDecision newer.
Proof. intros a b. unfold newer. apply _. Defined.

Definition newest_first (l : list ThreadFeedback) : list ThreadFeedback := sort_by newer l.

(** The keys [load_prefix] reads. *)
Definition is_feedback_key (key : string) : bool :=
  ends_with key ".json" && negb (ends_with key ".diagnostics.json").

Section store.
Context {St K : Type} `{HSt : !StorageAdapter St, HT : !Timer St, HK : !Keyspace K,
  HF : !Codec ThreadFeedback, HD : !Codec ThreadFeedbackDiagnostics}.
Variable scope : RequestScope.
Variable keyspace : K.

Definition parse_feedback (v : Value) : Result ThreadFeedback CoreError.t :=
  res_map_err CoreError.Serialization (from_value v).

Fixpoint load_keys (keys : list string) : Op St (list ThreadFeedback) :=
  match keys with
  | [] => act_ret []
  | key :: keys =>
      if negb (is_feedback_key key) then load_keys keys
      else do! v <- retry_get_json key;
           do! feedback <- act_lift (parse_feedback v);
           do! out <- load_keys keys;
           act_ret (feedback :: out)
  end.

Definition load_prefix (prefix : string) : Op St (list ThreadFeedback) :=
  do! keys <- retry_list_prefix prefix; load_keys keys.

Definition write_feedback (feedback : ThreadFeedback) : Op St unit :=
  do! key <- act_lift (thread_feedback_key keyspace scope (fb_thread_id feedback) (feedback_id feedback));
  do! value <- act_lift (res_map_err CoreError.Serialization (to_value feedback));
  retry_put_json key value.

Definition ensure_thread_exists (thread_id : string) : Op St unit :=
  do! key <- act_lift (thread_key keyspace scope thread_id);
  do! tag <- retry_head_etag key;
  match tag with
  | Some _ => act_ret tt
  | None => act_err (CoreError.Generic
      ("thread '" +:+ thread_id +:+ "' was not found in project storage"))
  end.

Definition submit (uuid now thread_id : string) (v : Verdict.t) (text : string) : Op St ThreadFeedback :=
  do! text <- act_lift (normalize_comment text);
  do! _ <- ensure_thread_exists thread_id;
  let feedback := mkFeedback uuid thread_id v text now false None in
  do! _ <- write_feedback feedback;
  act_ret feedback.

Definition list_all : Op St (list ThreadFeedback) :=
  do! feedback <- load_prefix (feedback_prefix keyspace scope); act_ret (newest_first feedback).

Definition list_for_thread (thread_id : string) : Op St (list ThreadFeedback) :=
  do! prefix <- act_lift (thread_feedback_prefix keyspace scope thread_id);
  do! feedback <- load_prefix prefix; act_ret (newest_first feedback).

Definition get_by_id (id : string) : Op St (option ThreadFeedback) :=
  do! entries <- load_prefix (feedback_prefix keyspace scope);
  act_ret (find (fun feedback => String.eqb (feedback_id feedback) id) entries).

(** [feedback.resolved = true; feedback.resolved_at = Some(now)] *)
Definition resolve (now : string) (f : ThreadFeedback) : ThreadFeedback :=
  mkFeedback (feedback_id f) (fb_thread_id f) (verdict f) (comment f) (created_at f) true (Some now).

Definition mark_resolved (now id : string) : Op St (option ThreadFeedback) :=
  do! found <- get_by_id id;
  match found with
  | None => act_ret None
  | Some feedback =>
      if resolved feedback then act_ret (Some feedback)
      else let feedback := resolve now feedback in
           do! _ <- write_feedback feedback;
           act_ret (Some feedback)
  end.

Definition submit_diagnostics (now : string) (feedback : ThreadFeedback) (payload : Value)
  : Op St ThreadFeedbackDiagnostics :=
  let diagnostics := {| fd_feedback_id := feedback_id feedback; fd_thread_id := fb_thread_id feedback;
                        fd_created_at := now; fd_payload := payload |} in
  do! key <- act_lift (thread_feedback_diagnostics_key keyspace scope (fb_thread_id feedback) (feedback_id feedback));
  do! value <- act_lift (res_map_err CoreError.Serialization (to_value diagnostics));
  do! _ <- retry_put_json key value;
  act_ret diagnostics.

Definition get_diagnostics (thread_id id : string) : Op St (option ThreadFeedbackDiagnostics) :=
  do! key <- act_lift (thread_feedback_diagnostics_key keyspace scope thread_id id);
  do! tag <- retry_head_etag key;
  match tag with
  | Some _ =>
      do! value <- retry_get_json key;
      do! d <- act_lift (res_map_err CoreError.Serialization (from_value value));
      act_ret (Some d)
  | None => act_ret None
  end.
End store.

(** ** What is kept *)

Lemma newer_trans : Transitive newer.
Proof. intros a b c H1 H2. unfold newer in *. by transitivity (created_at b). Qed.
#[global] Existing Instance newer_trans.

Lemma newer_total : Total newer.
Proof. intros a b. unfold newer. apply str_le_total. Qed.
#[global] Existing Instance newer_total.

Lemma Forall2_perm {A B} (R : A -> B -> Prop) ks ks' l :
  Forall2 R ks l -> ks ≡ₚ ks' -> exists l', Forall2 R ks' l' /\ l' ≡ₚ l.
Proof.
  intros H Hp. revert l H. induction Hp as [|k ks ks' _ IH|k1 k2 ks|ks1 ks2 ks3 _ IH1 _ IH2]; intros l Hl.
  - exists l. by apply Forall2_nil_inv_l in Hl as ->.
  - apply Forall2_cons_inv_l in Hl as (f & l0 & H1 & H2 & ->). destruct (IH l0 H2) as (l' & H3 & H4).
    exists (f :: l'). split; [by constructor|by constructor].
  - apply Forall2_cons_inv_l in Hl as (f & l0 & H1 & H2 & ->).
    apply Forall2_cons_inv_l in H2 as (g & l1 & H3 & H4 & ->).
    exists (g :: f :: l1). split; [by repeat constructor|apply perm_swap].
  - destruct (IH1 l Hl) as (l1 & H1 & P1). destruct (IH2 l1 H1) as (l2 & H2 & P2).
    exists l2. split; [done|by rewrite P2].
Qed.

Lemma find_perm {A} (p : A -> bool) f l rest :
  l ≡ₚ f :: rest -> p f = true -> Forall (fun g => p g = false) rest -> find p l = Some f.
Proof.
  intros Hl Hf Hr. destruct (find p l) as [g|] eqn:E.
  - apply find_some in E as [Hin Hg]. apply list_elem_of_In in Hin. rewrite Hl in Hin.
    apply elem_of_cons in Hin as [->|Hin]; [done|]. rewrite Forall_forall in Hr. by rewrite (Hr g Hin) in Hg.
  - assert (f ∈ l) as Hin by (rewrite Hl; by left). apply list_elem_of_In in Hin.
    apply (find_none _ _ E) in Hin. congruence.
Qed.

Lemma ends_with_self a b : ends_with (a +:+ b) b = true.
Proof.
  unfold ends_with. rewrite length_app_str. apply andb_true_iff. split; [apply Nat.leb_le; lia|].
  replace (String.length a + String.length b - String.length b) with (String.length a + 0) by lia.
  rewrite string_drop_app. apply String.eqb_refl.
Qed.

Definition decode_feedback `{HSd : !Serde, HF : !Codec ThreadFeedback} (b : string) : option ThreadFeedback :=
  match from_slice b with Ok v => res_ok (from_value v) | Err _ => None end.

(** What [serde_json] makes of a record it can store. *)
Definition stores `{HSd : !Serde} {T} `{HT : !Codec T} (t : T) (b : string) : Prop :=
  exists v v', to_value t = Ok v /\ to_vec v = Ok b /\ from_slice b = Ok v' /\ from_value v' = Ok t.

(** ** Keys *)

Section keys.
Context {K : Type} `{HK : !Keyspace K, HKL : !KeyspaceLaws K, HSd : !Serde, HF : !Codec ThreadFeedback}.
Variables (scope : RequestScope) (ks : K).
Hypothesis Hscope : scope_ok scope.

Definition own_key (f : ThreadFeedback) (k : string) : Prop :=
  thread_feedback_key ks scope (fb_thread_id f) (feedback_id f) = Ok k.

(** The object at [k] is [f], under its own key. *)
Definition holds_feedback (c : Spec.Store) (k : string) (f : ThreadFeedback) : Prop :=
  exists b, (c : gmap string string) !! k = Some b /\ decode_feedback b = Some f /\ own_key f k.

Definition listed (c : Spec.Store) : list string :=
  filter (fun k => is_feedback_key k = true)
    (match (Spec.list_prefix (feedback_prefix ks scope) c).1 with Ok keys => keys | Err _ => [] end).

(** The feedback of a scope is [l], in the order of the keys. *)
Definition kept (c : Spec.Store) (l : list ThreadFeedback) : Prop := Forall2 (holds_feedback c) (listed c) l.

Lemma key_under_prefix tid seg : starts_with (scoped_key ks scope ["feedback"; tid; seg]) (feedback_prefix ks scope) = true.
Proof using Hscope HKL. apply (scoped_prefix_of_key ks scope ["feedback"] tid [seg]); [done|]. split; [done|]. set_solver. Qed.

Lemma key_last tid seg : no_byte slash tid = true -> no_byte slash seg = true ->
  exists p, scoped_key ks scope ["feedback"; tid; seg] = p +:+ seg.
Proof using Hscope HKL.
  intros Ht Hs. pose proof (scoped_key_pieces ks scope ["feedback"; tid; seg] Hscope) as Hp.
  rewrite <- (join_split slash (scoped_key ks scope ["feedback"; tid; seg])), Hp
    by (cbn; by rewrite Ht, Hs).
  change (String slash EmptyString) with "/".
  destruct (join_last (scope_path scope ++ ["feedback"; tid; seg])) as (p & s & -> & Hl); [done|].
  exists p. by injection Hl as <-.
Qed.

Lemma listed_insert (c : gmap string string) k b : starts_with k (feedback_prefix ks scope) = true ->
  exists rest, listed c ≡ₚ (if is_feedback_key k && bool_decide (is_Some (c !! k)) then [k] else []) ++ rest /\
    listed (<[k := b]> c) ≡ₚ (if is_feedback_key k then [k] else []) ++ rest /\ k ∉ rest.
Proof.
  intros Hk. unfold listed. cbn [Spec.list_prefix fst]. unfold sort_strings.
  set (q := fun x => is_feedback_key x = true). set (p := fun x => starts_with x (feedback_prefix ks scope) = true).
  exists (filter q (filter p (elements (dom c ∖ {[k]})))).
  rewrite !(filter_Permutation q _ _ (merge_sort_Permutation str_le _)).
  assert (forall l, filter q (filter p (k :: l)) = (if is_feedback_key k then [k] else []) ++ filter q (filter p l)) as Hcons.
  { intros l. rewrite (filter_cons_True p) by done. 
    destruct (decide (q k)) as [Hq|Hq].
    - rewrite filter_cons_True by done. unfold q in Hq. by rewrite Hq.
    - rewrite filter_cons_False by done. unfold q in Hq. apply not_true_is_false in Hq. by rewrite Hq. }
  split_and!.
  - case_bool_decide as Hd; rewrite ?andb_true_r, ?andb_false_r.
    + rewrite <- Hcons. apply filter_Permutation, filter_Permutation.
      rewrite <- elements_union_singleton by set_solver. f_equiv.
      apply elem_of_dom in Hd. intros x. destruct (decide (x = k)); set_solver.
    + apply filter_Permutation, filter_Permutation. f_equiv.
      rewrite <- elem_of_dom in Hd. set_solver.
  - rewrite <- Hcons. apply filter_Permutation, filter_Permutation.
    rewrite <- elements_union_singleton by set_solver. f_equiv.
    rewrite dom_insert. intros x. destruct (decide (x = k)); set_solver.
  - rewrite !list_elem_of_filter, elem_of_elements. set_solver.
Qed.

Lemma holds_insert_other (c : gmap string string) k b keys l : k ∉ keys ->
  Forall2 (holds_feedback c) keys l <-> Forall2 (holds_feedback (<[k := b]> c)) keys l.
Proof.
  intros Hk. unfold holds_feedback, Spec.Store in *.
  split; intros H; induction H as [|k' f keys l (b' & Hb & Hd) _ IH]; constructor; try set_solver;
    exists b'; (split; [|done]);
    rewrite lookup_insert_ne in * by set_solver; done.
Qed.

(** Writing [f] under its own key adds it, or replaces what was there. *)
Lemma kept_insert (c : gmap string string) l k b f :
  starts_with k (feedback_prefix ks scope) = true -> is_feedback_key k = true -> own_key f k ->
  decode_feedback b = Some f -> kept c l ->
  exists rest l', l' ≡ₚ f :: rest /\ kept (<[k := b]> c) l' /\
    (c !! k = None -> l ≡ₚ rest) /\
    (forall f0, f0 ∈ l -> own_key f0 k -> l ≡ₚ f0 :: rest).
Proof.
  intros Hp Hk Ho Hd Hl. destruct (listed_insert c k b Hp) as (rks & P1 & P2 & Hn). rewrite Hk in P1, P2.
  cbn [andb] in P1. destruct (Forall2_perm _ _ _ _ Hl P1) as (l1 & H1 & Q1).
  apply Forall2_app_inv_l in H1 as (l2 & rest & H2 & H3 & ->).
  apply (holds_insert_other c k b) in H3; [|done].
  destruct (Forall2_perm (holds_feedback (<[k := b]> c)) ([k] ++ rks) (listed (<[k := b]> c)) (f :: rest))
    as (l' & H4 & Q4); [|by symmetry|].
  { cbn. constructor; [|done]. exists b. unfold Spec.Store in *. by rewrite lookup_insert_eq. }
  exists rest, l'. split_and!; [done|done| |].
  - intros Hc. rewrite Hc in H2. cbn in H2. apply Forall2_nil_inv_l in H2 as ->. by rewrite <- Q1.
  - intros f0 Hf0 Ho0. apply list_elem_of_lookup in Hf0 as (i & Hi).
    destruct (Forall2_lookup_r _ _ _ _ _ Hl Hi) as (k' & _ & b0 & Hb0 & Hd0 & Ho').
    unfold own_key in Ho0, Ho'. rewrite Ho0 in Ho'. injection Ho' as <-.
    unfold Spec.Store in *. rewrite Hb0 in H2. cbn in H2. apply Forall2_cons_inv_l in H2 as (f1 & l3 & (b1 & Hb1 & Hd1 & _) & H5 & ->).
    apply Forall2_nil_inv_l in H5 as ->. rewrite <- Q1. cbn. by simplify_eq.
Qed.

Lemma kept_insert_other (c : gmap string string) l k b :
  starts_with k (feedback_prefix ks scope) = true -> is_feedback_key k = false -> kept c l ->
  exists l', l' ≡ₚ l /\ kept (<[k := b]> c) l'.
Proof.
  intros Hp Hk Hl. destruct (listed_insert c k b Hp) as (rks & P1 & P2 & Hn). rewrite Hk in P1, P2.
  cbn in P1, P2. destruct (Forall2_perm _ _ _ _ Hl P1) as (l1 & H1 & Q1).
  apply (holds_insert_other c k b) in H1; [|done].
  destruct (Forall2_perm (holds_feedback (<[k := b]> c)) rks (listed (<[k := b]> c)) l1)
    as (l' & H4 & Q4); [done|by symmetry|].
  exists l'. split; [by rewrite Q4|done].
Qed.
End keys.

Section kept.
Context {St K : Type} `{HSd : !Serde, HSt : !StorageAdapter St, HV : !StorageView St,
  HL : !StorageLaws St, HT : !Timer St, HK : !Keyspace K, HKL : !KeyspaceLaws K,
  HF : !Codec ThreadFeedback, HD : !Codec ThreadFeedbackDiagnostics}.
Variables (scope : RequestScope) (ks : K).
Hypothesis Hscope : scope_ok scope.

Lemma retried_run {A} (call : Op St A) spec s r c :
  refines call spec -> (forall n e, (spec n).1 = Err e -> CoreError.retryable e = false) ->
  valid s -> spec (contents s) = (r, c) ->
  exists s', retry_storage_call call s = (r, s') /\ contents s' = c /\ valid s'.
Proof. intros Hr He Hv Hs. eapply refines_run; [by apply retry_refines|done|done]. Qed.

Lemma read_back {T} `{HC : !Codec T} key b (t : T) s :
  valid s -> (contents s : gmap string string) !! key = Some b ->
  match from_slice b with Ok v => res_ok (from_value v) | Err _ => None end = Some t ->
  exists v s', retry_get_json key s = (Ok v, s') /\ from_value v = Ok t /\ contents s' = contents s /\ valid s'.
Proof.
  intros Hv Hb Hd. destruct (from_slice b) as [v|] eqn:Es; [|done].
  destruct (from_value v) as [t'|] eqn:Ev; simplify_eq/=.
  destruct (retried_run (get_json key) (Spec.get_json key) s (Ok v) (contents s)) as (s' & E & Hc & Hv');
    [apply get_json_refines| |done| |].
  - intros n e. unfold Spec.get_json, act_bind, Spec.get_bytes, act_lift, decode_json.
    destruct ((n : gmap string string) !! key) as [b'|]; simpl; [|by intros [= <-]].
    destruct (from_slice b'); simpl; by intros [= <-].
  - unfold Spec.get_json, act_bind, Spec.get_bytes, act_lift, decode_json. by rewrite Hb, Es.
  - by exists v, s'.
Qed.

Lemma load_keys_run keys l s : valid s ->
  Forall2 (holds_feedback scope ks (contents s)) (filter (fun k => is_feedback_key k = true) keys) l ->
  exists s', load_keys keys s = (Ok l, s') /\ contents s' = contents s /\ valid s'.
Proof using HL HT.
  revert l s. induction keys as [|k keys IH]; intros l s Hv Hl.
  { apply Forall2_nil_inv_l in Hl as ->. by exists s. }
  cbn [load_keys]. rewrite filter_cons in Hl. destruct (is_feedback_key k) eqn:Ek; case_decide; try done; cbn [negb].
  2: by apply IH.
  apply Forall2_cons_inv_l in Hl as (f & l0 & (b & Hb & Hd & _) & H2 & ->).
  destruct (read_back k b f s Hv Hb Hd) as (v & s1 & E1 & Ev & C1 & V1).
  rewrite (act_bind_Ok _ _ _ _ _ E1). unfold parse_feedback. rewrite Ev. cbn [res_map_err].
  destruct (IH l0 s1 V1) as (s2 & E2 & C2 & V2); [by rewrite C1|].
  exists s2. rewrite (act_bind_Ok _ _ s1 f s1) by done. rewrite (act_bind_Ok _ _ _ _ _ E2).
  split; [done|]. by rewrite C2.
Qed.

Lemma load_prefix_run l s : valid s -> kept scope ks (contents s) l ->
  exists s', load_prefix (feedback_prefix ks scope) s = (Ok l, s') /\ contents s' = contents s /\ valid s'.
Proof using HL HT.
  intros Hv Hl. unfold load_prefix.
  destruct (retried_run (list_prefix (feedback_prefix ks scope)) (Spec.list_prefix (feedback_prefix ks scope)) s
    (Spec.list_prefix (feedback_prefix ks scope) (contents s)).1 (contents s)) as (s1 & E1 & C1 & V1); try done.
  { apply list_refines. }
  unfold retry_list_prefix. unfold kept, listed in Hl. cbn [Spec.list_prefix fst] in E1, Hl.
  match type of E1 with _ = (Ok ?keys, _) => destruct (load_keys_run keys l s1 V1) as (s2 & E2 & C2 & V2) end;
    [by rewrite C1|].
  rewrite (act_bind_Ok _ _ _ _ _ E1). exists s2. by rewrite C2.
Qed.

Lemma list_all_run l s : valid s -> kept scope ks (contents s) l ->
  exists s', list_all scope ks s = (Ok (newest_first l), s') /\ contents s' = contents s /\ valid s'.
Proof using HL HT.
  intros Hv Hl. destruct (load_prefix_run l s Hv Hl) as (s' & E & C & V). exists s'.
  unfold list_all. by rewrite (act_bind_Ok _ _ _ _ _ E).
Qed.

Lemma write_json {T} `{HC : !Codec T} key (t : T) b s : valid s -> stores t b ->
  exists v s', to_value t = Ok v /\ retry_put_json key v s = (Ok tt, s') /\
    contents s' = <[key := b]> (contents s : gmap string string) /\ valid s'.
Proof using HL HT.
  intros Hv (v & v' & H1 & H2 & _).
  destruct (retried_run (put_json key v) (Spec.put_json key v) s (Ok tt)
    (<[key := b]> (contents s : gmap string string))) as (s' & E & C & V);
    [apply put_json_refines| |done| |by exists v, s'].
  - intros n e. unfold Spec.put_json, act_bind, act_lift, encode_json. by rewrite H2.
  - unfold Spec.put_json, act_bind, act_lift, encode_json. by rewrite H2.
Qed.

Lemma head_run key s : valid s ->
  exists s', retry_head_etag key s = (Ok (etag_of <$> (contents s : gmap string string) !! key), s') /\
    contents s' = contents s /\ valid s'.
Proof using HL HT. intros Hv. eapply retried_run; [apply head_refines|done|done|done]. Qed.

Lemma stores_decode f b : stores f b -> decode_feedback b = Some f.
Proof. intros (v & v' & _ & _ & H3 & H4). unfold decode_feedback. by rewrite H3, H4. Qed.

Lemma write_feedback_run key f b s : valid s -> own_key scope ks f key -> stores f b ->
  exists s', write_feedback scope ks f s = (Ok tt, s') /\
    contents s' = <[key := b]> (contents s : gmap string string) /\ valid s'.
Proof using HL HT.
  intros Hv Ho Hs. destruct (write_json key f b s Hv Hs) as (v & s' & Ev & E & C & V). exists s'.
  unfold write_feedback, own_key in *. rewrite Ho. cbn [act_lift]. rewrite (act_bind_Ok _ _ s key s) by done.
  rewrite Ev. by rewrite (act_bind_Ok _ _ s v s).
Qed.

Lemma own_key_prefix f k : own_key scope ks f k -> starts_with k (feedback_prefix ks scope) = true.
Proof using Hscope HKL.
  intros H. apply (object_key_ok ks scope (Feedback (fb_thread_id f) (feedback_id f))) in H as [-> _].
  by apply key_under_prefix.
Qed.

Lemma get_by_id_run f rest l s : valid s -> kept scope ks (contents s) l -> l ≡ₚ f :: rest ->
  Forall (fun g => feedback_id g <> feedback_id f) rest ->
  exists s', get_by_id scope ks (feedback_id f) s = (Ok (Some f), s') /\ contents s' = contents s /\ valid s'.
Proof using HL HT.
  intros Hv Hk Hl Hids. destruct (load_prefix_run l s Hv Hk) as (s' & E & C & V). exists s'.
  unfold get_by_id. rewrite (act_bind_Ok _ _ _ _ _ E). split; [|done]. unfold act_ret. repeat f_equal.
  apply (find_perm _ _ _ rest); [done|apply String.eqb_refl|].
  eapply Forall_impl; [exact Hids|]. intros g Hg. by apply String.eqb_neq.
Qed.

(** Submitting adds the feedback. *)
Lemma submit_run uuid now tid v text tk key b l s :
  let f := mkFeedback uuid tid v (trim text) now false None in
  valid s -> kept scope ks (contents s) l -> trim text <> EmptyString ->
  thread_key ks scope tid = Ok tk -> is_Some ((contents s : gmap string string) !! tk) ->
  own_key scope ks f key -> is_feedback_key key = true -> (contents s : gmap string string) !! key = None ->
  stores f b ->
  exists s' l', submit scope ks uuid now tid v text s = (Ok f, s') /\ valid s' /\
    kept scope ks (contents s') l' /\ l' ≡ₚ f :: l.
Proof using HL HT HKL Hscope.
  intros f Hv Hk Ht Htk [o Ho] Hf Hj Hn Hb. unfold submit, normalize_comment.
  destruct (str_is_empty (trim text)) eqn:Et; [by destruct (trim text)|].
  rewrite (act_bind_Ok _ _ s (trim text) s) by done.
  destruct (head_run tk s Hv) as (s1 & E1 & C1 & V1).
  assert (ensure_thread_exists scope ks tid s = (Ok tt, s1)) as Ee.
  { unfold ensure_thread_exists. rewrite Htk, (act_bind_Ok _ _ s tk s) by done.
    rewrite (act_bind_Ok _ _ _ _ _ E1). unfold Spec.Store in *. by rewrite Ho. }
  rewrite (act_bind_Ok _ _ _ _ _ Ee).
  destruct (write_feedback_run key f b s1 V1 Hf Hb) as (s2 & E2 & C2 & V2).
  rewrite (act_bind_Ok _ _ _ _ _ E2). rewrite C1 in C2.
  destruct (kept_insert scope ks Hscope (contents s) l key b f) as (rest & l' & P & Hk' & Hnew & _);
    [by eapply own_key_prefix|done|done|by apply stores_decode|done|].
  exists s2, l'. rewrite C2. split_and!; try done. by rewrite P, (Hnew Hn).
Qed.

(** A comment of blanks, or a thread without an object, is refused. *)
Lemma submit_refused uuid now tid v text s : valid s ->
  trim text = EmptyString \/ (exists tk, thread_key ks scope tid = Ok tk /\ (contents s : gmap string string) !! tk = None) ->
  exists e s', submit scope ks uuid now tid v text s = (Err e, s') /\ contents s' = contents s /\ valid s'.
Proof using HL HT.
  intros Hv Hr. unfold submit, normalize_comment.
  destruct (str_is_empty (trim text)) eqn:Et; [by eexists _, s|].
  destruct Hr as [Hr|(tk & Htk & Ho)]; [by rewrite Hr in Et|].
  rewrite (act_bind_Ok _ _ s (trim text) s) by done.
  destruct (head_run tk s Hv) as (s1 & E1 & C1 & V1). eexists _, s1. split; [|done].
  unfold ensure_thread_exists, act_bind at 1, act_bind at 1. rewrite Htk. cbn [act_lift]. unfold act_bind.
  rewrite E1. unfold Spec.Store in *. by rewrite Ho.
Qed.

(** Resolving the feedback an identifier names changes that feedback alone. *)
Lemma resolve_run later f rest key b l s :
  valid s -> kept scope ks (contents s) l -> l ≡ₚ f :: rest ->
  Forall (fun g => feedback_id g <> feedback_id f) rest -> resolved f = false ->
  own_key scope ks f key -> is_feedback_key key = true -> stores (resolve later f) b ->
  exists s' l', mark_resolved scope ks later (feedback_id f) s = (Ok (Some (resolve later f)), s') /\ valid s' /\
    kept scope ks (contents s') l' /\ l' ≡ₚ resolve later f :: rest.
Proof using HL HT HKL Hscope.
  intros Hv Hk Hl Hids Hr Ho Hj Hb.
  destruct (get_by_id_run f rest l s) as (s1 & E1 & C1 & V1); try done.
  unfold mark_resolved. rewrite (act_bind_Ok _ _ _ _ _ E1), Hr.
  destruct (write_feedback_run key (resolve later f) b s1 V1 Ho Hb) as (s2 & E2 & C2 & V2).
  rewrite (act_bind_Ok _ _ _ _ _ E2). rewrite C1 in C2.
  destruct (kept_insert scope ks Hscope (contents s) l key b (resolve later f)) as (rest' & l' & P & Hk' & _ & Hold);
    [by eapply own_key_prefix|done|done|by apply stores_decode|done|].
  exists s2, l'. rewrite C2. split_and!; try done. rewrite P. f_equiv.
  apply (Permutation.Permutation_cons_inv (a := f)). rewrite <- Hl. symmetry. apply Hold; [|done]. rewrite Hl. by left.
Qed.

(** Diagnostics are read back, and are not among the feedback. *)
Lemma diagnostics_run now f payload dk b l s :
  let d := {| fd_feedback_id := feedback_id f; fd_thread_id := fb_thread_id f; fd_created_at := now; fd_payload := payload |} in
  valid s -> kept scope ks (contents s) l ->
  thread_feedback_diagnostics_key ks scope (fb_thread_id f) (feedback_id f) = Ok dk -> stores d b ->
  exists s' l', submit_diagnostics scope ks now f payload s = (Ok d, s') /\ valid s' /\
    kept scope ks (contents s') l' /\ l' ≡ₚ l /\
    (get_diagnostics scope ks (fb_thread_id f) (feedback_id f) s').1 = Ok (Some d).
Proof using HL HT HKL Hscope.
  intros d Hv Hk Hdk Hb. destruct (write_json dk d b s Hv Hb) as (v & s1 & Ev & E1 & C1 & V1).
  pose proof (object_key_ok ks scope (Diagnostics (fb_thread_id f) (feedback_id f)) dk Hdk) as [Hd Hno].
  cbn [object_segments] in Hd, Hno.
  destruct (kept_insert_other scope ks Hscope (contents s) l dk b) as (l' & P & Hk'); [rewrite Hd; by apply key_under_prefix| |done|].
  { cbn [forallb] in Hno. rewrite !andb_true_iff in Hno.
    destruct (key_last scope ks Hscope (fb_thread_id f) (feedback_id f +:+ ".diagnostics.json")) as (p & Hp); try tauto.
    rewrite Hd, Hp, <- app_assoc_str. unfold is_feedback_key. rewrite ends_with_self. apply andb_false_r. }
  exists s1, l'. rewrite C1. split_and!; try done.
  - unfold submit_diagnostics. rewrite Hdk, (act_bind_Ok _ _ s dk s) by done. fold d. rewrite Ev.
    rewrite (act_bind_Ok _ _ s v s) by done. by rewrite (act_bind_Ok _ _ _ _ _ E1).
  - destruct (head_run dk s1 V1) as (s2 & E2 & C2 & V2). destruct Hb as (v0 & v' & _ & _ & H3 & H4).
    assert ((contents s1 : gmap string string) !! dk = Some b) as Hin
      by (unfold Spec.Store in *; by rewrite C1, lookup_insert_eq).
    destruct (read_back dk b d s2) as (v2 & s3 & E3 & Ed & _); [done|by rewrite C2| |].
    { by rewrite H3, H4. }
    unfold get_diagnostics. rewrite Hdk, (act_bind_Ok _ _ s1 dk s1) by done.
    unfold Spec.Store in *. rewrite Hin in E2. rewrite (act_bind_Ok _ _ _ _ _ E2). cbn [fmap option_fmap option_map].
    rewrite (act_bind_Ok _ _ _ _ _ E3), Ed. done.
Qed.
End kept.

(** Listing the feedback of the scope gives [l], newest first, and writes
    nothing. *)
Definition lists {St K} `{HSt : !StorageAdapter St, HV : !StorageView St, HT : !Timer St, HK : !Keyspace K,
    HF : !Codec ThreadFeedback} (scope : RequestScope) (ks : K) (w : St) (l : list ThreadFeedback) : Prop :=
  exists l' w', list_all scope ks w = (Ok l', w') /\ contents w' = contents w /\ l' ≡ₚ l /\ Sorted newer l'.

Lemma kept_lists {St K} `{HSd : !Serde, HSt : !StorageAdapter St, HV : !StorageView St,
    HL : !StorageLaws St, HT : !Timer St, HK : !Keyspace K, HF : !Codec ThreadFeedback}
    (scope : RequestScope) (ks : K) (w : St) l l' :
  valid w -> kept scope ks (contents w) l -> l ≡ₚ l' -> lists scope ks w l'.
Proof.
  intros Hv Hk Hl. destruct (list_all_run scope ks l w Hv Hk) as (w' & E & C & _).
  exists (newest_first l), w'. unfold newest_first. split_and!; [done|done| |apply sort_by_sorted; apply _].
  by rewrite sort_by_perm.
Qed.

(** The life of one piece of feedback on a scope that holds [l]: submitted, it
    is listed with the others, newest first; its diagnostics are read back and
    are not listed; resolving it changes it alone, a second time nothing. *)
Theorem feedback_is_kept {St K} `{HSd : !Serde, HSt : !StorageAdapter St, HV : !StorageView St,
    HL : !StorageLaws St, HT : !Timer St, HK : !Keyspace K, HKL : !KeyspaceLaws K,
    HF : !Codec ThreadFeedback, HD : !Codec ThreadFeedbackDiagnostics}
    (scope : RequestScope) (ks : K) uuid now tid v text payload at_ later tk key dk b b' db l (w : St) :
  let F := mkFeedback uuid tid v (trim text) now false None in
  let D := {| fd_feedback_id := uuid; fd_thread_id := tid; fd_created_at := at_; fd_payload := payload |} in
  scope_ok scope -> valid w -> kept scope ks (contents w) l -> Forall (fun g => feedback_id g <> uuid) l ->
  trim text <> EmptyString ->
  thread_key ks scope tid = Ok tk -> is_Some ((contents w : gmap string string) !! tk) ->
  thread_feedback_key ks scope tid uuid = Ok key -> is_feedback_key key = true ->
  (contents w : gmap string string) !! key = None ->
  thread_feedback_diagnostics_key ks scope tid uuid = Ok dk ->
  stores F b -> stores (resolve later F) b' -> stores D db ->
  exists w1 w2 w3,
    submit scope ks uuid now tid v text w = (Ok F, w1) /\ lists scope ks w1 (F :: l) /\
    submit_diagnostics scope ks at_ F payload w1 = (Ok D, w2) /\
      (get_diagnostics scope ks tid uuid w2).1 = Ok (Some D) /\ lists scope ks w2 (F :: l) /\
    mark_resolved scope ks later uuid w2 = (Ok (Some (resolve later F)), w3) /\
      lists scope ks w3 (resolve later F :: l) /\
    (forall again, (mark_resolved scope ks again uuid w3).1 = Ok (Some (resolve later F)) /\
       contents (mark_resolved scope ks again uuid w3).2 = contents w3).
Proof.
  intros F D Hsc Hv Hk Hids Ht Htk Ho Hkey Hj Hn Hdk Hb Hb' Hdb.
  destruct (submit_run scope ks Hsc uuid now tid v text tk key b l w) as (w1 & l1 & E1 & V1 & K1 & P1); try done.
  destruct (diagnostics_run scope ks Hsc at_ F payload dk db l1 w1) as (w2 & l2 & E2 & V2 & K2 & P2 & G2); try done.
  destruct (resolve_run scope ks Hsc later F l key b' l2 w2) as (w3 & l3 & E3 & V3 & K3 & P3); try done.
  { by rewrite P2, P1. }
  exists w1, w2, w3. split_and!; try done; try (by eapply kept_lists).
  - eapply kept_lists; [done|done|]. by rewrite P2, P1.
  - intros again. destruct (get_by_id_run scope ks (resolve later F) l l3 w3) as (w4 & E4 & C4 & _); try done.
    unfold mark_resolved. cbn [resolve feedback_id F] in E4. by rewrite (act_bind_Ok _ _ _ _ _ E4).
Qed.

(** ** An instance *)

Module FeedbackCodec.
(** One piece of feedback, its resolution, and its diagnostics. *)
Definition open : ThreadFeedback := mkFeedback "f" "x" Verdict.Bad "slow" "t0" false None.
Definition closed : ThreadFeedback := resolve "t2" open.
Definition diagnostics : ThreadFeedbackDiagnostics :=
  {| fd_feedback_id := "f"; fd_thread_id := "x"; fd_created_at := "t1"; fd_payload := VNull |}.

Definition serde : Serde := {|
  to_vec v := match v with VString s => Ok s | _ => Err "unsupported" end;
  from_slice b := Ok (VString b)
|}.

Definition codec : Codec ThreadFeedback := {|
  to_value f := if decide (f = open) then Ok (VString "open") else if decide (f = closed) then Ok (VString "closed")
                else Err "unsupported";
  from_value v := match v with
                  | VString "open" => Ok open | VString "closed" => Ok closed | _ => Err "unsupported"
                  end
|}.

Definition diag : Codec ThreadFeedbackDiagnostics := {|
  to_value d := Ok (VString "diagnostics");
  from_value _ := Ok diagnostics
|}.
End FeedbackCodec.

Definition one_thread : InMemoryStorageAdapter :=
  {["t/w/p/threads/x.json" := {| obj_bytes := "{}"; obj_etag := next_etag "{}" |}]}.

Lemma feedback_is_kept_witness :
  exists w1 w2 w3,
    submit (HSt := @memory_adapter FeedbackCodec.serde) (HF := FeedbackCodec.codec) sample_scope Local
      "f" "t0" "x" Verdict.Bad " slow " one_thread = (Ok FeedbackCodec.open, w1) /\
    submit_diagnostics (HSt := @memory_adapter FeedbackCodec.serde) (HD := FeedbackCodec.diag) sample_scope Local
      "t1" FeedbackCodec.open VNull w1 = (Ok FeedbackCodec.diagnostics, w2) /\
    mark_resolved (HSt := @memory_adapter FeedbackCodec.serde) (HF := FeedbackCodec.codec) sample_scope Local
      "t2" "f" w2 = (Ok (Some FeedbackCodec.closed), w3) /\
    lists (HSt := @memory_adapter FeedbackCodec.serde) (HF := FeedbackCodec.codec) sample_scope Local w3
      [FeedbackCodec.closed].
Proof.
  destruct (feedback_is_kept (HSd := FeedbackCodec.serde) (HF := FeedbackCodec.codec) (HD := FeedbackCodec.diag)
    (HSt := @memory_adapter FeedbackCodec.serde) (HL := @memory_laws FeedbackCodec.serde)
    sample_scope Local "f" "t0" "x" Verdict.Bad " slow " VNull "t1" "t2"
    "t/w/p/threads/x.json" "t/w/p/feedback/x/f.json" "t/w/p/feedback/x/f.diagnostics.json"
    "open" "closed" "diagnostics" [] one_thread) as (w1 & w2 & w3 & E1 & _ & E2 & _ & _ & E3 & L3 & _);
    try (done || reflexivity).
  - apply sample_scope_ok.
  - by apply tagged_insert, map_Forall_empty.
  - unfold kept. replace (listed sample_scope Local (contents one_thread)) with (@nil string) by reflexivity.
    apply Forall2_nil_2.
  - by exists (VString "open"), (VString "open").
  - by exists (VString "closed"), (VString "closed").
  - by exists (VString "diagnostics"), (VString "diagnostics").
  - exists w1, w2, w3. split_and!; [exact E1|exact E2|exact E3|exact L3].
Defined.
