(* ===== verification/View.v ===== *)
(** * Views of a thread

    [src/src/view/src]: the timeline of events shown to a client
    ([projection.rs]), the materialized state of a thread ([types.rs],
    [materialization.rs]), and [materialize_state_from_log] of
    [src/src/transport/src/ws/thread_state.rs], which folds a log into one.
    Dates are parsed by [chrono]: a parameter. *)

From stdpp Require Import base list strings gmap.
From Stdlib Require Import ZArith Lia.
From S2P Require Import Prelude.
From S2P Require Import RustStr.
From S2P Require Import Json.
From S2P Require Import SessionTypes.
From S2P Require Import Dates.

(** ** The timeline *)

Definition tool_start_id (s : ThreadStep.t) : option string :=
  match s with ThreadStep.ToolStart tool_id _ _ _ _ _ _ _ _ => Some tool_id | _ => None end.
Definition tool_end_id (s : ThreadStep.t) : option string :=
  match s with ThreadStep.ToolEnd tool_id _ _ _ _ _ _ _ _ _ => Some tool_id | _ => None end.

(** The tool runs that have both a start and an end. *)
Definition paired_tool_ids (steps : list ThreadStep.t) : gset string :=
  list_to_set (omap tool_start_id steps) ∩ list_to_set (omap tool_end_id steps).

Definition step_to_timeline_event (step_idx : nat) (step : ThreadStep.t) (current_phase : option string)
  : option ThreadEvent :=
  match step with
  | ThreadStep.ToolStart tool_id name clean_name _ _ payload ctx ts _ =>
      Some {| te_step_idx := step_idx; te_event_kind := ThreadEventKind.ToolStart; te_ts := ts;
              te_tool_id := Some tool_id; te_name := Some name; te_clean_name := Some clean_name;
              te_status := Some ThreadEventStatus.Running; te_runtime_ms := None; te_payload := payload;
              te_error := None; te_call_id := None; te_model := None;
              te_phase := Some (default "unknown" current_phase); te_ctx := ctx |}
  | ThreadStep.ToolEnd tool_id name clean_name _ status payload ctx observation ts _ =>
      Some {| te_step_idx := step_idx; te_event_kind := ThreadEventKind.ToolEnd; te_ts := ts;
              te_tool_id := Some tool_id; te_name := Some name; te_clean_name := Some clean_name;
              te_status := Some (if decide (status = ToolStepStatus.Failed) then ThreadEventStatus.Failed
                                 else ThreadEventStatus.Ok);
              te_runtime_ms := None; te_payload := payload;
              te_error := if ToolObservation.ok observation then None
                          else ToolObservation.first_error_or_context observation;
              te_call_id := None; te_model := None;
              te_phase := Some (default "unknown" current_phase); te_ctx := ctx |}
  | ThreadStep.LlmStart call_id model phase ctx ts _ =>
      Some {| te_step_idx := step_idx; te_event_kind := ThreadEventKind.LlmStart; te_ts := ts;
              te_tool_id := None; te_name := None; te_clean_name := None;
              te_status := Some ThreadEventStatus.Running; te_runtime_ms := None; te_payload := None;
              te_error := None; te_call_id := Some call_id; te_model := model;
              te_phase := Some phase; te_ctx := ctx |}
  | ThreadStep.LlmEnd call_id model phase status error ctx ts _ =>
      Some {| te_step_idx := step_idx; te_event_kind := ThreadEventKind.LlmEnd; te_ts := ts;
              te_tool_id := None; te_name := None; te_clean_name := None;
              te_status := Some (if decide (status = LlmStepStatus.Failed) then ThreadEventStatus.Failed
                                 else ThreadEventStatus.Ok);
              te_runtime_ms := None; te_payload := None;
              te_error := error; te_call_id := Some call_id; te_model := model;
              te_phase := Some phase; te_ctx := ctx |}
  | _ => None
  end.

(** [events.iter().rev().find_map(|e| e.phase)], on the reversed events. *)
Fixpoint last_event_phase (rev_events : list ThreadEvent) : option string :=
  match rev_events with
  | [] => None
  | e :: rest => match te_phase e with Some p => Some p | None => last_event_phase rest end
  end.

Definition unpaired (paired : gset string) (step : ThreadStep.t) : bool :=
  match step with
  | ThreadStep.ToolStart tool_id _ _ _ _ _ _ _ _ | ThreadStep.ToolEnd tool_id _ _ _ _ _ _ _ _ _ =>
      negb (bool_decide (tool_id ∈ paired))
  | _ => false
  end.

(** The [current_phase] of a step in the loop. *)
Definition phase_at (step : ThreadStep.t) (events : list ThreadEvent) : option string :=
  match step with
  | ThreadStep.Phase phase _ _ _ _ _ _ => Some phase
  | _ => match last_event_phase (rev events) with Some p => Some p | None => Some "unknown" end
  end.

Fixpoint timeline_loop (paired : gset string) (idx : nat) (steps : list ThreadStep.t)
  (events : list ThreadEvent) : list ThreadEvent :=
  match steps with
  | [] => events
  | step :: steps =>
      if unpaired paired step then timeline_loop paired (S idx) steps events
      else match step_to_timeline_event idx step (phase_at step events) with
           | Some ev => timeline_loop paired (S idx) steps (events ++ [ev])
           | None => timeline_loop paired (S idx) steps events
           end
  end.

Definition build_thread_events_from_log (log : ThreadLog.t) (max_events : nat) : list ThreadEvent :=
  let events := timeline_loop (paired_tool_ids (ThreadLog.steps log)) 0 (ThreadLog.steps log) [] in
  if Nat.ltb max_events (length events) then drop (length events - max_events) events else events.

(** ** The materialized state *)

Definition THREAD_STATE_SCHEMA_VERSION : Z := 2.

Module ThreadItemKind.
Inductive t : Type := Phase | Tool | Task.
Definition as_str (k : t) : string :=
  match k with Phase => "phase" | Tool => "tool" | Task => "task" end.
End ThreadItemKind.

Module ThreadItemStatus.
Inductive t : Type := Queued | Running | Ok | Failed | Blocked.
Definition as_str (s : t) : string :=
  match s with
  | Queued => "queued" | Running => "running" | Ok => "ok" | Failed => "failed" | Blocked => "blocked"
  end.
End ThreadItemStatus.

Record ThreadItemError : Type := {
  summary : string;
  tool_step_idx : option nat;
  step_ts : option string
}.

Module Item.
Record t : Type := {
  kind : ThreadItemKind.t;
  status : ThreadItemStatus.t;
  started_at : option string;
  finished_at : option string;
  runtime_ms : option Z;
  last_error : option ThreadItemError;
  outputs : option Value
}.

Definition phase_item (s : ThreadItemStatus.t) (started finished : option string) : t :=
  {| kind := ThreadItemKind.Phase; status := s; started_at := started; finished_at := finished;
     runtime_ms := None; last_error := None; outputs := None |}.

Definition phase_running (ts : string) : t := phase_item ThreadItemStatus.Running (Some ts) None.
Definition phase_finished (ts : string) : t := phase_item ThreadItemStatus.Ok None (Some ts).
Definition phase_blocked (ts : string) : t := phase_item ThreadItemStatus.Blocked (Some ts) None.

(** [ent.kind = Phase; ent.status = s] *)
Definition set_status (s : ThreadItemStatus.t) (i : t) : t :=
  {| kind := ThreadItemKind.Phase; status := s; started_at := started_at i; finished_at := finished_at i;
     runtime_ms := runtime_ms i; last_error := last_error i; outputs := outputs i |}.
Definition set_times (started finished : option string) (i : t) : t :=
  {| kind := kind i; status := status i; started_at := started; finished_at := finished;
     runtime_ms := runtime_ms i; last_error := last_error i; outputs := outputs i |}.
Definition set_runtime (ms : option Z) (i : t) : t :=
  {| kind := kind i; status := status i; started_at := started_at i; finished_at := finished_at i;
     runtime_ms := ms; last_error := last_error i; outputs := outputs i |}.
Definition set_error (msg ts : string) (i : t) : t :=
  {| kind := kind i; status := status i; started_at := started_at i; finished_at := finished_at i;
     runtime_ms := runtime_ms i;
     last_error := Some {| summary := msg; tool_step_idx := None; step_ts := Some ts |};
     outputs := outputs i |}.
End Item.

Module ViewCache.
Record t : Type := {
  thread_state_schema_version : Z;
  thread_id : string;
  suite_id : option string;
  agent_type : option string;
  current_phase : option string;
  last_materialized_step_count : nat;
  total_runtime_ms : Z;
  items : gmap string Item.t
}.

Definition set_suite (s : string) (v : t) : t :=
  {| thread_state_schema_version := thread_state_schema_version v; thread_id := thread_id v;
     suite_id := Some s; agent_type := agent_type v; current_phase := current_phase v;
     last_materialized_step_count := last_materialized_step_count v;
     total_runtime_ms := total_runtime_ms v; items := items v |}.
Definition set_agent (a : string) (v : t) : t :=
  {| thread_state_schema_version := thread_state_schema_version v; thread_id := thread_id v;
     suite_id := suite_id v; agent_type := Some a; current_phase := current_phase v;
     last_materialized_step_count := last_materialized_step_count v;
     total_runtime_ms := total_runtime_ms v; items := items v |}.
Definition set_phase (p : string) (v : t) : t :=
  {| thread_state_schema_version := thread_state_schema_version v; thread_id := thread_id v;
     suite_id := suite_id v; agent_type := agent_type v; current_phase := Some p;
     last_materialized_step_count := last_materialized_step_count v;
     total_runtime_ms := total_runtime_ms v; items := items v |}.
Definition set_totals (count : nat) (ms : Z) (v : t) : t :=
  {| thread_state_schema_version := thread_state_schema_version v; thread_id := thread_id v;
     suite_id := suite_id v; agent_type := agent_type v; current_phase := current_phase v;
     last_materialized_step_count := count; total_runtime_ms := ms; items := items v |}.

(** [let ent = st.items.entry("phase:<ph>").or_insert_with(..)], then [f] on it. *)
Definition phase_key (ph : string) : string := "phase:" +:+ ph.
Definition entry (ph : string) (new : Item.t) (f : Item.t -> Item.t) (v : t) : t :=
  {| thread_state_schema_version := thread_state_schema_version v; thread_id := thread_id v;
     suite_id := suite_id v; agent_type := agent_type v; current_phase := current_phase v;
     last_materialized_step_count := last_materialized_step_count v;
     total_runtime_ms := total_runtime_ms v;
     items := <[phase_key ph := f (default new (items v !! phase_key ph))]> (items v) |}.

Definition empty (tid : string) : t :=
  {| thread_state_schema_version := THREAD_STATE_SCHEMA_VERSION; thread_id := tid; suite_id := None;
     agent_type := None; current_phase := None; last_materialized_step_count := 0;
     total_runtime_ms := 0; items := ∅ |}.
End ViewCache.

Section materialize.
Context `{HD : !Rfc3339}.
Import Item ViewCache.

Definition duration_ms (start_ts end_ts : string) : option Z :=
  match parse_from_rfc3339 start_ts, parse_from_rfc3339 end_ts with
  | Some a, Some b =>
      let ms := num_milliseconds a b in Some (if Z.leb ms 0 then 0%Z else ms)
  | _, _ => None
  end.

(** The runtime, once both ends are known and it is not. *)
Definition settle_runtime (i : Item.t) : Item.t :=
  match runtime_ms i with
  | Some _ => i
  | None =>
      match started_at i, finished_at i with
      | Some s, Some f => set_runtime (duration_ms s f) i
      | _, _ => i
      end
  end.

(** [get_or_insert_with] *)
Definition get_or_insert (o : option string) (ts : string) : option string :=
  match o with Some s => Some s | None => Some ts end.

(** The previous phase of a phase step ends. *)
Definition finish_phase (ts prev : string) : ViewCache.t -> ViewCache.t :=
  entry prev (phase_finished ts) (fun ent =>
    let ent := set_status ThreadItemStatus.Ok ent in
    settle_runtime (set_times (started_at ent) (get_or_insert (finished_at ent) ts) ent)).

(** The named phase runs. *)
Definition start_phase (ts ph : string) (st : ViewCache.t) : ViewCache.t :=
  set_phase ph (entry ph (phase_running ts) (fun ent =>
    let ent := set_status ThreadItemStatus.Running ent in
    set_times (get_or_insert (started_at ent) ts) (finished_at ent) ent) st).

(** [Some(s.trim())] when that is not empty. *)
Definition named (s : option string) : option string :=
  match s with
  | Some s => let t := trim s in if str_is_empty t then None else Some t
  | None => None
  end.

Definition block_current_phase (msg ts : string) (st : ViewCache.t) : ViewCache.t :=
  match current_phase st with
  | None => st
  | Some ph =>
      entry ph (phase_blocked ts) (fun ent => set_error msg ts (set_status ThreadItemStatus.Blocked ent)) st
  end.

Definition apply_step_to_state (st : ViewCache.t) (step : ThreadStep.t) : ViewCache.t :=
  match step with
  | ThreadStep.SwitchSuite _ to_ _ _ _ => if str_is_empty (trim to_) then st else set_suite to_ st
  | ThreadStep.SwitchAgent _ to_ _ _ _ => if str_is_empty (trim to_) then st else set_agent to_ st
  | ThreadStep.Phase phase from_phase _ _ _ ts _ =>
      let ph := trim phase in
      if str_is_empty ph then st
      else start_phase ts ph (match named from_phase with Some prev => finish_phase ts prev st | None => st end)
  | ThreadStep.Complete _ _ _ observation ts _ =>
      match named (current_phase st) with
      | None => st
      | Some ph =>
          entry ph (phase_running ts) (fun ent =>
            let ent := set_status (if Observation.ok observation then ThreadItemStatus.Ok
                                   else ThreadItemStatus.Failed) ent in
            settle_runtime (set_times (started_at ent) (Some ts) ent)) st
      end
  | ThreadStep.Checkpoint _ _ display _ ts _ =>
      match current_phase st with
      | None => st
      | Some ph =>
          entry ph (phase_running ts) (fun ent =>
            match display with Some d => set_error d ts ent | None => ent end) st
      end
  | ThreadStep.Interrupt _ prompt _ ts _ => block_current_phase prompt ts st
  | ThreadStep.GuardBlock _ _ reason _ ts _ => block_current_phase reason ts st
  | ThreadStep.RunLoopStop _ reason _ ts _ => block_current_phase reason ts st
  | _ => st
  end.

Definition runtime_sum (its : gmap string Item.t) : Z :=
  fold_right (wrapping_add u64_max) 0%Z
    (omap runtime_ms (filter (fun it => ThreadItemKind.as_str (kind it) = "phase") (map snd (map_to_list its)))).

Definition materialize_state_from_log (tid : string) (log : ThreadLog.t) : ViewCache.t :=
  let st := fold_left apply_step_to_state (ThreadLog.steps log) (ViewCache.empty tid) in
  set_totals (length (ThreadLog.steps log)) (runtime_sum (items st)) st.
End materialize.

(** ** What the timeline shows *)

(** The phase named by the last step of a model call. *)
Fixpoint model_phase (cur : string) (steps : list ThreadStep.t) : string :=
  match steps with
  | [] => cur
  | ThreadStep.LlmStart _ _ phase _ _ _ :: rest | ThreadStep.LlmEnd _ _ phase _ _ _ _ _ :: rest =>
      model_phase phase rest
  | _ :: rest => model_phase cur rest
  end.

Lemma model_phase_app cur l r : model_phase cur (l ++ r) = model_phase (model_phase cur l) r.
Proof. revert cur. induction l as [|s l IH]; intros cur; [done|]. destruct s; simpl; apply IH. Qed.

Definition has_id (f : ThreadStep.t -> option string) (steps : list ThreadStep.t) (id : string) : bool :=
  existsb (fun s => bool_decide (f s = Some id)) steps.

(** A step is on the timeline when it is of a model call, or of a tool run
    that has a start and an end in the log. *)
Definition on_timeline (steps : list ThreadStep.t) (i : nat) : bool :=
  match steps !! i with
  | Some (ThreadStep.LlmStart _ _ _ _ _ _) | Some (ThreadStep.LlmEnd _ _ _ _ _ _ _ _) => true
  | Some (ThreadStep.ToolStart id _ _ _ _ _ _ _ _) | Some (ThreadStep.ToolEnd id _ _ _ _ _ _ _ _ _) =>
      has_id tool_start_id steps id && has_id tool_end_id steps id
  | _ => false
  end.

(** An event tells the step at its index, and the phase of the last step of a
    model call before it. *)
Definition tells (steps : list ThreadStep.t) (e : ThreadEvent) : Prop :=
  exists s, steps !! te_step_idx e = Some s /\
    step_to_timeline_event (te_step_idx e) s
      (Some (model_phase "unknown" (take (te_step_idx e) steps))) = Some e.

Lemma has_id_spec f steps id : has_id f steps id = true <-> id ∈ omap f steps.
Proof.
  unfold has_id. rewrite existsb_exists, list_elem_of_omap. setoid_rewrite bool_decide_eq_true.
  split; intros (s & Hs & Hi); exists s; (split; [by apply list_elem_of_In|done]).
Qed.

Lemma paired_spec steps id :
  bool_decide (id ∈ paired_tool_ids steps) = has_id tool_start_id steps id && has_id tool_end_id steps id.
Proof.
  apply eq_true_iff_eq. rewrite bool_decide_eq_true, andb_true_iff, !has_id_spec.
  unfold paired_tool_ids. set_solver.
Qed.

Lemma step_event_idx i s p e : step_to_timeline_event i s p = Some e -> te_step_idx e = i.
Proof. destruct s; simpl; intros; by simplify_eq/=. Qed.

Lemma step_event_phase i s p e cur :
  p = Some cur -> step_to_timeline_event i s p = Some e -> te_phase e = Some (model_phase cur [s]).
Proof. intros ->. destruct s; simpl; intros; by simplify_eq/=. Qed.

(** The step at [length pre] is shown exactly when the loop pushes an event. *)
Lemma on_timeline_here pre s rest p :
  let steps := pre ++ s :: rest in
  on_timeline steps (length pre) =
    negb (unpaired (paired_tool_ids steps) s) &&
    match step_to_timeline_event (length pre) s p with Some _ => true | None => false end.
Proof.
  cbn zeta. unfold on_timeline. rewrite list_lookup_middle by done.
  destruct s; simpl; try done; rewrite negb_involutive, paired_spec; by rewrite andb_true_r.
Qed.

Lemma timeline_loop_spec pre rest events :
  let steps := pre ++ rest in
  default "unknown" (last_event_phase (rev events)) = model_phase "unknown" pre ->
  exists evs, timeline_loop (paired_tool_ids steps) (length pre) rest events = events ++ evs /\
    map te_step_idx evs = filter (fun i => on_timeline steps i = true) (seq (length pre) (length rest)) /\
    Forall (tells steps) evs.
Proof.
  revert pre events. induction rest as [|s rest IH]; intros pre events steps Hp.
  { exists []. by rewrite app_nil_r. }
  specialize (IH (pre ++ [s])). cbn zeta in IH. rewrite <- app_assoc, length_app, Nat.add_1_r in IH.
  cbn [app] in IH. fold steps in IH.
  pose proof (on_timeline_here pre s rest (phase_at s events)) as Hhere. cbn zeta in Hhere. fold steps in Hhere.
  cbn [timeline_loop length seq]. rewrite filter_cons.
  assert (Hnext : match step_to_timeline_event (length pre) s (phase_at s events) with
                  | Some e => te_phase e = Some (model_phase "unknown" (pre ++ [s]))
                  | None => model_phase "unknown" (pre ++ [s]) = model_phase "unknown" pre
                  end).
  { rewrite model_phase_app. rewrite <- Hp. destruct s; simpl; try done;
      by destruct (last_event_phase (rev events)). }
  destruct (unpaired (paired_tool_ids steps) s) eqn:Hu.
  - rewrite decide_False by (rewrite Hhere; done). apply IH. rewrite model_phase_app, <- Hp.
    by destruct s.
  - destruct (step_to_timeline_event (length pre) s (phase_at s events)) as [e|] eqn:He.
    + rewrite decide_True by done.
      destruct (IH (events ++ [e])) as (evs & -> & Hm & Hf).
      { rewrite rev_app_distr. cbn [rev app last_event_phase]. by rewrite Hnext. }
      exists (e :: evs). split_and!; [by rewrite <- app_assoc| |].
      * cbn [map]. rewrite (step_event_idx _ _ _ _ He). by f_equal.
      * constructor; [|done]. exists s. rewrite (step_event_idx _ _ _ _ He).
        split; [by apply list_lookup_middle|]. unfold steps. rewrite take_app_length, <- Hp, <- He.
        destruct s; try done; simpl; by destruct (last_event_phase (rev events)).
    + rewrite decide_False by (rewrite Hhere; done). apply IH. congruence.
Qed.

Lemma fold_last_n {A} (n : nat) (l : list A) :
  (if Nat.ltb n (length l) then drop (length l - n) l else l) = last_n n l.
Proof.
  destruct (Nat.ltb_spec n (length l)) as [_|H]; [done|]. symmetry. by apply last_n_all.
Qed.

(** The timeline shows the latest [max_events] steps of model calls and of
    tool runs that both started and ended, in the order of the log, and each
    event tells its step; a tool event is given the phase of the model call
    before it. *)
Theorem timeline_shows_the_paired_steps log max_events :
  let steps := ThreadLog.steps log in
  let events := build_thread_events_from_log log max_events in
  length events <= max_events /\
  map te_step_idx events =
    last_n max_events (filter (fun i => on_timeline steps i = true) (seq 0 (length steps))) /\
  Forall (tells steps) events.
Proof.
  cbn zeta. unfold build_thread_events_from_log.
  destruct (timeline_loop_spec [] (ThreadLog.steps log) []) as (evs & He & Hm & Hf); [done|].
  cbn [app length] in *. rewrite He, fold_last_n. split_and!.
  - rewrite last_n_length. lia.
  - rewrite <- Hm. unfold last_n. rewrite length_map. exact (fmap_drop te_step_idx _ _).
  - unfold last_n. by apply Forall_drop.
Qed.

(** A phase step does not reach the timeline: the tool run of a phase no model
    call has named yet is shown under ["unknown"]. *)
Definition tool_in_author_phase : ThreadLog.t :=
  {| ThreadLog.schema_version := THREAD_SCHEMA_VERSION;
     ThreadLog.steps :=
       [ThreadStep.Phase "author" None None None Observation.success "t0" "agent";
        ThreadStep.ToolStart "id" "sql_run" "Sql Run" VNull ToolStepStatus.Running None None "t1" "agent";
        ThreadStep.ToolEnd "id" "sql_run" "Sql Run" VNull ToolStepStatus.Ok None None
          (ToolObservation.success []) "t2" "agent"];
     ThreadLog.result := None; ThreadLog.title := None; ThreadLog.title_locked := false |}.

Theorem phase_steps_do_not_reach_the_timeline :
  ThreadLog.current_phase tool_in_author_phase = Some "author" /\
  map te_phase (build_thread_events_from_log tool_in_author_phase 10) = [Some "unknown"; Some "unknown"].
Proof. by vm_compute. Qed.

(** ** What the materialized state says *)

(** The steps that move the state of a thread's current phase, last first. *)
Fixpoint phase_status (rev_steps : list ThreadStep.t) : option ThreadItemStatus.t :=
  match rev_steps with
  | [] => None
  | s :: rest =>
      match s with
      | ThreadStep.Phase phase _ _ _ _ _ _ =>
          if str_is_empty (trim phase) then phase_status rest else Some ThreadItemStatus.Running
      | ThreadStep.Complete _ _ _ o _ _ =>
          Some (if Observation.ok o then ThreadItemStatus.Ok else ThreadItemStatus.Failed)
      | ThreadStep.Interrupt _ _ _ _ _ | ThreadStep.GuardBlock _ _ _ _ _ _ | ThreadStep.RunLoopStop _ _ _ _ _ =>
          Some ThreadItemStatus.Blocked
      | _ => phase_status rest
      end
  end.

(** The last suite and agent switched to that have a name. *)
Fixpoint last_switch (suite : bool) (rev_steps : list ThreadStep.t) : option string :=
  match rev_steps with
  | [] => None
  | s :: rest =>
      match s, suite with
      | ThreadStep.SwitchSuite _ to_ _ _ _, true | ThreadStep.SwitchAgent _ to_ _ _ _, false =>
          if str_is_empty (trim to_) then last_switch suite rest else Some to_
      | _, _ => last_switch suite rest
      end
  end.

(** Rust strings are UTF-8. *)
Definition utf8_phases (steps : list ThreadStep.t) : Prop :=
  Forall (fun s => match s with ThreadStep.Phase p _ _ _ _ _ _ => head_ok p = true | _ => True end) steps.

Section materialized.
Context `{HD : !Rfc3339}.
Import Item ViewCache.

(** The state [st] of the steps read so far, reversed. *)
Record reflects (rev_steps : list ThreadStep.t) (st : ViewCache.t) : Prop := {
  r_suite : ViewCache.suite_id st = last_switch true rev_steps;
  r_agent : agent_type st = last_switch false rev_steps;
  r_phase : current_phase st = ThreadLog.last_phase rev_steps;
  r_item : match current_phase st with
           | None => items st = ∅
           | Some ph =>
               trim ph = ph /\ str_is_empty ph = false /\
               exists it, items st !! phase_key ph = Some it /\
                 kind it = ThreadItemKind.Phase /\ is_Some (started_at it) /\
                 Some (status it) = phase_status rev_steps
           end
}.

Lemma settle_keeps i :
  kind (settle_runtime i) = kind i /\ status (settle_runtime i) = status i /\
  started_at (settle_runtime i) = started_at i.
Proof. unfold settle_runtime. repeat case_match; done. Qed.

Lemma started_some o ts : is_Some (get_or_insert o ts).
Proof. destruct o; eauto. Qed.

(** Changing the current phase's item, with its status [s'] afterwards. *)
Lemma reflects_entry rs rs' st ph new f s' :
  reflects rs st -> current_phase st = Some ph ->
  last_switch true rs' = last_switch true rs -> last_switch false rs' = last_switch false rs ->
  ThreadLog.last_phase rs' = ThreadLog.last_phase rs -> phase_status rs' = Some s' ->
  (forall it, kind it = ThreadItemKind.Phase -> is_Some (started_at it) -> Some (status it) = phase_status rs ->
     kind (f it) = ThreadItemKind.Phase /\ is_Some (started_at (f it)) /\ status (f it) = s') ->
  reflects rs' (entry ph new f st).
Proof.
  intros [Hs Ha Hp Hi] Hc H1 H2 H3 H4 Hf. split; cbn [entry ViewCache.suite_id agent_type current_phase items];
    [congruence..|]. rewrite Hc in Hi |- *. destruct Hi as (Ht & He & it & Hl & Hk & Hst & Hss).
  split_and!; [done..|]. exists (f it). rewrite lookup_insert, decide_True by done. rewrite Hl. cbn [default].
  destruct (Hf it Hk Hst Hss) as (? & ? & ->). by rewrite H4.
Qed.

Lemma reflects_same rs rs' st :
  reflects rs st ->
  last_switch true rs' = last_switch true rs -> last_switch false rs' = last_switch false rs ->
  ThreadLog.last_phase rs' = ThreadLog.last_phase rs ->
  (is_Some (current_phase st) -> phase_status rs' = phase_status rs) -> reflects rs' st.
Proof.
  intros [Hs Ha Hp Hi] H1 H2 H3 H4. split; [congruence..|].
  destruct (current_phase st); [|done]. rewrite H4; eauto.
Qed.

Lemma reflects_block rs st s msg ts :
  reflects rs st -> last_switch true (s :: rs) = last_switch true rs ->
  last_switch false (s :: rs) = last_switch false rs ->
  ThreadLog.last_phase (s :: rs) = ThreadLog.last_phase rs ->
  phase_status (s :: rs) = Some ThreadItemStatus.Blocked ->
  reflects (s :: rs) (block_current_phase msg ts st).
Proof.
  intros H H1 H2 H3 H4. unfold block_current_phase. destruct (current_phase st) as [ph|] eqn:Hc.
  - eapply reflects_entry; eauto.
  - eapply reflects_same; eauto. rewrite Hc. by intros [].
Qed.

Lemma reflects_start rs st ts ph prevs o1 o2 o3 ob a :
  head_ok ph = true -> str_is_empty (trim ph) = false ->
  reflects rs st -> ViewCache.suite_id prevs = ViewCache.suite_id st -> agent_type prevs = agent_type st ->
  reflects (ThreadStep.Phase ph o1 o2 o3 ob ts a :: rs) (start_phase ts (trim ph) prevs).
Proof.
  intros Hu He [Hs Ha Hp Hi] H1 H2.
  split; cbn [start_phase set_phase entry ViewCache.suite_id agent_type current_phase items].
  - rewrite H1, Hs. done.
  - rewrite H2, Ha. done.
  - cbn [ThreadLog.last_phase]. by rewrite He.
  - split_and!; [by apply trim_idem|done|]. eexists. rewrite lookup_insert, decide_True by done.
    split_and!; [done|done|apply started_some|]. cbn [phase_status]. by rewrite He.
Qed.

Lemma reflects_step rs st s :
  (match s with ThreadStep.Phase p _ _ _ _ _ _ => head_ok p = true | _ => True end) ->
  reflects rs st -> reflects (s :: rs) (apply_step_to_state st s).
Proof.
  intros Hu H. pose proof H as [Hs Ha Hp Hi].
  destruct s; cbn [apply_step_to_state]; try (by eapply reflects_same; eauto);
    try (by eapply reflects_block; eauto).
  - destruct (str_is_empty (trim to_)) eqn:He.
    + eapply reflects_same; eauto. cbn [last_switch]. by rewrite He.
    + split; cbn; [by rewrite He|done|done|exact Hi].
  - destruct (str_is_empty (trim to_)) eqn:He.
    + eapply reflects_same; eauto. cbn [last_switch]. by rewrite He.
    + split; cbn; [done|by rewrite He|done|exact Hi].
  - destruct (str_is_empty (trim phase)) eqn:He.
    + eapply reflects_same; eauto; cbn; by rewrite He.
    + apply (reflects_start rs st); [done..| |]; by destruct (named from_phase).
  - destruct (current_phase st) as [ph|] eqn:Hc.
    + destruct Hi as (Ht & He & _). unfold named. rewrite Ht, He.
      eapply reflects_entry; eauto. intros it _ Hst _. cbn beta zeta.
      match goal with |- context[settle_runtime ?i] => destruct (settle_keeps i) as (-> & -> & ->) end.
      done.
    + cbn [named]. apply (reflects_same rs); [done..|]. rewrite Hc. by intros [].
  - destruct (current_phase st) as [ph|] eqn:Hc.
    + destruct Hi as (Ht & He & it0 & _ & _ & _ & Hst0).
      apply (reflects_entry rs _ _ _ _ _ (status it0)); [done..|]. intros it Hk Hst Hss. rewrite <- Hst0 in Hss.
      destruct display; cbn; split_and!; congruence.
    + eapply reflects_same; eauto.
Qed.

Lemma reflects_fold steps rs st :
  utf8_phases steps -> reflects rs st -> reflects (rev steps ++ rs) (fold_left apply_step_to_state steps st).
Proof.
  revert rs st. induction steps as [|s steps IH]; intros rs st Hu H; [done|].
  apply Forall_cons in Hu as [Hs Hu]. cbn [fold_left rev]. rewrite <- app_assoc.
  apply IH; [done|]. by apply reflects_step.
Qed.
End materialized.

(** C20: The materialized state agrees with the log it is folded from: its current
    phase is the one the log itself reports, its suite and agent are the last
    ones switched to, the item of the current phase is there with its start
    time, and its status is that of the last step that ran, completed or
    blocked a phase. *)
Theorem materialized_state_agrees_with_the_log `{HD : !Rfc3339} tid log :
  utf8_phases (ThreadLog.steps log) ->
  let st := materialize_state_from_log tid log in
  let rs := rev (ThreadLog.steps log) in
  ViewCache.current_phase st = ThreadLog.current_phase log /\
  ViewCache.suite_id st = last_switch true rs /\ ViewCache.agent_type st = last_switch false rs /\
  ViewCache.last_materialized_step_count st = length (ThreadLog.steps log) /\
  match ThreadLog.current_phase log with
  | None => ViewCache.items st = ∅
  | Some ph => exists it, ViewCache.items st !! ViewCache.phase_key ph = Some it /\
      Item.kind it = ThreadItemKind.Phase /\ is_Some (Item.started_at it) /\ Some (Item.status it) = phase_status rs
  end.
Proof.
  intros Hu. cbn zeta.
  destruct (reflects_fold (ThreadLog.steps log) [] (ViewCache.empty tid) Hu) as [Hs Ha Hp Hi]; [done|].
  rewrite app_nil_r in *. unfold materialize_state_from_log, ThreadLog.current_phase.
  cbn [ViewCache.set_totals ViewCache.current_phase ViewCache.suite_id ViewCache.agent_type
       ViewCache.last_materialized_step_count ViewCache.items].
  rewrite <- Hp. split_and!; [done..|]. destruct (ViewCache.current_phase _); [|done].
  destruct Hi as (_ & _ & Hi). exact Hi.
Qed.

Definition phase_step (phase : string) (from : option string) (ts : string) : ThreadStep.t :=
  ThreadStep.Phase phase from None None Observation.success ts "agent".

Definition revisiting_log : ThreadLog.t :=
  {| ThreadLog.schema_version := THREAD_SCHEMA_VERSION;
     ThreadLog.steps := [phase_step "plan" None "1"; phase_step "author" (Some "plan") "2";
                         phase_step "plan" (Some "author") "5"];
     ThreadLog.result := None; ThreadLog.title := None; ThreadLog.title_locked := false |}.

(** A phase entered again runs, but keeps the end and the runtime of its first
    visit, so the second visit never adds to the total. *)
Theorem a_revisited_phase_keeps_its_old_end :
  let st := materialize_state_from_log (HD := digit_dates) "t" revisiting_log in
  option_map (fun it => (Item.status it, Item.finished_at it, Item.runtime_ms it))
    (ViewCache.items st !! ViewCache.phase_key "plan") =
  Some (ThreadItemStatus.Running, Some "2", Some 1000%Z).
Proof. by vm_compute. Qed.

Lemma materialized_state_agrees_with_the_log_witness :
  let st := materialize_state_from_log (HD := digit_dates) "t" revisiting_log in
  ViewCache.current_phase st = Some "plan" /\
  exists it, ViewCache.items st !! ViewCache.phase_key "plan" = Some it /\
    Some (Item.status it) = Some ThreadItemStatus.Running.
Proof.
  destruct (materialized_state_agrees_with_the_log (HD := digit_dates) "t" revisiting_log)
    as (H1 & _ & _ & _ & H2).
  - repeat constructor.
  - split; [exact H1|]. destruct H2 as (it & Hl & _ & _ & Hs). exists it. split; [exact Hl|exact Hs].
Defined.
