(* ===== verification/WsModels.v ===== *)
(** * Messages of the WebSocket API

    [src/src/transport/src/ws/api_gen/src/models]: the messages a client and
    the server exchange, generated from the API's description.  A response
    has [v] = 1 and a [type] that its constructor fixes; both appear in its
    JSON only.  A [HashMap] is a [gmap]; the JSON of a struct lists its fields
    in the order of the struct, an optional one only when it is there. *)

From stdpp Require Import base list strings gmap.
From Stdlib Require Import ZArith Lia.
From S2P Require Import Prelude.
From S2P Require Import RustStr.
From S2P Require Import Json.

Definition HashMap : Type := gmap string Value.

(** The entries of a JSON object, collected into a map. *)
Definition to_map (obj : list (string * Value)) : HashMap := list_to_map obj.

Definition map_value (m : HashMap) : Value := VObject (map_to_list (m : gmap string Value)).

Definition strings (l : list string) : Value := VArray (map VString l).

(** ** Plans *)

Module PlanStatus.
Inductive t : Type := Draft | Approved | Completed | Cancelled.
Definition display (s : t) : string :=
  match s with
  | Draft => "draft" | Approved => "approved" | Completed => "completed" | Cancelled => "cancelled"
  end.
(** [format!("{:?}", s).to_lowercase()] *)
Definition debug_lower (s : t) : string := display s.
#[global] Instance eq_dec : EqDecision t.
Proof. solve_decision. Defined.
End PlanStatus.

Module PlanTaskStatus.
Inductive t : Type := Pending | InProgress | Done | Blocked | NeedsUpdate.
Definition display (s : t) : string :=
  match s with
  | Pending => "pending" | InProgress => "in_progress" | Done => "done" | Blocked => "blocked"
  | NeedsUpdate => "needs_update"
  end.
(** [format!("{:?}", s).to_lowercase()] *)
Definition debug_lower (s : t) : string :=
  match s with
  | Pending => "pending" | InProgress => "inprogress" | Done => "done" | Blocked => "blocked"
  | NeedsUpdate => "needsupdate"
  end.
#[global] Instance eq_dec : EqDecision t.
Proof. solve_decision. Defined.
End PlanTaskStatus.

(** [PlanChecklistItemStatus] has the same variants and names. *)
Definition PlanChecklistItemStatus : Type := PlanTaskStatus.t.

Module PlanWorkGroupKind.
Inductive t : Type := AuthorSql | AuthorSchema | Validate.
Definition display (k : t) : string :=
  match k with AuthorSql => "author_sql" | AuthorSchema => "author_schema" | Validate => "validate" end.
#[global] Instance eq_dec : EqDecision t.
Proof. solve_decision. Defined.
End PlanWorkGroupKind.

Record PlanChecklistEvidence : Type := {
  ev_kind : string;
  ev_tool_name : option string;
  ev_tool_id : option string;
  ev_step_idx : Z;
  ev_ts : option string
}.

(** The origin is always [initial]. *)
Record PlanChecklistItem : Type := {
  checklist_item_id : string;
  ci_label : string;
  ci_details : option string;
  ci_status : PlanChecklistItemStatus;
  ci_evidence : option (list PlanChecklistEvidence)
}.

Record PlanTask : Type := {
  task_kind : option string;
  task_id : string;
  pt_label : option string;
  pt_status : PlanTaskStatus.t;
  checklist : list PlanChecklistItem;
  pt_details : option HashMap
}.

Record PlanWorkGroupItemRef : Type := { ref_task_id : string; ref_checklist_item_id : string }.

Record PlanWorkGroup : Type := {
  group_id : string;
  wg_label : string;
  wg_kind : PlanWorkGroupKind.t;
  wg_items : list PlanWorkGroupItemRef;
  depends_on_group_ids : option (list string)
}.

Record PlanSnapshot : Type := {
  plan_kind : string;
  plan_key : string;
  ps_status : PlanStatus.t;
  tasks : list PlanTask;
  work_groups : list PlanWorkGroup;
  project_snapshot : option HashMap
}.

Definition evidence_value (e : PlanChecklistEvidence) : Value :=
  VObject ([("kind", VString (ev_kind e))] ++ opt_field "toolName" VString (ev_tool_name e)
    ++ opt_field "toolId" VString (ev_tool_id e) ++ [("stepIdx", num (ev_step_idx e))]
    ++ opt_field "ts" VString (ev_ts e)).

Definition checklist_item_value (i : PlanChecklistItem) : Value :=
  VObject ([("checklistItemId", VString (checklist_item_id i)); ("label", VString (ci_label i))]
    ++ opt_field "details" VString (ci_details i)
    ++ [("status", VString (PlanTaskStatus.display (ci_status i))); ("origin", VString "initial")]
    ++ opt_field "evidence" (fun l => VArray (map evidence_value l)) (ci_evidence i)).

Definition task_value (t : PlanTask) : Value :=
  VObject (opt_field "taskKind" VString (task_kind t) ++ [("taskId", VString (task_id t))]
    ++ opt_field "label" VString (pt_label t)
    ++ [("status", VString (PlanTaskStatus.display (pt_status t)));
        ("checklist", VArray (map checklist_item_value (checklist t)))]
    ++ opt_field "details" map_value (pt_details t)).

Definition item_ref_value (r : PlanWorkGroupItemRef) : Value :=
  VObject [("taskId", VString (ref_task_id r)); ("checklistItemId", VString (ref_checklist_item_id r))].

Definition work_group_value (g : PlanWorkGroup) : Value :=
  VObject ([("groupId", VString (group_id g)); ("label", VString (wg_label g));
            ("kind", VString (PlanWorkGroupKind.display (wg_kind g)));
            ("items", VArray (map item_ref_value (wg_items g)))]
    ++ opt_field "dependsOnGroupIds" strings (depends_on_group_ids g)).

Definition plan_value (p : PlanSnapshot) : Value :=
  VObject ([("planKind", VString (plan_kind p)); ("planKey", VString (plan_key p));
            ("status", VString (PlanStatus.display (ps_status p)));
            ("tasks", VArray (map task_value (tasks p)));
            ("workGroups", VArray (map work_group_value (work_groups p)))]
    ++ opt_field "projectSnapshot" map_value (project_snapshot p)).

#[global] Instance PlanChecklistEvidence_eq_dec : EqDecision PlanChecklistEvidence.
Proof. solve_decision. Defined.
#[global] Instance PlanChecklistItem_eq_dec : EqDecision PlanChecklistItem.
Proof. unfold PlanChecklistItemStatus in *. solve_decision. Defined.
#[global] Instance HashMap_eq_dec : EqDecision HashMap.
Proof. unfold HashMap. apply _. Defined.
#[global] Instance PlanTask_eq_dec : EqDecision PlanTask.
Proof. solve_decision. Defined.

(** ** The state of a thread *)

Module ToolEventStatus.
Inductive t : Type := Running | Ok | Failed.
Definition display (s : t) : string :=
  match s with Running => "running" | Ok => "ok" | Failed => "failed" end.
#[global] Instance eq_dec : EqDecision t.
Proof. solve_decision. Defined.
End ToolEventStatus.

Module WsEventKind.
Inductive t : Type := ToolStart | ToolEnd | LlmStart | LlmEnd.
Definition display (k : t) : string :=
  match k with
  | ToolStart => "tool_start" | ToolEnd => "tool_end" | LlmStart => "llm_start" | LlmEnd => "llm_end"
  end.
#[global] Instance eq_dec : EqDecision t.
Proof. solve_decision. Defined.
End WsEventKind.

Module WsContext.
Record t : Type := {
  plan_kind : option string;
  plan_key : option string;
  workgroup_id : option string;
  task_id : option string;
  checklist_item_id : option string
}.
Definition value (c : t) : Value :=
  VObject (opt_field "plan_kind" VString (plan_kind c) ++ opt_field "plan_key" VString (plan_key c)
    ++ opt_field "workgroup_id" VString (workgroup_id c) ++ opt_field "task_id" VString (task_id c)
    ++ opt_field "checklist_item_id" VString (checklist_item_id c)).
#[global] Instance eq_dec : EqDecision t.
Proof. solve_decision. Defined.
End WsContext.

Module WsEvent.
Record t : Type := {
  step_idx : Z;
  event_kind : WsEventKind.t;
  ts : string;
  tool_id : option string;
  name : option string;
  clean_name : option string;
  status : option ToolEventStatus.t;
  runtime_ms : option Z;
  payload : option HashMap;
  error : option string;
  call_id : option Z;
  model : option string;
  phase : option string;
  ctx : option WsContext.t
}.
Definition value (e : t) : Value :=
  VObject ([("step_idx", num (step_idx e)); ("event_kind", VString (WsEventKind.display (event_kind e)));
            ("ts", VString (ts e))]
    ++ opt_field "tool_id" VString (tool_id e) ++ opt_field "name" VString (name e)
    ++ opt_field "clean_name" VString (clean_name e)
    ++ opt_field "status" (fun s => VString (ToolEventStatus.display s)) (status e)
    ++ opt_field "runtime_ms" num (runtime_ms e) ++ opt_field "payload" map_value (payload e)
    ++ opt_field "error" VString (error e) ++ opt_field "call_id" num (call_id e)
    ++ opt_field "model" VString (model e) ++ opt_field "phase" VString (phase e)
    ++ opt_field "ctx" WsContext.value (ctx e)).
#[global] Instance eq_dec : EqDecision t.
Proof. solve_decision. Defined.
End WsEvent.

Module WsItemError.
Record t : Type := { summary : string; tool_step_idx : option Z; step_ts : option string }.
Definition value (e : t) : Value :=
  VObject ([("summary", VString (summary e))] ++ opt_field "tool_step_idx" num (tool_step_idx e)
    ++ opt_field "step_ts" VString (step_ts e)).
#[global] Instance eq_dec : EqDecision t.
Proof. solve_decision. Defined.
End WsItemError.

Module WsItem.
Record t : Type := {
  item_id : string;
  kind : string;
  status : string;
  started_at : option string;
  finished_at : option string;
  runtime_ms : option Z;
  last_error : option WsItemError.t;
  outputs : option HashMap
}.
Definition value (i : t) : Value :=
  VObject ([("item_id", VString (item_id i)); ("kind", VString (kind i)); ("status", VString (status i))]
    ++ opt_field "started_at" VString (started_at i) ++ opt_field "finished_at" VString (finished_at i)
    ++ opt_field "runtime_ms" num (runtime_ms i) ++ opt_field "last_error" WsItemError.value (last_error i)
    ++ opt_field "outputs" map_value (outputs i)).
#[global] Instance eq_dec : EqDecision t.
Proof. solve_decision. Defined.
End WsItem.

Module Snapshot.
Record t : Type := {
  thread_state_schema_version : Z;
  thread_id : string;
  suite_id : option string;
  agent_type : option string;
  current_phase : option string;
  last_materialized_step_count : Z;
  total_runtime_ms : Z;
  phases : list string;
  completed_phases : list string;
  events : list WsEvent.t;
  items : list WsItem.t;
  plan_summaries : option HashMap
}.
Definition value (s : t) : Value :=
  VObject ([("thread_state_schema_version", num (thread_state_schema_version s));
            ("thread_id", VString (thread_id s))]
    ++ opt_field "suiteId" VString (suite_id s) ++ opt_field "agentType" VString (agent_type s)
    ++ opt_field "currentPhase" VString (current_phase s)
    ++ [("last_materialized_step_count", num (last_materialized_step_count s));
        ("total_runtime_ms", num (total_runtime_ms s)); ("phases", strings (phases s));
        ("completedPhases", strings (completed_phases s));
        ("events", VArray (map WsEvent.value (events s)));
        ("items", VArray (map WsItem.value (items s)))]
    ++ opt_field "planSummaries" map_value (plan_summaries s)).
#[global] Instance eq_dec : EqDecision t.
Proof. solve_decision. Defined.
End Snapshot.

Module PhaseRun.
Record t : Type := { started_at : string; ended_at : option string; runtime_ms : option Z }.
Definition new (started : string) : t := {| started_at := started; ended_at := None; runtime_ms := None |}.
Definition value (r : t) : Value :=
  VObject ([("started_at", VString (started_at r))] ++ opt_field "ended_at" VString (ended_at r)
    ++ opt_field "runtime_ms" num (runtime_ms r)).
End PhaseRun.

(** ** Reviews and final results *)

Module WsReviewDecision.
Inductive t : Type := Proceed | PatchImpl.
Definition display (d : t) : string := match d with Proceed => "proceed" | PatchImpl => "patch_impl" end.
End WsReviewDecision.

Module ReviewTier.
Inductive t : Type := Silver | Gold | Unknown.
Definition display (d : t) : string :=
  match d with Silver => "silver" | Gold => "gold" | Unknown => "unknown" end.
End ReviewTier.

Record ReviewRef : Type := { rr_key : string; rr_sha256 : string; rr_bytes : Z }.

Record ReviewDecisionMeta : Type := {
  rm_decision : WsReviewDecision.t;
  rm_tier : ReviewTier.t;
  dataset_ids : list string;
  review_ref : option ReviewRef
}.

Definition review_meta_value (m : ReviewDecisionMeta) : Value :=
  VObject ([("decision", VString (WsReviewDecision.display (rm_decision m)));
            ("tier", VString (ReviewTier.display (rm_tier m))); ("dataset_ids", strings (dataset_ids m))]
    ++ opt_field "review_ref" (fun r => VObject [("key", VString (rr_key r)); ("sha256", VString (rr_sha256 r));
                                                 ("bytes", num (rr_bytes r))]) (review_ref m)).

Record PhaseReasonDetail : Type := {
  review_phase : option string;
  prd_meta : option ReviewDecisionMeta;
  prd_answer : option string;
  trigger_step_idx : option Z;
  trigger_step : option HashMap;
  prd_kind : option string;
  prd_data : option HashMap
}.

Definition reason_detail_value (d : PhaseReasonDetail) : Value :=
  VObject (opt_field "review_phase" VString (review_phase d) ++ opt_field "meta" review_meta_value (prd_meta d)
    ++ opt_field "answer" VString (prd_answer d) ++ opt_field "trigger_step_idx" num (trigger_step_idx d)
    ++ opt_field "trigger_step" map_value (trigger_step d) ++ opt_field "kind" VString (prd_kind d)
    ++ opt_field "data" map_value (prd_data d)).

Record AskFinalPayloadData : Type := { afd_header : list string; afd_rows : list (list string) }.

Module ChartType.
Inductive t : Type := Line | Bar | Area.
Definition display (c : t) : string := match c with Line => "line" | Bar => "bar" | Area => "area" end.
End ChartType.

Record AskFinalPayloadChart : Type := { chart_type : ChartType.t; chart_x : string; chart_y : list string }.

Record AskFinalPayload : Type := {
  ask_answer : string;
  ask_sql : string;
  ask_data : option AskFinalPayloadData;
  ask_chart : option AskFinalPayloadChart
}.

Definition ask_payload_value (p : AskFinalPayload) : Value :=
  VObject ([("answer", VString (ask_answer p)); ("sql", VString (ask_sql p))]
    ++ opt_field "data" (fun d => VObject [("header", strings (afd_header d));
                                           ("rows", VArray (map strings (afd_rows d)))]) (ask_data p)
    ++ opt_field "chart" (fun c => VObject [("type", VString (ChartType.display (chart_type c)));
                                            ("x", VString (chart_x c)); ("y", strings (chart_y c))]) (ask_chart p)).

Module FinalResult.
Inductive t : Type := Ask (payload : AskFinalPayload) | Kb (answer : string) | Generic (text : string).
(** An enum tagged by [kind] whose variants have a field [kind] themselves:
    the JSON has both. *)
Definition tagged (kind : string) (payload : Value) : Value :=
  VObject [("kind", VString kind); ("kind", VString kind); ("payload", payload)].
Definition value (r : t) : Value :=
  match r with
  | Ask p => tagged "ask" (ask_payload_value p)
  | Kb a => tagged "kb" (VObject [("answer", VString a)])
  | Generic txt => tagged "generic" (VObject [("text", VString txt)])
  end.
End FinalResult.

(** ** Responses *)

(** The fields the messages about a running thread share. *)
Record EventHead : Type := {
  eh_server_time : string;
  eh_seq : Z;
  eh_thread_id : string;
  eh_thread_seq : option Z;
  eh_for_cid : option string
}.

(** The fields of a message of the conversation itself. *)
Record TurnHead : Type := {
  th_server_time : string;
  th_seq : Z;
  th_thread_id : string;
  th_thread_seq : Z
}.

Definition typed (typ : string) (fields : list (string * Value)) : list (string * Value) :=
  [("v", num 1); ("type", VString typ)] ++ fields.

Definition event_fields (typ : string) (h : EventHead) : list (string * Value) :=
  typed typ ([("server_time", VString (eh_server_time h)); ("seq", num (eh_seq h));
              ("thread_id", VString (eh_thread_id h))]
    ++ opt_field "thread_seq" num (eh_thread_seq h) ++ opt_field "for_cid" VString (eh_for_cid h)).

Definition turn_fields (typ : string) (h : TurnHead) : list (string * Value) :=
  typed typ [("server_time", VString (th_server_time h)); ("seq", num (th_seq h));
             ("thread_id", VString (th_thread_id h)); ("thread_seq", num (th_thread_seq h))].

Module ListThread.
Record t : Type := {
  thread_id : string;
  title : option string;
  last_activity : option string;
  unread_count : option Z;
  last_message_preview : option string;
  suite_id : option string;
  agent_type : option string
}.
Definition new (tid : string) : t :=
  {| thread_id := tid; title := None; last_activity := None; unread_count := None;
     last_message_preview := None; suite_id := None; agent_type := None |}.
Definition value (i : t) : Value :=
  VObject ([("thread_id", VString (thread_id i))] ++ opt_field "title" VString (title i)
    ++ opt_field "last_activity" VString (last_activity i) ++ opt_field "unread_count" num (unread_count i)
    ++ opt_field "last_message_preview" VString (last_message_preview i)
    ++ opt_field "suiteId" VString (suite_id i) ++ opt_field "agentType" VString (agent_type i)).
End ListThread.

Record ListResponse : Type := { ls_server_time : string; ls_seq : Z; threads : list ListThread.t }.

Record SuiteInfo : Type := {
  si_suite_id : string;
  si_label : option string;
  allowed_agent_types : list string;
  si_default_agent_type : option string
}.

Definition suite_info_value (s : SuiteInfo) : Value :=
  VObject ([("suiteId", VString (si_suite_id s))] ++ opt_field "label" VString (si_label s)
    ++ [("allowedAgentTypes", strings (allowed_agent_types s))]
    ++ opt_field "defaultAgentType" VString (si_default_agent_type s)).

Record SuitesResponse : Type := {
  ss_server_time : string;
  ss_seq : Z;
  suites : list SuiteInfo;
  default_suite : option string
}.

Record OkResponse : Type := { ok_server_time : string; ok_cid : option string }.

Record ErrorResponse : Type := {
  er_server_time : string;
  er_error : string;
  er_code : option string;
  er_cid : option string;
  retry_after_ms : option Z
}.

Record ThreadAssignedResponse : Type := {
  ta_server_time : string;
  ta_seq : Z;
  ta_cid : string;
  ta_thread_id : string
}.

Module Role.
Inductive t : Type := User | Assistant.
Definition display (r : t) : string := match r with User => "user" | Assistant => "assistant" end.
#[global] Instance eq_dec : EqDecision t.
Proof. solve_decision. Defined.
End Role.

Record HistoryMessage : Type := {
  hm_thread_seq : Z;
  hm_role : Role.t;
  hm_content : string;
  hm_created_at : string
}.

Definition history_message_value (m : HistoryMessage) : Value :=
  VObject [("thread_seq", num (hm_thread_seq m)); ("role", VString (Role.display (hm_role m)));
           ("content", VString (hm_content m)); ("created_at", VString (hm_created_at m))].

Record HistoryResponse : Type := {
  hr_server_time : string;
  hr_seq : Z;
  hr_thread_id : string;
  hr_title : option string;
  hr_suite_id : option string;
  hr_agent_type : option string;
  hr_messages : list HistoryMessage;
  next_before_thread_seq : option Z
}.

Record UnreadResponse : Type := {
  ur_server_time : string;
  ur_seq : Z;
  ur_thread_id : string;
  ur_unread_count : Z
}.

Record ReviewResponse : Type := {
  rv_head : TurnHead;
  rv_text : string;
  rv_meta : option ReviewDecisionMeta
}.

Record PlansChangedResponse : Type := {
  pc_head : EventHead;
  changed : list string;
  changed_plan_keys : option (list string)
}.

Record PhaseResponse : Type := {
  ph_head : EventHead;
  ph_step_idx : Z;
  ph_phase : string;
  ph_from_phase : option string;
  ph_reason_code : option string;
  ph_reason_detail : option PhaseReasonDetail;
  ph_ts : string;
  ph_runs : list PhaseRun.t;
  ph_total_runtime_ms : Z;
  from_phase_runs : option (list PhaseRun.t);
  from_phase_total_runtime_ms : option Z
}.

Record ToolStartResponse : Type := {
  tst_head : EventHead;
  tst_tool_id : string;
  tst_name : string;
  tst_clean_name : option string;
  tst_phase : option string;
  tst_status : ToolEventStatus.t;
  tst_payload : option HashMap;
  tst_ctx : option WsContext.t
}.

Record ToolEndResponse : Type := {
  ten_head : EventHead;
  ten_tool_id : string;
  ten_name : string;
  ten_clean_name : option string;
  ten_phase : option string;
  ten_status : ToolEventStatus.t;
  ten_payload : option HashMap;
  ten_error : option string;
  ten_ctx : option WsContext.t
}.

Record LlmStartResponse : Type := {
  lst_head : EventHead;
  lst_call_id : Z;
  lst_phase : string;
  lst_model : option string;
  lst_ctx : option WsContext.t
}.

(** The status is failed or ok. *)
Record LlmEndResponse : Type := {
  len_head : EventHead;
  len_call_id : Z;
  len_phase : string;
  len_model : option string;
  len_failed : bool;
  len_error : option string;
  len_ctx : option WsContext.t
}.

Module ServerMessage.
Inductive t : Type :=
| List (r : ListResponse)
| Suites (r : SuitesResponse)
| Final (h : TurnHead) (result : FinalResult.t)
| Review (r : ReviewResponse)
| Plans (h : EventHead) (plans : list PlanSnapshot)
| PlansChanged (r : PlansChangedResponse)
| ThreadState (h : EventHead) (state : Snapshot.t)
| Phase (r : PhaseResponse)
| AwaitUser (h : TurnHead) (prompt : string)
| AwaitApproval (h : TurnHead) (prompt : string)
| Ok (r : OkResponse)
| Error (r : ErrorResponse)
| ThreadAssigned (r : ThreadAssignedResponse)
| History (r : HistoryResponse)
| Unread (r : UnreadResponse)
| ToolStart (r : ToolStartResponse)
| ToolEnd (r : ToolEndResponse)
| LlmStart (r : LlmStartResponse)
| LlmEnd (r : LlmEndResponse).

Definition type_name (m : t) : string :=
  match m with
  | List _ => "list" | Suites _ => "suites" | Final _ _ => "final" | Review _ => "review"
  | Plans _ _ => "plans" | PlansChanged _ => "plans_changed" | ThreadState _ _ => "thread_state"
  | Phase _ => "phase" | AwaitUser _ _ => "await_user" | AwaitApproval _ _ => "await_approval"
  | Ok _ => "ok" | Error _ => "error" | ThreadAssigned _ => "thread_assigned" | History _ => "history"
  | Unread _ => "unread" | ToolStart _ => "tool_start" | ToolEnd _ => "tool_end"
  | LlmStart _ => "llm_start" | LlmEnd _ => "llm_end"
  end.

(** The fields of the struct in the message. *)
Definition fields (m : t) : list (string * Value) :=
  let typ := type_name m in
  match m with
  | List r => typed typ [("server_time", VString (ls_server_time r)); ("seq", num (ls_seq r));
                         ("threads", VArray (map ListThread.value (threads r)))]
  | Suites r => typed typ ([("server_time", VString (ss_server_time r)); ("seq", num (ss_seq r));
                            ("suites", VArray (map suite_info_value (suites r)))]
                           ++ opt_field "defaultSuiteId" VString (default_suite r))
  | Final h result => turn_fields typ h ++ [("result", FinalResult.value result)]
  | Review r => turn_fields typ (rv_head r) ++ [("text", VString (rv_text r))]
                ++ opt_field "meta" review_meta_value (rv_meta r)
  | Plans h plans => event_fields typ h ++ [("plans", VArray (map plan_value plans))]
  | PlansChanged r => event_fields typ (pc_head r) ++ [("changed", strings (changed r))]
                      ++ opt_field "changed_plan_keys" strings (changed_plan_keys r)
  | ThreadState h state => event_fields typ h ++ [("state", Snapshot.value state)]
  | Phase r => event_fields typ (ph_head r) ++ [("step_idx", num (ph_step_idx r)); ("phase", VString (ph_phase r))]
               ++ opt_field "from_phase" VString (ph_from_phase r)
               ++ opt_field "reason_code" VString (ph_reason_code r)
               ++ opt_field "reason_detail" reason_detail_value (ph_reason_detail r)
               ++ [("ts", VString (ph_ts r)); ("runs", VArray (map PhaseRun.value (ph_runs r)));
                   ("total_runtime_ms", num (ph_total_runtime_ms r))]
               ++ opt_field "from_phase_runs" (fun l => VArray (map PhaseRun.value l)) (from_phase_runs r)
               ++ opt_field "from_phase_total_runtime_ms" num (from_phase_total_runtime_ms r)
  | AwaitUser h prompt | AwaitApproval h prompt => turn_fields typ h ++ [("prompt", VString prompt)]
  | Ok r => typed typ ([("server_time", VString (ok_server_time r))] ++ opt_field "cid" VString (ok_cid r))
  | Error r => typed typ ([("server_time", VString (er_server_time r)); ("error", VString (er_error r))]
                          ++ opt_field "code" VString (er_code r) ++ opt_field "cid" VString (er_cid r)
                          ++ opt_field "retry_after_ms" num (retry_after_ms r))
  | ThreadAssigned r => typed typ [("server_time", VString (ta_server_time r)); ("seq", num (ta_seq r));
                                   ("cid", VString (ta_cid r)); ("thread_id", VString (ta_thread_id r))]
  | History r => typed typ ([("server_time", VString (hr_server_time r)); ("seq", num (hr_seq r));
                             ("thread_id", VString (hr_thread_id r))]
                            ++ opt_field "title" VString (hr_title r) ++ opt_field "suiteId" VString (hr_suite_id r)
                            ++ opt_field "agentType" VString (hr_agent_type r)
                            ++ [("messages", VArray (map history_message_value (hr_messages r)))]
                            ++ opt_field "next_before_thread_seq" num (next_before_thread_seq r))
  | Unread r => typed typ [("server_time", VString (ur_server_time r)); ("seq", num (ur_seq r));
                           ("thread_id", VString (ur_thread_id r)); ("unread_count", num (ur_unread_count r))]
  | ToolStart r => event_fields typ (tst_head r)
                   ++ [("tool_id", VString (tst_tool_id r)); ("name", VString (tst_name r))]
                   ++ opt_field "clean_name" VString (tst_clean_name r) ++ opt_field "phase" VString (tst_phase r)
                   ++ [("status", VString (ToolEventStatus.display (tst_status r)))]
                   ++ opt_field "payload" map_value (tst_payload r) ++ opt_field "ctx" WsContext.value (tst_ctx r)
  | ToolEnd r => event_fields typ (ten_head r)
                 ++ [("tool_id", VString (ten_tool_id r)); ("name", VString (ten_name r))]
                 ++ opt_field "clean_name" VString (ten_clean_name r) ++ opt_field "phase" VString (ten_phase r)
                 ++ [("status", VString (ToolEventStatus.display (ten_status r)))]
                 ++ opt_field "payload" map_value (ten_payload r) ++ opt_field "error" VString (ten_error r)
                 ++ opt_field "ctx" WsContext.value (ten_ctx r)
  | LlmStart r => event_fields typ (lst_head r)
                  ++ [("call_id", num (lst_call_id r)); ("phase", VString (lst_phase r))]
                  ++ opt_field "model" VString (lst_model r) ++ opt_field "ctx" WsContext.value (lst_ctx r)
  | LlmEnd r => event_fields typ (len_head r)
                ++ [("call_id", num (len_call_id r)); ("phase", VString (len_phase r))]
                ++ opt_field "model" VString (len_model r)
                ++ [("status", VString (if len_failed r then "failed" else "ok"))]
                ++ opt_field "error" VString (len_error r) ++ opt_field "ctx" WsContext.value (len_ctx r)
  end.

(** [to_string] of the struct alone, and of the enum: tagged by [type], which
    the struct has as well. *)
Definition plain (m : t) : Value := VObject (fields m).
Definition value (m : t) : Value := VObject (("type", VString (type_name m)) :: fields m).

(** The [seq] of a message; acknowledgements and errors have none. *)
Definition seq (m : t) : option Z :=
  match m with
  | List r => Some (ls_seq r) | Suites r => Some (ss_seq r) | Final h _ | AwaitUser h _ | AwaitApproval h _ => Some (th_seq h)
  | Review r => Some (th_seq (rv_head r)) | Plans h _ | ThreadState h _ => Some (eh_seq h)
  | PlansChanged r => Some (eh_seq (pc_head r)) | Phase r => Some (eh_seq (ph_head r))
  | ThreadAssigned r => Some (ta_seq r) | History r => Some (hr_seq r) | Unread r => Some (ur_seq r)
  | ToolStart r => Some (eh_seq (tst_head r)) | ToolEnd r => Some (eh_seq (ten_head r))
  | LlmStart r => Some (eh_seq (lst_head r)) | LlmEnd r => Some (eh_seq (len_head r))
  | Ok _ | Error _ => None
  end.
End ServerMessage.

(** ** Requests

    [from_value] of each request, as [serde] derives it: unknown fields are
    ignored, an optional field may be absent or [null].  What it says of a
    value it refuses is a parameter.  [v] is only required to be there. *)

Class RequestErrors := request_error : string -> Value -> string.

Definition str_at (k : string) (v : Value) : option string := get v k ≫= as_str.

Definition i32_of (v : Value) : option Z :=
  match v with
  | VNumber (PosInt n) => if (n <=? 2147483647)%Z then Some n else None
  | VNumber (NegInt n) => if (-2147483648 <=? n)%Z then Some n else None
  | _ => None
  end.

Definition i32_at (k : string) (v : Value) : option Z := get v k ≫= i32_of.

Definition opt_at {A} (read : Value -> option A) (k : string) (v : Value) : option (option A) :=
  match get v k with
  | None | Some VNull => Some None
  | Some x => Some <$> read x
  end.

(** The head of a request of the given [type]: its [cid]. *)
Definition request_head (typ : string) (v : Value) : option string :=
  _ ← i32_at "v" v;
  t ← str_at "type" v;
  if String.eqb t typ then str_at "cid" v else None.

Module AgentType.
Inductive t : Type := Ask | Kb | Agent | Review.
Definition from_str (s : string) : option t :=
  if String.eqb s "ask" then Some Ask else if String.eqb s "kb" then Some Kb
  else if String.eqb s "agent" then Some Agent else if String.eqb s "review" then Some Review else None.
End AgentType.

Record NewRequest : Type := {
  nr_cid : string;
  nr_question : option string;
  nr_suite_id : string;
  nr_agent_type : AgentType.t
}.

Record OpenRequest : Type := {
  or_cid : string;
  or_thread_id : string;
  or_question : option string;
  or_suite_id : string;
  or_agent_type : AgentType.t
}.

Record UserRequest : Type := { us_cid : string; us_thread_id : string; us_text : string }.

(** [approve], [reject], [delete], [plans] and [thread_state] name a thread. *)
Record ThreadRequest : Type := { tr_cid : string; tr_thread_id : string }.

Record HistoryRequest : Type := {
  hq_cid : string;
  hq_thread_id : string;
  before_thread_seq : option Z;
  hq_limit : option Z
}.

Record SeenRequest : Type := { sn_cid : string; sn_thread_id : string; up_to_thread_seq : Z }.

Definition new_request (v : Value) : option NewRequest :=
  cid ← request_head "new" v;
  question ← opt_at as_str "question" v;
  suite ← str_at "suiteId" v;
  agent ← str_at "agentType" v ≫= AgentType.from_str;
  Some {| nr_cid := cid; nr_question := question; nr_suite_id := suite; nr_agent_type := agent |}.

Definition open_request (v : Value) : option OpenRequest :=
  cid ← request_head "open" v;
  tid ← str_at "thread_id" v;
  question ← opt_at as_str "question" v;
  suite ← str_at "suiteId" v;
  agent ← str_at "agentType" v ≫= AgentType.from_str;
  Some {| or_cid := cid; or_thread_id := tid; or_question := question; or_suite_id := suite;
          or_agent_type := agent |}.

Definition user_request (v : Value) : option UserRequest :=
  cid ← request_head "user" v;
  tid ← str_at "thread_id" v;
  text ← str_at "text" v;
  Some {| us_cid := cid; us_thread_id := tid; us_text := text |}.

Definition thread_request (typ : string) (v : Value) : option ThreadRequest :=
  cid ← request_head typ v;
  tid ← str_at "thread_id" v;
  Some {| tr_cid := cid; tr_thread_id := tid |}.

Definition history_request (v : Value) : option HistoryRequest :=
  cid ← request_head "history" v;
  tid ← str_at "thread_id" v;
  before ← opt_at i32_of "before_thread_seq" v;
  limit ← opt_at i32_of "limit" v;
  Some {| hq_cid := cid; hq_thread_id := tid; before_thread_seq := before; hq_limit := limit |}.

Definition seen_request (v : Value) : option SeenRequest :=
  cid ← request_head "seen" v;
  tid ← str_at "thread_id" v;
  upto ← i32_at "up_to_thread_seq" v;
  Some {| sn_cid := cid; sn_thread_id := tid; up_to_thread_seq := upto |}.

(** [serde_json::from_value(v.clone()).map_err(|e| e.to_string())?] *)
Definition parse_request `{!RequestErrors} {A} (what : string) (read : Value -> option A) (v : Value)
  : Result A string :=
  match read v with Some r => Ok r | None => Err (request_error what v) end.

(** ** What is on the wire *)

(** A field read back from the text of an object: the last of its name. *)
Definition last_at (k : string) (m : list (string * Value)) : option Value :=
  assoc_get k (rev m).

Lemma assoc_get_app {A} k (l r : list (string * A)) :
  assoc_get k (l ++ r) = match assoc_get k l with Some v => Some v | None => assoc_get k r end.
Proof. induction l as [|[k' v] l IH]; simpl; [done|]. by destruct (String.eqb k k'). Qed.

(** A message that is sent as a variant of [ServerMessage] carries its [type]
    twice: a reader of the struct finds the field repeated, a reader of the
    enum finds the tag repeated. *)
Theorem tagged_messages_repeat_their_type (m : ServerMessage.t) :
  exists rest, ServerMessage.value m =
    VObject (("type", VString (ServerMessage.type_name m)) :: ("v", num 1) ::
             ("type", VString (ServerMessage.type_name m)) :: rest).
Proof. by destruct m; eexists. Qed.
