(* ===== verification/History.v ===== *)
(** * The history of a thread, for a client

    [src/src/transport/src/ws/history.rs] (pages of the conversation, the
    unread count), [mapping.rs] (core data as messages of the API) and
    [util.rs] (environment switches).  Sequence numbers are [i32]s that wrap. *)

From stdpp Require Import base list strings gmap.
From Stdlib Require Import ZArith Lia.
From S2P Require Import Prelude.
From S2P Require Import RustStr.
From S2P Require Import Json.
From S2P Require Import Errors.
From S2P Require Import Scope.
From S2P Require Import Storage.
From S2P Require Import Caching.
From S2P Require Import SessionTypes.
From S2P Require Import ThreadStore.
From S2P Require Import Text.
From S2P Require Import Redaction.
From S2P Require Import WsModels.

(** ** [util.rs] *)

Definition DEFAULT_INITIAL_PHASE : string := "preflight".
Definition DEFAULT_AGENT_TYPE : string := "ask".

Section env.
Variable env : string -> option string.

Definition env_bool (key : string) (dflt : bool) : bool :=
  let v := trim (default (if dflt then "1" else "0") (env key)) in
  if existsb (String.eqb v) ["1"; "true"; "TRUE"; "yes"; "YES"] then true
  else if existsb (String.eqb v) ["0"; "false"; "FALSE"; "no"; "NO"] then false
  else dflt.

Definition env_truthy `{!UnicodeLower} (key : string) : bool :=
  match env key with
  | Some v => let vv := to_lowercase (trim v) in
              String.eqb vv "1" || String.eqb vv "true" || String.eqb vv "yes"
  | None => false
  end.
End env.

Definition truncate_str (s : string) (mx : nat) : string := truncate_chars_fit s mx.
Definition truncate_title (s : string) (max_chars : nat) : string := truncate_str s max_chars.

(** ** [mapping.rs] *)

Definition final_display_text_from_payload `{!Serde} (payload : Value) : string :=
  match str_at "answer" payload with
  | Some s => s
  | None =>
      match str_at "text" payload with
      | Some s => s
      | None => match to_vec payload with Ok s => s | Err _ => EmptyString end
      end
  end.

(** What [serde] derives for the data of an answer. *)
Class AnswerReaders := {
  read_ask_data : Value -> option AskFinalPayloadData;
  read_ask_chart : Value -> option AskFinalPayloadChart
}.

Definition has_text (payload : Value) (k : string) : bool :=
  match str_at k payload with Some s => negb (is_blank s) | None => false end.

Definition ws_final_result_from_typed_final `{!Serde, !AnswerReaders} (kind : string) (payload : Value)
  (display : option string) : FinalResult.t :=
  let answer := default EmptyString (str_at "answer" payload) in
  if has_text payload "answer" && has_text payload "sql" then
    FinalResult.Ask {| ask_answer := answer; ask_sql := default EmptyString (str_at "sql" payload);
                       ask_data := Json.get payload "data" ≫= read_ask_data;
                       ask_chart := Json.get payload "chart" ≫= read_ask_chart |}
  else if has_text payload "answer" then FinalResult.Kb answer
  else FinalResult.Generic
    match str_at "text" payload with
    | Some txt => txt
    | None => match display with Some d => d | None => final_display_text_from_payload payload end
    end.

Definition map_thread_event_kind (k : ThreadEventKind.t) : WsEventKind.t :=
  match k with
  | ThreadEventKind.ToolStart => WsEventKind.ToolStart
  | ThreadEventKind.ToolEnd => WsEventKind.ToolEnd
  | ThreadEventKind.LlmStart => WsEventKind.LlmStart
  | ThreadEventKind.LlmEnd => WsEventKind.LlmEnd
  end.

Definition map_tool_event_status (s : option ThreadEventStatus.t) : ToolEventStatus.t :=
  match s with
  | Some ThreadEventStatus.Running => ToolEventStatus.Running
  | Some ThreadEventStatus.Ok => ToolEventStatus.Ok
  | Some ThreadEventStatus.Failed => ToolEventStatus.Failed
  | None => ToolEventStatus.Ok
  end.

Definition map_exec_ctx (c : ExecutionContext) : WsContext.t :=
  {| WsContext.plan_kind := Ctx.get_str c "plan_kind"; WsContext.plan_key := Ctx.get_str c "plan_key";
     WsContext.workgroup_id := Ctx.get_str c "workgroup_id"; WsContext.task_id := Ctx.get_str c "task_id";
     WsContext.checklist_item_id := Ctx.get_str c "checklist_item_id" |}.

(** ** [history.rs] *)

(** One more message. *)
Definition next (tseq : Z) : Z := as_i32 (tseq + 1).

(** The loop of [compute_unread_for_log]. *)
Fixpoint unread_loop (seen_seq tseq count last : Z) (steps : list ThreadStep.t) : Z * Z :=
  match steps with
  | [] => (last, count)
  | ThreadStep.User _ _ _ _ :: steps => unread_loop seen_seq (next tseq) count last steps
  | (ThreadStep.Complete _ _ _ _ _ _ | ThreadStep.Interrupt _ _ _ _ _ | ThreadStep.ReviewResponse _ _ _ _ _) :: steps =>
      let tseq := next tseq in
      unread_loop seen_seq tseq (if (seen_seq <? tseq)%Z then next count else count) tseq steps
  | _ :: steps => unread_loop seen_seq tseq count last steps
  end.

Definition compute_unread_for_log (log : ThreadLog.t) (seen_seq : Z) : Z * Z :=
  unread_loop seen_seq 0 0 0 (ThreadLog.steps log).

Definition complete_text `{!Serde} (payload : Value) (display : option string) : string :=
  match display with
  | Some d => d
  | None =>
      match str_at "text" payload with
      | Some s => s
      | None => match str_at "answer" payload with
                | Some s => s
                | None => final_display_text_from_payload payload
                end
      end
  end.

(** The role and the text of a step that is a message. *)
Definition message_of `{!Serde} (step : ThreadStep.t) : option (Role.t * string) :=
  match step with
  | ThreadStep.User text _ _ _ => Some (Role.User, text)
  | ThreadStep.Complete _ payload display _ _ _ => Some (Role.Assistant, complete_text payload display)
  | ThreadStep.ReviewResponse text _ _ _ _ => Some (Role.Assistant, text)
  | ThreadStep.Interrupt _ prompt _ _ _ => Some (Role.Assistant, prompt)
  | _ => None
  end.

(** The loop of [build_history]. *)
Fixpoint all_messages `{!Serde} (tseq : Z) (steps : list ThreadStep.t) : list HistoryMessage :=
  match steps with
  | [] => []
  | step :: steps =>
      match message_of step with
      | Some (role, content) =>
          {| hm_thread_seq := next tseq; hm_role := role; hm_content := content;
             hm_created_at := ThreadStep.ts step |} :: all_messages (next tseq) steps
      | None => all_messages tseq steps
      end
  end.

(** [build_history], on the log it has read. *)
Definition history_page `{!Serde} (log : ThreadLog.t) (before limit_opt : option Z)
  : list HistoryMessage * option Z :=
  let limit := Z.max (default 50%Z limit_opt) 1 in
  let all_msgs := all_messages 0 (ThreadLog.steps log) in
  let filtered := match before with
                  | Some b => filter (fun m => (hm_thread_seq m < b)%Z) all_msgs
                  | None => all_msgs
                  end in
  let total := as_i32 (Z.of_nat (length filtered)) in
  if (limit <? total)%Z then
    let trimmed := drop (Z.to_nat (total - limit)) filtered in
    let first_seq := match trimmed with m :: _ => hm_thread_seq m | [] => 0%Z end in
    (trimmed, if (1 <? first_seq)%Z then Some first_seq else None)
  else (filtered, None).

Section read.
Context {St K : Type} `{HSd : !Serde, HSt : !StorageAdapter St, HT : !Timer St, HK : !Keyspace K,
  HC : !Codec ThreadLog.t}.
Variables (scope : RequestScope) (keyspace : K).

Definition build_history (thread_id : string) (before limit_opt : option Z)
  : Act (ThreadStore St) string (list HistoryMessage * option Z) :=
  do! log <- act_map_err CoreError.display (get_log scope keyspace thread_id);
  act_ret (history_page log before limit_opt).
End read.

(** A client that asks for page after page, the last one first. *)
Fixpoint pages `{!Serde} (fuel : nat) (log : ThreadLog.t) (before limit : option Z) : list (list HistoryMessage) :=
  match fuel with
  | O => []
  | S fuel =>
      let '(msgs, nb) := history_page log before limit in
      msgs :: match nb with Some b => pages fuel log (Some b) limit | None => [] end
  end.

(** ** Pages *)

Section pages.
Context `{HSd : !Serde}.

Definition i32_top : Z := 2147483647.

Lemma as_i32_small n : (0 <= n <= i32_top)%Z -> as_i32 n = n.
Proof.
  unfold as_i32, cast, u32_max, i32_top. intros H. rewrite Z.mod_small by lia. case_match; [done|].
  apply Z.leb_gt in H0. lia.
Qed.

(** Without overflow, the messages are numbered one by one. *)
Lemma all_messages_seqs steps t :
  (0 <= t)%Z -> (t + Z.of_nat (length (all_messages t steps)) <= i32_top)%Z ->
  map hm_thread_seq (all_messages t steps) = (fun i => t + Z.of_nat i + 1)%Z <$> seq 0 (length (all_messages t steps)).
Proof.
  revert t. induction steps as [|s steps IH]; intros t Ht Hn; [done|]. cbn [all_messages] in *.
  destruct (message_of s) as [[r c]|]; [|by apply IH]. cbn [length map hm_thread_seq] in *.
  assert (next t = t + 1)%Z as Hnx by (unfold next; apply as_i32_small; lia).
  rewrite Hnx in *. rewrite IH by lia. cbn [seq fmap list_fmap]. f_equal; [lia|].
  rewrite <- seq_shift, <- list_fmap_compose. apply list_fmap_ext. intros i x _. cbn. lia.
Qed.

Lemma nth_seq steps i m : (Z.of_nat (length (all_messages 0 steps)) <= i32_top)%Z ->
  all_messages 0 steps !! i = Some m -> hm_thread_seq m = (Z.of_nat i + 1)%Z.
Proof.
  intros Hn Hi. pose proof (all_messages_seqs steps 0 ltac:(lia) ltac:(lia)) as Hs.
  assert (map hm_thread_seq (all_messages 0 steps) !! i = Some (hm_thread_seq m)) as Hm
    by (by rewrite list_lookup_fmap, Hi).
  rewrite Hs, list_lookup_fmap in Hm. apply fmap_Some in Hm as (j & Hj & ->).
  apply lookup_seq in Hj as [-> _]. lia.
Qed.

Lemma filter_all {A} (P : A -> Prop) `{!forall x, Decision (P x)} l : Forall P l -> filter P l = l.
Proof. induction 1; [done|]. rewrite filter_cons_True by done. by f_equal. Qed.

Lemma filter_none {A} (P : A -> Prop) `{!forall x, Decision (P x)} l : Forall (fun x => ~ P x) l -> filter P l = [].
Proof. induction 1; [done|]. by rewrite filter_cons_False. Qed.

Lemma before_take (l : list HistoryMessage) (b : nat) :
  (forall i m, l !! i = Some m -> hm_thread_seq m = (Z.of_nat i + 1)%Z) ->
  filter (fun m => (hm_thread_seq m < Z.of_nat b + 1)%Z) l = take b l.
Proof.
  intros Hl. rewrite <- (take_drop b l) at 1. rewrite filter_app, filter_all, filter_none; [by rewrite app_nil_r| |].
  - apply Forall_lookup. intros i m Hi. rewrite lookup_drop in Hi. rewrite (Hl _ m Hi). lia.
  - apply Forall_lookup. intros i m Hi. apply lookup_take_Some in Hi as [Hi Hb]. rewrite (Hl i m Hi). lia.
Qed.

(** The page before message [b]: the last [k] of the first [b] messages. *)
Lemma page_spec log (b k : nat) limit :
  let l := all_messages 0 (ThreadLog.steps log) in
  (Z.of_nat (length l) <= i32_top)%Z -> Z.max (default 50%Z limit) 1 = Z.of_nat k -> b <= length l ->
  forall before, before = Some (Z.of_nat b + 1)%Z \/ (before = None /\ b = length l) ->
  history_page log before limit =
    (drop (b - k) (take b l), if decide (k < b) then Some (Z.of_nat (b - k) + 1)%Z else None).
Proof.
  intros l Hn Hk Hb before Hbefore. unfold history_page. fold l. rewrite Hk.
  assert (match before with Some b0 => filter (fun m => (hm_thread_seq m < b0)%Z) l | None => l end = take b l) as Hf.
  { destruct Hbefore as [->|[-> ->]]; [|by rewrite firstn_all].
    apply before_take. intros i m Hi. by apply (nth_seq (ThreadLog.steps log)). }
  rewrite Hf, length_take. replace (Nat.min b (length l)) with b by lia. rewrite as_i32_small by lia.
  destruct (decide (k < b)) as [Hlt|Hge].
  - replace (Z.of_nat k <? Z.of_nat b)%Z with true by lia.
    replace (Z.to_nat (Z.of_nat b - Z.of_nat k)) with (b - k) by lia. f_equal.
    destruct (lookup_lt_is_Some_2 l (b - k)) as [m Hm]; [lia|].
    rewrite (drop_S (take b l) m (b - k)) by (apply lookup_take_Some; split; [done|lia]).
    rewrite (nth_seq (ThreadLog.steps log) (b - k) m) by done.
    assert (1 <? Z.of_nat (b - k) + 1 = true)%Z as -> by (apply Z.ltb_lt; lia). done.
  - replace (Z.of_nat k <? Z.of_nat b)%Z with false by lia. by replace (b - k) with 0 by lia.
Qed.

Lemma pages_spec log (k : nat) limit fuel b before :
  let l := all_messages 0 (ThreadLog.steps log) in
  (Z.of_nat (length l) <= i32_top)%Z -> Z.max (default 50%Z limit) 1 = Z.of_nat k -> b <= length l -> b < fuel ->
  before = Some (Z.of_nat b + 1)%Z \/ (before = None /\ b = length l) ->
  concat (rev (pages fuel log before limit)) = take b l /\
  Forall (fun p => length p <= k) (pages fuel log before limit).
Proof.
  intros l Hn Hk. revert b before. induction fuel as [|fuel IH]; intros b before Hb Hf Hbefore; [lia|].
  cbn [pages]. rewrite (page_spec log b k limit) by done. fold l.
  assert (length (drop (b - k) (take b l)) <= k) as Hlen by (rewrite length_drop, length_take; lia).
  destruct (decide (k < b)) as [Hlt|Hge].
  - destruct (IH (b - k) (Some (Z.of_nat (b - k) + 1)%Z)) as [E1 E2]; [lia|lia|by left|].
    split; [|by constructor]. cbn [rev]. rewrite concat_app, E1. cbn [concat]. rewrite app_nil_r.
    rewrite <- (take_drop (b - k) (take b l)) at 2. f_equal. rewrite take_take. f_equal. lia.
  - split; [|by constructor]. cbn. rewrite app_nil_r. by replace (b - k) with 0 by lia.
Qed.

Definition assistant (m : HistoryMessage) : bool := bool_decide (hm_role m = Role.Assistant).

(** The answers a client has not seen. *)
Definition unseen (seen : Z) (l : list HistoryMessage) : list HistoryMessage :=
  filter (fun m => assistant m = true /\ (seen < hm_thread_seq m)%Z) l.

Lemma unread_loop_spec seen t c lst steps :
  (0 <= t)%Z -> (0 <= c <= t)%Z -> (t + Z.of_nat (length (all_messages t steps)) <= i32_top)%Z ->
  unread_loop seen t c lst steps =
    (match last (filter (fun m => assistant m = true) (all_messages t steps)) with
     | Some m => hm_thread_seq m | None => lst end,
     c + Z.of_nat (length (unseen seen (all_messages t steps))))%Z.
Proof.
  revert t c lst. unfold unseen. induction steps as [|s steps IH]; intros t c lst Ht Hc Hn.
  { cbn. by rewrite Z.add_0_r. }
  cbn [all_messages unread_loop] in *.
  assert (message_of s <> None -> next t = t + 1 /\ 0 <= t + 1 /\
    (t + 1) + Z.of_nat (length (all_messages (t + 1) steps)) <= i32_top)%Z as Hnext.
  { intros Hs. destruct (message_of s) as [[r x]|]; [|done]. cbn [length] in Hn.
    assert (next t = t + 1)%Z as Hnx by (unfold next; apply as_i32_small; lia). rewrite Hnx in *. lia. }
  destruct s; cbn [message_of] in *; try (by apply IH);
    destruct Hnext as (Hnx & H0 & H1); try done; rewrite Hnx in *.
  1: rewrite IH by lia; by rewrite !filter_cons_False by (cbn; naive_solver).
  all: rewrite (filter_cons_True (fun m => assistant m = true)) by done; rewrite last_cons; rewrite filter_cons;
    cbn [hm_thread_seq assistant hm_role].
  all: destruct (seen <? t + 1)%Z eqn:E; [apply Z.ltb_lt in E|apply Z.ltb_ge in E].
  all: (rewrite decide_True by (split; [by apply bool_decide_eq_true|done])) ||
       (rewrite decide_False by (intros [_ ?]; lia)).
  all: rewrite IH by (unfold next; rewrite ?as_i32_small; lia).
  all: apply f_equal2; [by destruct (last _)|cbn [length]; unfold next; rewrite ?as_i32_small by lia; lia].
Qed.
End pages.

(** C26: Pages of history, asked for from the last to the first, give the whole
    conversation once and in order, numbered from 1, each page of at most the
    limit; and the unread count of a thread is the number of answers in that
    history after the last one seen. *)
Theorem history_is_paged `{HSd : !Serde} (log : ThreadLog.t) (limit : option Z) (seen : Z) :
  let l := all_messages 0 (ThreadLog.steps log) in
  (Z.of_nat (length l) <= i32_top)%Z ->
  concat (rev (pages (S (length l)) log None limit)) = l /\
  Forall (fun p => Z.of_nat (length p) <= Z.max (default 50 limit) 1)%Z (pages (S (length l)) log None limit) /\
  map hm_thread_seq l = (fun i => Z.of_nat i + 1)%Z <$> seq 0 (length l) /\
  (compute_unread_for_log log seen).2 = Z.of_nat (length (unseen seen l)).
Proof.
  intros l Hn. set (k := Z.to_nat (Z.max (default 50%Z limit) 1)).
  destruct (pages_spec log k limit (S (length l)) (length l) None) as [E1 E2]; [done|unfold k; lia|done|lia|by right|].
  split_and!.
  - rewrite E1. apply firstn_all.
  - eapply Forall_impl; [exact E2|]. intros p Hp. cbn in Hp. lia.
  - pose proof (all_messages_seqs (ThreadLog.steps log) 0 ltac:(lia) Hn) as Hs. exact Hs.
  - unfold compute_unread_for_log. by rewrite unread_loop_spec by (lia || exact Hn).
Qed.

(** Four messages, two on a page. *)
Definition short_talk : ThreadLog.t :=
  let user n := ThreadStep.User n Observation.success "t" "a" in
  let ask n := ThreadStep.Interrupt "ask" n Observation.success "t" "a" in
  {| ThreadLog.schema_version := 4; ThreadLog.steps := [user "a"; ask "b"; user "c"; ask "d"];
     ThreadLog.result := None; ThreadLog.title := None; ThreadLog.title_locked := false |}.

Definition no_serde : Serde := {| to_vec _ := Err "unsupported"; from_slice _ := Err "unsupported" |}.

Lemma history_is_paged_witness :
  map (map hm_content) (pages (H := no_serde) 5 short_talk None (Some 2%Z)) = [["c"; "d"]; ["a"; "b"]] /\
  concat (rev (pages (H := no_serde) 5 short_talk None (Some 2%Z))) =
    all_messages (H := no_serde) 0 (ThreadLog.steps short_talk) /\
  (compute_unread_for_log short_talk 2).2 = 1%Z.
Proof.
  destruct (history_is_paged (HSd := no_serde) short_talk (Some 2%Z) 2) as (E & _ & _ & U); [vm_compute; discriminate|].
  split; [reflexivity|]. split; [exact E|]. rewrite U. reflexivity.
Defined.
