(* ===== verification/ThreadState.v ===== *)
(** * The state of a thread, for a client

    [src/src/transport/src/ws/thread_state.rs]: the snapshot built from the
    materialized state, the timeline, the suite's phases and the plans; the
    runs of each phase; the current and the completed phases.  The clock is
    read once per running item, and once for the phase that runs. *)

From stdpp Require Import base list strings gmap.
From Stdlib Require Import ZArith Lia.
From S2P Require Import Prelude.
From S2P Require Import RustStr.
From S2P Require Import Json.
From S2P Require Import Errors.
From S2P Require Import Scope.
From S2P Require Import Storage.
From S2P Require Import Caching.
From S2P Require Import SessionTypes.
From S2P Require Import ThreadStore.
From S2P Require Import Redaction.
From S2P Require Import Dates.
From S2P Require Import View.
From S2P Require Import Analysis.
From S2P Require Import Suites.
From S2P Require Import WsModels.
From S2P Require Import History.

(** The entries of a [BTreeMap], in the order of their keys. *)
Definition btree_iter {A} (m : gmap string A) : list (string * A) :=
  omap (fun k => (fun a => (k, a)) <$> m !! k) (sort_strings (elements (dom m))).

(** [to_value] of a [HashMap]. *)
Definition map_json (m : HashMap) : Value := json_obj (map_to_list (m : gmap string Value)).

Definition object_map (v : option Value) : option HashMap := to_map <$> (v ≫= as_object).

(** ** Plans *)

Definition map_task_status_to_item_status (s : PlanTaskStatus.t) : ThreadItemStatus.t :=
  match s with
  | PlanTaskStatus.Pending => ThreadItemStatus.Queued
  | PlanTaskStatus.InProgress => ThreadItemStatus.Running
  | PlanTaskStatus.Done => ThreadItemStatus.Ok
  | PlanTaskStatus.Blocked | PlanTaskStatus.NeedsUpdate => ThreadItemStatus.Blocked
  end.

Definition needs_attention (i : PlanChecklistItem) : bool :=
  match ci_status i with PlanTaskStatus.NeedsUpdate | PlanTaskStatus.Blocked => true | _ => false end.

Definition task_error_from_checklist (cl : list PlanChecklistItem) : option string :=
  match find needs_attention cl with
  | None => None
  | Some it =>
      let details := trim (default EmptyString (ci_details it)) in
      Some (if str_is_empty details then ci_label it else ci_label it +:+ ": " +:+ details)
  end.

(** [*counts.entry(k).or_insert(0) += 1] *)
Definition count_status (counts : list (string * Value)) (t : PlanTask) : list (string * Value) :=
  let k := PlanTaskStatus.debug_lower (pt_status t) in
  btree_insert k (num (match assoc_get k counts ≫= as_u64 with Some n => n + 1 | None => 1 end)) counts.

Definition plan_summary (p : PlanSnapshot) : Value :=
  json_obj [("planKey", VString (WsModels.plan_key p)); ("status", VString (PlanStatus.debug_lower (ps_status p)));
            ("taskCounts", VObject (fold_left count_status (tasks p) []))].

Definition summary_kind (p : PlanSnapshot) : string :=
  if is_blank (WsModels.plan_kind p) then "plan" else WsModels.plan_kind p.

Definition plan_summaries_of (plans : list PlanSnapshot) : HashMap :=
  fold_left (fun (m : gmap string Value) p => <[summary_kind p := plan_summary p]> m) plans ∅.

Definition opt_string (o : option string) : Value :=
  match o with Some s => VString s | None => VNull end.

Definition task_item (p : PlanSnapshot) (t : PlanTask) : WsItem.t :=
  {| WsItem.item_id := "task:plan:" +:+ WsModels.plan_key p +:+ ":" +:+ WsModels.task_id t;
     WsItem.kind := "task";
     WsItem.status := ThreadItemStatus.as_str (map_task_status_to_item_status (pt_status t));
     WsItem.started_at := None; WsItem.finished_at := None; WsItem.runtime_ms := None;
     WsItem.last_error := (fun err => {| WsItemError.summary := err; WsItemError.tool_step_idx := None;
                                         WsItemError.step_ts := None |})
                          <$> task_error_from_checklist (checklist t);
     WsItem.outputs := Some (to_map [("task_kind", opt_string (task_kind t)); ("label", opt_string (pt_label t));
                                     ("details", from_option map_json VNull (pt_details t))]) |}.

Definition task_items (plans : list PlanSnapshot) : list WsItem.t :=
  concat (map (fun p => map (task_item p) (tasks p)) plans).

(** ** Phases *)

Section phases.
Context `{HD : !Rfc3339}.

(** [(end - start).num_milliseconds().max(0)] *)
Definition run_ms (start_ts end_ts : string) : option Z :=
  match parse_from_rfc3339 start_ts, parse_from_rfc3339 end_ts with
  | Some a, Some b => Some (Z.max (num_milliseconds a b) 0)
  | _, _ => None
  end.

Definition end_run (ts : string) (r : PhaseRun.t) : PhaseRun.t :=
  match PhaseRun.ended_at r with
  | Some _ => r
  | None => {| PhaseRun.started_at := PhaseRun.started_at r; PhaseRun.ended_at := Some ts;
               PhaseRun.runtime_ms := run_ms (PhaseRun.started_at r) ts |}
  end.

(** [v.last_mut()], ended when it is open. *)
Fixpoint end_last (ts : string) (v : list PhaseRun.t) : list PhaseRun.t :=
  match v with
  | [] => []
  | [r] => [end_run ts r]
  | r :: v => r :: end_last ts v
  end.

Definition phase_runs_step (runs : gmap string (list PhaseRun.t)) (step : ThreadStep.t)
  : gmap string (list PhaseRun.t) :=
  match step with
  | ThreadStep.Phase phase from_phase _ _ _ ts _ =>
      let runs := match named from_phase with Some prev => alter (end_last ts) prev runs | None => runs end in
      let ph := trim phase in
      if str_is_empty ph then runs
      else <[ph := end_last ts (default [] (runs !! ph)) ++ [PhaseRun.new ts]]> runs
  | _ => runs
  end.

Definition phase_runs_from_steps (steps : list ThreadStep.t) : gmap string (list PhaseRun.t) :=
  fold_left phase_runs_step steps ∅.
End phases.

Definition total_completed_runtime_ms (runs : list PhaseRun.t) : Z :=
  fold_left (fun acc r => from_option (fun ms => as_i64 (acc + ms)) acc (PhaseRun.runtime_ms r)) runs 0%Z.

Definition derive_current_phase_from_steps (steps : list ThreadStep.t) : string :=
  default DEFAULT_INITIAL_PHASE (ThreadLog.last_phase (rev steps)).

Definition phase_at_step_idx (steps : list ThreadStep.t) (idx : nat) : option string :=
  match steps with
  | [] => None
  | _ => Some (derive_current_phase_from_steps (take (S (Nat.min idx (length steps - 1))) steps))
  end.

(** The index of the current phase in the order; its first one otherwise. *)
Fixpoint index_of (current : string) (order : list string) : option nat :=
  match order with
  | [] => None
  | p :: order => if String.eqb p current then Some 0 else S <$> index_of current order
  end.

(** The loop over the items. *)
Fixpoint completed_items (items : list (string * Item.t)) (completed : list string) : list string :=
  match items with
  | [] => completed
  | (key, it) :: items =>
      match strip_prefix key "phase:" with
      | Some phase_name =>
          if (match Item.status it with ThreadItemStatus.Ok => true | _ => false end)
             && negb (existsb (String.eqb phase_name) completed)
          then completed_items items (completed ++ [phase_name])
          else completed_items items completed
      | None => completed_items items completed
      end
  end.

Definition derive_completed_phases (order : list string) (current : string) (items : gmap string Item.t)
  : list string :=
  match order with
  | [] => []
  | _ => completed_items (btree_iter items) (take (default 0 (index_of current order)) order)
  end.

(** ** Events *)

Definition ws_event (ev : ThreadEvent) : WsEvent.t :=
  {| WsEvent.step_idx := as_i32 (Z.of_nat (te_step_idx ev));
     WsEvent.event_kind := map_thread_event_kind (te_event_kind ev);
     WsEvent.ts := te_ts ev; WsEvent.tool_id := te_tool_id ev; WsEvent.name := te_name ev;
     WsEvent.clean_name := te_clean_name ev;
     WsEvent.status := (fun s => map_tool_event_status (Some s)) <$> te_status ev;
     WsEvent.runtime_ms := as_i64 <$> te_runtime_ms ev;
     WsEvent.payload := object_map (te_payload ev);
     WsEvent.error := te_error ev;
     WsEvent.call_id := as_i32 <$> te_call_id ev;
     WsEvent.model := te_model ev; WsEvent.phase := te_phase ev;
     WsEvent.ctx := map_exec_ctx <$> te_ctx ev |}.

(** ** The snapshot *)

Section snapshot.
Context {W : Type} `{HD : !Rfc3339, HU : !UtcClock W}.

Definition elapsed_ms_since (start_ts : string) : W -> option Z * W :=
  fun w => match parse_from_rfc3339 start_ts with
           | None => (None, w)
           | Some start => let '(now, w) := utc_now w in (Some (Z.max (num_milliseconds start now) 0), w)
           end.

(** The runtime of an item: the one it has, or the time since it started. *)
Definition item_runtime (it : Item.t) : W -> option Z * W :=
  match as_i64 <$> Item.runtime_ms it, Item.started_at it, Item.finished_at it with
  | None, Some started, None => elapsed_ms_since started
  | ms, _, _ => fun w => (ms, w)
  end.

Definition ws_item (item_id : string) (it : Item.t) : W -> WsItem.t * W :=
  fun w =>
    let '(ms, w) := item_runtime it w in
    ({| WsItem.item_id := item_id;
        WsItem.kind := ThreadItemKind.as_str (Item.kind it);
        WsItem.status := ThreadItemStatus.as_str (Item.status it);
        WsItem.started_at := Item.started_at it; WsItem.finished_at := Item.finished_at it;
        WsItem.runtime_ms := ms;
        WsItem.last_error := (fun e => {| WsItemError.summary := View.summary e;
                                          WsItemError.tool_step_idx := (fun n => as_i32 (Z.of_nat n)) <$> tool_step_idx e;
                                          WsItemError.step_ts := step_ts e |}) <$> Item.last_error it;
        WsItem.outputs := object_map (Item.outputs it) |}, w).

Fixpoint ws_items (l : list (string * Item.t)) : W -> list WsItem.t * W :=
  match l with
  | [] => fun w => ([], w)
  | (id, it) :: l => fun w => let '(i, w) := ws_item id it w in
                              let '(rest, w) := ws_items l w in (i :: rest, w)
  end.

(** [items.sort_by(|a, b| a.item_id.cmp(&b.item_id))] *)
Definition by_id (a b : WsItem.t) : Prop := str_le (WsItem.item_id a) (WsItem.item_id b).

#[global] Instance by_id_dec : RelDecision by_id.
Proof. intros a b. unfold by_id. apply _. Defined.

(** The time the current phase has been running. *)
Definition running_ms (st : ViewCache.t) : W -> Z * W :=
  match ViewCache.current_phase st with
  | Some cur =>
      match ViewCache.items st !! ViewCache.phase_key cur with
      | Some it =>
          match Item.finished_at it, Item.started_at it with
          | None, Some started => fun w => let '(ms, w) := elapsed_ms_since started w in (default 0%Z ms, w)
          | _, _ => fun w => (0%Z, w)
          end
      | None => fun w => (0%Z, w)
      end
  | None => fun w => (0%Z, w)
  end.

Definition ws_thread_state_snapshot_from_core (st : ViewCache.t) (timeline_events : list ThreadEvent)
  (reg : SuiteRegistry W) (plans : list PlanSnapshot) : W -> Snapshot.t * W :=
  fun w =>
    let '(items, w) := ws_items (btree_iter (ViewCache.items st)) w in
    let items := sort_by by_id (items ++ task_items plans) in
    let '(running, w) := running_ms st w in
    let total := as_i64 (as_i64 (ViewCache.total_runtime_ms st) + running) in
    let suite_id := default EmptyString (ViewCache.suite_id st) in
    let agent_type := default DEFAULT_AGENT_TYPE (ViewCache.agent_type st) in
    let phases := match Registry.get reg suite_id with Some s => phase_order s agent_type | None => [] end in
    let current_phase := default DEFAULT_INITIAL_PHASE (ViewCache.current_phase st) in
    let summaries := plan_summaries_of plans in
    ({| Snapshot.thread_state_schema_version := as_i32 (ViewCache.thread_state_schema_version st);
        Snapshot.thread_id := ViewCache.thread_id st;
        Snapshot.suite_id := ViewCache.suite_id st;
        Snapshot.agent_type := ViewCache.agent_type st;
        Snapshot.current_phase := ViewCache.current_phase st;
        Snapshot.last_materialized_step_count := as_i32 (Z.of_nat (ViewCache.last_materialized_step_count st));
        Snapshot.total_runtime_ms := Z.max total 0;
        Snapshot.phases := phases;
        Snapshot.completed_phases := derive_completed_phases phases current_phase (ViewCache.items st);
        Snapshot.events := map ws_event timeline_events;
        Snapshot.items := items;
        Snapshot.plan_summaries := if decide ((summaries : gmap string Value) = ∅) then None else Some summaries |}, w).
End snapshot.

(** ** Reading the log *)

Section readers.
Context {St K : Type} `{HSt : !StorageAdapter St, HT : !Timer St, HK : !Keyspace K,
  HC : !Codec ThreadLog.t, HD : !Rfc3339}.
Variables (scope : RequestScope) (keyspace : K).

Definition load_materialized_state (thread_id : string) : ThreadStore St -> option ViewCache.t * ThreadStore St :=
  fun s => let '(r, s) := get_log scope keyspace thread_id s in
           (match r with Ok log => Some (materialize_state_from_log thread_id log) | Err _ => None end, s).

Definition load_timeline_events (thread_id : string) : ThreadStore St -> list ThreadEvent * ThreadStore St :=
  fun s => let '(r, s) := get_log scope keyspace thread_id s in
           (match r with Ok log => build_thread_events_from_log log 500 | Err _ => [] end, s).

(** [log_thread_steps_if_enabled]: what it prints is left out. *)
Definition log_thread_steps_if_enabled `{!UnicodeLower} (env : string -> option string) (thread_id : string)
  : ThreadStore St -> ThreadStore St :=
  fun s => if env_truthy env "REACT_LOG_THREAD_STEPS" then (get_log scope keyspace thread_id s).2 else s.
End readers.

(** ** The runs of a phase *)

(** The time of a step that enters phase [ph]. *)
Definition visit (ph : string) (step : ThreadStep.t) : option string :=
  match step with
  | ThreadStep.Phase phase _ _ _ _ ts _ =>
      if negb (is_blank phase) && String.eqb (trim phase) ph then Some ts else None
  | _ => None
  end.

Definition ended (r : PhaseRun.t) : Prop := is_Some (PhaseRun.ended_at r).

(** All runs but the last have ended. *)
Definition settled (l : list PhaseRun.t) : Prop := Forall ended (removelast l).

(** A runtime is that of a run that has ended, and not negative. *)
Definition timed (r : PhaseRun.t) : Prop :=
  forall ms, PhaseRun.runtime_ms r = Some ms -> ended r /\ (0 <= ms)%Z.

Section runs.
Context `{HD : !Rfc3339}.

Lemma end_run_ended ts r : ended (end_run ts r).
Proof. unfold end_run, ended. by destruct (PhaseRun.ended_at r) eqn:E; rewrite ?E. Qed.

Lemma end_run_timed ts r : timed r -> timed (end_run ts r).
Proof.
  intros H. unfold end_run. destruct (PhaseRun.ended_at r); [done|]. intros ms. cbn. unfold run_ms.
  repeat case_match; try done. intros [= <-]. unfold ended. cbn. split; [by eexists|lia].
Qed.

Lemma end_last_spec ts l :
  map PhaseRun.started_at (end_last ts l) = map PhaseRun.started_at l /\
  (settled l -> Forall ended (end_last ts l)) /\ (Forall timed l -> Forall timed (end_last ts l)).
Proof.
  induction l as [|r l (E & H1 & H2)]; [by repeat split; constructor|].
  destruct l as [|r' l].
  - cbn [end_last map]. split_and!.
    + unfold end_run. by destruct (PhaseRun.ended_at r).
    + intros _. apply Forall_singleton, end_run_ended.
    + rewrite !Forall_singleton. apply end_run_timed.
  - change (end_last ts (r :: r' :: l)) with (r :: end_last ts (r' :: l)). split_and!.
    + cbn [map]. f_equal. exact E.
    + intros Hs. unfold settled in Hs. change (removelast (r :: r' :: l)) with (r :: removelast (r' :: l)) in Hs.
      apply Forall_cons in Hs as [Hr Hs]. constructor; [done|by apply H1].
    + intros [Hr Hl]%Forall_cons. constructor; [done|by apply H2].
Qed.

Lemma settled_ended l : Forall ended l -> settled l.
Proof.
  unfold settled. induction l as [|r l IH]; [constructor|]. intros [Hr Hl]%Forall_cons.
  destruct l; [constructor|]. constructor; [done|by apply IH].
Qed.

(** What is known of the runs of each phase. *)
Definition runs_ok (steps : list ThreadStep.t) (runs : gmap string (list PhaseRun.t)) : Prop :=
  forall ph, let l := default [] (runs !! ph) in
  map PhaseRun.started_at l = omap (visit ph) steps /\ settled l /\ Forall timed l.

Lemma runs_ok_alter steps runs ts prev :
  runs_ok steps runs -> runs_ok steps (alter (end_last ts) prev runs).
Proof.
  intros H ph. specialize (H ph). cbn zeta in *. destruct (decide (prev = ph)) as [->|].
  - rewrite lookup_alter_eq. destruct (runs !! ph) as [l|]; [|done]. cbn in *.
    destruct (end_last_spec ts l) as (E & H1 & H2). destruct H as (Hm & Hs & Ht).
    split_and!; [by rewrite E|by apply settled_ended, H1|by apply H2].
  - by rewrite lookup_alter_ne.
Qed.

Lemma runs_ok_step steps runs step : runs_ok steps runs -> runs_ok (steps ++ [step]) (phase_runs_step runs step).
Proof.
  intros H. assert (forall ph, visit ph step = None -> omap (visit ph) (steps ++ [step]) = omap (visit ph) steps) as Hno.
  { intros ph Hv. rewrite omap_app. cbn. rewrite Hv. apply app_nil_r. }
  destruct step; try (intros ph; cbn [phase_runs_step]; rewrite (Hno ph) by done; apply H).
  cbn [phase_runs_step].
  assert (runs_ok steps (match named from_phase with Some prev => alter (end_last ts) prev runs | None => runs end)) as H1
    by (destruct (named from_phase); [by apply runs_ok_alter|done]).
  revert H1. generalize (match named from_phase with Some prev => alter (end_last ts) prev runs | None => runs end).
  intros runs1 H1. unfold is_blank in *. destruct (str_is_empty (trim phase)) eqn:Eb.
  { intros ph. rewrite (Hno ph); [apply H1|]. cbn. unfold is_blank. by rewrite Eb. }
  intros ph. destruct (decide (trim phase = ph)) as [<-|Hne].
  - specialize (H1 (trim phase)). cbn zeta in *. rewrite lookup_insert_eq.
    repeat match goal with |- context [default [] (Some ?x)] => change (default [] (Some x)) with x end.
    destruct (end_last_spec ts (default [] (runs1 !! trim phase))) as (E & He & Ht). destruct H1 as (Hm & Hs & Htm).
    rewrite omap_app, map_app, E, Hm. cbn. unfold is_blank. rewrite Eb, String.eqb_refl. split_and!; [done| |].
    + unfold settled. rewrite removelast_last. by apply He.
    + apply Forall_app. split; [by apply Ht|]. by repeat constructor.
  - rewrite lookup_insert_ne by done. rewrite (Hno ph); [apply H1|]. cbn. unfold is_blank. rewrite Eb. cbn.
    by rewrite (proj2 (String.eqb_neq _ _)).
Qed.
End runs.

(** C27: The runs told of a phase are its visits, one run per step that enters it,
    starting when that step was logged; only the last can be open, and a
    runtime belongs to a run that has ended and is not negative. *)
Theorem phase_runs_are_the_visits `{HD : !Rfc3339} (steps : list ThreadStep.t) (ph : string) :
  let runs := default [] (phase_runs_from_steps steps !! ph) in
  map PhaseRun.started_at runs = omap (visit ph) steps /\ settled runs /\ Forall timed runs.
Proof.
  cbn zeta. enough (runs_ok steps (phase_runs_from_steps steps)) as H by apply H.
  unfold phase_runs_from_steps. induction steps as [|step steps IH] using rev_ind.
  { intros p. by repeat constructor. }
  rewrite fold_left_app. by apply runs_ok_step.
Qed.
