(* ===== verification/Connection.v ===== *)
(** * A client's connection

    [src/src/transport/src/ws/conn_state.rs]: what a connection remembers,
    how it numbers and buffers messages, and how it finds the suite and the
    agent of a thread; [emit_ws] of [suite_runner.rs], [event_hub.rs] and the
    sink of [terminal.rs], which tell a message to the subscribers, the
    terminal and the socket.  Texts handed to the socket, events published and
    events shown are lists in the order they were sent: nobody reads them
    back.  What a connection never changes is [Server]. *)

From stdpp Require Import base list strings gmap.
From Stdlib Require Import ZArith Lia.
From S2P Require Import Prelude.
From S2P Require Import RustStr.
From S2P Require Import Json.
From S2P Require Import Errors.
From S2P Require Import Scope.
From S2P Require Import Storage.
From S2P Require Import Caching.
From S2P Require Import SessionTypes.
From S2P Require Import ThreadStore.
From S2P Require Import ControlState.
From S2P Require Import Dates.
From S2P Require Import Suites.
From S2P Require Import WsModels.
From S2P Require Import History.

Definition SENT_BUFFER_CAPACITY : nat := 500.

Module TerminalEvent.
Inductive t : Type :=
| Info (s : string)
| Shutdown
| ThreadState (state : Snapshot.t)
| Plans (thread_id : string) (plans : list PlanSnapshot)
| SubprocessProgress (label detail : string)
| PlansChanged (r : PlansChangedResponse)
| Phase (r : PhaseResponse)
| ToolStart (r : ToolStartResponse)
| ToolEnd (r : ToolEndResponse)
| LlmStart (r : LlmStartResponse)
| LlmEnd (r : LlmEndResponse)
| RawJson (s : string).
End TerminalEvent.

Record Server (W K : Type) : Type := {
  reg : SuiteRegistry W;
  srv_scope : RequestScope;
  srv_keyspace : K;
  srv_env : string -> option string;
  has_terminal : bool;
  has_hub : bool;
  (** [vs.delete_thread_embeddings] of the context's vector store *)
  delete_embeddings : option (string -> W -> W)
}.
Arguments reg {W K} _.
Arguments srv_scope {W K} _.
Arguments srv_keyspace {W K} _.
Arguments srv_env {W K} _ _.
Arguments has_terminal {W K} _.
Arguments has_hub {W K} _.
Arguments delete_embeddings {W K} _.

Record Memory : Type := {
  m_seq : Z;
  m_sent : list (Z * string);
  m_thread_seq : gmap string Z;
  m_seen : gmap string Z;
  m_current_suite : gmap string string;
  m_current_agent : gmap string string
}.

(** [ConnState], in a world [W], with what it has told. *)
Record ConnState (W : Type) : Type := mkConn {
  world : W;
  memory : Memory;
  wire : list string;
  published : list ServerMessage.t;
  shown : list TerminalEvent.t
}.
Arguments mkConn {W} _ _ _ _ _.
Arguments world {W} _.
Arguments memory {W} _.
Arguments wire {W} _.
Arguments published {W} _.
Arguments shown {W} _.

Definition new_memory : Memory :=
  {| m_seq := 0; m_sent := []; m_thread_seq := ∅; m_seen := ∅; m_current_suite := ∅; m_current_agent := ∅ |}.

Definition new_conn {W} (w : W) : ConnState W := mkConn w new_memory [] [] [].

Definition default_suite_id {W} (r : SuiteRegistry W) : option string := head (Registry.list_ids r).

Definition build_suites_catalog {W} (r : SuiteRegistry W) : list SuiteInfo :=
  omap (fun id => (fun s => {| si_suite_id := id; si_label := Some (label s);
                               allowed_agent_types := supported_agent_types s;
                               si_default_agent_type := Some (default_agent_type s) |}) <$> Registry.get r id)
    (Registry.list_ids r).

Definition normalize_agent (a : AgentType.t) : string :=
  match a with
  | AgentType.Ask => "ask" | AgentType.Agent => "agent" | AgentType.Review => "review" | AgentType.Kb => "kb"
  end.

(** The loop of [resolve_thread_context] over the steps, the last one first. *)
Fixpoint scan_switches (rev_steps : list ThreadStep.t) (suite agent : string) : string * string :=
  match rev_steps with
  | [] => (suite, agent)
  | step :: rest =>
      let '(suite, agent) :=
        match step with
        | ThreadStep.SwitchSuite _ to_ _ _ _ =>
            if is_blank suite && negb (is_blank to_) then (to_, agent) else (suite, agent)
        | ThreadStep.SwitchAgent _ to_ _ _ _ =>
            if is_blank agent && negb (is_blank to_) then (suite, to_) else (suite, agent)
        | _ => (suite, agent)
        end in
      if negb (is_blank suite) && negb (is_blank agent) then (suite, agent)
      else scan_switches rest suite agent
  end.

(** [from_value::<api::PlanSnapshot>(v).ok()] *)
Class PlanReader := read_plan : Value -> option PlanSnapshot.

(** The [i64] of a number. *)
Definition value_i64 (v : Value) : option Z :=
  match v with
  | VNumber (PosInt n) => if (n <=? 9223372036854775807)%Z then Some n else None
  | VNumber (NegInt n) => Some n
  | _ => None
  end.

Section conn.
Context {W K : Type} `{HSd : !Serde, HSt : !StorageAdapter W, HT : !Timer W, HK : !Keyspace K,
  HC : !Codec ThreadLog.t, HE : !Codec ControlStateEnvelope, HU : !UtcClock W, HR : !ToRfc3339,
  HP : !PlanReader}.
Variable srv : Server W K.

Notation C := (ConnState W).

Definition set_memory (f : Memory -> Memory) (c : C) : C :=
  mkConn (world c) (f (memory c)) (wire c) (published c) (shown c).

Definition in_world {E A} (f : W -> A * W) : Act C E A :=
  fun c => let '(a, w) := f (world c) in (Ok a, mkConn w (memory c) (wire c) (published c) (shown c)).

(** [state.log_reader()]: a fresh store; what it caches goes with it. *)
Definition with_reader {E A} (f : ThreadStore W -> A * ThreadStore W) : Act C E A :=
  in_world (fun w => let '(a, s) := f (new w) in (a, storage s)).

(** [.map_err(|e| e.to_string())?] of an operation of a writer or a reader. *)
Definition with_store {A} (m : Op (ThreadStore W) A) : Act C string A :=
  do! r <- with_reader m; act_lift (res_map_err CoreError.display r).

Definition conn_now {E} : Act C E string := in_world now_iso.

Definition remember {E} (f : Memory -> Memory) : Act C E unit := fun c => (Ok tt, set_memory f c).

Definition with_seq (n : Z) (m : Memory) : Memory :=
  {| m_seq := n; m_sent := m_sent m; m_thread_seq := m_thread_seq m; m_seen := m_seen m;
     m_current_suite := m_current_suite m; m_current_agent := m_current_agent m |}.
Definition with_sent (l : list (Z * string)) (m : Memory) : Memory :=
  {| m_seq := m_seq m; m_sent := l; m_thread_seq := m_thread_seq m; m_seen := m_seen m;
     m_current_suite := m_current_suite m; m_current_agent := m_current_agent m |}.
Definition with_thread_seq (tid : string) (n : Z) (m : Memory) : Memory :=
  {| m_seq := m_seq m; m_sent := m_sent m; m_thread_seq := <[tid := n]> (m_thread_seq m); m_seen := m_seen m;
     m_current_suite := m_current_suite m; m_current_agent := m_current_agent m |}.
Definition with_seen (tid : string) (n : Z) (m : Memory) : Memory :=
  {| m_seq := m_seq m; m_sent := m_sent m; m_thread_seq := m_thread_seq m; m_seen := <[tid := n]> (m_seen m);
     m_current_suite := m_current_suite m; m_current_agent := m_current_agent m |}.
Definition with_suite (tid s : string) (m : Memory) : Memory :=
  {| m_seq := m_seq m; m_sent := m_sent m; m_thread_seq := m_thread_seq m; m_seen := m_seen m;
     m_current_suite := <[tid := s]> (m_current_suite m); m_current_agent := m_current_agent m |}.
Definition with_agent (tid a : string) (m : Memory) : Memory :=
  {| m_seq := m_seq m; m_sent := m_sent m; m_thread_seq := m_thread_seq m; m_seen := m_seen m;
     m_current_suite := m_current_suite m; m_current_agent := <[tid := a]> (m_current_agent m) |}.

Definition next_seq {E} : Act C E Z :=
  fun c => let n := as_i32 (m_seq (memory c) + 1) in (Ok n, set_memory (with_seq n) c).

Definition next_thread_seq {E} (thread_id : string) : Act C E Z :=
  fun c => let n := as_i32 (default 0%Z (m_thread_seq (memory c) !! thread_id) + 1) in
           (Ok n, set_memory (with_thread_seq thread_id n) c).

(** The number a text is buffered under. *)
Definition text_seq (json : string) : option Z :=
  match from_slice json with
  | Ok v => as_i32 <$> (Json.get v "seq" ≫= value_i64)
  | Err _ => None
  end.

Definition push_sent (n : Z) (json : string) (m : Memory) : Memory :=
  with_sent (last_n SENT_BUFFER_CAPACITY (m_sent m ++ [(n, json)])) m.

Definition buffer_last {E} (json : string) : Act C E unit :=
  match text_seq json with
  | Some n => remember (push_sent n json)
  | None => act_ret tt
  end.

(** [write.send(Message::Text(s)).await]; whether it arrives is not looked at. *)
Definition send {E} (s : string) : Act C E unit :=
  fun c => (Ok tt, mkConn (world c) (memory c) (wire c ++ [s]) (published c) (shown c)).

Definition term_emit {E} (ev : TerminalEvent.t) : Act C E unit :=
  fun c => (Ok tt, if has_terminal srv
                   then mkConn (world c) (memory c) (wire c) (published c) (shown c ++ [ev]) else c).

Definition hub_emit {E} (m : ServerMessage.t) : Act C E unit :=
  fun c => (Ok tt, if has_hub srv
                   then mkConn (world c) (memory c) (wire c) (published c ++ [m]) (shown c) else c).

(** What the terminal shows of a message. *)
Definition terminal_event (m : ServerMessage.t) : option TerminalEvent.t :=
  match m with
  | ServerMessage.ThreadState _ state => Some (TerminalEvent.ThreadState state)
  | ServerMessage.Plans h plans => Some (TerminalEvent.Plans (eh_thread_id h) plans)
  | ServerMessage.PlansChanged r => Some (TerminalEvent.PlansChanged r)
  | ServerMessage.Phase r => Some (TerminalEvent.Phase r)
  | ServerMessage.ToolStart r => Some (TerminalEvent.ToolStart r)
  | ServerMessage.ToolEnd r => Some (TerminalEvent.ToolEnd r)
  | ServerMessage.LlmStart r => Some (TerminalEvent.LlmStart r)
  | ServerMessage.LlmEnd r => Some (TerminalEvent.LlmEnd r)
  | _ => None
  end.

Definition emit_ws {E} (m : ServerMessage.t) : Act C E unit :=
  do! _ <- hub_emit m;
  do! _ <- match terminal_event m with Some ev => term_emit ev | None => act_ret tt end;
  match to_vec (ServerMessage.value m) with
  | Ok s => do! _ <- buffer_last s; send s
  | Err _ => act_ret tt
  end.

(** The suite the control state names, when it is not blank. *)
Definition stored_suite {E} (thread_id suite : string) : Act C E string :=
  if is_blank suite then
    do! r <- in_world (load_suite_id (srv_scope srv) (srv_keyspace srv) thread_id);
    act_ret match r with
            | Ok (Some sid) => if is_blank sid then suite else sid
            | _ => suite
            end
  else act_ret suite.

(** The suite and the agent the log last switched to, for those still blank. *)
Definition logged_switches {E} (thread_id suite agent : string) : Act C E (string * string) :=
  if is_blank suite || is_blank agent then
    do! r <- with_reader (get_log (srv_scope srv) (srv_keyspace srv) thread_id);
    act_ret match r with
            | Ok log => scan_switches (rev (ThreadLog.steps log)) suite agent
            | Err _ => (suite, agent)
            end
  else act_ret (suite, agent).

(** [resolve_thread_context] when the memory does not have both. *)
Definition resolve_stored {E} (thread_id suite agent : string) : Act C E (string * string) :=
  do! suite <- stored_suite thread_id suite;
  do! (suite, agent) <- logged_switches thread_id suite agent;
  let suite := if is_blank suite then default EmptyString (default_suite_id (reg srv)) else suite in
  let agent := if is_blank agent then DEFAULT_AGENT_TYPE else agent in
  do! _ <- remember (fun m => with_agent thread_id agent (with_suite thread_id suite m));
  act_ret (suite, agent).

Definition resolve_thread_context {E} (thread_id : string) : Act C E (string * string) :=
  fun c =>
    let cached_suite := m_current_suite (memory c) !! thread_id in
    let cached_agent := m_current_agent (memory c) !! thread_id in
    match cached_suite, cached_agent with
    | Some s, Some a =>
        if negb (is_blank s) && negb (is_blank a) then (Ok (s, a), c)
        else resolve_stored thread_id s a c
    | _, _ => resolve_stored thread_id (default EmptyString cached_suite) (default EmptyString cached_agent) c
    end.

Definition resolve_suite_id_for_thread {E} (thread_id : string) : Act C E string :=
  do! r <- resolve_thread_context thread_id; act_ret r.1.

Definition load_latest_plans {E} (suite_id thread_id : string) : Act C E (list PlanSnapshot) :=
  match Registry.get (reg srv) suite_id with
  | Some suite =>
      do! r <- in_world (load_ws_plans suite thread_id);
      act_ret (omap read_plan match r with Ok l => l | Err _ => [] end)
  | None => act_ret []
  end.
End conn.
