(* ===== verification/Streaming.v ===== *)
(** * Streaming a run

    [src/src/transport/src/ws/suite_runner.rs]: while a suite works on a
    thread in a task of its own, the connection tells the client what changes:
    plans, the steps that reach the log, the state of the thread; and when the
    task ends, what it ended with.  [tokio::select!] takes whichever of its
    branches is ready, so a run is driven by a schedule: ticks, what others do
    to the world in between (the task included), and the end of the task. *)

From stdpp Require Import base list strings gmap.
From Stdlib Require Import ZArith Lia.
From S2P Require Import Prelude.
From S2P Require Import RustStr.
From S2P Require Import Json.
From S2P Require Import Errors.
From S2P Require Import Interrupt.
From S2P Require Import Budget.
From S2P Require Import Scope.
From S2P Require Import Storage.
From S2P Require Import Caching.
From S2P Require Import SessionTypes.
From S2P Require Import ThreadStore.
From S2P Require Import ControlState.
From S2P Require Import Redaction.
From S2P Require Import Dates.
From S2P Require Import View.
From S2P Require Import Suites.
From S2P Require Import WsModels.
From S2P Require Import History.
From S2P Require Import ThreadState.
From S2P Require Import Connection.

Module AgentFrame.
Inductive t : Type :=
| Final (kind : string) (payload : Value) (display : option string)
| Review (text : string) (meta : option Value)
| AwaitUser (prompt : string)
| AwaitApproval (prompt : string).
End AgentFrame.

Module SuiteRunKind.
Inductive t : Type := New | Open | User.
End SuiteRunKind.

(** The closure [convert]. *)
Definition convert (ff : FlowFrame.t) : AgentFrame.t :=
  match ff with
  | FlowFrame.Complete kind payload display => AgentFrame.Final (flow_kind kind) payload display
  | FlowFrame.Review text meta => AgentFrame.Review text meta
  | FlowFrame.Checkpoint kind payload display => AgentFrame.Review (default (flow_kind kind) display) (Some payload)
  | FlowFrame.Interrupt kind prompt =>
      if String.eqb (flow_kind kind) "await_approval" then AgentFrame.AwaitApproval prompt
      else AgentFrame.AwaitUser prompt
  end.

(** ** The policy of a run *)

(** [Arc<dyn InterruptPolicy>] *)
Inductive DynPolicy : Type := DynWs | DynAutoApprove | DynReject.

#[global] Instance DynPolicy_eq_dec : EqDecision DynPolicy.
Proof. solve_decision. Defined.

#[global] Instance dyn_policy : InterruptPolicy DynPolicy := {|
  on_await_user p := match p with
                     | DynWs => on_await_user Ws | DynAutoApprove => on_await_user AutoApproves
                     | DynReject => on_await_user Rejects
                     end;
  on_await_approval p := match p with
                         | DynWs => on_await_approval Ws | DynAutoApprove => on_await_approval AutoApproves
                         | DynReject => on_await_approval Rejects
                         end;
  on_review p := match p with
                 | DynWs => on_review Ws | DynAutoApprove => on_review AutoApproves
                 | DynReject => on_review Rejects
                 end
|}.

Definition build_interrupt_policy (env : string -> option string) (terminal : bool) (cid : string) : DynPolicy :=
  let headless := env_bool env "REACT_HEADLESS" false || terminal in
  let ide_chat := match env "SKIPPR_EXECUTION_SURFACE" with Some v => String.eqb v "ide_chat" | None => false end in
  if ide_chat then DynWs
  else if String.eqb cid "headless" || headless then
    if env_bool env "REACT_HEADLESS_AUTO_APPROVE" false then DynAutoApprove else DynReject
  else DynWs.

(** ** The fingerprint of a plan *)

Definition by_key {A} (key : A -> string) (a b : A) : Prop := str_le (key a) (key b).

#[global] Instance by_key_dec {A} (key : A -> string) : RelDecision (by_key key).
Proof. intros a b. unfold by_key. apply _. Defined.

(** [v.dedup()] *)
Fixpoint dedup (l : list string) : list string :=
  match l with
  | x :: ((y :: _) as l') => if String.eqb x y then dedup l' else x :: dedup l'
  | _ => l
  end.

(** [a.get(key).and_then(|v| v.as_str()).unwrap_or("")] *)
Definition str_or_empty (key : string) (v : Value) : string := default EmptyString (str_at key v).

Definition norm_checklist (items : list PlanChecklistItem) : list Value :=
  sort_by (by_key (str_or_empty "checklist_item_id"))
    (map (fun it => json_obj [("checklist_item_id", VString (checklist_item_id it));
                              ("status", VString (PlanTaskStatus.display (ci_status it)))]) items).

Definition norm_task (t : PlanTask) : Value :=
  json_obj [("task_kind", opt_string (task_kind t)); ("task_id", VString (WsModels.task_id t));
            ("label", opt_string (pt_label t)); ("status", VString (PlanTaskStatus.display (pt_status t)));
            ("checklist", VArray (norm_checklist (checklist t)));
            ("details", from_option map_json VNull (pt_details t))].

Definition ref_key (v : Value) : string := str_or_empty "task_id" v +:+ ":" +:+ str_or_empty "checklist_item_id" v.

Definition norm_group (g : PlanWorkGroup) : Value :=
  let items := sort_by (by_key ref_key)
    (map (fun it => json_obj [("task_id", VString (ref_task_id it));
                              ("checklist_item_id", VString (ref_checklist_item_id it))]) (wg_items g)) in
  let deps := dedup (sort_strings (default [] (depends_on_group_ids g))) in
  json_obj [("group_id", VString (group_id g)); ("kind", VString (PlanWorkGroupKind.display (wg_kind g)));
            ("items", VArray items); ("depends_on_group_ids", strings deps)].

Definition norm_plan (p : PlanSnapshot) : Value :=
  json_obj [("plan_kind", VString (WsModels.plan_kind p)); ("plan_key", VString (WsModels.plan_key p));
            ("status", VString (PlanStatus.display (ps_status p)));
            ("tasks", VArray (sort_by (by_key (str_or_empty "task_id")) (map norm_task (tasks p))));
            ("work_groups", VArray (sort_by (by_key (str_or_empty "group_id")) (map norm_group (work_groups p))))].

Definition semantic_plan_fp `{!Serde} (p : PlanSnapshot) : string :=
  match to_vec (norm_plan p) with Ok s => s | Err _ => EmptyString end.

(** The plans whose fingerprint is not the last one of their kind: the kinds,
    the keys, and the fingerprints from now on. *)
Fixpoint changed_plans `{!Serde} (fps : gmap string string) (plans : list PlanSnapshot)
  : list string * list string * gmap string string :=
  match plans with
  | [] => ([], [], fps)
  | p :: plans =>
      let kind := WsModels.plan_kind p in
      let new_fp := semantic_plan_fp p in
      if decide (fps !! kind = Some new_fp) then changed_plans fps plans
      else let '(kinds, keys, fps) := changed_plans (<[kind := new_fp]> fps) plans in
           (kind :: kinds, WsModels.plan_key p :: keys, fps)
  end.

(** ** What a step tells *)

Definition tool_start_status (s : ToolStepStatus.t) : ToolEventStatus.t :=
  match s with
  | ToolStepStatus.Running => ToolEventStatus.Running
  | ToolStepStatus.Ok => ToolEventStatus.Ok
  | ToolStepStatus.Failed => ToolEventStatus.Failed
  end.

Definition tool_end_status (s : ToolStepStatus.t) (ok : bool) : ToolEventStatus.t :=
  match s with
  | ToolStepStatus.Running => ToolEventStatus.Running
  | ToolStepStatus.Ok => ToolEventStatus.Ok
  | ToolStepStatus.Failed => if ok then ToolEventStatus.Ok else ToolEventStatus.Failed
  end.

(** The payload of a finished tool: its own fields first. *)
Definition end_payload (payload : option Value) (extra : list (string * Value)) : option HashMap :=
  let pm := fold_left (fun (m : gmap string Value) kv =>
    match m !! kv.1 with Some _ => m | None => <[kv.1 := kv.2]> m end) extra (default ∅ (object_map payload)) in
  if decide ((pm : gmap string Value) = ∅) then None else Some pm.

Definition nonblank_name (s : string) : option string := if is_blank s then None else Some s.

(** [from_value::<api::PhaseReasonDetail>(v).ok()] and the review's meta. *)
Class DetailReaders := {
  read_reason_detail : Value -> option PhaseReasonDetail;
  read_review_meta : Value -> option ReviewDecisionMeta
}.

Definition reason_detail_of `{!DetailReaders} (v : Value) : PhaseReasonDetail :=
  match read_reason_detail v with
  | Some rd => rd
  | None => {| review_phase := None; prd_meta := None; prd_answer := None; trigger_step_idx := None;
               trigger_step := None; prd_kind := None; prd_data := object_map (Some v) |}
  end.

(** The message that tells step [i] of a log, once its head is known. *)
Definition step_message `{!Rfc3339, !DetailReaders} (steps : list ThreadStep.t) (i : nat) (step : ThreadStep.t)
  : option (EventHead -> ServerMessage.t) :=
  match step with
  | ThreadStep.Phase phase from_phase reason_code reason_detail _ ts _ =>
      let runs_map := phase_runs_from_steps (take (S i) steps) in
      let runs := default [] (runs_map !! phase) in
      let from_runs := (fun fp => default [] (runs_map !! fp)) <$> named from_phase in
      Some (fun h => ServerMessage.Phase
        {| ph_head := h; ph_step_idx := as_i32 (Z.of_nat i); ph_phase := phase; ph_from_phase := from_phase;
           ph_reason_code := reason_code; ph_reason_detail := reason_detail_of <$> reason_detail;
           ph_ts := ts; ph_runs := runs; ph_total_runtime_ms := total_completed_runtime_ms runs;
           from_phase_runs := from_runs; from_phase_total_runtime_ms := total_completed_runtime_ms <$> from_runs |})
  | ThreadStep.ToolStart tool_id name clean_name _ status payload ctx _ _ =>
      Some (fun h => ServerMessage.ToolStart
        {| tst_head := h; tst_tool_id := tool_id; tst_name := name; tst_clean_name := nonblank_name clean_name;
           tst_phase := phase_at_step_idx steps i; tst_status := tool_start_status status;
           tst_payload := object_map payload; tst_ctx := map_exec_ctx <$> ctx |})
  | ThreadStep.ToolEnd tool_id name clean_name _ status payload ctx observation _ _ =>
      Some (fun h => ServerMessage.ToolEnd
        {| ten_head := h; ten_tool_id := tool_id; ten_name := name; ten_clean_name := nonblank_name clean_name;
           ten_phase := phase_at_step_idx steps i;
           ten_status := tool_end_status status (ToolObservation.ok observation);
           ten_payload := end_payload payload (ToolObservation.extra observation);
           ten_error := if ToolObservation.ok observation then None else head (ToolObservation.errors observation);
           ten_ctx := map_exec_ctx <$> ctx |})
  | ThreadStep.LlmStart call_id model phase ctx _ _ =>
      Some (fun h => ServerMessage.LlmStart
        {| lst_head := h; lst_call_id := as_i32 call_id; lst_phase := phase; lst_model := model;
           lst_ctx := map_exec_ctx <$> ctx |})
  | ThreadStep.LlmEnd call_id model phase status error ctx _ _ =>
      Some (fun h => ServerMessage.LlmEnd
        {| len_head := h; len_call_id := as_i32 call_id; len_phase := phase; len_model := model;
           len_failed := bool_decide (status = LlmStepStatus.Failed); len_error := error;
           len_ctx := map_exec_ctx <$> ctx |})
  | _ => None
  end.

Definition is_phase (step : ThreadStep.t) : bool :=
  match step with ThreadStep.Phase _ _ _ _ _ _ _ => true | _ => false end.

(** ** The loop *)

Record LoopState : Type := {
  ls_task : SuiteRunKind.t * string;
  ls_plan_fps : gmap string string;
  ls_plans : list PlanSnapshot;
  ls_emitted : nat;
  ls_state : option Snapshot.t;
  ls_phase : option string;
  ls_count : option Z;
  ls_resumes : Z
}.

Definition with_plans (fps : gmap string string) (plans : list PlanSnapshot) (ls : LoopState) : LoopState :=
  {| ls_task := ls_task ls; ls_plan_fps := fps; ls_plans := plans; ls_emitted := ls_emitted ls;
     ls_state := ls_state ls; ls_phase := ls_phase ls; ls_count := ls_count ls; ls_resumes := ls_resumes ls |}.
Definition with_emitted (n : nat) (ls : LoopState) : LoopState :=
  {| ls_task := ls_task ls; ls_plan_fps := ls_plan_fps ls; ls_plans := ls_plans ls; ls_emitted := n;
     ls_state := ls_state ls; ls_phase := ls_phase ls; ls_count := ls_count ls; ls_resumes := ls_resumes ls |}.
Definition with_snapshot (snap : Snapshot.t) (ls : LoopState) : LoopState :=
  {| ls_task := ls_task ls; ls_plan_fps := ls_plan_fps ls; ls_plans := ls_plans ls; ls_emitted := ls_emitted ls;
     ls_state := Some snap; ls_phase := Snapshot.current_phase snap;
     ls_count := Some (Snapshot.last_materialized_step_count snap); ls_resumes := ls_resumes ls |}.
Definition with_rerun (task : SuiteRunKind.t * string) (resumes : Z) (ls : LoopState) : LoopState :=
  {| ls_task := task; ls_plan_fps := ls_plan_fps ls; ls_plans := ls_plans ls; ls_emitted := ls_emitted ls;
     ls_state := ls_state ls; ls_phase := ls_phase ls; ls_count := ls_count ls; ls_resumes := resumes |}.

(** How the frames of a task end: the run is over, or the task is started
    again with this input. *)
Inductive FramesEnd : Type := Finished | Rerun (kind : SuiteRunKind.t) (question : string).

(** What the loop waits for.  [Others] is anything else that happens to the
    world; [Ends] is the end of the task with a result its doings, told by
    [Others], led to; [Runs] is a task that does all its work at once. *)
Inductive Event (W : Type) : Type :=
| Others (f : W -> W)
| PlanTick
| ToolTick
| StateTick
| Runs
| Ends (r : Result (list FlowFrame.t) string).
Arguments Others {W} f.
Arguments PlanTick {W}.
Arguments ToolTick {W}.
Arguments StateTick {W}.
Arguments Runs {W}.
Arguments Ends {W} r.

(** Still running, or what [run_suite_and_stream] returns. *)
Inductive Outcome : Type := Running (ls : LoopState) | Returned (r : Result unit string).

Section streaming.
Context {W K : Type} `{HSd : !Serde, HSt : !StorageAdapter W, HT : !Timer W, HK : !Keyspace K,
  HC : !Codec ThreadLog.t, HE : !Codec ControlStateEnvelope, HU : !UtcClock W, HR : !ToRfc3339, HD : !Rfc3339,
  HP : !PlanReader, HA : !AnswerReaders, HDR : !DetailReaders, HL : !UnicodeLower}.
Variable srv : Server W K.

Notation C := (ConnState W).

Section run.
Variables (suite : Suite W) (thread_id suite_id agent cid : string) (policy : DynPolicy).

(** A reader that lives for one branch: a store with this cache. *)
Definition cached_reader {E A} (cached : gmap string CacheEntry) (f : ThreadStore W -> A * ThreadStore W)
  : Act C E (A * gmap string CacheEntry) :=
  in_world (fun w => let '(a, s) := f (mkThreadStore w cached) in ((a, cache s), storage s)).

Definition read_log {E} (cached : gmap string CacheEntry)
  : Act C E (Result ThreadLog.t CoreError.t * gmap string CacheEntry) :=
  cached_reader cached (get_log (srv_scope srv) (srv_keyspace srv) thread_id).

(** [now_iso(), state.next_seq(), thread_id], and [for_cid]. *)
Definition event_head {E} : Act C E EventHead :=
  do! t <- conn_now;
  do! n <- next_seq;
  act_ret {| eh_server_time := t; eh_seq := n; eh_thread_id := thread_id; eh_thread_seq := None; eh_for_cid := Some cid |}.

Definition turn_head {E} : Act C E TurnHead :=
  do! tseq <- next_thread_seq thread_id;
  do! t <- conn_now;
  do! n <- next_seq;
  act_ret {| th_server_time := t; th_seq := n; th_thread_id := thread_id; th_thread_seq := tseq |}.

(** A message shown on the terminal and then emitted, which shows it again. *)
Definition tell {E} (m : ServerMessage.t) : Act C E unit :=
  do! _ <- match terminal_event m with Some ev => term_emit srv ev | None => act_ret tt end;
  emit_ws srv m.

(** The snapshot of the thread, when its log can be read. *)
Definition take_snapshot {E} (cached : gmap string CacheEntry) (plans : list PlanSnapshot)
  : Act C E (option Snapshot.t * gmap string CacheEntry) :=
  do! (st, cached) <- cached_reader cached (load_materialized_state (srv_scope srv) (srv_keyspace srv) thread_id);
  match st with
  | None => act_ret (None, cached)
  | Some st =>
      do! (events, cached) <- cached_reader cached (load_timeline_events (srv_scope srv) (srv_keyspace srv) thread_id);
      do! snap <- in_world (ws_thread_state_snapshot_from_core st events (reg srv) plans);
      act_ret (Some snap, cached)
  end.

(** The terminal sees the snapshot before the message is numbered. *)
Definition tell_state {E} (snap : Snapshot.t) : Act C E unit :=
  do! _ <- term_emit srv (TerminalEvent.ThreadState snap);
  do! h <- event_head;
  emit_ws srv (ServerMessage.ThreadState h snap).

Definition tell_snapshot {E} (cached : gmap string CacheEntry) (plans : list PlanSnapshot)
  : Act C E (gmap string CacheEntry) :=
  do! (snap, cached) <- take_snapshot cached plans;
  match snap with
  | Some snap => do! _ <- tell_state snap; act_ret cached
  | None => act_ret cached
  end.

(** [_ = plan_tick.tick()] *)
Definition plan_branch {E} (ls : LoopState) : Act C E LoopState :=
  do! plans <- load_latest_plans srv suite_id thread_id;
  let '(kinds, keys, fps) := changed_plans (ls_plan_fps ls) plans in
  match kinds with
  | [] => act_ret (with_plans fps plans ls)
  | _ =>
      do! h <- event_head;
      do! _ <- tell (ServerMessage.PlansChanged {| pc_head := h; changed := kinds; changed_plan_keys := Some keys |});
      do! h <- event_head;
      do! _ <- emit_ws srv (ServerMessage.Plans h plans);
      act_ret (with_plans fps plans ls)
  end.

Definition tell_step {E} (cached : gmap string CacheEntry) (plans : list PlanSnapshot) (steps : list ThreadStep.t)
  (i : nat) (step : ThreadStep.t) : Act C E (gmap string CacheEntry) :=
  match step_message steps i step with
  | None => act_ret cached
  | Some message =>
      do! h <- event_head;
      do! _ <- tell (message h);
      if is_phase step then tell_snapshot cached plans else act_ret cached
  end.

(** The steps [todo] of a log, from index [i]. *)
Fixpoint tell_steps {E} (cached : gmap string CacheEntry) (plans : list PlanSnapshot) (steps : list ThreadStep.t)
  (i : nat) (todo : list ThreadStep.t) : Act C E unit :=
  match todo with
  | [] => act_ret tt
  | step :: todo =>
      do! cached <- tell_step cached plans steps i step;
      tell_steps cached plans steps (S i) todo
  end.

(** [_ = tool_tick.tick()] *)
Definition tool_branch {E} (ls : LoopState) : Act C E LoopState :=
  do! (r, cached) <- read_log ∅;
  match r with
  | Err _ => act_ret ls
  | Ok log =>
      let steps := ThreadLog.steps log in
      if Nat.leb (length steps) (ls_emitted ls) then act_ret ls
      else do! _ <- tell_steps cached (ls_plans ls) steps (ls_emitted ls) (drop (ls_emitted ls) steps);
           act_ret (with_emitted (length steps) ls)
  end.

(** [_ = state_tick.tick()] *)
Definition state_branch {E} (ls : LoopState) : Act C E LoopState :=
  do! (snap, _) <- take_snapshot ∅ (ls_plans ls);
  match snap with
  | None => act_ret ls
  | Some snap =>
      if bool_decide (Snapshot.current_phase snap = ls_phase ls)
         && bool_decide (Some (Snapshot.last_materialized_step_count snap) = ls_count ls)
         && bool_decide (ls_state ls = Some snap)
      then act_ret ls
      else do! _ <- tell_state snap; act_ret (with_snapshot snap ls)
  end.

(** A step of the transport itself, as every handler appends it. *)
Definition append_user_step (text : string) : Act C string unit :=
  do! ts <- conn_now;
  with_store (append_step (srv_scope srv) (srv_keyspace srv) thread_id
    (ThreadStep.User text Observation.success ts agent)).

Definition log_steps_if_enabled {E} : Act C E unit :=
  with_reader (fun s => (tt, log_thread_steps_if_enabled (srv_scope srv) (srv_keyspace srv) (srv_env srv) thread_id s)).

(** The loop over the frames a task ended with. *)
Fixpoint tell_frames (plans : list PlanSnapshot) (frames : list AgentFrame.t) : Act C string FramesEnd :=
  match frames with
  | [] => act_ret Finished
  | AgentFrame.Review text meta :: frames =>
      do! h <- turn_head;
      do! _ <- emit_ws srv (ServerMessage.Review {| rv_head := h; rv_text := text; rv_meta := meta ≫= read_review_meta |});
      do! _ <- tell_snapshot ∅ plans;
      tell_frames plans frames
  | AgentFrame.Final kind payload display :: _ =>
      do! _ <- tell_snapshot ∅ plans;
      do! h <- turn_head;
      do! _ <- emit_ws srv (ServerMessage.Final h (ws_final_result_from_typed_final kind payload display));
      do! _ <- log_steps_if_enabled;
      act_ret Finished
  | AgentFrame.AwaitUser prompt :: _ =>
      match on_await_user policy prompt with
      | InterruptDecision.Reject reason =>
          do! _ <- term_emit srv (TerminalEvent.Info
            ("interrupt rejected: ask_user (prompt='" +:+ truncate_str prompt 220 +:+ "')"));
          act_err reason
      | InterruptDecision.AutoApprove => act_ret (Rerun SuiteRunKind.User "Continue.")
      | InterruptDecision.Forward =>
          do! h <- turn_head;
          do! _ <- emit_ws srv (ServerMessage.AwaitUser h prompt);
          do! _ <- log_steps_if_enabled;
          act_ret Finished
      end
  | AgentFrame.AwaitApproval prompt :: _ =>
      match on_await_approval policy prompt with
      | InterruptDecision.AutoApprove =>
          do! _ <- append_user_step "approve";
          do! _ <- term_emit srv (TerminalEvent.Info ("auto approve (prompt='" +:+ prompt +:+ "')"));
          act_ret (Rerun SuiteRunKind.User "Continue.")
      | InterruptDecision.Reject reason =>
          do! _ <- term_emit srv (TerminalEvent.Info
            ("interrupt rejected: await_approval (prompt='" +:+ truncate_str prompt 220 +:+ "')"));
          act_err reason
      | InterruptDecision.Forward =>
          do! h <- turn_head;
          do! _ <- emit_ws srv (ServerMessage.AwaitApproval h prompt);
          do! _ <- log_steps_if_enabled;
          act_ret Finished
      end
  end.

(** [res = &mut agent_task.handle]; a task that panics is an [Err] here. *)
Definition task_branch (ls : LoopState) (r : Result (list FlowFrame.t) string) : C -> Outcome * C :=
  fun c =>
    match r with
    | Err e => (Returned (Err e), c)
    | Ok frames =>
        match tell_frames (ls_plans ls) (map convert frames) c with
        | (Err e, c) => (Returned (Err e), c)
        | (Ok Finished, c) => (Returned (Ok tt), c)
        | (Ok (Rerun kind question), c) =>
            match charge_auto_resume (ls_resumes ls) with
            | Err _ => (Returned (Err "budget exhausted: auto_resumes"), c)
            | Ok n => (Running (with_rerun (kind, question) n ls), c)
            end
        end
    end.

(** The operation of the suite a task calls. *)
Definition task_call (task : SuiteRunKind.t * string) : Act W string (list FlowFrame.t) :=
  match task.1 with
  | SuiteRunKind.New => handle_new suite thread_id task.2 agent
  | SuiteRunKind.Open => handle_open suite thread_id task.2 agent
  | SuiteRunKind.User => handle_user suite thread_id task.2 agent
  end.

(** [Running] after a branch that cannot fail. *)
Definition goes_on (r : Result LoopState string * C) : Outcome * C :=
  match r with
  | (Ok ls, c) => (Running ls, c)
  | (Err e, c) => (Returned (Err e), c)
  end.

Definition loop_step (ls : LoopState) (e : Event W) (c : C) : Outcome * C :=
  match e with
  | Others f => (Running ls, mkConn (f (world c)) (memory c) (wire c) (published c) (shown c))
  | PlanTick => goes_on (plan_branch ls c)
  | ToolTick => goes_on (tool_branch ls c)
  | StateTick => goes_on (state_branch ls c)
  | Runs => let '(r, w) := task_call (ls_task ls) (world c) in
            task_branch ls r (mkConn w (memory c) (wire c) (published c) (shown c))
  | Ends r => task_branch ls r c
  end.

Fixpoint run_loop (ls : LoopState) (schedule : list (Event W)) (c : C) : Outcome * C :=
  match schedule with
  | [] => (Running ls, c)
  | e :: schedule =>
      match loop_step ls e c with
      | (Running ls, c) => run_loop ls schedule c
      | returned => returned
      end
  end.
End run.

Definition first_state (kind : SuiteRunKind.t) (question : string) (emitted : nat) : LoopState :=
  {| ls_task := (kind, question); ls_plan_fps := ∅; ls_plans := []; ls_emitted := emitted; ls_state := None;
     ls_phase := None; ls_count := None; ls_resumes := 0 |}.

Definition run_agent_with_processing_suite (thread_id question suite_id agent cid : string)
  (kind : SuiteRunKind.t) (policy : DynPolicy) (schedule : list (Event W)) : C -> Outcome * C :=
  match Registry.get (reg srv) suite_id with
  | None => fun c => (Returned (Err ("invalid suite_id '" +:+ suite_id +:+ "'")), c)
  | Some suite => fun c =>
      match read_log thread_id ∅ c with
      | (Ok (r, _), c) =>
          let emitted := match r with Ok log => length (ThreadLog.steps log) | Err _ => 0 end in
          run_loop suite thread_id suite_id agent cid policy (first_state kind question emitted) schedule c
      | (Err e, c) => (Returned (Err e), c)
      end
  end.

Definition run_suite_and_stream (thread_id question suite_id agent cid : string) (kind : SuiteRunKind.t)
  (schedule : list (Event W)) : C -> Outcome * C :=
  run_agent_with_processing_suite thread_id question suite_id agent cid kind
    (build_interrupt_policy (srv_env srv) (has_terminal srv) cid) schedule.
End streaming.
