(* ===== verification/StreamingLaws.v ===== *)
(** * What a client sees of a run

    Theorems about [Streaming]: every message of a run has the next number,
    and the run ends when its task has ended often enough. *)

From stdpp Require Import base list strings gmap.
From Stdlib Require Import ZArith Lia Ascii.
From S2P Require Import Prelude.
From S2P Require Import RustStr.
From S2P Require Import Json.
From S2P Require Import Errors.
From S2P Require Import Interrupt.
From S2P Require Import Budget.
From S2P Require Import Scope.
From S2P Require Import Storage.
From S2P Require Import MemoryStorage.
From S2P Require Import Caching.
From S2P Require Import SessionTypes.
From S2P Require Import Samples.
From S2P Require Import ThreadStore.
From S2P Require Import ThreadStoreShared.
From S2P Require Import ThreadStoreOwned.
From S2P Require Import ControlState.
From S2P Require Import Redaction.
From S2P Require Import Dates.
From S2P Require Import View.
From S2P Require Import Suites.
From S2P Require Import WsModels.
From S2P Require Import History.
From S2P Require Import ThreadState.
From S2P Require Import Connection.
From S2P Require Import Streaming.

(** ** Numbering *)

(** The messages are numbered one after the other, from [a] to [b]. *)
Fixpoint chain (a : Z) (l : list ServerMessage.t) (b : Z) : Prop :=
  match l with
  | [] => a = b
  | m :: l => ServerMessage.seq m = Some (as_i32 (a + 1)) /\ chain (as_i32 (a + 1)) l b
  end.

Lemma chain_app a l1 b l2 c : chain a l1 b -> chain b l2 c -> chain a (l1 ++ l2) c.
Proof. revert a. induction l1 as [|m l1 IH]; intros a; cbn; [by intros ->|]. intros [H1 H2] H3. split; [done|by apply IH]. Qed.

Section numbered.
Context {W K : Type} `{HSd : !Serde, HSt : !StorageAdapter W, HT : !Timer W, HK : !Keyspace K,
  HC : !Codec ThreadLog.t, HU : !UtcClock W, HR : !ToRfc3339, HD : !Rfc3339,
  HP : !PlanReader, HA : !AnswerReaders, HDR : !DetailReaders, HL : !UnicodeLower}.
Variable srv : Server W K.

Notation C := (ConnState W).

Definition text_of (m : ServerMessage.t) : option string := res_ok (to_vec (ServerMessage.value m)).

(** What is kept of a text. *)
Definition kept_text (s : string) : option (Z * string) := (fun n => (n, s)) <$> text_seq s.

(** [c'] is [c] after exactly these messages were published, if anybody
    subscribes, sent and kept. *)
Record Emits (new : list ServerMessage.t) (c c' : C) : Prop := {
  emits_published : published c' = published c ++ (if has_hub srv then new else []);
  emits_wire : wire c' = wire c ++ omap text_of new;
  emits_sent : m_sent (memory c') =
    fold_left (fun l p => last_n SENT_BUFFER_CAPACITY (l ++ [p])) (omap kept_text (omap text_of new)) (m_sent (memory c));
  emits_chain : chain (m_seq (memory c)) new (m_seq (memory c'))
}.

Lemma emits_nil (c c' : C) : published c' = published c -> wire c' = wire c -> memory c' = memory c -> Emits [] c c'.
Proof. intros H1 H2 H3. split; rewrite ?H1, ?H2, ?H3; destruct (has_hub srv); rewrite ?app_nil_r; done. Qed.

Lemma emits_same_counters (c c' : C) : published c' = published c -> wire c' = wire c ->
  m_sent (memory c') = m_sent (memory c) -> m_seq (memory c') = m_seq (memory c) -> Emits [] c c'.
Proof. intros H1 H2 H3 H4. split; cbn; rewrite ?H1, ?H2, ?H3, ?H4; destruct (has_hub srv); rewrite ?app_nil_r; done. Qed.

Lemma emits_trans l1 l2 (c1 c2 c3 : C) : Emits l1 c1 c2 -> Emits l2 c2 c3 -> Emits (l1 ++ l2) c1 c3.
Proof.
  intros [P1 W1 S1 N1] [P2 W2 S2 N2]. split.
  - rewrite P2, P1. by destruct (has_hub srv); rewrite ?app_nil_r, ?app_assoc.
  - by rewrite W2, W1, omap_app, app_assoc.
  - by rewrite S2, S1, !omap_app, fold_left_app.
  - by eapply chain_app.
Qed.

(** A computation all of whose messages are numbered. *)
Definition numbered {E A} (m : Act C E A) : Prop := forall c, exists new, Emits new c (m c).2.

Lemma numbered_ret {E A} (a : A) : numbered (E := E) (act_ret a).
Proof. intros c. exists []. by apply emits_nil. Qed.

Lemma numbered_err {E A} (e : E) : numbered (A := A) (act_err e).
Proof. intros c. exists []. by apply emits_nil. Qed.

Lemma numbered_lift {E A} (r : Result A E) : numbered (act_lift r).
Proof. intros c. exists []. by apply emits_nil. Qed.

Lemma numbered_bind {E A B} (m : Act C E A) (k : A -> Act C E B) :
  numbered m -> (forall a, numbered (k a)) -> numbered (act_bind m k).
Proof.
  intros Hm Hk c. unfold act_bind. destruct (Hm c) as (l1 & E1). destruct (m c) as [[a|e] c1]; cbn in *; [|by exists l1].
  destruct (Hk a c1) as (l2 & E2). exists (l1 ++ l2). by eapply emits_trans.
Qed.

Lemma numbered_world {E A} (f : W -> A * W) : numbered (E := E) (in_world f).
Proof. intros c. exists []. unfold in_world. destruct (f (world c)). by apply emits_nil. Qed.

Lemma numbered_reader {E A} (f : ThreadStore W -> A * ThreadStore W) : numbered (E := E) (with_reader f).
Proof. apply numbered_world. Qed.

Lemma numbered_cached {E A} cached (f : ThreadStore W -> A * ThreadStore W) : numbered (E := E) (cached_reader cached f).
Proof. apply numbered_world. Qed.

Lemma numbered_term {E} ev : numbered (E := E) (term_emit srv ev).
Proof. intros c. exists []. unfold term_emit. cbn. destruct (has_terminal srv); by apply emits_nil. Qed.

(** A message with the next number, and what comes after it. *)
Lemma emit_numbered {E} (m : ServerMessage.t) (c : C) :
  ServerMessage.seq m = Some (m_seq (memory c)) ->
  forall c0 : C, published c = published c0 -> wire c = wire c0 -> m_sent (memory c) = m_sent (memory c0) ->
  m_seq (memory c) = as_i32 (m_seq (memory c0) + 1) ->
  Emits [m] c0 (emit_ws (E := E) srv m c).2.
Proof.
  intros Hm c0 P W0 S0 N. unfold emit_ws, act_bind, hub_emit.
  set (c1 := if has_hub srv then mkConn (world c) (memory c) (wire c) (published c ++ [m]) (shown c) else c).
  assert (exists c2 : C, (match terminal_event m with Some ev => term_emit srv ev | None => act_ret tt end) c1 = (Ok (E := E) tt, c2) /\
    published c2 = published c ++ (if has_hub srv then [m] else []) /\ wire c2 = wire c /\ memory c2 = memory c)
    as (c2 & -> & P2 & W2 & M2).
  { assert (published c1 = published c ++ (if has_hub srv then [m] else []) /\ wire c1 = wire c /\ memory c1 = memory c) as (?&?&?).
    { unfold c1. destruct (has_hub srv); [done|]. by rewrite app_nil_r. }
    destruct (terminal_event m); [|by exists c1]. unfold term_emit. by destruct (has_terminal srv); eexists. }
  destruct (to_vec (ServerMessage.value m)) as [s|e] eqn:Ev.
  - assert (omap text_of [m] = [s]) as Ht by (cbn; unfold text_of; by rewrite Ev).
    unfold buffer_last, send. destruct (text_seq s) as [n|] eqn:Es.
    + assert (omap kept_text [s] = [(n, s)]) as Hk by (cbn; unfold kept_text; by rewrite Es).
      split; rewrite ?Ht, ?Hk; cbn [snd remember act_ret set_memory published wire memory push_sent with_sent m_sent m_seq fold_left];
        rewrite ?P2, ?W2, ?M2, ?P, ?W0, ?S0; try done.
      cbn. by rewrite Hm, N.
    + assert (omap kept_text [s] = []) as Hk by (cbn; unfold kept_text; by rewrite Es).
      split; rewrite ?Ht, ?Hk; cbn [snd remember act_ret set_memory published wire memory m_sent m_seq fold_left];
        rewrite ?P2, ?W2, ?M2, ?P, ?W0, ?S0; try done.
      cbn. by rewrite Hm, N.
  - assert (omap text_of [m] = []) as Ht by (cbn; unfold text_of; by rewrite Ev).
    split; rewrite ?Ht; cbn [snd act_ret omap list_omap fold_left]; rewrite ?P2, ?W2, ?M2, ?P, ?W0, ?S0, ?app_nil_r; try done.
    cbn. by rewrite Hm, N.
Qed.

Lemma chain_head (new : list ServerMessage.t) (c c' : C) : Emits new c c' -> chain (m_seq (memory c)) new (m_seq (memory c')).
Proof. by intros []. Qed.

Lemma head_message {E} (m : ServerMessage.t) (pre : Act C E unit) (c0 c : C) :
  ServerMessage.seq m = Some (m_seq (memory c)) ->
  published c = published c0 -> wire c = wire c0 -> m_sent (memory c) = m_sent (memory c0) ->
  m_seq (memory c) = as_i32 (m_seq (memory c0) + 1) ->
  (forall c, exists c', pre c = (Ok tt, c') /\ published c' = published c /\ wire c' = wire c /\ memory c' = memory c) ->
  Emits [m] c0 ((do! _ <- pre; emit_ws srv m) c).2.
Proof.
  intros Hm P W0 S0 N Hpre. destruct (Hpre c) as (c1 & E1 & P1 & W1 & M1). rewrite (act_bind_Ok _ _ _ _ _ E1).
  apply emit_numbered; rewrite ?P1, ?W1, ?M1; done.
Qed.

Lemma quiet_term {E} (o : option TerminalEvent.t) (c : C) : exists c',
  (match o with Some ev => term_emit srv ev | None => act_ret tt end) c = (Ok (E := E) tt, c') /\
  published c' = published c /\ wire c' = wire c /\ memory c' = memory c.
Proof. destruct o; [|by exists c]. unfold term_emit. by destruct (has_terminal srv); eexists. Qed.

(** A numbered head, then the message that carries it. *)
Lemma numbered_event {E} tid cid (message : EventHead -> ServerMessage.t) (pre : EventHead -> Act C E unit) :
  (forall h, ServerMessage.seq (message h) = Some (eh_seq h)) ->
  (forall h c, exists c', pre h c = (Ok tt, c') /\ published c' = published c /\ wire c' = wire c /\ memory c' = memory c) ->
  numbered (do! h <- event_head tid cid; do! _ <- pre h; emit_ws srv (message h)).
Proof.
  intros Hm Hpre c. unfold event_head, conn_now, in_world, act_bind at 1, act_bind at 1. destruct (now_iso (world c)) as [t w].
  unfold next_seq, act_bind at 1. eexists [_]. eapply head_message; [apply Hm|done|done|done|done|apply Hpre].
Qed.

Lemma numbered_turn {E} tid (message : TurnHead -> ServerMessage.t) :
  (forall h, ServerMessage.seq (message h) = Some (th_seq h)) ->
  numbered (E := E) (do! h <- turn_head tid; emit_ws srv (message h)).
Proof.
  intros Hm c. unfold turn_head, conn_now, next_thread_seq, in_world, act_bind at 1, act_bind at 1, act_bind at 1.
  cbn [world set_memory]. destruct (now_iso (world c)) as [t w]. unfold next_seq, act_bind at 1.
  eexists [_]. apply emit_numbered; [apply Hm|done..].
Qed.

(** The continuation of a bind moves into the second computation. *)
Lemma numbered_ext {E A} (m m' : Act C E A) : (forall c, m c = m' c) -> numbered m' -> numbered m.
Proof. intros He Hm c. rewrite He. apply Hm. Qed.

Lemma bind_assoc {E A B D} (m : Act C E A) (k : A -> Act C E B) (k' : B -> Act C E D) c :
  act_bind m (fun a => act_bind (k a) k') c = act_bind (act_bind m k) k' c.
Proof. unfold act_bind. by destruct (m c) as [[a|e] c']. Qed.

Section run.
Variables (suite : Suite W) (thread_id suite_id agent cid : string) (policy : DynPolicy).

(** The head and the message of it come first in what follows. *)
Lemma numbered_event_then {E A} (message : EventHead -> ServerMessage.t) (pre : EventHead -> Act C E unit)
    (k : EventHead -> Act C E A) :
  (forall h, ServerMessage.seq (message h) = Some (eh_seq h)) ->
  (forall h c, exists c', pre h c = (Ok tt, c') /\ published c' = published c /\ wire c' = wire c /\ memory c' = memory c) ->
  (forall h, numbered (k h)) ->
  numbered (do! h <- event_head thread_id cid; do! _ <- (do! _ <- pre h; emit_ws srv (message h)); k h).
Proof.
  intros Hm Hpre Hk c. destruct (numbered_event thread_id cid message pre Hm Hpre c) as (l1 & E1).
  unfold act_bind at 1. unfold act_bind at 1 in E1. destruct (event_head thread_id cid c) as [[h|e] c1]; [|by exists l1].
  unfold act_bind at 1. destruct ((do! _ <- pre h; emit_ws srv (message h)) c1) as [[[]|e] c2]; [|by exists l1].
  destruct (Hk h c2) as (l2 & E2). exists (l1 ++ l2). by eapply emits_trans.
Qed.

Lemma numbered_turn_then {E A} (message : TurnHead -> ServerMessage.t) (k : TurnHead -> Act C E A) :
  (forall h, ServerMessage.seq (message h) = Some (th_seq h)) -> (forall h, numbered (k h)) ->
  numbered (do! h <- turn_head thread_id; do! _ <- emit_ws srv (message h); k h).
Proof.
  intros Hm Hk c. destruct (numbered_turn (E := E) thread_id message Hm c) as (l1 & E1).
  unfold act_bind at 1. unfold act_bind at 1 in E1. destruct (turn_head thread_id c) as [[h|e] c1]; [|by exists l1].
  unfold act_bind at 1. destruct (emit_ws srv (message h) c1) as [[[]|e] c2]; [|by exists l1].
  destruct (Hk h c2) as (l2 & E2). exists (l1 ++ l2). by eapply emits_trans.
Qed.

Lemma numbered_state {E} snap : numbered (E := E) (tell_state srv thread_id cid snap).
Proof.
  apply numbered_bind; [apply numbered_term|]. intros _. intros c.
  destruct (numbered_event (E := E) thread_id cid (fun h => ServerMessage.ThreadState h snap) (fun _ => act_ret tt)) with c
    as (new & En); [done|by eexists|by exists new].
Qed.

Lemma numbered_snapshot {E} cached plans : numbered (E := E) (take_snapshot srv thread_id cached plans).
Proof.
  apply numbered_bind; [apply numbered_cached|]. intros [[st|] cached']; [|apply numbered_ret].
  apply numbered_bind; [apply numbered_cached|]. intros [events cached'']. apply numbered_bind; [apply numbered_world|].
  intros snap. apply numbered_ret.
Qed.

Lemma numbered_tell_snapshot {E} cached plans : numbered (E := E) (tell_snapshot srv thread_id cid cached plans).
Proof.
  apply numbered_bind; [apply numbered_snapshot|]. intros [[snap|] cached']; [|apply numbered_ret].
  apply numbered_bind; [apply numbered_state|]. intros _. apply numbered_ret.
Qed.

Lemma step_message_seq steps i step message h :
  step_message steps i step = Some message -> ServerMessage.seq (message h) = Some (eh_seq h).
Proof. destruct step; cbn; intros Hs; try done; by injection Hs as <-. Qed.

Lemma numbered_tell_steps {E} cached plans steps i todo :
  numbered (E := E) (tell_steps srv thread_id cid cached plans steps i todo).
Proof.
  revert cached i. induction todo as [|step todo IH]; intros cached i; [apply numbered_ret|].
  cbn [tell_steps]. apply numbered_bind; [|intros; apply IH].
  unfold tell_step. destruct (step_message steps i step) as [message|] eqn:Hm; [|apply numbered_ret].
  apply numbered_event_then; [intros h; by eapply step_message_seq|intros h c; apply quiet_term|].
  intros h. destruct (is_phase step); [apply numbered_tell_snapshot|apply numbered_ret].
Qed.

Lemma numbered_plans {E} : numbered (E := E) (load_latest_plans srv suite_id thread_id).
Proof.
  unfold load_latest_plans. destruct (Registry.get (reg srv) suite_id); [|apply numbered_ret].
  apply numbered_bind; [apply numbered_world|]. intros; apply numbered_ret.
Qed.

Lemma numbered_plan_branch {E} ls : numbered (E := E) (plan_branch srv thread_id suite_id cid ls).
Proof.
  apply numbered_bind; [apply numbered_plans|]. intros plans.
  destruct (changed_plans (ls_plan_fps ls) plans) as [[[|kind kinds] keys] fps]; [apply numbered_ret|].
  apply (numbered_event_then (fun h => ServerMessage.PlansChanged _) (fun h => _)); [done|intros h c; apply quiet_term|].
  intros _. eapply numbered_ext; [|apply (numbered_event_then (fun h => ServerMessage.Plans h plans)
    (fun _ => act_ret tt) (fun _ => act_ret (with_plans fps plans ls))); [done|by eexists|intros; apply numbered_ret]].
  done.
Qed.

Lemma numbered_tool_branch {E} ls : numbered (E := E) (tool_branch srv thread_id cid ls).
Proof.
  apply numbered_bind; [apply numbered_cached|]. intros [[log|e] cached]; [|apply numbered_ret].
  cbn zeta. destruct (Nat.leb (length (ThreadLog.steps log)) (ls_emitted ls)); [apply numbered_ret|]. apply numbered_bind; [apply numbered_tell_steps|].
  intros; apply numbered_ret.
Qed.

Lemma numbered_state_branch {E} ls : numbered (E := E) (state_branch srv thread_id cid ls).
Proof.
  apply numbered_bind; [apply numbered_snapshot|]. intros [[snap|] cached]; [|apply numbered_ret].
  case_match; [apply numbered_ret|]. apply numbered_bind; [apply numbered_state|]. intros; apply numbered_ret.
Qed.

Lemma numbered_append text : numbered (append_user_step srv thread_id agent text).
Proof.
  apply numbered_bind; [apply numbered_world|]. intros t. apply numbered_bind; [apply numbered_reader|].
  intros r. apply numbered_lift.
Qed.

Lemma numbered_log_steps {E} : numbered (E := E) (log_steps_if_enabled srv thread_id).
Proof. apply numbered_reader. Qed.

Lemma numbered_frames plans frames : numbered (tell_frames srv thread_id agent cid policy plans frames).
Proof.
  assert (forall message : TurnHead -> ServerMessage.t, (forall h, ServerMessage.seq (message h) = Some (th_seq h)) ->
    numbered (E := string) (do! h <- turn_head thread_id; do! _ <- emit_ws srv (message h);
      do! _ <- log_steps_if_enabled srv thread_id; act_ret Finished)) as Hend.
  { intros message Hm. apply numbered_turn_then; [done|]. intros _. apply numbered_bind; [apply numbered_log_steps|].
    intros; apply numbered_ret. }
  induction frames as [|f frames IH]; [apply numbered_ret|]. destruct f as [kind payload display|text meta|prompt|prompt].
  - apply numbered_bind; [apply numbered_tell_snapshot|]. intros _. by apply Hend.
  - apply (numbered_turn_then (fun h => ServerMessage.Review _)); [done|]. intros _.
    apply numbered_bind; [apply numbered_tell_snapshot|]. intros _. apply IH.
  - cbn [tell_frames]. destruct (on_await_user policy prompt); [by apply Hend|apply numbered_ret|].
    apply numbered_bind; [apply numbered_term|]. intros; apply numbered_err.
  - cbn [tell_frames]. destruct (on_await_approval policy prompt); [by apply Hend| |].
    + apply numbered_bind; [apply numbered_append|]. intros _. apply numbered_bind; [apply numbered_term|]. intros; apply numbered_ret.
    + apply numbered_bind; [apply numbered_term|]. intros; apply numbered_err.
Qed.

Definition numbered_outcome (m : C -> Outcome * C) : Prop := forall c, exists new, Emits new c (m c).2.

Lemma numbered_goes_on (m : Act C string LoopState) : numbered m -> numbered_outcome (fun c => goes_on (m c)).
Proof. intros Hm c. destruct (Hm c) as (new & En). exists new. unfold goes_on. by destruct (m c) as [[ls|e] c']. Qed.

Lemma numbered_task_branch ls r : numbered_outcome (task_branch srv thread_id agent cid policy ls r).
Proof.
  intros c. unfold task_branch. destruct r as [frames|e]; [|exists []; by apply emits_nil].
  destruct (numbered_frames (ls_plans ls) (map convert frames) c) as (new & En). exists new.
  destruct (tell_frames _ _ _ _ _ _ _ c) as [[[|kind q]|e] c']; cbn in *; try done. by destruct (charge_auto_resume _).
Qed.

Lemma numbered_step ls e : numbered_outcome (loop_step srv suite thread_id suite_id agent cid policy ls e).
Proof.
  intros c. destruct e as [f| | | | |r]; cbn [loop_step].
  - exists []. by apply emits_nil.
  - by apply numbered_goes_on, numbered_plan_branch.
  - by apply numbered_goes_on, numbered_tool_branch.
  - by apply numbered_goes_on, numbered_state_branch.
  - destruct (task_call _ _ _ _ _) as [r w].
    destruct (numbered_task_branch ls r (mkConn w (memory c) (wire c) (published c) (shown c))) as (new & En).
    exists ([] ++ new). eapply emits_trans; [|exact En]. by apply emits_nil.
  - apply numbered_task_branch.
Qed.

Lemma numbered_loop ls schedule : numbered_outcome (run_loop srv suite thread_id suite_id agent cid policy ls schedule).
Proof.
  revert ls. induction schedule as [|e schedule IH]; intros ls c; [exists []; by apply emits_nil|].
  cbn [run_loop]. destruct (numbered_step ls e c) as (l1 & E1).
  destruct (loop_step srv suite thread_id suite_id agent cid policy ls e c) as [[ls'|r] c1]; cbn in E1; [|by exists l1].
  destruct (IH ls' c1) as (l2 & E2). exists (l1 ++ l2). by eapply emits_trans.
Qed.
End run.

Lemma numbered_run thread_id question suite_id agent cid kind schedule :
  numbered_outcome (run_suite_and_stream srv thread_id question suite_id agent cid kind schedule).
Proof.
  unfold run_suite_and_stream, run_agent_with_processing_suite.
  destruct (Registry.get (reg srv) suite_id) as [suite|]; intros c; [|exists []; by apply emits_nil].
  destruct (numbered_cached (E := string) ∅ (get_log (srv_scope srv) (srv_keyspace srv) thread_id) c) as (l1 & E1).
  unfold read_log. destruct (cached_reader ∅ _ c) as [[[r cached]|e] c1]; cbn in E1; [|by exists l1].
  destruct (numbered_loop suite thread_id suite_id agent cid (build_interrupt_policy (srv_env srv) (has_terminal srv) cid)
    (first_state kind question (match r with Ok log => length (ThreadLog.steps log) | Err _ => 0 end)) schedule c1)
    as (l2 & E2).
  exists (l1 ++ l2). by eapply emits_trans.
Qed.
End numbered.

Lemma push_all {A} n (l xs : list A) : length l <= n ->
  fold_left (fun l p => last_n n (l ++ [p])) xs l = last_n n (l ++ xs).
Proof.
  revert l. induction xs as [|x xs IH]; intros l Hl; cbn [fold_left].
  - by rewrite app_nil_r, last_n_all.
  - rewrite IH by (rewrite last_n_length; lia). unfold last_n. rewrite !length_app, length_drop, length_app. cbn [length].
    replace (l ++ x :: xs) with ((l ++ [x]) ++ xs) by (by rewrite <- app_assoc).
    rewrite (drop_app (l ++ [x]) xs), (drop_app _ xs), drop_drop, !length_drop, !length_app. cbn [length].
    f_equal; f_equal; lia.
Qed.

(** C8: Whatever happens during a run, each of its messages has the number after
    the one before it, starting after the connection's last; they are sent in
    that order, published to the subscribers if there are any, and of those
    sent the last five hundred are kept, under the number read in their text. *)
Theorem run_messages_are_numbered {W K} `{HSd : !Serde, HSt : !StorageAdapter W, HT : !Timer W, HK : !Keyspace K,
    HC : !Codec ThreadLog.t, HU : !UtcClock W, HR : !ToRfc3339, HD : !Rfc3339,
    HP : !PlanReader, HA : !AnswerReaders, HDR : !DetailReaders, HL : !UnicodeLower} (srv : Server W K)
    thread_id question suite_id agent cid kind (schedule : list (Event W)) (c : ConnState W) :
  length (m_sent (memory c)) <= SENT_BUFFER_CAPACITY ->
  let c' := (run_suite_and_stream srv thread_id question suite_id agent cid kind schedule c).2 in
  exists new,
    chain (m_seq (memory c)) new (m_seq (memory c')) /\
    published c' = published c ++ (if has_hub srv then new else []) /\
    wire c' = wire c ++ omap text_of new /\
    m_sent (memory c') = last_n SENT_BUFFER_CAPACITY (m_sent (memory c) ++ omap kept_text (omap text_of new)) /\
    length (m_sent (memory c')) <= SENT_BUFFER_CAPACITY.
Proof.
  intros Hl c'. destruct (numbered_run srv thread_id question suite_id agent cid kind schedule c) as (new & [P E S N]).
  exists new. fold c' in P, E, S, N. rewrite push_all in S by done. split_and!; try done.
  rewrite S, last_n_length. lia.
Qed.

(** ** The end of a run *)

Definition is_end {W} (e : Event W) : bool := match e with Runs | Ends _ => true | _ => false end.

Definition ends {W} (schedule : list (Event W)) : nat := length (List.filter is_end schedule).

Section ending.
Context {W K : Type} `{HSd : !Serde, HSt : !StorageAdapter W, HT : !Timer W, HK : !Keyspace K,
  HC : !Codec ThreadLog.t, HU : !UtcClock W, HR : !ToRfc3339, HD : !Rfc3339,
  HP : !PlanReader, HA : !AnswerReaders, HDR : !DetailReaders, HL : !UnicodeLower}.
Variables (srv : Server W K) (suite : Suite W) (thread_id suite_id agent cid : string) (policy : DynPolicy).

Notation C := (ConnState W).

(** How many more tasks may end before the run does. *)
Definition tasks_left (ls : LoopState) : nat :=
  match policy with DynAutoApprove => Z.to_nat (MAX_AUTO_RESUMES - ls_resumes ls) | _ => 0 end.

Lemma only_approval_reruns plans frames (c c' : C) kind q :
  tell_frames srv thread_id agent cid policy plans frames c = (Ok (Rerun kind q), c') -> policy = DynAutoApprove.
Proof.
  revert c. induction frames as [|f frames IH]; intros c; [done|].
  destruct f as [k payload display|text meta|prompt|prompt]; cbn [tell_frames]; unfold act_bind; repeat case_match; try done;
    try (by destruct policy); intros; simplify_eq/=; try (by eapply IH); by destruct policy.
Qed.

Lemma task_branch_ends ls r (c c' : C) ls' :
  task_branch srv thread_id agent cid policy ls r c = (Running ls', c') -> (0 <= ls_resumes ls)%Z ->
  tasks_left ls = S (tasks_left ls') /\ (0 <= ls_resumes ls')%Z.
Proof.
  unfold task_branch. destruct r as [frames|e]; [|done].
  destruct (tell_frames _ _ _ _ _ _ _ c) as [[[|kind q]|e] c1] eqn:E; try done.
  apply only_approval_reruns in E as Hp. destruct (charge_auto_resume (ls_resumes ls)) as [n|] eqn:Ec; [|done].
  intros [= <- <-] H0. unfold tasks_left. rewrite Hp. cbn [with_rerun ls_resumes].
  unfold charge_auto_resume, checked_add, MAX_AUTO_RESUMES in *. repeat case_match; simplify_eq. lia.
Qed.

Lemma goes_on_keeps (m : Act C string LoopState) (c c' : C) ls ls' :
  (forall c r c1, m c = (r, c1) -> match r with Ok l => ls_resumes l = ls_resumes ls | Err _ => True end) ->
  goes_on (m c) = (Running ls', c') -> ls_resumes ls' = ls_resumes ls.
Proof.
  intros Hm. specialize (Hm c). destruct (m c) as [[l|e] c1]; cbn; [|done]. intros [= <- <-]. by apply (Hm _ _ eq_refl).
Qed.

Lemma step_resumes ls e (c c' : C) ls' :
  loop_step srv suite thread_id suite_id agent cid policy ls e c = (Running ls', c') -> (0 <= ls_resumes ls)%Z ->
  (0 <= ls_resumes ls')%Z /\ tasks_left ls = (if is_end e then 1 else 0) + tasks_left ls'.
Proof.
  intros Hs H0. assert (ls_resumes ls' = ls_resumes ls -> is_end e = false ->
    (0 <= ls_resumes ls')%Z /\ tasks_left ls = (if is_end e then 1 else 0) + tasks_left ls') as Hkeep.
  { unfold tasks_left. intros -> ->. done. }
  destruct e as [f| | | | |r]; cbn [loop_step] in Hs.
  - injection Hs as <- _. by apply Hkeep.
  - apply Hkeep; [|done]. eapply goes_on_keeps, Hs. intros c0 r c1. unfold plan_branch, act_bind, act_ret.
    repeat case_match; intros; by simplify_eq/=.
  - apply Hkeep; [|done]. eapply goes_on_keeps, Hs. intros c0 r c1. unfold tool_branch, act_bind, act_ret.
    repeat case_match; intros; by simplify_eq/=.
  - apply Hkeep; [|done]. eapply goes_on_keeps, Hs. intros c0 r c1. unfold state_branch, act_bind, act_ret.
    repeat case_match; intros; by simplify_eq/=.
  - destruct (task_call _ _ _ _ _) as [r w]. apply task_branch_ends in Hs as [H1 H2]; [|done]. split; [done|]. cbn. lia.
  - apply task_branch_ends in Hs as [H1 H2]; [|done]. split; [done|]. cbn. lia.
Qed.

Lemma loop_ends ls schedule (c : C) : (0 <= ls_resumes ls)%Z -> tasks_left ls < ends schedule ->
  exists r, (run_loop srv suite thread_id suite_id agent cid policy ls schedule c).1 = Returned r.
Proof.
  revert ls c. induction schedule as [|e schedule IH]; intros ls c H0 He; [unfold ends in He; cbn in He; lia|].
  cbn [run_loop]. destruct (loop_step srv suite thread_id suite_id agent cid policy ls e c) as [[ls'|r] c1] eqn:E; [|by exists r].
  apply step_resumes in E as [H1 H2]; [|done]. apply IH; [done|].
  unfold ends in *. cbn [List.filter] in He. destruct (is_end e); cbn [length] in He; lia.
Qed.
End ending.

(** C9: A run returns once its task has ended: at the first end under every policy
    but automatic approval, and at the latest when one more task has ended
    than the budget has automatic resumes. *)
Theorem run_ends_with_its_tasks {W K} `{HSd : !Serde, HSt : !StorageAdapter W, HT : !Timer W, HK : !Keyspace K,
    HC : !Codec ThreadLog.t, HU : !UtcClock W, HR : !ToRfc3339, HD : !Rfc3339,
    HP : !PlanReader, HA : !AnswerReaders, HDR : !DetailReaders, HL : !UnicodeLower} (srv : Server W K)
    thread_id question suite_id agent cid kind (schedule : list (Event W)) (c : ConnState W) :
  (if decide (build_interrupt_policy (srv_env srv) (has_terminal srv) cid = DynAutoApprove)
   then Z.to_nat MAX_AUTO_RESUMES else 0) < ends schedule ->
  exists r, (run_suite_and_stream srv thread_id question suite_id agent cid kind schedule c).1 = Returned r.
Proof.
  intros He. unfold run_suite_and_stream, run_agent_with_processing_suite.
  destruct (Registry.get (reg srv) suite_id) as [suite|]; [|by eexists].
  destruct (read_log srv thread_id ∅ c) as [[[r cached]|e] c1]; [|by eexists].
  apply loop_ends; [done|]. unfold tasks_left, first_state. cbn [ls_resumes]. rewrite Z.sub_0_r.
  destruct (build_interrupt_policy _ _ _); revert He; case_decide; done || lia.
Qed.

(** ** A server to look at *)

Module Sample.
(** Logs of calls to a model, one like the other; the codec stores how many. *)
Definition step : ThreadStep.t := ThreadStep.LlmStart 7 (Some "m") "plan" None "t" "a".

Definition log (n : nat) : ThreadLog.t :=
  {| ThreadLog.schema_version := 4; ThreadLog.steps := repeat step n; ThreadLog.result := None;
     ThreadLog.title := None; ThreadLog.title_locked := false |}.

Definition codec : Codec ThreadLog.t := {|
  to_value _ := Err "unsupported";
  from_value v := match v with VArray l => Ok (log (length l)) | _ => Err "unsupported" end
|}.

(** One suite, "plain", on the in-memory store with a small codec; somebody
    subscribes and no terminal is attached. *)
Definition env (k : string) : option string := None.

Definition no_frames (thread_id question agent : string) : Act InMemoryStorageAdapter string (list FlowFrame.t) :=
  act_ret [].

Definition server : Server InMemoryStorageAdapter LocalKeyspace :=
  {| reg := Registry.register (plain_suite "plain" no_frames no_frames no_frames) Registry.new; srv_scope := sample_scope; srv_keyspace := Local;
     srv_env := env; has_terminal := false; has_hub := true; delete_embeddings := None |}.
Definition conn : ConnState InMemoryStorageAdapter :=
  new_conn {["t/w/p/threads/x.json" := {| obj_bytes := "a"; obj_etag := next_etag "a" |}]}.

(** Arrays are written as in [CountCodec], objects as their "seq". *)
Definition serde : Serde := {|
  to_vec v := match v with
              | VArray l => Ok (CountCodec.unary (length l))
              | _ => match Json.get v "seq" with
                     | Some (VNumber (PosInt n)) => Ok ("#" +:+ CountCodec.unary (Z.to_nat n))
                     | _ => Err "unsupported"
                     end
              end;
  from_slice b := match b with
                  | String "#"%char b => Ok (VObject [("seq", VNumber (PosInt (Z.of_nat (String.length b))))])
                  | _ => Ok (VArray (repeat VNull (String.length b)))
                  end
|}.

Definition no_answers : AnswerReaders := {| read_ask_data := fun _ => None; read_ask_chart := fun _ => None |}.
Definition no_details : DetailReaders := {| read_reason_detail := fun _ => None; read_review_meta := fun _ => None |}.

(** A run of the suite "plain" on the thread "x". *)
Definition run : list (Event InMemoryStorageAdapter) -> ConnState InMemoryStorageAdapter -> Outcome * ConnState InMemoryStorageAdapter :=
  run_suite_and_stream (HSd := serde) (HSt := @memory_adapter serde) (HC := codec) (HU := still_clock) (HR := one_date)
    (HD := digit_dates) (HP := fun _ => None) (HA := no_answers) (HDR := no_details) (HL := fun s => s)
    server "x" "hi" "plain" "ask" "c" SuiteRunKind.User.
End Sample.

Lemma run_messages_are_numbered_witness :
  let c' := (Sample.run [StateTick; Ends (Ok [FlowFrame.Interrupt (mkFlowKind "await_approval") "go?"])] Sample.conn).2 in
  exists new, chain 0 new 2 /\ published c' = new /\ wire c' = ["#a"; "#aa"] /\ m_sent (memory c') = [(1, "#a"); (2, "#aa")]%Z.
Proof.
  destruct (run_messages_are_numbered (HSd := Sample.serde) (HSt := @memory_adapter Sample.serde) (HC := Sample.codec)
    (HU := still_clock) (HR := one_date) (HD := digit_dates) (HP := fun _ => None) (HA := Sample.no_answers)
    (HDR := Sample.no_details) (HL := fun s => s) Sample.server "x" "hi" "plain" "ask" "c" SuiteRunKind.User
    [StateTick; Ends (Ok [FlowFrame.Interrupt (mkFlowKind "await_approval") "go?"])] Sample.conn)
    as (new & N & P & _ & _ & _); [cbn; lia|].
  exists new. split; [exact N|]. split; [exact P|]. split; vm_compute; reflexivity.
Defined.

Lemma run_ends_with_its_tasks_witness :
  exists r, (Sample.run [ToolTick; Ends (Ok []); StateTick] Sample.conn).1 = Returned r.
Proof.
  apply (run_ends_with_its_tasks (HSd := Sample.serde) (HSt := @memory_adapter Sample.serde) (HC := Sample.codec)
    (HU := still_clock) (HR := one_date) (HD := digit_dates) (HP := fun _ => None) (HA := Sample.no_answers)
    (HDR := Sample.no_details) (HL := fun s => s) Sample.server).
  vm_compute. lia.
Defined.

