(* ===== verification/StreamingSteps.v ===== *)
(** * The steps a client is told

    While the task of a run works, each step that reaches the log is told once
    and in order ([Streaming]'s tool tick), whatever else happens. *)

From stdpp Require Import base list strings gmap.
From Stdlib Require Import ZArith Lia.
From S2P Require Import Prelude.
From S2P Require Import RustStr.
From S2P Require Import Json.
From S2P Require Import Errors.
From S2P Require Import Interrupt.
From S2P Require Import Budget.
From S2P Require Import Scope.
From S2P Require Import Storage.
From S2P Require Import MemoryStorage.
From S2P Require Import Caching.
From S2P Require Import SessionTypes.
From S2P Require Import Samples.
From S2P Require Import ThreadStore.
From S2P Require Import ThreadStoreShared.
From S2P Require Import ThreadStoreOwned.
From S2P Require Import ControlState.
From S2P Require Import Redaction.
From S2P Require Import Dates.
From S2P Require Import View.
From S2P Require Import Suites.
From S2P Require Import WsModels.
From S2P Require Import History.
From S2P Require Import ThreadState.
From S2P Require Import Connection.
From S2P Require Import Streaming.

From S2P Require Import StreamingLaws.

(** ** What the client is told of the log *)

Definition is_step_message (m : ServerMessage.t) : bool :=
  match m with
  | ServerMessage.Phase _ | ServerMessage.ToolStart _ | ServerMessage.ToolEnd _ | ServerMessage.LlmStart _
  | ServerMessage.LlmEnd _ => true
  | _ => false
  end.

Definition step_part (l : list ServerMessage.t) : list ServerMessage.t := List.filter is_step_message l.

(** The messages, but for their heads, that tell the steps [todo] of a log
    from index [i]. *)
Fixpoint messages `{!Rfc3339, !DetailReaders} (steps : list ThreadStep.t) (i : nat) (todo : list ThreadStep.t)
  : list (EventHead -> ServerMessage.t) :=
  match todo with
  | [] => []
  | step :: todo => match step_message steps i step with
                    | Some message => message :: messages steps (S i) todo
                    | None => messages steps (S i) todo
                    end
  end.

Definition headed (f : EventHead -> ServerMessage.t) (m : ServerMessage.t) : Prop := exists h, m = f h.

Section messages.
Context `{HD : !Rfc3339, HDR : !DetailReaders}.

Lemma messages_app steps i l1 l2 : messages steps i (l1 ++ l2) = messages steps i l1 ++ messages steps (i + length l1) l2.
Proof.
  revert i. induction l1 as [|s l1 IH]; intros i; cbn [messages app length]; [by rewrite Nat.add_0_r|].
  rewrite IH, Nat.add_succ_comm. by destruct (step_message steps i s).
Qed.

(** A step is told the same way however the log goes on. *)
Lemma step_message_prefix steps more i step : i < length steps ->
  step_message (steps ++ more) i step = step_message steps i step.
Proof.
  intros Hi. assert (take (S i) (steps ++ more) = take (S i) steps) as Ht by (apply take_app_le; lia).
  assert (phase_at_step_idx (steps ++ more) i = phase_at_step_idx steps i) as Hp.
  { unfold phase_at_step_idx. destruct steps as [|s steps]; [cbn in Hi; lia|]. cbn [app].
    rewrite !app_comm_cons, length_app. cbn [length] in *. rewrite !Nat.min_l by lia. by rewrite Ht. }
  destruct step; cbn [step_message]; rewrite ?Ht, ?Hp; done.
Qed.

Lemma messages_prefix steps more i todo : i + length todo <= length steps ->
  messages (steps ++ more) i todo = messages steps i todo.
Proof.
  revert i. induction todo as [|s todo IH]; intros i Hi; [done|]. cbn [messages length] in *.
  rewrite step_message_prefix by lia. by rewrite IH by lia.
Qed.

Lemma step_message_is steps i step message h : step_message steps i step = Some message -> is_step_message (message h) = true.
Proof. destruct step; cbn; intros Hs; try done; by injection Hs as <-. Qed.
End messages.

Section told.
Context {W K : Type} `{HSd : !Serde, HSt : !StorageAdapter W, HV : !StorageView W, HLw : !StorageLaws W,
  HT : !Timer W, HK : !Keyspace K,
  HC : !Codec ThreadLog.t, HU : !UtcClock W, HR : !ToRfc3339, HD : !Rfc3339,
  HP : !PlanReader, HA : !AnswerReaders, HDR : !DetailReaders, HL : !UnicodeLower}.
Context (times : string -> Prop) `{HO : !ClockOf W times}.
Variables (srv : Server W K) (suite : Suite W) (thread_id key suite_id agent cid : string) (policy : DynPolicy).
Hypothesis Hkey : thread_store_key (srv_scope srv) (srv_keyspace srv) thread_id = Ok key.
(** Asking a suite for its plans writes nothing. *)
Hypothesis Hplans : forall s w, Registry.get (reg srv) suite_id = Some s -> valid w ->
  contents (load_ws_plans s thread_id w).2 = contents w /\ valid (load_ws_plans s thread_id w).2.

Notation C := (ConnState W).

Definition keeps (ct : Spec.Store) (w : W) : Prop := contents w = ct /\ valid w.

(** The computation succeeds, tells exactly these steps, and writes nothing. *)
Definition tells_in {E A} (ct : Spec.Store) (fs : list (EventHead -> ServerMessage.t)) (Q : A -> Prop) (m : Act C E A) : Prop :=
  forall c, keeps ct (world c) -> exists a c' new,
    m c = (Ok a, c') /\ Q a /\ Emits srv new c c' /\ Forall2 headed fs (step_part new) /\ keeps ct (world c').

Lemma tells_ret {E A} ct (a : A) (Q : A -> Prop) : Q a -> tells_in (E := E) ct [] Q (act_ret a).
Proof. intros HQ c Hc. exists a, c, []. split_and!; [done|done|by apply emits_nil|by apply Forall2_nil_2|apply Hc..]. Qed.

Lemma tells_bind {E A B} ct fs1 fs2 (Q : A -> Prop) (Q' : B -> Prop) (m : Act C E A) (k : A -> Act C E B) :
  tells_in ct fs1 Q m -> (forall a, Q a -> tells_in ct fs2 Q' (k a)) -> tells_in ct (fs1 ++ fs2) Q' (act_bind m k).
Proof.
  intros Hm Hk c Hc. destruct (Hm c Hc) as (a & c1 & l1 & E1 & Qa & M1 & F1 & K1).
  destruct (Hk a Qa c1 K1) as (b & c2 & l2 & E2 & Qb & M2 & F2 & K2).
  exists b, c2, (l1 ++ l2). rewrite (act_bind_Ok _ _ _ _ _ E1). split_and!; [done|done|by eapply emits_trans| |apply K2..].
  unfold step_part. rewrite List.filter_app. by apply Forall2_app.
Qed.

Lemma tells_world {E A} ct (Q : A -> Prop) (f : W -> A * W) :
  (forall w, keeps ct w -> Q (f w).1 /\ keeps ct (f w).2) -> tells_in (E := E) ct [] Q (in_world f).
Proof.
  intros Hf c Hc. destruct (Hf _ Hc) as [HQ Hk]. unfold in_world. destruct (f (world c)) as [a w].
  exists a, (mkConn w (memory c) (wire c) (published c) (shown c)), [].
  split_and!; [done|done|by apply emits_nil|by apply Forall2_nil_2|apply Hk..].
Qed.

Lemma tells_term {E} ct ev : tells_in (E := E) ct [] (fun _ => True) (term_emit srv ev).
Proof.
  intros c [Hc Hv]. unfold term_emit. eexists tt, _, []. split; [done|]. split; [done|].
  split; [destruct (has_terminal srv); by apply emits_nil|]. split; [by apply Forall2_nil_2|].
  by destruct (has_terminal srv).
Qed.

Lemma term_world {E} (o : option TerminalEvent.t) (c : C) : exists c',
  (match o with Some ev => term_emit srv ev | None => act_ret tt end) c = (Ok (E := E) tt, c') /\ world c' = world c.
Proof. destruct o; [|by exists c]. unfold term_emit. by destruct (has_terminal srv); eexists. Qed.

Lemma emit_ws_world {E} m (c : C) : exists c', emit_ws (E := E) srv m c = (Ok tt, c') /\ world c' = world c.
Proof.
  unfold emit_ws, act_bind, hub_emit.
  set (c1 := if has_hub srv then mkConn (world c) (memory c) (wire c) (published c ++ [m]) (shown c) else c).
  assert (world c1 = world c) as W1 by (unfold c1; by destruct (has_hub srv)). clearbody c1.
  destruct (term_world (E := E) (terminal_event m) c1) as (c2 & -> & W2).
  destruct (to_vec (ServerMessage.value m)) as [s|e]; [|exists c2; split; [done|congruence]].
  unfold buffer_last, send. destruct (text_seq s); eexists; (split; [done|]); cbn; congruence.
Qed.

(** A numbered message, told on the terminal or not, among [fs] if it tells a
    step. *)
Lemma tells_event {E} ct (message : EventHead -> ServerMessage.t) (pre : EventHead -> option TerminalEvent.t) :
  (forall h, ServerMessage.seq (message h) = Some (eh_seq h)) ->
  (forall h h', is_step_message (message h) = is_step_message (message h')) ->
  tells_in (E := E) ct (if is_step_message (message {| eh_server_time := ""; eh_seq := 0; eh_thread_id := "";
                          eh_thread_seq := None; eh_for_cid := None |}) then [message] else []) (fun _ => True)
    (do! h <- event_head thread_id cid;
     do! _ <- match pre h with Some ev => term_emit srv ev | None => act_ret tt end; emit_ws srv (message h)).
Proof using HO HLw.
  intros Hm His c [Hc Hv]. unfold event_head, conn_now, in_world, act_bind at 1, act_bind at 1.
  pose proof (clock_contents (world c)) as T1. pose proof (clock_valid (world c)) as T2.
  destruct (now_iso (world c)) as [t w]; cbn [fst snd] in *. unfold next_seq, act_bind at 1. cbn [act_ret].
  set (h := {| eh_server_time := t; eh_seq := _; eh_thread_id := thread_id; eh_thread_seq := None; eh_for_cid := Some cid |}).
  set (c1 := set_memory _ _).
  assert (Emits srv [message h] c ((do! _ <- match pre h with Some ev => term_emit srv ev | None => act_ret tt end;
    emit_ws (E := E) srv (message h)) c1).2) as Hem.
  { apply head_message; [by rewrite Hm|done|done|done|done|intros c0; apply quiet_term]. }
  destruct (term_world (E := E) (pre h) c1) as (c2 & E2 & W2).
  destruct (emit_ws_world (E := E) (message h) c2) as (c3 & E3 & W3).
  rewrite (act_bind_Ok _ _ _ _ _ E2) in Hem |- *. rewrite E3 in Hem |- *.
  exists tt, c3, [message h]. split; [done|]. split; [done|]. split; [exact Hem|]. split; [|split].
  - unfold step_part. cbn [List.filter]. rewrite (His _ h). destruct (is_step_message (message h)); repeat constructor. by exists h.
  - rewrite W3, W2. cbn. by rewrite T1.
  - rewrite W3, W2. cbn. by apply T2.
Qed.

Definition cache_ok (ct : Spec.Store) (cached : gmap string CacheEntry) : Prop :=
  forall w, keeps ct w -> coherent key (mkThreadStore w cached).

Lemma cache_ok_empty ct : cache_ok ct ∅.
Proof. intros w [_ Hv]. split; [done|]. intros ce b. cbn. by rewrite lookup_empty. Qed.

(** What the store holds under the thread's key. *)
Definition log_at (ct : Spec.Store) (log : ThreadLog.t) : Prop :=
  exists b, (ct : gmap string string) !! key = Some b /\ decode_log b = Some log /\ readable log.

Lemma tells_read {E A} ct log cached (f : ThreadStore W -> A * ThreadStore W) (g : ThreadLog.t -> A) :
  log_at ct log -> cache_ok ct cached ->
  (forall s s', get_log (srv_scope srv) (srv_keyspace srv) thread_id s = (Ok log, s') -> f s = (g log, s')) ->
  tells_in (E := E) ct [] (fun r => r.1 = g log /\ cache_ok ct r.2) (cached_reader cached f).
Proof using HLw Hkey.
  intros (b & Hb & Hd & Hr) Hc Hf. apply tells_world. intros w Hw. pose proof (Hc w Hw) as Hco.
  destruct (get_owned (srv_scope srv) (srv_keyspace srv) thread_id key (mkThreadStore w cached) b log) as (s' & Eg & C' & S'); try done.
  { unfold object. cbn. destruct Hw as [-> _]. done. }
  rewrite (Hf _ _ Eg). cbn in *. destruct Hw as [Hct Hv]. split; [split; [done|]|].
  - intros w' [Hct' Hv']. apply (coherent_same key s' w'); [done|congruence|done].
  - split; [congruence|apply C'].
Qed.

Lemma clock_keeps ct (w : W) : keeps ct w -> keeps ct (utc_now w).2.
Proof using HO.
  intros [Hc Hv]. pose proof (clock_contents w) as T1. pose proof (clock_valid w) as T2. unfold now_iso in *.
  destruct (utc_now w) as [t w']. cbn in *. split; [by rewrite T1|by apply T2].
Qed.

Lemma elapsed_keeps ct start (w : W) : keeps ct w -> keeps ct (elapsed_ms_since start w).2.
Proof using HO.
  intros Hw. unfold elapsed_ms_since. destruct (parse_from_rfc3339 start); [|done].
  pose proof (clock_keeps ct w Hw) as Hk. by destruct (utc_now w).
Qed.

Lemma items_keep ct l (w : W) : keeps ct w -> keeps ct (ws_items l w).2.
Proof using HO.
  revert w. induction l as [|[id it] l IH]; intros w Hw; [done|]. cbn [ws_items].
  assert (keeps ct (ws_item id it w).2) as H1.
  { unfold ws_item, item_runtime. destruct (as_i64 <$> Item.runtime_ms it); [done|].
    destruct (Item.started_at it) as [s|]; [|done]. destruct (Item.finished_at it); [done|].
    pose proof (elapsed_keeps ct s w Hw) as Hk. by destruct (elapsed_ms_since s w). }
  destruct (ws_item id it w) as [i w1]. cbn in H1. pose proof (IH w1 H1) as H2. by destruct (ws_items l w1).
Qed.

Lemma snapshot_keeps ct st events plans (w : W) :
  keeps ct w -> keeps ct (ws_thread_state_snapshot_from_core st events (reg srv) plans w).2.
Proof using HO.
  intros Hw. unfold ws_thread_state_snapshot_from_core.
  pose proof (items_keep ct (btree_iter (ViewCache.items st)) w Hw) as H1.
  destruct (ws_items _ w) as [items w1]. cbn in H1.
  assert (keeps ct (running_ms st w1).2) as H2.
  { unfold running_ms. destruct (ViewCache.current_phase st) as [cur|]; [|done].
    destruct (ViewCache.items st !! ViewCache.phase_key cur) as [it|]; [|done].
    destruct (Item.finished_at it); [done|]. destruct (Item.started_at it) as [s|]; [|done].
    pose proof (elapsed_keeps ct s w1 H1) as Hk. by destruct (elapsed_ms_since s w1). }
  by destruct (running_ms st w1).
Qed.

Lemma tells_snapshot {E} ct log cached plans : log_at ct log -> cache_ok ct cached ->
  tells_in (E := E) ct [] (fun r => cache_ok ct r.2) (take_snapshot srv thread_id cached plans).
Proof using HO HLw Hkey.
  intros Hl Hc. unfold take_snapshot. eapply (tells_bind ct [] []).
  { apply (tells_read ct log cached _ (fun log => Some (materialize_state_from_log thread_id log))); [done|done|].
    intros s s' Hg. unfold load_materialized_state. by rewrite Hg. }
  intros [st cached1] [E1 C1]. cbn in E1, C1. subst st. eapply (tells_bind ct [] []).
  { apply (tells_read ct log cached1 _ (fun log => build_thread_events_from_log log 500)); [done|done|].
    intros s s' Hg. unfold load_timeline_events. by rewrite Hg. }
  intros [events cached2] [_ C2]. eapply (tells_bind ct [] [] (fun _ => True)).
  { apply tells_world. intros w Hw. split; [done|by apply snapshot_keeps]. }
  intros snap _. by apply tells_ret.
Qed.

Lemma tells_state {E} ct snap : tells_in (E := E) ct [] (fun _ => True) (tell_state srv thread_id cid snap).
Proof using HO HLw.
  apply (tells_bind ct [] [] (fun _ => True)); [apply tells_term|]. intros _ _.
  by apply (tells_event ct (fun h => ServerMessage.ThreadState h snap) (fun _ => None)).
Qed.

Lemma tells_tell_snapshot {E} ct log cached plans : log_at ct log -> cache_ok ct cached ->
  tells_in (E := E) ct [] (cache_ok ct) (tell_snapshot srv thread_id cid cached plans).
Proof using HO HLw Hkey.
  intros Hl Hc. eapply (tells_bind ct [] []); [by eapply tells_snapshot|]. intros [[snap|] cached'] C'; [|by apply tells_ret].
  apply (tells_bind ct [] [] (fun _ => True)); [apply tells_state|]. intros _ _. by apply tells_ret.
Qed.

(** A message about a step, and what follows it. *)
Lemma tells_event_then {E A} ct fs (Q : A -> Prop) (message : EventHead -> ServerMessage.t)
    (pre : EventHead -> option TerminalEvent.t) (k : EventHead -> Act C E A) :
  (forall h, ServerMessage.seq (message h) = Some (eh_seq h)) ->
  (forall h h', is_step_message (message h) = is_step_message (message h')) ->
  (forall h, tells_in ct fs Q (k h)) ->
  tells_in ct ((if is_step_message (message {| eh_server_time := ""; eh_seq := 0; eh_thread_id := "";
                 eh_thread_seq := None; eh_for_cid := None |}) then [message] else []) ++ fs) Q
    (do! h <- event_head thread_id cid;
     do! _ <- (do! _ <- match pre h with Some ev => term_emit srv ev | None => act_ret tt end; emit_ws srv (message h)); k h).
Proof using HO HLw.
  intros Hm His Hk c Hc.
  destruct (tells_event (E := E) ct message pre Hm His c Hc) as (a & c2 & l1 & E1 & _ & M1 & F1 & K1).
  unfold act_bind at 1 in E1. destruct (event_head (E := E) thread_id cid c) as [[h|e] c1] eqn:Eh; [|done].
  destruct (Hk h c2 K1) as (b & c3 & l2 & E2 & Qb & M2 & F2 & K2).
  exists b, c3, (l1 ++ l2). rewrite (act_bind_Ok _ _ _ _ _ Eh).
  rewrite (act_bind_Ok _ _ _ _ _ E1), E2. split; [done|]. split; [done|]. split; [by eapply emits_trans|].
  split; [|done]. unfold step_part. rewrite List.filter_app. by apply Forall2_app.
Qed.

Lemma tells_steps {E} ct log cached plans steps i todo : log_at ct log -> cache_ok ct cached ->
  tells_in (E := E) ct (messages steps i todo) (fun _ => True) (tell_steps srv thread_id cid cached plans steps i todo).
Proof using HO HLw Hkey.
  intros Hl. revert cached i. induction todo as [|step todo IH]; intros cached i Hc; [by apply tells_ret|].
  cbn [tell_steps messages]. unfold tell_step. destruct (step_message steps i step) as [message|] eqn:Hm.
  - assert (forall h, is_step_message (message h) = true) as His by (intros h; by eapply step_message_is).
    change (message :: messages steps (S i) todo) with ([message] ++ messages steps (S i) todo).
    eapply (tells_bind ct [message]); [|intros cached' C'; by apply IH].
    pose proof (tells_event_then (E := E) ct [] (cache_ok ct) message (fun h => terminal_event (message h))
      (fun _ => if is_phase step then tell_snapshot srv thread_id cid cached plans else act_ret cached)) as Ht.
    rewrite His in Ht. apply Ht.
    + intros h. by eapply step_message_seq.
    + intros h h'. by rewrite !His.
    + intros _. destruct (is_phase step); [by eapply tells_tell_snapshot|by apply tells_ret].
  - apply (tells_bind ct [] _ (cache_ok ct)); [by apply tells_ret|]. intros cached' C'. by apply IH.
Qed.

Lemma tells_tool_branch {E} ct log ls : log_at ct log -> ls_emitted ls <= length (ThreadLog.steps log) ->
  tells_in (E := E) ct (messages (ThreadLog.steps log) (ls_emitted ls) (drop (ls_emitted ls) (ThreadLog.steps log)))
    (fun ls' => ls_emitted ls' = length (ThreadLog.steps log)) (tool_branch srv thread_id cid ls).
Proof using HO HLw Hkey.
  intros Hl He. unfold tool_branch. eapply (tells_bind ct []).
  { apply (tells_read ct log ∅ _ (fun log => Ok log)); [done|apply cache_ok_empty|]. by intros s s' Hg. }
  intros [r cached] [E1 C1]. cbn in E1, C1. subst r. cbn zeta.
  destruct (Nat.leb (length (ThreadLog.steps log)) (ls_emitted ls)) eqn:Eb.
  - apply Nat.leb_le in Eb. rewrite drop_ge by done. apply tells_ret. lia.
  - rewrite <- (app_nil_r (messages _ _ _)). apply (tells_bind ct _ [] (fun _ => True)); [by eapply tells_steps|].
    intros _ _. by apply tells_ret.
Qed.

Lemma tells_plan_branch {E} ct ls :
  tells_in (E := E) ct [] (fun ls' => ls_emitted ls' = ls_emitted ls) (plan_branch srv thread_id suite_id cid ls).
Proof using HO HLw Hplans.
  apply (tells_bind ct [] [] (fun _ => True)).
  { unfold load_latest_plans. destruct (Registry.get (reg srv) suite_id) as [s|] eqn:Er; [|by apply tells_ret].
    apply (tells_bind ct [] [] (fun _ => True)); [|intros; by apply tells_ret].
    apply tells_world. intros w [Hc Hv]. destruct (Hplans s w eq_refl Hv) as [H1 H2]. split; [done|]. split; [congruence|done]. }
  intros plans _. destruct (changed_plans (ls_plan_fps ls) plans) as [[[|kind kinds] keys] fps]; [by apply tells_ret|].
  apply (tells_event_then ct [] _ (fun h => ServerMessage.PlansChanged _) (fun h => terminal_event _)); [done|done|].
  intros _. apply (tells_event_then ct [] _ (fun h => ServerMessage.Plans h plans) (fun _ => None)
    (fun _ => act_ret (with_plans fps plans ls))); [done|done|]. intros _. by apply tells_ret.
Qed.

Lemma tells_state_branch {E} ct log ls : log_at ct log ->
  tells_in (E := E) ct [] (fun ls' => ls_emitted ls' = ls_emitted ls) (state_branch srv thread_id cid ls).
Proof using HO HLw Hkey.
  intros Hl. eapply (tells_bind ct [] []); [by apply (tells_snapshot ct log); [|apply cache_ok_empty]|].
  intros [[snap|] cached] _; [|by apply tells_ret]. case_match; [by apply tells_ret|].
  apply (tells_bind ct [] [] (fun _ => True)); [apply tells_state|]. intros _ _. by apply tells_ret.
Qed.

(** Anybody else may change the world, as long as the log only grows. *)
Definition grows (f : W -> W) : Prop :=
  forall w log, valid w -> log_at (contents w) log ->
  exists log', valid (f w) /\ log_at (contents (f w)) log' /\ ThreadLog.steps log `prefix_of` ThreadLog.steps log'.

(** What happens while the task works. *)
Definition working (e : Event W) : Prop :=
  match e with Others f => grows f | PlanTick | ToolTick | StateTick => True | Runs | Ends _ => False end.

(** What tells the steps of a log from index [a] to before [b]. *)
Definition told (steps : list ThreadStep.t) (a b : nat) : list (EventHead -> ServerMessage.t) :=
  messages steps a (take (b - a) (drop a steps)).

Lemma told_app steps a b d : a <= b -> b <= d -> d <= length steps -> told steps a d = told steps a b ++ told steps b d.
Proof using.
  intros H1 H2 H3. unfold told. rewrite <- (take_drop (b - a) (take (d - a) (drop a steps))), messages_app.
  rewrite length_take, length_take, length_drop, take_take, skipn_firstn_comm, drop_drop. f_equal; [f_equal; f_equal; lia|].
  replace (a + Nat.min (b - a) (Nat.min (d - a) (length steps - a))) with b by lia.
  f_equal. replace (a + (b - a)) with b by lia. f_equal. lia.
Qed.

Lemma told_prefix steps more a b : a <= b -> b <= length steps -> told (steps ++ more) a b = told steps a b.
Proof using.
  intros Ha Hb. unfold told. rewrite drop_app_le by lia. rewrite take_app_le by (rewrite length_drop; lia).
  rewrite messages_prefix; [done|]. rewrite length_take, length_drop. lia.
Qed.

Lemma told_all steps a : told steps a (length steps) = messages steps a (drop a steps).
Proof using. unfold told. by rewrite take_ge by (rewrite length_drop; lia). Qed.

(** The claim about a stretch of the run. *)
Definition told_between (ls ls' : LoopState) (c c' : C) (log : ThreadLog.t) : Prop :=
  exists log' new, Emits srv new c c' /\ valid (world c') /\ log_at (contents (world c')) log' /\
    ThreadLog.steps log `prefix_of` ThreadLog.steps log' /\
    ls_emitted ls <= ls_emitted ls' <= length (ThreadLog.steps log') /\
    Forall2 headed (told (ThreadLog.steps log') (ls_emitted ls) (ls_emitted ls')) (step_part new).

Lemma told_branch ct ls ls' (m : Act C string LoopState) (c : C) log fs :
  keeps ct (world c) -> log_at ct log -> ls_emitted ls <= ls_emitted ls' <= length (ThreadLog.steps log) ->
  fs = told (ThreadLog.steps log) (ls_emitted ls) (ls_emitted ls') ->
  tells_in ct fs (fun l => ls_emitted l = ls_emitted ls') m ->
  exists l c', goes_on (m c) = (Running l, c') /\ ls_emitted l = ls_emitted ls' /\ told_between ls l c c' log.
Proof using.
  intros Hk Hl He -> Hm. destruct (Hm c Hk) as (l & c' & new & E & El & M & F & [K1 K2]).
  exists l, c'. rewrite E. split; [done|]. split; [done|]. exists log, new. rewrite K1, El. split_and!; try done; lia.
Qed.

Lemma told_step ls e (c : C) log : working e -> valid (world c) -> log_at (contents (world c)) log ->
  ls_emitted ls <= length (ThreadLog.steps log) ->
  exists ls' c', loop_step srv suite thread_id suite_id agent cid policy ls e c = (Running ls', c') /\
    told_between ls ls' c c' log /\
    (match e with ToolTick => ls_emitted ls' = length (ThreadLog.steps log) /\ log_at (contents (world c')) log | _ => True end).
Proof using HO HLw Hkey Hplans.
  intros Hw Hv Hl He. assert (keeps (contents (world c)) (world c)) as Hk by done.
  assert (told (ThreadLog.steps log) (ls_emitted ls) (ls_emitted ls) = []) as Hnone by (unfold told; by rewrite Nat.sub_diag).
  destruct e as [f| | | | |r]; try done; cbn [loop_step].
  - eexists ls, _. split; [done|]. split; [|done]. destruct (Hw (world c) log Hv Hl) as (log' & Hv' & Hl' & Hp).
    exists log', []. split; [by apply emits_nil|]. split; [done|]. split; [done|]. split; [done|].
    apply prefix_length in Hp as Hlen. split; [lia|]. unfold told. rewrite Nat.sub_diag. by apply Forall2_nil_2.
  - destruct (told_branch _ ls ls (plan_branch srv thread_id suite_id cid ls) c log [] Hk Hl) as (l & c' & E & _ & T);
      [lia|done|apply tells_plan_branch|]. by exists l, c'.
  - destruct (told_branch _ ls (with_emitted (length (ThreadLog.steps log)) ls) (tool_branch srv thread_id cid ls) c log
      (messages (ThreadLog.steps log) (ls_emitted ls) (drop (ls_emitted ls) (ThreadLog.steps log))) Hk Hl)
      as (l & c' & E & El & T); [cbn; lia|by rewrite <- told_all|by apply tells_tool_branch|].
    exists l, c'. split; [done|]. split; [done|]. split; [done|].
    destruct (tells_tool_branch (E := string) _ log ls Hl He c Hk) as (l0 & c0 & new & E0 & _ & _ & _ & [K1 _]).
    rewrite E0 in E. injection E as _ <-. by rewrite K1.
  - destruct (told_branch _ ls ls (state_branch srv thread_id cid ls) c log [] Hk Hl) as (l & c' & E & _ & T);
      [lia|done|by eapply tells_state_branch|]. by exists l, c'.
Qed.

Lemma told_trans ls1 ls2 ls3 (c1 c2 c3 : C) log log2 :
  told_between ls1 ls2 c1 c2 log -> (forall log', log_at (contents (world c2)) log' -> log' = log2) ->
  told_between ls2 ls3 c2 c3 log2 -> told_between ls1 ls3 c1 c3 log.
Proof using.
  intros (log' & l1 & M1 & V1 & L1 & [more1 P1] & E1 & F1) Hu (log3 & l2 & M2 & V2 & L2 & [more2 P2] & E2 & F2).
  apply Hu in L1 as ->. exists log3, (l1 ++ l2). split; [by eapply emits_trans|]. split; [done|]. split; [done|].
  split; [exists (more1 ++ more2); by rewrite P2, P1, app_assoc|]. split; [lia|].
  rewrite (told_app _ _ (ls_emitted ls2)) by lia. unfold step_part. rewrite List.filter_app. apply Forall2_app; [|done].
  rewrite P2, told_prefix by lia. done.
Qed.

Lemma log_at_unique ct log1 log2 : log_at ct log1 -> log_at ct log2 -> log1 = log2.
Proof using. intros (b & H1 & H2 & _) (b' & H3 & H4 & _). congruence. Qed.

Lemma told_loop schedule ls (c : C) log : Forall working schedule -> valid (world c) -> log_at (contents (world c)) log ->
  ls_emitted ls <= length (ThreadLog.steps log) ->
  exists ls' c', run_loop srv suite thread_id suite_id agent cid policy ls schedule c = (Running ls', c') /\
    told_between ls ls' c c' log.
Proof using HO HLw Hkey Hplans.
  revert ls c log. induction schedule as [|e schedule IH]; intros ls c log Hw Hv Hl He.
  { exists ls, c. split; [done|]. exists log, []. split; [by apply emits_nil|]. split; [done|]. split; [done|].
    split; [done|]. split; [lia|]. unfold told. rewrite Nat.sub_diag. by apply Forall2_nil_2. }
  apply Forall_cons in Hw as [Hw1 Hw2]. cbn [run_loop].
  destruct (told_step ls e c log Hw1 Hv Hl He) as (ls1 & c1 & E1 & T1 & _). rewrite E1.
  pose proof T1 as (log1 & l1 & M1 & V1 & L1 & P1 & N1 & F1).
  destruct (IH ls1 c1 log1 Hw2 V1 L1) as (ls2 & c2 & E2 & T2); [lia|].
  exists ls2, c2. split; [done|]. eapply told_trans; [done| |done]. intros log'. intros L'. by eapply log_at_unique.
Qed.

Lemma run_loop_app schedule e ls (c : C) :
  run_loop srv suite thread_id suite_id agent cid policy ls (schedule ++ [e]) c =
  match run_loop srv suite thread_id suite_id agent cid policy ls schedule c with
  | (Running ls', c') => loop_step srv suite thread_id suite_id agent cid policy ls' e c'
  | returned => returned
  end.
Proof using.
  revert ls c. induction schedule as [|e' schedule IH]; intros ls c; cbn [app run_loop].
  - by destruct (loop_step _ _ _ _ _ _ _ ls e c) as [[?|?] ?].
  - destruct (loop_step _ _ _ _ _ _ _ ls e' c) as [[?|?] ?]; [apply IH|done].
Qed.
End told.

(** C7: While the task of a run works and others only add to the thread's log,
    whatever the order of the ticks: after a tool tick the connection has told
    every step that was added to the log since the run first read it and that
    has a message, each once and in the order of the log, and no step that was
    there before. *)
Theorem steps_are_told_once {W K} `{HSd : !Serde, HSt : !StorageAdapter W, HV : !StorageView W, HLw : !StorageLaws W,
    HT : !Timer W, HK : !Keyspace K, HC : !Codec ThreadLog.t, HU : !UtcClock W,
    HR : !ToRfc3339, HD : !Rfc3339, HP : !PlanReader, HA : !AnswerReaders, HDR : !DetailReaders, HL : !UnicodeLower}
    (times : string -> Prop) `{HO : !ClockOf W times} (srv : Server W K) (suite : Suite W)
    thread_id key question suite_id agent cid kind (schedule : list (Event W)) (c : ConnState W) log :
  thread_store_key (srv_scope srv) (srv_keyspace srv) thread_id = Ok key ->
  Registry.get (reg srv) suite_id = Some suite ->
  (forall w, valid w -> contents (load_ws_plans suite thread_id w).2 = contents w /\ valid (load_ws_plans suite thread_id w).2) ->
  valid (world c) -> log_at key (contents (world c)) log -> Forall (working key) schedule ->
  exists ls' c' log' added new,
    run_suite_and_stream srv thread_id question suite_id agent cid kind (schedule ++ [ToolTick]) c = (Running ls', c') /\
    Emits srv new c c' /\
    log_at key (contents (world c')) log' /\
    ThreadLog.steps log' = ThreadLog.steps log ++ added /\
    Forall2 headed (messages (ThreadLog.steps log') (length (ThreadLog.steps log)) added) (step_part new).
Proof.
  intros Hkey Hreg Hplans Hv Hl Hw. unfold run_suite_and_stream, run_agent_with_processing_suite. rewrite Hreg.
  assert (forall s w, Registry.get (reg srv) suite_id = Some s -> valid w ->
    contents (load_ws_plans s thread_id w).2 = contents w /\ valid (load_ws_plans s thread_id w).2) as Hp.
  { intros s w Hs. rewrite Hreg in Hs. injection Hs as <-. apply Hplans. }
  set (policy := build_interrupt_policy _ _ _).
  destruct (tells_read srv thread_id key Hkey (E := string) (contents (world c)) log ∅
    (get_log (srv_scope srv) (srv_keyspace srv) thread_id) (fun log => Ok log) Hl (cache_ok_empty key _)
    (fun s s' Hg => Hg) c) as ([r cached] & c1 & l1 & E1 & [Er _] & M1 & F1 & [K1 V1]); [done|].
  cbn in Er. subst r. unfold read_log. rewrite E1. cbn zeta. rewrite run_loop_app.
  set (ls := first_state kind question (length (ThreadLog.steps log))).
  destruct (told_loop times srv suite thread_id key suite_id agent cid policy Hkey Hp schedule ls c1 log)
    as (ls2 & c2 & E2 & T2); [done|done|by rewrite K1|done|]. rewrite E2.
  pose proof T2 as (log2 & l2 & _ & V2 & L2 & _ & N2 & _).
  destruct (told_step times srv suite thread_id key suite_id agent cid policy Hkey Hp ls2 ToolTick c2 log2)
    as (ls3 & c3 & E3 & T3 & [N3 L3]); [done|done|done|lia|].
  destruct (told_trans srv key ls ls2 ls3 c1 c2 c3 log log2 T2 (fun l H => log_at_unique key _ _ _ H L2) T3)
    as (log3 & l3 & M3 & _ & L3' & [added Ha] & _ & F3).
  pose proof (log_at_unique _ _ _ _ L3 L3') as <-. clear L3'.
  exists ls3, c3, log2, added, (l1 ++ l3). split; [done|]. split; [by eapply emits_trans|]. split; [done|]. split; [done|].
  apply Forall2_nil_inv_l in F1. unfold step_part. rewrite List.filter_app. unfold step_part in F1. rewrite F1. cbn [app].
  rewrite N3, told_all in F3. cbn [ls first_state ls_emitted] in F3. rewrite Ha in F3 |- *.
  by rewrite drop_app_length in F3.
Qed.

(** Somebody adds two calls to the log under a key. *)
Definition two_more (key : string) (g : InMemoryStorageAdapter) : InMemoryStorageAdapter :=
  match (g : gmap string StoredObject) !! key with
  | Some o => <[key := {| obj_bytes := obj_bytes o +:+ "aa"; obj_etag := next_etag (obj_bytes o +:+ "aa") |}]> (g : gmap string StoredObject)
  | None => g
  end.

Lemma append_length a b : String.length (a +:+ b) = String.length a + String.length b.
Proof. induction a as [|x a IH]; [done|]. cbn. by rewrite IH. Qed.

Lemma two_more_grow key :
  grows (HSd := CountCodec.serde) (HV := memory_view) (HC := Sample.codec) key (two_more key).
Proof.
  intros g log Hv (b & Hb & Hd & Hr). unfold two_more. cbn in Hb. rewrite lookup_fmap in Hb.
  apply fmap_Some in Hb as (o & Eo & ->). rewrite Eo.
  exists (Sample.log (String.length (obj_bytes o) + 2)). split; [cbn; by apply tagged_insert|]. split.
  - exists (obj_bytes o +:+ "aa"). split; [cbn; by rewrite lookup_fmap, lookup_insert_eq|]. split; [|done].
    unfold decode_log. cbn. by rewrite repeat_length, append_length.
  - unfold decode_log in Hd. cbn in Hd. rewrite repeat_length in Hd. injection Hd as <-. cbn [Sample.log ThreadLog.steps].
    rewrite repeat_app. by eexists.
Qed.

Lemma steps_are_told_once_witness :
  exists ls' c' new,
    run_suite_and_stream (HSd := CountCodec.serde) (HSt := @memory_adapter CountCodec.serde) (HC := Sample.codec)
      (HU := still_clock) (HR := one_date) (HD := digit_dates) (HP := fun _ => None)
      (HA := {| read_ask_data := fun _ => None; read_ask_chart := fun _ => None |})
      (HDR := {| read_reason_detail := fun _ => None; read_review_meta := fun _ => None |}) (HL := fun s => s)
      Sample.server "x" "hi" "plain" "ask" "c" SuiteRunKind.User
      [ToolTick; Others (two_more "t/w/p/threads/x.json"); PlanTick; StateTick; ToolTick; ToolTick] Sample.conn
      = (Running ls', c') /\
    published c' = new /\ length (step_part new) = 2.
Proof.
  destruct (steps_are_told_once (HSd := CountCodec.serde) (HSt := @memory_adapter CountCodec.serde) (HC := Sample.codec)
      (HV := memory_view) (HLw := @memory_laws CountCodec.serde)
      (HU := still_clock) (HR := one_date) (HD := digit_dates) (HP := fun _ => None)
      (HA := {| read_ask_data := fun _ => None; read_ask_chart := fun _ => None |})
      (HDR := {| read_reason_detail := fun _ => None; read_review_meta := fun _ => None |}) (HL := fun s => s)
      (eq "t") (HO := still_clock_of _ _) Sample.server
      (plain_suite "plain" Sample.no_frames Sample.no_frames Sample.no_frames)
      "x" "t/w/p/threads/x.json" "hi" "plain" "ask" "c" SuiteRunKind.User
      [ToolTick; Others (two_more "t/w/p/threads/x.json"); PlanTick; StateTick; ToolTick] Sample.conn (Sample.log 1))
    as (ls' & c' & log' & added & new & E & M & L & A & F); [done|done|done| | | |].
  - apply map_Forall_singleton. reflexivity.
  - exists "a". split; [reflexivity|]. split; reflexivity.
  - repeat constructor. apply two_more_grow.
  - exists ls', c', new. split; [exact E|]. pose proof (emits_published _ _ _ _ M) as P. split; [exact P|].
    transitivity (length (step_part (published c'))); [by rewrite P|].
    change c' with (Running ls', c').2. rewrite <- E. vm_compute. reflexivity.
Defined.
