(* ===== verification/Handlers.v ===== *)
(** * Requests of a client

    [src/src/transport/src/ws/protocol.rs] and [handlers.rs]: the requests a
    client may send and what is done for each; [server.rs], the loop that
    reads them from a connection.  A request that starts a run is served
    until the run returns, and is given the schedule of that run
    ([Streaming]). *)

From stdpp Require Import base list strings gmap.
From Stdlib Require Import ZArith Lia.
From S2P Require Import Prelude.
From S2P Require Import RustStr.
From S2P Require Import Json.
From S2P Require Import Errors.
From S2P Require Import Scope.
From S2P Require Import Storage.
From S2P Require Import MemoryStorage.
From S2P Require Import Caching.
From S2P Require Import SessionTypes.
From S2P Require Import Samples.
From S2P Require Import ThreadStore.
From S2P Require Import ThreadStoreOwned.
From S2P Require Import ControlState.
From S2P Require Import Redaction.
From S2P Require Import Dates.
From S2P Require Import Suites.
From S2P Require Import WsModels.
From S2P Require Import History.
From S2P Require Import ThreadState.
From S2P Require Import Connection.
From S2P Require Import Streaming.
From S2P Require Import StreamingLaws.

(** [uuid]: [Uuid::parse_str(s).is_ok()] and [Uuid::new_v4().to_string()]. *)
Class Uuids (W : Type) := { is_uuid : string -> bool; new_v4 : W -> string * W }.

(** Why a request has no answer: it is refused, or [to_string] failed where
    the code unwraps it. *)
Inductive Failure : Type := Refused (e : string) | Panicked (e : string).

(** [list] and [suites] only have a head. *)
Definition plain_request (typ : string) (v : Value) : option string := request_head typ v.

(** [s] between quotation marks. *)
Definition quoted (s : string) : string := dquote +:+ s +:+ dquote.

Definition serialization_error : string :=
  "{" +:+ quoted "type" +:+ ":" +:+ quoted "error" +:+ "," +:+ quoted "error" +:+ ":" +:+ quoted "serialization error" +:+ "}".
Definition internal_error : string :=
  "{" +:+ quoted "v" +:+ ":1," +:+ quoted "type" +:+ ":" +:+ quoted "error" +:+ "," +:+ quoted "server_time" +:+ ":"
  +:+ quoted EmptyString +:+ "," +:+ quoted "error" +:+ ":" +:+ quoted "internal" +:+ "}".

(** The text of the last message of a log, for the list of threads. *)
Fixpoint last_preview `{!Serde} (rev_steps : list ThreadStep.t) : option string :=
  match rev_steps with
  | [] => None
  | ThreadStep.User text _ _ _ :: _ => Some text
  | ThreadStep.Complete _ payload display _ _ _ :: _ =>
      Some (match display with Some d => d | None => final_display_text_from_payload payload end)
  | _ :: rest => last_preview rest
  end.

Section handlers.
Context {W K : Type} `{HSd : !Serde, HSt : !StorageAdapter W, HT : !Timer W, HK : !Keyspace K,
  HC : !Codec ThreadLog.t, HE : !Codec ControlStateEnvelope, HU : !UtcClock W, HR : !ToRfc3339, HD : !Rfc3339,
  HP : !PlanReader, HA : !AnswerReaders, HDR : !DetailReaders, HL : !UnicodeLower, HI : !Uuids W,
  HQ : !RequestErrors}.
Variable srv : Server W K.

Notation C := (ConnState W).

(** ** Requests that are answered at once *)

Definition refuse {A} (r : Result A string) : Act C Failure A := act_lift (res_map_err Refused r).

Definition request {A} (what : string) (read : Value -> option A) (v : Value) : Act C Failure A :=
  refuse (parse_request what read v).

(** An operation of a reader or a writer, its error told to the client. *)
Definition stored {A} (m : Op (ThreadStore W) A) : Act C Failure A := act_map_err Refused (with_store m).

(** [to_string(..).unwrap()], kept for the client. *)
Definition unwrap_text (v : Value) : Act C Failure string :=
  match to_vec v with Ok s => act_ret s | Err e => act_err (Panicked e) end.

Definition answer (v : Value) : Act C Failure (list string) :=
  do! s <- unwrap_text v;
  do! _ <- buffer_last s;
  act_ret [s].

(** The checks of a request that names a thread. *)
Definition check_thread {E} (inj : string -> E) (thread_id : string) : Act C E unit :=
  if str_is_empty thread_id then act_err (inj "thread_id required")
  else if negb (is_uuid thread_id) then act_err (inj "invalid thread_id")
  else act_ret tt.

(** The thread as the list shows it. *)
Definition list_item (log : ThreadLog.t) (seen : Z) (tid suite agent : string) : ListThread.t :=
  {| ListThread.thread_id := tid; ListThread.title := ThreadLog.title log;
     ListThread.last_activity := ThreadStep.ts <$> last (ThreadLog.steps log);
     ListThread.unread_count := Some (compute_unread_for_log log seen).2;
     ListThread.last_message_preview := last_preview (rev (ThreadLog.steps log));
     ListThread.suite_id := Some suite; ListThread.agent_type := Some agent |}.

(** The number of the thread's last message is at least that of the log's. *)
Definition raise_thread_seq (tid : string) (n : Z) (m : Memory) : Memory :=
  with_thread_seq tid (Z.max (default 0%Z (m_thread_seq m !! tid)) n) m.

Definition describe_thread {E} (tid : string) : Act C E ListThread.t :=
  do! (suite, agent) <- resolve_thread_context srv tid;
  do! r <- with_reader (get_log (srv_scope srv) (srv_keyspace srv) tid);
  match r with
  | Err _ => act_ret (ListThread.new tid)
  | Ok log =>
      fun c =>
        let seen := default 0%Z (m_seen (memory c) !! tid) in
        (do! _ <- remember (raise_thread_seq tid (compute_unread_for_log log seen).1);
         act_ret (list_item log seen tid suite agent)) c
  end.

Fixpoint describe_threads {E} (ids : list string) : Act C E (list ListThread.t) :=
  match ids with
  | [] => act_ret []
  | tid :: ids => do! item <- describe_thread tid; do! items <- describe_threads ids; act_ret (item :: items)
  end.

Definition handle_list_message (v : Value) : Act C Failure (list string) :=
  do! _ <- request "list" (plain_request "list") v;
  do! ids <- with_reader (list_thread_ids (srv_scope srv) (srv_keyspace srv));
  do! items <- describe_threads ids;
  do! t <- conn_now;
  do! n <- next_seq;
  let resp := ServerMessage.List {| ls_server_time := t; ls_seq := n; threads := items |} in
  let s := match to_vec (ServerMessage.plain resp) with Ok s => s | Err _ => serialization_error end in
  do! _ <- buffer_last s;
  act_ret [s].

Definition handle_suites_message (v : Value) : Act C Failure (list string) :=
  do! _ <- request "suites" (plain_request "suites") v;
  do! t <- conn_now;
  do! n <- next_seq;
  answer (ServerMessage.plain (ServerMessage.Suites
    {| ss_server_time := t; ss_seq := n; suites := build_suites_catalog (reg srv);
       default_suite := default_suite_id (reg srv) |})).

Definition handle_history_message (v : Value) : Act C Failure (list string) :=
  do! req <- request "history" history_request v;
  let thread_id := hq_thread_id req in
  do! _ <- check_thread Refused thread_id;
  do! (suite, agent) <- resolve_thread_context srv thread_id;
  (* one reader for both *)
  do! (r, cached) <- cached_reader ∅ (build_history (srv_scope srv) (srv_keyspace srv) thread_id
                                        (before_thread_seq req) (hq_limit req));
  do! (messages, next_before) <- refuse r;
  do! t <- conn_now;
  do! n <- next_seq;
  do! (r, _) <- cached_reader cached (get_log (srv_scope srv) (srv_keyspace srv) thread_id);
  do! log <- refuse (res_map_err CoreError.display r);
  answer (ServerMessage.value (ServerMessage.History
    {| hr_server_time := t; hr_seq := n; hr_thread_id := thread_id; hr_title := ThreadLog.title log;
       hr_suite_id := Some suite; hr_agent_type := Some agent; hr_messages := messages;
       next_before_thread_seq := next_before |})).

(** [seen] does not look whether the id is one of a thread. *)
Definition handle_seen_message (v : Value) : Act C Failure (list string) :=
  do! req <- request "seen" seen_request v;
  let thread_id := sn_thread_id req in
  do! _ <- remember (with_seen thread_id (up_to_thread_seq req));
  do! log <- stored (get_log (srv_scope srv) (srv_keyspace srv) thread_id);
  let unread := (compute_unread_for_log log (up_to_thread_seq req)).2 in
  do! t <- conn_now;
  do! n <- next_seq;
  answer (ServerMessage.value (ServerMessage.Unread
    {| ur_server_time := t; ur_seq := n; ur_thread_id := thread_id; ur_unread_count := unread |})).

Definition handle_plans_message (v : Value) : Act C Failure (list string) :=
  do! req <- request "plans" (thread_request "plans") v;
  let thread_id := tr_thread_id req in
  do! _ <- check_thread Refused thread_id;
  do! suite <- resolve_suite_id_for_thread srv thread_id;
  do! plans <- load_latest_plans srv suite thread_id;
  do! h <- event_head thread_id (tr_cid req);
  do! _ <- term_emit srv (TerminalEvent.Plans thread_id plans);
  answer (ServerMessage.plain (ServerMessage.Plans h plans)).

Definition handle_thread_state_message (v : Value) : Act C Failure (list string) :=
  do! req <- request "thread_state" (thread_request "thread_state") v;
  let thread_id := tr_thread_id req in
  do! _ <- check_thread Refused thread_id;
  do! suite <- resolve_suite_id_for_thread srv thread_id;
  do! plans <- load_latest_plans srv suite thread_id;
  do! (snap, _) <- take_snapshot srv thread_id ∅ plans;
  match snap with
  | None => act_err (Refused "thread not found")
  | Some snap =>
      do! _ <- term_emit srv (TerminalEvent.ThreadState snap);
      do! h <- event_head thread_id (tr_cid req);
      answer (ServerMessage.plain (ServerMessage.ThreadState h snap))
  end.

Definition handle_delete_message (v : Value) : Act C Failure (list string) :=
  do! req <- request "delete" (thread_request "delete") v;
  let thread_id := tr_thread_id req in
  do! _ <- check_thread Refused thread_id;
  do! _ <- stored (delete_thread (srv_scope srv) (srv_keyspace srv) thread_id);
  do! _ <- match delete_embeddings srv with
           | Some drop => in_world (fun w => (tt, drop thread_id w))
           | None => act_ret tt
           end;
  do! t <- conn_now;
  do! s <- unwrap_text (ServerMessage.value (ServerMessage.Ok {| ok_server_time := t; ok_cid := Some (tr_cid req) |}));
  act_ret [s].

(** The [match typ] of [handle_message]. *)
Definition message_handlers : list (string * (Value -> Act C Failure (list string))) :=
  [("list", handle_list_message); ("suites", handle_suites_message); ("history", handle_history_message);
   ("seen", handle_seen_message); ("plans", handle_plans_message); ("thread_state", handle_thread_state_message);
   ("delete", handle_delete_message)].

Definition handle_message (text : string) : Act C Failure (list string) :=
  match from_slice text with
  | Err e => act_err (Refused e)
  | Ok v =>
      match str_at "type" v with
      | None => act_err (Refused "missing field `type`")
      | Some typ =>
          match assoc_get typ message_handlers with
          | Some handle => handle v
          | None => act_err (Refused "unknown type")
          end
      end
  end.

(** ** Requests that start a run *)

(** What precedes a run, then the run. *)
Definition and_then {A} (m : Act C string A) (k : A -> C -> Outcome * C) : C -> Outcome * C :=
  fun c => match m c with
           | (Ok a, c) => k a c
           | (Err e, c) => (Returned (Err e), c)
           end.

(** A message that is only sent. *)
Definition send_plain (m : ServerMessage.t) : Act C string string :=
  match to_vec (ServerMessage.plain m) with
  | Ok s => act_ret s
  | Err e => act_err ("JSON serialization failed: " +:+ e)
  end.

Definition acknowledge (cid : string) : Act C string unit :=
  do! t <- conn_now;
  do! s <- send_plain (ServerMessage.Ok {| ok_server_time := t; ok_cid := Some cid |});
  send s.

(** An operation of a writer with this cache. *)
Definition with_writer {A} (cached : gmap string CacheEntry) (m : Op (ThreadStore W) A)
  : Act C string (A * gmap string CacheEntry) :=
  do! (r, cached) <- cached_reader cached m;
  do! a <- act_lift (res_map_err CoreError.display r);
  act_ret (a, cached).

(** A step logged at the time it is. *)
Definition log_now (thread_id : string) (step : string -> ThreadStep.t) : Op (ThreadStore W) unit :=
  do! ts <- store_now;
  append_step (srv_scope srv) (srv_keyspace srv) thread_id (step ts).

Definition log_switch (thread_id agent : string) (from : option string) (to_ : string) : Op (ThreadStore W) unit :=
  log_now thread_id (fun ts => ThreadStep.SwitchSuite from to_ Observation.success ts agent).
Definition log_switch_agent (thread_id agent : string) (from : option string) (to_ : string) : Op (ThreadStore W) unit :=
  log_now thread_id (fun ts => ThreadStep.SwitchAgent from to_ Observation.success ts agent).
Definition log_user (thread_id agent text : string) : Op (ThreadStore W) unit :=
  log_now thread_id (fun ts => ThreadStep.User text Observation.success ts agent).

(** The user's question, and a title made of it unless there is one. *)
Definition log_question (thread_id agent question : string) : Op (ThreadStore W) unit :=
  do! _ <- log_user thread_id agent question;
  set_title_if_absent (srv_scope srv) (srv_keyspace srv) thread_id (truncate_title question 64).

(** A new thread: its id, the suite and the agent, and the question. *)
Definition new_thread (v : Value) : Act C string (string * NewRequest * string) :=
  do! req <- act_lift (parse_request "new" new_request v);
  let question := default EmptyString (nr_question req) in
  do! thread_id <- in_world new_v4;
  let suite := nr_suite_id req in
  let agent := normalize_agent (nr_agent_type req) in
  do! _ <- remember (fun m => with_agent thread_id agent (with_suite thread_id suite m));
  do! _ <- with_store (do! _ <- log_switch thread_id agent None suite; log_switch_agent thread_id agent None agent);
  do! _ <- acknowledge (nr_cid req);
  do! t <- conn_now;
  do! n <- next_seq;
  do! s <- send_plain (ServerMessage.ThreadAssigned
    {| ta_server_time := t; ta_seq := n; ta_cid := nr_cid req; ta_thread_id := thread_id |});
  do! _ <- buffer_last s;
  do! _ <- send s;
  do! _ <- if is_blank question then act_ret tt else with_store (log_question thread_id agent question);
  act_ret (thread_id, req, question).

Definition process_new (v : Value) (schedule : list (Event W)) : C -> Outcome * C :=
  and_then (new_thread v) (fun '(thread_id, req, question) =>
    if is_blank question then fun c => (Returned (Ok tt), c)
    else run_suite_and_stream srv thread_id question (nr_suite_id req) (normalize_agent (nr_agent_type req))
           (nr_cid req) SuiteRunKind.New schedule).

(** The suite and the agent the client asks for, logged if they are new. *)
Definition switch_to (thread_id suite agent : string) : Act C string unit :=
  do! (current_suite, current_agent) <- resolve_thread_context srv thread_id;
  do! cached <- (if String.eqb current_suite suite then act_ret ∅
                 else do! (_, cached) <- with_writer ∅ (log_switch thread_id agent (Some current_suite) suite);
                      act_ret cached);
  do! _ <- remember (with_suite thread_id suite);
  do! _ <- (if String.eqb current_agent agent then act_ret tt
            else do! _ <- with_writer cached (log_switch_agent thread_id agent (Some current_agent) agent); act_ret tt);
  remember (with_agent thread_id agent).

(** The state of an opened thread. *)
Definition tell_opened (thread_id cid suite : string) : Act C string unit :=
  do! plans <- load_latest_plans srv suite thread_id;
  do! (snap, _) <- take_snapshot srv thread_id ∅ plans;
  match snap with
  | None => act_ret tt
  | Some snap =>
      do! h <- event_head thread_id cid;
      do! s <- send_plain (ServerMessage.ThreadState h snap);
      do! _ <- buffer_last s;
      send s
  end.

Definition open_thread (v : Value) : Act C string (OpenRequest * string * string * string) :=
  do! req <- act_lift (parse_request "open" open_request v);
  let thread_id := or_thread_id req in
  do! _ <- check_thread id thread_id;
  let question := default "Continue." (or_question req) in
  let requested_suite := or_suite_id req in
  let requested_agent := normalize_agent (or_agent_type req) in
  do! _ <- switch_to thread_id requested_suite requested_agent;
  do! _ <- acknowledge (or_cid req);
  do! _ <- tell_opened thread_id (or_cid req) requested_suite;
  fun c =>
    let suite := default requested_suite (m_current_suite (memory c) !! thread_id) in
    let agent := default requested_agent (m_current_agent (memory c) !! thread_id) in
    (do! _ <- if is_blank question then act_ret tt else with_store (log_question thread_id agent question);
     act_ret (req, question, suite, agent)) c.

Definition process_open (v : Value) (schedule : list (Event W)) : C -> Outcome * C :=
  and_then (open_thread v) (fun '(req, question, suite, agent) =>
    run_suite_and_stream srv (or_thread_id req) question suite agent (or_cid req) SuiteRunKind.Open schedule).

(** The user's text, logged after the acknowledgement, and where it goes. *)
Definition user_says (thread_id cid text : string) : Act C string (string * string) :=
  do! (suite, agent) <- resolve_thread_context srv thread_id;
  do! _ <- acknowledge cid;
  do! _ <- with_store (log_user thread_id agent text);
  act_ret (suite, agent).

Definition process_user (v : Value) (schedule : list (Event W)) : C -> Outcome * C :=
  and_then (do! req <- act_lift (parse_request "user" user_request v);
            let thread_id := us_thread_id req in
            do! _ <- (if str_is_empty thread_id || is_blank (us_text req)
                      then act_err "thread_id and text required"
                      else if negb (is_uuid thread_id) then act_err "invalid thread_id" else act_ret tt);
            do! r <- user_says thread_id (us_cid req) (us_text req);
            act_ret (req, r))
    (fun '(req, (suite, agent)) =>
      run_suite_and_stream srv (us_thread_id req) (us_text req) suite agent (us_cid req) SuiteRunKind.User schedule).

(** [process_approve] and [process_reject] *)
Definition process_decision (typ : string) (v : Value) (schedule : list (Event W)) : C -> Outcome * C :=
  and_then (do! req <- act_lift (parse_request typ (thread_request typ) v);
            do! _ <- check_thread id (tr_thread_id req);
            do! r <- user_says (tr_thread_id req) (tr_cid req) typ;
            act_ret (req, r))
    (fun '(req, (suite, agent)) =>
      run_suite_and_stream srv (tr_thread_id req) "Continue." suite agent (tr_cid req) SuiteRunKind.User schedule).

Definition process_approve : Value -> list (Event W) -> C -> Outcome * C := process_decision "approve".
Definition process_reject : Value -> list (Event W) -> C -> Outcome * C := process_decision "reject".

(** ** The connection *)

(** The types [start_with_ctx] looks for first. *)
Definition run_handlers : list (string * (Value -> list (Event W) -> C -> Outcome * C)) :=
  [("new", process_new); ("open", process_open); ("user", process_user); ("approve", process_approve);
   ("reject", process_reject)].

(** The run a text asks for, if it asks for one. *)
Definition run_request (text : string) : option (Value * (Value -> list (Event W) -> C -> Outcome * C)) :=
  match from_slice text with
  | Err _ => None
  | Ok v => (fun process => (v, process)) <$> (str_at "type" v ≫= fun typ => assoc_get typ run_handlers)
  end.

(** The answer to a request that failed. *)
Definition error_text (e server_time : string) (cid : option string) : string :=
  match to_vec (ServerMessage.plain (ServerMessage.Error
    {| er_server_time := server_time; er_error := e; er_code := Some "invalid_request"; er_cid := cid;
       retry_after_ms := None |})) with
  | Ok s => s
  | Err _ => internal_error
  end.

Definition send_error {E} (e : string) (cid : option string) : Act C E unit :=
  do! t <- conn_now; send (error_text e t cid).

(** The [cid] of a text, if it has one. *)
Definition cid_guess (text : string) : option string :=
  match from_slice text with Ok v => str_at "cid" v | Err _ => None end.

Fixpoint send_frames {E} (frames : list string) : Act C E unit :=
  match frames with
  | [] => act_ret tt
  | f :: frames => do! _ <- term_emit srv (TerminalEvent.RawJson f); do! _ <- send f; send_frames frames
  end.

(** What the client sends, a text with the schedule of the run it may start. *)
Inductive Incoming : Type := Text (s : string) (schedule : list (Event W)) | Close | Other.

(** Reading the next message; still in a run; or gone. *)
Inductive Connected : Type := Open | Busy (ls : LoopState) | Gone.

Definition serve_text (text : string) (schedule : list (Event W)) (c : C) : Connected * C :=
  match run_request text with
  | Some (v, process) =>
      match process v schedule c with
      | (Running ls, c) => (Busy ls, c)
      | (Returned (Ok _), c) => (Open, c)
      | (Returned (Err e), c) => (Open, (send_error (E := string) e (str_at "cid" v) c).2)
      end
  | None =>
      match handle_message text c with
      | (Ok frames, c) => (Open, (send_frames (E := string) frames c).2)
      | (Err (Refused e), c) => (Open, (send_error (E := string) e (cid_guess text) c).2)
      | (Err (Panicked _), c) => (Gone, c)
      end
  end.

Fixpoint serve (incoming : list Incoming) (c : C) : Connected * C :=
  match incoming with
  | [] => (Open, c)
  | Text s schedule :: incoming =>
      match serve_text s schedule c with
      | (Open, c) => serve incoming c
      | done => done
      end
  | Close :: _ => (Gone, c)
  | Other :: incoming => serve incoming c
  end.

(** ** Requests that are refused *)

(** Why a request is refused before anything is done for it. *)
Definition bad_thread (thread_id : string) : option string :=
  if str_is_empty thread_id then Some "thread_id required"
  else if negb (is_uuid thread_id) then Some "invalid thread_id" else None.

Definition bad_text (thread_id text : string) : option string :=
  if str_is_empty thread_id || is_blank text then Some "thread_id and text required"
  else if negb (is_uuid thread_id) then Some "invalid thread_id" else None.

Definition unless {A} (what : string) (read : Value -> option A) (bad : A -> option string) (v : Value) : option string :=
  match parse_request what read v with Ok r => bad r | Err e => Some e end.

Definition checks : list (string * (Value -> option string)) :=
  [("new", unless "new" new_request (fun _ => None));
   ("open", unless "open" open_request (fun r => bad_thread (or_thread_id r)));
   ("user", unless "user" user_request (fun r => bad_text (us_thread_id r) (us_text r)));
   ("approve", unless "approve" (thread_request "approve") (fun r => bad_thread (tr_thread_id r)));
   ("reject", unless "reject" (thread_request "reject") (fun r => bad_thread (tr_thread_id r)));
   ("list", unless "list" (plain_request "list") (fun _ => None));
   ("suites", unless "suites" (plain_request "suites") (fun _ => None));
   ("history", unless "history" history_request (fun r => bad_thread (hq_thread_id r)));
   ("seen", unless "seen" seen_request (fun _ => None));
   ("plans", unless "plans" (thread_request "plans") (fun r => bad_thread (tr_thread_id r)));
   ("thread_state", unless "thread_state" (thread_request "thread_state") (fun r => bad_thread (tr_thread_id r)));
   ("delete", unless "delete" (thread_request "delete") (fun r => bad_thread (tr_thread_id r)))].

Definition refusal (text : string) : option string :=
  match from_slice text with
  | Err e => Some e
  | Ok v => match str_at "type" v with
            | None => Some "missing field `type`"
            | Some typ => match assoc_get typ checks with Some check => check v | None => Some "unknown type" end
            end
  end.

Lemma check_thread_bad {E} (inj : string -> E) tid e (c : C) : bad_thread tid = Some e ->
  check_thread inj tid c = (Err (inj e), c).
Proof. unfold bad_thread, check_thread. repeat case_match; try done; by intros [= <-]. Qed.

(** A request that cannot be read, or is bad. *)
Lemma refused_request {A B} what read (bad : A -> option string) v e (k : A -> Act C Failure B) (c : C) :
  unless what read bad v = Some e -> (forall r e c, bad r = Some e -> k r c = (Err (Refused e), c)) ->
  (do! req <- request what read v; k req) c = (Err (Refused e), c).
Proof.
  unfold unless, request, refuse, act_bind, act_lift. destruct (parse_request what read v) as [r|e']; cbn; intros He Hk.
  - by apply Hk.
  - by injection He as <-.
Qed.

Lemma refused_run {A B} what read (bad : A -> option string) v e (k : A -> Act C string B) k' (c : C) :
  unless what read bad v = Some e -> (forall r e c, bad r = Some e -> k r c = (Err e, c)) ->
  and_then (do! req <- act_lift (parse_request what read v); k req) k' c = (Returned (Err e), c).
Proof.
  unfold unless, and_then, act_bind, act_lift. destruct (parse_request what read v) as [r|e']; cbn; intros He Hk.
  - by rewrite (Hk _ _ c He).
  - by injection He as <-.
Qed.

Lemma checked {B} tid e (k : Act C Failure B) (c : C) : bad_thread tid = Some e ->
  (do! _ <- check_thread Refused tid; k) c = (Err (Refused e), c).
Proof. intros He. unfold act_bind. by rewrite (check_thread_bad _ _ _ _ He). Qed.

Lemma checked_run {B} tid e (k : Act C string B) (c : C) : bad_thread tid = Some e ->
  (do! _ <- check_thread id tid; k) c = (Err e, c).
Proof. intros He. unfold act_bind. by rewrite (check_thread_bad _ _ _ _ He). Qed.

(** What the connection is after an error was sent. *)
Definition after_error (e : string) (cid : option string) (c : C) : C :=
  mkConn (now_iso (world c)).2 (memory c) (wire c ++ [error_text e (now_iso (world c)).1 cid]) (published c) (shown c).

Lemma send_error_spec {E} e cid (c : C) : (send_error (E := E) e cid c).2 = after_error e cid c.
Proof. unfold send_error, conn_now, in_world, act_bind, after_error. by destruct (now_iso (world c)). Qed.

Lemma bad_user tid text e (c : C) : bad_text tid text = Some e ->
  (if str_is_empty tid || is_blank text then act_err "thread_id and text required"
   else if negb (is_uuid tid) then act_err "invalid thread_id" else act_ret tt) c = (Err e : Result unit string, c).
Proof. unfold bad_text. repeat case_match; try done; by intros [= <-]. Qed.

(** The runs refuse what the checks do. *)
Lemma runs_checked typ process : assoc_get typ run_handlers = Some process ->
  exists check, assoc_get typ checks = Some check /\
    forall v schedule e c, check v = Some e -> process v schedule c = (Returned (Err e), c).
Proof.
  unfold run_handlers. cbn [assoc_get].
  destruct (String.eqb_spec typ "new") as [->|_]; [|destruct (String.eqb_spec typ "open") as [->|_];
    [|destruct (String.eqb_spec typ "user") as [->|_]; [|destruct (String.eqb_spec typ "approve") as [->|_];
    [|destruct (String.eqb_spec typ "reject") as [->|_]; [|done]]]]]; intros [= <-]; eexists; (split; [reflexivity|]);
    intros v schedule e c He.
  - unfold process_new, new_thread. eapply refused_run; [exact He|done].
  - unfold process_open, open_thread. eapply refused_run; [exact He|]. intros; by apply checked_run.
  - unfold process_user. eapply refused_run; [exact He|]. intros r e' c' Hb. unfold act_bind at 1.
    by rewrite (bad_user _ _ _ _ Hb).
  - unfold process_approve, process_decision. eapply refused_run; [exact He|]. intros; by apply checked_run.
  - unfold process_reject, process_decision. eapply refused_run; [exact He|]. intros; by apply checked_run.
Qed.

(** And so do the other requests. *)
Lemma messages_checked typ : assoc_get typ run_handlers = None ->
  match assoc_get typ message_handlers with
  | Some handle => exists check, assoc_get typ checks = Some check /\
      forall v e c, check v = Some e -> handle v c = (Err (Refused e), c)
  | None => assoc_get typ checks = None
  end.
Proof.
  unfold run_handlers, message_handlers. cbn [assoc_get].
  destruct (String.eqb_spec typ "list") as [->|H1]; [intros _; eexists; split; [reflexivity|]|].
  { intros v e c He. unfold handle_list_message. by eapply refused_request. }
  destruct (String.eqb_spec typ "suites") as [->|H2]; [intros _; eexists; split; [reflexivity|]|].
  { intros v e c He. unfold handle_suites_message. by eapply refused_request. }
  destruct (String.eqb_spec typ "history") as [->|H3]; [intros _; eexists; split; [reflexivity|]|].
  { intros v e c He. unfold handle_history_message. eapply refused_request; [exact He|]. intros; by apply checked. }
  destruct (String.eqb_spec typ "seen") as [->|H4]; [intros _; eexists; split; [reflexivity|]|].
  { intros v e c He. unfold handle_seen_message. by eapply refused_request. }
  destruct (String.eqb_spec typ "plans") as [->|H5]; [intros _; eexists; split; [reflexivity|]|].
  { intros v e c He. unfold handle_plans_message. eapply refused_request; [exact He|]. intros; by apply checked. }
  destruct (String.eqb_spec typ "thread_state") as [->|H6]; [intros _; eexists; split; [reflexivity|]|].
  { intros v e c He. unfold handle_thread_state_message. eapply refused_request; [exact He|]. intros; by apply checked. }
  destruct (String.eqb_spec typ "delete") as [->|H7]; [intros _; eexists; split; [reflexivity|]|].
  { intros v e c He. unfold handle_delete_message. eapply refused_request; [exact He|]. intros; by apply checked. }
  unfold checks. cbn [assoc_get]. repeat (case_match; [done|]). intros _.
  by rewrite ?(proj2 (String.eqb_neq _ _)) by done.
Qed.

Lemma refused_text text schedule e (c : C) : refusal text = Some e ->
  serve_text text schedule c = (Open, after_error e (cid_guess text) c).
Proof.
  unfold refusal, serve_text, run_request, handle_message, cid_guess.
  destruct (from_slice text) as [v|e']; [|intros [= ->]; by rewrite <- (send_error_spec (E := string))].
  destruct (str_at "type" v) as [typ|]; [|intros [= <-]; by rewrite <- (send_error_spec (E := string))].
  cbn [mbind option_bind fmap option_fmap option_map].
  destruct (assoc_get typ run_handlers) as [process|] eqn:Er; cbn [option_map].
  - apply runs_checked in Er as (check & -> & Hc). intros He. cbn. rewrite (Hc _ _ _ _ He).
    by rewrite <- (send_error_spec (E := string)).
  - apply messages_checked in Er. destruct (assoc_get typ message_handlers) as [handle|].
    + destruct Er as (check & -> & Hc). intros He. rewrite (Hc _ _ _ He). by rewrite <- (send_error_spec (E := string)).
    + rewrite Er. intros [= <-]. by rewrite <- (send_error_spec (E := string)).
Qed.

(** C11: A request that is not JSON, has no known type or not the fields of its
    type, or does not name a proper thread where its handler asks for one (a
    request to open, send to, approve, reject, delete or look at a thread; not
    [seen], which takes any text for a thread), is answered by one error with
    its [cid]; nothing else changes, whatever the request would have started:
    no object, no memory of the connection, no other text. *)
Theorem refused_requests_change_nothing (text : string) (schedule : list (Event W)) (e : string) (c : C) :
  refusal text = Some e ->
  let c' := (serve_text text schedule c).2 in
  (serve_text text schedule c).1 = Open /\
  wire c' = wire c ++ [error_text e (now_iso (world c)).1 (cid_guess text)] /\
  world c' = (now_iso (world c)).2 /\ memory c' = memory c /\ published c' = published c /\ shown c' = shown c.
Proof. intros He. cbn zeta. rewrite (refused_text _ schedule _ c He). done. Qed.

(** ** Requests that are answered *)

(** A computation that sends and publishes nothing. *)
Definition quiet {E A} (m : Act C E A) : Prop :=
  forall c, wire (m c).2 = wire c /\ published (m c).2 = published c.

Lemma quiet_ret {E A} (a : A) : quiet (E := E) (act_ret a).
Proof. done. Qed.

Lemma quiet_err {E A} (e : E) : quiet (A := A) (act_err e).
Proof. done. Qed.

Lemma quiet_lift {E A} (r : Result A E) : quiet (act_lift r).
Proof. done. Qed.

Lemma quiet_bind {E A B} (m : Act C E A) (k : A -> Act C E B) : quiet m -> (forall a, quiet (k a)) -> quiet (act_bind m k).
Proof.
  intros Hm Hk c. unfold act_bind. destruct (Hm c) as [H1 H2]. destruct (m c) as [[a|e] c1]; [|done]. cbn in *.
  destruct (Hk a c1) as [H3 H4]. by rewrite H3, H4.
Qed.

Lemma quiet_map_err {E F A} (f : E -> F) (m : Act C E A) : quiet m -> quiet (act_map_err f m).
Proof. intros Hm c. unfold act_map_err. specialize (Hm c). by destruct (m c). Qed.

Lemma quiet_world {E A} (f : W -> A * W) : quiet (E := E) (in_world f).
Proof. intros c. unfold in_world. by destruct (f (world c)). Qed.

Lemma quiet_remember {E} f : quiet (E := E) (remember f).
Proof. done. Qed.

Lemma quiet_seq {E} : quiet (E := E) next_seq.
Proof. done. Qed.

Lemma quiet_show {E} ev : quiet (E := E) (term_emit srv ev).
Proof. intros c. unfold term_emit. by destruct (has_terminal srv). Qed.

Lemma quiet_buffer {E} s : quiet (E := E) (buffer_last s).
Proof. unfold buffer_last. destruct (text_seq s); [apply quiet_remember|apply quiet_ret]. Qed.
End handlers.

Create HintDb quiet.
#[export] Hint Resolve quiet_ret quiet_err quiet_lift quiet_bind quiet_map_err quiet_world quiet_remember quiet_seq
  quiet_show quiet_buffer : quiet.

Ltac quiet :=
  repeat match goal with
    | |- quiet (act_bind _ _) => apply quiet_bind; [|intros ?]
    | |- quiet (match ?x with _ => _ end) => destruct x
    end; auto with quiet.

Section answers.
Context {W K : Type} `{HSd : !Serde, HSt : !StorageAdapter W, HT : !Timer W, HK : !Keyspace K,
  HC : !Codec ThreadLog.t, HE : !Codec ControlStateEnvelope, HU : !UtcClock W, HR : !ToRfc3339, HD : !Rfc3339,
  HP : !PlanReader, HA : !AnswerReaders, HDR : !DetailReaders, HL : !UnicodeLower, HI : !Uuids W,
  HQ : !RequestErrors}.
Variable srv : Server W K.

Notation C := (ConnState W).

Lemma quiet_reader {E A} (f : ThreadStore W -> A * ThreadStore W) : quiet (E := E) (with_reader f).
Proof. apply quiet_world. Qed.

Lemma quiet_resolve {E} tid : quiet (E := E) (resolve_thread_context srv tid).
Proof.
  assert (forall s a, quiet (E := E) (resolve_stored srv tid s a)) as Hs.
  { intros s a. unfold resolve_stored, stored_suite, logged_switches. quiet; apply quiet_world. }
  intros c. unfold resolve_thread_context. repeat case_match; try done; apply Hs.
Qed.

Lemma quiet_check {E} (inj : string -> E) tid : quiet (check_thread inj tid).
Proof. unfold check_thread. quiet. Qed.

Lemma quiet_request {A} what (read : Value -> option A) v : quiet (W := W) (request what read v).
Proof. apply quiet_lift. Qed.

Lemma quiet_stored {A} (m : Op (ThreadStore W) A) : quiet (stored m).
Proof. unfold stored, with_store. apply quiet_map_err. quiet. apply quiet_reader. Qed.

Lemma quiet_plans {E} suite tid : quiet (E := E) (load_latest_plans srv suite tid).
Proof. unfold load_latest_plans. quiet. Qed.

Lemma quiet_head {E} tid cid : quiet (W := W) (E := E) (event_head tid cid).
Proof. unfold event_head, conn_now. quiet. Qed.

Lemma quiet_snapshot {E} tid cached plans : quiet (E := E) (take_snapshot srv tid cached plans).
Proof. unfold take_snapshot, cached_reader. quiet. Qed.

Lemma quiet_describe {E} ids : quiet (E := E) (describe_threads srv ids).
Proof.
  induction ids as [|tid ids IH]; cbn [describe_threads]; [apply quiet_ret|]. apply quiet_bind; [|intros item; quiet].
  unfold describe_thread. apply quiet_bind; [apply quiet_resolve|]. intros [suite agent].
  apply quiet_bind; [apply quiet_reader|]. intros [log|e]; [|apply quiet_ret]. intros c. done.
Qed.

(** The computation answers with one text, or fails; meanwhile nothing is sent. *)
Definition answers (m : Act C Failure (list string)) : Prop :=
  quiet m /\ forall c, match (m c).1 with Ok l => exists s, l = [s] | Err _ => True end.

Lemma answers_bind {A} (m : Act C Failure A) (k : A -> Act C Failure (list string)) :
  quiet m -> (forall a, answers (k a)) -> answers (act_bind m k).
Proof.
  intros Hm Hk. split; [apply quiet_bind; [done|intros a; apply Hk]|]. intros c. unfold act_bind.
  destruct (m c) as [[a|e] c1]; [|done]. apply Hk.
Qed.

Lemma answers_err e : answers (act_err e).
Proof. done. Qed.

Lemma answers_one s : answers (act_ret [s]).
Proof. split; [done|]. intros c. by exists s. Qed.

Lemma answers_answer v : answers (answer v).
Proof.
  unfold answer, unwrap_text. apply answers_bind; [by destruct (to_vec v)|]. intros s.
  apply answers_bind; [apply quiet_buffer|]. intros _. apply answers_one.
Qed.
End answers.

#[export] Hint Resolve quiet_reader quiet_resolve quiet_check quiet_request quiet_stored quiet_plans quiet_head
  quiet_snapshot quiet_describe : quiet.
#[export] Hint Resolve answers_err answers_one answers_answer : quiet.

Ltac answers :=
  repeat match goal with
    | |- answers (act_bind _ _) => apply answers_bind; [|intros ?]
    | |- answers (match ?x with _ => _ end) => destruct x
    end; auto with quiet.

Section answered.
Context {W K : Type} `{HSd : !Serde, HSt : !StorageAdapter W, HT : !Timer W, HK : !Keyspace K,
  HC : !Codec ThreadLog.t, HE : !Codec ControlStateEnvelope, HU : !UtcClock W, HR : !ToRfc3339, HD : !Rfc3339,
  HP : !PlanReader, HA : !AnswerReaders, HDR : !DetailReaders, HL : !UnicodeLower, HI : !Uuids W,
  HQ : !RequestErrors}.
Variable srv : Server W K.

Notation C := (ConnState W).

Lemma handlers_answer typ handle v : assoc_get typ (message_handlers srv) = Some handle -> answers (handle v).
Proof.
  unfold message_handlers. cbn [assoc_get]. intros Hs.
  repeat (destruct (String.eqb typ _); [injection Hs as <-|]); [..|done].
  - unfold handle_list_message, conn_now. answers.
  - unfold handle_suites_message, conn_now. answers.
  - unfold handle_history_message, cached_reader, refuse, conn_now. answers.
  - unfold handle_seen_message, conn_now. answers.
  - unfold handle_plans_message, resolve_suite_id_for_thread. answers.
  - unfold handle_thread_state_message, resolve_suite_id_for_thread. answers.
  - unfold handle_delete_message, unwrap_text, conn_now. answers. all: by case_match.
Qed.

Lemma message_answers text : answers (handle_message srv text).
Proof.
  unfold handle_message. destruct (from_slice text) as [v|e]; [|apply answers_err].
  destruct (str_at "type" v) as [typ|]; [|apply answers_err].
  destruct (assoc_get typ (message_handlers srv)) as [handle|] eqn:E; [by eapply handlers_answer|apply answers_err].
Qed.

(** A request that starts no run gets exactly one text in answer, and tells
    the subscribers nothing, unless the connection is lost because a text could
    not be written. *)
Theorem requests_get_one_answer (text : string) (schedule : list (Event W)) (c : C) :
  run_request srv text = None ->
  let c' := (serve_text srv text schedule c).2 in
  (serve_text srv text schedule c).1 = Gone /\ wire c' = wire c \/
  (serve_text srv text schedule c).1 = Open /\ published c' = published c /\ exists s, wire c' = wire c ++ [s].
Proof.
  intros Hr. unfold serve_text. rewrite Hr. destruct (message_answers text) as [Hq Ha].
  destruct (Hq c) as [Hw Hp]. specialize (Ha c). destruct (handle_message srv text c) as [[frames|[e|e]] c1]; cbn in *.
  - right. destruct Ha as [s ->]. split; [done|]. cbn. unfold term_emit, send.
    destruct (has_terminal srv); cbn; rewrite Hw, Hp; eauto.
  - right. split; [done|]. rewrite send_error_spec. cbn. rewrite Hw, Hp. eauto.
  - by left.
Qed.
End answered.

(** ** Requests to look at *)

Module Asking.
(** Two requests can be read, one for the suites and one to open a thread
    that has no proper id; whatever is written reads "text". *)
Definition head_of (typ : string) : list (string * Value) :=
  [("v", num 1); ("type", VString typ); ("cid", VString "c1")].

Definition serde : Serde := {|
  to_vec _ := Ok "text";
  from_slice b := if String.eqb b "suites" then Ok (VObject (head_of "suites"))
                  else if String.eqb b "open" then
                    Ok (VObject (head_of "open" ++ [("thread_id", VString "x"); ("suiteId", VString "plain");
                                                    ("agentType", VString "ask")]))
                  else Err "syntax"
|}.

Definition uuids : Uuids InMemoryStorageAdapter := {|
  is_uuid s := Nat.eqb (String.length s) 36; new_v4 w := ("", w)
|}.

Definition serve_text : string -> list (Event InMemoryStorageAdapter) -> ConnState InMemoryStorageAdapter ->
    Connected * ConnState InMemoryStorageAdapter :=
  serve_text (HSd := serde) (HSt := @memory_adapter serde) (HC := Sample.codec) (HE := EnvelopeCodec.codec) (HU := still_clock)
    (HR := one_date) (HD := digit_dates) (HP := fun _ => None) (HA := Sample.no_answers) (HDR := Sample.no_details)
    (HL := fun s => s) (HI := uuids) (HQ := fun _ _ => "bad request") Sample.server.
End Asking.

Lemma refused_requests_change_nothing_witness :
  let c' := (Asking.serve_text "open" [ToolTick] Sample.conn).2 in
  (Asking.serve_text "open" [ToolTick] Sample.conn).1 = Open /\ wire c' = ["text"] /\ world c' = world Sample.conn.
Proof.
  destruct (refused_requests_change_nothing (HSd := Asking.serde) (HSt := @memory_adapter Asking.serde) (HC := Sample.codec)
    (HE := EnvelopeCodec.codec) (HU := still_clock) (HR := one_date) (HD := digit_dates) (HP := fun _ => None)
    (HA := Sample.no_answers) (HDR := Sample.no_details) (HL := fun s => s) (HI := Asking.uuids)
    (HQ := fun _ _ => "bad request") Sample.server "open" [ToolTick] "invalid thread_id" Sample.conn)
    as (H1 & H2 & H3 & _); [vm_compute; reflexivity|].
  split; [exact H1|]. split; [exact H2|exact H3].
Defined.

Lemma requests_get_one_answer_witness :
  let r := Asking.serve_text "suites" [] Sample.conn in
  r.1 = Gone /\ wire r.2 = wire Sample.conn \/
  r.1 = Open /\ published r.2 = published Sample.conn /\ exists s, wire r.2 = wire Sample.conn ++ [s].
Proof.
  apply (requests_get_one_answer (HSd := Asking.serde) (HSt := @memory_adapter Asking.serde) (HC := Sample.codec)
    (HE := EnvelopeCodec.codec) (HU := still_clock) (HR := one_date) (HD := digit_dates) (HP := fun _ => None)
    (HA := Sample.no_answers) (HDR := Sample.no_details) (HL := fun s => s) (HI := Asking.uuids)
    (HQ := fun _ _ => "bad request") Sample.server "suites" []).
  vm_compute. reflexivity.
Defined.
