(* ===== verification/ThreadContext.v ===== *)
(** * The suite and the agent of a thread

    Which suite and agent a connection finds for a thread
    ([resolve_thread_context] of [Connection]), and that those a client asks
    for when it opens the thread ([switch_to] of [Handlers]) are found again
    by a connection that remembers nothing. *)

From stdpp Require Import base list strings gmap.
From Stdlib Require Import ZArith Lia.
From S2P Require Import Prelude.
From S2P Require Import RustStr.
From S2P Require Import Json.
From S2P Require Import Errors.
From S2P Require Import Scope.
From S2P Require Import Storage.
From S2P Require Import MemoryStorage.
From S2P Require Import Caching.
From S2P Require Import SessionTypes.
From S2P Require Import Samples.
From S2P Require Import ThreadStore.
From S2P Require Import ThreadStoreShared.
From S2P Require Import ThreadStoreOwned.
From S2P Require Import ControlState.
From S2P Require Import Redaction.
From S2P Require Import Dates.
From S2P Require Import Suites.
From S2P Require Import WsModels.
From S2P Require Import History.
From S2P Require Import Connection.
From S2P Require Import Streaming.
From S2P Require Import StreamingLaws.
From S2P Require Import Handlers.

(** ** The switches of a log *)

(** The first of [l], unless [s] is known. *)
Definition known (s : string) (l : list string) : string :=
  if is_blank s then default s (find (fun x => negb (is_blank x)) l) else s.

Definition suite_switch (step : ThreadStep.t) : option string :=
  match step with ThreadStep.SwitchSuite _ to_ _ _ _ => Some to_ | _ => None end.
Definition agent_switch (step : ThreadStep.t) : option string :=
  match step with ThreadStep.SwitchAgent _ to_ _ _ _ => Some to_ | _ => None end.

Lemma known_cons s x l : known s (x :: l) = known (if is_blank s && negb (is_blank x) then x else s) l.
Proof.
  unfold known. destruct (is_blank s) eqn:Es; cbn; [|by rewrite Es]. destruct (is_blank x) eqn:Ex; cbn; by rewrite ?Es, ?Ex.
Qed.

Lemma known_not_blank s l : is_blank s = false -> known s l = s.
Proof. unfold known. by intros ->. Qed.

Lemma scan_switches_known l s a :
  scan_switches l s a = (known s (omap suite_switch l), known a (omap agent_switch l)).
Proof.
  revert s a. induction l as [|step l IH]; intros s a; [by unfold known; cbn; repeat case_match|].
  assert (forall s a, (if negb (is_blank s) && negb (is_blank a) then (s, a) else scan_switches l s a) =
    (known s (omap suite_switch l), known a (omap agent_switch l))) as Hrest.
  { intros s' a'. destruct (negb (is_blank s') && negb (is_blank a')) eqn:E; [|apply IH].
    apply andb_prop in E as [E1%negb_true_iff E2%negb_true_iff]. by rewrite !known_not_blank. }
  destruct step; cbn [scan_switches]; rewrite ?Hrest; try done.
  - cbn. rewrite known_cons. destruct (is_blank s && negb (is_blank to_)); apply Hrest.
  - cbn. rewrite known_cons. destruct (is_blank a && negb (is_blank to_)); apply Hrest.
Qed.

Section context.
Context {W K : Type} `{HSd : !Serde, HSt : !StorageAdapter W, HV : !StorageView W, HLw : !StorageLaws W,
  HT : !Timer W, HK : !Keyspace K, HC : !Codec ThreadLog.t, HE : !Codec ControlStateEnvelope, HU : !UtcClock W,
  HR : !ToRfc3339}.
Context (times : string -> Prop) `{HO : !ClockOf W times}.
Variables (srv : Server W K) (thread_id key ckey : string).
Hypothesis Hkey : thread_store_key (srv_scope srv) (srv_keyspace srv) thread_id = Ok key.
Hypothesis Hckey : control_key (srv_scope srv) (srv_keyspace srv) thread_id = Ok ckey.

Notation C := (ConnState W).

(** The suite and the agent of a log, given what is remembered. *)
Definition suite_of (steps : list ThreadStep.t) (s : string) : string :=
  let s := known s (omap suite_switch (rev steps)) in
  if is_blank s then default EmptyString (default_suite_id (reg srv)) else s.

Definition agent_of (steps : list ThreadStep.t) (a : string) : string :=
  let a := known a (omap agent_switch (rev steps)) in
  if is_blank a then DEFAULT_AGENT_TYPE else a.

Definition remembered_suite (c : C) : string := default EmptyString (m_current_suite (memory c) !! thread_id).
Definition remembered_agent (c : C) : string := default EmptyString (m_current_agent (memory c) !! thread_id).

(** The thread's log, and a control state nobody has saved. *)
Record at_thread (ct : Spec.Store) (log : ThreadLog.t) : Prop := {
  at_log : holds ((ct : gmap string string) !! key) log;
  at_readable : readable log;
  at_no_control : (ct : gmap string string) !! ckey = None
}.

Lemma no_stored_suite (w : W) : valid w -> (contents w : gmap string string) !! ckey = None ->
  exists w', load_suite_id (srv_scope srv) (srv_keyspace srv) thread_id w = (Ok None, w') /\
    contents w' = contents w /\ valid w'.
Proof using HLw Hckey.
  intros Hv Hn. destruct (retried (head_etag ckey) (Spec.head_etag etag_of ckey) w (Ok None) (contents w))
    as (w1 & E1 & S1 & V1); [by apply head_refines|done|done|unfold Spec.head_etag; by rewrite Hn|].
  exists w1. split; [|done]. unfold load_suite_id. erewrite (act_bind_Ok _ _ w Missing w1); [done|].
  unfold load_raw. rewrite (act_bind_Ok _ _ w ckey w) by (unfold act_lift; by rewrite Hckey).
  unfold retry_head_etag. by rewrite (act_bind_Ok _ _ _ _ _ E1).
Qed.

(** A fresh reader's log, or its error when there is none. *)
Lemma read_thread (w : W) log : valid w -> at_thread (contents w) log ->
  exists r s', get_log (srv_scope srv) (srv_keyspace srv) thread_id (new w) = (r, s') /\
    contents (storage s') = contents w /\ valid (storage s') /\
    match r with Ok l => l = log | Err _ => ThreadLog.steps log = [] end.
Proof using HLw Hkey.
  intros Hv [Hl Hr _]. assert (coherent key (new w)) as Hc by (split; [done|intros ce b; cbn; by rewrite lookup_empty]).
  destruct ((contents w : gmap string string) !! key) as [b|] eqn:Hb.
  - destruct (get_owned (srv_scope srv) (srv_keyspace srv) thread_id key (new w) b log) as (s' & E & [V _] & S); try done.
    by exists (Ok log), s'.
  - destruct (get_missing_owned (srv_scope srv) (srv_keyspace srv) thread_id key (new w)) as (e & s' & E & [V _] & S); try done.
    exists (Err e), s'. cbn in Hl. by subst log.
Qed.

Lemma stored_suite_spec {E} s (c : C) : valid (world c) -> (contents (world c) : gmap string string) !! ckey = None ->
  exists w', stored_suite (E := E) srv thread_id s c = (Ok s, mkConn w' (memory c) (wire c) (published c) (shown c)) /\
    contents w' = contents (world c) /\ valid w'.
Proof using HLw Hckey.
  intros Hv Hn. unfold stored_suite. destruct (is_blank s); [|exists (world c); by destruct c].
  destruct (no_stored_suite (world c) Hv Hn) as (w' & Ew & Hw). exists w'. split; [|done].
  unfold in_world, act_bind. by rewrite Ew.
Qed.

Lemma logged_switches_spec {E} s a (c : C) log : valid (world c) -> at_thread (contents (world c)) log ->
  exists w', logged_switches (E := E) srv thread_id s a c =
      (Ok (known s (omap suite_switch (rev (ThreadLog.steps log))), known a (omap agent_switch (rev (ThreadLog.steps log)))),
       mkConn w' (memory c) (wire c) (published c) (shown c)) /\
    contents w' = contents (world c) /\ valid w'.
Proof using HLw Hkey.
  intros Hv Ha. unfold logged_switches. destruct (is_blank s || is_blank a) eqn:Eb.
  - destruct (read_thread (world c) log Hv Ha) as (r & s' & Er & Hc & Hv' & Hr). exists (storage s'). split; [|done].
    unfold with_reader, in_world, act_bind. rewrite Er. destruct r as [l|e]; [subst l; by rewrite scan_switches_known|].
    rewrite Hr. unfold known. cbn. by repeat case_match.
  - apply orb_false_iff in Eb as [E1 E2]. exists (world c). rewrite !known_not_blank by done. by destruct c.
Qed.

(** What a connection finds, and remembers. *)
Lemma resolve_spec {E} (c : C) log : valid (world c) -> at_thread (contents (world c)) log ->
  let s := suite_of (ThreadLog.steps log) (remembered_suite c) in
  let a := agent_of (ThreadLog.steps log) (remembered_agent c) in
  exists c', resolve_thread_context (E := E) srv thread_id c = (Ok (s, a), c') /\
    contents (world c') = contents (world c) /\ valid (world c') /\
    remembered_suite c' = s /\ remembered_agent c' = a.
Proof using HLw Hkey Hckey.
  intros Hv Ha s a.
  assert (exists c', resolve_stored (E := E) srv thread_id (remembered_suite c) (remembered_agent c) c = (Ok (s, a), c') /\
    contents (world c') = contents (world c) /\ valid (world c') /\
    remembered_suite c' = s /\ remembered_agent c' = a) as Hs.
  { destruct (stored_suite_spec (E := E) (remembered_suite c) c Hv (at_no_control _ _ Ha)) as (w1 & E1 & C1 & V1).
    destruct (logged_switches_spec (E := E) (remembered_suite c) (remembered_agent c)
      (mkConn w1 (memory c) (wire c) (published c) (shown c)) log) as (w2 & E2 & C2 & V2); [done|by cbn; rewrite C1|].
    unfold resolve_stored. rewrite (act_bind_Ok _ _ _ _ _ E1), (act_bind_Ok _ _ _ _ _ E2).
    eexists. split; [reflexivity|]. unfold remembered_suite, remembered_agent. cbn.
    rewrite !lookup_insert_eq. cbn in *. split; [congruence|done]. }
  unfold resolve_thread_context. unfold remembered_suite, remembered_agent in Hs, s, a |- *.
  destruct (m_current_suite (memory c) !! thread_id) as [s1|] eqn:Es;
    destruct (m_current_agent (memory c) !! thread_id) as [a1|] eqn:Ea; cbn [default from_option id] in *; try done.
  destruct (negb (is_blank s1) && negb (is_blank a1)) eqn:Eb; [|done].
  apply andb_prop in Eb as [E1%negb_true_iff E2%negb_true_iff]. exists c.
  assert (s = s1) as -> by (subst s; unfold suite_of; by rewrite known_not_blank, E1).
  assert (a = a1) as -> by (subst a; unfold agent_of; by rewrite known_not_blank, E2).
  by rewrite Es, Ea.
Qed.

(** ** Switching *)

Lemma log_now_owned (step : string -> ThreadStep.t) (s : ThreadStore W) log :
  coherent key s -> holds (object key s) log -> readable log ->
  (forall ts, times ts -> storable (apply_step (step ts) log)) ->
  exists ts s', times ts /\ log_now srv thread_id step s = (Ok tt, s') /\ coherent key s' /\
    holds (object key s') (apply_step (step ts) log) /\ only_key key (contents (storage s)) (contents (storage s')).
Proof using HO HLw Hkey.
  intros Hc Hh Hr Hs. unfold log_now, store_now, act_bind.
  pose proof (clock_contents (storage s)) as T1. pose proof (clock_valid (storage s)) as T2.
  pose proof (clock_times (storage s)) as T3. destruct (now_iso (storage s)) as [ts st]; cbn [fst snd] in *.
  destruct (Hs ts T3) as (b & He & Hd).
  destruct (append_step_owned (srv_scope srv) (srv_keyspace srv) thread_id key (step ts) (mkThreadStore st (cache s)) log b)
    as (s' & E & C' & S'); try done.
  { apply coherent_same; [done|done|apply T2, Hc]. }
  { unfold object. cbn. by rewrite T1. }
  exists ts, s'. split; [done|]. split; [done|]. split; [done|]. unfold object. rewrite S'. cbn. rewrite T1.
  split; [|apply only_key_insert]. unfold Spec.Store in *. by rewrite lookup_insert_eq.
Qed.

(** The store a cache and a world make, and what it leaves. *)
Lemma with_writer_run {A} cached (m : Op (ThreadStore W) A) (c : C) a s' :
  m (mkThreadStore (world c) cached) = (Ok a, s') ->
  with_writer cached m c = (Ok (a, cache s'), mkConn (storage s') (memory c) (wire c) (published c) (shown c)).
Proof using. intros E. unfold with_writer, cached_reader, in_world, act_bind. rewrite E. done. Qed.

Definition switch_suite_step (from suite agent ts : string) : ThreadStep.t :=
  ThreadStep.SwitchSuite (Some from) suite Observation.success ts agent.
Definition switch_agent_step (from agent ts : string) : ThreadStep.t :=
  ThreadStep.SwitchAgent (Some from) agent Observation.success ts agent.

(** The log after a switch from [s0] and [a0], at these times. *)
Definition switched_suite (s0 suite agent ts : string) (log : ThreadLog.t) : ThreadLog.t :=
  if String.eqb s0 suite then log else apply_step (switch_suite_step s0 suite agent ts) log.
Definition switched_agent (a0 agent ts : string) (log : ThreadLog.t) : ThreadLog.t :=
  if String.eqb a0 agent then log else apply_step (switch_agent_step a0 agent ts) log.

Lemma only_key_control ct ct' log log' : key <> ckey -> at_thread ct log -> only_key key ct ct' ->
  holds ((ct' : gmap string string) !! key) log' -> readable log' -> at_thread ct' log'.
Proof using.
  intros Hne [_ _ Hn] Ho Hh Hr. split; [done|done|]. unfold only_key in Ho.
  rewrite <- Hn, <- (lookup_delete_ne (ct' : gmap string string) key ckey) by done. rewrite Ho. by rewrite lookup_delete_ne.
Qed.

(** Switching from what is found to what is asked for. *)
Lemma switch_to_spec (c : C) log suite agent :
  let s0 := suite_of (ThreadLog.steps log) (remembered_suite c) in
  let a0 := agent_of (ThreadLog.steps log) (remembered_agent c) in
  key <> ckey -> valid (world c) -> at_thread (contents (world c)) log ->
  (forall ts1, times ts1 -> (s0 <> suite -> storable (switched_suite s0 suite agent ts1 log)) /\
    forall ts2, times ts2 -> a0 <> agent -> storable (switched_agent a0 agent ts2 (switched_suite s0 suite agent ts1 log))) ->
  exists ts1 ts2 c', switch_to srv thread_id suite agent c = (Ok tt, c') /\ valid (world c') /\
    at_thread (contents (world c')) (switched_agent a0 agent ts2 (switched_suite s0 suite agent ts1 log)) /\
    only_key key (contents (world c)) (contents (world c')) /\
    remembered_suite c' = suite /\ remembered_agent c' = agent.
Proof using HO HLw Hkey Hckey.
  intros s0 a0 Hne Hv Ha Hs.
  destruct (resolve_spec (E := string) c log Hv Ha) as (c1 & E1 & C1 & V1 & _ & _). fold s0 a0 in E1.
  unfold switch_to. rewrite (act_bind_Ok _ _ _ _ _ E1).
  assert (exists ts1 cached c2, (if String.eqb s0 suite then act_ret ∅
      else do! (_, cached) <- with_writer ∅ (log_switch srv thread_id agent (Some s0) suite); act_ret cached) c1
      = (Ok (cached : gmap string CacheEntry), c2) /\ times ts1 /\ coherent key (mkThreadStore (world c2) cached) /\
      holds ((contents (world c2) : gmap string string) !! key) (switched_suite s0 suite agent ts1 log) /\
      only_key key (contents (world c1)) (contents (world c2)) /\ memory c2 = memory c1)
    as (ts1 & cached & c2 & E2 & T1 & Co2 & H2 & O2 & _).
  { unfold switched_suite. destruct (String.eqb_spec s0 suite) as [Heq|Hns].
    - exists (now_iso (world c)).1, ∅, c1. split; [done|]. split; [apply clock_times|].
      split; [split; [done|intros ce b; cbn; by rewrite lookup_empty]|]. rewrite C1. split; [apply Ha|done].
    - destruct (log_now_owned (switch_suite_step s0 suite agent) (mkThreadStore (world c1) ∅) log)
        as (ts & s' & Tt & E & Co & Hh & Ho).
      { split; [done|intros ce b; cbn; by rewrite lookup_empty]. }
      { unfold object. cbn. rewrite C1. apply Ha. }
      { apply Ha. }
      { intros ts Tt. destruct (Hs ts Tt) as [H1 _]. specialize (H1 Hns). unfold switched_suite in H1.
        by rewrite (proj2 (String.eqb_neq _ _) Hns) in H1. }
      exists ts, (cache s'), (mkConn (storage s') (memory c1) (wire c1) (published c1) (shown c1)).
      rewrite (act_bind_Ok _ _ _ _ _ (with_writer_run ∅ _ c1 tt s' E)).
      split; [done|]. split; [done|]. split; [by destruct s'|]. split; [exact Hh|]. by split. }
  rewrite (act_bind_Ok _ _ _ _ _ E2). set (log1 := switched_suite s0 suite agent ts1 log) in *.
  assert (readable log1) as R1 by (unfold log1, switched_suite; destruct (String.eqb s0 suite); apply Ha).
  unfold remember at 1, act_bind at 1. set (c3 := set_memory _ c2).
  assert (exists ts2 c4, (if String.eqb a0 agent then act_ret tt
      else do! _ <- with_writer cached (log_switch_agent srv thread_id agent (Some a0) agent); act_ret tt) c3
      = (Ok tt, c4) /\ valid (world c4) /\
      holds ((contents (world c4) : gmap string string) !! key) (switched_agent a0 agent ts2 log1) /\
      only_key key (contents (world c2)) (contents (world c4)) /\ memory c4 = memory c3)
    as (ts2 & c4 & E4 & V4 & H4 & O4 & M4).
  { unfold switched_agent. destruct (String.eqb_spec a0 agent) as [Heq|Hns].
    - exists ts1, c3. split; [done|]. split; [apply Co2|done].
    - destruct (log_now_owned (switch_agent_step a0 agent) (mkThreadStore (world c3) cached) log1)
        as (ts & s' & Tt & E & Co & Hh & Ho); [done|done|done| |].
      { intros ts Tt. destruct (Hs ts1 T1) as [_ H1]. specialize (H1 ts Tt Hns). unfold switched_agent in H1.
        by rewrite (proj2 (String.eqb_neq _ _) Hns) in H1. }
      exists ts, (mkConn (storage s') (memory c3) (wire c3) (published c3) (shown c3)).
      rewrite (act_bind_Ok _ _ _ _ _ (with_writer_run cached _ c3 tt s' E)).
      split; [done|]. split; [apply Co|]. split; [exact Hh|]. by split. }
  rewrite (act_bind_Ok _ _ _ _ _ E4). exists ts1, ts2, (set_memory (with_agent thread_id agent) c4).
  assert (only_key key (contents (world c)) (contents (world c4))) as Ho by (unfold only_key in *; by rewrite O4, O2, C1).
  split; [done|]. split; [done|]. split.
  { apply (only_key_control (contents (world c)) _ log); [done|done|done|exact H4|].
    unfold switched_agent. destruct (String.eqb a0 agent); [done|]. exact R1. }
  split; [done|]. unfold remembered_suite, remembered_agent. cbn. rewrite M4. cbn. by rewrite !lookup_insert_eq.
Qed.

Lemma suite_of_push steps step s : suite_switch step = None -> suite_of (steps ++ [step]) s = suite_of steps s.
Proof using. intros Hs. unfold suite_of. rewrite rev_app_distr. cbn [rev app omap list_omap]. by rewrite Hs. Qed.

Lemma suite_of_switch steps step suite : suite_switch step = Some suite -> is_blank suite = false ->
  suite_of (steps ++ [step]) "" = suite.
Proof using.
  intros Hs Hb. unfold suite_of. rewrite rev_app_distr. cbn [rev app omap list_omap]. rewrite Hs, known_cons. cbn [is_blank]. rewrite Hb.
  change (is_blank EmptyString && negb false) with true. cbv iota.
  by rewrite known_not_blank, Hb.
Qed.

Lemma agent_of_push steps step a : agent_switch step = None -> agent_of (steps ++ [step]) a = agent_of steps a.
Proof using. intros Hs. unfold agent_of. rewrite rev_app_distr. cbn [rev app omap list_omap]. by rewrite Hs. Qed.

Lemma agent_of_switch steps step agent : agent_switch step = Some agent -> is_blank agent = false ->
  agent_of (steps ++ [step]) "" = agent.
Proof using.
  intros Hs Hb. unfold agent_of. rewrite rev_app_distr. cbn [rev app omap list_omap]. rewrite Hs, known_cons. cbn [is_blank]. rewrite Hb.
  change (is_blank EmptyString && negb false) with true. cbv iota.
  by rewrite known_not_blank, Hb.
Qed.
End context.


Module Switching.
(** Logs of one switch, stored as "from>to"; an object with a bar is an
    envelope. *)
Definition log (from suite : string) : ThreadLog.t :=
  apply_step (switch_suite_step from suite "ask" "t") ThreadLog.default.

Definition serde : Serde := {|
  to_vec v := match v with VString s => Ok s | _ => Err "unsupported" end;
  from_slice b := match from_slice (Serde := EnvelopeCodec.serde) b with Ok v => Ok v | Err _ => Ok (VString b) end
|}.

Definition codec : Codec ThreadLog.t := {|
  to_value l := match ThreadLog.steps l with
                | [ThreadStep.SwitchSuite (Some from) suite _ _ _] => Ok (VString (from +:+ ">" +:+ suite))
                | _ => Err "unsupported"
                end;
  from_value v := match v with
                  | VString s => match split_byte (Ascii.ascii_of_nat 62) s with
                                 | [from; suite] => Ok (log from suite)
                                 | _ => Err "unsupported"
                                 end
                  | _ => Err "unsupported"
                  end
|}.

Definition switch_to : string -> string -> string -> ConnState InMemoryStorageAdapter ->
    Result unit string * ConnState InMemoryStorageAdapter :=
  switch_to (HSt := @memory_adapter serde) (HC := codec) (HE := EnvelopeCodec.codec) (HU := still_clock) (HR := one_date)
    Sample.server.

Definition resolve : string -> ConnState InMemoryStorageAdapter ->
    Result (string * string) string * ConnState InMemoryStorageAdapter :=
  resolve_thread_context (HSt := @memory_adapter serde) (HC := codec) (HE := EnvelopeCodec.codec)
    Sample.server.
End Switching.


(** The suite of a thread whose control state was saved is the one that saved
    it: a switch to another suite holds for this connection only, until that
    suite saves a control state of its own. *)
Theorem control_state_outlives_a_switch :
  let w := {["t/w/p/state/x/control.json" := {| obj_bytes := "kb|st"; obj_etag := next_etag "kb|st" |}]} in
  let r := Switching.switch_to "x" "other" "ask" (new_conn w) in
  r.1 = Ok tt /\ (Switching.resolve "x" r.2).1 = Ok ("other", "ask") /\
  (Switching.resolve "x" (new_conn (world r.2))).1 = Ok ("kb", "ask").
Proof. vm_compute. repeat split; reflexivity. Qed.
