(* ===== verification/Headless.v ===== *)
(** * Runs without a socket

    [src/src/transport/src/headless.rs] and [run_headless_with_hub] of
    [ws/server.rs]: a run driven by a program, over the same handlers as a
    client's requests, its messages received from the hub, and how it is told
    to have ended.  What it prints is left out. *)

From stdpp Require Import base list strings gmap.
From Stdlib Require Import ZArith Lia.
From S2P Require Import Prelude.
From S2P Require Import RustStr.
From S2P Require Import Json.
From S2P Require Import Errors.
From S2P Require Import Scope.
From S2P Require Import Storage.
From S2P Require Import MemoryStorage.
From S2P Require Import Caching.
From S2P Require Import SessionTypes.
From S2P Require Import Samples.
From S2P Require Import ThreadStore.
From S2P Require Import ThreadStoreOwned.
From S2P Require Import ControlState.
From S2P Require Import Redaction.
From S2P Require Import Dates.
From S2P Require Import View.
From S2P Require Import Suites.
From S2P Require Import WsModels.
From S2P Require Import History.
From S2P Require Import ThreadState.
From S2P Require Import Connection.
From S2P Require Import Streaming.
From S2P Require Import StreamingLaws.
From S2P Require Import Handlers.

(** ** What went wrong *)

(** The substrings looked for, in order, and the class each tells. *)
Definition failure_classes : list (list string * string) :=
  [(["llm_error"; "an error occurred while processing your request"; "overloaded"], "llm_transient");
   (["timed out reading response"; "timed out"; "network error"], "network_timeout");
   (["max_output_tokens"; "output truncated"], "token_truncation");
   (["too many consecutive batch failures"; "batch_locked"], "batch_locked");
   (["invalid staging model sql"], "invalid_staging_sql");
   (["nosuchkey"; "no such key"; "not found"], "missing_artifact")].

Definition classify_error (summary : string) : string :=
  let s := to_ascii_lowercase summary in
  match find (fun c => existsb (contains s) c.1) failure_classes with
  | Some c => c.2
  | None => "unknown"
  end.

(** [.map(|s| s.trim()).filter(|s| !s.is_empty())] *)
Definition trimmed (o : option string) : option string :=
  match o with Some s => if is_blank s then None else Some (trim s) | None => None end.

Definition failed_event (e : ThreadEvent) : bool :=
  match te_status e with Some ThreadEventStatus.Failed => true | _ => false end.

(** The first failed item's error, if the item has one. *)
Definition item_detail (st : ViewCache.t) : option string :=
  match find (fun it => match Item.status it with ThreadItemStatus.Failed => true | _ => false end)
          (map snd (btree_iter (ViewCache.items st))) with
  | Some it => trimmed (summary <$> Item.last_error it)
  | None => None
  end.

(** [s.replace('\n', " | ")] *)
Definition one_line (s : string) : string := join " | " (split_byte (Ascii.ascii_of_nat 10) s).

Definition not_blank (o : option string) : option string :=
  match o with Some s => if is_blank s then None else Some s | None => None end.

Definition summarize_failure_state (st : ViewCache.t) (events : list ThreadEvent) : option string :=
  let last := find failed_event (rev events) in
  let detail := match last ≫= (fun ev => trimmed (te_error ev)) with
                | Some d => Some d
                | None => item_detail st
                end in
  match detail with
  | None => None
  | Some detail =>
      let phase := last ≫= te_phase in
      let tool := last ≫= (fun ev => match te_clean_name ev with Some n => Some n | None => te_name ev end) in
      Some ("failure summary: class=" +:+ classify_error detail
            +:+ match not_blank phase with Some p => " phase=" +:+ p | None => "" end
            +:+ match not_blank tool with Some t => " tool=" +:+ t | None => "" end
            +:+ " detail=" +:+ one_line detail)
  end.

(** ** What the capture task sees *)

Record Captured : Type := {
  last_thread_id : option string;
  saw_final : bool;
  (** what was sent to [thread_id_tx], which is told once *)
  told_ids : list string
}.

Definition captured_nothing : Captured := {| last_thread_id := None; saw_final := false; told_ids := [] |}.

(** The thread id of a message the task remembers, and whether it is final. *)
Definition captured_id (m : ServerMessage.t) : option (string * bool) :=
  match m with
  | ServerMessage.Final h _ => Some (th_thread_id h, true)
  | ServerMessage.AwaitUser h _ | ServerMessage.AwaitApproval h _ => Some (th_thread_id h, false)
  | ServerMessage.ThreadState h _ => Some (eh_thread_id h, false)
  | _ => None
  end.

(** [tid_tx.take()] and [send] *)
Definition tell_once (tid : string) (told : list string) : list string :=
  match told with [] => [tid] | _ => told end.

(** The task, over what it receives until the hub is closed; the final
    message ends it. *)
Fixpoint capture (has_tx : bool) (l : list ServerMessage.t) (s : Captured) : Captured :=
  match l with
  | [] => s
  | m :: l =>
      match captured_id m with
      | None => capture has_tx l s
      | Some (tid, final) =>
          let told := if has_tx then tell_once tid (told_ids s) else told_ids s in
          let s' := {| last_thread_id := Some tid; saw_final := final; told_ids := told |} in
          if final then s' else capture has_tx l s'
      end
  end.

(** ** The run *)

Record RunOpts : Type := {
  ro_thread_id : option string;
  ro_suite_id : string;
  ro_agent : string;
  ro_thread_id_tx : bool;
  ro_headless_prompt : option string
}.

Record HeadlessResult : Type := {
  exit_code : Z;
  hr_result_thread_id : string;
  failure_summary : option string
}.

(** [serde_json::Value] read and written as it is. *)
Definition value_codec : Codec Value := {| to_value v := Ok v; from_value v := Ok v |}.

(** The frames the run is started with. *)
Definition frame (typ : string) (rest : list (string * Value)) : Value :=
  VObject ([("v", num 1); ("type", VString typ); ("cid", VString "headless")] ++ rest).
Definition new_frame (suite agent question : string) : Value :=
  frame "new" [("suiteId", VString suite); ("agentType", VString agent); ("question", VString question)].
Definition open_frame (tid suite agent question : string) : Value :=
  frame "open" [("thread_id", VString tid); ("suiteId", VString suite); ("agentType", VString agent);
                ("question", VString question)].
Definition user_frame (tid text : string) : Value :=
  frame "user" [("thread_id", VString tid); ("text", VString text)].

(** [Capture::capture], over the texts sent: the thread last assigned. *)
Definition assigned `{!Serde} (o : option string) (text : string) : option string :=
  match from_slice text with
  | Ok v => if bool_decide (str_at "type" v = Some "thread_assigned")
            then match str_at "thread_id" v with Some tid => Some tid | None => o end else o
  | Err _ => o
  end.

Section headless.
Context {W K : Type} `{HSd : !Serde, HSt : !StorageAdapter W, HT : !Timer W, HK : !Keyspace K,
  HC : !Codec ThreadLog.t, HE : !Codec ControlStateEnvelope, HU : !UtcClock W, HR : !ToRfc3339, HD : !Rfc3339,
  HP : !PlanReader, HA : !AnswerReaders, HDR : !DetailReaders, HL : !UnicodeLower, HI : !Uuids W,
  HQ : !RequestErrors}.

Notation C := (ConnState W).

(** A server whose messages are published. *)
Definition with_hub (srv : Server W K) : Server W K :=
  {| reg := reg srv; srv_scope := srv_scope srv; srv_keyspace := srv_keyspace srv; srv_env := srv_env srv;
     has_terminal := has_terminal srv; has_hub := true; delete_embeddings := delete_embeddings srv |}.

Variable srv : Server W K.

(** The question of a resumed thread, and of a new one. *)
Definition prompt_or (prompt : option string) (dflt : string) : string := default dflt (not_blank prompt).

(** The result of a run that returned: its thread, or the error. *)
Definition ran (tid : C -> Result string string) (r : Outcome * C) : option (Result string string) * C :=
  match r with
  | (Running _, c) => (None, c)
  | (Returned (Ok _), c) => (Some (tid c), c)
  | (Returned (Err e), c) => (Some (Err e), c)
  end.

Definition run_headless_with_hub (thread_id : option string) (suite agent : string) (prompt : option string)
  (schedule : list (Event W)) (w : W) : option (Result string string) * C :=
  let srv := with_hub srv in
  let c := new_conn w in
  match thread_id with
  | Some tid =>
      if is_blank tid then (Some (Err "thread_id required"), c)
      else if negb (is_uuid tid) then (Some (Err "invalid thread_id"), c)
      else
        match with_reader (E := string) (get_log (srv_scope srv) (srv_keyspace srv) tid) c with
        | (Ok (Ok _), c) =>
            let question := prompt_or prompt "continue" in
            if negb (String.eqb question "continue") && negb (String.eqb question "go")
            then ran (fun _ => Ok tid) (process_user srv (user_frame tid question) schedule c)
            else ran (fun _ => Ok tid) (process_open srv (open_frame tid suite agent question) schedule c)
        | (_, c) => (Some (Err ("thread does not exist: " +:+ tid)), c)
        end
  | None =>
      ran (fun c => match fold_left assigned (wire c) None with
                    | Some tid => Ok tid
                    | None => Err "internal: failed to capture thread_id from new thread"
                    end)
        (process_new srv (new_frame suite agent (prompt_or prompt "go")) schedule c)
  end.

(** [outcome["phase_state"]["mode"]] of the suite's control state. *)
Definition load_mode (tid suite : string) (w : W) : option string * W :=
  let '(r, w) := load (HP := value_codec) (srv_scope srv) (srv_keyspace srv) tid suite w in
  (match r with
   | Ok (Some outcome) => Json.get outcome "phase_state" ≫= fun ps => str_at "mode" ps
   | _ => None
   end, w).

(** The summary of a failed thread, from its log. *)
Definition load_failure (tid : string) (w : W) : option string * W :=
  let '(r, s) := get_log (srv_scope srv) (srv_keyspace srv) tid (new w) in
  (match r with
   | Ok log => summarize_failure_state (materialize_state_from_log tid log) (build_thread_events_from_log log 500)
   | Err _ => None
   end, storage s).

(** How a run that did not fail is told to have ended. *)
Definition judge (tid suite : string) (final : bool) (w : W) : HeadlessResult * W :=
  let '(mode, w) := load_mode tid suite w in
  match mode with
  | Some mode =>
      if String.eqb mode "failed" then
        let '(summary, w) := load_failure tid w in
        ({| exit_code := 1; hr_result_thread_id := tid; failure_summary := summary |}, w)
      else ({| exit_code := 0; hr_result_thread_id := tid; failure_summary := None |}, w)
  | None =>
      (if final then {| exit_code := 0; hr_result_thread_id := tid; failure_summary := None |}
       else {| exit_code := 2; hr_result_thread_id := tid;
               failure_summary := Some "Thread did not reach a final state." |}, w)
  end.

(** [run_headless]: [receive] is what the capture task receives of what is
    published; a receiver that lags misses the oldest. *)
Definition run_headless (receive : list ServerMessage.t -> list ServerMessage.t) (opts : RunOpts)
  (schedule : list (Event W)) (w : W) : option (Result HeadlessResult string) * list string * W :=
  let '(run, c) := run_headless_with_hub (ro_thread_id opts) (ro_suite_id opts) (ro_agent opts)
                     (ro_headless_prompt opts) schedule w in
  let cap := capture (ro_thread_id_tx opts) (receive (published c)) captured_nothing in
  match run with
  | None => (None, told_ids cap, world c)
  | Some run =>
      let observed := match ro_thread_id opts with Some tid => Some tid | None => last_thread_id cap end in
      match run with
      | Err e =>
          match observed with
          | Some tid => (Some (Ok {| exit_code := 1; hr_result_thread_id := tid; failure_summary := Some e |}), told_ids cap, world c)
          | None => (Some (Err e), told_ids cap, world c)
          end
      | Ok tid =>
          let '(r, w) := judge (default tid observed) (ro_suite_id opts) (saw_final cap) (world c) in
          (Some (Ok r), told_ids cap, w)
      end
  end.
End headless.

(** ** What an exit code says *)

Definition is_final (m : ServerMessage.t) : bool := match m with ServerMessage.Final _ _ => true | _ => false end.

Lemma capture_final has_tx l s : saw_final s = false -> saw_final (capture has_tx l s) = existsb is_final l.
Proof.
  revert s. induction l as [|m l IH]; intros s Hs; [done|]. cbn [capture existsb].
  destruct m; cbn; try (by apply IH); done.
Qed.

Lemma capture_told has_tx l s : length (told_ids s) <= 1 -> length (told_ids (capture has_tx l s)) <= 1.
Proof.
  revert s. induction l as [|m l IH]; intros s Hs; [done|]. cbn [capture].
  destruct (captured_id m) as [[tid final]|]; [|by apply IH].
  assert (length (if has_tx then tell_once tid (told_ids s) else told_ids s) <= 1) as Ht
    by (destruct has_tx; [|done]; destruct (told_ids s); [done|exact Hs]).
  destruct final; [done|by apply IH].
Qed.

Section exits.
Context {W K : Type} `{HSd : !Serde, HSt : !StorageAdapter W, HT : !Timer W, HK : !Keyspace K,
  HC : !Codec ThreadLog.t, HE : !Codec ControlStateEnvelope, HU : !UtcClock W, HR : !ToRfc3339, HD : !Rfc3339,
  HP : !PlanReader, HA : !AnswerReaders, HDR : !DetailReaders, HL : !UnicodeLower, HI : !Uuids W,
  HQ : !RequestErrors}.
Variable srv : Server W K.

(** The mode the suite of a thread saved last. *)
Definition mode_of (tid suite : string) (w : W) : option string := (load_mode srv tid suite w).1.

Lemma judge_spec tid suite final w :
  let r := (judge srv tid suite final w).1 in
  hr_result_thread_id r = tid /\
  match mode_of tid suite w with
  | Some mode => exit_code r = (if String.eqb mode "failed" then 1 else 0)%Z
  | None => exit_code r = (if final then 0 else 2)%Z
  end /\
  (exit_code r = 0%Z -> failure_summary r = None).
Proof.
  unfold judge, mode_of. destruct (load_mode srv tid suite w) as [[mode|] w1]; cbn.
  - destruct (String.eqb mode "failed"); [|done]. destruct (load_failure srv tid w1) as [summary w2]. by repeat split.
  - by destruct final.
Qed.

(** A headless run exits with 0, 1 or 2: 1 when the run returned an error,
    which is then the summary, or the suite's saved mode is failed; 2 when no
    mode was saved and no final message was received; 0 otherwise, and then
    there is no summary.  A run that was asked to resume a thread tells of
    that thread, and the id is given to the caller at most once. *)
Theorem exit_codes_tell_the_end receive opts (schedule : list (Event W)) w r told w' :
  run_headless srv receive opts schedule w = (Some (Ok r), told, w') ->
  exists run c, run_headless_with_hub srv (ro_thread_id opts) (ro_suite_id opts) (ro_agent opts)
      (ro_headless_prompt opts) schedule w = (Some run, c) /\
    let mode := mode_of (hr_result_thread_id r) (ro_suite_id opts) (world c) in
    match run with
    | Err e => exit_code r = 1%Z /\ failure_summary r = Some e
    | Ok _ => exit_code r = match mode with
                            | Some m => if String.eqb m "failed" then 1 else 0
                            | None => if existsb is_final (receive (published c)) then 0 else 2
                            end%Z /\ (exit_code r = 0%Z -> failure_summary r = None)
    end /\
    (forall tid, ro_thread_id opts = Some tid -> hr_result_thread_id r = tid) /\ length told <= 1.
Proof.
  unfold run_headless. destruct (run_headless_with_hub srv _ _ _ _ schedule w) as [[run|] c] eqn:E; [|done].
  set (cap := capture _ _ _). intros Hr. exists run, c. split; [done|]. cbn zeta.
  assert (length (told_ids cap) <= 1) as Hl by (apply capture_told; cbn; lia).
  destruct run as [tid|e].
  - set (id := default tid _) in Hr. pose proof (judge_spec id (ro_suite_id opts) (saw_final cap) (world c)) as (H1 & H2 & H3).
    destruct (judge srv id (ro_suite_id opts) (saw_final cap) (world c)) as [r' w2]. injection Hr as -> <- _. cbn in H1, H2, H3.
    rewrite H1. rewrite <- (capture_final (ro_thread_id_tx opts) _ captured_nothing) by done. fold cap.
    split; [split; [|done]|split; [|done]].
    + by destruct (mode_of id (ro_suite_id opts) (world c)).
    + intros t Ht. unfold id. by rewrite Ht.
  - destruct (ro_thread_id opts) as [t|]; [|destruct (last_thread_id cap) as [t|]; [|done]]; injection Hr as <- <- _;
      (split; [done|split; [|done]]); [by intros ? [= <-]|done].
Qed.
End exits.

Module Resuming.
(** A thread of users' messages, stored as their number. *)
Definition step : ThreadStep.t := ThreadStep.User "continue" Observation.success "t" "ask".

Definition log (n : nat) : ThreadLog.t :=
  {| ThreadLog.schema_version := 4; ThreadLog.steps := repeat step n; ThreadLog.result := None;
     ThreadLog.title := Some "talk"; ThreadLog.title_locked := false |}.

Definition codec : Codec ThreadLog.t := {|
  to_value l := Ok (VArray (repeat VNull (length (ThreadLog.steps l))));
  from_value v := match v with VArray l => Ok (log (length l)) | _ => Err "unsupported" end
|}.

Definition serde : Serde := {|
  to_vec v := match v with VArray l => Ok (CountCodec.unary (length l)) | _ => Ok "{}" end;
  from_slice b := Ok (VArray (repeat VNull (String.length b)))
|}.

Definition thread : string := "00000000-0000-0000-0000-000000000000".

Definition world : InMemoryStorageAdapter :=
  {["t/w/p/threads/00000000-0000-0000-0000-000000000000.json" := {| obj_bytes := "a"; obj_etag := next_etag "a" |}]}.

Definition opts : RunOpts :=
  {| ro_thread_id := Some thread; ro_suite_id := "plain"; ro_agent := "ask"; ro_thread_id_tx := true;
     ro_headless_prompt := None |}.

(** The task completes; nobody lags. *)
Definition schedule : list (Event InMemoryStorageAdapter) :=
  [ToolTick; Ends (Ok [FlowFrame.Complete (mkFlowKind "done") (VString "x") None])].

Definition run : option (Result HeadlessResult string) * list string * InMemoryStorageAdapter :=
  run_headless (HSd := serde) (HSt := @memory_adapter serde) (HC := codec) (HE := EnvelopeCodec.codec) (HU := still_clock)
    (HR := one_date) (HD := digit_dates) (HP := fun _ => None) (HA := Sample.no_answers) (HDR := Sample.no_details)
    (HL := fun s => s) (HI := Asking.uuids) (HQ := fun _ _ => "bad request") Sample.server (fun l => l) opts schedule world.
End Resuming.

Lemma exit_codes_tell_the_end_witness :
  let r := {| exit_code := 0; hr_result_thread_id := Resuming.thread; failure_summary := None |} in
  Resuming.run.1 = (Some (Ok r), [Resuming.thread]) /\
  (forall tid, ro_thread_id Resuming.opts = Some tid -> hr_result_thread_id r = tid).
Proof.
  set (r := {| exit_code := 0; hr_result_thread_id := Resuming.thread; failure_summary := None |}).
  assert (Resuming.run.1 = (Some (Ok r), [Resuming.thread])) as H by (vm_compute; reflexivity).
  split; [exact H|]. destruct Resuming.run as [p w'] eqn:E. cbn in H. rewrite H in E.
  destruct (exit_codes_tell_the_end (HSd := Resuming.serde) (HSt := @memory_adapter Resuming.serde) (HC := Resuming.codec)
    (HE := EnvelopeCodec.codec) (HU := still_clock) (HR := one_date) (HD := digit_dates) (HP := fun _ => None)
    (HA := Sample.no_answers) (HDR := Sample.no_details) (HL := fun s => s) (HI := Asking.uuids)
    (HQ := fun _ _ => "bad request") Sample.server (fun l => l) Resuming.opts Resuming.schedule Resuming.world
    r [Resuming.thread] w' E) as (run & c & _ & _ & Ht & _).
  exact Ht.
Defined.
