(* ===== verification/FileSystem.v ===== *)
(** * A file system

    What the program uses of [std::fs] and [std::path]: files and directories
    under absolute paths, without links, read and written whole.  A path is
    the list of its components; [..] climbs.  Permissions, full disks and
    broken hardware are not modelled. *)

From stdpp Require Import base list strings gmap.
From Stdlib Require Import ZArith Lia Ascii.
From S2P Require Import Prelude.
From S2P Require Import RustStr.

Notation path := (list string).

Record Fs : Type := {
  files : gmap path string;
  dirs : gset path
}.

(** [std::io::ErrorKind], the kinds these calls end in. *)
Inductive IoError : Type := NotFound | NotADirectory | IsADirectory | AlreadyExists.

(** A file lives in a directory, a directory in a directory, and no path is
    both; the root is a directory. *)
Record fs_ok (fs : Fs) : Prop := {
  fs_root : [] ∈ dirs fs;
  fs_file_parent p n : is_Some (files fs !! (p ++ [n])) -> p ∈ dirs fs;
  fs_dir_parent p n : p ++ [n] ∈ dirs fs -> p ∈ dirs fs;
  fs_disjoint p : p ∈ dirs fs -> files fs !! p = None
}.

(** The path with its last component off; that of the root is the root. *)
Definition up (p : path) : path := take (length p - 1) p.

(** The place a path leads to from [at_]; the last component need not exist. *)
Fixpoint walk (fs : Fs) (at_ : path) (p : path) : Result path IoError :=
  match p with
  | [] => Ok at_
  | c :: p =>
      if decide (at_ ∈ dirs fs) then walk fs (if String.eqb c ".." then up at_ else at_ ++ [c]) p
      else match files fs !! at_ with Some _ => Err NotADirectory | None => Err NotFound end
  end.

Definition read (fs : Fs) (p : path) : Result string IoError :=
  match walk fs [] p with
  | Err e => Err e
  | Ok q =>
      match files fs !! q with
      | Some bytes => Ok bytes
      | None => if decide (q ∈ dirs fs) then Err IsADirectory else Err NotFound
      end
  end.

Definition write (p : path) (bytes : string) (fs : Fs) : Result Fs IoError :=
  match walk fs [] p with
  | Err e => Err e
  | Ok q =>
      if decide (q ∈ dirs fs) then Err IsADirectory
      else Ok {| files := <[q := bytes]> (files fs); dirs := dirs fs |}
  end.

Definition remove_file (p : path) (fs : Fs) : Result Fs IoError :=
  match walk fs [] p with
  | Err e => Err e
  | Ok q =>
      match files fs !! q with
      | Some _ => Ok {| files := delete q (files fs); dirs := dirs fs |}
      | None => if decide (q ∈ dirs fs) then Err IsADirectory else Err NotFound
      end
  end.

(** [create_dir_all] of a path without [..]: its prefixes from [at_] on. *)
Fixpoint create_dir_all (at_ p : path) (fs : Fs) : Result Fs IoError :=
  match p with
  | [] => Ok fs
  | c :: p =>
      let q := at_ ++ [c] in
      if decide (q ∈ dirs fs) then create_dir_all q p fs
      else match files fs !! q with
           | Some _ => Err (match p with [] => AlreadyExists | _ => NotADirectory end)
           | None => create_dir_all q p {| files := files fs; dirs := {[q]} ∪ dirs fs |}
           end
  end.

(** [path.is_dir()], [path.is_file()] *)
Definition is_dir (fs : Fs) (p : path) : bool :=
  match walk fs [] p with Ok q => bool_decide (q ∈ dirs fs) | Err _ => false end.
Definition is_file (fs : Fs) (p : path) : bool :=
  match walk fs [] p with Ok q => bool_decide (is_Some (files fs !! q)) | Err _ => false end.

(** The last component of a path right below [d]. *)
Definition entry_name (d q : path) : option string :=
  match decide (take (length d) q = d), drop (length d) q with
  | left _, [n] => Some n
  | _, _ => None
  end.

(** The names [read_dir] yields, in some order; [None] when it fails. *)
Definition read_dir (fs : Fs) (p : path) : option (list string) :=
  match walk fs [] p with
  | Ok d =>
      if decide (d ∈ dirs fs)
      then Some (elements (list_to_set (omap (entry_name d) (elements (dom (files fs) ∪ dirs fs))) : gset string))
      else None
  | Err _ => None
  end.

(** ** Laws *)

Definition plain_path (p : path) : Prop := Forall (fun c => String.eqb c ".." = false) p.

(** Nothing stands in the way of a file at [at_ ++ p]. *)
Definition clear_way (fs : Fs) (at_ p : path) : Prop :=
  (forall i, 0 < i < length p -> files fs !! (at_ ++ take i p) = None) /\ at_ ++ p ∉ dirs fs.

Lemma clear_way_cons fs at_ c p :
  p <> [] -> clear_way fs at_ (c :: p) -> clear_way fs (at_ ++ [c]) p /\ files fs !! (at_ ++ [c]) = None.
Proof.
  intros Hp [H1 H2]. split; [split|].
  - intros i Hi. rewrite <- app_assoc. apply (H1 (S i)). cbn. lia.
  - by rewrite <- app_assoc.
  - apply (H1 1). destruct p; [done|]. cbn. lia.
Qed.

(** Below a directory, a clear plain path leads to itself or to nothing. *)
Lemma walk_clear fs at_ p :
  fs_ok fs -> at_ ∈ dirs fs -> plain_path p -> p <> [] -> clear_way fs at_ p ->
  (walk fs at_ p = Ok (at_ ++ p)) \/
  (walk fs at_ p = Err NotFound /\ files fs !! (at_ ++ p) = None).
Proof.
  intros Hok. revert at_. induction p as [|c p IH]; intros at_ Ha Hp Hne Hc; [done|].
  apply Forall_cons in Hp as [Hpc Hp]. cbn [walk]. rewrite decide_True by done. rewrite Hpc.
  destruct p as [|c2 p]; [by left|]. apply clear_way_cons in Hc as [Hc Hf]; [|done].
  destruct (decide (at_ ++ [c] ∈ dirs fs)) as [Hd|Hd].
  - destruct (IH (at_ ++ [c])) as [Hw|[Hw Hn]]; [done..| |].
    + left. rewrite Hw. by rewrite <- app_assoc.
    + right. rewrite Hw. by rewrite <- app_assoc in Hn.
  - right. split.
    { cbn [walk]. rewrite decide_False by done. by rewrite Hf. }
    assert (forall r, r <> [] -> files fs !! ((at_ ++ [c]) ++ r) = None) as Hno.
    { intros r. induction r as [|x r IHr] using rev_ind; [done|]. intros _.
      destruct (files fs !! ((at_ ++ [c]) ++ r ++ [x])) eqn:E; [|done]. exfalso.
      rewrite app_assoc in E. apply Hd.
      assert ((at_ ++ [c]) ++ r ∈ dirs fs) as Hin by (eapply fs_file_parent; [done|by eexists]).
      clear E IHr. induction r as [|y r IHr] using rev_ind; [by rewrite app_nil_r in Hin|].
      apply IHr. rewrite app_assoc in Hin. by eapply fs_dir_parent. }
    specialize (Hno (c2 :: p)). rewrite <- app_assoc in Hno. by apply Hno.
Qed.

Lemma create_dir_all_clear fs at_ p :
  fs_ok fs -> at_ ∈ dirs fs -> (forall i, 0 < i <= length p -> files fs !! (at_ ++ take i p) = None) ->
  exists fs', create_dir_all at_ p fs = Ok fs' /\ fs_ok fs' /\ files fs' = files fs /\
    at_ ++ p ∈ dirs fs' /\ dirs fs ⊆ dirs fs' /\
    (forall q, q ∈ dirs fs' -> q ∈ dirs fs \/ exists i, i <= length p /\ q = at_ ++ take i p).
Proof.
  revert fs at_. induction p as [|c p IH]; intros fs at_ Hok Ha Hc.
  - exists fs. rewrite app_nil_r. split_and!; try done. intros q Hq. by left.
  - cbn [create_dir_all]. pose proof (Hc 1 ltac:(cbn; lia)) as H1. cbn in H1. rewrite take_0 in H1.
    assert (forall i, 0 < i <= length p -> files fs !! ((at_ ++ [c]) ++ take i p) = None) as Hc'.
    { intros i Hi. rewrite <- app_assoc. apply (Hc (S i)). cbn. lia. }
    destruct (decide (at_ ++ [c] ∈ dirs fs)) as [Hd|Hd].
    + destruct (IH fs (at_ ++ [c])) as (fs' & H2 & H3 & H4 & H5 & H6 & H7); [done..|].
      exists fs'. rewrite <- app_assoc in H5. split_and!; try done. intros q Hq.
      destruct (H7 q Hq) as [|(i & Hi & ->)]; [by left|]. right. exists (S i). split; [cbn; lia|].
      by rewrite <- app_assoc.
    + rewrite H1. set (fs1 := {| files := files fs; dirs := {[at_ ++ [c]]} ∪ dirs fs |}).
      assert (fs_ok fs1) as Hok1.
      { destruct Hok as [O1 O2 O3 O4]. split; cbn.
        - set_solver.
        - intros q n Hq. apply O2 in Hq. set_solver.
        - intros q n [Hq|Hq]%elem_of_union; [|apply O3 in Hq; set_solver].
          apply elem_of_singleton, app_inj_2 in Hq as [-> _]; [set_solver|done].
        - intros q [Hq|Hq]%elem_of_union; [|by apply O4]. apply elem_of_singleton in Hq as ->. done. }
      destruct (IH fs1 (at_ ++ [c])) as (fs' & H2 & H3 & H4 & H5 & H6 & H7); [done|set_solver|done|].
      exists fs'. rewrite <- app_assoc in H5. cbn in H6. split_and!; try done; [set_solver|].
      intros q Hq. destruct (H7 q Hq) as [Hq1|(i & Hi & ->)].
      * cbn in Hq1. apply elem_of_union in Hq1 as [->%elem_of_singleton|]; [|by left].
        right. exists 1. split; [cbn; lia|]. cbn. by rewrite take_0.
      * right. exists (S i). split; [cbn; lia|]. by rewrite <- app_assoc.
Qed.

Lemma entry_name_Some d q n : entry_name d q = Some n <-> q = d ++ [n].
Proof.
  unfold entry_name. split.
  - case_decide as H; [|done]. destruct (drop (length d) q) as [|m [|]] eqn:E; intros; simplify_eq.
    rewrite <- (take_drop (length d) q), H, E. done.
  - intros ->. rewrite take_app_length, decide_True by done. by rewrite drop_app_length.
Qed.

Lemma elem_of_read_dir fs p d :
  walk fs [] p = Ok d -> d ∈ dirs fs ->
  exists l, read_dir fs p = Some l /\ NoDup l /\
    forall n, n ∈ l <-> is_Some (files fs !! (d ++ [n])) \/ d ++ [n] ∈ dirs fs.
Proof.
  intros Hw Hd. unfold read_dir. rewrite Hw, decide_True by done. eexists. split; [done|].
  split; [apply NoDup_elements|]. intros m. rewrite elem_of_elements, elem_of_list_to_set, list_elem_of_omap.
  setoid_rewrite entry_name_Some. setoid_rewrite elem_of_elements. rewrite <- elem_of_dom.
  split; [intros (q & Hq & ->); set_solver|]. intros H. exists (d ++ [m]). set_solver.
Qed.

(** Every place above a file or a directory is a directory. *)
Lemma above_dir fs p q : fs_ok fs -> q <> [] -> (is_Some (files fs !! (p ++ q)) \/ p ++ q ∈ dirs fs) -> p ∈ dirs fs.
Proof.
  intros Hok. induction q as [|x q IH] using rev_ind; [done|]. intros _ Hq. rewrite app_assoc in Hq.
  assert (p ++ q ∈ dirs fs) as Hd.
  { destruct Hq; [by eapply fs_file_parent|by eapply fs_dir_parent]. }
  destruct q as [|y q]; [by rewrite app_nil_r in Hd|]. apply IH; [done|by right].
Qed.

Lemma walk_plain fs at_ p q : plain_path p -> walk fs at_ p = Ok q -> q = at_ ++ p.
Proof.
  revert at_. induction p as [|c p IH]; intros at_ Hp Hw.
  { cbn in Hw. injection Hw as <-. by rewrite app_nil_r. }
  apply Forall_cons in Hp as [Hc Hp]. cbn [walk] in Hw. rewrite Hc in Hw. case_decide; [|by case_match].
  apply IH in Hw as ->; [|done]. by rewrite <- app_assoc.
Qed.

Lemma walk_dirs fs p : fs_ok fs -> plain_path p -> p ∈ dirs fs -> forall q, walk fs [] (p ++ q) = walk fs p q.
Proof.
  intros Hok Hp Hd q. enough (forall a r, p = a ++ r -> walk fs a (r ++ q) = walk fs p q) as H by by apply (H []).
  intros a r. revert a. induction r as [|c r IH]; intros a ->.
  { by rewrite app_nil_r. }
  cbn [app walk]. rewrite decide_True; [|eapply above_dir; [done| |by right]; done].
  apply Forall_app in Hp as [_ Hp]. apply Forall_cons in Hp as [-> _].
  apply IH. by rewrite <- app_assoc.
Qed.

Lemma walk_dir fs p : fs_ok fs -> plain_path p -> p ∈ dirs fs -> walk fs [] p = Ok p.
Proof. intros. pose proof (walk_dirs fs p) as H2. specialize (H2 ltac:(done) ltac:(done) ltac:(done) []). by rewrite app_nil_r in H2. Qed.

Section below.
(** A clear name below a directory. *)
Variables (fs : Fs) (base p : path).
Context (Hok : fs_ok fs) (Hplain : plain_path (base ++ p)) (Hbase : base ∈ dirs fs).
Context (Hne : p <> []) (Hclear : clear_way fs base p).

Lemma walk_below :
  walk fs [] (base ++ p) = Ok (base ++ p) \/
  (walk fs [] (base ++ p) = Err NotFound /\ files fs !! (base ++ p) = None).
Proof using All.
  apply Forall_app in Hplain as [? ?]. rewrite (walk_dirs fs base) by done. by apply walk_clear.
Qed.

Lemma read_clear :
  read fs (base ++ p) = match files fs !! (base ++ p) with Some b => Ok b | None => Err NotFound end.
Proof using All.
  destruct Hclear as [_ Hnd]. unfold read. destruct walk_below as [->|[-> ->]]; [|done].
  destruct (files fs !! _); [done|]. by rewrite decide_False.
Qed.

Lemma remove_file_clear :
  remove_file (base ++ p) fs =
  match files fs !! (base ++ p) with
  | Some _ => Ok {| files := delete (base ++ p) (files fs); dirs := dirs fs |}
  | None => Err NotFound
  end.
Proof using All.
  destruct Hclear as [_ Hnd]. unfold remove_file. destruct walk_below as [->|[-> ->]]; [|done].
  destruct (files fs !! _); [done|]. by rewrite decide_False.
Qed.

(** After its directory is made, the file is written. *)
Lemma mkdir_write_clear bytes :
  exists fs1, create_dir_all [] (up (base ++ p)) fs = Ok fs1 /\
    write (base ++ p) bytes fs1 =
      Ok {| files := <[base ++ p := bytes]> (files fs); dirs := dirs fs1 |} /\
    fs_ok {| files := <[base ++ p := bytes]> (files fs); dirs := dirs fs1 |} /\
    dirs fs ⊆ dirs fs1 /\
    (forall q, base ++ q ∈ dirs fs1 -> base ++ q ∈ dirs fs \/ exists r, r <> [] /\ q ++ r = p).
Proof using All.
  destruct (exists_last Hne) as (ini & n & Ep). pose proof Hclear as [Hc Hnd].
  assert (up (base ++ p) = base ++ ini) as Eup.
  { unfold up. rewrite Ep, app_assoc, length_app. cbn. rewrite Nat.add_sub. by rewrite take_app_length. }
  rewrite Eup.
  destruct (create_dir_all_clear fs [] (base ++ ini) Hok (fs_root _ Hok)) as (fs1 & H1 & H2 & H3 & H4 & H5 & H6).
  { intros i Hi. cbn. destruct (decide (i <= length base)) as [Hib|Hib].
    - rewrite take_app_le by done. apply fs_disjoint; [done|].
      destruct (decide (drop i base = [])) as [E|E].
      + rewrite <- (take_drop i base), E, app_nil_r in Hbase. done.
      + eapply (above_dir fs _ (drop i base)); [done|done|]. right. by rewrite take_drop.
    - rewrite take_app_ge by lia. specialize (Hc (i - length base)). rewrite Ep in Hc.
      rewrite take_app_le in Hc by (rewrite length_app in Hi; lia). apply Hc.
      rewrite length_app in *. cbn. lia. }
  cbn in H4, H6.
  assert (base ++ p ∉ dirs fs1) as Hnd1.
  { intros Hd. destruct (H6 _ Hd) as [|(i & Hi & E)]; [done|]. apply (f_equal length) in E.
    rewrite length_take, !length_app, Ep, length_app in E. cbn in E. rewrite length_app in Hi. lia. }
  assert (forall q, base ++ q ∈ dirs fs1 -> base ++ q ∈ dirs fs \/ exists r, r <> [] /\ q ++ r = p) as Hdirs.
  { intros q Hq. destruct (H6 _ Hq) as [|(i & Hi & E)]; [by left|]. right.
    assert (q `prefix_of` ini) as [r ->].
    { eapply (prefix_app_inv base). rewrite E. eexists. symmetry. apply take_drop. }
    exists (r ++ [n]). split; [by destruct r|]. rewrite Ep. by rewrite app_assoc. }
  exists fs1. split; [done|]. split; [|split_and!; try done].
  - unfold write. assert (walk fs1 [] (base ++ p) = Ok (base ++ p)) as ->.
    { rewrite Ep, app_assoc. pose proof Hplain as Hpl. rewrite Ep, app_assoc in Hpl. apply Forall_app in Hpl as [Hp1 Hp2].
      apply Forall_cons in Hp2 as [Hn _].
      rewrite (walk_dirs fs1) by done. cbn [walk]. by rewrite decide_True, Hn. }
    rewrite decide_False by done. by rewrite H3.
  - destruct H2 as [O1 O2 O3 O4]. split; cbn; [done| |done|].
    + intros q m Hq. destruct (decide (base ++ p = q ++ [m])) as [E|E].
      * rewrite Ep, app_assoc in E. apply app_inj_2 in E as [<- _]; [done|done].
      * rewrite lookup_insert_ne in Hq by done. rewrite <- H3 in Hq. by eapply O2.
    + intros q Hq. rewrite lookup_insert_ne by (by intros <-). rewrite <- H3. by apply O4.
Qed.

Lemma remove_ok : fs_ok {| files := delete (base ++ p) (files fs); dirs := dirs fs |}.
Proof using Hok.
  destruct Hok as [O1 O2 O3 O4]. split; cbn; [done| |done|].
  - intros q n [b Hb]. apply lookup_delete_Some in Hb as [_ Hb]. eapply O2. by eexists.
  - intros q Hq. apply lookup_delete_None. right. by apply O4.
Qed.
End below.

(** ** Asking about a plain path *)

Lemma is_dir_plain fs p : fs_ok fs -> plain_path p -> is_dir fs p = bool_decide (p ∈ dirs fs).
Proof.
  intros Hok Hp. unfold is_dir. destruct (walk fs [] p) as [q|] eqn:E.
  - by apply walk_plain in E as ->.
  - symmetry. apply bool_decide_eq_false. intros Hd. by rewrite walk_dir in E.
Qed.

Lemma is_file_plain fs p : fs_ok fs -> plain_path p -> is_file fs p = bool_decide (is_Some (files fs !! p)).
Proof.
  intros Hok Hp. unfold is_file. destruct (walk fs [] p) as [q|] eqn:E.
  - by apply walk_plain in E as ->.
  - symmetry. apply bool_decide_eq_false. intros Hf. destruct (decide (p = [])) as [->|Hne]; [done|].
    destruct (exists_last Hne) as (d & n & ->). apply Forall_app in Hp as [Hd Hn].
    apply Forall_cons in Hn as [Hn _]. assert (d ∈ dirs fs) as Hin by by eapply fs_file_parent.
    rewrite walk_dirs in E by done. cbn [walk] in E. rewrite decide_True, Hn in E by done. done.
Qed.

Lemma read_dir_none fs p : plain_path p -> p ∉ dirs fs -> read_dir fs p = None.
Proof.
  intros Hp Hd. unfold read_dir. destruct (walk fs [] p) as [q|] eqn:E; [|done].
  apply walk_plain in E as ->; [|done]. by rewrite decide_False.
Qed.
