(* ===== verification/LocalStorage.v ===== *)
(** * The file-system storage adapter

    [src/src/modules/adaptors/storage-local/src/lib.rs]: objects as files
    below a base directory, a key's pieces naming its path.  It keeps the
    storage contract ([Storage.Spec]) for every family of well-formed keys in
    which no key lies below another; outside such a family a directory, or
    what an object left behind, stands in the way of a name. *)

From stdpp Require Import base list strings gmap sorting sets.
From Stdlib Require Import ZArith Lia Ascii.
From S2P Require Import Prelude.
From S2P Require Import RustStr.
From S2P Require Import Json.
From S2P Require Import Errors.
From S2P Require Import Storage.
From S2P Require Import MemoryStorage.
From S2P Require Import FileSystem.

Definition slash : ascii := "/".
Definition pieces (key : string) : list string := split_byte slash key.

Definition other {A} (e : string) : Result A CoreError.t := Err (storage_err (StorageError.Other e)).

(** The [for seg in k.split('/')] loop of [resolve_key]. *)
Fixpoint push_segments (out : path) (segs : list string) : Result path CoreError.t :=
  match segs with
  | [] => Ok out
  | seg :: segs =>
      if str_is_empty seg then other "invalid key (empty path segment)"
      else if String.eqb seg "." || String.eqb seg ".." || contains seg ".."
      then other "invalid key (path traversal)"
      else if contains seg RustStr.backslash then other "invalid key (backslash)"
      else push_segments (out ++ [seg]) segs
  end.

Definition resolve_key (base : path) (key : string) : Result path CoreError.t :=
  let k := trim_start_matches "/" (trim key) in
  if str_is_empty k then other "empty key" else push_segments base (pieces k).

(** The components of a relative path: empty pieces and [.] do not count. *)
Definition components (p : string) : path :=
  filter (fun c => c <> EmptyString /\ c <> ".") (pieces p).

Definition strip_path (base p : path) : option path :=
  if decide (take (length base) p = base) then Some (drop (length base) p) else None.

Definition rel_key (base p : path) : option string :=
  match strip_path base p with
  | Some rel => let s := join "/" rel in if str_is_empty s then None else Some s
  | None => None
  end.

(** [list_files_recursive]; the fuel bounds the depth of the directories. *)
Fixpoint list_files_recursive (fuel : nat) (base : path) (fs : Fs) (dir : path) : list string :=
  match fuel with
  | O => []
  | S fuel =>
      match read_dir fs dir with
      | None => []
      | Some names =>
          names ≫= fun n =>
            let p := dir ++ [n] in
            if is_dir fs p then list_files_recursive fuel base fs p
            else if is_file fs p then option_list (rel_key base p) else []
      end
  end.

(** More than any directory is deep. *)
Definition tree_depth (fs : Fs) : nat := S (max_list (length <$> elements (dirs fs))).

Definition etag_for_bytes (bytes : string) : string :=
  "fs-etag-" +:+ fmt_hex 16 (fnv_loop 1469598103934665603 bytes) +:+ "-" +:+
  fmt_nat (String.length bytes).

(** [path.parent()] *)
Definition parent (p : path) : option path :=
  match p with [] => None | _ => Some (up p) end.

Lemma join_pieces k : join "/" (pieces k) = k.
Proof. apply join_split. Qed.

Section local.
(** [serde_json::to_vec_pretty] is the [to_vec] of this adapter. *)
Context `{Serde}.
(** How an I/O error prints. *)
Variable io_text : IoError -> string.
Variable base_dir : path.

Definition io_err (op key what : string) (e : IoError) : CoreError.t :=
  storage_err (StorageError.Other (op +:+ "('" +:+ key +:+ "'): " +:+ what +:+ io_text e)).

(** [StorageError::from_io] *)
Definition from_io (op key : string) (e : IoError) : StorageError.t :=
  match e with
  | NotFound => StorageError.NotFound key
  | _ => StorageError.Other (op +:+ "('" +:+ key +:+ "'): " +:+ io_text e)
  end.

(** A call of [std::fs] that changes the file system. *)
Definition fs_do (err : IoError -> CoreError.t) (f : Fs -> Result Fs IoError) : Op Fs unit :=
  fun fs => match f fs with Ok fs' => (Ok tt, fs') | Err e => (Err (err e), fs) end.

(** [LocalFileStorageAdapter::new] *)
Definition new : Op Fs unit :=
  fs_do (fun e => storage_err (StorageError.Other ("failed to create base dir: " +:+ io_text e)))
        (create_dir_all [] base_dir).

Definition local_get_bytes (key : string) : Op Fs string :=
  do! path <- act_lift (resolve_key base_dir key);
  fun fs => (res_map_err (fun e => storage_err (from_io "get_bytes" key e)) (read fs path), fs).

Definition local_get_json (key : string) : Op Fs Value :=
  do! bytes <- local_get_bytes key; act_lift (decode_json "get_json" key bytes).

(** [create_dir_all] of the parent, then [write]. *)
Definition mkdir_write (op key : string) (path : path) (bytes : string) : Op Fs unit :=
  do! _ <- match parent path with
           | Some p => fs_do (io_err op key "mkdir: ") (create_dir_all [] p)
           | None => act_ret tt
           end;
  fs_do (io_err op key "write: ") (write path bytes).

Definition local_put_bytes (key bytes content_type : string) : Op Fs unit :=
  do! path <- act_lift (resolve_key base_dir key);
  mkdir_write "put_bytes" key path bytes.

Definition local_put_json (key : string) (value : Value) : Op Fs unit :=
  do! bytes <- act_lift (encode_json "put_json" key value);
  local_put_bytes key bytes "application/json".

(** [read], with a missing file as [None]. *)
Definition read_current (err : IoError -> CoreError.t) (path : path) : Op Fs (option string) :=
  fun fs => (match read fs path with
             | Ok bytes => Ok (Some bytes)
             | Err NotFound => Ok None
             | Err e => Err (err e)
             end, fs).

Definition local_put_json_if_etag_matches (key : string) (value : Value) (expected : option string)
  : Op Fs ConditionalWriteStatus.t :=
  let op := "put_json_if_etag_matches" in
  do! path <- act_lift (resolve_key base_dir key);
  do! bytes <- act_lift (encode_json op key value);
  do! current_bytes <- read_current (io_err op key "read current: ") path;
  let current_etag := etag_for_bytes <$> current_bytes in
  if decide (current_etag <> expected) then act_ret (ConditionalWriteStatus.Conflict current_etag)
  else
    do! _ <- mkdir_write op key path bytes;
    act_ret (ConditionalWriteStatus.Written (etag_for_bytes bytes)).

Definition local_delete_object (key : string) : Op Fs unit :=
  do! path <- act_lift (resolve_key base_dir key);
  fun fs => match remove_file path fs with
            | Ok fs' => (Ok tt, fs')
            | Err NotFound => (Ok tt, fs)
            | Err e => (Err (io_err "delete_object" key EmptyString e), fs)
            end.

Definition local_head_etag (key : string) : Op Fs (option string) :=
  do! path <- act_lift (resolve_key base_dir key);
  do! bytes <- read_current (io_err "head_etag" key EmptyString) path;
  act_ret (etag_for_bytes <$> bytes).

Definition local_list_prefix (prefix : string) : Op Fs (list string) :=
  fun fs =>
    let pref := trim_start_matches "/" (trim prefix) in
    let pref_path := components pref in
    let start := base_dir ++ pref_path in
    let walk_root := if is_dir fs start then start else base_dir ++ up pref_path in
    let keys := list_files_recursive (tree_depth fs) base_dir fs walk_root in
    (Ok (sort_strings (filter (fun k => starts_with k pref = true) keys)), fs).

#[global] Instance local_adapter : StorageAdapter Fs := {|
  get_json := local_get_json;
  put_json := local_put_json;
  put_json_if_etag_matches := local_put_json_if_etag_matches;
  get_bytes := local_get_bytes;
  put_bytes := local_put_bytes;
  delete_object := local_delete_object;
  head_etag := local_head_etag;
  list_prefix := local_list_prefix
|}.

(** ** The contract *)

(** A key as the program writes them: trimmed, its pieces plain names. *)
Definition seg_ok (seg : string) : Prop :=
  str_is_empty seg = false /\ String.eqb seg "." = false /\ String.eqb seg ".." = false /\
  contains seg ".." = false /\ contains seg RustStr.backslash = false.

Definition key_ok (key : string) : Prop := trim key = key /\ Forall seg_ok (pieces key).

(** A prefix that ends a piece: what [list_prefix] is asked for. *)
Definition prefix_ok (p : string) : Prop :=
  trim p = p /\ (p = EmptyString \/ exists d, key_ok d /\ p = d +:+ String slash EmptyString).

(** The keys in use: well formed, and none below another. *)
Variable K : string -> Prop.
Hypothesis base_plain : plain_path base_dir.
Hypothesis K_ok : forall k, K k -> key_ok k.
Hypothesis K_prefix_free : forall k k', K k -> K k' -> pieces k `prefix_of` pieces k' -> k = k'.

Definition key_of (q : path) : option string :=
  (join "/") <$> strip_path base_dir q.

#[global] Instance local_view : StorageView Fs := {|
  contents fs :=
    list_to_map (omap (fun '(q, b) => (fun k => (k, b)) <$> key_of q) (map_to_list (files fs)));
  valid fs :=
    fs_ok fs /\ base_dir ∈ dirs fs /\
    (forall q b, files fs !! (base_dir ++ q) = Some b -> exists k, K k /\ q = pieces k) /\
    (forall q, base_dir ++ q ∈ dirs fs -> q = [] \/ exists k r, K k /\ r <> [] /\ q ++ r = pieces k);
  etag_of := etag_for_bytes
|}.

Lemma key_of_Some q k : key_of q = Some k <-> exists r, q = base_dir ++ r /\ k = join "/" r.
Proof using Type.
  unfold key_of, strip_path. rewrite fmap_Some. split.
  - intros (r & Hr & ->). case_decide as E; [|done]. injection Hr as <-. exists (drop (length base_dir) q).
    split; [|done]. rewrite <- E at 1. by rewrite take_drop.
  - intros (r & -> & ->). exists r. by rewrite take_app_length, decide_True, drop_app_length.
Qed.

Lemma lookup_contents fs k : valid fs -> contents fs !! k = files fs !! (base_dir ++ pieces k).
Proof using Type.
  intros (_ & _ & Hf & _). cbn. apply option_eq. intros b. split.
  - intros Hk%elem_of_list_to_map_2. apply list_elem_of_omap in Hk as ((q & b') & Hin & Hq).
    apply fmap_Some in Hq as (k' & Hk & [= <- <-]). apply key_of_Some in Hk as (r & -> & ->).
    apply elem_of_map_to_list in Hin. destruct (Hf _ _ Hin) as (k0 & _ & ->).
    by rewrite join_pieces.
  - intros Hb. apply elem_of_list_to_map_1'.
    + intros b' Hin. apply list_elem_of_omap in Hin as ((q & b2) & Hin & Hq).
      apply fmap_Some in Hq as (k' & Hk & [= <- <-]). apply key_of_Some in Hk as (r & -> & ->).
      apply elem_of_map_to_list in Hin. destruct (Hf _ _ Hin) as (k0 & _ & ->).
      rewrite join_pieces in Hb. rewrite Hb in Hin. by injection Hin.
    + apply list_elem_of_omap. exists (base_dir ++ pieces k, b). rewrite elem_of_map_to_list. split; [done|].
      assert (key_of (base_dir ++ pieces k) = Some k) as ->; [|done]. apply key_of_Some.
      exists (pieces k). by rewrite join_pieces.
Qed.

(** *** One key *)

Lemma push_segments_ok out segs : Forall seg_ok segs -> push_segments out segs = Ok (out ++ segs).
Proof using Type.
  intros Hs. revert out. induction Hs as [|seg segs (H1 & H2 & H3 & H4 & H5) _ IH]; intros out; cbn [push_segments].
  - by rewrite app_nil_r.
  - rewrite H1, H2, H3, H4, H5. cbn [orb]. rewrite IH. by rewrite <- app_assoc.
Qed.

Lemma trim_start_slash k : key_ok k -> trim_start_matches "/" (trim k) = k /\ str_is_empty k = false.
Proof using Type.
  intros [-> Hs]. destruct k as [|a k]; [by apply Forall_cons in Hs as [[? _] _]|].
  split; [|done]. apply trim_start_matches_none. cbn. destruct (Ascii.eqb_spec a "/") as [->|]; [|done].
  cbn in Hs. by apply Forall_cons in Hs as [[? _] _].
Qed.

Lemma resolve_key_ok k : key_ok k -> resolve_key base_dir k = Ok (base_dir ++ pieces k).
Proof using Type.
  intros Hk. unfold resolve_key. destruct (trim_start_slash k Hk) as [-> ->].
  apply push_segments_ok, Hk.
Qed.

Lemma seg_ok_plain p : Forall seg_ok p -> plain_path p.
Proof using Type. intros Hp. eapply Forall_impl; [done|]. by intros c (? & ? & ? & ? & ?). Qed.

Section key.
Variables (k : string) (fs : Fs).
Context (Hk : K k) (Hfs : valid fs).

Lemma key_plain : plain_path (base_dir ++ pieces k).
Proof using All. apply Forall_app. split; [done|]. apply seg_ok_plain, K_ok, Hk. Qed.

Lemma key_clear : clear_way fs base_dir (pieces k).
Proof using All.
  destruct Hfs as (Hok & Hb & Hf & Hd). split.
  - intros i Hi. destruct (files fs !! _) eqn:E; [|done]. exfalso. apply Hf in E as (k' & Hk' & E).
    assert (k' = k) as ->.
    { apply K_prefix_free; [done..|]. rewrite <- E. exists (drop i (pieces k)). by rewrite take_drop. }
    apply (f_equal length) in E. rewrite length_take in E. lia.
  - intros Hin. destruct (Hd _ Hin) as [E|(k' & r & Hk' & Hr & E)]; [by apply split_byte_nonempty in E|].
    assert (k = k') as <- by (apply K_prefix_free; [done..|by exists r]).
    apply (f_equal length) in E. rewrite length_app in E. destruct r; [done|cbn in E; lia].
Qed.

Lemma key_nonempty : pieces k <> [].
Proof using Type. apply split_byte_nonempty. Qed.

Lemma read_key :
  read fs (base_dir ++ pieces k) = match contents fs !! k with Some b => Ok b | None => Err NotFound end.
Proof using All.
  rewrite lookup_contents by done. destruct Hfs as (? & ? & _).
  apply read_clear; [done|apply key_plain|done|apply key_nonempty|apply key_clear].
Qed.

(** What a store with one key changed looks like. *)
Lemma contents_alter fs' (f : gmap string string) :
  valid fs' -> (forall k', files fs' !! (base_dir ++ pieces k') = f !! k') -> contents fs' = f.
Proof using Type. intros Hv He. apply map_eq. intros k'. by rewrite lookup_contents, He. Qed.

Lemma pieces_inj k1 k2 : base_dir ++ pieces k1 = base_dir ++ pieces k2 -> k1 = k2.
Proof using Type. intros E. apply app_inv_head in E. by eapply split_byte_inj. Qed.

Lemma put_key op bytes :
  exists fs', mkdir_write op k (base_dir ++ pieces k) bytes fs = (Ok tt, fs') /\
    valid fs' /\ contents fs' = <[k := bytes]> (contents fs).
Proof using All.
  pose proof Hfs as (Hok & Hb & Hf & Hd).
  destruct (mkdir_write_clear fs base_dir (pieces k) Hok key_plain Hb key_nonempty key_clear bytes)
    as (fs1 & H1 & H2 & H3 & H4 & H5).
  set (fs' := {| files := <[base_dir ++ pieces k := bytes]> (files fs); dirs := dirs fs1 |}) in *.
  assert (valid fs') as Hv.
  { split; [done|]. cbn. split; [by apply H4|]. split.
    - intros q b Hq. apply lookup_insert_Some in Hq as [[E _]|[_ Hq]]; [|by eapply Hf].
      exists k. by apply app_inv_head in E.
    - intros q Hq. destruct (H5 _ Hq) as [Hq'|(r & Hr & E)]; [by apply Hd|]. right. by exists k, r. }
  exists fs'. split; [|split; [done|]].
  - assert (parent (base_dir ++ pieces k) = Some (up (base_dir ++ pieces k))) as Hpar.
    { unfold parent. pose proof key_nonempty. by destruct base_dir, (pieces k). }
    unfold mkdir_write, act_bind, fs_do. by rewrite Hpar, H1, H2.
  - apply contents_alter; [done|]. intros k'. unfold fs', Spec.Store. cbn [files]. destruct (decide (k = k')) as [<-|Hne].
    + by rewrite !lookup_insert_eq.
    + rewrite !lookup_insert_ne by (done || by intros ?%pieces_inj). symmetry. by apply lookup_contents.
Qed.

Lemma remove_key :
  exists fs', remove_file (base_dir ++ pieces k) fs =
      match contents fs !! k with Some _ => Ok fs' | None => Err NotFound end /\
    valid fs' /\ contents fs' = delete k (contents fs).
Proof using All.
  pose proof Hfs as (Hok & Hb & Hf & Hd).
  exists {| files := delete (base_dir ++ pieces k) (files fs); dirs := dirs fs |}.
  split; [|split].
  - rewrite lookup_contents by done.
    apply remove_file_clear; [done|apply key_plain|done|apply key_nonempty|apply key_clear].
  - split; [by apply remove_ok|]. cbn. split; [done|]. split; [|done].
    intros q b Hq. apply lookup_delete_Some in Hq as [_ Hq]. by eapply Hf.
  - apply contents_alter.
    + split; [by apply remove_ok|]. cbn. split; [done|]. split; [|done].
      intros q b Hq. apply lookup_delete_Some in Hq as [_ Hq]. by eapply Hf.
    + intros k'. unfold Spec.Store. cbn [files]. destruct (decide (k = k')) as [<-|Hne].
      * by rewrite !lookup_delete_eq.
      * rewrite !lookup_delete_ne by (done || by intros ?%pieces_inj). symmetry. by apply lookup_contents.
Qed.
End key.

(** *** The operations on a key *)

Lemma refines_resolved {A} k (f : path -> Op Fs A) spec :
  K k -> refines (f (base_dir ++ pieces k)) spec -> refines (act_bind (act_lift (resolve_key base_dir k)) f) spec.
Proof using K_ok.
  intros Hk Hf fs Hfs. unfold act_bind, act_lift. rewrite resolve_key_ok by by apply K_ok. by apply Hf.
Qed.

Lemma local_get_bytes_refines k : K k -> refines (local_get_bytes k) (Spec.get_bytes k).
Proof using All.
  intros Hk. apply refines_resolved; [done|]. intros fs Hfs. rewrite read_key by done. cbn.
  split; [|done]. unfold Spec.Store. by destruct (_ !! k).
Qed.

Lemma mkdir_write_refines op k bytes content_type :
  K k -> refines (mkdir_write op k (base_dir ++ pieces k) bytes) (Spec.put_bytes k bytes content_type).
Proof using All.
  intros Hk fs Hfs. destruct (put_key k fs Hk Hfs op bytes) as (fs' & -> & Hv & Hc). done.
Qed.

Lemma local_put_bytes_refines k b c : K k -> refines (local_put_bytes k b c) (Spec.put_bytes k b c).
Proof using All. intros Hk. apply refines_resolved; [done|]. by apply mkdir_write_refines. Qed.

Lemma bind_read_current {A} k err (f : option string -> Op Fs A) fs :
  K k -> valid fs ->
  act_bind (read_current err (base_dir ++ pieces k)) f fs = f ((contents fs : gmap string string) !! k) fs.
Proof using All.
  intros Hk Hfs. unfold act_bind, read_current. rewrite read_key by done. unfold Spec.Store.
  by destruct (_ !! k).
Qed.

Lemma local_head_refines k : K k -> refines (local_head_etag k) (Spec.head_etag etag_for_bytes k).
Proof using All.
  intros Hk. apply refines_resolved; [done|]. intros fs Hfs. by rewrite bind_read_current.
Qed.

Lemma local_delete_refines k : K k -> refines (local_delete_object k) (Spec.delete_object k).
Proof using All.
  intros Hk. apply refines_resolved; [done|]. intros fs Hfs.
  destruct (remove_key k fs Hk Hfs) as (fs' & H1 & H2 & H3). rewrite H1. unfold Spec.delete_object.
  destruct (contents fs !! k) eqn:E; cbn [fst snd]; [done|].
  split; [done|]. split; [|done]. unfold Spec.Store in *. by rewrite delete_id.
Qed.

Lemma local_put_json_if_refines k v e :
  K k -> refines (local_put_json_if_etag_matches k v e) (Spec.put_json_if_etag_matches etag_for_bytes k v e).
Proof using All.
  intros Hk. apply refines_resolved; [done|]. apply refines_bind; [apply refines_lift|]. intros b fs Hfs.
  rewrite bind_read_current by done. cbn zeta.
  change (act_bind (Spec.head_etag etag_for_bytes k) ?f (contents fs))
    with (f (etag_for_bytes <$> (contents fs : gmap string string) !! k) (contents fs)).
  cbv beta. set (cur := _ <$> _). destruct (decide (cur = e)) as [He|He].
  - rewrite decide_False by by intros []. revert fs Hfs cur He. intros fs Hfs _ _. revert fs Hfs.
    apply refines_bind; [by apply mkdir_write_refines|]. intros. apply refines_ret.
  - rewrite decide_True by done. done.
Qed.

(** *** Listing *)

Section listing.
Variable fs : Fs.
Context (Hfs : valid fs).

Lemma below_plain rel n :
  plain_path (base_dir ++ rel) -> is_Some (files fs !! (base_dir ++ rel ++ [n])) \/ base_dir ++ rel ++ [n] ∈ dirs fs ->
  plain_path (base_dir ++ rel ++ [n]).
Proof using base_plain K_ok Hfs.
  destruct Hfs as (_ & _ & Hf & Hd). intros Hp Hn.
  assert (exists k r, K k /\ (rel ++ [n]) ++ r = pieces k) as (k & r & Hk & E).
  { destruct Hn as [[b Hb]|Hin].
    - apply Hf in Hb as (k & Hk & E). exists k, []. by rewrite app_nil_r.
    - destruct (Hd _ Hin) as [E|(k & r & Hk & _ & E)]; [by destruct rel|]. by exists k, r. }
  apply Forall_app. split; [done|]. apply K_ok in Hk as [_ Hs]. rewrite <- E in Hs.
  apply Forall_app in Hs as [Hs _]. by apply seg_ok_plain.
Qed.

Lemma rel_key_below q : q <> [] -> Forall seg_ok q -> rel_key base_dir (base_dir ++ q) = Some (join "/" q).
Proof using Type.
  intros Hne Hq. unfold rel_key, strip_path. rewrite take_app_length, decide_True, drop_app_length by done.
  destruct Hq as [|c q Hc Hq]; [done|]. destruct Hc as (Hc & _).
  destruct c; [done|]. by destruct q.
Qed.

(** The entries of one directory. *)
Definition entry_keys (go : path -> list string) (dir : path) (n : string) : list string :=
  let p := dir ++ [n] in
  if is_dir fs p then go p else if is_file fs p then option_list (rel_key base_dir p) else [].

Lemma entry_listed go rel n k :
  plain_path (base_dir ++ rel) ->
  is_Some (files fs !! (base_dir ++ rel ++ [n])) \/ base_dir ++ rel ++ [n] ∈ dirs fs ->
  (base_dir ++ rel ++ [n] ∈ dirs fs -> k ∈ go (base_dir ++ rel ++ [n]) <->
    exists q, q <> [] /\ pieces k = (rel ++ [n]) ++ q /\ is_Some (files fs !! (base_dir ++ pieces k))) ->
  k ∈ entry_keys go (base_dir ++ rel) n <->
  exists q, pieces k = (rel ++ [n]) ++ q /\ is_Some (files fs !! (base_dir ++ pieces k)).
Proof using base_plain K_ok Hfs.
  intros Hp Hn Hgo. pose proof Hfs as (Hok & _ & Hf & _). pose proof (below_plain _ _ Hp Hn) as Hpn.
  unfold entry_keys. rewrite <- app_assoc, is_dir_plain, is_file_plain by done.
  case_bool_decide as Hd.
  - rewrite Hgo by done. split; [intros (q & _ & ?); by exists q|]. intros (q & E & Hs). exists q.
    split; [|done]. intros ->. rewrite E, app_nil_r in Hs.
    rewrite (fs_disjoint fs Hok _ Hd) in Hs. by destruct Hs.
  - destruct Hn as [Hn|]; [|done]. rewrite bool_decide_true by done. destruct Hn as [b Hb].
    destruct (Hf _ _ Hb) as (k' & Hk' & E'). rewrite E', rel_key_below, join_pieces;
      [|apply split_byte_nonempty|by apply K_ok]. cbn. rewrite list_elem_of_singleton.
    split.
    + intros ->. exists []. rewrite app_nil_r. split; [done|]. rewrite <- E'. by eexists.
    + intros (q & E & Hs). destruct (decide (q = [])) as [->|Hq].
      * rewrite app_nil_r in E. by eapply split_byte_inj.
      * exfalso. apply Hd. rewrite E' . apply (above_dir fs _ q Hok Hq). left. rewrite <- app_assoc, <- E. done.
Qed.

(** What the fuel of a listing has to exceed. *)
Definition deep_enough (fuel : nat) (rel : path) : Prop :=
  forall q, base_dir ++ rel ++ q ∈ dirs fs -> length q < fuel.

Lemma deep_enough_below fuel rel n : deep_enough (S fuel) rel -> deep_enough fuel (rel ++ [n]).
Proof using Type.
  intros Hd q Hq. specialize (Hd (n :: q)). rewrite <- app_assoc in Hq. apply Hd in Hq. cbn in Hq. lia.
Qed.

(** One level of the listing. *)
Lemma list_files_dir fuel rel :
  plain_path (base_dir ++ rel) -> base_dir ++ rel ∈ dirs fs ->
  exists l, NoDup l /\
    list_files_recursive (S fuel) base_dir fs (base_dir ++ rel) =
      (l ≫= entry_keys (list_files_recursive fuel base_dir fs) (base_dir ++ rel)) /\
    forall n, n ∈ l <-> is_Some (files fs !! (base_dir ++ rel ++ [n])) \/ base_dir ++ rel ++ [n] ∈ dirs fs.
Proof using Hfs.
  intros Hp Hd. pose proof Hfs as (Hok & _).
  destruct (elem_of_read_dir fs (base_dir ++ rel) (base_dir ++ rel)) as (l & Hr & Hnd & Hl);
    [by apply walk_dir|done|]. setoid_rewrite <- app_assoc in Hl. exists l. split; [done|].
  split; [|done]. cbn [list_files_recursive]. by rewrite Hr.
Qed.

Lemma list_files_none fuel rel :
  plain_path (base_dir ++ rel) -> base_dir ++ rel ∉ dirs fs ->
  list_files_recursive fuel base_dir fs (base_dir ++ rel) = [].
Proof using Type. intros Hp Hd. destruct fuel; [done|]. cbn. by rewrite read_dir_none. Qed.

Lemma above_file rel q k :
  q <> [] -> pieces k = rel ++ q -> is_Some (files fs !! (base_dir ++ pieces k)) -> base_dir ++ rel ∈ dirs fs.
Proof using Hfs.
  intros Hq E Hs. destruct Hfs as (Hok & _). apply (above_dir fs _ q Hok Hq). left.
  by rewrite <- app_assoc, <- E.
Qed.

(** With fuel beyond the depth of the tree, the keys of the files below,
    each once. *)
Lemma listed fuel rel k :
  plain_path (base_dir ++ rel) -> deep_enough fuel rel ->
  k ∈ list_files_recursive fuel base_dir fs (base_dir ++ rel) <->
  exists q, q <> [] /\ pieces k = rel ++ q /\ is_Some (files fs !! (base_dir ++ pieces k)).
Proof using base_plain K_ok Hfs.
  revert rel. induction fuel as [|fuel IH]; intros rel Hp Hfuel.
  { split; [by intros ?%elem_of_nil|]. intros (q & Hq & E & Hs). enough (length (@nil string) < 0) by lia.
    apply Hfuel. rewrite app_nil_r. by eapply above_file. }
  destruct (decide (base_dir ++ rel ∈ dirs fs)) as [Hd|Hd].
  2:{ rewrite list_files_none by done. split; [by intros ?%elem_of_nil|]. intros (q & Hq & E & Hs).
      by destruct Hd; eapply above_file. }
  destruct (list_files_dir fuel rel Hp Hd) as (l & _ & -> & Hl). rewrite list_elem_of_bind.
  assert (forall n, n ∈ l -> k ∈ entry_keys (list_files_recursive fuel base_dir fs) (base_dir ++ rel) n <->
    exists q, pieces k = (rel ++ [n]) ++ q /\ is_Some (files fs !! (base_dir ++ pieces k))) as Hn.
  { intros n Hn. apply Hl in Hn. apply entry_listed; [done..|]. intros _.
    apply IH; [by apply below_plain|by apply deep_enough_below]. }
  split.
  - intros (n & Hk & Hin). apply Hn in Hk as (q & E & Hs); [|done]. exists (n :: q).
    by rewrite <- app_assoc in E.
  - intros ([|n q] & Hq & E & Hs); [done|].
    assert (pieces k = (rel ++ [n]) ++ q) as E' by by rewrite <- app_assoc.
    assert (n ∈ l) as Hin; [|exists n; rewrite Hn by done; eauto].
    apply Hl. destruct (decide (q = [])) as [->|Hq']; [left; by rewrite <- E|]. right. by eapply above_file.
Qed.

Lemma listed_once fuel rel :
  plain_path (base_dir ++ rel) -> deep_enough fuel rel ->
  NoDup (list_files_recursive fuel base_dir fs (base_dir ++ rel)).
Proof using base_plain K_ok Hfs.
  revert rel. induction fuel as [|fuel IH]; intros rel Hp Hfuel; [apply NoDup_nil_2|].
  destruct (decide (base_dir ++ rel ∈ dirs fs)) as [Hd|Hd]; [|rewrite list_files_none by done; apply NoDup_nil_2].
  destruct (list_files_dir fuel rel Hp Hd) as (l & Hnd & -> & Hl).
  assert (forall n k, n ∈ l -> k ∈ entry_keys (list_files_recursive fuel base_dir fs) (base_dir ++ rel) n ->
    exists q, pieces k = (rel ++ [n]) ++ q) as Hn.
  { intros n k Hn Hk. apply Hl in Hn. apply entry_listed in Hk as (q & E & _); [by exists q|done..|].
    intros _. apply listed; [by apply below_plain|by apply deep_enough_below]. }
  apply NoDup_bind; [| |done].
  - intros n1 n2 k H1 H2 Hk1 Hk2. destruct (Hn _ _ H1 Hk1) as [q1 E1], (Hn _ _ H2 Hk2) as [q2 E2].
    rewrite E1, <- !app_assoc in E2. apply app_inv_head in E2. by injection E2.
  - intros n Hin. apply Hl in Hin. unfold entry_keys. rewrite <- app_assoc. destruct (is_dir _ _).
    + apply IH; [by apply below_plain|by apply deep_enough_below].
    + destruct (is_file _ _); [|apply NoDup_nil_2]. destruct (rel_key _ _); [apply NoDup_singleton|apply NoDup_nil_2].
Qed.

Lemma tree_depth_enough rel : deep_enough (tree_depth fs) rel.
Proof using Type.
  intros q Hq. unfold tree_depth. apply le_n_S. transitivity (length (base_dir ++ rel ++ q)).
  { rewrite !length_app. lia. }
  apply max_list_elem_of_le, list_elem_of_fmap. eexists. split; [done|]. by apply elem_of_elements.
Qed.

(** The listing of [list_prefix] against the keys with the prefix. *)
Lemma listing_is_the_keys rel (p : string) :
  plain_path (base_dir ++ rel) ->
  (forall k, is_Some (files fs !! (base_dir ++ pieces k)) -> starts_with k p = true ->
    exists q, q <> [] /\ pieces k = rel ++ q) ->
  filter (fun k => starts_with k p = true) (list_files_recursive (tree_depth fs) base_dir fs (base_dir ++ rel))
  ≡ₚ filter (fun k => starts_with k p = true) (elements (dom (contents fs))).
Proof using base_plain K_ok Hfs.
  intros Hp Hk. apply NoDup_Permutation.
  - apply NoDup_filter, listed_once; [done|apply tree_depth_enough].
  - apply NoDup_filter, NoDup_elements.
  - intros k. pose proof (lookup_contents fs k Hfs) as El. unfold Spec.Store in *.
    rewrite !list_elem_of_filter, elem_of_elements, elem_of_dom, El.
    rewrite listed by (done || apply tree_depth_enough). split.
    + by intros (? & q & ? & ? & ?).
    + intros [Hst Hs]. destruct (Hk k Hs Hst) as (q & ? & ?). split; [done|]. by exists q.
Qed.
End listing.

Lemma components_dir d : key_ok d -> components (d +:+ String slash EmptyString) = pieces d.
Proof using Type.
  intros [_ Hs]. unfold components, pieces. rewrite split_byte_app, filter_app. change (filter _ (split_byte slash EmptyString)) with (@nil string).
  rewrite app_nil_r. unfold pieces in Hs. revert Hs. generalize (split_byte slash d). intros l Hs.
  induction Hs as [|c q (Hc1 & Hc2 & _) _ IH]; [done|]. rewrite filter_cons_True, IH; [done|].
  split; [by intros ->|by intros ->].
Qed.

Lemma starts_with_dir k d : starts_with k (d +:+ String slash EmptyString) = true ->
  exists q, q <> [] /\ pieces k = pieces d ++ q.
Proof using Type.
  intros (r & ->)%starts_with_app. exists (pieces r). split; [apply split_byte_nonempty|].
  rewrite app_assoc_str. apply split_byte_app.
Qed.

Lemma local_list_refines p : prefix_ok p -> refines (local_list_prefix p) (Spec.list_prefix p).
Proof using All.
  intros [Ht Hp] fs Hfs. unfold local_list_prefix, Spec.list_prefix. cbn [fst snd]. split; [|done].
  f_equal. apply sort_strings_perm. rewrite Ht.
  pose proof Hfs as (Hok & Hb & _). destruct Hp as [->|(d & Hd & ->)].
  - change (components (trim_start_matches "/" "")) with (@nil string). rewrite app_nil_r.
    rewrite is_dir_plain, bool_decide_true by done. rewrite <- (app_nil_r base_dir) at 2.
    apply listing_is_the_keys; [done|by rewrite app_nil_r|]. intros k _ _. exists (pieces k).
    split; [apply split_byte_nonempty|done].
  - assert (trim_start_matches "/" (d +:+ String slash EmptyString) = d +:+ String slash EmptyString) as ->.
    { apply trim_start_matches_none. destruct (trim_start_slash d Hd) as [_ Hne]. destruct Hd as [_ Hs].
      destruct d as [|a d]; [done|]. cbn. destruct (Ascii.eqb_spec a "/") as [->|]; [|done].
      by apply Forall_cons in Hs as [[? _] _]. }
    rewrite components_dir by done.
    assert (plain_path (base_dir ++ pieces d)) as Hpl.
    { apply Forall_app. split; [done|]. apply seg_ok_plain, Hd. }
    rewrite is_dir_plain by done. case_bool_decide as Hdir.
    + apply listing_is_the_keys; [done..|]. intros k _. apply starts_with_dir.
    + apply listing_is_the_keys; [done| |].
      * apply Forall_app in Hpl as [? ?]. apply Forall_app. split; [done|]. by apply Forall_take.
      * intros k Hs Hst. apply starts_with_dir in Hst as (q & Hq & E). exfalso. apply Hdir. by eapply above_file.
Qed.

(** ** What the adaptor promises *)


(** A base directory nothing lies below yet. *)
Definition fresh_base (fs : Fs) : Prop :=
  (forall i, 0 < i <= length base_dir -> files fs !! take i base_dir = None) /\
  (forall q, q <> [] -> base_dir ++ q ∉ dirs fs) /\ (forall q, files fs !! (base_dir ++ q) = None).

Lemma new_is_empty fs : fs_ok fs -> fresh_base fs ->
  exists fs', new fs = (Ok tt, fs') /\ valid fs' /\ contents fs' = ∅.
Proof using Type.
  intros Hok (H1 & H2 & H3).
  destruct (create_dir_all_clear fs [] base_dir Hok (fs_root _ Hok)) as (fs' & E & Hok' & Hf & Hb & _ & Hd).
  { intros i Hi. by apply H1. }
  cbn in Hb. assert (valid fs') as Hv.
  { split; [done|]. split; [done|]. rewrite Hf. split; [intros q b Hq; by rewrite H3 in Hq|].
    intros q Hq. left. destruct (decide (q = [])) as [->|Hne]; [done|]. exfalso.
    destruct (Hd _ Hq) as [Hq'|(i & Hi & Eq)]; [by eapply H2|]. apply (f_equal length) in Eq.
    cbn in Eq. rewrite length_take, length_app in Eq. destruct q; [done|cbn in Eq; lia]. }
  exists fs'. split; [unfold new, fs_do; by rewrite E|]. split; [done|]. apply map_eq. intros k.
  rewrite lookup_contents by done. by rewrite Hf, H3.
Qed.
End local.

(** ** Runs *)

Section runs.
Context `{Serde}.

Definition show_io (e : IoError) : string :=
  match e with
  | NotFound => "No such file or directory"
  | NotADirectory => "Not a directory"
  | IsADirectory => "Is a directory"
  | AlreadyExists => "File exists"
  end.

Definition data_dir : path := ["srv"; "data"].

(** A disk with another program's file on it. *)
Definition disk : Fs :=
  {| files := {[ ["srv"; "secret"] := "s3cr3t" ]}; dirs := {[ []; ["srv"] ]} |}.

Definition thread_keys (k : string) : Prop := k = "a/threads/t1.json" \/ k = "a/threads/t2.json".

Definition after {St A} (m : Op St A) (s : St) : St := (m s).2.

Definition put (key bytes : string) : Op Fs unit := local_put_bytes show_io data_dir key bytes "text/plain".
Definition list_keys (prefix : string) (fs : Fs) : Result (list string) CoreError.t :=
  (local_list_prefix data_dir prefix fs).1.
Definition delete_key (key : string) : Op Fs unit := local_delete_object show_io data_dir key.

Definition started : Fs := after (new show_io data_dir) disk.

Lemma disk_ok : fs_ok disk.
Proof using Type.
  split.
  - vm_compute. done.
  - intros p n [b Hb]. cbn in Hb. apply lookup_singleton_Some in Hb as [E _].
    change ["srv"; "secret"] with (["srv"] ++ ["secret"]) in E. apply app_inj_2 in E as [<- _]; [|done]. vm_compute. done.
  - intros p n Hp. cbn in Hp. apply elem_of_union in Hp as [E%elem_of_singleton|E%elem_of_singleton].
    + by destruct p.
    + change ["srv"] with ([] ++ ["srv"]) in E. apply app_inj_2 in E as [-> _]; [|done]. vm_compute. done.
  - intros p Hp. cbn in *. apply elem_of_union in Hp as [->%elem_of_singleton| ->%elem_of_singleton]; vm_compute; done.
Qed.

(** Names one of which lies below the other share a path: the deeper object
    turns the other's name into a directory, and the directory outlives the
    object, so a store with nothing in it refuses a name. *)
Theorem a_deleted_object_blocks_a_name :
  exists e,
    (put "a/b" "1" started).1 = Ok tt /\
    (delete_key "a/b" (after (put "a/b" "1") started)).1 = Ok tt /\
    list_keys "" (after (delete_key "a/b") (after (put "a/b" "1") started)) = Ok [] /\
    (put "a" "2" (after (delete_key "a/b") (after (put "a/b" "1") started))).1 = Err e /\
    (put "a" "2" started).1 = Ok tt.
Proof using Type. eexists. split_and!; vm_compute; reflexivity. Qed.

(** A prefix that names a directory lists what is below it and nothing else:
    the other keys it starts are missing, unlike with the in-memory adaptor. *)
Theorem a_directory_hides_its_namesakes :
  let fs := after (put "run-10/log" "x") (after (put "run-1/log" "x") started) in
  list_keys "run-" fs = Ok ["run-1/log"; "run-10/log"] /\
  list_keys "run-1" fs = Ok ["run-1/log"].
Proof using Type. split; vm_compute; reflexivity. Qed.

(** [list_prefix] does not check its argument as [resolve_key] does: with
    [..] it names files outside the base directory. *)
Theorem listing_leaves_the_base_directory :
  list_keys "../" started = Ok ["../secret"] /\
  (local_get_bytes show_io data_dir "../secret" started).1 =
    Err (storage_err (StorageError.Other "invalid key (path traversal)")).
Proof using Type. split; vm_compute; reflexivity. Qed.
End runs.

Section witness.
Let coding : Serde := {| to_vec _ := Ok "null"; from_slice _ := Ok VNull |}.
Existing Instance coding.

Lemma thread_keys_ok k : thread_keys k -> key_ok k.
Proof.
  intros [-> | ->]; (split; [vm_compute; reflexivity|]);
    repeat (apply Forall_cons_2; [repeat split; vm_compute; reflexivity|]); apply Forall_nil_2.
Qed.

Lemma thread_keys_prefix_free k k' :
  thread_keys k -> thread_keys k' -> pieces k `prefix_of` pieces k' -> k = k'.
Proof.
  intros [-> | ->] [-> | ->] Hp; try done; exfalso; revert Hp;
    apply (bool_decide_eq_false (_ `prefix_of` _)); vm_compute; reflexivity.
Qed.

Lemma started_valid : exists fs, new show_io data_dir disk = (Ok tt, fs) /\
  valid (StorageView := local_view data_dir thread_keys) fs /\
  contents (StorageView := local_view data_dir thread_keys) fs = ∅.
Proof.
  apply new_is_empty; [apply disk_ok|]. split_and!.
  - intros i Hi. cbn in Hi. destruct i as [|[|[|]]]; [lia|vm_compute; reflexivity..|lia].
  - intros q Hq. cbn. intros [E%elem_of_singleton|E%elem_of_singleton]%elem_of_union; done.
  - intros q. cbn. by rewrite lookup_singleton_ne.
Qed.

End witness.
