(* ===== verification/Config.v ===== *)
(** * Configuration

    [src/src/core/src/resolved_config.rs] (the resolved configuration and its
    enumerations), [src/src/runtime/src/config.rs] (command line, environment
    and file folded into it), the settings read through the process globals in
    [src/src/runtime/src/runtime_settings.rs], and the credentials the S3
    adaptor takes from the environment.  The environment is a function; the
    YAML reader, [parse::<f32>], the current directory and the host's reading
    of its own section are parameters. *)

From stdpp Require Import base list strings.
From Stdlib Require Import ZArith Lia Ascii.
From S2P Require Import Prelude.
From S2P Require Import RustStr.
From S2P Require Import Json.
From S2P Require Import Errors.
From S2P Require Import Scope.
From S2P Require Import Llm.

(** [o.or_else(|| p)] *)
Notation "o 'or_else' p" := (match o with Some x => Some x | None => p end)
  (at level 62, right associativity).

(** ** Enumerations *)

Module StorageMode.
Inductive t : Type := Local | S3.

#[global] Instance eq_dec : EqDecision t.
Proof. solve_decision. Defined.

Definition display (m : t) : string := match m with Local => "local" | S3 => "s3" end.
End StorageMode.

Module LlmProvider.
Inductive t : Type := Null | OpenaiCompat | Openai | Http | LlamaCpp.

#[global] Instance eq_dec : EqDecision t.
Proof. solve_decision. Defined.

Definition display (p : t) : string :=
  match p with
  | Null => "null"
  | OpenaiCompat => "OPENAI_COMPAT"
  | Openai => "OPENAI"
  | Http => "HTTP"
  | LlamaCpp => "LLAMA_CPP"
  end.

(** [ConfigParseError], as it prints. *)
Definition parse_error (value : string) : string :=
  "unsupported llm provider '" +:+ value +:+
  "' (expected one of: NULL, OPENAI_COMPAT, OPENAI, HTTP, LLAMA_CPP)".

Definition from_str (s : string) : Result t string :=
  let raw := trim s in
  let up := to_ascii_uppercase raw in
  if String.eqb up "OPENAI_COMPAT" then Ok OpenaiCompat
  else if String.eqb up "OPENAI" then Ok Openai
  else if String.eqb up "HTTP" then Ok Http
  else if String.eqb up "LLAMA_CPP" then Ok LlamaCpp
  else if String.eqb up "NULL" then Ok Null
  else Err (parse_error raw).

(** [LlmProvider::default()] *)
Definition default : t := Null.
End LlmProvider.

(** ** The resolved configuration *)

(** A provider of fresh credentials is a handle. *)
Record S3Credentials : Type := {
  access_key_id : string;
  secret_access_key : string;
  session_token : option string;
  region : string;
  endpoint : option string;
  force_path_style : bool;
  expires_at : option Z;
  cred_provider : option Z
}.

Record StorageResolved : Type := {
  mode : StorageMode.t;
  bucket : option string;
  storage_path : option string;
  s3_credentials : option S3Credentials
}.

(** Temperatures and probabilities are opaque codes of floats. *)
Record LlmResolved : Type := {
  llm_provider : LlmProvider.t;
  base_url : option string;
  reason_model : option string;
  task_model : option string;
  embed_model : option string;
  context_length : option Z;
  gpu_layers : option Z;
  http_timeout_secs : option Z;
  max_tokens : option Z;
  temperature : option Z;
  top_p : option Z
}.

Record ReactResolvedConfig : Type := {
  server_port : Z;
  storage : StorageResolved;
  scope : RequestScope;
  llm : LlmResolved;
  suite_config : Value
}.

(** ** The file and the command line *)

Record ServeOverrides : Type := {
  ov_port : option Z;
  ov_storage_mode : option string;
  ov_bucket : option string;
  ov_storage_path : option string;
  ov_tenant : option string;
  ov_workspace : option string;
  ov_project_id : option string
}.

Record StorageFile : Type := {
  sf_mode : option string;
  sf_bucket : option string;
  sf_path : option string;
  sf_s3_credentials : option S3Credentials
}.

Record ScopeFile : Type := {
  scf_tenant : option string;
  scf_workspace : option string;
  scf_project_id : option string
}.

Record LlmFile : Type := {
  lf_provider : option string;
  lf_base_url : option string;
  lf_reason_model : option string;
  lf_task_model : option string;
  lf_embed_model : option string;
  lf_context_length : option Z;
  lf_gpu_layers : option Z;
  lf_http_timeout_secs : option Z;
  lf_max_tokens : option Z;
  lf_temperature : option Z;
  lf_top_p : option Z
}.

(** [LlmFile::default()] *)
Definition no_llm : LlmFile := {|
  lf_provider := None; lf_base_url := None; lf_reason_model := None; lf_task_model := None;
  lf_embed_model := None; lf_context_length := None; lf_gpu_layers := None;
  lf_http_timeout_secs := None; lf_max_tokens := None; lf_temperature := None; lf_top_p := None |}.

(** [f_port] is the [port] of the [server] section. *)
Record ReactConfigFile : Type := {
  f_port : option Z;
  f_storage : option StorageFile;
  f_scope : option ScopeFile;
  f_llm : option LlmFile;
  f_providers : option Value
}.

Definition DEFAULT_OPENAI_COMPAT_BASE_URL : string := "https://api.openai.com".
Definition DEFAULT_LLM_MODEL : string := "gpt-5.6-luna".
Definition DEFAULT_SERVER_PORT : Z := 8787.
Definition DEFAULT_LOCAL_STORAGE_PATH : string := "./.react".
Definition DEFAULT_RUNTIME_BUCKET : string := "skippr-react-runtime".

Definition ensure_safe_segment (name v : string) : Result unit string :=
  let t := trim v in
  if str_is_empty t then Err ("scope." +:+ name +:+ " is empty")
  else if contains t "/" || contains t backslash
  then Err ("scope." +:+ name +:+ " must not contain path separators")
  else if contains t ".." then Err ("scope." +:+ name +:+ " must not contain '..'")
  else Ok tt.

(** [s.parse::<f32>().ok()] *)
Class ParseF32 := parse_f32 : string -> option Z.

(** ** The environment *)

Section env.
Variable env : string -> option string.

Definition getenv_nonempty (key : string) : option string :=
  env key ≫= fun v => let t := trim v in if str_is_empty t then None else Some t.

Definition getenv_usize (key : string) : option Z := getenv_nonempty key ≫= parse_uint usize_max.
Definition getenv_u64 (key : string) : option Z := getenv_nonempty key ≫= parse_uint u64_max.

Definition env_opt (key : string) : option string :=
  env key ≫= fun v => if str_is_empty (trim v) then None else Some v.

Definition getenv (key dflt : string) : string := default dflt (env_opt key).

Definition objects_credentials_from_env : Result S3Credentials string :=
  match getenv_nonempty "OBJECTS_ACCESS_KEY_ID" with
  | None => Err "missing OBJECTS_ACCESS_KEY_ID (R2 S3 API key)"
  | Some access_key_id =>
  match getenv_nonempty "OBJECTS_SECRET_ACCESS_KEY" with
  | None => Err "missing OBJECTS_SECRET_ACCESS_KEY (R2 S3 API secret)"
  | Some secret_access_key =>
  match getenv_nonempty "OBJECTS_S3_ENDPOINT" with
  | None => Err "missing OBJECTS_S3_ENDPOINT (R2 S3 API endpoint)"
  | Some endpoint =>
      Ok {| access_key_id := access_key_id; secret_access_key := secret_access_key;
            session_token := None; region := default "auto" (getenv_nonempty "OBJECTS_S3_REGION");
            endpoint := Some endpoint; force_path_style := true; expires_at := None;
            cred_provider := None |}
  end end end.
End env.

(** ** [resolve_config] *)

Section resolve.
Context `{HF : !ParseF32}.
Variable env : string -> option string.
(** [std::env::current_dir()] *)
Variable cwd : Result string string.
(** The host's [resolve_suite_config], when a host composes the program. *)
Variable host : option (Value -> Result Value string).

Definition is_absolute (p : string) : bool := starts_with p "/".

(** [cwd.join(p)] of a relative path. *)
Definition path_join (d p : string) : string :=
  if ends_with d "/" then d +:+ p else d +:+ "/" +:+ p.

Definition abs_path (p : string) : Result string string :=
  let t := trim p in
  if str_is_empty t then Err "empty storage.path"
  else if is_absolute t then Ok t
  else let? d := cwd in Ok (path_join d t).

Definition parse_mode (mode_str : string) : Result StorageMode.t string :=
  let other := to_ascii_lowercase (trim mode_str) in
  if String.eqb other "local" then Ok StorageMode.Local
  else if String.eqb other "s3" || String.eqb other "r2" then Ok StorageMode.S3
  else Err ("unsupported storage.mode '" +:+ other +:+ "' (expected local|s3|r2)").

(** [file.storage.as_ref().and_then(f)] *)
Definition of_storage {A} (f : StorageFile -> option A) (file : ReactConfigFile) : option A :=
  f_storage file ≫= f.
Definition of_scope (f : ScopeFile -> option string) (file : ReactConfigFile) : option string :=
  f_scope file ≫= f.

Definition storage_fields (m : StorageMode.t) (file : ReactConfigFile) (ov : ServeOverrides)
  : Result (option string * option string) string :=
  match m with
  | StorageMode.S3 =>
      Ok (Some (default DEFAULT_RUNTIME_BUCKET
            (ov_bucket ov or_else getenv_nonempty env "SKIPPR_S3_BUCKET" or_else
             getenv_nonempty env "OBJECTS_BUCKET_REACT_RUNTIME" or_else of_storage sf_bucket file)), None)
  | StorageMode.Local =>
      let p := default DEFAULT_LOCAL_STORAGE_PATH
            (ov_storage_path ov or_else getenv_nonempty env "REACT_STORAGE_PATH" or_else
             of_storage sf_path file) in
      let? a := abs_path p in Ok (None, Some a)
  end.

(** The three scope identifiers. *)
Definition scope_fields (file : ReactConfigFile) (ov : ServeOverrides) : string * string * string :=
  (default "default" (ov_tenant ov or_else of_scope scf_tenant file),
   default "default" (ov_workspace ov or_else of_scope scf_workspace file),
   default "default" (ov_project_id ov or_else of_scope scf_project_id file)).

Definition parse_provider (raw : option string) : Result LlmProvider.t string :=
  match raw with Some raw => LlmProvider.from_str raw | None => Ok LlmProvider.default end.

Definition resolve_llm (llmf : LlmFile) : Result LlmResolved string :=
  let num mx key := getenv_nonempty env key ≫= parse_uint mx in
  let real key := getenv_nonempty env key ≫= parse_f32 in
  let? provider := parse_provider (getenv_nonempty env "LLM_PROVIDER" or_else lf_provider llmf) in
  Ok {| llm_provider := provider;
        base_url := getenv_nonempty env "LLM_BASE_URL" or_else lf_base_url llmf or_else
                    Some DEFAULT_OPENAI_COMPAT_BASE_URL;
        reason_model := getenv_nonempty env "LLM_REASON_MODEL" or_else lf_reason_model llmf or_else
                        Some DEFAULT_LLM_MODEL;
        task_model := getenv_nonempty env "LLM_TASK_MODEL" or_else lf_task_model llmf or_else
                      Some DEFAULT_LLM_MODEL;
        embed_model := getenv_nonempty env "LLM_EMBED_MODEL" or_else lf_embed_model llmf;
        context_length := num usize_max "LLM_CONTEXT_LENGTH" or_else lf_context_length llmf;
        gpu_layers := num usize_max "LLM_GPU_LAYERS" or_else lf_gpu_layers llmf;
        http_timeout_secs := num u64_max "LLM_HTTP_TIMEOUT_SECS" or_else lf_http_timeout_secs llmf;
        max_tokens := num u32_max "LLM_MAX_TOKENS" or_else lf_max_tokens llmf;
        temperature := real "LLM_TEMPERATURE" or_else lf_temperature llmf;
        top_p := real "LLM_TOP_P" or_else lf_top_p llmf |}.

Definition resolve_config_inner (file : ReactConfigFile) (ov : ServeOverrides)
  : Result ReactResolvedConfig string :=
  let port := default DEFAULT_SERVER_PORT (ov_port ov or_else f_port file) in
  let mode_str := default "local" (ov_storage_mode ov or_else
                    getenv_nonempty env "REACT_STORAGE_MODE" or_else of_storage sf_mode file) in
  let? m := parse_mode mode_str in
  let? fields := storage_fields m file ov in
  let '(t, w, p) := scope_fields file ov in
  let? _ := ensure_safe_segment "tenant" t in
  let? _ := ensure_safe_segment "workspace" w in
  let? _ := ensure_safe_segment "project_id" p in
  let raw_suite_config := default (VObject []) (f_providers file) in
  let? suite_config := match host with Some h => h raw_suite_config | None => Ok raw_suite_config end in
  let? llm := resolve_llm (default no_llm (f_llm file)) in
  let s3 := of_storage sf_s3_credentials file or_else
            (if decide (m = StorageMode.S3) then res_ok (objects_credentials_from_env env) else None) in
  let? sc := res_map_err CoreError.display (RequestScope_parse t w p) in
  Ok {| server_port := port;
        storage := {| mode := m; bucket := fields.1; storage_path := fields.2; s3_credentials := s3 |};
        scope := sc; llm := llm; suite_config := suite_config |}.
End resolve.

(** ** The settings read through the process globals *)

Record ScopePreference : Type := { sp_tenant : string; sp_workspace : string; sp_project_id : string }.

(** The environment and the two cells that are written once. *)
Record Settings : Type := {
  env_vars : string -> option string;
  resolved_config : option ReactResolvedConfig;
  scope_preference : option ScopePreference
}.

Definition bind_resolved_config (cfg : ReactResolvedConfig) (s : Settings) : Settings :=
  {| env_vars := env_vars s; resolved_config := Some (default cfg (resolved_config s));
     scope_preference := scope_preference s |}.

Definition set_scope_preference (t w p : string) (s : Settings) : Settings :=
  {| env_vars := env_vars s; resolved_config := resolved_config s;
     scope_preference := Some (default {| sp_tenant := t; sp_workspace := w; sp_project_id := p |}
                                       (scope_preference s)) |}.

Module Rs.
Section settings.
Variable s : Settings.

(** [resolved_config().and_then(|cfg| cfg.llm.f)] *)
Definition cfg_llm {A} (f : LlmResolved -> option A) : option A := resolved_config s ≫= fun c => f (llm c).
Definition var (key : string) : option string := env_opt (env_vars s) key.
Definition parsed (mx : Z) (key : string) : option Z := var key ≫= fun v => parse_uint mx (trim v).

Definition llm_provider : option LlmProvider.t :=
  (Config.llm_provider ∘ llm <$> resolved_config s) or_else
  (var "LLM_PROVIDER" ≫= fun v => res_ok (LlmProvider.from_str v)).
Definition llm_provider_string : string :=
  match llm_provider with
  | Some p => LlmProvider.display p
  | None => getenv (env_vars s) "LLM_PROVIDER" "OPENAI_COMPAT"
  end.
Definition llm_base_url : option string :=
  cfg_llm base_url or_else var "LLM_BASE_URL" or_else Some DEFAULT_OPENAI_COMPAT_BASE_URL.
Definition llm_api_key : option string := var "LLM_API_KEY" or_else var "OPENAI_API_KEY".
Definition llm_reason_model : option string :=
  cfg_llm reason_model or_else var "LLM_REASON_MODEL" or_else Some DEFAULT_LLM_MODEL.
Definition llm_task_model : option string :=
  cfg_llm task_model or_else var "LLM_TASK_MODEL" or_else Some DEFAULT_LLM_MODEL.
Definition llm_embed_model : option string := cfg_llm embed_model or_else var "LLM_EMBED_MODEL".
Definition llm_gpu_layers : option Z := cfg_llm gpu_layers or_else parsed usize_max "LLM_GPU_LAYERS".
Definition llm_context_length_opt : option Z :=
  cfg_llm context_length or_else parsed usize_max "LLM_CONTEXT_LENGTH".
Definition llm_context_length : Z := default 4096%Z llm_context_length_opt.
Definition llm_http_timeout_secs : option Z := cfg_llm http_timeout_secs.
Definition llm_max_tokens : option Z := cfg_llm max_tokens.
Definition llm_temperature : option Z := cfg_llm temperature.
Definition llm_reasoning_effort : ReasoningEffort := High.
Definition llm_top_p : option Z := cfg_llm top_p.

(** A preference, trimmed, when there is one. *)
Definition preferred (f : ScopePreference -> string) (key : string) : string :=
  match scope_preference s with
  | Some sp => let value := trim (f sp) in
               if str_is_empty value then getenv (env_vars s) key "default" else value
  | None => getenv (env_vars s) key "default"
  end.
Definition get_tenant : string := preferred sp_tenant "TENANT".
Definition get_workspace_name : string := preferred sp_workspace "WORKSPACE".
Definition get_project_id : string := preferred sp_project_id "PROJECT_ID".
Definition get_pipeline_name : string :=
  if String.eqb get_project_id "default" then getenv (env_vars s) "PIPELINE" "default" else get_project_id.
End settings.
End Rs.

(** ** What a resolved configuration holds *)

(** The numbers of the file and the command line fit the types they are read
    into. *)
Definition llm_in_range (f : LlmFile) : Prop :=
  (forall n, lf_context_length f = Some n -> in_range usize_max n) /\
  (forall n, lf_gpu_layers f = Some n -> in_range usize_max n) /\
  (forall n, lf_http_timeout_secs f = Some n -> in_range u64_max n) /\
  (forall n, lf_max_tokens f = Some n -> in_range u32_max n).

Definition inputs_in_range (file : ReactConfigFile) (ov : ServeOverrides) : Prop :=
  llm_in_range (default no_llm (f_llm file)) /\
  (forall n, ov_port ov = Some n -> in_range u16_max n) /\ (forall n, f_port file = Some n -> in_range u16_max n).

Record complete (cfg : ReactResolvedConfig) : Prop := {
  storage_shape :
    match mode (storage cfg) with
    | StorageMode.Local => bucket (storage cfg) = None /\
        exists p, storage_path (storage cfg) = Some p /\ is_absolute p = true
    | StorageMode.S3 => is_Some (bucket (storage cfg)) /\ storage_path (storage cfg) = None
    end;
  models_named : is_Some (base_url (llm cfg)) /\ is_Some (reason_model (llm cfg)) /\ is_Some (task_model (llm cfg));
  numbers_fit :
    in_range u16_max (server_port cfg) /\
    (forall n, context_length (llm cfg) = Some n -> in_range usize_max n) /\
    (forall n, gpu_layers (llm cfg) = Some n -> in_range usize_max n) /\
    (forall n, http_timeout_secs (llm cfg) = Some n -> in_range u64_max n) /\
    (forall n, max_tokens (llm cfg) = Some n -> in_range u32_max n)
}.

(** The first of some sources that says anything, or a default. *)
Fixpoint first_of {A} (sources : list (option A)) (dflt : A) : A :=
  match sources with
  | [] => dflt
  | Some x :: _ => x
  | None :: sources => first_of sources dflt
  end.

Lemma path_join_absolute d p : is_absolute d = true -> is_absolute (path_join d p) = true.
Proof.
  unfold is_absolute, path_join. intros (r & ->)%starts_with_app.
  destruct (ends_with _ _); rewrite app_assoc_str; apply starts_with_self_app.
Qed.

Lemma or_else_Some {A} (o : option A) x : is_Some (o or_else Some x).
Proof. destruct o; by eexists. Qed.

Lemma num_or_else mx (o p : option Z) s n :
  (0 <= mx)%Z -> o = (s ≫= parse_uint mx) -> (forall n, p = Some n -> in_range mx n) ->
  (o or_else p) = Some n -> in_range mx n.
Proof.
  intros Hmx -> Hp. destruct s as [v|]; cbn; [|apply Hp].
  destruct (parse_uint mx v) eqn:E; [|apply Hp]. intros [= <-]. by eapply parse_uint_range.
Qed.

Section resolved.
Context `{HF : !ParseF32}.
Variables (env : string -> option string) (cwd : Result string string) (host : option (Value -> Result Value string)).
Hypothesis cwd_absolute : forall d, cwd = Ok d -> is_absolute d = true.

Lemma resolve_llm_ok llmf l : llm_in_range llmf -> resolve_llm env llmf = Ok l ->
  (is_Some (base_url l) /\ is_Some (reason_model l) /\ is_Some (task_model l)) /\
  (forall n, context_length l = Some n -> in_range usize_max n) /\
  (forall n, gpu_layers l = Some n -> in_range usize_max n) /\
  (forall n, http_timeout_secs l = Some n -> in_range u64_max n) /\
  (forall n, max_tokens l = Some n -> in_range u32_max n).
Proof using Type.
  unfold resolve_llm. intros (H1 & H2 & H3 & H4). destruct (parse_provider _); [|done]. intros [= <-]. cbn.
  split_and!; try intros n Hn.
  - destruct (getenv_nonempty _ _); [by eexists|]. apply or_else_Some.
  - destruct (getenv_nonempty _ _); [by eexists|]. apply or_else_Some.
  - destruct (getenv_nonempty _ _); [by eexists|]. apply or_else_Some.
  - by eapply num_or_else; [|reflexivity|apply H1|].
  - by eapply num_or_else; [|reflexivity|apply H2|].
  - by eapply num_or_else; [|reflexivity|apply H3|].
  - by eapply num_or_else; [|reflexivity|apply H4|].
Qed.

Lemma storage_fields_ok m file ov fields : storage_fields env cwd m file ov = Ok fields ->
  match m with
  | StorageMode.Local => fields.1 = None /\ exists p, fields.2 = Some p /\ is_absolute p = true
  | StorageMode.S3 => is_Some fields.1 /\ fields.2 = None
  end.
Proof using cwd_absolute.
  destruct m; cbn [storage_fields].
  - unfold abs_path. set (p := default _ _). clearbody p. destruct (str_is_empty (trim p)); [done|].
    destruct (is_absolute (trim p)) eqn:Ea; [intros [= <-]; eauto|].
    destruct cwd as [d|] eqn:Ec; [|done]. cbn. intros [= <-]. split; [done|]. eexists. split; [done|].
    by apply path_join_absolute, cwd_absolute.
  - intros [= <-]. split; [by eexists|done].
Qed.

Lemma scope_fields_parsed file ov t w p q :
  RequestScope_parse t w p = Ok q -> scope_fields file ov = (t, w, p) ->
  tenant_str (tenant q) = default "default" (ov_tenant ov or_else of_scope scf_tenant file) /\
  workspace_str (workspace q) = default "default" (ov_workspace ov or_else of_scope scf_workspace file) /\
  project_str (project_id q) = default "default" (ov_project_id ov or_else of_scope scf_project_id file).
Proof using Type.
  unfold scope_fields, RequestScope_parse, TenantId_parse, WorkspaceId_parse, ProjectId_parse. intros Eq [= <- <- <-].
  do 3 (destruct (ensure_safe_scope_segment _ _) as [[]|]; [cbn [res_bind] in Eq|done]). injection Eq as <-. done.
Qed.

End resolved.

(** What the environment offers is ignored for the port and the scope,
    though the header of [config.rs] ranks it above the file. *)
Definition only (k v : string) : string -> option string := fun key => if String.eqb key k then Some v else None.

Definition empty_file : ReactConfigFile :=
  {| f_port := None; f_storage := None; f_scope := None; f_llm := None; f_providers := None |}.
Definition no_overrides : ServeOverrides :=
  {| ov_port := None; ov_storage_mode := None; ov_bucket := None; ov_storage_path := None;
     ov_tenant := None; ov_workspace := None; ov_project_id := None |}.

Section runs.
Let no_floats : ParseF32 := fun _ => None.
Existing Instance no_floats.

Lemma environment_does_not_set_the_scope :
  exists cfg, resolve_config_inner (only "TENANT" "acme") (Ok "/srv") None empty_file no_overrides = Ok cfg /\
    scope_path (scope cfg) = ["default"; "default"; "default"] /\
    Rs.get_tenant {| env_vars := only "TENANT" "acme"; resolved_config := Some cfg; scope_preference := None |} = "acme".
Proof. eexists. split; [vm_compute; reflexivity|]. split; vm_compute; reflexivity. Qed.

End runs.

(** A provider prints as it is read, whatever case and space surround it. *)
Lemma provider_round_trip p : LlmProvider.from_str (" " +:+ LlmProvider.display p +:+ " ") = Ok p.
Proof. by destruct p; vm_compute. Qed.
