(* ===== verification/S3Storage.v ===== *)
(** * The S3 storage adapter

    [src/src/modules/adaptors/storage-s3/src/lib.rs]: objects in a bucket of
    an S3-compatible service, whose client is rebuilt from fresh credentials
    when the service says the token has expired.  The service is the class
    [S3Service] over a world of its own, with the documented behaviour of S3
    (strong consistency, conditional writes, paged listing in key order) as
    [S3Laws]: any request may find the token expired, the request right after
    a renewal does not. *)

From stdpp Require Import base list strings gmap sorting.
From Stdlib Require Import ZArith Lia.
From S2P Require Import Prelude.
From S2P Require Import RustStr.
From S2P Require Import Json.
From S2P Require Import Errors.
From S2P Require Import Storage.
From S2P Require Import Config.

Definition DEFAULT_VECTORS_BUCKET : string := "skippr-react-vectors".

(** [aws_sdk_s3::error::SdkError], with its [Debug] text; a service error has
    the code the service sent. *)
Module SdkError.
Inductive t : Type :=
| TimeoutError (dbg : string)
| DispatchFailure (dbg : string)
| ServiceError (code : option string) (dbg : string)
| Unmatched (dbg : string).
End SdkError.

(** The condition of a write: [if_match], [if_none_match("*")] or none. *)
Inductive WriteCondition : Type := Always | IfMatch (etag : string) | IfNoneMatch.

(** An entry of a page: its key and time; the page and its continuation. *)
Record ListPage : Type := {
  page_contents : list (option string * option Z);
  next_continuation_token : option string
}.

(** The SDK's calls under given credentials; the body of an object is read
    apart, and can fail with a text. *)
Class S3Service (W : Type) := {
  svc_get : S3Credentials -> string -> string -> Act W SdkError.t (Result string string);
  svc_put : S3Credentials -> string -> string -> string -> string -> WriteCondition -> Act W SdkError.t (option string);
  svc_delete : S3Credentials -> string -> string -> Act W SdkError.t unit;
  svc_head : S3Credentials -> string -> string -> Act W SdkError.t (option string);
  svc_list : S3Credentials -> string -> string -> option string -> Act W SdkError.t ListPage;
  svc_credentials : Z -> Act W string S3Credentials
}.

Record S3StorageAdapter (W : Type) : Type := {
  s3_bucket : string;
  client : S3Credentials;
  credentials_provider : option Z;
  world : W
}.
Arguments s3_bucket {W} _.
Arguments client {W} _.
Arguments credentials_provider {W} _.
Arguments world {W} _.

Definition set_world {W} (w : W) (s : S3StorageAdapter W) : S3StorageAdapter W :=
  {| s3_bucket := s3_bucket s; client := client s; credentials_provider := credentials_provider s; world := w |}.
Definition set_client {W} (c : S3Credentials) (s : S3StorageAdapter W) : S3StorageAdapter W :=
  {| s3_bucket := s3_bucket s; client := c; credentials_provider := credentials_provider s; world := world s |}.

Definition from_resolved_credentials {W} (bucket : string) (c : S3Credentials) (w : W) : S3StorageAdapter W :=
  {| s3_bucket := bucket; client := c; credentials_provider := cred_provider c; world := w |}.

Definition from_credentials {W} (bucket ak sk : string) (token : option string) (region : string) (w : W)
  : S3StorageAdapter W :=
  from_resolved_credentials bucket
    {| access_key_id := ak; secret_access_key := sk; session_token := token; region := region;
       endpoint := None; force_path_style := false; expires_at := None; cred_provider := None |} w.

Definition from_env {W} (env : string -> option string) (bucket : string) (w : W)
  : Result (S3StorageAdapter W) string :=
  let? c := objects_credentials_from_env env in Ok (from_resolved_credentials bucket c w).

(** ** Errors *)

Definition str_in (s : string) (l : list string) : bool := existsb (String.eqb s) l.

Definition map_sdk_error (err : SdkError.t) : StorageError.t :=
  match err with
  | SdkError.TimeoutError dbg => StorageError.Timeout dbg
  | SdkError.DispatchFailure dbg => StorageError.Throttle dbg
  | SdkError.ServiceError code dbg =>
      let c := default EmptyString code in
      if str_in c ["NoSuchKey"; "NotFound"; "NoSuchBucket"] then
        StorageError.NotFound (default "not found" code)
      else if str_in c ["ExpiredToken"; "ExpiredTokenException"; "InvalidToken"] then
        StorageError.AuthExpired c
      else if str_in c ["SlowDown"; "Throttling"; "ThrottlingException"; "RequestLimitExceeded";
                        "TooManyRequestsException"] then StorageError.Throttle c
      else if str_in c ["RequestTimeout"] then StorageError.Timeout c
      else if str_in c ["PreconditionFailed"; "ConditionalRequestConflict"] then StorageError.Conflict c
      else StorageError.Other dbg
  | SdkError.Unmatched dbg => StorageError.Other dbg
  end.

Definition key_error (key : string) (err : SdkError.t) : CoreError.t :=
  match map_sdk_error err with
  | StorageError.NotFound _ => not_found key
  | other => storage_err other
  end.

Definition prefix_error (prefix : string) (err : SdkError.t) : CoreError.t :=
  match map_sdk_error err with
  | StorageError.NotFound _ => not_found prefix
  | other => storage_err other
  end.

Definition conditional_write_error (key : string) (err : SdkError.t) : CoreError.t :=
  match map_sdk_error err with
  | StorageError.NotFound _ => not_found key
  | other => storage_err other
  end.

Definition is_expired_token_error (err : CoreError.t) : bool :=
  match err with CoreError.Storage (StorageError.AuthExpired _) => true | _ => false end.

Definition is_conflict (err : CoreError.t) : bool :=
  match err with CoreError.Storage (StorageError.Conflict _) => true | _ => false end.

(** The family a key belongs to, for the logs. *)
Definition key_family (path : string) : string :=
  let normalized := trim path in
  let has := contains normalized in
  let ends := ends_with normalized in
  if has "/threads/" then "thread_log"
  else if has "/state/" then
    if ends "/control.json" then "control_state"
    else if ends "/state.json" then "thread_state" else "state"
  else if has "/plans/" then
    if ends "_model.json" then "model_plan" else if ends "_cleanse.json" then "cleanse_plan" else "plan"
  else if has "/dbt/models/staging/" then "staging_model"
  else if has "/dbt/models/core/" || has "/dbt/models/marts/" then "gold_model"
  else if has "/dbt/models/" then "dbt_model"
  else if has "/feedback/" then "feedback"
  else if has "/logs/" then "run_log"
  else if has "/dbt/" then "dbt_artifact"
  else "artifact".

(** ** The operations *)

Section s3.
Context {W : Type} `{!S3Service W, !Serde}.
Notation S3 := (S3StorageAdapter W).

(** A call of the SDK, its error mapped. *)
Definition send {A} (f : Act W SdkError.t A) (on_err : SdkError.t -> CoreError.t) : Op S3 A :=
  fun s => let '(r, w) := f (world s) in (res_map_err on_err r, set_world w s).

Definition refresh_client : Op S3 unit :=
  fun s =>
    match credentials_provider s with
    | None => (Ok tt, s)
    | Some p =>
        match svc_credentials p (world s) with
        | (Ok c, w) => (Ok tt, set_client c (set_world w s))
        | (Err e, w) =>
            (Err (storage_err (StorageError.Other
               ("s3 credential refresh failed (bucket='" +:+ s3_bucket s +:+ "'): " +:+ e))), set_world w s)
        end
    end.

Definition request_with_refresh {A} (request : string -> S3Credentials -> Op S3 A) : Op S3 A :=
  fun s =>
    match request (s3_bucket s) (client s) s with
    | (Err err, s1) =>
        if negb (is_expired_token_error err) || bool_decide (credentials_provider s1 = None) then (Err err, s1)
        else (do! _ <- refresh_client; fun s2 => request (s3_bucket s2) (client s2) s2) s1
    | (Ok a, s1) => (Ok a, s1)
    end.

Definition s3_get_bytes (key : string) : Op S3 string :=
  do! body <- request_with_refresh (fun b c => send (svc_get c b key) (key_error key));
  act_lift (res_map_err (fun e => storage_err (StorageError.Other
    ("s3 get_object_body failed (key='" +:+ key +:+ "'): " +:+ e))) body).

Definition s3_put_bytes (key bytes content_type : string) : Op S3 unit :=
  do! _ <- request_with_refresh (fun b c => send (svc_put c b key content_type bytes Always) (key_error key));
  act_ret tt.

(** [e.to_string()], without the operation and the key. *)
Definition json_text_err (e : string) : CoreError.t := storage_err (StorageError.Other e).

Definition s3_get_json (key : string) : Op S3 Value :=
  do! bytes <- s3_get_bytes key; act_lift (res_map_err json_text_err (from_slice bytes)).

Definition s3_put_json (key : string) (value : Value) : Op S3 unit :=
  do! bytes <- act_lift (res_map_err json_text_err (to_vec value));
  s3_put_bytes key bytes "application/json".

Definition s3_delete_object (key : string) : Op S3 unit :=
  request_with_refresh (fun b c => send (svc_delete c b key) (key_error key)).

Definition s3_head_etag (key : string) : Op S3 (option string) :=
  fun s =>
    match request_with_refresh (fun b c => send (svc_head c b key) (key_error key)) s with
    | (Ok r, s) => (Ok r, s)
    | (Err e, s) => if is_storage_not_found_error e then (Ok None, s) else (Err e, s)
    end.

Definition write_condition (expected : option string) : WriteCondition :=
  match expected with Some etag => IfMatch etag | None => IfNoneMatch end.

Definition s3_put_json_if_etag_matches (key : string) (value : Value) (expected : option string)
  : Op S3 ConditionalWriteStatus.t :=
  do! bytes <- act_lift (res_map_err json_text_err (to_vec value));
  fun s =>
    match request_with_refresh (fun b c =>
            do! out <- send (svc_put c b key "application/json" bytes (write_condition expected))
                            (conditional_write_error key);
            match out with
            | Some etag => act_ret etag
            | None => act_err (storage_err (StorageError.Other
                        ("put_object('" +:+ key +:+ "'): response missing etag")))
            end) s with
    | (Ok etag, s) => (Ok (ConditionalWriteStatus.Written etag), s)
    | (Err e, s) =>
        if is_conflict e then
          (do! current_etag <- s3_head_etag key; act_ret (ConditionalWriteStatus.Conflict current_etag)) s
        else (Err e, s)
    end.

(** One page. *)
Definition list_page (prefix : string) (token : option string) : Op S3 ListPage :=
  request_with_refresh (fun b c => send (svc_list c b prefix token) (prefix_error prefix)).

(** The paging loop: a turn per page, [None] when the fuel runs out. *)
Fixpoint list_loop {A} (collect : ListPage -> list A) (fuel : nat) (prefix : string) (token : option string)
  (out : list A) : Prog S3 CoreError.t (list A) :=
  match fuel with
  | O => fun s => (None, s)
  | S fuel =>
      run! resp <- prog_act id (list_page prefix token);
      let out := out ++ collect resp in
      match next_continuation_token resp with
      | None => prog_ret out
      | Some t => list_loop collect fuel prefix (Some t) out
      end
  end.

Definition page_keys (p : ListPage) : list string := omap fst (page_contents p).
Definition page_meta (p : ListPage) : list (string * option Z) :=
  map (fun o => (default EmptyString o.1, o.2)) (page_contents p).

Definition s3_list_prefix (fuel : nat) (prefix : string) : Prog S3 CoreError.t (list string) :=
  list_loop page_keys fuel prefix None [].
Definition list_prefix_meta (fuel : nat) (prefix : string) : Prog S3 CoreError.t (list (string * option Z)) :=
  list_loop page_meta fuel prefix None [].
End s3.

(** ** The service *)

(** How an answer of the service relates to the expected one: an error is
    known by its code. *)
Definition answers {A} (r : Result A SdkError.t) (expected : Result A string) : Prop :=
  match r, expected with
  | Ok a, Ok a' => a = a'
  | Err (SdkError.ServiceError code _), Err code' => code = Some code'
  | _, _ => False
  end.

(** The codes S3 sends for what the requests here can run into. *)
Definition s3_codes : list string := ["NoSuchKey"; "NotFound"; "PreconditionFailed"].

(** What there is to know of a service: its objects, their tags, which
    credentials it accepts, and how it cuts and resumes listings. *)
Class S3Model (W : Type) := {
  objects : W -> string -> gmap string string;
  s3_tag : string -> string;
  accepts : W -> S3Credentials -> bool;
  page_size : gmap string string -> string -> option string -> nat;
  token_of : nat -> string;
  token_pos : string -> nat
}.

(** A request under accepted credentials is served, any other finds its
    token expired and changes nothing. *)
Definition served {W A} `{!S3Model W} (b : string) (call : S3Credentials -> Act W SdkError.t A)
    (r : gmap string string -> Result A string) (upd : gmap string string -> gmap string string) : Prop :=
  forall c w,
    if accepts w c then answers (call c w).1 (r (objects w b)) /\ objects (call c w).2 b = upd (objects w b)
    else answers (call c w).1 (Err "ExpiredToken" : Result A string) /\ objects (call c w).2 b = objects w b.

Definition keys_with_prefix (m : gmap string string) (p : string) : list string :=
  sort_strings (filter (fun k => starts_with k p = true) (elements (dom m))).

(** A page is a run of the keys in order, with a token when more follow. *)
Definition page_of {W} `{!S3Model W} (m : gmap string string) (p : string) (t : option string) : ListPage :=
  let start := from_option token_pos 0 t in
  let n := page_size m p t in
  {| page_contents := map (fun k => (Some k, None)) (take n (drop start (keys_with_prefix m p)));
     next_continuation_token :=
       if Nat.ltb (start + n) (length (keys_with_prefix m p)) then Some (token_of (start + n)) else None |}.

(** The write of a conditional put: whether it happens, on what is there. *)
Definition put_if_answer (tag : string -> string) (cond : WriteCondition) (old : option string) (bytes : string)
  : Result (option string) string :=
  match cond, old with
  | Always, _ | IfNoneMatch, None => Ok (Some (tag bytes))
  | IfNoneMatch, Some _ => Err "PreconditionFailed"
  | IfMatch _, None => Err "NoSuchKey"
  | IfMatch e, Some y => if decide (tag y = e) then Ok (Some (tag bytes)) else Err "PreconditionFailed"
  end.

Class S3Laws (W : Type) `{!S3Service W, !S3Model W} : Prop := {
  get_served b k : served b (fun c => svc_get c b k)
    (fun m => match m !! k with Some x => Ok (Ok x) | None => Err "NoSuchKey" end) id;
  put_served b k t x cond : served b (fun c => svc_put c b k t x cond)
    (fun m => put_if_answer s3_tag cond (m !! k) x)
    (fun m => if is_Ok (put_if_answer s3_tag cond (m !! k) x) then <[k := x]> m else m);
  delete_served b k : served b (fun c => svc_delete c b k) (fun _ => Ok tt) (delete k);
  head_served b k : served b (fun c => svc_head c b k)
    (fun m => match m !! k with Some x => Ok (Some (s3_tag x)) | None => Err "NotFound" end) id;
  list_served b p t : served b (fun c => svc_list c b p t) (fun m => Ok (page_of m p t)) id;
  page_size_pos m p t : 0 < page_size m p t;
  token_round_trip n : token_pos (token_of n) = n;
  (** A renewal yields credentials the next request is accepted with. *)
  credentials_renewed p w : exists c w', svc_credentials p w = (Ok c, w') /\
    accepts w' c = true /\ (forall b, objects w' b = objects w b)
}.

(** ** The contract *)

Section contract.
Context {W : Type} `{!S3Service W, HM : !S3Model W, HL : !S3Laws W, HSd : !Serde}.
Notation S3 := (S3StorageAdapter W).

(** The credentials can be renewed, or never expire. *)
#[global] Instance s3_view : StorageView S3 := {|
  contents s := objects (world s) (s3_bucket s);
  valid s := is_Some (credentials_provider s) \/ forall w, accepts w (client s) = true;
  etag_of := s3_tag
|}.

(** What a mapped error of the service has to satisfy: it depends on the code
    alone, only an expired token counts as one. *)
Definition well_mapped (on_err : SdkError.t -> CoreError.t) (err_of : string -> CoreError.t) : Prop :=
  (forall code dbg, on_err (SdkError.ServiceError (Some code) dbg) = err_of code \/ code ∉ "ExpiredToken" :: s3_codes) /\
  is_expired_token_error (err_of "ExpiredToken") = true /\
  Forall (fun code => is_expired_token_error (err_of code) = false) s3_codes.

Definition mapped {A} (err_of : string -> CoreError.t) (r : Result A string) : Result A CoreError.t :=
  res_map_err err_of r.

Lemma send_answers {A} (call : Act W SdkError.t A) on_err err_of (s : S3) r :
  well_mapped on_err err_of -> answers (call (world s)).1 r ->
  (forall code, r = Err code -> code ∈ "ExpiredToken" :: s3_codes) ->
  (send call on_err s).1 = res_map_err err_of r /\ (send call on_err s).2 = set_world (call (world s)).2 s.
Proof using Type.
  intros (Hm & _) Ha Hc. unfold send. destruct (call (world s)) as [[a|e] w]; cbn in *.
  - destruct r; [by subst|done].
  - destruct r as [|code]; [by destruct e|]. destruct e as [| |code' dbg|]; try done. subst. split; [|done].
    cbn. f_equal. destruct (Hm code dbg) as [|Hn]; [done|]. by destruct Hn; apply Hc.
Qed.

(** A request that may find its token expired does what the service does with
    a fresh one. *)
Lemma request_served {A} (call : string -> S3Credentials -> Act W SdkError.t A) on_err err_of r upd :
  (forall b, served b (call b) r upd) -> well_mapped on_err err_of ->
  (forall m code, r m = Err code -> code ∈ s3_codes) ->
  refines (request_with_refresh (fun b c => send (call b c) on_err))
          (fun m => (res_map_err err_of (r m), upd m)).
Proof using HL.
  intros Hs Hm Hc s Hv. pose proof Hm as (_ & Hexp & Hcodes). rewrite Forall_forall in Hcodes.
  assert (forall s1 : S3, accepts (world s1) (client s1) = true ->
    let out := send (call (s3_bucket s1) (client s1)) on_err s1 in
    out.1 = res_map_err err_of (r (contents s1)) /\ out.2 = set_world (world out.2) s1 /\
    contents out.2 = upd (contents s1)) as Hok.
  { intros s1 Ha out. specialize (Hs (s3_bucket s1) (client s1) (world s1)). rewrite Ha in Hs.
    destruct Hs as [Hans Hobj]. destruct (send_answers _ on_err err_of s1 _ Hm Hans) as [E1 E2].
    { intros code Hcode. apply elem_of_cons. right. by eapply Hc. }
    unfold out. rewrite E1, E2. done. }
  assert (forall s' s1 : S3, s' = set_world (world s') s1 -> valid s1 -> valid s') as Hvalid
    by by intros s' s1 ->.
  unfold request_with_refresh. destruct (accepts (world s) (client s)) eqn:Ha.
  - destruct (Hok s Ha) as (E1 & E2 & E3). destruct (send _ _ s) as [out s'] eqn:E; cbn [fst snd] in *. rewrite E1.
    destruct (r (contents s)) as [a|code] eqn:Er; cbn [res_map_err fst snd].
    + split; [done|]. split; [done|]. by eapply Hvalid.
    + rewrite Hcodes by by eapply Hc. cbn. split; [done|]. split; [done|]. by eapply Hvalid.
  - destruct Hv as [[p Hp]|Hv]; [|by rewrite Hv in Ha].
    pose proof (Hs (s3_bucket s) (client s) (world s)) as Hser. rewrite Ha in Hser. destruct Hser as [Hans Hobj].
    destruct (send_answers _ on_err err_of s _ Hm Hans) as [E1 E2].
    { intros code [= <-]. apply elem_of_cons. by left. }
    destruct (send _ _ s) as [out s1] eqn:E; cbn [fst snd] in *. rewrite E1. cbn [res_map_err].
    rewrite Hexp, E2. cbn [negb orb]. rewrite bool_decide_false by (cbn; by rewrite Hp).
    unfold act_bind, refresh_client. cbn [set_world credentials_provider]. rewrite Hp.
    destruct (credentials_renewed p (call (s3_bucket s) (client s) (world s)).2) as (c & w' & Ec & Hacc & Hsame).
    cbn [world set_world]. rewrite Ec.
    set (s2 := set_client c _). destruct (Hok s2 Hacc) as (F1 & F2 & F3).
    assert (contents s2 = contents s) as Es by (cbn; by rewrite Hsame).
    rewrite F1, F3, Es. split; [done|]. split; [done|]. eapply Hvalid; [exact F2|]. left. by exists p.
Qed.

(** The three error maps look at the code only. *)
Lemma map_sdk_code code dbg dbg' :
  code ∈ "ExpiredToken" :: s3_codes ->
  map_sdk_error (SdkError.ServiceError (Some code) dbg) = map_sdk_error (SdkError.ServiceError (Some code) dbg').
Proof using Type.
  unfold s3_codes. intros Hc. repeat (apply elem_of_cons in Hc as [->|Hc]; [reflexivity|]). by apply elem_of_nil in Hc.
Qed.

Definition code_err (on_err : SdkError.t -> CoreError.t) (code : string) : CoreError.t :=
  on_err (SdkError.ServiceError (Some code) EmptyString).

Lemma well_mapped_by (on_err : SdkError.t -> CoreError.t) :
  (forall e e', map_sdk_error e = map_sdk_error e' -> on_err e = on_err e') ->
  is_expired_token_error (code_err on_err "ExpiredToken") = true ->
  Forall (fun code => is_expired_token_error (code_err on_err code) = false) s3_codes ->
  well_mapped on_err (code_err on_err).
Proof using Type.
  intros Hf He Hc. split; [|done]. intros code dbg. destruct (decide (code ∈ "ExpiredToken" :: s3_codes)) as [Hin|Hin];
    [left|by right]. by apply Hf, map_sdk_code.
Qed.

Lemma key_error_mapped k : well_mapped (key_error k) (code_err (key_error k)).
Proof using Type.
  apply well_mapped_by; [by intros e e' E; unfold key_error, prefix_error, conditional_write_error; rewrite E|done|].
  repeat (apply Forall_cons_2; [reflexivity|]). apply Forall_nil_2.
Qed.

Lemma prefix_error_mapped p : well_mapped (prefix_error p) (code_err (prefix_error p)).
Proof using Type.
  apply well_mapped_by; [by intros e e' E; unfold key_error, prefix_error, conditional_write_error; rewrite E|done|].
  repeat (apply Forall_cons_2; [reflexivity|]). apply Forall_nil_2.
Qed.

Lemma conditional_error_mapped k : well_mapped (conditional_write_error k) (code_err (conditional_write_error k)).
Proof using Type.
  apply well_mapped_by; [by intros e e' E; unfold key_error, prefix_error, conditional_write_error; rewrite E|done|].
  repeat (apply Forall_cons_2; [reflexivity|]). apply Forall_nil_2.
Qed.

Lemma put_if_codes tag cond old bytes code : put_if_answer tag cond old bytes = Err code -> code ∈ s3_codes.
Proof using Type.
  unfold put_if_answer, s3_codes. destruct cond, old; try done; try case_decide; intros [= <-];
    rewrite !elem_of_cons; tauto.
Qed.

(** Work after the request that raises no expiry of its own can wait until
    the request is over. *)
Lemma refresh_bind {A B} (req : string -> S3Credentials -> Op S3 A) (k : A -> Op S3 B) s :
  (forall a s, exists r, k a s = (r, s) /\ match r with Err e => is_expired_token_error e = false | Ok _ => True end) ->
  request_with_refresh (fun b c => act_bind (req b c) k) s = act_bind (request_with_refresh req) k s.
Proof using Type.
  intros Hk. unfold request_with_refresh, act_bind.
  destruct (req (s3_bucket s) (client s) s) as [[a|e] s1].
  - destruct (Hk a s1) as (r & -> & Hr). destruct r as [b|e]; [done|]. by rewrite Hr.
  - destruct (_ || _); [done|]. by destruct (refresh_client s1) as [[[]|] s2].
Qed.

Lemma s3_get_refines k : refines (s3_get_bytes k) (Spec.get_bytes k).
Proof using All.
  intros s Hs. unfold s3_get_bytes.
  edestruct (request_served (fun b c => svc_get c b k) (key_error k) _ _ _ (fun b => get_served b k)
    (key_error_mapped k)) as (H1 & H2 & H3); [|exact Hs|].
  { intros m code. cbn. case_match; [done|]. intros [= <-]. unfold s3_codes. rewrite !elem_of_cons. tauto. }
  unfold act_bind. destruct (request_with_refresh _ s) as [r s']. cbn [fst snd] in *. subst r.
  unfold Spec.get_bytes, Spec.Store. cbn [id] in H2. change (id ?x) with x in H2.
  destruct ((contents s : gmap string string) !! k); cbn; by rewrite ?H2.
Qed.

Lemma s3_put_refines k b t : refines (s3_put_bytes k b t) (Spec.put_bytes k b t).
Proof using All.
  intros s Hs. unfold s3_put_bytes.
  edestruct (request_served (fun bu c => svc_put c bu k t b Always) (key_error k) _ _ _ (fun bu => put_served bu k t b Always)
    (key_error_mapped k)) as (H1 & H2 & H3); [intros m code; apply put_if_codes|exact Hs|].
  unfold act_bind. destruct (request_with_refresh _ s) as [r s']. cbn [fst snd] in *. subst r. done.
Qed.

Lemma s3_delete_refines k : refines (s3_delete_object k) (Spec.delete_object k).
Proof using All. apply (request_served _ _ _ _ _ (fun b => delete_served b k) (key_error_mapped k)). done. Qed.

Lemma s3_head_refines k : refines (s3_head_etag k) (Spec.head_etag s3_tag k).
Proof using All.
  intros s Hs. unfold s3_head_etag.
  edestruct (request_served (fun b c => svc_head c b k) (key_error k) _ _ _ (fun b => head_served b k)
    (key_error_mapped k)) as (H1 & H2 & H3); [|exact Hs|].
  { intros m code. cbn. case_match; [done|]. intros [= <-]. unfold s3_codes. rewrite !elem_of_cons. tauto. }
  destruct (request_with_refresh _ s) as [r s']. cbn [fst snd] in *. subst r. change (id ?x) with x in H2.
  unfold Spec.head_etag, Spec.Store. destruct ((contents s : gmap string string) !! k); cbn; by rewrite ?H2.
Qed.

(** A conditional write against the abstract store.  The service knows no
    version of an object that is gone, so expecting one is "not found" rather
    than a conflict. *)
Definition s3_put_if_spec (k : string) (v : Value) (e : option string) : Op Spec.Store ConditionalWriteStatus.t :=
  do! bytes <- act_lift (res_map_err json_text_err (to_vec v));
  do! current <- Spec.head_etag s3_tag k;
  if decide (current = e) then
    do! _ <- Spec.put_bytes k bytes "application/json";
    act_ret (ConditionalWriteStatus.Written (s3_tag bytes))
  else match e, current with
       | Some _, None => act_err (not_found k)
       | _, _ => act_ret (ConditionalWriteStatus.Conflict current)
       end.

Lemma conflict_reply k s : valid s ->
  exists s', (do! current_etag <- s3_head_etag k; act_ret (ConditionalWriteStatus.Conflict current_etag)) s =
      (Ok (ConditionalWriteStatus.Conflict (s3_tag <$> (contents s : gmap string string) !! k)), s') /\
    contents s' = contents s /\ valid s'.
Proof using All.
  intros Hs. destruct (s3_head_refines k s Hs) as (H1 & H2 & H3). unfold act_bind.
  destruct (s3_head_etag k s) as [r s']. cbn [fst snd] in *. subst r. by exists s'.
Qed.

(** The request of a conditional write. *)
Definition write_request (k b : string) (e : option string) (bu : string) (c : S3Credentials) : Op S3 string :=
  do! out <- send (svc_put c bu k "application/json" b (write_condition e)) (conditional_write_error k);
  match out with
  | Some etag => act_ret etag
  | None => act_err (storage_err (StorageError.Other ("put_object('" +:+ k +:+ "'): response missing etag")))
  end.

Lemma write_request_runs k b e s : valid s ->
  let answer := put_if_answer s3_tag (write_condition e) ((contents s : gmap string string) !! k) b in
  exists s', request_with_refresh (write_request k b e) s =
      (match answer with Ok _ => Ok (s3_tag b) | Err code => Err (code_err (conditional_write_error k) code) end, s') /\
    contents s' = (if is_Ok answer then <[k := b]> (contents s : gmap string string) else contents s) /\ valid s'.
Proof using All.
  intros Hs answer. unfold write_request. rewrite refresh_bind.
  2:{ intros [tag|] s0; eexists; split; [reflexivity|done|reflexivity|reflexivity]. }
  edestruct (request_served (fun bu c => svc_put c bu k "application/json" b (write_condition e))
    (conditional_write_error k) _ _ _ (fun bu => put_served bu k "application/json" b (write_condition e))
    (conditional_error_mapped k)) as (H1 & H2 & H3); [intros m code; apply put_if_codes|exact Hs|].
  unfold act_bind. destruct (request_with_refresh _ s) as [r s']. cbn [fst snd] in *. subst r.
  exists s'. split; [|done]. unfold Spec.Store in *. unfold answer.
  destruct e as [t|], ((contents s : gmap string string) !! k) as [y|]; cbn [write_condition put_if_answer];
    try case_decide; done.
Qed.

Lemma s3_put_if_refines k v e : refines (s3_put_json_if_etag_matches k v e) (s3_put_if_spec k v e).
Proof using All.
  apply refines_bind; [apply refines_lift|]. intros b s Hs.
  destruct (write_request_runs k b e s Hs) as (s' & E & H2 & H3). unfold write_request in E. rewrite E.
  change (act_bind (Spec.head_etag s3_tag k) ?f (contents s))
    with (f (s3_tag <$> (contents s : gmap string string) !! k) (contents s)). cbv beta.
  unfold Spec.Store in *. destruct ((contents s : gmap string string) !! k) as [y|] eqn:Ey; cbn [fmap option_fmap option_map].
  - destruct e as [t|]; cbn [write_condition put_if_answer] in *; [destruct (decide (s3_tag y = t)) as [<-|Hne]|].
    + rewrite decide_True by done. done.
    + rewrite decide_False by congruence. cbn [is_Ok] in H2.
      destruct (conflict_reply k s' H3) as (s2 & E2 & Ec & Ev). unfold Spec.Store in *. rewrite H2, Ey in E2.
      change (is_conflict _) with true. cbn iota. rewrite E2. cbn [fst snd]. split; [done|]. by rewrite Ec.
    + rewrite decide_False by done. cbn [is_Ok] in H2.
      destruct (conflict_reply k s' H3) as (s2 & E2 & Ec & Ev). unfold Spec.Store in *. rewrite H2, Ey in E2.
      change (is_conflict _) with true. cbn iota. rewrite E2. cbn [fst snd]. split; [done|]. by rewrite Ec.
  - destruct e as [t|]; cbn [write_condition put_if_answer] in *.
    + rewrite decide_False by done. done.
    + rewrite decide_True by done. done.
Qed.

(** ** JSON *)

(** The results are the same, or both tell of a JSON error; the adaptor's text
    of one names neither the operation nor the key. *)
Definition retold {A} (r r' : Result A CoreError.t) : Prop :=
  r = r' \/ exists t t', r = Err (json_text_err t) /\ r' = Err (storage_err (StorageError.Other t')).

(** On a store where [pre] holds the operation is the abstract one, but for the
    text of a JSON error. *)
Definition refines_retold {A} (pre : gmap string string -> Prop) (m : Op S3 A) (spec : Op Spec.Store A) : Prop :=
  forall s, valid s -> pre (contents s) ->
    retold (m s).1 (spec (contents s)).1 /\ contents (m s).2 = (spec (contents s)).2 /\ valid (m s).2.

Lemma retold_refl {A} (r : Result A CoreError.t) : retold r r.
Proof using Type. by left. Qed.

Lemma s3_get_json_retold k : refines_retold (fun _ => True) (s3_get_json k) (Spec.get_json k).
Proof using All.
  intros s Hs _. destruct (s3_get_refines k s Hs) as (H1 & H2 & H3). unfold s3_get_json, Spec.get_json, act_bind.
  destruct (s3_get_bytes k s) as [r s'], (Spec.get_bytes k (contents s)) as [r' c']. cbn [fst snd] in *. subst r' c'.
  destruct r as [b|e]; [|by split; [left|]]. unfold act_lift, decode_json. cbn [fst snd].
  split; [|done]. destruct (from_slice b); cbn; [by left|right]. eauto.
Qed.

Lemma encode_retold {A} op k v (m : string -> Op S3 A) (spec : string -> Op Spec.Store A) pre :
  (forall b, refines_retold pre (m b) (spec b)) ->
  refines_retold pre (do! b <- act_lift (res_map_err json_text_err (to_vec v)); m b)
                     (do! b <- act_lift (encode_json op k v); spec b).
Proof using Type.
  intros Hm s Hs Hp. unfold act_bind, act_lift, encode_json. destruct (to_vec v) as [b|e]; cbn [res_map_err]; [by apply Hm|].
  cbn. split; [|done]. right. eauto.
Qed.

Lemma s3_put_json_retold k v : refines_retold (fun _ => True) (s3_put_json k v) (Spec.put_json k v).
Proof using All.
  apply encode_retold. intros b s Hs _. destruct (s3_put_refines k b "application/json" s Hs) as (H1 & H2).
  split; [by left|done].
Qed.

(** Every conditional write, but one that expects a version of an object that
    is not there. *)
Lemma s3_put_if_retold k v e :
  refines_retold (fun m => e = None \/ is_Some (m !! k)) (s3_put_json_if_etag_matches k v e)
    (Spec.put_json_if_etag_matches s3_tag k v e).
Proof using All.
  intros s Hs Hp. destruct (s3_put_if_refines k v e s Hs) as (H1 & H2 & H3). rewrite H1, H2.
  assert (retold (s3_put_if_spec k v e (contents s)).1 (Spec.put_json_if_etag_matches s3_tag k v e (contents s)).1 /\
    (s3_put_if_spec k v e (contents s)).2 = (Spec.put_json_if_etag_matches s3_tag k v e (contents s)).2) as [? ?]; [|done].
  unfold s3_put_if_spec, Spec.put_json_if_etag_matches, act_bind, act_lift, encode_json.
  destruct (to_vec v) as [b|x]; cbn [res_map_err]; [|cbn; split; [right; eauto|done]].
  unfold Spec.head_etag. case_decide; [by split; [left|]|].
  destruct Hp as [->|[y Hy]]; [by split; [left|]|]. unfold Spec.Store in *. rewrite Hy. by destruct e; split; [left| |left|].
Qed.

Lemma s3_put_if_gone k v t s : valid s -> (contents s : gmap string string) !! k = None ->
  (s3_put_json_if_etag_matches k v (Some t) s).1 =
    Err (match to_vec v with Ok _ => not_found k | Err e => json_text_err e end) /\
  contents (s3_put_json_if_etag_matches k v (Some t) s).2 = contents s /\
  valid (s3_put_json_if_etag_matches k v (Some t) s).2.
Proof using All.
  intros Hs Hn. destruct (s3_put_if_refines k v (Some t) s Hs) as (H1 & H2 & H3). rewrite H1, H2.
  unfold s3_put_if_spec, act_bind, act_lift. destruct (to_vec v) as [b|x]; cbn [res_map_err]; [|done].
  unfold Spec.head_etag, Spec.Store in *. rewrite Hn. done.
Qed.

(** ** Listing *)

(** Fuel for a page per remaining key is enough from any point on. *)
Lemma list_loop_runs fuel p token (s : S3) :
  let all := keys_with_prefix (contents s) p in
  let start := from_option token_pos 0 token in
  valid s -> length all - start < fuel -> start <= length all ->
  exists s', list_loop page_keys fuel p token (take start all) s = (Some (Ok all), s') /\
    contents s' = contents s /\ valid s'.
Proof using All.
  revert token s. induction fuel as [|fuel IH]; intros token s all start Hs Hf Hle; [lia|].
  cbn [list_loop].
  edestruct (request_served (fun b c => svc_list c b p token) (prefix_error p) _ _ _ (fun b => list_served b p token)
    (prefix_error_mapped p)) as (H1 & H2 & H3); [intros m code; done|exact Hs|].
  unfold prog_bind, prog_act, list_page. destruct (request_with_refresh _ s) as [r s1]. cbn [fst snd] in *. subst r.
  cbn [res_map_err]. change (id ?x) with x in H2.
  assert (take start all ++ page_keys (page_of (contents s) p token) =
    take (start + page_size (contents s) p token) all) as Hout.
  { unfold page_keys, page_of. cbn [page_contents].
    rewrite <- (take_take_drop all start (page_size (contents s) p token)). f_equal.
    fold all. fold start. generalize (take (page_size (contents s) p token) (drop start all)). intros l.
    induction l as [|x l IHl]; [done|]. cbn. by rewrite IHl. }
  rewrite Hout. unfold page_of at 1. cbn [next_continuation_token]. fold all. fold start.
  pose proof (page_size_pos (contents s) p token) as Hpos.
  destruct (Nat.ltb_spec (start + page_size (contents s) p token) (length all)) as [Hlt|Hge].
  - destruct (IH (Some (token_of (start + page_size (contents s) p token))) s1) as (s' & E & Ec & Ev);
      [done|cbn [from_option]; rewrite token_round_trip, H2; fold all; lia..|].
    cbn [from_option] in E. rewrite token_round_trip, H2 in E. exists s'. split; [exact E|].
    by rewrite Ec.
  - exists s1. rewrite take_ge by lia. done.
Qed.

(** C13: The S3 adaptor over a service that answers every request (none is
    throttled or times out) is an object store, however often its token
    expires between two requests, as long as the credentials can be renewed:
    reads, writes, deletions and the tag of an object return what the abstract
    store returns and leave its objects; the operations on JSON do so too, but
    for the text of a JSON error, which names neither the operation nor the
    key, and but for a conditional write that expects a version of an object
    that is gone, which is an error and changes nothing; and the listing loop
    ends, after at most one page per key, with the keys of the prefix in
    order. *)
Theorem s3_implements_the_store :
  (forall k, refines (s3_get_bytes k) (Spec.get_bytes k)) /\
  (forall k b t, refines (s3_put_bytes k b t) (Spec.put_bytes k b t)) /\
  (forall k, refines (s3_delete_object k) (Spec.delete_object k)) /\
  (forall k, refines (s3_head_etag k) (Spec.head_etag s3_tag k)) /\
  (forall k, refines_retold (fun _ => True) (s3_get_json k) (Spec.get_json k)) /\
  (forall k v, refines_retold (fun _ => True) (s3_put_json k v) (Spec.put_json k v)) /\
  (forall k v e, refines_retold (fun m => e = None \/ is_Some (m !! k)) (s3_put_json_if_etag_matches k v e)
                   (Spec.put_json_if_etag_matches s3_tag k v e)) /\
  (forall k v t s, valid s -> (contents s : gmap string string) !! k = None ->
     (s3_put_json_if_etag_matches k v (Some t) s).1 =
       Err (match to_vec v with Ok _ => not_found k | Err e => json_text_err e end) /\
     contents (s3_put_json_if_etag_matches k v (Some t) s).2 = contents s /\
     valid (s3_put_json_if_etag_matches k v (Some t) s).2) /\
  (forall p fuel s, valid s -> length (keys_with_prefix (contents s) p) < fuel ->
    exists s', s3_list_prefix fuel p s = (Some (Spec.list_prefix p (contents s)).1, s') /\
      contents s' = contents s /\ valid s').
Proof using All.
  split_and!; [apply s3_get_refines|apply s3_put_refines|apply s3_delete_refines|apply s3_head_refines
              |apply s3_get_json_retold|apply s3_put_json_retold|apply s3_put_if_retold|apply s3_put_if_gone|].
  intros p fuel s Hs Hf. destruct (list_loop_runs fuel p None s Hs) as (s' & E & Ec & Ev); [cbn [from_option]; lia|cbn [from_option]; lia|].
  exists s'. done.
Qed.
End contract.

(** ** A small service *)

Module Bucket.
(** The buckets, and the access key the service accepts at the moment. *)
Record t : Type := { store : gmap string (gmap string string); live_key : string }.

Definition bucket_of (w : t) (b : string) : gmap string string := default ∅ (store w !! b).

Definition creds (key : string) (provider : option Z) : S3Credentials :=
  {| access_key_id := key; secret_access_key := "s"; session_token := None; region := "auto";
     endpoint := None; force_path_style := true; expires_at := None; cred_provider := provider |}.

Definition live (w : t) (c : S3Credentials) : bool := String.eqb (access_key_id c) (live_key w).

Definition sized (x : string) : string := fmt_nat (String.length x).

(** A request: refused with a stale key, otherwise answered and applied. *)
Definition serve {A} (b : string) (r : gmap string string -> Result A string)
  (upd : gmap string string -> gmap string string) (c : S3Credentials) : Act t SdkError.t A :=
  fun w =>
    if live w c then
      (res_map_err (fun code => SdkError.ServiceError (Some code) EmptyString) (r (bucket_of w b)),
       {| store := <[b := upd (bucket_of w b)]> (store w); live_key := live_key w |})
    else (Err (SdkError.ServiceError (Some "ExpiredToken") EmptyString), w).

#[global] Instance model : S3Model t := {|
  objects := bucket_of; s3_tag := sized; accepts := live; page_size _ _ _ := 2;
  token_of n := concat_strings (repeat "." n); token_pos := String.length
|}.

#[global] Instance service : S3Service t := {|
  svc_get c b k := serve b (fun m => match m !! k with Some x => Ok (Ok x) | None => Err "NoSuchKey" end) id c;
  svc_put c b k _ x cond := serve b (fun m => put_if_answer sized cond (m !! k) x)
    (fun m => if is_Ok (put_if_answer sized cond (m !! k) x) then <[k := x]> m else m) c;
  svc_delete c b k := serve b (fun _ => Ok tt) (delete k) c;
  svc_head c b k := serve b (fun m => match m !! k with Some x => Ok (Some (sized x)) | None => Err "NotFound" end) id c;
  svc_list c b p tok := serve b (fun m => Ok (page_of m p tok)) id c;
  svc_credentials p w := (Ok (creds (live_key w) (Some p)), w)
|}.

Lemma serve_served {A} b (r : gmap string string -> Result A string) upd :
  served b (fun c => serve b r upd c) r upd.
Proof.
  intros c w. unfold serve. change (accepts w c) with (live w c). destruct (live w c); [|done].
  cbn. split; [by destruct (r (bucket_of w b))|]. unfold bucket_of at 1. cbn. by rewrite lookup_insert_eq.
Qed.

Lemma dots_length n : String.length (concat_strings (repeat "." n)) = n.
Proof. induction n as [|n IH]; [done|]. cbn [repeat]. change (S (String.length (concat_strings (repeat "." n))) = S n). by rewrite IH. Qed.

#[global] Instance laws : S3Laws t.
Proof.
  split; try (intros; apply serve_served).
  - intros. cbn. lia.
  - apply dots_length.
  - intros p w. eexists _, w. split; [reflexivity|]. split; [apply String.eqb_refl|done].
Qed.
End Bucket.

Section runs.
Let coding : Serde := {| to_vec _ := Ok "null"; from_slice _ := Ok VNull |}.
Existing Instance coding.

(** A client whose key went stale, with a provider of fresh ones. *)
Definition stale : S3StorageAdapter Bucket.t :=
  from_resolved_credentials "runtime" (Bucket.creds "old" (Some 7%Z)) {| Bucket.store := ∅; Bucket.live_key := "new" |}.

Lemma s3_implements_the_store_witness :
  (s3_put_bytes "a" "1" "text/plain" stale).1 = Ok tt /\
  exists s', s3_list_prefix 2 "a" (s3_put_bytes "a" "1" "text/plain" stale).2 = (Some (Ok ["a"]), s').
Proof.
  destruct (s3_implements_the_store (W := Bucket.t)) as (_ & Hput & _ & _ & _ & _ & _ & _ & Hlist).
  assert (valid stale) as Hs by (left; by eexists).
  destruct (Hput "a" "1" "text/plain" stale Hs) as (H1 & _ & H3). split; [exact H1|].
  destruct (Hlist "a" 2 _ H3) as (s' & E & _); [vm_compute; lia|].
  exists s'. rewrite E. by f_equal.
Defined.

(** An object that was deleted is no conflict to this adaptor: a writer that
    still holds its tag gets an error, where the in-memory and the file
    adaptor report a conflict, from which the thread store recovers. *)
Theorem a_deleted_object_is_an_error :
  (s3_put_json_if_etag_matches "t.json" VNull (Some "4") stale).1 = Err (not_found "t.json") /\
  (Spec.put_json_if_etag_matches Bucket.sized "t.json" VNull (Some "4") ∅).1 =
    Ok (ConditionalWriteStatus.Conflict None).
Proof. split; vm_compute; reflexivity. Qed.
End runs.
