(* ===== verification/LlmTypes.v ===== *)
(** * Types of the model providers

    [src/src/runtime/src/llm/types.rs]: requests and responses, the
    classification of provider errors, the HTTP calls and the extraction of
    the text of a response.  The HTTP agent is the class [HttpAgent]; the
    JSON parser is [Serde]'s. *)

From stdpp Require Import base list strings.
From Stdlib Require Import ZArith Lia.
From S2P Require Import Prelude.
From S2P Require Import RustStr.
From S2P Require Import Json.
From S2P Require Import Errors.
From S2P Require Import Storage.
From S2P Require Import Text.
From S2P Require Import Transcript.
From S2P Require Import Llm.

(** ** Requests and responses *)

Module Wire.
Record ChatMessage : Type := { role : string; content : string }.
End Wire.

Module ChatResponseFormat.
Inductive t : Type :=
| Text
| JsonObject
| JsonSchema (name : string) (schema : Value) (strict : bool).
End ChatResponseFormat.

Inductive LlmExecutionMode : Type := Sync | BackgroundPreferred.

#[global] Instance LlmExecutionMode_eq_dec : EqDecision LlmExecutionMode.
Proof. solve_decision. Defined.

(** Temperatures and probabilities are opaque codes of floats. *)
Record ChatRequest : Type := {
  req_model : string;
  req_messages : list Wire.ChatMessage;
  req_max_output_tokens : option Z;
  req_temperature : option Z;
  req_top_p : option Z;
  req_response_format : option ChatResponseFormat.t;
  req_reasoning_effort : option string;
  req_prompt_id : option string;
  req_thread_id : option string;
  req_execution_mode : option LlmExecutionMode
}.

Record ChatResponse : Type := { resp_text : string; resp_raw : option Value }.

Record EmbedRequest : Type := { emb_model : string; emb_inputs : list string }.
Record EmbedResponse : Type := { emb_vectors : list (list Z); emb_dim : nat }.

Record Capabilities : Type := {
  supports_responses_api : bool;
  supports_stream : bool;
  context_window : Z;
  embed_input_tokens : Z
}.

Record ProviderHttpRequest : Type := {
  http_method : string;
  http_url : string;
  http_headers : list (string * string);
  http_body : Value
}.

Record ProviderHttpResponse : Type := { status : Z; body_text : string; structured : bool }.

(** What the OpenAI endpoints answer; the derived readers are parameters. *)
Record OaiChatMessage : Type := { oai_role : string; oai_content : string }.
Record OaiChatRespChoice : Type := { choice_message : option OaiChatMessage; choice_delta : option (option string) }.
Record OaiChatResp : Type := { choices : list OaiChatRespChoice }.
Record OaiEmbResp : Type := { data : list (list Z) }.

Class OaiReaders := {
  read_chat_resp : string -> Result OaiChatResp string;
  read_emb_resp : string -> Result OaiEmbResp string
}.

(** The JSON number of an [f32], from its code. *)
Class F32Json := f32_value : Z -> Value.

Record OaiChatReq : Type := {
  ocr_model : string;
  ocr_messages : list OaiChatMessage;
  ocr_stream : option bool;
  ocr_max_tokens : option Z;
  ocr_temperature : option Z;
  ocr_top_p : option Z;
  ocr_response_format : option Value
}.

Definition chat_req_value `{!F32Json} (r : OaiChatReq) : Value :=
  json_obj ([("model", VString (ocr_model r));
             ("messages", VArray (map (fun m => json_obj [("role", VString (oai_role m));
                                                           ("content", VString (oai_content m))])
                                      (ocr_messages r)))]
    ++ opt_field "stream" VBool (ocr_stream r) ++ opt_field "max_tokens" num (ocr_max_tokens r)
    ++ opt_field "temperature" f32_value (ocr_temperature r) ++ opt_field "top_p" f32_value (ocr_top_p r)
    ++ opt_field "response_format" id (ocr_response_format r)).

(** [to_value] of an [OaiEmbReq]. *)
Definition emb_req_value (model : string) (input : list string) : Value :=
  json_obj [("model", VString model); ("input", VArray (map VString input))].

Definition emb_resp_of (r : OaiEmbResp) : EmbedResponse :=
  {| emb_vectors := data r; emb_dim := match data r with v :: _ => length v | [] => 0 end |}.

(** ** Text *)

(** A text that is not blank. *)
Definition nonblank (o : option string) : option string :=
  match o with Some s => if is_blank s then None else Some s | None => None end.

Definition text_from_part (p : Value) : option string :=
  match nonblank (get p "text" ≫= as_str) with
  | Some s => Some s
  | None =>
      match nonblank (get p "text" ≫= fun x => get x "value" ≫= as_str) with
      | Some s => Some s
      | None => nonblank (get p "refusal" ≫= as_str)
      end
  end.

Definition responses_content_part_type (r : ChatRole.t) : string :=
  match r with
  | ChatRole.Assistant => "output_text"
  | ChatRole.System | ChatRole.User => "input_text"
  end.

Definition responses_content_part_type_for_role (role : string) : Result string LlmError.t :=
  let? parsed := res_map_err LlmError.Protocol (ChatRole_try_from role) in
  Ok (responses_content_part_type parsed).

(** ** Errors *)

Definition str_field (v : Value) (k : string) : string := default EmptyString (get v k ≫= as_str).

Definition classify_oai_error (error_obj : Value) : option LlmError.t :=
  match get error_obj "message" ≫= as_str with
  | None => None
  | Some msg =>
      if is_blank msg then None
      else
        let code := str_field error_obj "code" in
        let etype := str_field error_obj "type" in
        if String.eqb code "insufficient_quota" || String.eqb code "billing_hard_limit_reached"
           || String.eqb code "account_deactivated" || String.eqb etype "insufficient_quota"
           || String.eqb code "invalid_api_key"
           || (String.eqb etype "invalid_request_error" && String.eqb code "invalid_api_key")
        then Some (LlmError.Fatal msg)
        else if String.eqb code "rate_limit_exceeded" || String.eqb etype "rate_limit_error"
                || String.eqb etype "server_error" || String.eqb code "server_error"
        then Some (LlmError.Transient msg)
        else None
  end.

Definition is_2xx (status : Z) : bool := ((200 <=? status) && (status <? 300))%Z.

Section parser.
Context `{!Serde}.

(** [serde_json::from_str::<Value>(text).ok()] *)
Definition parse_json (text : string) : option Value := res_ok (from_slice text).

Definition http_text (status : Z) (body : string) : string :=
  "http " +:+ fmt_Z status +:+ ": " +:+ truncate_chars_ellipsis body 500.

Definition llm_error_from_http (status : Z) (body : string) : LlmError.t :=
  match parse_json body ≫= fun v => get v "error" ≫= classify_oai_error with
  | Some err => err
  | None =>
      let snippet := http_text status body in
      if existsb (Z.eqb status) [401; 402; 403]%Z then LlmError.Fatal snippet
      else if existsb (Z.eqb status) [429; 502; 503; 504; 529]%Z then LlmError.Transient snippet
      else if ((500 <=? status) && (status <? 600))%Z then LlmError.Transient snippet
      else LlmError.Protocol snippet
  end.

(** The texts of an output item: its own, its refusal, its content parts. *)
Definition item_chunks (item : Value) : list string :=
  option_list (nonblank (get item "text" ≫= as_str))
  ++ option_list (nonblank (get item "refusal" ≫= as_str))
  ++ match get item "content" ≫= as_array with
     | Some content => omap text_from_part content
     | None => []
     end.

Definition extract_response_text (v : Value) (structured : bool) (http_status : Z) (body_text : string)
  : Result (option string) LlmError.t :=
  match get v "error" with
  | None | Some VNull =>
      match nonblank (get v "output_text" ≫= as_str) with
      | Some s => Ok (Some s)
      | None =>
          let chunks := match get v "output" ≫= as_array with
                        | Some out => concat (map item_chunks out)
                        | None => []
                        end in
          let joined := concat_strings chunks in
          Ok (if is_blank joined then None else Some joined)
      end
  | Some error_obj =>
      Err (match classify_oai_error error_obj with
           | Some e => e
           | None => llm_error_from_http http_status body_text
           end)
  end.
End parser.

(** ** HTTP *)

(** How a call of the agent ends: an answer, an answer with an error status
    (each with its body, when that can be read), or no answer. *)
Inductive UreqOutcome : Type :=
| Answer (status : Z) (body : option string)
| StatusError (status : Z) (body : option string)
| Transport (timed_out : bool) (text : string).

Class HttpAgent (W : Type) :=
  http_call : string -> string -> list (string * string) -> option Value -> W -> UreqOutcome * W.

(** [llm_error_from_ureq] of a transport error; error statuses are handled
    before it. *)
Definition llm_error_from_ureq (url : string) (timed_out : bool) (text : string) : LlmError.t :=
  if timed_out then LlmError.Timeout 30
  else LlmError.Transient ("LLM request failed: " +:+ url +:+ ": " +:+ text).

Section http.
Context {W : Type} `{!HttpAgent W}.

Definition auth_header (bearer : option string) : list (string * string) :=
  match bearer with Some k => [("Authorization", "Bearer " +:+ k)] | None => [] end.

Definition outcome (url : string) (o : UreqOutcome) : Result (Z * string) LlmError.t :=
  match o with
  | Answer s body | StatusError s body => Ok (s, default EmptyString body)
  | Transport timed_out text => Err (llm_error_from_ureq url timed_out text)
  end.

Definition ureq_send_json (method url : string) (extra_headers : list (string * string))
  (bearer : option string) (payload : Value) : Act W LlmError.t (Z * string) :=
  fun w =>
    let headers := ("Content-Type", "application/json") :: auth_header bearer ++ extra_headers in
    let '(o, w) := http_call method url headers (Some payload) w in (outcome url o, w).

Definition ureq_get (url : string) (extra_headers : list (string * string)) (bearer : option string)
  : Act W LlmError.t (Z * string) :=
  fun w =>
    let '(o, w) := http_call "GET" url (auth_header bearer ++ extra_headers) None w in (outcome url o, w).
End http.

(** ** What the classification decides *)

Section classification.
Context `{!Serde}.

(** What the provider says of the error: the message, unless it is blank, the
    code and the type. *)
Definition said (body : string) : option (string * string * string) :=
  v ← parse_json body;
  o ← get v "error";
  msg ← get o "message" ≫= as_str;
  if is_blank msg then None
  else Some (msg, default EmptyString (get o "code" ≫= as_str), default EmptyString (get o "type" ≫= as_str)).

(** Errors no retry will mend: quota, billing, the account and its key. *)
Definition permanent (code etype : string) : Prop :=
  code ∈ ["insufficient_quota"; "billing_hard_limit_reached"; "account_deactivated"; "invalid_api_key"] \/
  etype = "insufficient_quota".

(** Errors that pass: rate limits and the provider's own. *)
Definition passing (code etype : string) : Prop :=
  code ∈ ["rate_limit_exceeded"; "server_error"] \/ etype ∈ ["rate_limit_error"; "server_error"].

Lemma classify_said body :
  (parse_json body ≫= fun v => get v "error" ≫= classify_oai_error) =
  match said body with
  | Some (msg, code, etype) =>
      if String.eqb code "insufficient_quota" || String.eqb code "billing_hard_limit_reached"
         || String.eqb code "account_deactivated" || String.eqb etype "insufficient_quota"
         || String.eqb code "invalid_api_key"
         || (String.eqb etype "invalid_request_error" && String.eqb code "invalid_api_key")
      then Some (LlmError.Fatal msg)
      else if String.eqb code "rate_limit_exceeded" || String.eqb etype "rate_limit_error"
              || String.eqb etype "server_error" || String.eqb code "server_error"
      then Some (LlmError.Transient msg)
      else None
  | None => None
  end.
Proof using Type.
  unfold said, classify_oai_error, str_field. destruct (parse_json body) as [v|]; [cbn|done].
  destruct (get v "error") as [o|]; [cbn|done]. destruct (get o "message" ≫= as_str) as [msg|]; [cbn|done].
  by destruct (is_blank msg).
Qed.

Lemma permanent_spec code etype :
  String.eqb code "insufficient_quota" || String.eqb code "billing_hard_limit_reached"
  || String.eqb code "account_deactivated" || String.eqb etype "insufficient_quota"
  || String.eqb code "invalid_api_key"
  || (String.eqb etype "invalid_request_error" && String.eqb code "invalid_api_key") = true <-> permanent code etype.
Proof using Type.
  unfold permanent. rewrite !elem_of_cons, elem_of_nil, !orb_true_iff, andb_true_iff, !String.eqb_eq. tauto.
Qed.

Lemma passing_spec code etype :
  String.eqb code "rate_limit_exceeded" || String.eqb etype "rate_limit_error"
  || String.eqb etype "server_error" || String.eqb code "server_error" = true <-> passing code etype.
Proof using Type.
  unfold passing. rewrite !elem_of_cons, !elem_of_nil, !orb_true_iff, !String.eqb_eq. tauto.
Qed.

Lemma fatal_status status : existsb (Z.eqb status) [401; 402; 403]%Z = true <-> (401 <= status <= 403)%Z.
Proof using Type. cbn [existsb]. rewrite !orb_true_iff, !Z.eqb_eq. lia. Qed.

Lemma transient_status status :
  existsb (Z.eqb status) [429; 502; 503; 504; 529]%Z || ((500 <=? status) && (status <? 600))%Z = true <->
  (status = 429 \/ 500 <= status < 600)%Z.
Proof using Type. cbn [existsb]. rewrite !orb_true_iff, andb_true_iff, !Z.eqb_eq, Z.leb_le, Z.ltb_lt. lia. Qed.

(** The first 500 characters of a body, and a mark where there are more. *)
Lemma snippet_spec body :
  truncate_chars_ellipsis body 500 =
  if decide (char_count body <= 500) then body else concat_strings (take 500 (chars body)) +:+ "...".
Proof using Type.
  unfold truncate_chars_ellipsis. rewrite truncate_chars_take. unfold char_count.
  destruct (Nat.ltb_spec 500 (length (chars body))); case_decide; try lia; [done|].
  rewrite take_ge by lia. apply concat_chars.
Qed.

(** C34: A failed call is classified by what the provider says of it: an error
    of quota, billing, account or key is fatal, a rate limit or an error of the
    server is transient, with the provider's message.  Only when it says
    nothing of that kind, or not in JSON, or without a message, the status
    decides: 401 to 403 are fatal, 429 and 5xx transient, anything else is a
    protocol error, and the text tells the status and the first 500 characters
    of the body. *)
Theorem provider_errors_are_classified status body :
  let e := llm_error_from_http status body in
  (forall msg code etype, said body = Some (msg, code, etype) ->
     (permanent code etype -> e = LlmError.Fatal msg) /\
     (~ permanent code etype -> passing code etype -> e = LlmError.Transient msg)) /\
  ((forall msg code etype, said body = Some (msg, code, etype) -> ~ permanent code etype /\ ~ passing code etype) ->
   let text := "http " +:+ fmt_Z status +:+ ": " +:+
     (if decide (char_count body <= 500) then body else concat_strings (take 500 (chars body)) +:+ "...") in
   ((401 <= status <= 403)%Z -> e = LlmError.Fatal text) /\
   ((status = 429 \/ 500 <= status < 600)%Z -> e = LlmError.Transient text) /\
   (~ (401 <= status <= 403 \/ status = 429 \/ 500 <= status < 600)%Z -> e = LlmError.Protocol text)).
Proof using Type.
  intros e. unfold e, llm_error_from_http. rewrite classify_said. split.
  - intros msg code etype ->. rewrite <- permanent_spec, <- passing_spec. split; [by intros ->|].
    intros Hp%not_true_iff_false Hq. by rewrite Hp, Hq.
  - intros Hn. unfold http_text. rewrite snippet_spec. set (text := "http " +:+ _).
    assert (match said body with Some (msg, code, etype) => ~ permanent code etype /\ ~ passing code etype | None => True end) as Hs
      by (destruct (said body) as [[[msg code] etype]|]; [by eapply Hn|done]).
    destruct (said body) as [[[msg code] etype]|].
    1: rewrite <- permanent_spec, <- passing_spec in Hs; destruct Hs as [H1 H2];
       apply not_true_iff_false in H1, H2; rewrite H1, H2.
    all: clearbody text; pose proof (fatal_status status) as Ef; pose proof (transient_status status) as Et;
      destruct (existsb (Z.eqb status) [401; 402; 403]%Z);
      [|destruct (existsb (Z.eqb status) [429; 502; 503; 504; 529]%Z), ((500 <=? status) && (status <? 600))%Z;
        cbn [orb] in Et];
      split_and!; intros; (done || lia).
Qed.
End classification.

(** ** What the extraction keeps *)

Section extraction.
Context `{!Serde}.

Definition chunks_of (v : Value) : list string :=
  match get v "output" ≫= as_array with
  | Some out => concat (map item_chunks out)
  | None => []
  end.

Lemma nonblank_Some o s : nonblank o = Some s <-> o = Some s /\ is_blank s = false.
Proof using Type. destruct o as [x|]; cbn; [|naive_solver]. destruct (is_blank x) eqn:E; naive_solver congruence. Qed.

Lemma chunks_nonblank v : Forall (fun s => is_blank s = false) (chunks_of v).
Proof using Type.
  unfold chunks_of. destruct (get v "output" ≫= as_array) as [out|]; [|apply Forall_nil_2].
  apply Forall_concat, Forall_map, Forall_forall. intros item _. unfold item_chunks.
  assert (forall o : option string, Forall (fun s => is_blank s = false) (option_list (nonblank o))) as Ho.
  { intros o. destruct (nonblank o) as [s|] eqn:E; [|apply Forall_nil_2].
    apply nonblank_Some in E as [_ E]. by apply Forall_cons_2, Forall_nil_2. }
  apply Forall_app. split; [apply Ho|]. apply Forall_app. split; [apply Ho|].
  destruct (get item "content" ≫= as_array) as [content|]; [|apply Forall_nil_2].
  apply Forall_forall. intros s (p & _ & Hp)%list_elem_of_omap. unfold text_from_part in Hp.
  repeat case_match; simplify_eq; by match goal with E : nonblank _ = Some _ |- _ => apply nonblank_Some in E as [_ ?] end.
Qed.

Lemma joined_blank l :
  Forall (fun s => head_ok s = true) l -> Forall (fun s => is_blank s = false) l ->
  is_blank (concat_strings l) = true <-> l = [].
Proof using Type.
  intros Hu Hb. destruct l as [|s l]; [done|]. apply Forall_cons in Hu as [Hs Hu].
  apply Forall_cons in Hb as [Hn _]. cbn [concat_strings fold_right]. split; [|done].
  assert (head_ok (concat_strings l) = true) as Hl.
  { clear -Hu. induction Hu; [done|]. by apply head_ok_app. }
  intros Hx. unfold concat_strings in Hl. rewrite is_blank_app, Hn in Hx by done. done.
Qed.

(** A response without an error yields its text and nothing else: the
    [output_text] when it has one, otherwise every text and refusal of the
    output items and of their parts, in order and joined; "no text" is
    answered only when there is none. *)
Theorem no_text_is_lost v structured status body :
  (get v "error" = None \/ get v "error" = Some VNull) ->
  Forall (fun s => head_ok s = true) (chunks_of v) ->
  extract_response_text v structured status body =
    Ok (match nonblank (get v "output_text" ≫= as_str), chunks_of v with
        | Some s, _ => Some s
        | None, [] => None
        | None, chunks => Some (concat_strings chunks)
        end).
Proof using Type.
  intros He Hu. unfold extract_response_text. fold (chunks_of v).
  pose proof (joined_blank _ Hu (chunks_nonblank v)) as Hj.
  assert (match nonblank (get v "output_text" ≫= as_str) with
          | Some s => Ok (Some s)
          | None => Ok (if is_blank (concat_strings (chunks_of v)) then None else Some (concat_strings (chunks_of v)))
          end =
    (Ok (match nonblank (get v "output_text" ≫= as_str), chunks_of v with
        | Some s, _ => Some s
        | None, [] => None
        | None, chunks => Some (concat_strings chunks)
        end) : Result (option string) LlmError.t)) as E.
  { destruct (nonblank _) as [s|]; [by destruct (chunks_of v)|]. f_equal.
    destruct (chunks_of v) as [|c l]; [done|]. destruct (is_blank (concat_strings (c :: l))) eqn:Eb; [|done].
    by pose proof (proj1 Hj eq_refl). }
  by destruct He as [-> | ->].
Qed.
End extraction.

Section runs.
Let coding : Serde := {| to_vec _ := Ok "null"; from_slice _ := Err "no" |}.
Existing Instance coding.

(** A message in two parts. *)
Definition two_parts : Value :=
  VObject [("error", VNull); ("output", VArray [VObject [("content", VArray
    [VObject [("text", VString "{")]; VObject [("text", VString "}")]])]])].

Lemma no_text_is_lost_witness : extract_response_text two_parts true 200 EmptyString = Ok (Some "{}").
Proof.
  rewrite (no_text_is_lost two_parts true 200 EmptyString); [reflexivity|right; reflexivity|].
  repeat (apply Forall_cons_2; [reflexivity|]). apply Forall_nil_2.
Defined.
End runs.
