(* ===== verification/Providers.v ===== *)
(** * Provider adapters

    The trait [Adapter] of [src/src/runtime/src/llm/adapter.rs] as a record,
    its three implementations ([openai_chat_adapter.rs],
    [openai_responses_adapter.rs], [llama_cpp_adapter.rs]), the local model
    stub of [llama_cpp.rs] and the choice of an adapter in [registry.rs]. *)

From stdpp Require Import base list strings.
From Stdlib Require Import ZArith Lia.
From S2P Require Import Prelude.
From S2P Require Import RustStr.
From S2P Require Import Json.
From S2P Require Import Errors.
From S2P Require Import Storage.
From S2P Require Import Text.
From S2P Require Import Transcript.
From S2P Require Import Llm.
From S2P Require Import Config.
From S2P Require Import LlmTypes.

Record Adapter : Type := {
  capabilities : string -> Capabilities;
  build_chat_http : ChatRequest -> Result ProviderHttpRequest LlmError.t;
  parse_chat_http : ProviderHttpResponse -> Result ChatResponse LlmError.t;
  build_embed_http : EmbedRequest -> Result ProviderHttpRequest LlmError.t;
  parse_embed_http : ProviderHttpResponse -> Result EmbedResponse LlmError.t
}.

Definition post (url : string) (body : Value) : ProviderHttpRequest :=
  {| http_method := "POST"; http_url := url; http_headers := []; http_body := body |}.

Section adapters.
Context `{HSd : !Serde, HR : !OaiReaders, HF : !F32Json}.

(** Both OpenAI adapters embed alike. *)
Definition openai_build_embed (req : EmbedRequest) : Result ProviderHttpRequest LlmError.t :=
  Ok (post "/v1/embeddings" (emb_req_value (emb_model req) (emb_inputs req))).

Definition openai_parse_embed (resp : ProviderHttpResponse) : Result EmbedResponse LlmError.t :=
  let? obj := res_map_err LlmError.Protocol (read_emb_resp (body_text resp)) in
  Ok (emb_resp_of obj).

(** ** Chat completions *)

Definition chat_response_format (f : option ChatResponseFormat.t) : option Value :=
  match f with
  | None | Some ChatResponseFormat.Text => None
  | Some ChatResponseFormat.JsonObject => Some (json_obj [("type", VString "json_object")])
  | Some (ChatResponseFormat.JsonSchema name schema strict) =>
      Some (json_obj [("type", VString "json_schema");
                      ("json_schema", json_obj [("name", VString name); ("schema", schema); ("strict", VBool strict)])])
  end.

Definition oai_message (m : Wire.ChatMessage) : OaiChatMessage :=
  {| oai_role := Wire.role m; oai_content := Wire.content m |}.

Definition chat_build (req : ChatRequest) : Result ProviderHttpRequest LlmError.t :=
  let? _ := require_nonempty_messages (req_messages req) in
  let body := {| ocr_model := req_model req; ocr_messages := map oai_message (req_messages req);
                 ocr_stream := Some false; ocr_max_tokens := req_max_output_tokens req;
                 ocr_temperature := req_temperature req; ocr_top_p := req_top_p req;
                 ocr_response_format := chat_response_format (req_response_format req) |} in
  Ok (post "/v1/chat/completions" (chat_req_value body)).

(** The text of one choice: its message, then its delta. *)
Definition choice_text (c : OaiChatRespChoice) : string :=
  (match choice_message c with Some m => oai_content m | None => EmptyString end)
  +:+ (match choice_delta c with Some (Some s) => s | _ => EmptyString end).

Definition chat_text (obj : OaiChatResp) : string :=
  fold_left (fun out c => out +:+ choice_text c) (choices obj) EmptyString.

Definition chat_parse (resp : ProviderHttpResponse) : Result ChatResponse LlmError.t :=
  let? obj := res_map_err LlmError.Protocol (read_chat_resp (body_text resp)) in
  Ok {| resp_text := chat_text obj; resp_raw := parse_json (body_text resp) |}.

Definition OpenAIChatAdapter : Adapter := {|
  capabilities _ := {| supports_responses_api := false; supports_stream := false;
                       context_window := 128000; embed_input_tokens := 8000 |};
  build_chat_http := chat_build;
  parse_chat_http := chat_parse;
  build_embed_http := openai_build_embed;
  parse_embed_http := openai_parse_embed
|}.

(** ** Responses *)

Definition responses_supports_sampling_controls (model : string) : bool :=
  match openai_api_for_model model with ChatCompletions => true | Responses => false end.

Definition resp_part (kind text : string) : Value := json_obj [("type", VString kind); ("text", VString text)].
Definition resp_msg (role : string) (parts : list Value) : Value :=
  json_obj [("role", VString role); ("content", VArray parts)].

(** The [for m in req.messages] loop. *)
Fixpoint resp_messages (ms : list Wire.ChatMessage) : Result (list Value) LlmError.t :=
  match ms with
  | [] => Ok []
  | m :: ms =>
      let? kind := responses_content_part_type_for_role (Wire.role m) in
      let? rest := resp_messages ms in
      Ok (resp_msg (Wire.role m) [resp_part kind (Wire.content m)] :: rest)
  end.

Definition resp_text_format (f : option ChatResponseFormat.t) : Value :=
  match f with
  | None | Some ChatResponseFormat.Text => json_obj [("type", VString "text")]
  | Some ChatResponseFormat.JsonObject => json_obj [("type", VString "json_object")]
  | Some (ChatResponseFormat.JsonSchema name schema strict) =>
      json_obj [("type", VString "json_schema"); ("name", VString name); ("schema", schema); ("strict", VBool strict)]
  end.

Definition background_flag (req : ChatRequest) : option bool :=
  match req_execution_mode req with Some BackgroundPreferred => Some true | _ => None end.

Definition resp_body (req : ChatRequest) (input : list Value) : Value :=
  let sampling := responses_supports_sampling_controls (req_model req) in
  json_obj ([("model", VString (req_model req)); ("input", VArray input);
             ("text", json_obj [("format", resp_text_format (req_response_format req))])]
    ++ opt_field "max_output_tokens" (fun v => num (as_i32 v)) (req_max_output_tokens req)
    ++ opt_field "temperature" f32_value (if sampling then req_temperature req else None)
    ++ opt_field "top_p" f32_value (if sampling then req_top_p req else None)
    ++ opt_field "reasoning" (fun s => json_obj [("effort", VString s)]) (req_reasoning_effort req)
    ++ opt_field "background" VBool (background_flag req)
    ++ opt_field "store" VBool (background_flag req)).

Definition responses_build (req : ChatRequest) : Result ProviderHttpRequest LlmError.t :=
  let? _ := require_nonempty_messages (req_messages req) in
  let? msgs := resp_messages (req_messages req) in
  Ok (post "/v1/responses" (resp_body req msgs)).

Definition empty_response (body : string) : LlmError.t :=
  LlmError.Protocol ("empty response: " +:+ truncate_chars_ellipsis body 1200).

Definition responses_parse (resp : ProviderHttpResponse) : Result ChatResponse LlmError.t :=
  let? v := res_map_err LlmError.Protocol (from_slice (body_text resp)) in
  let? text := extract_response_text v (structured resp) (status resp) (body_text resp) in
  match text with
  | Some t => Ok {| resp_text := t; resp_raw := Some v |}
  | None => Err (empty_response (body_text resp))
  end.

Definition OpenAIResponsesAdapter : Adapter := {|
  capabilities _ := {| supports_responses_api := true; supports_stream := false;
                       context_window := 128000; embed_input_tokens := 8000 |};
  build_chat_http := responses_build;
  parse_chat_http := responses_parse;
  build_embed_http := openai_build_embed;
  parse_embed_http := openai_parse_embed
|}.

(** ** The local model *)

Definition local_request (url : string) : ProviderHttpRequest :=
  {| http_method := "LOCAL"; http_url := url; http_headers := []; http_body := VObject [] |}.

Definition not_http {A} : Result A LlmError.t := Err (LlmError.Protocol "local-llama: not an HTTP provider").

Definition LlamaCppAdapter (s : Settings) : Adapter := {|
  capabilities _ := {| supports_responses_api := false; supports_stream := false;
                       context_window := Rs.llm_context_length s; embed_input_tokens := 2048 |};
  build_chat_http req :=
    let? _ := require_nonempty_messages (req_messages req) in Ok (local_request "local://chat");
  parse_chat_http _ := not_http;
  build_embed_http _ := Ok (local_request "local://embed");
  parse_embed_http _ := not_http
|}.

(** [LlamaCppModel::chat] and [embed]: the native backend is not there. *)
Definition local_chat (messages : list ChatMessage) : string :=
  "[local-llm-disabled]" +:+ nl +:+
  concat_strings (map (fun m => ChatRole.display (role m) +:+ ": " +:+ content m +:+ nl) messages).

(** The zero vectors, as codes of floats. *)
Definition local_embed (zero : Z) (texts : list string) : list (list Z) := map (fun _ => repeat zero 768) texts.

(** ** The registry *)

Definition pick_openai_adapter_for_model (model : string) : Adapter :=
  match openai_api_for_model model with
  | Responses => OpenAIResponsesAdapter
  | ChatCompletions => OpenAIChatAdapter
  end.

Inductive ProviderKind : Type := OpenAIGeneric | LlamaCppKind.

Definition provider_kind (p : LlmProvider.t) : ProviderKind :=
  match p with
  | LlmProvider.Openai | LlmProvider.OpenaiCompat | LlmProvider.Http => OpenAIGeneric
  | LlmProvider.LlamaCpp | LlmProvider.Null => LlamaCppKind
  end.

Definition provider_from_config (s : Settings) : ProviderKind :=
  provider_kind (default LlmProvider.Null (Rs.llm_provider s)).

Definition pick_adapter_from_config (s : Settings) : Adapter :=
  match provider_from_config s with
  | LlamaCppKind => LlamaCppAdapter s
  | OpenAIGeneric => OpenAIChatAdapter
  end.
End adapters.
