(* ===== verification/Limiter.v ===== *)
(** * The limiter of concurrent model calls

    [InflightLimiter] of [src/src/runtime/src/llm/router.rs]: a counter behind
    a mutex with a condition variable.  The critical sections are functions;
    the tasks that run them, sleep and are woken, spuriously too, are a step
    relation. *)

From stdpp Require Import base list relations.
From Stdlib Require Import ZArith Lia.
From S2P Require Import Prelude.

Record InflightLimiter : Type := { max_inflight : nat; slots : nat }.

Definition new (configured : nat) : InflightLimiter := {| max_inflight := Nat.max configured 1; slots := 0 |}.

(** One turn of the [while] loop of [acquire] under the lock: a slot is
    taken, or ([None]) the task goes to sleep. *)
Definition try_acquire (l : InflightLimiter) : option InflightLimiter :=
  if Nat.leb (max_inflight l) (slots l) then None
  else Some {| max_inflight := max_inflight l; slots := slots l + 1 |}.

Definition release (l : InflightLimiter) : InflightLimiter :=
  {| max_inflight := max_inflight l; slots := if Nat.ltb 0 (slots l) then slots l - 1 else slots l |}.

(** Where a task is: not calling; waiting for the lock in [acquire]; asleep in
    [cv.wait]; woken up and waiting for the lock; holding its permit; waiting
    for the lock to release it. *)
Inductive task : Type := Out | Entering | Asleep | Woken | Holding | Leaving.

#[global] Instance task_eq_dec : EqDecision task.
Proof. solve_decision. Defined.

Record state : Type := { limiter : InflightLimiter; tasks : list task }.

Definition init (configured n : nat) : state := {| limiter := new configured; tasks := repeat Out n |}.

Definition move (i : nat) (k : task) (l : InflightLimiter) (s : state) : state :=
  {| limiter := l; tasks := <[i := k]> (tasks s) |}.

(** The steps of the limiter itself. *)
Inductive work : state -> state -> Prop :=
| work_acquire s i k l :
    tasks s !! i = Some k -> (k = Entering \/ k = Woken) -> try_acquire (limiter s) = Some l ->
    work s (move i Holding l s)
| work_sleep s i k :
    tasks s !! i = Some k -> (k = Entering \/ k = Woken) -> try_acquire (limiter s) = None ->
    work s (move i Asleep (limiter s) s)
| work_drop s i :
    tasks s !! i = Some Holding -> work s (move i Leaving (limiter s) s)
| work_release s i j :
    tasks s !! i = Some Leaving -> tasks s !! j = Some Asleep ->
    work s (move j Woken (release (limiter s)) (move i Out (release (limiter s)) s))
| work_release_none s i :
    tasks s !! i = Some Leaving -> Asleep ∉ tasks s ->
    work s (move i Out (release (limiter s)) s).

(** A call arrives, or a sleeping task wakes without being notified. *)
Inductive arrive : state -> state -> Prop :=
| arrive_call s i : tasks s !! i = Some Out -> arrive s (move i Entering (limiter s) s)
| arrive_spurious s i : tasks s !! i = Some Asleep -> arrive s (move i Woken (limiter s) s).

Definition step (s s' : state) : Prop := work s s' \/ arrive s s'.

(** ** Counting *)

Definition weigh (w : task -> nat) (s : state) : nat := sum_list_with w (tasks s).

#[global] Arguments weigh : simpl never.

Definition asleep (k : task) : nat := match k with Asleep => 1 | _ => 0 end.
Definition woken (k : task) : nat := match k with Woken => 1 | _ => 0 end.
Definition in_call (k : task) : nat := match k with Holding | Leaving => 1 | _ => 0 end.

Lemma sum_insert {A} (w : A -> nat) l i x y :
  l !! i = Some x -> sum_list_with w (<[i := y]> l) + w x = sum_list_with w l + w y.
Proof.
  revert i. induction l as [|z l IH]; intros [|i] Hi; simplify_eq/=; [lia|]. specialize (IH _ Hi). lia.
Qed.

Lemma sum_lookup_le {A} (w : A -> nat) l i x : l !! i = Some x -> w x <= sum_list_with w l.
Proof. revert i. induction l as [|z l IH]; intros [|i] Hi; simplify_eq/=; [lia|]. specialize (IH _ Hi). lia. Qed.

Lemma sum_zero {A} (w : A -> nat) l : sum_list_with w l = 0 -> Forall (fun x => w x = 0) l.
Proof. induction l as [|x l IH]; cbn; [done|]. intros. constructor; [lia|]. apply IH. lia. Qed.

(** The counter is the number of permits out, within the limit, and no free
    slot is slept through: sleeping tasks are as many wake-ups short of a slot. *)
Record wf (s : state) : Prop := {
  wf_max : 1 <= max_inflight (limiter s);
  wf_slots : slots (limiter s) = weigh in_call s;
  wf_bound : slots (limiter s) <= max_inflight (limiter s);
  wf_awake : 0 < weigh asleep s ->
    max_inflight (limiter s) - slots (limiter s) <= weigh woken s
}.

Lemma move_weigh w s i k k' l :
  tasks s !! i = Some k -> weigh w (move i k' l s) + w k = weigh w s + w k'.
Proof. apply sum_insert. Qed.

Lemma init_wf configured n : wf (init configured n).
Proof.
  assert (forall w, w Out = 0 -> weigh w (init configured n) = 0) as Hz.
  { intros w Hw. unfold weigh, init; cbn. induction n; cbn; [done|]. lia. }
  split; [cbn; lia|by rewrite Hz|cbn; lia|]. rewrite (Hz asleep) by done. lia.
Qed.

Ltac weigh_move s i k k' l Hi :=
  pose proof (move_weigh in_call s i k k' l Hi);
  pose proof (move_weigh asleep s i k k' l Hi);
  pose proof (move_weigh woken s i k k' l Hi).

Lemma try_acquire_Some l l' :
  try_acquire l = Some l' -> slots l < max_inflight l /\ max_inflight l' = max_inflight l /\ slots l' = S (slots l).
Proof. unfold try_acquire. destruct (Nat.leb_spec (max_inflight l) (slots l)); [done|]. intros [= <-]. cbn. lia. Qed.

Lemma try_acquire_None l : try_acquire l = None -> max_inflight l <= slots l.
Proof. unfold try_acquire. by destruct (Nat.leb_spec (max_inflight l) (slots l)). Qed.

Lemma release_slots l : 0 < slots l -> slots (release l) + 1 = slots l.
Proof. unfold release. cbn [slots]. destruct (Nat.ltb_spec 0 (slots l)); lia. Qed.

Lemma step_wf s s' : wf s -> step s s' -> wf s'.
Proof.
  intros [H1 H2 H3 H4] [Hw|Ha].
  - destruct Hw as [s i k l Hi Hk Ht|s i k Hi Hk Ht|s i Hi|s i j Hi Hj|s i Hi Hn].
    + apply try_acquire_Some in Ht as (Hlt & Em & Es). weigh_move s i k Holding l Hi.
      destruct Hk as [-> | ->]; cbn in *; split; cbn; lia.
    + apply try_acquire_None in Ht. weigh_move s i k Asleep (limiter s) Hi.
      destruct Hk as [-> | ->]; cbn in *; split; cbn; lia.
    + weigh_move s i Holding Leaving (limiter s) Hi. cbn in *; split; cbn; lia.
    + assert (i <> j) as Hne by congruence.
      assert (tasks (move i Out (release (limiter s)) s) !! j = Some Asleep) as Hj' by (cbn; by rewrite list_lookup_insert_ne).
      weigh_move s i Leaving Out (release (limiter s)) Hi.
      weigh_move (move i Out (release (limiter s)) s) j Asleep Woken (release (limiter s)) Hj'.
      pose proof (sum_lookup_le in_call _ _ _ Hi) as Hpos. cbn in Hpos. fold (weigh in_call s) in Hpos.
      pose proof (release_slots (limiter s) ltac:(lia)) as Hr.
      pose proof (sum_lookup_le asleep _ _ _ Hj) as Hjp. cbn in Hjp. fold (weigh asleep s) in Hjp.
      specialize (H4 ltac:(lia)). cbn in *. split; cbn in *; lia.
    + weigh_move s i Leaving Out (release (limiter s)) Hi.
      pose proof (sum_lookup_le in_call _ _ _ Hi) as Hpos. cbn in Hpos. fold (weigh in_call s) in Hpos.
      pose proof (release_slots (limiter s) ltac:(lia)) as Hr.
      assert (weigh asleep s = 0) as Hz.
      { unfold weigh. clear -Hn. induction (tasks s) as [|k l IH]; [done|]. apply not_elem_of_cons in Hn as [Hk Hn].
        cbn. rewrite IH by done. by destruct k. }
      cbn in *. split; cbn in *; lia.
  - destruct Ha as [s i Hi|s i Hi].
    + weigh_move s i Out Entering (limiter s) Hi. cbn in *. split; cbn; lia.
    + weigh_move s i Asleep Woken (limiter s) Hi. cbn in *. split; cbn; lia.
Qed.

Lemma reachable_wf configured n s : rtc step (init configured n) s -> wf s.
Proof.
  intros Hr. pose proof (init_wf configured n) as Hw. revert Hw. induction Hr; eauto using step_wf.
Qed.

(** ** Every call gets its turn *)

(** A task's way to the end, counting that a departure may wake another. *)
Definition rank (k : task) : nat :=
  match k with Out => 0 | Leaving => 2 | Holding => 3 | Asleep => 4 | Woken => 5 | Entering => 6 end.

Lemma work_rank s s' : work s s' -> weigh rank s' < weigh rank s.
Proof.
  intros [t i k l Hi Hk Ht|t i k Hi Hk Ht|t i Hi|t i j Hi Hj|t i Hi Hn].
  - pose proof (move_weigh rank t i k Holding l Hi). destruct Hk as [-> | ->]; cbn in *; lia.
  - pose proof (move_weigh rank t i k Asleep (limiter t) Hi). destruct Hk as [-> | ->]; cbn in *; lia.
  - pose proof (move_weigh rank t i Holding Leaving (limiter t) Hi). cbn in *; lia.
  - assert (i <> j) as Hne by congruence.
    assert (tasks (move i Out (release (limiter t)) t) !! j = Some Asleep) as Hj' by (cbn; by rewrite list_lookup_insert_ne).
    pose proof (move_weigh rank t i Leaving Out (release (limiter t)) Hi).
    pose proof (move_weigh rank (move i Out (release (limiter t)) t) j Asleep Woken (release (limiter t)) Hj'). cbn in *; lia.
  - pose proof (move_weigh rank t i Leaving Out (release (limiter t)) Hi). cbn in *; lia.
Qed.

Lemma work_sn s : sn work s.
Proof.
  remember (weigh rank s) as n eqn:Hn. revert s Hn. induction n as [n IH] using lt_wf_ind. intros s ->.
  constructor. intros s' Hs. eapply IH; [|done]. by apply work_rank.
Qed.

(** In a well-formed state nobody is stuck: where no step of the limiter is
    left, no call is left. *)
Lemma quiet_is_done s : wf s -> nf work s -> Forall (fun k => k = Out) (tasks s).
Proof.
  intros [H1 H2 H3 H4] Hnf.
  assert (forall i k, tasks s !! i = Some k -> k = Out \/ k = Asleep) as Hk.
  { intros i k Hi. destruct k; auto; exfalso; apply Hnf.
    - destruct (try_acquire (limiter s)) eqn:E; eexists; [eapply work_acquire|eapply work_sleep]; eauto.
    - destruct (try_acquire (limiter s)) eqn:E; eexists; [eapply work_acquire|eapply work_sleep]; eauto.
    - eexists. by eapply (work_drop _ i).
    - destruct (decide (Asleep ∈ tasks s)) as [[j Hj]%list_elem_of_lookup|Hn].
      + eexists. by eapply (work_release _ i j).
      + eexists. by eapply (work_release_none _ i). }
  assert (forall w, w Out = 0 -> w Asleep = 0 -> weigh w s = 0) as Hz.
  { intros w Ho Ha. unfold weigh. clear -Hk Ho Ha. induction (tasks s) as [|k l IH]; [done|]. cbn.
    rewrite IH by (intros i; apply (Hk (S i))). destruct (Hk 0 k eq_refl) as [-> | ->]; lia. }
  rewrite (Hz in_call), (Hz woken) in * by done.
  apply Forall_lookup. intros i k Hi. destruct (Hk _ _ Hi) as [| ->]; [done|]. exfalso.
  pose proof (sum_lookup_le asleep _ _ _ Hi) as Hp. cbn in Hp.
  specialize (H4 ltac:(unfold weigh; lia)). lia.
Qed.

(** C14: However many threads call the model at once, and whatever the scheduler
    and the condition variable do, the calls in flight never exceed the
    limit, and no call waits for ever: the limiter's own steps come to an
    end, and then every call has had its permit and given it back. *)
Theorem limiter_is_safe_and_live configured n s :
  rtc step (init configured n) s ->
  length (filter (fun k => k = Holding) (tasks s)) <= Nat.max configured 1 /\
  sn work s /\
  (forall s', rtc work s s' -> nf work s' -> Forall (fun k => k = Out) (tasks s')).
Proof.
  intros Hr. pose proof (reachable_wf _ _ _ Hr) as Hw. split; [|split; [apply work_sn|]].
  - assert (max_inflight (limiter s) = Nat.max configured 1) as <-.
    { clear Hw. remember (init configured n) as s0 eqn:E. assert (max_inflight (limiter s0) = Nat.max configured 1) as H0 by by subst.
      clear E. revert H0. induction Hr as [|s0 s1 s2 Hs _ IH]; [done|]. intros H0. apply IH. rewrite <- H0.
      destruct Hs as [[]|[]]; cbn; try done. by match goal with E : try_acquire _ = Some _ |- _ => apply try_acquire_Some in E as (_ & -> & _) end. }
    destruct Hw as [_ H2 H3 _]. etransitivity; [|exact H3]. rewrite H2. unfold weigh. clear.
    induction (tasks s) as [|k l IH]; [done|]. rewrite filter_cons. case_decide; subst; cbn; [lia|]. destruct k; cbn; lia.
  - intros s' Hs. apply quiet_is_done. clear Hr. induction Hs as [|s0 s1 s2 H0 _ IH]; [done|].
    apply IH. eapply step_wf; [done|by left].
Qed.

(** A run of two calls through one slot. *)
Lemma limiter_is_safe_and_live_witness :
  let s := {| limiter := {| max_inflight := 1; slots := 1 |}; tasks := [Holding; Asleep] |} in
  rtc step (init 0 2) s /\
  (forall s', rtc work s s' -> nf work s' -> Forall (fun k => k = Out) (tasks s')).
Proof.
  assert (rtc step (init 0 2) {| limiter := {| max_inflight := 1; slots := 1 |}; tasks := [Holding; Asleep] |}) as Hr.
  { eapply rtc_l; [right; by eapply (arrive_call _ 0)|].
    eapply rtc_l; [left; by eapply (work_acquire _ 0 Entering); [|left|]|].
    eapply rtc_l; [right; by eapply (arrive_call _ 1)|].
    eapply rtc_l; [left; by eapply (work_sleep _ 1 Entering); [|left|]|]. apply rtc_refl. }
  split; [exact Hr|]. apply (limiter_is_safe_and_live 0 2 _ Hr).
Defined.
