(* ===== verification/Router.v ===== *)
(** * The router of model calls

    [src/src/runtime/src/llm/router.rs]: normalization of token usage, the
    chat and embedding calls with their permit, logging and background
    polling; the usage and guard hooks of [llm/mod.rs] and [bypass.rs].  The
    HTTP agent, the clock and the process-wide caches are the class
    [RouterWorld]; what is only logged is left out, what logging can change
    (the caches, a panic of the redaction) is not.  [None] is a panic. *)

From stdpp Require Import base list strings gmap.
From Stdlib Require Import ZArith Lia Ascii.
From S2P Require Import Prelude.
From S2P Require Import RustStr.
From S2P Require Import Json.
From S2P Require Import Errors.
From S2P Require Import Storage.
From S2P Require Import Scope.
From S2P Require Import Transcript.
From S2P Require Import Llm.
From S2P Require Import Redaction.
From S2P Require Import Observability.
From S2P Require Import Config.
From S2P Require Import LlmTypes.
From S2P Require Import Providers.

(** ** Usage *)

Definition TOTAL_USAGE_PATHS : list (list string) := [["total_tokens"]].
Definition INPUT_USAGE_TOTAL_PATHS : list (list string) := [["input_tokens"]; ["prompt_tokens"]].
Definition OUTPUT_USAGE_TOTAL_PATHS : list (list string) := [["output_tokens"]; ["completion_tokens"]].
Definition INPUT_USAGE_DETAIL_PATHS : list (list string) :=
  [["input_tokens_details"; "cached_tokens"]; ["prompt_tokens_details"; "cached_tokens"];
   ["input_tokens_details"; "audio_tokens"]; ["prompt_tokens_details"; "audio_tokens"]].
Definition OUTPUT_USAGE_DETAIL_PATHS : list (list string) :=
  [["output_tokens_details"; "reasoning_tokens"]; ["completion_tokens_details"; "reasoning_tokens"];
   ["output_tokens_details"; "audio_tokens"]; ["completion_tokens_details"; "audio_tokens"];
   ["output_tokens_details"; "accepted_prediction_tokens"];
   ["completion_tokens_details"; "accepted_prediction_tokens"];
   ["output_tokens_details"; "rejected_prediction_tokens"];
   ["completion_tokens_details"; "rejected_prediction_tokens"];
   ["accepted_prediction_tokens"]; ["rejected_prediction_tokens"]].

Fixpoint usage_cursor (cursor : Value) (path : list string) : option Value :=
  match path with
  | [] => Some cursor
  | key :: path => get cursor key ≫= fun v => usage_cursor v path
  end.

Definition usage_u64_at (usage : Value) (path : list string) : option Z := usage_cursor usage path ≫= as_u64.

Fixpoint first_usage_u64 (usage : Value) (paths : list (list string)) : option Z :=
  match paths with
  | [] => None
  | path :: paths => match usage_u64_at usage path with Some n => Some n | None => first_usage_u64 usage paths end
  end.

(** The sum of a [u64] iterator, as a release build computes it. *)
Definition sum_usage_u64 (usage : Value) (paths : list (list string)) : Z :=
  fold_left (fun acc n => wrapping_add u64_max acc n) (omap (usage_u64_at usage) paths) 0%Z.

Definition normalize_usage_tokens (usage : Value) : option (Z * Z) :=
  let total_tokens := default 0%Z (first_usage_u64 usage TOTAL_USAGE_PATHS) in
  let output_tokens :=
    match first_usage_u64 usage OUTPUT_USAGE_TOTAL_PATHS with
    | Some n => n
    | None => sum_usage_u64 usage OUTPUT_USAGE_DETAIL_PATHS
    end in
  let input_tokens :=
    match first_usage_u64 usage INPUT_USAGE_TOTAL_PATHS with
    | Some n => n
    | None =>
        let fallback := sum_usage_u64 usage INPUT_USAGE_DETAIL_PATHS in
        if (0 <? fallback)%Z then fallback
        else if (output_tokens <? total_tokens)%Z then sat_sub total_tokens output_tokens
        else 0%Z
    end in
  if (input_tokens =? 0)%Z && (output_tokens =? 0)%Z then None else Some (input_tokens, output_tokens).

Inductive LlmUsageKind : Type := UsageChat | UsageEmbed.

Record LlmUsage : Type := {
  u_input_tokens : Z;
  u_output_tokens : Z;
  u_model : string;
  u_kind : LlmUsageKind;
  u_prompt_id : option string;
  u_thread_id : option string;
  u_project_id : option string;
  u_provider_usage : option Value
}.

Definition current_project_id (s : Settings) : option string :=
  let from_config := resolved_config s ≫= fun cfg =>
    let p := trim (project_str (project_id (scope cfg))) in if str_is_empty p then None else Some p in
  match from_config with
  | Some p => Some p
  | None =>
      let trimmed := trim (Rs.get_project_id s) in
      if str_is_empty trimmed || String.eqb trimmed "default" then None else Some trimmed
  end.

Definition build_llm_usage (s : Settings) (usage : Value) (model : string) (kind : LlmUsageKind)
  (prompt_id thread_id : option string) : option LlmUsage :=
  '(i, o) ← normalize_usage_tokens usage;
  Some {| u_input_tokens := i; u_output_tokens := o; u_model := model; u_kind := kind;
          u_prompt_id := prompt_id; u_thread_id := thread_id; u_project_id := current_project_id s;
          u_provider_usage := Some usage |}.

(** ** The world *)

Class RouterWorld (W : Type) := {
  router_http : HttpAgent W;
  (** milliseconds of the monotonic clock *)
  instant : W -> Z;
  thread_sleep : Z -> W -> W;
  router_caches : W -> Caches;
  set_router_caches : Caches -> W -> W;
  acquire_permit : W -> W;
  release_permit : W -> W;
  (** the hooks a host may have set *)
  usage_handler : option (LlmUsage -> W -> W);
  pre_call_guard : option (W -> Result unit string * W)
}.
#[global] Existing Instance router_http.

Definition BYPASS_BILLING : bool := true.
Definition BYPASS_AUTH : bool := true.

Section router.
Context {W : Type} `{HW : !RouterWorld W, HSd : !Serde, HR : !OaiReaders, HF : !F32Json,
  HSha : !Sha256, HLow : !UnicodeLower}.
Variable s : Settings.
Notation env := (env_vars s).

Definition emit_llm_usage (bypass_billing : bool) (handler : option (LlmUsage -> W -> W)) (usage : LlmUsage) (w : W) : W :=
  if bypass_billing then w else match handler with Some h => h usage w | None => w end.

Definition report_llm_usage (usage : LlmUsage) : W -> W := emit_llm_usage BYPASS_BILLING usage_handler usage.

Definition run_pre_call_guard (bypass_billing : bool) (guard : option (W -> Result unit string * W)) : Act W string unit :=
  fun w => if bypass_billing then (Ok tt, w) else match guard with Some g => g w | None => (Ok tt, w) end.

Definition check_llm_pre_call : Act W string unit := run_pre_call_guard BYPASS_BILLING pre_call_guard.

(** ** The router *)

Record LlmRouter : Type := { r_base_url : option string; r_api_key : option string; r_timeout : Z }.

(** [s.parse().unwrap_or(d).max(lo).min(hi)] of a setting. *)
Definition clamped (key dflt : string) (d lo hi : Z) : Z :=
  Z.min hi (Z.max lo (default d (parse_uint u64_max (getenv env key dflt)))).

Definition llm_http_timeout : Z :=
  let o := Rs.llm_http_timeout_secs s or_else parse_uint u64_max (getenv env "LLM_HTTP_TIMEOUT_SECS" "1200") in
  Z.min 1800 (Z.max 30 (default 420%Z o)).

Definition new_router : LlmRouter :=
  {| r_base_url := Rs.llm_base_url s; r_api_key := Rs.llm_api_key s; r_timeout := llm_http_timeout |}.

(** The configured limit of concurrent calls, as [InflightLimiter::new] gets it. *)
Definition llm_inflight_limit : Z := default 4%Z (parse_uint usize_max (getenv env "REACT_LLM_MAX_INFLIGHT" "4")).

Variable self : LlmRouter.

Definition base_prefix : string := from_option (trim_end_byte "/") EmptyString (r_base_url self).

Definition pick_adapter (model : string) : Adapter :=
  match provider_kind (default LlmProvider.Null (Rs.llm_provider s)) with
  | LlamaCppKind => LlamaCppAdapter s
  | OpenAIGeneric => pick_openai_adapter_for_model model
  end.

Definition chat_role_from_wire (role : string) : Result ChatRole.t LlmError.t :=
  res_map_err LlmError.Protocol (ChatRole_try_from role).

Fixpoint core_messages (ms : list Wire.ChatMessage) : Result (list ChatMessage) LlmError.t :=
  match ms with
  | [] => Ok []
  | m :: ms =>
      let? r := chat_role_from_wire (Wire.role m) in
      let? rest := core_messages ms in
      Ok ({| role := r; content := Wire.content m |} :: rest)
  end.

Definition two_digits (n : nat) : string := if Nat.ltb n 10 then "0" +:+ fmt_nat n else fmt_nat n.

Definition wire_part (i : nat) (m : Wire.ChatMessage) : PartInput :=
  {| part_name := "msg." +:+ two_digits i +:+ "." +:+ to_lowercase (trim (Wire.role m)); part_text := Wire.content m |}.

Definition router_parts_for_messages (req : ChatRequest) : Result (list ChatMessage * list PartInput) LlmError.t :=
  let? msgs := core_messages (req_messages req) in Ok (msgs, imap wire_part (req_messages req)).

Definition request_json (r : ProviderHttpRequest) (full_url : string) : Act W LlmError.t (Z * string) :=
  ureq_send_json (http_method r) full_url (http_headers r) (r_api_key self) (http_body r).

(** ** Background responses *)

Definition should_poll_background_response (r : ProviderHttpRequest) : bool :=
  String.eqb (http_url r) "/v1/responses" && default false (get (http_body r) "background" ≫= as_bool).

Definition pending (status : string) : bool := String.eqb status "queued" || String.eqb status "in_progress".

Definition poll_every_secs : Z := clamped "LLM_BACKGROUND_POLL_SECS" "2" 2 1 30.
Definition max_wait_secs : Z := clamped "LLM_BACKGROUND_MAX_WAIT_SECS" "300" 300 30 3600.

(** The [while] loop; each turn sleeps, so that one turn a second is enough
    fuel for the whole wait. *)
Fixpoint poll_loop (fuel : nat) (poll_url : string) (started : Z) (status : string) (latest : Z * string)
  : Prog W LlmError.t (Z * string) :=
  if pending status then
    match fuel with
    | O => fun w => (None, w)
    | S fuel => fun w =>
        if (max_wait_secs <=? (instant w - started) / 1000)%Z
        then (Some (Err (LlmError.Timeout max_wait_secs)), w)
        else match ureq_get poll_url [] (r_api_key self) (thread_sleep poll_every_secs w) with
             | (Err e, w) => (Some (Err e), w)
             | (Ok (st, body), w) =>
                 if negb (is_2xx st) then (Some (Ok (st, body)), w)
                 else match parse_json body with
                      | Some v => poll_loop fuel poll_url started (str_field v "status") (st, body) w
                      | None => (Some (Ok (st, body)), w)
                      end
             end
    end
  else prog_ret latest.

Definition complete_background_response (full_url : string) (initial : Z * string) : Prog W LlmError.t (Z * string) :=
  let '(initial_status, initial_body) := initial in
  if negb (is_2xx initial_status) then prog_ret initial
  else match parse_json initial_body with
       | None => prog_ret initial
       | Some v =>
           let status := str_field v "status" in
           if negb (pending status) then prog_ret initial
           else match get v "id" ≫= as_str with
                | None => prog_err (LlmError.Protocol "background response missing id")
                | Some response_id =>
                    let poll_url := trim_end_byte "/" full_url +:+ "/" +:+ response_id in
                    fun w => poll_loop (S (Z.to_nat max_wait_secs)) poll_url (instant w) status initial w
                end
       end.

(** ** Chat *)

(** What a logged call carries: its id and its parts. *)
Definition observe (req : ChatRequest) (obs_thread_id : option string) : Prog W LlmError.t (option Z) :=
  match (if llm_calls_enabled env then obs_thread_id else None) with
  | None => prog_ret None
  | Some tid => fun w =>
      let '(call_id, c) := next_call_id tid (router_caches w) in
      let w := set_router_caches c w in
      match router_parts_for_messages req with
      | Err e => (Some (Err e), w)
      | Ok (_, ps) =>
          let '(built, c) := build_parts_for_thread tid ps (router_caches w) in
          let w := set_router_caches c w in
          match built with Some _ => (Some (Ok (Some call_id)), w) | None => (None, w) end
      end
  end.

(** The error of a response cut off by its output budget. *)
Definition truncation (req : ChatRequest) (obs_thread_id : option string) (call_id : option Z) (body : string)
  : option LlmError.t :=
  v ← parse_json body;
  let reason := default EmptyString (get v "incomplete_details" ≫= fun x => get x "reason" ≫= as_str) in
  if String.eqb (str_field v "status") "incomplete" && String.eqb reason "max_output_tokens" then
    let used k := default 0%Z (get v "usage" ≫= fun u => get u k ≫= as_u64) in
    Some (LlmError.Protocol
      ("LLM output truncated (Responses status=incomplete reason=max_output_tokens). Increase max_output_tokens for this call. thread_id="
       +:+ default "-" obs_thread_id +:+ " call_id=" +:+ from_option fmt_Z "-" call_id
       +:+ " prompt_id=" +:+ default "-" (req_prompt_id req) +:+ " model=" +:+ req_model req
       +:+ " reasoning_effort=" +:+ default "(unset)" (req_reasoning_effort req)
       +:+ " max_output_tokens=" +:+ fmt_Z (default 0%Z (req_max_output_tokens req))
       +:+ " usage_in=" +:+ fmt_Z (used "input_tokens") +:+ " usage_out=" +:+ fmt_Z (used "output_tokens")
       +:+ " response_id=" +:+ str_field v "id"))
  else None.

(** The usage of a response, reported when it tells one. *)
Definition report_usage (body model : string) (kind : LlmUsageKind) (prompt_id thread_id : option string) (w : W) : W :=
  match parse_json body ≫= fun v => get v "usage" ≫= fun u => build_llm_usage s u model kind prompt_id thread_id with
  | Some usage => report_llm_usage usage w
  | None => w
  end.

(** Logging the answer redacts it, which can panic. *)
Definition log_answer (call_id : option Z) (text : string) : Prog W LlmError.t unit :=
  match call_id with
  | Some _ =>
      if llm_response_text_enabled env
      then prog_option (option_map (fun _ => tt) (redact_common_secrets text))
      else prog_ret tt
  | None => prog_ret tt
  end.

Definition is_schema (f : option ChatResponseFormat.t) : bool :=
  match f with Some (ChatResponseFormat.JsonSchema _ _ _) => true | _ => false end.

Definition some_thread (t : option string) : option string :=
  t ≫= fun x => if is_blank x then None else Some x.

(** The call while its permit is held. *)
Definition chat_with_permit (adapter : Adapter) (req : ChatRequest) (r : ProviderHttpRequest)
  : Prog W LlmError.t ChatResponse :=
  let full_url := base_prefix +:+ http_url r in
  let obs_thread_id := some_thread (req_thread_id req) in
  run! call_id <- observe req obs_thread_id;
  run! answer <- prog_act id (request_json r full_url);
  run! answer <- (if should_poll_background_response r then complete_background_response full_url answer
                  else prog_ret answer);
  let '(st, body) := answer in
  let ph := {| status := st; body_text := body; structured := is_schema (req_response_format req) |} in
  if negb (is_2xx st) then prog_err (llm_error_from_http st body)
  else match truncation req obs_thread_id call_id body with
       | Some e => prog_err e
       | None =>
           match parse_chat_http adapter ph with
           | Err e => prog_err e
           | Ok parsed => fun w =>
               let w := report_usage body (req_model req) UsageChat (req_prompt_id req) obs_thread_id w in
               (run! _ <- log_answer call_id (resp_text parsed); prog_ret parsed) w
           end
       end.

(** The permit is given back when the call is left, by a panic too. *)
Definition with_permit {A} (m : Prog W LlmError.t A) : Prog W LlmError.t A :=
  fun w => let '(r, w) := m (acquire_permit w) in (r, release_permit w).

Definition router_chat (req : ChatRequest) : Prog W LlmError.t ChatResponse :=
  let adapter := pick_adapter (req_model req) in
  match build_chat_http adapter req with
  | Err e => prog_err e
  | Ok r =>
      if starts_with (http_url r) "local://chat" then
        match core_messages (req_messages req) with
        | Err e => prog_err e
        | Ok msgs => prog_ret {| resp_text := local_chat msgs; resp_raw := None |}
        end
      else with_permit (chat_with_permit adapter req r)
  end.

(** ** Embeddings *)

(** The code of [0.0] and the task-local thread. *)
Variables (zero : Z) (thread_ctx : option string).

Definition embed_with_permit (adapter : Adapter) (req : EmbedRequest) (r : ProviderHttpRequest)
  : Prog W LlmError.t EmbedResponse :=
  run! answer <- prog_act id (request_json r (base_prefix +:+ http_url r));
  let '(st, body) := answer in
  if negb (is_2xx st) then prog_err (llm_error_from_http st body)
  else match parse_embed_http adapter {| status := st; body_text := body; structured := false |} with
       | Err e => prog_err e
       | Ok parsed => fun w => (Some (Ok parsed), report_usage body (emb_model req) UsageEmbed None thread_ctx w)
       end.

Definition router_embed (req : EmbedRequest) : Prog W LlmError.t EmbedResponse :=
  let adapter := pick_adapter (emb_model req) in
  match build_embed_http adapter req with
  | Err e => prog_err e
  | Ok r =>
      if starts_with (http_url r) "local://embed" then
        prog_ret (emb_resp_of {| data := local_embed zero (emb_inputs req) |})
      else with_permit (embed_with_permit adapter req r)
  end.
End router.
