(* ===== verification/RouterModel.v ===== *)
(** * The models the runtime builds

    [src/src/runtime/src/llm/session.rs]: [RouterModel], which turns the
    options of a call and the settings into a provider request, and
    [src/src/runtime/src/llm/mod.rs]'s reading of the configuration for the
    local model.  The blocking task a call runs on is joined: a panic is a
    protocol error with the text of the join.  Then the direct client of
    [src/src/runtime/src/llm/openai_compat.rs]: one blocking request per call,
    to the Responses or the chat-completions endpoint. *)

From stdpp Require Import base list strings gmap.
From Stdlib Require Import ZArith Lia Ascii.
From S2P Require Import Prelude.
From S2P Require Import RustStr.
From S2P Require Import Json.
From S2P Require Import Errors.
From S2P Require Import Storage.
From S2P Require Import Schema.
From S2P Require Import Transcript.
From S2P Require Import Llm.
From S2P Require Import Redaction.
From S2P Require Import Observability.
From S2P Require Import Config.
From S2P Require Import LlmTypes.
From S2P Require Import Providers.
From S2P Require Import Router.

(** A character a schema name may hold; any other becomes an underscore. *)
Definition safe_char (c : string) : bool :=
  match c with
  | String a EmptyString => is_ascii_alphanumeric a || Ascii.eqb a "_"%char || Ascii.eqb a "-"%char
  | _ => false
  end.

Definition openai_schema_name (s : string) : string :=
  let out := concat_strings (map (fun ch => if safe_char ch then ch else "_") (chars s)) in
  if str_is_empty out then "schema" else out.

Section session.
Variable s : Settings.
Notation env := (env_vars s).

(** [LlmConfig]: what the local model and the direct client are built from. *)
Inductive LlmProviderType : Type := LocalProvider | OpenAICompatProvider.

Record LlmConfig : Type := {
  c_provider : LlmProviderType;
  c_reason_model : option string;
  c_task_model : option string;
  c_embed_model : option string;
  c_base_url : option string;
  c_api_key : option string;
  c_gpu_layers : option Z;
  c_context_length : option Z
}.

Definition default_llm_config : LlmConfig := {|
  c_provider := LocalProvider; c_reason_model := None; c_task_model := None; c_embed_model := None;
  c_base_url := None; c_api_key := None; c_gpu_layers := None; c_context_length := Some 4096%Z |}.

Definition config_from_resolved (cfg : ReactResolvedConfig) : LlmConfig := {|
  c_provider := match provider_kind (llm_provider (llm cfg)) with
                | OpenAIGeneric => OpenAICompatProvider
                | LlamaCppKind => LocalProvider
                end;
  c_reason_model := Config.reason_model (llm cfg) or_else Rs.llm_reason_model s;
  c_task_model := task_model (llm cfg) or_else Rs.llm_task_model s;
  c_embed_model := embed_model (llm cfg) or_else Rs.llm_embed_model s;
  c_base_url := Config.base_url (llm cfg) or_else Rs.llm_base_url s;
  c_api_key := Rs.llm_api_key s;
  c_gpu_layers := gpu_layers (llm cfg) or_else Rs.llm_gpu_layers s;
  c_context_length := context_length (llm cfg) or_else Rs.llm_context_length_opt s or_else
                      Some (Rs.llm_context_length s) |}.

Definition config_from_global : LlmConfig :=
  match resolved_config s with Some cfg => config_from_resolved cfg | None => default_llm_config end.

(** ** The request *)

Definition hard_cap : Z :=
  match parse_uint u32_max (getenv env "LLM_MAX_OUTPUT_TOKENS_HARD_CAP" "256000") with
  | Some v => if (0 <? v)%Z then v else 256000%Z
  | None => 256000%Z
  end.

Definition apply_hard_cap_max_output_tokens (requested : option Z) : option Z :=
  (fun v => Z.min v hard_cap) <$> requested.

Definition effort_name (e : ReasoningEffort) : string :=
  match e with
  | EffortNone => "none"
  | Low => "low"
  | Medium => "medium"
  | High | ExtraHigh => "high"
  end.

Definition should_use_background_mode (model : string) : bool :=
  let mode := to_ascii_lowercase (getenv env "LLM_BACKGROUND_MODE" "auto") in
  if existsb (String.eqb mode) ["1"; "true"; "on"; "always"] then true
  else if existsb (String.eqb mode) ["0"; "false"; "off"; "never"] then false
  else match openai_api_for_model model with Responses => true | ChatCompletions => false end.

Definition response_format_of (f : LlmExpectedFormat) : option ChatResponseFormat.t :=
  match f with
  | Text => None
  | JsonObject => Some ChatResponseFormat.JsonObject
  | JsonSchema schema =>
      Some (ChatResponseFormat.JsonSchema (openai_schema_name (os_name schema)) (os_schema schema) true)
  end.

Definition wire_message (m : ChatMessage) : Wire.ChatMessage :=
  {| Wire.role := ChatRole.display (role m); Wire.content := content m |}.

Context `{HP : !ParseF32}.

Definition chosen_model (o : LlmCallOptions) : string :=
  default DEFAULT_LLM_MODEL (model o or_else Rs.llm_reason_model s).

Definition chat_request (thread_ctx : option string) (messages : list ChatMessage) (o : LlmCallOptions) : ChatRequest :=
  let model := chosen_model o in
  let default_max_output_tokens :=
    Rs.llm_max_tokens s or_else parse_uint u32_max (getenv env "LLM_MAX_TOKENS" "1024") in
  let default_temperature := Rs.llm_temperature s or_else parse_f32 (getenv env "LLM_TEMPERATURE" "0.2") in
  let default_top_p := Rs.llm_top_p s or_else parse_f32 (getenv env "LLM_TOP_P" "1.0") in
  {| req_model := model;
     req_messages := map wire_message messages;
     req_max_output_tokens :=
       apply_hard_cap_max_output_tokens (max_output_tokens o or_else default_max_output_tokens);
     req_temperature := Llm.temperature o or_else default_temperature;
     req_top_p := Llm.top_p o or_else default_top_p;
     req_response_format := response_format_of (expected_format o);
     req_reasoning_effort := Some (effort_name (default (Rs.llm_reasoning_effort) (reasoning_effort o)));
     req_prompt_id := Some (prompt_id o);
     req_thread_id := opt_thread_id o or_else thread_ctx;
     req_execution_mode := Some (if should_use_background_mode model then BackgroundPreferred else Sync) |}.
End session.

(** ** The model *)

Section model.
Context {W : Type} `{HW : !RouterWorld W, HSd : !Serde, HR : !OaiReaders, HF : !F32Json,
  HSha : !Sha256, HLow : !UnicodeLower, HP : !ParseF32}.
Variables (s : Settings) (self : LlmRouter).
(** The task-local thread, the text of a failed join, the code of [0.0]. *)
Variables (thread_ctx : option string) (join_text : string) (zero : Z).

Definition joined {A} (m : Prog W LlmError.t A) : Act W LlmError.t A :=
  fun w => match m w with
           | (Some r, w) => (r, w)
           | (None, w) => (Err (LlmError.Protocol ("LLM join: " +:+ join_text)), w)
           end.

Definition model_chat (messages : list ChatMessage) (o : LlmCallOptions) : Act W LlmError.t string :=
  do! _ <- act_map_err LlmError.Fatal check_llm_pre_call;
  do! r <- joined (router_chat s self (chat_request s thread_ctx messages o));
  act_ret (resp_text r).

Definition embed_request (texts : list string) : EmbedRequest :=
  {| emb_model := default "text-embedding-3-small" (Rs.llm_embed_model s); emb_inputs := texts |}.

Definition model_embed (texts : list string) : Act W LlmError.t (list (list Z)) :=
  match texts with
  | [] => act_ret []
  | _ =>
      do! r <- joined (router_embed s self zero thread_ctx (embed_request texts));
      act_ret (emb_vectors r)
  end.
End model.

(** ** The direct client *)

Module OpenAiCompat.
Section client.
Context {W : Type} `{HA : !HttpAgent W, HSd : !Serde, HR : !OaiReaders, HF : !F32Json, HP : !ParseF32}.
(** The variables of the environment; the codes of [0.2] and [1.0]. *)
Variables (env : string -> option string) (point2 one : Z).
Variable cfg : LlmConfig.

Definition http_timeout_secs : Z := default 1200%Z (parse_uint u64_max (getenv env "LLM_HTTP_TIMEOUT_SECS" "1200")).

Definition base_url : string := default DEFAULT_OPENAI_COMPAT_BASE_URL (c_base_url cfg).

Definition endpoint (path : string) : string := trim_end_byte "/" base_url +:+ path.

Definition post_json (url : string) (payload : Value) : Act W LlmError.t (Z * string) :=
  ureq_send_json "POST" url [] (c_api_key cfg) payload.

(** A request whose answer is read by [k] when its status is a success. *)
Definition posted {A} (url : string) (payload : Value) (k : Z -> string -> Result A LlmError.t) : Act W LlmError.t A :=
  do! answer <- post_json url payload;
  let '(status, body_text) := answer in
  if negb (is_2xx status) then act_err (llm_error_from_http status body_text)
  else act_lift (k status body_text).

Definition wire_format (f : LlmExpectedFormat) : Value :=
  match f with
  | Text => json_obj [("type", VString "text")]
  | JsonObject => json_obj [("type", VString "json_object")]
  | JsonSchema schema =>
      json_obj [("type", VString "json_schema"); ("name", VString (replace_byte "." "_" (os_name schema)));
                ("schema", os_schema schema); ("strict", VBool true)]
  end.

Definition responses_body (model : string) (messages : list ChatMessage) (o : LlmCallOptions) : Value :=
  let max_tokens_env := default 8192%Z (parse_int 2147483647 (getenv env "LLM_MAX_TOKENS" "8192")) in
  let max_tokens := from_option as_i32 max_tokens_env (max_output_tokens o) in
  json_obj [("model", VString model);
            ("input", VArray (map (fun m => resp_msg (ChatRole.display (role m))
                        [resp_part (responses_content_part_type (role m)) (content m)]) messages));
            ("modalities", VArray [VString "text"]);
            ("response_format", wire_format (expected_format o));
            ("max_output_tokens", num max_tokens);
            ("reasoning", json_obj [("effort", VString (effort_name (default Low (reasoning_effort o))))])].

Definition wants_schema (f : LlmExpectedFormat) : bool := match f with JsonSchema _ => true | _ => false end.

Definition read_responses (o : LlmCallOptions) (status : Z) (body : string) : Result string LlmError.t :=
  let? v := res_map_err LlmError.Protocol (from_slice body) in
  let? text := extract_response_text v (wants_schema (expected_format o)) status body in
  match text with Some t => Ok t | None => Err (empty_response body) end.

(** The sampling settings come from the environment alone. *)
Definition completions_body (model : string) (messages : list ChatMessage) : Value :=
  let max_tokens := default 1024%Z (parse_uint u32_max (getenv env "LLM_MAX_TOKENS" "1024")) in
  let temperature := default point2 (parse_f32 (getenv env "LLM_TEMPERATURE" "0.2")) in
  let top_p := default one (parse_f32 (getenv env "LLM_TOP_P" "1.0")) in
  chat_req_value
    {| ocr_model := model;
       ocr_messages := map (fun m => {| oai_role := ChatRole.display (role m); oai_content := content m |}) messages;
       ocr_stream := Some false; ocr_max_tokens := Some max_tokens; ocr_temperature := Some temperature;
       ocr_top_p := Some top_p; ocr_response_format := None |}.

Definition read_completions (status : Z) (body : string) : Result string LlmError.t :=
  let? obj := res_map_err LlmError.Protocol (read_chat_resp body) in Ok (chat_text obj).

Definition chat_sync (messages : list ChatMessage) (o : LlmCallOptions) : Act W LlmError.t string :=
  do! _ <- act_lift (require_nonempty_messages messages);
  match (model o or_else c_reason_model cfg) with
  | None => act_err (LlmError.Protocol "missing reason_model")
  | Some model =>
      match openai_api_for_model model with
      | Responses => posted (endpoint "/v1/responses") (responses_body model messages o) (read_responses o)
      | ChatCompletions => posted (endpoint "/v1/chat/completions") (completions_body model messages) read_completions
      end
  end.

Definition embed_sync (texts : list string) : Act W LlmError.t (list (list Z)) :=
  match c_embed_model cfg with
  | None => act_err (LlmError.Protocol "missing embed_model")
  | Some model =>
      posted (endpoint "/v1/embeddings") (emb_req_value model texts)
        (fun _ body => let? obj := res_map_err LlmError.Protocol (read_emb_resp body) in Ok (data obj))
  end.
End client.
End OpenAiCompat.
