(* ===== verification/ModelCalls.v ===== *)
(** * What the model calls guarantee

    Theorems about [Providers], [Router] and [RouterModel]. *)

From stdpp Require Import base list strings gmap.
From Stdlib Require Import ZArith Lia Ascii String.
From S2P Require Import Prelude.
From S2P Require Import RustStr.
From S2P Require Import Json.
From S2P Require Import Errors.
From S2P Require Import Storage.
From S2P Require Import Transcript.
From S2P Require Import Llm.
From S2P Require Import Redaction.
From S2P Require Import Observability.
From S2P Require Import Config.
From S2P Require Import LlmTypes.
From S2P Require Import Providers.
From S2P Require Import Router.
From S2P Require Import RouterModel.
Import OpenAiCompat.

(** ** Background responses *)

(** Sleeping takes its time, and no call turns the clock back. *)
Class ClockLaws (W : Type) `{!RouterWorld W} : Prop := {
  sleep_advances d w : (instant w + 1000 * d <= instant (thread_sleep d w))%Z;
  calls_take_time m u h p w : (instant w <= instant (http_call m u h p w).2)%Z
}.

Section polling.
Context {W : Type} `{HW : !RouterWorld W, HC : !ClockLaws W, HSd : !Serde}.
Variables (s : Settings) (self : LlmRouter).

(** The answer says that the response is still being worked on. *)
Definition still_pending (answer : Z * string) : Prop :=
  is_2xx answer.1 = true /\ exists v, parse_json answer.2 = Some v /\ pending (str_field v "status") = true.

Lemma clamped_range key d0 d lo hi : (lo <= hi)%Z -> (lo <= clamped s key d0 d lo hi <= hi)%Z.
Proof using Type. unfold clamped. lia. Qed.

Lemma poll_every_pos : (1 <= poll_every_secs s)%Z.
Proof using Type. apply clamped_range. lia. Qed.

Lemma ureq_get_time url w : (instant w <= instant (ureq_get url [] (r_api_key self) w).2)%Z.
Proof using HC.
  unfold ureq_get. pose proof (calls_take_time "GET" url (auth_header (r_api_key self) ++ []) None w) as Ht.
  by destruct (http_call _ _ _ _ w).
Qed.

Lemma poll_loop_ends fuel url started status latest w :
  (max_wait_secs s - (instant w - started) / 1000 < Z.of_nat fuel)%Z -> 0 < fuel ->
  (pending status = true \/ ~ still_pending latest) ->
  exists r w', poll_loop s self fuel url started status latest w = (Some r, w') /\
    match r with Ok answer => ~ still_pending answer | Err _ => True end.
Proof using HC.
  revert status latest w. induction fuel as [|fuel IH]; intros status latest w Hf Hpos Hl; [lia|].
  cbn [poll_loop]. destruct (pending status) eqn:Ep; [|destruct Hl as [|Hl]; [done|by eexists (Ok _), _]].
  destruct (Z.leb_spec (max_wait_secs s) ((instant w - started) / 1000)) as [Hle|Hlt]; [by eexists (Err _), _|].
  pose proof (sleep_advances (poll_every_secs s) w) as Hs. pose proof poll_every_pos as Hp.
  pose proof (ureq_get_time url (thread_sleep (poll_every_secs s) w)) as Hg.
  destruct (ureq_get _ _ _ _) as [[[st body]|e] w1]; [|by eexists (Err _), _]. cbn [snd] in Hg.
  destruct (is_2xx st) eqn:E2; cbn [negb]; [|eexists (Ok _), _; split; [done|]; intros [H _]; cbn in H; congruence].
  destruct (parse_json body) as [v|] eqn:Ev.
  - assert ((instant w - started) / 1000 + 1 <= (instant w1 - started) / 1000)%Z as Hstep.
    { rewrite <- Z.div_add by lia. apply Z.div_le_mono; lia. }
    apply IH; [lia|lia|]. destruct (pending (str_field v "status")) eqn:Eq; [by left|right].
    intros (_ & v' & Hv & Hq). cbn in Hv. congruence.
  - eexists (Ok _), _. split; [done|]. intros (_ & v' & Hv & _). cbn in Hv. congruence.
Qed.

(** C32: Waiting for a background response ends, and never hands out a response
    the provider is still working on: it is completed, or the wait is over
    after [LLM_BACKGROUND_MAX_WAIT_SECS], or a call failed. *)
Theorem background_polling_ends full_url initial w :
  exists r w', complete_background_response s self full_url initial w = (Some r, w') /\
    match r with Ok answer => ~ still_pending answer | Err _ => True end.
Proof using HC.
  destruct initial as [st body]. unfold complete_background_response.
  destruct (is_2xx st) eqn:E2; cbn [negb]; [|eexists (Ok _), _; split; [done|]; intros [H _]; cbn in H; congruence].
  destruct (parse_json body) as [v|] eqn:Ev;
    [|eexists (Ok _), _; split; [done|]; intros (_ & v' & Hv & _); cbn in Hv; congruence].
  destruct (pending (str_field v "status")) eqn:Ep; cbn [negb];
    [|eexists (Ok _), _; split; [done|]; intros (_ & v' & Hv & Hq); cbn in Hv; congruence].
  destruct (get v "id" ≫= as_str) as [id|]; [|by eexists (Err _), _].
  apply poll_loop_ends; [|lia|by left]. rewrite Z.sub_diag, Zdiv_0_l.
  pose proof (clamped_range "LLM_BACKGROUND_MAX_WAIT_SECS" "300" 300 30 3600 ltac:(lia)) as Hm.
  fold (max_wait_secs s) in Hm. lia.
Qed.
End polling.

(** ** The request of a call *)

Section requests.
Context `{HSd : !Serde, HR : !OaiReaders, HF : !F32Json, HP : !ParseF32}.
Variable s : Settings.

(** A message as the Responses endpoint gets it. *)
Definition responses_entry (m : ChatMessage) : Value :=
  let kind := match role m with ChatRole.Assistant => "output_text" | _ => "input_text" end in
  json_obj [("role", VString (ChatRole.display (role m)));
            ("content", VArray [json_obj [("type", VString kind); ("text", VString (content m))]])].

(** A message as the chat-completions endpoint gets it. *)
Definition completions_entry (m : ChatMessage) : Value :=
  json_obj [("role", VString (ChatRole.display (role m))); ("content", VString (content m))].

Lemma resp_messages_wire messages : resp_messages (map wire_message messages) = Ok (map responses_entry messages).
Proof using Type.
  induction messages as [|m ms IH]; [done|]. cbn [map resp_messages].
  change (Wire.role (wire_message m)) with (ChatRole.display (role m)).
  unfold responses_content_part_type_for_role. rewrite ChatRole_round_trip. cbn [res_map_err res_bind].
  rewrite IH. by destruct m as [[] c].
Qed.

Lemma oai_messages_wire messages :
  map (fun m => json_obj [("role", VString (oai_role m)); ("content", VString (oai_content m))])
    (map oai_message (map wire_message messages)) = map completions_entry messages.
Proof using Type. rewrite !map_map. apply map_ext. by intros [[] c]. Qed.

(** The budget of the call, of the settings or of the environment, the first
    there is, under the hard cap. *)
Definition budget_of (o : LlmCallOptions) : option Z :=
  let asked :=
    match max_output_tokens o, Rs.llm_max_tokens s with
    | Some n, _ => Some n
    | None, Some n => Some n
    | None, None => parse_uint u32_max (getenv (env_vars s) "LLM_MAX_TOKENS" "1024")
    end in
  match asked with Some n => Some (if decide (n <= hard_cap s)%Z then n else hard_cap s) | None => None end.

Lemma capped_budget thread_ctx messages o :
  req_max_output_tokens (chat_request s thread_ctx messages o) = budget_of o.
Proof using Type.
  cbn [chat_request req_max_output_tokens]. unfold budget_of, apply_hard_cap_max_output_tokens.
  assert (forall n, Z.min n (hard_cap s) = if decide (n <= hard_cap s)%Z then n else hard_cap s) as Hm
    by (intros n; case_decide; lia).
  destruct (max_output_tokens o); [cbn; by rewrite Hm|]. destruct (Rs.llm_max_tokens s); [cbn; by rewrite Hm|].
  destruct (parse_uint _ _); [cbn; by rewrite Hm|done].
Qed.

(** Whether the settings forbid work in the background. *)
Definition background_off : bool :=
  existsb (String.eqb (to_ascii_lowercase (getenv (env_vars s) "LLM_BACKGROUND_MODE" "auto"))) ["0"; "false"; "off"; "never"].

Lemma background_of_responses model : openai_api_for_model model = Responses ->
  should_use_background_mode s model = negb background_off.
Proof using Type.
  intros Ha. unfold should_use_background_mode, background_off. rewrite Ha.
  set (mode := to_ascii_lowercase _). destruct (existsb (String.eqb mode) ["1"; "true"; "on"; "always"]) eqn:E.
  - cbn in E |- *. repeat (apply orb_prop in E as [->%String.eqb_eq|E]; [done|]). done.
  - by destruct (existsb _ _).
Qed.

(** C33: The request a call turns into tells the whole conversation: every
    message, in order, with its role, to the endpoint of the model; and the
    budget, that of the call or else of the settings, never more than the hard
    cap.  A request to the Responses endpoint is worked on in the background,
    and polled for, unless [LLM_BACKGROUND_MODE] switches that off, and has no
    sampling parameters; one to the chat-completions endpoint never is,
    whatever the settings say. *)
Theorem requests_tell_the_conversation thread_ctx messages o :
  messages <> [] ->
  let model := chosen_model s o in
  exists r, build_chat_http (pick_openai_adapter_for_model model) (chat_request s thread_ctx messages o) = Ok r /\
    get (http_body r) "model" = Some (VString model) /\
    (forall n, budget_of o = Some n -> (n <= hard_cap s)%Z) /\
    match openai_api_for_model model with
    | Responses =>
        http_url r = "/v1/responses" /\
        get (http_body r) "input" = Some (VArray (map responses_entry messages)) /\
        get (http_body r) "max_output_tokens" = (fun n => num (as_i32 n)) <$> budget_of o /\
        get (http_body r) "temperature" = None /\ get (http_body r) "top_p" = None /\
        get (http_body r) "background" = (if background_off then None else Some (VBool true)) /\
        should_poll_background_response r = negb background_off
    | ChatCompletions =>
        http_url r = "/v1/chat/completions" /\
        get (http_body r) "messages" = Some (VArray (map completions_entry messages)) /\
        get (http_body r) "max_tokens" = num <$> budget_of o /\
        get (http_body r) "background" = None /\
        should_poll_background_response r = false
    end.
Proof using Type.
  intros Hne model. set (req := chat_request s thread_ctx messages o). unfold pick_openai_adapter_for_model.
  assert (require_nonempty_messages (req_messages req) = Ok tt) as Hn by by destruct messages.
  assert (forall n, budget_of o = Some n -> (n <= hard_cap s)%Z) as Hcap.
  { unfold budget_of. intros n. case_match; [|done]. intros [= <-]. case_decide; lia. }
  rewrite <- (capped_budget thread_ctx messages o) in *. fold req in Hcap |- *.
  destruct (openai_api_for_model model) eqn:Ea; cbn [build_chat_http OpenAIResponsesAdapter OpenAIChatAdapter].
  - rewrite <- (background_of_responses model Ea).
    replace (if background_off then None else Some (VBool true))
      with (if should_use_background_mode s model then Some (VBool true) else None)
      by (rewrite (background_of_responses model Ea); by destruct background_off).
    unfold responses_build. rewrite Hn. cbn [res_bind].
    change (req_messages req) with (map wire_message messages). rewrite resp_messages_wire. cbn [res_bind].
    eexists. split; [reflexivity|]. unfold resp_body, background_flag.
    change (req_model req) with model. unfold responses_supports_sampling_controls. rewrite Ea.
    change (req_execution_mode req) with (Some (if should_use_background_mode s model then BackgroundPreferred else Sync)).
    clearbody req. revert Hcap. destruct (req_max_output_tokens req), (req_reasoning_effort req), (should_use_background_mode s model);
      intros Hcap; split_and!; (exact Hcap || reflexivity).
  - unfold chat_build. rewrite Hn. cbn [res_bind]. eexists. split; [reflexivity|].
    unfold chat_req_value. cbn [ocr_model ocr_messages ocr_stream ocr_max_tokens ocr_temperature ocr_top_p ocr_response_format].
    change (req_messages req) with (map wire_message messages). rewrite oai_messages_wire.
    change (req_model req) with model. clearbody req. revert Hcap.
    destruct (req_max_output_tokens req), (req_temperature req), (req_top_p req),
      (chat_response_format (req_response_format req)); intros Hcap; split_and!; (exact Hcap || reflexivity).
Qed.

(** Below the range of [i32] the budget reaches the provider as it is. *)
Lemma budgets_are_kept n : (0 <= n <= 2147483647)%Z -> as_i32 n = n.
Proof using Type.
  intros Hn. unfold as_i32, cast, u32_max. rewrite Z.mod_small by lia. destruct (Z.leb_spec n 2147483647); lia.
Qed.
End requests.

(** ** Names of schemas *)

Definition name_byte (a : ascii) : bool := is_ascii_alphanumeric a || Ascii.eqb a "_"%char || Ascii.eqb a "-"%char.

Lemma safe_char_byte c : safe_char c = true -> exists a, c = String a EmptyString /\ name_byte a = true.
Proof. destruct c as [|a [|]]; try done. intros Hc. by exists a. Qed.

Lemma concat_safe l : Forall (fun c => safe_char c = true) l ->
  Forall (fun a => name_byte a = true) (list_ascii_of_string (concat_strings l)) /\
  (concat_strings l = EmptyString -> l = []).
Proof.
  induction 1 as [|c l Hc _ [IH _]]; [split; [apply Forall_nil_2|done]|].
  apply safe_char_byte in Hc as (a & -> & Ha). split; [by apply Forall_cons_2|done].
Qed.

(** Whatever a schema is called, the provider is sent a name of letters,
    digits, underscores and dashes, and never an empty one; a name that is
    fine already is kept. *)
Theorem schema_names_are_accepted name :
  openai_schema_name name <> EmptyString /\
  Forall (fun a => name_byte a = true) (list_ascii_of_string (openai_schema_name name)) /\
  (name <> EmptyString -> Forall (fun c => safe_char c = true) (chars name) -> openai_schema_name name = name).
Proof.
  unfold openai_schema_name. set (l := map _ (chars name)).
  assert (Forall (fun c => safe_char c = true) l) as Hl.
  { apply Forall_map, Forall_forall. intros c _. by destruct (safe_char c) eqn:E. }
  destruct (concat_safe l Hl) as [Hs _]. split; [|split].
  - by destruct (concat_strings l).
  - destruct (str_is_empty (concat_strings l)); [|done]. repeat (apply Forall_cons_2; [reflexivity|]). apply Forall_nil_2.
  - intros Hne Hc. assert (l = chars name) as ->.
    { unfold l. clear -Hc. induction Hc as [|c cs Hc _ IH]; [done|]. cbn. by rewrite Hc, IH. }
    rewrite concat_chars. by destruct name.
Qed.

Lemma schema_names_are_accepted_witness : openai_schema_name "agent_step-1" = "agent_step-1".
Proof.
  apply schema_names_are_accepted; [done|]. repeat (apply Forall_cons_2; [reflexivity|]). apply Forall_nil_2.
Defined.

(** ** Calls that never leave *)

Section local.
Context {W : Type} `{HW : !RouterWorld W, HSd : !Serde, HR : !OaiReaders, HF : !F32Json,
  HSha : !Sha256, HLow : !UnicodeLower, HP : !ParseF32}.
Variables (s : Settings) (self : LlmRouter) (thread_ctx : option string) (join_text : string).

Lemma empty_build model req : req_messages req = [] ->
  build_chat_http (pick_adapter s model) req = Err (LlmError.Protocol "chat request has no messages").
Proof using Type.
  intros He. unfold pick_adapter, pick_openai_adapter_for_model.
  destruct (provider_kind _); [destruct (openai_api_for_model model)|]; cbn; unfold responses_build, chat_build;
    by rewrite He.
Qed.

(** A call without messages fails before anything happens: no permit is
    taken, no request is sent, no call is logged. *)
Theorem empty_requests_stay_home o w :
  model_chat s self thread_ctx join_text [] o w = (Err (LlmError.Protocol "chat request has no messages"), w).
Proof using Type.
  unfold model_chat, joined, router_chat, act_bind. cbn [act_map_err check_llm_pre_call run_pre_call_guard BYPASS_BILLING].
  cbn. by rewrite empty_build.
Qed.

(** Without a provider the answer is made here, of every message in order,
    and the world is left alone. *)
Theorem local_calls_stay_home messages o w :
  provider_kind (default LlmProvider.Null (Rs.llm_provider s)) = LlamaCppKind -> messages <> [] ->
  model_chat s self thread_ctx join_text messages o w = (Ok (local_chat messages), w).
Proof using Type.
  intros Hp Hne. unfold model_chat, joined, router_chat, pick_adapter, act_bind. rewrite Hp.
  cbn [act_map_err check_llm_pre_call run_pre_call_guard BYPASS_BILLING].
  assert (core_messages (map wire_message messages) = Ok messages) as Hm.
  { clear Hne. induction messages as [|[r c] ms IH]; [done|]. cbn [map core_messages]. unfold chat_role_from_wire.
    cbn [wire_message Wire.role Transcript.role]. rewrite ChatRole_round_trip. cbn [res_map_err res_bind]. by rewrite IH. }
  destruct messages as [|m ms]; [done|]. cbn -[core_messages local_chat map]. rewrite Hm. done.
Qed.
End local.

(** ** Answers *)

Section answers.
Context `{HSd : !Serde, HR : !OaiReaders, HF : !F32Json}.

(** A Responses call that succeeds has a text. *)
Lemma responses_have_text resp r : responses_parse resp = Ok r -> is_blank (resp_text r) = false.
Proof using Type.
  unfold responses_parse, extract_response_text. destruct (res_map_err _ _) as [v|]; [cbn [res_bind]|done].
  set (texts := match nonblank _ with Some s => Ok (Some s) | None => _ end : Result (option string) LlmError.t).
  assert (forall t, texts = Ok (Some t) -> is_blank t = false) as Ht.
  { unfold texts. intros t. destruct (nonblank _) eqn:En.
    - intros [= <-]. by apply nonblank_Some in En as [_ En].
    - destruct (is_blank _) eqn:Eb; [done|]. by intros [= <-]. }
  assert (match texts with Ok a => match a with Some t => Ok {| resp_text := t; resp_raw := Some v |}
            | None => Err (empty_response (body_text resp)) end | Err e => Err e end = Ok r ->
          is_blank (resp_text r) = false) as Hr.
  { destruct texts as [[t|]|]; try done. intros [= <-]. by apply Ht. }
  destruct (get v "error") as [[]|]; cbn [res_bind]; try done; apply Hr.
Qed.

(** The tokens of an answer are counted once: totals the provider gives are
    taken as they are, whatever details it adds; and when it gives only the
    sum and the output, the input is the rest. *)
Theorem usage_is_counted_once usage :
  (forall i o, first_usage_u64 usage INPUT_USAGE_TOTAL_PATHS = Some i ->
     first_usage_u64 usage OUTPUT_USAGE_TOTAL_PATHS = Some o ->
     normalize_usage_tokens usage = if ((i =? 0) && (o =? 0))%Z then None else Some (i, o)) /\
  (forall t o, first_usage_u64 usage TOTAL_USAGE_PATHS = Some t ->
     first_usage_u64 usage OUTPUT_USAGE_TOTAL_PATHS = Some o ->
     first_usage_u64 usage INPUT_USAGE_TOTAL_PATHS = None ->
     omap (usage_u64_at usage) INPUT_USAGE_DETAIL_PATHS = [] ->
     (0 <= o < t)%Z -> normalize_usage_tokens usage = Some (t - o, o)%Z).
Proof using Type.
  unfold normalize_usage_tokens. split.
  - by intros i o -> ->.
  - intros t o -> -> -> Hd Ho. unfold sum_usage_u64. rewrite Hd. cbn [fold_left default from_option id].
    change ((0 <? 0)%Z) with false. cbn iota.
    destruct (Z.ltb_spec o t); [|lia]. unfold sat_sub. rewrite Z.max_r by lia.
    destruct (Z.eqb_spec (t - o) 0); [lia|]. done.
Qed.
End answers.

Lemma usage_is_counted_once_witness :
  let usage := VObject [("completion_tokens", VNumber (PosInt 5)); ("prompt_tokens", VNumber (PosInt 7))] in
  normalize_usage_tokens usage = Some (7, 5)%Z.
Proof.
  intros usage. apply (proj1 (usage_is_counted_once usage) 7%Z 5%Z); reflexivity.
Defined.

(** The direct client sends a chat-completions model nothing of what the
    caller asked for: budget, temperature and format come from the
    environment or are missing. *)
Theorem completions_ignore_the_options {W} `{HA : !HttpAgent W, HSd : !Serde, HR : !OaiReaders, HF : !F32Json, HP : !ParseF32}
    env point2 one cfg messages (o o' : LlmCallOptions) (w : W) :
  model o = model o' ->
  match (model o or_else c_reason_model cfg) with Some m => openai_api_for_model m = ChatCompletions | None => True end ->
  chat_sync env point2 one cfg messages o w = chat_sync env point2 one cfg messages o' w.
Proof.
  intros Hm Ha. unfold chat_sync, act_bind, act_lift. destruct (require_nonempty_messages messages); [|done].
  rewrite <- Hm. destruct (match model o with Some x => Some x | None => _ end) as [m|]; [|done]. by rewrite Ha.
Qed.

(** ** A world to run in *)

Module Lab.
(** The clock, what the network will answer, and the calls it got. *)
Record t : Type := { clock : Z; answers : list UreqOutcome; calls : list (string * string) }.

#[global] Instance agent : HttpAgent t := fun m u _ _ w =>
  match answers w with
  | a :: rest => (a, {| clock := clock w + 50; answers := rest; calls := calls w ++ [(m, u)] |})
  | [] => (Transport true "timed out", {| clock := clock w + 50; answers := []; calls := calls w ++ [(m, u)] |})
  end.

#[global] Instance world : RouterWorld t := {|
  router_http := agent;
  instant := clock;
  thread_sleep d w := {| clock := clock w + 1000 * d; answers := answers w; calls := calls w |};
  router_caches _ := {| part_seen := ∅; call_ids := ∅ |};
  set_router_caches _ w := w;
  acquire_permit w := w;
  release_permit w := w;
  usage_handler := None;
  pre_call_guard := None
|}.

#[global] Instance clock_laws : ClockLaws t.
Proof.
  split; [intros; cbn; lia|]. intros m u h p w. unfold http_call, router_http, world, agent.
  destruct (answers w); cbn; lia.
Qed.

(** Three documents of the provider. *)
Definition queued : string := "queued".
Definition completed : string := "completed".
Definition coding : Serde := {|
  to_vec _ := Ok "null";
  from_slice b :=
    if String.eqb b queued then Ok (VObject [("id", VString "r1"); ("status", VString "queued")])
    else if String.eqb b completed then Ok (VObject [("output_text", VString "hello"); ("status", VString "completed")])
    else Err "not JSON"
|}.
Definition readers : OaiReaders := {| read_chat_resp _ := Err "no"; read_emb_resp _ := Err "no" |}.
Definition floats : F32Json := fun _ => VNull.
Definition no_floats : ParseF32 := fun _ => None.
Definition sha : Sha256 := fun x => x.
Definition lower : UnicodeLower := to_ascii_lowercase.

Definition settings : Settings :=
  {| env_vars k := if String.eqb k "LLM_PROVIDER" then Some "openai" else None;
     resolved_config := None; scope_preference := None |}.

Definition options : LlmCallOptions :=
  {| prompt_id := "p"; opt_thread_id := None; model := Some "gpt-5"; expected_format := Text;
     max_output_tokens := Some 300%Z; Llm.temperature := None; Llm.top_p := None; reasoning_effort := None;
     timeout_secs := None |}.

Definition hi : list ChatMessage := [{| role := ChatRole.User; content := "hi" |}].
End Lab.

Existing Instances Lab.coding Lab.readers Lab.floats Lab.no_floats Lab.sha Lab.lower.

(** A call whose response is queued, asked for once more, and then there. *)
Example a_background_call :
  let s := Lab.settings in
  let w := {| Lab.clock := 0; Lab.answers := [Answer 200 (Some Lab.queued); Answer 200 (Some Lab.completed)]; Lab.calls := [] |} in
  model_chat s (new_router s) None "join" Lab.hi Lab.options w =
    (Ok "hello", {| Lab.clock := 2100; Lab.answers := [];
                    Lab.calls := [("POST", "https://api.openai.com/v1/responses");
                                  ("GET", "https://api.openai.com/v1/responses/r1")] |}).
Proof. vm_compute. reflexivity. Qed.

Lemma background_polling_ends_witness :
  exists r w', complete_background_response Lab.settings (new_router Lab.settings) "u" (200%Z, Lab.queued)
    {| Lab.clock := 0; Lab.answers := [Answer 200 (Some Lab.completed)]; Lab.calls := [] |} = (Some r, w') /\
    match r with Ok answer => ~ still_pending answer | Err _ => True end.
Proof. apply (background_polling_ends Lab.settings (new_router Lab.settings)). Defined.

Lemma requests_tell_the_conversation_witness :
  exists r, build_chat_http (pick_openai_adapter_for_model "gpt-5") (chat_request Lab.settings None Lab.hi Lab.options) = Ok r /\
    http_url r = "/v1/responses" /\
    get (http_body r) "input" = Some (VArray [responses_entry {| role := ChatRole.User; content := "hi" |}]).
Proof.
  destruct (requests_tell_the_conversation Lab.settings None Lab.hi Lab.options) as (r & H1 & _ & _ & H2); [done|].
  exists r. split; [exact H1|]. destruct H2 as (H2 & H3 & _). split; [exact H2|exact H3].
Defined.

Lemma local_calls_stay_home_witness :
  let s := {| env_vars _ := None; resolved_config := None; scope_preference := None |} in
  let w := {| Lab.clock := 0; Lab.answers := []; Lab.calls := [] |} in
  model_chat s (new_router s) None "join" Lab.hi Lab.options w = (Ok (local_chat Lab.hi), w).
Proof. apply local_calls_stay_home; [reflexivity|done]. Defined.
