(* ===== verification/Floats.v ===== *)
(** * Floating-point numbers

    Rust's [f64] and [f32] as the binary formats of the Standard Library's
    [SpecFloat], with the operations the program uses: conversion from and to
    machine integers, arithmetic, comparison, [min] and [max], [floor],
    [round], the bits of a double, and its display with one decimal. *)

From stdpp Require Import base list strings.
From Stdlib Require Import ZArith Lia SpecFloat.
From S2P Require Import Prelude.
From S2P Require Import RustStr.

Module F64.
Definition t : Type := spec_float.
Definition prec : Z := 53.
Definition emax : Z := 1024.

(** [n as f64] *)
Definition of_Z (n : Z) : t := binary_normalize prec emax n 0 false.

Definition add : t -> t -> t := SFadd prec emax.
Definition sub : t -> t -> t := SFsub prec emax.
Definition mul : t -> t -> t := SFmul prec emax.
Definition div : t -> t -> t := SFdiv prec emax.

Definition is_nan (x : t) : bool := match x with S754_nan => true | _ => false end.

Definition partial_cmp : t -> t -> option comparison := SFcompare.

(** [a.min(b)], [a.max(b)]: the other one where one is no number. *)
Definition min (a b : t) : t :=
  match partial_cmp a b with Some Gt => b | Some _ => a | None => if is_nan a then b else a end.
Definition max (a b : t) : t :=
  match partial_cmp a b with Some Lt => b | Some _ => a | None => if is_nan a then b else a end.

(** [x.floor()], and [x.round()], which takes halves away from zero. *)
Definition floor (x : t) : t :=
  match x with
  | S754_finite s m e =>
      if (0 <=? e)%Z then x
      else binary_normalize prec emax (cond_Zopp s (Zpos m) / 2 ^ (- e)) 0 s
  | _ => x
  end.

Definition round (x : t) : t :=
  match x with
  | S754_finite s m e =>
      if (0 <=? e)%Z then x
      else binary_normalize prec emax (cond_Zopp s ((2 * Zpos m + 2 ^ (- e)) / (2 * 2 ^ (- e)))) 0 s
  | _ => x
  end.

(** [x as] an integer type with the bounds [mn] and [mx]: towards zero,
    saturating, and zero for no number. *)
Definition as_int (mn mx : Z) (x : t) : Z :=
  match x with
  | S754_finite s m e =>
      let n := if (0 <=? e)%Z then (Zpos m * 2 ^ e)%Z else (Zpos m / 2 ^ (- e))%Z in
      Z.max mn (Z.min mx (cond_Zopp s n))
  | S754_infinity s => if s then mn else mx
  | _ => Z.max mn (Z.min mx 0)
  end.
Definition as_u64 : t -> Z := as_int 0 u64_max.
Definition as_isize : t -> Z := as_int (-9223372036854775808) 9223372036854775807.

(** [x.to_bits()] and [f64::from_bits]; what is no number has one code. *)
Definition to_bits (x : t) : Z :=
  let sign (s : bool) : Z := if s then (2 ^ 63)%Z else 0%Z in
  match x with
  | S754_zero s => sign s
  | S754_infinity s => (sign s + 2047 * 2 ^ 52)%Z
  | S754_nan => (2047 * 2 ^ 52 + 2 ^ 51)%Z
  | S754_finite s m e =>
      if (Zpos (digits2_pos m) =? 53)%Z
      then (sign s + (e + 1075) * 2 ^ 52 + (Zpos m - 2 ^ 52))%Z
      else (sign s + Zpos m)%Z
  end.

Definition of_bits (n : Z) : t :=
  let s := Z.testbit n 63 in
  let ex := Z.land (Z.shiftr n 52) 2047 in
  let fr := Z.land n (2 ^ 52 - 1) in
  if (ex =? 2047)%Z then (if (fr =? 0)%Z then S754_infinity s else S754_nan)
  else if (ex =? 0)%Z then match fr with Zpos m => S754_finite s m (-1074) | _ => S754_zero s end
  else match (fr + 2 ^ 52)%Z with Zpos m => S754_finite s m (ex - 1075) | _ => S754_zero s end.

(** [format!("{:.1}", x)] of a finite number: the tenths nearest to the exact
    value, the even ones at a tie. *)
Definition tenths (m : positive) (e : Z) : Z :=
  if (0 <=? e)%Z then (10 * Zpos m * 2 ^ e)%Z
  else let d := (2 ^ (- e))%Z in
       let q := (10 * Zpos m / d)%Z in
       let r := (10 * Zpos m mod d)%Z in
       match (2 * r ?= d)%Z with
       | Lt => q
       | Gt => (q + 1)%Z
       | Eq => if Z.even q then q else (q + 1)%Z
       end.

Definition fmt1 (x : t) : string :=
  let sign (s : bool) : string := if s then "-" else "" in
  match x with
  | S754_nan => "NaN"
  | S754_infinity s => sign s +:+ "inf"
  | S754_zero s => sign s +:+ "0.0"
  | S754_finite s m e =>
      let n := tenths m e in sign s +:+ fmt_Z (n / 10) +:+ "." +:+ fmt_Z (n mod 10)
  end.
End F64.

Module F32.
Definition t : Type := spec_float.
Definition partial_cmp : t -> t -> option comparison := SFcompare.
(** [x as f64]: exact, up to the shape of the mantissa. *)
Definition as_f64 (x : t) : F64.t :=
  match x with
  | S754_finite s m e => binary_round F64.prec F64.emax s m e
  | _ => x
  end.
End F32.

(** ** Laws *)

Lemma clamp_range (mn mx x : Z) : (mn <= mx)%Z -> (mn <= Z.max mn (Z.min mx x) <= mx)%Z.
Proof. lia. Qed.

Lemma as_int_range (mn mx : Z) (x : F64.t) : (mn <= mx)%Z -> (mn <= F64.as_int mn mx x <= mx)%Z.
Proof.
  intros H. destruct x as [s|s| |s m e]; cbn [F64.as_int]; try (apply clamp_range; assumption).
  destruct s; lia.
Qed.

(** A double that [SpecFloat] calls valid survives its bits. *)
Example bits_of_some_doubles :
  map F64.to_bits [F64.of_Z 0; F64.of_Z 1; F64.of_Z (-3); F64.div (F64.of_Z 1) (F64.of_Z 10)]
  = [0; 4607182418800017408; 13837309855095848960; 4591870180066957722]%Z.
Proof. vm_compute. reflexivity. Qed.

Example display_rounds_to_even :
  map (fun n => F64.fmt1 (F64.div (F64.of_Z n) (F64.of_Z 1000))) [1050; 1150; 1250; 1750; 59990]%Z
  = ["1.1"; "1.1"; "1.2"; "1.8"; "60.0"].
Proof. vm_compute. reflexivity. Qed.
