(* ===== verification/Stats.v ===== *)
(** * Statistics of discovered fields

    [src/src/core/src/discover/stats.rs]: running counts of a field's values,
    a sample of its numbers for a histogram, an estimate of its distinct
    values and a few examples.  The clock and the environment are arguments;
    SHA-256 and the text of a JSON value are parameters. *)

From stdpp Require Import base list strings.
From Stdlib Require Import ZArith Lia SpecFloat.
From S2P Require Import Prelude.
From S2P Require Import RustStr.
From S2P Require Import Json.
From S2P Require Import Text.
From S2P Require Import Redaction.
From S2P Require Import Observability.
From S2P Require Import Floats.

Definition RESERVOIR_CAPACITY : Z := 2048.
Definition HISTOGRAM_BIN_COUNT : nat := 20.
Definition MAX_EXAMPLE_VALUES : nat := 8.

Record FieldStats : Type := {
  total : Z;
  nulls : Z;
  sample_total : option Z;
  nullable_ratio : option F64.t;
  min_numeric : option F64.t;
  max_numeric : option F64.t;
  min_len : option Z;
  max_len : option Z;
  approx_distinct : option Z;
  last_updated_epoch_ms : Z;
  hll_rho_max : Z;
  histogram_bins : option (list Z);
  histogram_min : option F64.t;
  histogram_max : option F64.t;
  numeric_samples : list F64.t;
  examples : list string
}.

Definition default_stats : FieldStats := {|
  total := 0; nulls := 0; sample_total := None; nullable_ratio := None; min_numeric := None;
  max_numeric := None; min_len := None; max_len := None; approx_distinct := None;
  last_updated_epoch_ms := 0; hll_rho_max := 0; histogram_bins := None; histogram_min := None;
  histogram_max := None; numeric_samples := []; examples := [] |}.

(** [n.as_f64()] *)
Definition number_f64 (n : Number) : F64.t :=
  match n with PosInt n | NegInt n => F64.of_Z n | Float code => F64.of_bits code end.

(** [buf[idx]] is out of bounds where there is no such element; so is the
    remainder of a division by zero. *)
Definition reservoir_push (buf : list F64.t) (seen_non_null : Z) (val : F64.t) (capacity : Z)
  : option (list F64.t) :=
  if (Z.of_nat (length buf) <? capacity)%Z then Some (buf ++ [val])
  else if (capacity =? 0)%Z then None
  else
    let idx := Z.to_nat (wrapping_add usize_max (wrapping_mul usize_max seen_non_null 1103515245) 12345 mod capacity) in
    match buf !! idx with Some _ => Some (<[idx := val]> buf) | None => None end.

Definition push_example (val : string) (l : list string) : list string :=
  if MAX_EXAMPLE_VALUES <=? length l then l
  else let v := truncate_chars val 64 in
       if existsb (String.eqb v) l then l else l ++ [v].

(** The value of a hexadecimal digit. *)
Definition hex_value (a : Ascii.ascii) : Z :=
  let n := Z.of_nat (Ascii.nat_of_ascii a) in
  if ((48 <=? n) && (n <=? 57))%Z then (n - 48)%Z
  else if ((97 <=? n) && (n <=? 102))%Z then (n - 87)%Z else 0%Z.

Fixpoint hex_number (acc : Z) (s : string) : Z :=
  match s with EmptyString => acc | String a s => hex_number (16 * acc + hex_value a) s end.

(** [u64::from_be_bytes] of the first eight bytes of a digest. *)
Definition digest_u64 (hex : string) : Z := hex_number 0 (string_take 16 hex).

Definition leading_zeros (x : Z) : Z := if (x =? 0)%Z then 64%Z else (63 - Z.log2 x)%Z.

Section stats.
Context `{HSha : !Sha256, HD : !JsonDisplay}.

Definition observe_hll (value : Value) (rho : Z) : Z :=
  let leading := cast u8_max (leading_zeros (digest_u64 (sha256_hex_str (json_text value)))) in
  if (rho <? leading)%Z then leading else rho.

(** The fields that a number, a string or a truth value changes; [None] when
    the update panics. *)
Definition update_number (n : Number) (value : Value) (st : FieldStats) : option FieldStats :=
  let f := number_f64 n in
  if (total st <? nulls st)%Z then None else
  match reservoir_push (numeric_samples st) (total st - nulls st) f RESERVOIR_CAPACITY with
  | None => None
  | Some samples => Some
      {| total := total st; nulls := nulls st; sample_total := sample_total st;
         nullable_ratio := nullable_ratio st;
         min_numeric := Some (from_option (fun v => F64.min v f) f (min_numeric st));
         max_numeric := Some (from_option (fun v => F64.max v f) f (max_numeric st));
         min_len := min_len st; max_len := max_len st; approx_distinct := approx_distinct st;
         last_updated_epoch_ms := last_updated_epoch_ms st; hll_rho_max := observe_hll value (hll_rho_max st);
         histogram_bins := histogram_bins st; histogram_min := histogram_min st;
         histogram_max := histogram_max st; numeric_samples := samples;
         examples := push_example (json_text (VNumber n)) (examples st) |}
  end.

Definition observe_scalar (value : Value) (example : string) (len : option Z) (st : FieldStats) : FieldStats :=
  {| total := total st; nulls := nulls st; sample_total := sample_total st;
     nullable_ratio := nullable_ratio st; min_numeric := min_numeric st; max_numeric := max_numeric st;
     min_len := match len with Some n => Some (from_option (Z.min n) n (min_len st)) | None => min_len st end;
     max_len := match len with Some n => Some (from_option (Z.max n) n (max_len st)) | None => max_len st end;
     approx_distinct := approx_distinct st; last_updated_epoch_ms := last_updated_epoch_ms st;
     hll_rho_max := observe_hll value (hll_rho_max st); histogram_bins := histogram_bins st;
     histogram_min := histogram_min st; histogram_max := histogram_max st;
     numeric_samples := numeric_samples st; examples := push_example example (examples st) |}.

Definition count_value (null : bool) (st : FieldStats) : FieldStats :=
  let n := sat_add u64_max (total st) 1 in
  {| total := n; nulls := if null then sat_add u64_max (nulls st) 1 else nulls st; sample_total := Some n;
     nullable_ratio := nullable_ratio st; min_numeric := min_numeric st; max_numeric := max_numeric st;
     min_len := min_len st; max_len := max_len st; approx_distinct := approx_distinct st;
     last_updated_epoch_ms := last_updated_epoch_ms st; hll_rho_max := hll_rho_max st;
     histogram_bins := histogram_bins st; histogram_min := histogram_min st; histogram_max := histogram_max st;
     numeric_samples := numeric_samples st; examples := examples st |}.

Definition set_last_updated (now : Z) (st : FieldStats) : FieldStats :=
  {| total := total st; nulls := nulls st; sample_total := sample_total st;
     nullable_ratio := nullable_ratio st; min_numeric := min_numeric st; max_numeric := max_numeric st;
     min_len := min_len st; max_len := max_len st; approx_distinct := approx_distinct st;
     last_updated_epoch_ms := now; hll_rho_max := hll_rho_max st;
     histogram_bins := histogram_bins st; histogram_min := histogram_min st; histogram_max := histogram_max st;
     numeric_samples := numeric_samples st; examples := examples st |}.

Definition update_value (value : Value) (now : Z) (st : FieldStats) : option FieldStats :=
  match value with
  | VNull => Some (count_value true st)
  | VNumber n => set_last_updated now <$> update_number n value (count_value false st)
  | VString s =>
      Some (set_last_updated now (observe_scalar value s (Some (Z.of_nat (String.length s))) (count_value false st)))
  | VBool b =>
      Some (set_last_updated now (observe_scalar value (if b then "true" else "false") None (count_value false st)))
  | VArray _ | VObject _ => Some (set_last_updated now (count_value false st))
  end.

(** A field's values, each with the time of its update. *)
Fixpoint update_values (vs : list (Value * Z)) (st : FieldStats) : option FieldStats :=
  match vs with
  | [] => Some st
  | (v, now) :: vs => match update_value v now st with Some st => update_values vs st | None => None end
  end.
End stats.

(** [(2f64.powf(r) / 0.77351f64).round() as u64]; powers of two are exact. *)
Definition distinct_estimate (r : Z) : Z :=
  F64.as_u64 (F64.round (F64.div (F64.of_Z (2 ^ r)) (F64.div (F64.of_Z 77351) (F64.of_Z 100000)))).

(** The bin of a value. *)
Definition bin_index (min_v width v : F64.t) : nat :=
  let idx := F64.as_isize (F64.floor (F64.div (F64.sub v min_v) width)) in
  let idx := if (idx <? 0)%Z then 0%Z else idx in
  Z.to_nat (if (Z.of_nat HISTOGRAM_BIN_COUNT <=? idx)%Z then (Z.of_nat HISTOGRAM_BIN_COUNT - 1)%Z else idx).

(** [counts[idx] = counts[idx].saturating_add(1)], a panic out of bounds. *)
Fixpoint count_bins (min_v width : F64.t) (samples : list F64.t) (counts : list Z) : option (list Z) :=
  match samples with
  | [] => Some counts
  | v :: samples =>
      let idx := bin_index min_v width v in
      match counts !! idx with
      | Some c => count_bins min_v width samples (<[idx := sat_add u64_max c 1]> counts)
      | None => None
      end
  end.

(** [(c as f64 * scale).round() as u64] *)
Definition scale_count (scale : F64.t) (c : Z) : Z := F64.as_u64 (F64.round (F64.mul (F64.of_Z c) scale)).

Definition histogram (min_v max_v : F64.t) (non_null : Z) (samples : list F64.t) : option (list Z) :=
  let counts := replicate HISTOGRAM_BIN_COUNT 0%Z in
  match F64.partial_cmp min_v max_v with
  | Some Eq => Some (<[0%nat := non_null]> counts)
  | _ =>
      let width := F64.div (F64.sub max_v min_v) (F64.of_Z (Z.of_nat HISTOGRAM_BIN_COUNT)) in
      match count_bins min_v width samples counts with
      | None => None
      | Some counts =>
          let sample_n := Z.of_nat (length samples) in
          Some (if (0 <? sample_n)%Z
                then map (scale_count (F64.div (F64.of_Z non_null) (F64.of_Z sample_n))) counts
                else counts)
      end
  end.

Definition infinity (neg : bool) : F64.t := S754_infinity neg.

(** [enabled] is [stats_histogram_enabled()]; [None] when it panics. *)
Definition finalize (enabled : bool) (st : FieldStats) : option FieldStats :=
  let denom := Z.max (total st) 1 in
  let non_null := sat_sub (total st) (nulls st) in
  let estimate := distinct_estimate (hll_rho_max st) in
  let finish bins mn mx :=
    {| total := total st; nulls := nulls st; sample_total := sample_total st;
       nullable_ratio := Some (F64.div (F64.of_Z (nulls st)) (F64.of_Z denom));
       min_numeric := min_numeric st; max_numeric := max_numeric st; min_len := min_len st; max_len := max_len st;
       approx_distinct := if ((0 <? non_null) && (0 <? estimate))%Z then Some estimate else approx_distinct st;
       last_updated_epoch_ms := last_updated_epoch_ms st; hll_rho_max := hll_rho_max st;
       histogram_bins := bins; histogram_min := mn; histogram_max := mx;
       numeric_samples := []; examples := examples st |} in
  if enabled && (0 <? non_null)%Z && negb (bool_decide (numeric_samples st = []))
  then
    let min_v := default (fold_left F64.min (numeric_samples st) (infinity false)) (min_numeric st) in
    let max_v := default (fold_left F64.max (numeric_samples st) (infinity true)) (max_numeric st) in
    match histogram min_v max_v non_null (numeric_samples st) with
    | Some counts => Some (finish (Some counts) (Some min_v) (Some max_v))
    | None => None
    end
  else Some (finish (histogram_bins st) (histogram_min st) (histogram_max st)).

(** [stats_histogram_enabled()] *)
Definition stats_histogram_enabled `{!UnicodeLower} (env : string -> option string) : bool :=
  env_truthy env "STATS_HISTOGRAM_ENABLED".

(** ** The bins of the histogram *)

Lemma bin_index_bound (min_v width v : F64.t) : bin_index min_v width v < HISTOGRAM_BIN_COUNT.
Proof.
  unfold bin_index. set (i := F64.as_isize _).
  destruct (i <? 0)%Z eqn:E1; [vm_compute; lia|].
  destruct (Z.of_nat HISTOGRAM_BIN_COUNT <=? i)%Z eqn:E2; [vm_compute; lia|].
  apply Z.leb_gt in E2. apply Z.ltb_ge in E1. lia.
Qed.

Definition sum_Z (l : list Z) : Z := fold_right Z.add 0%Z l.

Lemma sum_cons (x : Z) (l : list Z) : sum_Z (x :: l) = (x + sum_Z l)%Z.
Proof. done. Qed.

Lemma sum_Z_insert (l : list Z) (i : nat) (c d : Z) :
  l !! i = Some c -> sum_Z (<[i := d]> l) = (sum_Z l + (d - c))%Z.
Proof.
  revert i. induction l as [|x l IH]; intros [|i] H; try discriminate; cbn in H.
  - injection H as ->. change (<[0 := d]> (c :: l)) with (d :: l). rewrite !sum_cons. lia.
  - change (<[S i := d]> (x :: l)) with (x :: <[i := d]> l). rewrite !sum_cons. specialize (IH _ H). lia.
Qed.

Lemma sum_ge (l : list Z) (i : nat) (c : Z) : Forall (Z.le 0) l -> l !! i = Some c -> (0 <= c <= sum_Z l)%Z.
Proof.
  revert i. induction l as [|x l IH]; intros i HF H; [discriminate|].
  apply Forall_cons in HF as [Hx HF].
  assert (0 <= sum_Z l)%Z as Hs.
  { clear -HF. induction HF as [|y l Hy _ IHl]; rewrite ?sum_cons; [done|lia]. }
  rewrite sum_cons. destruct i as [|i]; cbn in H.
  - injection H as ->. lia.
  - specialize (IH _ HF H). lia.
Qed.

(** Every sample is counted once. *)
Lemma count_bins_total (min_v width : F64.t) (samples : list F64.t) (counts : list Z) :
  length counts = HISTOGRAM_BIN_COUNT -> Forall (Z.le 0) counts ->
  (sum_Z counts + Z.of_nat (length samples) <= u64_max)%Z ->
  exists counts', count_bins min_v width samples counts = Some counts'
    /\ length counts' = HISTOGRAM_BIN_COUNT /\ Forall (Z.le 0) counts'
    /\ sum_Z counts' = (sum_Z counts + Z.of_nat (length samples))%Z.
Proof.
  revert counts. induction samples as [|v samples IH]; intros counts HL HF HM; cbn [count_bins].
  - exists counts. cbn. split_and!; [done..|lia].
  - destruct (lookup_lt_is_Some_2 counts (bin_index min_v width v)) as [c Hc];
      [rewrite HL; apply bin_index_bound|].
    rewrite Hc. pose proof (sum_ge _ _ _ HF Hc). cbn [length] in HM.
    assert (sat_add u64_max c 1 = c + 1)%Z as Es by (unfold sat_add; lia).
    rewrite Es. pose proof (sum_Z_insert _ _ _ (c + 1) Hc) as Hs.
    destruct (IH (<[bin_index min_v width v := (c + 1)%Z]> counts)) as (cs & E & H1 & H2 & H3).
    + by rewrite length_insert.
    + apply Forall_insert; [done|lia].
    + lia.
    + exists cs. cbn [length]. split_and!; [done..|lia].
Qed.

Lemma histogram_total (min_v max_v : F64.t) (non_null : Z) (samples : list F64.t) :
  (Z.of_nat (length samples) <= u64_max)%Z ->
  exists counts, histogram min_v max_v non_null samples = Some counts /\ length counts = HISTOGRAM_BIN_COUNT.
Proof.
  intros HM. unfold histogram.
  destruct (count_bins_total min_v
    (F64.div (F64.sub max_v min_v) (F64.of_Z (Z.of_nat HISTOGRAM_BIN_COUNT))) samples
    (replicate HISTOGRAM_BIN_COUNT 0%Z)) as (cs & E & H1 & _ & _).
  - apply length_replicate.
  - apply Forall_replicate. lia.
  - change (sum_Z (replicate HISTOGRAM_BIN_COUNT 0%Z)) with 0%Z. lia.
  - rewrite E. destruct (F64.partial_cmp min_v max_v) as [[]|];
      eexists; (split; [done|]); try (by destruct (0 <? _)%Z; rewrite ?length_map).
    by rewrite length_insert, length_replicate.
Qed.

(** ** The invariant *)

Record stats_ok (st : FieldStats) : Prop := {
  ok_counts : (0 <= nulls st <= total st)%Z /\ (total st <= u64_max)%Z;
  ok_samples : (Z.of_nat (length (numeric_samples st)) <= RESERVOIR_CAPACITY)%Z;
  ok_examples : length (examples st) <= MAX_EXAMPLE_VALUES /\ NoDup (examples st)
    /\ Forall (fun e => char_count e <= 64) (examples st);
  ok_rho : (0 <= hll_rho_max st <= 64)%Z
}.

Lemma default_stats_ok : stats_ok default_stats.
Proof. split; cbn; repeat split; try constructor; try lia; vm_compute; congruence. Qed.

Lemma hex_number_nonneg (s : string) (acc : Z) : (0 <= acc)%Z ->
  (0 <= hex_number acc s < (acc + 1) * 16 ^ Z.of_nat (String.length s))%Z.
Proof.
  revert acc. induction s as [|a s IH]; intros acc Ha; cbn [hex_number String.length]; [rewrite Z.pow_0_r; lia|].
  assert (0 <= hex_value a <= 15)%Z as Hv.
  { unfold hex_value. repeat match goal with |- context [if ?b then _ else _] => destruct b eqn:? end;
      rewrite ?andb_true_iff, ?Z.leb_le in *; lia. }
  destruct (IH (16 * acc + hex_value a)%Z ltac:(lia)) as [H1 H2]. split; [done|].
  rewrite Nat2Z.inj_succ, Z.pow_succ_r by lia.
  eapply Z.lt_le_trans; [exact H2|]. pose proof (Z.pow_nonneg 16 (Z.of_nat (String.length s)) ltac:(lia)). nia.
Qed.

Lemma string_take_le (n : nat) (s : string) : String.length (string_take n s) <= n.
Proof. revert s. induction n as [|n IH]; intros [|a s]; cbn; try lia. specialize (IH s). lia. Qed.

Lemma digest_u64_range (hex : string) : in_range u64_max (digest_u64 hex).
Proof.
  unfold digest_u64, in_range. destruct (hex_number_nonneg (string_take 16 hex) 0 ltac:(lia)) as [H1 H2].
  split; [done|].
  assert (16 ^ Z.of_nat (String.length (string_take 16 hex)) <= 16 ^ 16)%Z.
  { apply Z.pow_le_mono_r; [lia|]. pose proof (string_take_le 16 hex). lia. }
  change u64_max with (16 ^ 16 - 1)%Z. lia.
Qed.

Lemma leading_zeros_range (x : Z) : in_range u64_max x -> (0 <= leading_zeros x <= 64)%Z.
Proof.
  unfold in_range, leading_zeros. intros H. destruct (x =? 0)%Z eqn:E; [lia|]. apply Z.eqb_neq in E.
  pose proof (Z.log2_nonneg x). assert (Z.log2 x < 64)%Z by (apply Z.log2_lt_pow2; unfold u64_max in *; lia). lia.
Qed.

Lemma reservoir_push_ok (buf : list F64.t) (seen : Z) (v : F64.t) (cap : Z) :
  (Z.of_nat (length buf) <= cap)%Z -> (0 < cap)%Z ->
  exists buf', reservoir_push buf seen v cap = Some buf' /\ (Z.of_nat (length buf') <= cap)%Z.
Proof.
  intros HL Hc. unfold reservoir_push.
  destruct (Z.of_nat (length buf) <? cap)%Z eqn:E.
  - apply Z.ltb_lt in E. eexists. split; [done|]. rewrite length_app. cbn. lia.
  - apply Z.ltb_ge in E. rewrite (proj2 (Z.eqb_neq _ _)) by lia.
    set (w := wrapping_add _ _ _). pose proof (Z.mod_pos_bound w cap Hc).
    destruct (lookup_lt_is_Some_2 buf (Z.to_nat (w mod cap))) as [x Hx]; [lia|].
    rewrite Hx. eexists. split; [done|]. rewrite length_insert. lia.
Qed.

(** A capacity of zero panics: the remainder is taken before the guard. *)
Lemma reservoir_of_nothing_panics (seen : Z) (v : F64.t) : reservoir_push [] seen v 0 = None.
Proof. done. Qed.

Lemma push_example_ok (val : string) (l : list string) :
  length l <= MAX_EXAMPLE_VALUES -> NoDup l -> Forall (fun e => char_count e <= 64) l ->
  length (push_example val l) <= MAX_EXAMPLE_VALUES /\ NoDup (push_example val l)
  /\ Forall (fun e => char_count e <= 64) (push_example val l).
Proof.
  intros H1 H2 H3. unfold push_example. destruct (MAX_EXAMPLE_VALUES <=? length l) eqn:E; [done|].
  apply Nat.leb_gt in E. destruct (existsb _ l) eqn:Ex; [done|].
  split_and!.
  - rewrite length_app. cbn. lia.
  - apply NoDup_app. split_and!; [done| |apply NoDup_singleton].
    intros x Hx Hx'%list_elem_of_singleton. subst x.
    rewrite <- not_true_iff_false, existsb_exists in Ex. apply Ex. eexists. split; [by apply list_elem_of_In|apply String.eqb_refl].
  - apply Forall_app. split; [done|]. apply Forall_singleton, char_count_truncate.
Qed.

Section laws.
Context `{HSha : !Sha256, HD : !JsonDisplay}.

Lemma observe_hll_range (v : Value) (rho : Z) : (0 <= rho <= 64)%Z -> (0 <= observe_hll v rho <= 64)%Z.
Proof.
  intros H. unfold observe_hll. set (d := digest_u64 _).
  pose proof (leading_zeros_range d (digest_u64_range _)).
  assert (cast u8_max (leading_zeros d) = leading_zeros d) as ->
    by (unfold cast, u8_max; rewrite Z.mod_small; lia).
  destruct (rho <? _)%Z; lia.
Qed.

Lemma count_value_ok (null : bool) (st : FieldStats) : stats_ok st -> stats_ok (count_value null st).
Proof.
  intros [[H1 H2] H3 H4 H5]. split; cbn; [|done..].
  unfold sat_add. destruct null; lia.
Qed.

Lemma set_last_updated_ok (now : Z) (st : FieldStats) : stats_ok st -> stats_ok (set_last_updated now st).
Proof. intros [H1 H2 H3 H4]. by split. Qed.

Lemma update_value_ok (v : Value) (now : Z) (st : FieldStats) :
  stats_ok st -> exists st', update_value v now st = Some st' /\ stats_ok st'.
Proof.
  intros H. pose proof (count_value_ok false st H) as Hc.
  destruct v as [|b|n|s|l|m]; cbn [update_value];
    try (eexists; split; [done|]; repeat first [apply set_last_updated_ok | apply count_value_ok]; assumption).
  1,3: (eexists; split; [done|]; apply set_last_updated_ok; destruct Hc as [C1 C2 (C3 & C4 & C5) C6]; split; cbn;
    [done|done|by apply push_example_ok|by apply observe_hll_range]).
  destruct Hc as [C1 C2 (C3 & C4 & C5) C6]. unfold update_number.
  rewrite (proj2 (Z.ltb_ge _ _)) by (cbn in *; lia).
  destruct (reservoir_push_ok (numeric_samples (count_value false st))
    (total (count_value false st) - nulls (count_value false st)) (number_f64 n) RESERVOIR_CAPACITY C2)
    as (buf & E & Hb); [reflexivity|].
  rewrite E. eexists. split; [done|]. apply set_last_updated_ok. split; cbn;
    [done|done|by apply push_example_ok|by apply observe_hll_range].
Qed.

Lemma update_values_ok (vs : list (Value * Z)) (st : FieldStats) :
  stats_ok st -> exists st', update_values vs st = Some st' /\ stats_ok st'.
Proof.
  revert st. induction vs as [|[v now] vs IH]; intros st H; cbn [update_values]; [by eexists|].
  destruct (update_value_ok v now st H) as (st' & E & H'). rewrite E. by apply IH.
Qed.

Lemma finalize_ok (enabled : bool) (st : FieldStats) : stats_ok st -> exists st', finalize enabled st = Some st' /\ stats_ok st'.
Proof.
  intros [H1 H2 H3 H4]. unfold finalize. destruct (enabled && _ && _).
  - edestruct histogram_total as (cs & E & _); [|rewrite E; eexists; split; [done|]; split; cbn; try done; lia].
    unfold RESERVOIR_CAPACITY, u64_max in *. lia.
  - eexists; split; [done|]; split; cbn; try done; lia.
Qed.
End laws.

(** The estimate is positive for every observable count of zeros. *)
Lemma distinct_estimate_range (r : Z) : (0 <= r <= 64)%Z -> (0 < distinct_estimate r <= u64_max)%Z.
Proof.
  intros H. assert (forallb (fun r => ((0 <? distinct_estimate (Z.of_nat r))
    && (distinct_estimate (Z.of_nat r) <=? u64_max))%Z) (seq 0 65) = true) as HF by (vm_compute; reflexivity).
  rewrite forallb_forall in HF. specialize (HF (Z.to_nat r) ltac:(apply in_seq; lia)).
  rewrite Z2Nat.id, andb_true_iff in HF by lia. lia.
Qed.

(** ** The reservoir *)

Definition slot (seen : Z) : nat :=
  Z.to_nat (wrapping_add usize_max (wrapping_mul usize_max seen 1103515245) 12345 mod RESERVOIR_CAPACITY).

(** The wrapped product, modulo the capacity, is the product. *)
Lemma slot_mod (seen : Z) : slot seen = Z.to_nat ((seen * 1103515245 + 12345) mod RESERVOIR_CAPACITY).
Proof.
  unfold slot, wrapping_add, wrapping_mul, cast. f_equal.
  change (usize_max + 1)%Z with (2 ^ 53 * RESERVOIR_CAPACITY)%Z.
  set (C := RESERVOIR_CAPACITY). assert (0 < C)%Z by reflexivity.
  rewrite Z.add_mod_idemp_l by lia.
  rewrite (Z.mul_comm (2 ^ 53)), Z.rem_mul_r by lia.
  rewrite Z.add_mod, (Z.mul_comm C), Z.mod_mul, Z.add_0_r by lia. by rewrite !Z.mod_mod by lia.
Qed.

Lemma slot_bound (seen : Z) : slot seen < Z.to_nat RESERVOIR_CAPACITY.
Proof.
  unfold slot. pose proof (Z.mod_pos_bound
    (wrapping_add usize_max (wrapping_mul usize_max seen 1103515245) 12345) RESERVOIR_CAPACITY ltac:(reflexivity)).
  apply Z2Nat.inj_lt; lia.
Qed.

(** The multiplier is odd: two numbers less than the capacity apart have
    different slots. *)
Lemma slot_inj (a b : Z) : (Z.abs (a - b) < RESERVOIR_CAPACITY)%Z -> slot a = slot b -> a = b.
Proof.
  intros Hd. rewrite !slot_mod. intros H%Z2Nat.inj; try (apply Z.mod_pos_bound; reflexivity).
  assert ((RESERVOIR_CAPACITY | 1103515245 * (a - b))%Z) as Hdiv.
  { apply Z.mod_divide; [done|].
    replace (1103515245 * (a - b))%Z with ((a * 1103515245 + 12345) - (b * 1103515245 + 12345))%Z by lia.
    rewrite Zminus_mod, H, Z.sub_diag. done. }
  apply Z.gauss in Hdiv; [|reflexivity].
  destruct Hdiv as [k Hk]. unfold RESERVOIR_CAPACITY in *. assert (k = 0)%Z by nia. lia.
Qed.

(** What the buffer holds once it is full: each of the latest values that has
    been written over the first ones is at its slot. *)
Record reservoir_state (l buf : list F64.t) : Prop := {
  rs_full : length buf = Z.to_nat RESERVOIR_CAPACITY;
  rs_latest i : Z.to_nat RESERVOIR_CAPACITY <= i -> length l < i + 1 + Z.to_nat RESERVOIR_CAPACITY -> i < length l ->
    buf !! slot (Z.of_nat (S i)) = l !! i
}.

Lemma reservoir_push_small (l : list F64.t) (seen : Z) (v : F64.t) :
  length l < Z.to_nat RESERVOIR_CAPACITY -> reservoir_push l seen v RESERVOIR_CAPACITY = Some (l ++ [v]).
Proof. intros H. unfold reservoir_push. by rewrite (proj2 (Z.ltb_lt _ _)) by lia. Qed.

Lemma reservoir_push_full (buf : list F64.t) (seen : Z) (v : F64.t) :
  length buf = Z.to_nat RESERVOIR_CAPACITY ->
  reservoir_push buf seen v RESERVOIR_CAPACITY = Some (<[slot seen := v]> buf).
Proof.
  intros H. unfold reservoir_push. rewrite (proj2 (Z.ltb_ge _ _)) by lia.
  change (RESERVOIR_CAPACITY =? 0)%Z with false. cbv iota.
  fold (slot seen). destruct (lookup_lt_is_Some_2 buf (slot seen)) as [x ->]; [|done].
  rewrite H. apply slot_bound.
Qed.

Lemma reservoir_state_init (l : list F64.t) :
  length l = Z.to_nat RESERVOIR_CAPACITY -> reservoir_state l l.
Proof. intros H. split; [done|]. intros i H1 H2 H3. lia. Qed.

Lemma reservoir_state_step (l buf : list F64.t) (v : F64.t) :
  reservoir_state l buf -> reservoir_state (l ++ [v]) (<[slot (Z.of_nat (S (length l))) := v]> buf).
Proof.
  intros [H1 H2]. split; [by rewrite length_insert|]. intros i Hi Hi2 Hi3. rewrite length_app in Hi2, Hi3. cbn in Hi2, Hi3.
  destruct (decide (i = length l)) as [->|Hne].
  - rewrite list_lookup_insert_eq by (rewrite H1; apply slot_bound). by rewrite list_lookup_middle.
  - rewrite list_lookup_insert_ne.
    + rewrite H2 by lia. by rewrite lookup_app_l by lia.
    + intros Hs%slot_inj; [lia|]. lia.
Qed.

(** Values in, samples out. *)
Lemma reservoir_state_latest (l buf : list F64.t) :
  reservoir_state l buf -> 2 * Z.to_nat RESERVOIR_CAPACITY <= length l ->
  buf ≡ₚ last_n (Z.to_nat RESERVOIR_CAPACITY) l.
Proof.
  intros [H1 H2] HL. symmetry. set (cap := Z.to_nat RESERVOIR_CAPACITY) in *.
  assert (length (last_n cap l) = cap) as Hn by (rewrite last_n_length; lia).
  apply Permutation_inj. split; [lia|].
  exists (fun i => if decide (i < cap) then slot (Z.of_nat (S (length l - cap + i))) else i). split.
  - intros i j. pose proof (slot_bound (Z.of_nat (S (length l - cap + i)))) as Bi.
    pose proof (slot_bound (Z.of_nat (S (length l - cap + j)))) as Bj. fold cap in Bi, Bj.
    destruct (decide (i < cap)), (decide (j < cap)); intros E; [|lia..].
    apply slot_inj in E; lia.
  - intros i. destruct (decide (i < cap)).
    + rewrite H2 by lia. unfold last_n. by rewrite lookup_drop.
    + rewrite !lookup_ge_None_2 by lia. done.
Qed.

Section samples.
Context `{HSha : !Sha256, HD : !JsonDisplay}.

(** A field that has only seen the numbers [l]. *)
Record saw_numbers (l : list F64.t) (st : FieldStats) : Prop := {
  sn_total : total st = Z.of_nat (length l);
  sn_nulls : nulls st = 0%Z;
  sn_few : length l <= Z.to_nat RESERVOIR_CAPACITY -> numeric_samples st = l;
  sn_many : Z.to_nat RESERVOIR_CAPACITY <= length l -> reservoir_state l (numeric_samples st)
}.

Lemma update_number_step (n : Number) (now : Z) (l : list F64.t) (st : FieldStats) :
  (Z.of_nat (S (length l)) <= u64_max)%Z -> saw_numbers l st ->
  exists st', update_value (VNumber n) now st = Some st' /\ saw_numbers (l ++ [number_f64 n]) st'.
Proof.
  intros Hmax [Ht Hn Hf Hm]. cbn [update_value]. unfold update_number.
  cbn [count_value total nulls numeric_samples].
  assert (sat_add u64_max (total st) 1 = Z.of_nat (S (length l))) as -> by (unfold sat_add; lia).
  rewrite Hn, Z.sub_0_r. rewrite (proj2 (Z.ltb_ge _ _)) by lia.
  assert (exists buf, reservoir_push (numeric_samples st) (Z.of_nat (S (length l))) (number_f64 n) RESERVOIR_CAPACITY
      = Some buf
    /\ (S (length l) <= Z.to_nat RESERVOIR_CAPACITY -> buf = l ++ [number_f64 n])
    /\ (Z.to_nat RESERVOIR_CAPACITY <= S (length l) -> reservoir_state (l ++ [number_f64 n]) buf))
    as (buf & E & H1 & H2).
  { destruct (decide (length l < Z.to_nat RESERVOIR_CAPACITY)) as [Hlt|Hge].
    - rewrite (Hf ltac:(lia)), reservoir_push_small by done. eexists. split_and!; [done|done|].
      intros. apply reservoir_state_init. rewrite length_app. cbn. lia.
    - specialize (Hm ltac:(lia)). rewrite reservoir_push_full by apply Hm.
      eexists. split_and!; [done|lia|]. intros _. by apply reservoir_state_step. }
  rewrite E. eexists. split; [done|]. split; cbn; rewrite ?length_app; cbn; try done.
  - lia.
  - intros. apply H1. lia.
  - intros. apply H2. lia.
Qed.

Lemma update_numbers (ns : list (Number * Z)) (l : list F64.t) (st : FieldStats) :
  (Z.of_nat (length l + length ns) <= u64_max)%Z -> saw_numbers l st ->
  exists st', update_values (map (fun p => (VNumber p.1, p.2)) ns) st = Some st'
    /\ saw_numbers (l ++ map (fun p => number_f64 p.1) ns) st'.
Proof.
  revert l st. induction ns as [|[n now] ns IH]; intros l st Hmax H; cbn [map update_values].
  - rewrite app_nil_r. by eexists.
  - cbn [length] in Hmax. destruct (update_number_step n now l st) as (st' & E & H'); [lia|done|].
    cbn [fst snd]. rewrite E. destruct (IH (l ++ [number_f64 n]) st' ltac:(rewrite length_app; cbn [length]; lia) H') as (st'' & E' & H'').
    exists st''. split; [done|]. by rewrite <- app_assoc in H''.
Qed.

(** C36: Whatever values a field has, with whatever clock: no update panics, the
    null values are at most the values, at most 2048 numbers and eight distinct
    examples of at most 64 characters are kept, and finishing, with or without
    a histogram, keeps all this, drops the numbers and leaves a histogram of
    twenty bins where it makes one. *)
Theorem field_statistics_are_well_formed (vs : list (Value * Z)) (enabled : bool) :
  exists st st',
    update_values vs default_stats = Some st /\ stats_ok st
    /\ finalize enabled st = Some st' /\ stats_ok st' /\ numeric_samples st' = []
    /\ (forall bins, histogram_bins st' = Some bins -> histogram_bins st = None ->
          enabled = true /\ length bins = HISTOGRAM_BIN_COUNT).
Proof.
  destruct (update_values_ok vs _ default_stats_ok) as (st & E & H).
  destruct (finalize_ok enabled st H) as (st' & E' & H').
  exists st, st'. split_and!; try done; revert E'; unfold finalize; destruct (enabled && _ && _) eqn:C.
  - destruct (histogram _ _ _ _); [|done]. by intros [= <-].
  - by intros [= <-].
  - edestruct histogram_total as (cs & Ec & Hc); [|rewrite Ec; intros [= <-] bins [= <-] _].
    + destruct H as [_ H _ _]. unfold RESERVOIR_CAPACITY, u64_max in *. lia.
    + apply andb_true_iff in C as [[C _]%andb_true_iff _]. done.
  - intros [= <-] bins Hb Hn. cbn in Hb. congruence.
Qed.

(** The sample a histogram is made of is not spread over the values of the
    field: of at least 4096 numbers it holds the last 2048, each once.  The
    slot of a number is an affine function of its position whose multiplier
    is odd, so 2048 numbers in a row replace every slot. *)
Theorem the_reservoir_keeps_the_latest (ns : list (Number * Z)) :
  4096 <= length ns -> (Z.of_nat (length ns) <= u64_max)%Z ->
  exists st, update_values (map (fun p => (VNumber p.1, p.2)) ns) default_stats = Some st
    /\ numeric_samples st ≡ₚ last_n 2048 (map (fun p => number_f64 p.1) ns).
Proof.
  intros H1 H2. destruct (update_numbers ns [] default_stats) as (st & E & [Ht Hn Hf Hm]).
  - exact H2.
  - split; try done. intros H. exfalso. revert H. vm_compute. lia.
  - exists st. split; [exact E|]. cbn [app] in Hm. rewrite length_map in Hm.
    change 2048 with (Z.to_nat RESERVOIR_CAPACITY).
    assert (2 * Z.to_nat RESERVOIR_CAPACITY <= length ns) by (unfold RESERVOIR_CAPACITY; lia).
    apply reservoir_state_latest; [apply Hm; lia|rewrite length_map; lia].
Qed.
End samples.

Example the_reservoir_keeps_the_latest_witness :
  let _ : Sha256 := fun s => s in
  let _ : JsonDisplay := fun _ => EmptyString in
  let ns := replicate 4096 (PosInt 3, 0%Z) ++ replicate 2048 (PosInt 7, 1%Z) in
  exists st, update_values (map (fun p => (VNumber p.1, p.2)) ns) default_stats = Some st
    /\ numeric_samples st ≡ₚ last_n 2048 (map (fun p => number_f64 p.1) ns).
Proof.
  intros HSha HD ns.
  apply (the_reservoir_keeps_the_latest ns); unfold ns; rewrite length_app, !length_replicate.
  - apply Nat.leb_le. vm_compute. reflexivity.
  - apply Z.leb_le. vm_compute. reflexivity.
Defined.
