(* ===== verification/Utf8.v ===== *)
(** * Decoding UTF-8

    [String::from_utf8_lossy] of the Rust standard library: each maximal
    prefix of an ill-formed sequence becomes one replacement character.  The
    text is well placed: no continuation byte stands at its start or right
    after an ASCII byte. *)

From stdpp Require Import base list strings.
From Stdlib Require Import ZArith Lia Ascii.
From S2P Require Import Prelude.
From S2P Require Import RustStr.

Definition REPLACEMENT : string := bytes [239; 191; 189].

Definition between (lo hi : nat) (a : ascii) : bool :=
  let n := nat_of_ascii a in (lo <=? n) && (n <=? hi).

Definition is_ascii (a : ascii) : bool := nat_of_ascii a <? 128.

(** The bounds of the byte after a head byte, and how many follow that one. *)
Definition after_head (a : ascii) : option (nat * nat * nat) :=
  let n := nat_of_ascii a in
  if between 194 223 a then Some (128, 191, 0)
  else if n =? 224 then Some (160, 191, 1)
  else if n =? 237 then Some (128, 159, 1)
  else if between 225 239 a then Some (128, 191, 1)
  else if n =? 240 then Some (144, 191, 2)
  else if between 241 243 a then Some (128, 191, 2)
  else if n =? 244 then Some (128, 143, 2)
  else None.

(** Up to [k] continuation bytes; whether all were there, and the rest. *)
Fixpoint take_conts (k : nat) (s : string) : string * bool * string :=
  match k with
  | O => (EmptyString, true, s)
  | S k =>
      match s with
      | String a s' =>
          if is_cont a then let '(c, ok, r) := take_conts k s' in (String a c, ok, r) else (EmptyString, false, s)
      | EmptyString => (EmptyString, false, s)
      end
  end.

(** The sequence at the head of a text: its bytes, or nothing when it is ill
    formed, and what follows. *)
Definition next_sequence (a : ascii) (s : string) : option string * string :=
  if is_ascii a then (Some (String a EmptyString), s)
  else match after_head a with
       | None => (None, s)
       | Some (lo, hi, k) =>
           match s with
           | String b s' =>
               if between lo hi b then
                 let '(c, ok, r) := take_conts k s' in
                 (if ok then Some (String a (String b c)) else None, r)
               else (None, s)
           | EmptyString => (None, s)
           end
       end.

(** Every sequence consumes a byte: the length is fuel enough. *)
Fixpoint lossy_loop (fuel : nat) (s : string) : string :=
  match fuel, s with
  | S fuel, String a s' =>
      let '(c, r) := next_sequence a s' in default REPLACEMENT c +:+ lossy_loop fuel r
  | _, _ => EmptyString
  end.

Definition from_utf8_lossy (s : string) : string := lossy_loop (String.length s) s.

(** ** Well-placed text *)

Fixpoint placed (start : bool) (s : string) : bool :=
  match s with
  | EmptyString => true
  | String a s => negb (start && is_cont a) && placed (is_ascii a) s
  end.

Definition well_placed (s : string) : bool := placed true s.

Lemma well_placed_head_ok (s : string) : well_placed s = true -> head_ok s = true.
Proof. destruct s as [|a s]; [done|]. unfold well_placed. cbn. destruct (is_cont a); done. Qed.

Lemma is_cont_not_ascii (a : ascii) : is_cont a = true -> is_ascii a = false.
Proof. unfold is_cont, is_ascii. rewrite andb_true_iff, Nat.leb_le, Nat.ltb_ge. lia. Qed.

Lemma placed_weaken (b : bool) (s : string) : placed true s = true -> placed b s = true.
Proof. destruct s; [done|]. cbn. destruct b; [done|]. by intros [_ ?]%andb_prop. Qed.

(** What follows an ASCII byte is well placed again. *)
Lemma placed_suffix (b : bool) (s : string) (a : ascii) (r : string) :
  is_ascii a = true -> placed b (s +:+ String a r) = true -> well_placed r = true.
Proof.
  intros Ha. revert b. induction s as [|c s IH]; intros b; cbn [String.append placed].
  - rewrite Ha. by intros [_ H]%andb_prop.
  - intros [_ H]%andb_prop. by eapply IH.
Qed.

Lemma placed_conts (k : nat) (s : string) : forall t,
  placed false t = true -> placed false ((take_conts k s).1.1 +:+ t) = true.
Proof.
  revert s. induction k as [|k IH]; intros s t Ht; [done|]. cbn [take_conts].
  destruct s as [|a s]; [done|]. destruct (is_cont a) eqn:E; [|done].
  destruct (take_conts k s) as [[c ok] r] eqn:Et. cbn [fst snd String.append placed andb negb].
  rewrite (is_cont_not_ascii _ E). specialize (IH s t Ht). by rewrite Et in IH.
Qed.

Lemma after_head_not_cont (a : ascii) (x : nat * nat * nat) : after_head a = Some x -> is_cont a = false.
Proof.
  unfold after_head, is_cont, between. intros H. apply not_true_iff_false. rewrite andb_true_iff, Nat.leb_le, Nat.ltb_lt.
  intros [H1 H2]. repeat match goal with
    | H : (if ?b then _ else _) = _ |- _ => destruct b eqn:?
    end; try done; rewrite ?andb_true_iff, ?Nat.leb_le, ?Nat.eqb_eq in *; lia.
Qed.

Lemma placed_sequence (a : ascii) (s t : string) :
  placed true t = true -> placed true (default REPLACEMENT (next_sequence a s).1 +:+ t) = true.
Proof.
  intros Ht. assert (placed true (REPLACEMENT +:+ t) = true) as Hrep by (cbn; by rewrite placed_weaken).
  unfold next_sequence. destruct (is_ascii a) eqn:Ea.
  - cbn [default from_option id fst String.append placed]. rewrite Ea, Ht, andb_true_r. destruct (is_cont a) eqn:Ec; [|done]. apply is_cont_not_ascii in Ec. congruence.
  - destruct (after_head a) as [[[lo hi] k]|] eqn:Eh; [|exact Hrep].
    destruct s as [|b s]; [exact Hrep|]. destruct (between lo hi b) eqn:Eb; [|exact Hrep].
    pose proof (placed_conts k s t (placed_weaken _ _ Ht)) as Hc.
    destruct (take_conts k s) as [[c ok] r]. cbn [fst snd] in Hc |- *. destruct ok; [|exact Hrep].
    cbn [default from_option id String.append placed]. rewrite (after_head_not_cont _ _ Eh), Ea. cbn [andb negb].
    assert (is_ascii b = false) as ->; [|done].
    unfold after_head, between, is_ascii in *. repeat match goal with
      | H : (if ?b then _ else _) = Some _ |- _ => destruct b
      end; try done; injection Eh as <- <- <-; rewrite andb_true_iff, !Nat.leb_le in Eb; apply Nat.ltb_ge; lia.
Qed.

Lemma from_utf8_lossy_placed (s : string) : well_placed (from_utf8_lossy s) = true.
Proof.
  unfold from_utf8_lossy, well_placed. generalize (String.length s). intros fuel. revert s.
  induction fuel as [|fuel IH]; intros [|a s]; try done. cbn [lossy_loop].
  pose proof (placed_sequence a s) as H. destruct (next_sequence a s) as [c r]. apply H, IH.
Qed.

Example lossy_sample :
  from_utf8_lossy (bytes [97; 195; 169; 226; 130; 98; 255; 240; 159; 152; 128])
  = bytes [97; 195; 169; 239; 191; 189; 98; 239; 191; 189; 240; 159; 152; 128].
Proof. vm_compute. reflexivity. Qed.
