(* ===== verification/Vectors.v ===== *)
(** * Typed documents in a vector store

    [src/src/core/src/provider_traits/vector.rs]: a document of a collection,
    its untyped record, and the typed calls of a store.  The derived codec of
    the metadata is part of the class of collections; a store is a class over
    a world, with what its callers rely on as [VectorStoreLaws].  A vector is
    the list of the codes of its numbers. *)

From stdpp Require Import base list strings gmap.
From Stdlib Require Import ZArith Lia SpecFloat.
From S2P Require Import Prelude.
From S2P Require Import RustStr.
From S2P Require Import Scope.
From S2P Require Import Floats.

Record StoredVectorRecord : Type := {
  rec_id : string;
  rec_namespace : string;
  rec_text : string;
  rec_vector : list Z;
  metadata_json : string;
  rec_epoch : Z
}.

Record ScoredVectorRecord : Type := { hit_item : StoredVectorRecord; hit_score : F32.t }.

(** [serde_json::to_string] and [from_str] of the metadata, errors as texts. *)
Class VectorCollection (M : Type) := {
  NAMESPACE : string;
  metadata_to_string : M -> Result string string;
  metadata_from_str : string -> Result M string
}.

Record TypedVectorDocument (M : Type) : Type := newDocument {
  doc_id : string;
  doc_text : string;
  doc_vector : list Z;
  doc_epoch : Z;
  doc_metadata : M
}.
Arguments newDocument {M} _ _ _ _ _.
Arguments doc_id {M} _.
Arguments doc_text {M} _.
Arguments doc_vector {M} _.
Arguments doc_epoch {M} _.
Arguments doc_metadata {M} _.

Record ScoredTypedVectorDocument (M : Type) : Type := {
  typed_item : TypedVectorDocument M;
  typed_score : F32.t
}.
Arguments typed_item {M} _.
Arguments typed_score {M} _.

Class VectorStore (W : Type) := {
  vs_upsert : RequestScope -> list StoredVectorRecord -> Act W string unit;
  vs_query : RequestScope -> list Z -> Z -> option string -> Act W string (list ScoredVectorRecord);
  delete_thread_embeddings : RequestScope -> string -> Act W string unit;
  delete_project_embeddings : RequestScope -> Act W string unit;
  delete_namespace : RequestScope -> string -> Act W string unit;
  delete_ids_with_prefix : RequestScope -> string -> Act W string unit
}.

Section typed.
Context {M : Type} `{HM : !VectorCollection M}.

Definition into_record (d : TypedVectorDocument M) : Result StoredVectorRecord string :=
  let? json := metadata_to_string (doc_metadata d) in
  Ok {| rec_id := doc_id d; rec_namespace := NAMESPACE; rec_text := doc_text d; rec_vector := doc_vector d;
        metadata_json := json; rec_epoch := doc_epoch d |}.

Definition from_record (r : StoredVectorRecord) : Result (TypedVectorDocument M) string :=
  if negb (String.eqb (rec_namespace r) NAMESPACE)
  then Err ("namespace mismatch: expected '" +:+ NAMESPACE +:+ "' but found '" +:+ rec_namespace r +:+ "'")
  else
    let? metadata := metadata_from_str (metadata_json r) in
    Ok (newDocument (rec_id r) (rec_text r) (rec_vector r) (rec_epoch r) metadata).

(** The loops of the typed calls stop at the first error. *)
Fixpoint into_records (docs : list (TypedVectorDocument M)) : Result (list StoredVectorRecord) string :=
  match docs with
  | [] => Ok []
  | d :: docs => let? r := into_record d in let? rs := into_records docs in Ok (r :: rs)
  end.

Fixpoint from_hits (hits : list ScoredVectorRecord) : Result (list (ScoredTypedVectorDocument M)) string :=
  match hits with
  | [] => Ok []
  | h :: hits =>
      let? item := from_record (hit_item h) in
      let? out := from_hits hits in
      Ok ({| typed_item := item; typed_score := hit_score h |} :: out)
  end.

Context {W : Type} `{HVS : !VectorStore W}.

Definition upsert_typed_documents (scope : RequestScope) (docs : list (TypedVectorDocument M)) : Act W string unit :=
  do! records <- act_lift (into_records docs);
  vs_upsert scope records.

Definition query_typed_documents (scope : RequestScope) (query_vec : list Z) (k : Z)
  : Act W string (list (ScoredTypedVectorDocument M)) :=
  do! hits <- vs_query scope query_vec k (Some NAMESPACE);
  act_lift (from_hits hits).

Definition delete_collection (scope : RequestScope) : Act W string unit := delete_namespace scope NAMESPACE.
End typed.

(** ** The contract of a store

    [stored w scope] are the records of a scope, by id.  An upsert replaces by
    id and touches no other scope; a query reads, and returns at most [k]
    records of the namespace it asks for. *)

Definition upserted (rs : list StoredVectorRecord) (m : gmap string StoredVectorRecord)
  : gmap string StoredVectorRecord :=
  fold_left (fun m r => <[rec_id r := r]> m) rs m.

Class VectorStoreLaws (W : Type) `{HVS : !VectorStore W} := {
  stored : W -> RequestScope -> gmap string StoredVectorRecord;
  upsert_law scope rs w w' :
    vs_upsert scope rs w = (Ok tt, w') ->
    stored w' scope = upserted rs (stored w scope)
    /\ forall other, other <> scope -> stored w' other = stored w other;
  upsert_err_law scope rs w e w' :
    vs_upsert scope rs w = (Err e, w') -> forall other, stored w' other = stored w other;
  query_law scope q k ns w hits w' :
    vs_query scope q k ns w = (Ok hits, w') ->
    (forall s, stored w' s = stored w s) /\ (Z.of_nat (length hits) <= k)%Z
    /\ Forall (fun h => stored w scope !! rec_id (hit_item h) = Some (hit_item h)
                        /\ from_option (fun n => rec_namespace (hit_item h) = n) True ns) hits
}.

(** What the codec of the metadata writes, it reads. *)
Class MetadataRoundTrip (M : Type) `{HM : !VectorCollection M} : Prop :=
  metadata_round_trip m s : metadata_to_string m = Ok s -> metadata_from_str s = Ok m.

Section laws.
Context {M : Type} `{HM : !VectorCollection M, HR : !MetadataRoundTrip M}.

Lemma record_round_trip (d : TypedVectorDocument M) (r : StoredVectorRecord) :
  into_record d = Ok r -> rec_namespace r = NAMESPACE /\ rec_id r = doc_id d /\ from_record r = Ok d.
Proof using HR.
  unfold into_record, res_bind. destruct (metadata_to_string (doc_metadata d)) as [s|] eqn:E; [|done].
  intros [= <-]. cbn. split_and!; [done..|]. unfold from_record. cbn. rewrite String.eqb_refl. cbn.
  rewrite (metadata_round_trip _ _ E). by destruct d.
Qed.

Lemma into_records_round_trip (ds : list (TypedVectorDocument M)) rs :
  into_records ds = Ok rs -> Forall2 (fun d r => from_record r = Ok d /\ rec_id r = doc_id d) ds rs.
Proof using HR.
  revert rs. induction ds as [|d ds IH]; intros rs; cbn [into_records]; [intros [= <-]; constructor|].
  unfold res_bind. destruct (into_record d) as [r|] eqn:E; [|done].
  destruct (into_records ds) as [rs'|]; [|done]. intros [= <-]. constructor; [|by apply IH].
  by destruct (record_round_trip d r E) as (_ & ? & ?).
Qed.

(** The last document of that id. *)
Definition latest (id : string) (docs : list (TypedVectorDocument M)) : option (TypedVectorDocument M) :=
  last (List.filter (fun d => String.eqb (doc_id d) id) docs).

Lemma latest_snoc id docs d :
  latest id (docs ++ [d]) = if String.eqb (doc_id d) id then Some d else latest id docs.
Proof using Type.
  unfold latest. rewrite List.filter_app. cbn [List.filter]. destruct (String.eqb (doc_id d) id); [apply last_snoc|].
  by rewrite app_nil_r.
Qed.

(** The records of the scope are those there were, and over them one for each
    document that was written, the latest of an id, from which it is read
    back. *)
Definition holds_docs (m m0 : gmap string StoredVectorRecord) (docs : list (TypedVectorDocument M)) : Prop :=
  forall id, match latest id docs with
             | Some d => exists r, m !! id = Some r /\ from_record r = Ok d
             | None => m !! id = m0 !! id
             end.

Lemma holds_docs_upserted m m0 docs ds rs :
  Forall2 (fun d r => from_record r = Ok d /\ rec_id r = doc_id d) ds rs ->
  holds_docs m m0 docs -> holds_docs (upserted rs m) m0 (docs ++ ds).
Proof using Type.
  intros Hf. revert m docs. induction Hf as [|d r ds rs [Hd Hid] _ IH]; intros m docs Hm; [by rewrite app_nil_r|].
  cbn [upserted fold_left]. rewrite cons_middle, app_assoc. apply IH. intros id. rewrite latest_snoc, Hid.
  destruct (String.eqb_spec (doc_id d) id) as [<-|Hne].
  - exists r. by rewrite lookup_insert_eq.
  - rewrite lookup_insert_ne by done. apply Hm.
Qed.

Lemma from_hits_ok (hits : list ScoredVectorRecord) :
  Forall (fun h => exists d : TypedVectorDocument M, from_record (hit_item h) = Ok d) hits ->
  exists out, from_hits hits = Ok out
    /\ Forall2 (fun h (o : ScoredTypedVectorDocument M) => from_record (hit_item h) = Ok (typed_item o) /\ typed_score o = hit_score h) hits out.
Proof.
  induction 1 as [|h hits [d Hd] _ (out & E & HF)]; [by exists []; split; [|constructor]|].
  cbn [from_hits]. rewrite Hd. cbn [res_bind]. rewrite E. eexists. split; [done|]. by constructor.
Qed.

Lemma from_hits_err (hits : list ScoredVectorRecord) (h : ScoredVectorRecord) e :
  h ∈ hits -> from_record (HM := HM) (hit_item h) = Err e -> is_Ok (from_hits (HM := HM) hits) = false.
Proof.
  intros Hin He. induction hits as [|x hits IH]; [by inversion Hin|].
  cbn [from_hits]. apply elem_of_cons in Hin as [<-|Hin]; [by rewrite He|].
  destruct (from_record (hit_item x)); [cbn|done]. specialize (IH Hin). by destruct (from_hits hits).
Qed.

Lemma from_record_id r (d : TypedVectorDocument M) : from_record r = Ok d -> rec_id r = doc_id d.
Proof using Type.
  unfold from_record, res_bind. destruct (negb _); [done|]. destruct (metadata_from_str _); [|done]. by intros [= <-].
Qed.

Context {W : Type} `{HVS : !VectorStore W, HL : !VectorStoreLaws W}.

(** What a sequence of typed upserts wrote: the batches that did not fail. *)
Fixpoint written (scope : RequestScope) (batches : list (list (TypedVectorDocument M))) (w : W)
  : list (TypedVectorDocument M) :=
  match batches with
  | [] => []
  | ds :: batches =>
      let '(r, w') := upsert_typed_documents scope ds w in
      (if is_Ok r then ds else []) ++ written scope batches w'
  end.

Definition after_upserts (scope : RequestScope) (batches : list (list (TypedVectorDocument M))) (w : W) : W :=
  fold_left (fun w ds => (upsert_typed_documents scope ds w).2) batches w.

(** A typed upsert writes its documents, and a failed one nothing; no other
    scope is touched. *)
Lemma typed_upsert_writes (scope : RequestScope) (ds docs : list (TypedVectorDocument M)) (w : W) m0 :
  holds_docs (stored w scope) m0 docs ->
  let '(r, w') := upsert_typed_documents scope ds w in
  holds_docs (stored w' scope) m0 (docs ++ if is_Ok r then ds else []) /\
  forall other, other <> scope -> stored w' other = stored w other.
Proof using HR.
  intros Hm. unfold upsert_typed_documents, act_lift, act_bind.
  destruct (into_records ds) as [rs|e] eqn:E; [|cbn; by rewrite app_nil_r].
  apply into_records_round_trip in E. destruct (vs_upsert scope rs w) as [[[]|e] w'] eqn:H; cbn [is_Ok].
  - destruct (upsert_law _ _ _ _ H) as [-> Ho]. split; [by apply holds_docs_upserted|done].
  - rewrite app_nil_r. rewrite (upsert_err_law _ _ _ _ _ H). split; [done|]. intros other _.
    apply (upsert_err_law _ _ _ _ _ H).
Qed.

Lemma upserts_write (scope : RequestScope) batches (docs : list (TypedVectorDocument M)) (w : W) m0 :
  holds_docs (stored w scope) m0 docs ->
  holds_docs (stored (after_upserts scope batches w) scope) m0 (docs ++ written scope batches w) /\
  forall other, other <> scope -> stored (after_upserts scope batches w) other = stored w other.
Proof using HR.
  revert docs w. induction batches as [|ds batches IH]; intros docs w Hm; [cbn; by rewrite app_nil_r|].
  cbn [after_upserts fold_left written]. pose proof (typed_upsert_writes scope ds docs w m0 Hm) as Hu.
  destruct (upsert_typed_documents scope ds w) as [r w'] eqn:E. destruct Hu as [Hu Ho]. cbn [snd].
  destruct (IH _ w' Hu) as [H1 H2]. rewrite app_assoc. split; [exact H1|].
  intros other Hne. rewrite <- (Ho other Hne). by apply H2.
Qed.
End laws.


(** ** A store in memory *)

Module Shelf.
(** The records of each scope; a query returns the first [k] of the
    namespace, with a score of zero. *)
Definition World : Type := RequestScope -> gmap string StoredVectorRecord.

Definition put (scope : RequestScope) (m : gmap string StoredVectorRecord) (w : World) : World :=
  fun s => if decide (s = scope) then m else w s.

Definition in_namespace (ns : option string) (r : StoredVectorRecord) : bool :=
  match ns with Some n => String.eqb (rec_namespace r) n | None => true end.

Definition found (ns : option string) (m : gmap string StoredVectorRecord) : list StoredVectorRecord :=
  List.filter (fun r => in_namespace ns r) (map snd (List.filter (fun p => String.eqb p.1 (rec_id p.2)) (map_to_list m))).

Definition store : VectorStore World := {|
  vs_upsert scope rs := fun w => (Ok tt, put scope (upserted rs (w scope)) w);
  vs_query scope _ k ns := fun w =>
    (Ok (map (fun r => {| hit_item := r; hit_score := S754_zero false |}) (take (Z.to_nat k) (found ns (w scope)))), w);
  delete_thread_embeddings _ _ := act_ret tt;
  delete_project_embeddings scope := fun w => (Ok tt, put scope ∅ w);
  delete_namespace scope ns := fun w => (Ok tt, put scope (filter (fun p => rec_namespace p.2 <> ns) (w scope)) w);
  delete_ids_with_prefix scope p := fun w => (Ok tt, put scope (filter (fun x => starts_with x.1 p <> true) (w scope)) w)
|}.

Lemma found_spec ns m r : r ∈ found ns m -> m !! rec_id r = Some r /\ from_option (fun n => rec_namespace r = n) True ns.
Proof.
  unfold found. rewrite list_elem_of_In, filter_In, in_map_iff. intros [((id & r') & <- & [Hin Hid]%filter_In) Hns].
  cbn in *. apply String.eqb_eq in Hid as ->. apply list_elem_of_In, elem_of_map_to_list in Hin. split; [done|].
  destruct ns; [|done]. by apply String.eqb_eq in Hns.
Qed.

(** The documented behaviour holds of queries for a positive number only. *)
#[export] Instance counted : VectorStore World := {|
  vs_upsert := vs_upsert (VectorStore := store);
  vs_query scope q k ns := if (0 <=? k)%Z then vs_query (VectorStore := store) scope q k ns else act_err "negative";
  delete_thread_embeddings := delete_thread_embeddings (VectorStore := store);
  delete_project_embeddings := delete_project_embeddings (VectorStore := store);
  delete_namespace := delete_namespace (VectorStore := store);
  delete_ids_with_prefix := delete_ids_with_prefix (VectorStore := store)
|}.

#[export] Instance laws : VectorStoreLaws (HVS := counted) World.
Proof.
  refine (Build_VectorStoreLaws World counted (fun w s => w s) _ _ _).
  - intros scope rs w w' [= <-]. unfold put. split; [by rewrite decide_True|].
    intros other Ho. by rewrite decide_False.
  - intros scope rs w e w'. discriminate.
  - intros scope q k ns w hits w'. cbn [vs_query counted]. destruct (0 <=? k)%Z eqn:Ek; [|done]. apply Z.leb_le in Ek.
    cbn [vs_query store]. intros [= <- <-]. split_and!; [done| |].
    + rewrite length_map, length_take. lia.
    + apply Forall_map, Forall_take, Forall_forall. intros r Hr. cbn. by apply found_spec.
Defined.

(** Metadata that is its own JSON text. *)
#[export] Instance notes : VectorCollection string := {|
  NAMESPACE := "notes"; metadata_to_string s := Ok s; metadata_from_str s := Ok s |}.
#[export] Instance notes_ok : MetadataRoundTrip string.
Proof. intros m s [= ->]. reflexivity. Defined.

Definition doc (id text : string) : TypedVectorDocument string := newDocument id text [1; 2]%Z 7 "m".
End Shelf.

Import Shelf.


(** One record that cannot be read, and the whole query fails. *)
Theorem one_bad_record_hides_the_rest {M W} `{HM : !VectorCollection M, HVS : !VectorStore W}
    (scope : RequestScope) (q : list Z) (k : Z) (w w1 : W) hits h e :
  vs_query scope q k (Some NAMESPACE) w = (Ok hits, w1) -> h ∈ hits ->
  from_record (HM := HM) (hit_item h) = Err e ->
  is_Ok (query_typed_documents (HM := HM) scope q k w).1 = false.
Proof.
  intros Hq Hin He. unfold query_typed_documents. rewrite (act_bind_Ok _ _ _ _ _ Hq). by eapply from_hits_err.
Qed.
