(* ===== verification/KnowledgeBase.v ===== *)
(** * The knowledge-base suite

    [src/src/suites/kb/src]: the tool that ingests a directory of text files
    into the vector store, the tool that searches it, and the suite that runs
    an agent over the two.  The file system and the clock are the class
    [KbHost]; embeddings are the gateway's [llm_embed]; the directory walk is
    third-party and yields its entries in some order. *)

From stdpp Require Import base list strings gmap sorting.
From Stdlib Require Import ZArith Lia SpecFloat Ascii.
From S2P Require Import Prelude.
From S2P Require Import RustStr.
From S2P Require Import Json.
From S2P Require Import Errors.
From S2P Require Import Text.
From S2P Require Import Scope.
From S2P Require Import Storage.
From S2P Require Import SessionTypes.
From S2P Require Import ThreadStore.
From S2P Require Import Workflow.
From S2P Require Import Tools.
From S2P Require Import Llm.
From S2P Require Import Redaction.
From S2P Require Import Gateway.
From S2P Require Import AgentLoop.
From S2P Require Import Suites.
From S2P Require Import Floats.
From S2P Require Import Utf8.
From S2P Require Import Vectors.

(** ** [vector_docs.rs] *)

Record KbDocMetadata : Type := { dataset_id : string; kb_path : string; chunk_index : Z }.

Definition KbDocDocument : Type := TypedVectorDocument KbDocMetadata.

(** The collection; the derived codec of the metadata is a parameter. *)
Definition KbDocCollection (write : KbDocMetadata -> Result string string) (read : string -> Result KbDocMetadata string)
  : VectorCollection KbDocMetadata := {|
  NAMESPACE := "kb_doc"; metadata_to_string := write; metadata_from_str := read |}.

(** ** Paths *)

(** [Path::components]: empty ones and inner dots do not count. *)
Definition components (p : string) : list string :=
  (if starts_with p "/" then ["/"] else []) ++
  match split_byte "/"%char p with
  | c :: cs => (if String.eqb c EmptyString then [] else [c])
               ++ List.filter (fun c => negb (String.eqb c EmptyString || String.eqb c ".")) cs
  | [] => []
  end.

Definition file_name (p : string) : option string :=
  match last (components p) with
  | Some c => if String.eqb c ".." || String.eqb c "/" || String.eqb c "." then None else Some c
  | None => None
  end.

(** [path.extension()] *)
Definition extension (p : string) : option string :=
  n ← file_name p;
  match str_rfind n "." with
  | Some (S i) => Some (string_drop (S (S i)) n)
  | _ => None
  end.

Fixpoint strip_components (root p : list string) : option (list string) :=
  match root, p with
  | [], _ => Some p
  | c :: root, d :: p => if String.eqb c d then strip_components root p else None
  | _ :: _, [] => None
  end.

Definition is_text_file `{!UnicodeLower} (p : string) : bool :=
  existsb (String.eqb (to_lowercase (default EmptyString (extension p)))) ["txt"; "md"; "markdown"; "rst"].

Definition safe_rel (root p : string) : string :=
  replace_byte "\"%char "/"%char
    (match strip_components (components root) (components p) with Some rp => join "/" rp | None => p end).

(** ** Chunks *)

Definition gap : string := nl +:+ nl.

(** Every round takes a character, so the length is fuel enough. *)
Fixpoint hard_chunks_loop (fuel : nat) (rest : string) (chunk_chars : nat) : list string :=
  match fuel with
  | O => []
  | S fuel =>
      if str_is_empty rest then []
      else let '(chunk, next) := split_at_chars rest chunk_chars in
           if str_is_empty chunk then [] else chunk :: hard_chunks_loop fuel next chunk_chars
  end.

Definition hard_chunks (text : string) (chunk_chars : nat) : list string :=
  if chunk_chars =? 0 then [] else hard_chunks_loop (String.length text) text chunk_chars.

(** One paragraph of the loop: the chunks so far and the buffer. *)
Definition add_paragraph (chunk_chars : nat) (acc : list string * string) (para : string) : list string * string :=
  let '(out, buf) := acc in
  let p := trim para in
  if str_is_empty p then (out, buf)
  else if chunk_chars <? char_count p then
    let '(out, buf) := if negb (is_blank buf) then (out ++ [trim buf], EmptyString) else (out, buf) in
    (out ++ hard_chunks p chunk_chars, buf)
  else
    let sep := if str_is_empty buf then 0 else 2 in
    let '(out, buf) :=
      if (chunk_chars <? char_count buf + char_count p + sep) && negb (str_is_empty buf)
      then (out ++ [trim buf], EmptyString) else (out, buf) in
    (out, (if negb (str_is_empty buf) then buf +:+ gap else buf) +:+ p).

Definition chunk_text (text : string) (chunk_chars : nat) : list string :=
  let '(out, buf) := fold_left (add_paragraph chunk_chars) (split_str gap text) ([], EmptyString) in
  let out := if negb (is_blank buf) then out ++ [trim buf] else out in
  match out with
  | [] => if negb (is_blank text) then hard_chunks (trim text) chunk_chars else []
  | _ => out
  end.

(** ** The host *)

Record WalkEntry : Type := { we_path : string; we_is_file : bool }.

Class KbHost (W : Type) := {
  host_exists : string -> W -> bool * W;
  host_is_dir : string -> W -> bool * W;
  host_walk : string -> W -> list WalkEntry * W;
  host_size : string -> W -> option Z * W;
  host_read : string -> Act W string string;
  host_timestamp : W -> Z * W
}.

Definition arg_str (args : Value) (k : string) : option string := Json.get args k ≫= as_str.
Definition arg_u64 (args : Value) (k : string) : option Z := Json.get args k ≫= as_u64.

(** ** [kb_ingest_dir] *)

Definition with_vector (d : KbDocDocument) (v : list Z) : KbDocDocument :=
  newDocument (doc_id d) (doc_text d) v (doc_epoch d) (doc_metadata d).

Section ingest.
Context {W : Type} `{HH : !KbHost W, HLow : !UnicodeLower, HC : !VectorCollection KbDocMetadata, HVS : !VectorStore W}.
(** [ctx.llm_embed]; whether the context has a vector store; its scope. *)
Variable llm_embed : list string -> Act W CoreError.t (list (list Z)).
Variable has_vector : bool.
Variable scope : RequestScope.

(** The loop over the walk. *)
Fixpoint pick_files (max_files : nat) (max_bytes : Z) (entries : list WalkEntry) (files : list string) (w : W)
  : list string * W :=
  match entries with
  | [] => (files, w)
  | e :: entries =>
      if max_files <=? length files then (files, w)
      else if negb (we_is_file e) || negb (is_text_file (we_path e)) then pick_files max_files max_bytes entries files w
      else let '(size, w) := host_size (we_path e) w in
           match size with
           | Some n => if (max_bytes <? n)%Z then pick_files max_files max_bytes entries files w
                       else pick_files max_files max_bytes entries (files ++ [we_path e]) w
           | None => pick_files max_files max_bytes entries (files ++ [we_path e]) w
           end
  end.

Definition chunk_document (dataset rel : string) (epoch : Z) (i : nat) (part : string) : KbDocDocument :=
  newDocument ("kb_doc:" +:+ dataset +:+ ":" +:+ rel +:+ ":" +:+ fmt_nat i)
    ("file: " +:+ rel +:+ gap +:+ part) [] epoch
    {| dataset_id := dataset; kb_path := rel; chunk_index := Z.of_nat i |}.

Definition file_documents (dataset rel : string) (epoch : Z) (chunk_chars : nat) (content : string) : list KbDocDocument :=
  imap (chunk_document dataset rel epoch) (chunk_text (from_utf8_lossy content) chunk_chars).

Fixpoint read_files (dataset root : string) (epoch : Z) (chunk_chars : nat) (files : list string)
  : Act W string (list KbDocDocument) :=
  match files with
  | [] => act_ret []
  | p :: files =>
      let rel := safe_rel root p in
      do! content <- act_map_err (fun e => "read " +:+ rel +:+ ": " +:+ e) (host_read p);
      do! rest <- read_files dataset root epoch chunk_chars files;
      act_ret (file_documents dataset rel epoch chunk_chars content ++ rest)
  end.

(** [for (k, v) in vecs.into_iter().enumerate() { chunks[idx + k] = ... }] *)
Fixpoint assign_vectors (at_ : nat) (vecs : list (list Z)) (chunks : list KbDocDocument) : option (list KbDocDocument) :=
  match vecs with
  | [] => Some chunks
  | v :: vecs =>
      match chunks !! at_ with
      | Some d => assign_vectors (S at_) vecs (<[at_ := with_vector d v]> chunks)
      | None => None
      end
  end.

Definition BATCH : nat := 64.

(** Every round advances by a document at least, so the number of documents is
    fuel enough. *)
Fixpoint embed_loop (fuel idx : nat) (chunks : list KbDocDocument) : Prog W string (list KbDocDocument) :=
  match fuel with
  | O => prog_ret chunks
  | S fuel =>
      if idx <? length chunks then
        let stop := Nat.min (idx + BATCH) (length chunks) in
        run! vecs <- prog_act (fun e => "embed failed: " +:+ CoreError.display e)
                       (llm_embed (map doc_text (take (stop - idx) (drop idx chunks))));
        run! chunks <- prog_option (assign_vectors idx vecs chunks);
        embed_loop fuel stop chunks
      else prog_ret chunks
  end.

Definition nothing_found (dataset : string) : Value :=
  json_obj [("ok", VBool true); ("dataset_id", VString dataset); ("ingested_files", num 0);
            ("ingested_chunks", num 0); ("note", VString "no eligible files found")].

Definition ingested (dataset : string) (files chunks : nat) : Value :=
  json_obj [("ok", VBool true); ("dataset_id", VString dataset); ("ingested_files", num (Z.of_nat files));
            ("ingested_chunks", num (Z.of_nat chunks))].

Definition ingest_call (args : Value) : Prog W string Value :=
  run! dir <- prog_act id (act_lift (match arg_str args "dir" with Some d => Ok d | None => Err "missing field `dir`" end));
  let dataset := default "kb" (arg_str args "dataset_id") in
  let max_files := default 200%Z (arg_u64 args "max_files") in
  let max_bytes := default 2000000%Z (arg_u64 args "max_bytes") in
  let chunk_chars := default 1200%Z (arg_u64 args "chunk_chars") in
  run! there <- prog_do (host_exists dir);
  if negb there then prog_err ("dir does not exist: " +:+ dir) else
  run! is_dir <- prog_do (host_is_dir dir);
  if negb is_dir then prog_err ("not a directory: " +:+ dir) else
  if negb has_vector then prog_err "vector provider missing" else
  run! entries <- prog_do (host_walk dir);
  run! files <- prog_do (pick_files (Z.to_nat max_files) max_bytes entries []);
  if bool_decide (files = []) then prog_ret (nothing_found dataset) else
  run! secs <- prog_do host_timestamp;
  run! chunks <- prog_act id (read_files dataset dir (cast u64_max secs) (Z.to_nat chunk_chars) files);
  run! chunks <- embed_loop (length chunks) 0 chunks;
  run! _ <- prog_act id (upsert_typed_documents scope chunks);
  prog_ret (ingested dataset (length files) (length chunks)).
End ingest.

(** ** [kb_search] *)

Definition score_cmp (a b : ScoredTypedVectorDocument KbDocMetadata) : comparison :=
  default Eq (F32.partial_cmp (typed_score a) (typed_score b)).

(** The relation a stable sort by [score_cmp] goes by. *)
Definition score_le (a b : ScoredTypedVectorDocument KbDocMetadata) : Prop := score_cmp a b <> Gt.
#[export] Instance score_le_dec : RelDecision score_le.
Proof. intros a b. unfold score_le. solve_decision. Defined.

(** [json!(score)]: no number is [null]. *)
Definition score_value (s : F32.t) : Value :=
  match s with
  | S754_nan | S754_infinity _ => VNull
  | _ => VNumber (Float (F64.to_bits (F32.as_f64 s)))
  end.

Definition search_item (h : ScoredTypedVectorDocument KbDocMetadata) : Value :=
  let d := typed_item h in
  json_obj [("dataset_id", VString (dataset_id (doc_metadata d))); ("text", VString (doc_text d));
            ("score", score_value (typed_score h));
            ("meta", json_obj [("path", VString (kb_path (doc_metadata d)));
                               ("chunk_index", num (chunk_index (doc_metadata d)))])].

(** The hits of the data set, the best [k] of them. *)
Definition select_hits (dataset : string) (k : Z) (hits : list (ScoredTypedVectorDocument KbDocMetadata))
  : list (ScoredTypedVectorDocument KbDocMetadata) :=
  take (Z.to_nat k)
    (sort_by score_le (List.filter (fun h => String.eqb (dataset_id (doc_metadata (typed_item h))) dataset) hits)).

Section search.
Context {W : Type} `{HC : !VectorCollection KbDocMetadata, HVS : !VectorStore W}.
Variable llm_embed : list string -> Act W CoreError.t (list (list Z)).
Variable has_vector : bool.
Variable scope : RequestScope.

(** [k * 5] panics when it overflows and the build checks for it. *)
Definition search_call (args : Value) : Prog W string Value :=
  let query := default EmptyString (arg_str args "query") in
  let k := default 8%Z (arg_u64 args "k") in
  let dataset := default "kb" (arg_str args "dataset_id") in
  if is_blank query then prog_err "query is required" else
  if negb has_vector then prog_err "vector provider missing" else
  run! vecs <- prog_act (fun e => "embed failed: " +:+ CoreError.display e) (llm_embed [query]);
  let qv := default [] (last vecs) in
  if bool_decide (qv = []) then prog_err "empty embedding vector" else
  run! wanted <- prog_option (if (k * 5 <=? usize_max)%Z then Some (k * 5)%Z else None);
  run! hits <- prog_act id (query_typed_documents scope qv wanted);
  prog_ret (json_obj [("ok", VBool true); ("items", VArray (map search_item (select_hits dataset k hits)))]).
End search.
