(* ===== verification/KnowledgeBaseLaws.v ===== *)
(** * What the knowledge base keeps of a text

    Chunks against the paragraphs of a text, the vectors of an ingestion, and
    the hits of a search, for the definitions of [KnowledgeBase]. *)

From stdpp Require Import base list strings gmap sorting.
From Stdlib Require Import ZArith Lia SpecFloat Ascii Sorted.
From S2P Require Import Prelude.
From S2P Require Import RustStr.
From S2P Require Import Json.
From S2P Require Import Errors.
From S2P Require Import Text.
From S2P Require Import Scope.
From S2P Require Import Redaction.
From S2P Require Import Floats.
From S2P Require Import Utf8.
From S2P Require Import Vectors.
From S2P Require Import KnowledgeBase.

(** ** Splitting and trimming *)

(** An occurrence cuts a text in three. *)
Lemma str_find_cut (s p : string) (i : nat) :
  str_find s p = Some i -> s = string_take i s +:+ p +:+ string_drop (i + String.length p) s.
Proof.
  intros H. destruct (str_find_Some _ _ _ H) as (_ & Hp & _). apply starts_with_app in Hp as [r Hr].
  rewrite <- string_drop_drop, Hr.
  pose proof (string_drop_app p r 0) as Hd. rewrite Nat.add_0_r in Hd. rewrite Hd.
  change (string_drop 0 r) with r. rewrite <- Hr. symmetry. apply string_take_drop.
Qed.

Lemma split_loop_nonempty (fuel : nat) (p s : string) : split_loop fuel p s <> [].
Proof. destruct fuel; cbn; [done|]. by destruct (str_find s p). Qed.

Lemma join_split_loop (fuel : nat) (p s : string) : join p (split_loop fuel p s) = s.
Proof.
  revert s. induction fuel as [|fuel IH]; intros s; cbn [split_loop]; [done|].
  destruct (str_find s p) as [i|] eqn:E; [|done].
  rewrite (str_find_cut _ _ _ E) at 3. pose proof (split_loop_nonempty fuel p (string_drop (i + String.length p) s)) as Hn.
  specialize (IH (string_drop (i + String.length p) s)).
  destruct (split_loop fuel p _) as [|x l]; [done|]. change (join p (string_take i s :: x :: l))
    with (string_take i s +:+ p +:+ join p (x :: l)). by rewrite IH.
Qed.

Lemma placed_prefix (b : bool) (s t : string) : placed b (s +:+ t) = true -> placed b s = true.
Proof.
  revert b. induction s as [|a s IH]; intros b; [done|]. cbn [String.append placed].
  intros [-> H]%andb_prop. cbn [andb]. by eapply IH.
Qed.

(** A text that is well placed splits at blank lines into such texts. *)
Lemma split_gap_placed (fuel : nat) (s : string) :
  well_placed s = true -> Forall (fun x => well_placed x = true) (split_loop fuel gap s).
Proof.
  revert s. induction fuel as [|fuel IH]; intros s Hs; cbn [split_loop]; [by apply Forall_singleton|].
  destruct (str_find s gap) as [i|] eqn:E; [|by apply Forall_singleton].
  pose proof (str_find_cut _ _ _ E) as Hc. unfold well_placed in Hs. rewrite Hc in Hs.
  apply Forall_cons_2; [by eapply placed_prefix|]. apply IH.
  set (r := string_drop _ s) in *. unfold gap in Hs.
  change ((nl +:+ nl) +:+ r) with (nl +:+ String "010"%char r) in Hs.
  rewrite <- app_assoc_str in Hs. by eapply placed_suffix in Hs.
Qed.

Lemma drop_while_fixed_app {A} (p : A -> bool) (l r : list A) :
  drop_while p l = l -> l <> [] -> drop_while p (l ++ r) = l ++ r.
Proof.
  destruct l as [|x l]; [done|]. cbn. destruct (p x); [|done].
  intros H. pose proof (drop_while_length p l). rewrite H in H0. cbn in H0. lia.
Qed.

Lemma trim_chars_join (l m r : list string) :
  trim_chars l = l -> trim_chars r = r -> l <> [] -> r <> [] -> trim_chars (l ++ m ++ r) = l ++ m ++ r.
Proof.
  intros [Hl _]%trim_chars_fixed [_ Hr]%trim_chars_fixed Hnl Hnr. unfold trim_chars.
  rewrite drop_while_fixed_app by done. unfold trim_end_chars in *.
  assert (drop_while is_whitespace (rev r) = rev r) as Hd by (rewrite <- Hr at 2; by rewrite rev_involutive).
  rewrite app_assoc, rev_app_distr, drop_while_fixed_app; [by rewrite rev_app_distr, !rev_involutive|done|].
  intros H. apply Hnr. by rewrite <- (rev_involutive r), H.
Qed.

(** ** Paragraphs *)

Definition para (p : string) : Prop := head_ok p = true /\ trim p = p /\ p <> EmptyString.

Lemma trim_head_ok (s : string) : head_ok s = true -> head_ok (trim s) = true.
Proof.
  intros H. unfold trim. fold (trim_chars (chars s)).
  by apply head_ok_concat, Forall_trim_chars, chars_head_ok_wf.
Qed.

Lemma trim_para (s : string) : head_ok s = true -> trim s <> EmptyString -> para (trim s).
Proof. intros H Hn. split_and!; [by apply trim_head_ok|by apply trim_idem|done]. Qed.

Lemma para_chars (p : string) : para p -> trim_chars (chars p) = chars p /\ chars p <> [].
Proof. intros (H1 & H2 & H3). split; [by apply trim_fixed_chars|]. intros H. by apply H3, chars_empty. Qed.

Lemma gap_chars : chars gap = [nl; nl].
Proof. reflexivity. Qed.

Lemma para_append (p q : string) :
  para p -> para q -> para (p +:+ gap +:+ q) /\ char_count (p +:+ gap +:+ q) = char_count p + 2 + char_count q.
Proof.
  intros Hp Hq. pose proof (para_chars _ Hp) as [Tp Np]. pose proof (para_chars _ Hq) as [Tq Nq].
  destruct Hp as (Hp & _ & Ep), Hq as (Hq & _ & Eq).
  assert (chars (p +:+ gap +:+ q) = chars p ++ [nl; nl] ++ chars q) as Hc.
  { rewrite !chars_app by (done || by apply head_ok_app). by rewrite gap_chars. }
  split; [split_and!|].
  - apply head_ok_app; [done|]. by apply head_ok_app.
  - unfold trim. fold (trim_chars (chars (p +:+ gap +:+ q))). rewrite Hc, trim_chars_join by done.
    by rewrite <- Hc, concat_chars.
  - by destruct p.
  - unfold char_count. rewrite Hc, !length_app. cbn. lia.
Qed.

Lemma join_snoc (sep : string) (g : list string) (p : string) :
  g <> [] -> join sep (g ++ [p]) = join sep g +:+ sep +:+ p.
Proof.
  induction g as [|x g IH]; intros Hn; [done|]. destruct g as [|y g]; [done|].
  change (join sep ((x :: y :: g) ++ [p])) with (x +:+ sep +:+ join sep ((y :: g) ++ [p])).
  rewrite IH by done. change (join sep (x :: y :: g)) with (x +:+ sep +:+ join sep (y :: g)).
  by rewrite !app_assoc_str.
Qed.

Lemma join_para (g : list string) : g <> [] -> Forall para g -> para (join gap g).
Proof.
  induction g as [|p g IH] using rev_ind; intros Hn HF; [done|]. apply Forall_app in HF as [HF Hp]. apply Forall_cons in Hp as [Hp _].
  destruct (decide (g = [])) as [->|Hg]; [exact Hp|]. rewrite join_snoc by done.
  apply para_append; [by apply IH|done].
Qed.

Lemma para_not_blank (p : string) : para p -> is_blank p = false.
Proof. intros (_ & H & Hn). unfold is_blank. rewrite H. by destruct p. Qed.

(** ** Hard chunks *)

Lemma split_at_chars_cut (s : string) (n : nat) :
  head_ok s = true -> s <> EmptyString -> 0 < n ->
  let '(c, r) := split_at_chars s n in
  c +:+ r = s /\ 0 < char_count c <= n /\ head_ok r = true /\ String.length r < String.length s.
Proof.
  intros Hs Hne Hn. pose proof (split_at_chars_app s n) as Ha.
  assert (chars s <> []) as Hc by (intros H; by apply Hne, chars_empty).
  assert (String.length (split_at_chars s n).2 < String.length s
    /\ 0 < char_count (split_at_chars s n).1 <= n /\ head_ok (split_at_chars s n).2 = true) as (H1 & H2 & H3).
  { pose proof (f_equal String.length Ha) as HL. rewrite length_app_str in HL.
    assert (0 < char_count (split_at_chars s n).1 <= n /\ head_ok (split_at_chars s n).2 = true) as [H2 H3].
    { unfold split_at_chars. destruct (n <? length (chars s)) eqn:E; cbn [fst snd].
      - apply Nat.ltb_lt in E. pose proof (chars_head_ok_wf s Hs) as Hw. split.
        + unfold char_count. rewrite chars_concat by by apply Forall_take. rewrite length_take. lia.
        + by apply head_ok_concat, Forall_drop.
      - apply Nat.ltb_ge in E. split; [|done]. unfold char_count. destruct (chars s); [done|]. cbn in *. lia. }
    split_and!; [|lia|lia|done]. pose proof (char_count_le_length (split_at_chars s n).1). lia. }
  destruct (split_at_chars s n) as [c r]. cbn in *. split_and!; [done|lia|lia|done|done].
Qed.

Lemma hard_chunks_loop_spec (n fuel : nat) (s : string) :
  0 < n -> head_ok s = true -> String.length s <= fuel ->
  concat_strings (hard_chunks_loop fuel s n) = s
  /\ Forall (fun c => 0 < char_count c <= n) (hard_chunks_loop fuel s n).
Proof.
  intros Hn. revert s. induction fuel as [|fuel IH]; intros s Hs Hf; cbn [hard_chunks_loop].
  { destruct s; [split; [done|constructor]|]. cbn in Hf. lia. }
  destruct (str_is_empty s) eqn:E; [destruct s; [split; [done|constructor]|done]|].
  assert (s <> EmptyString) as Hne by (by intros ->).
  pose proof (split_at_chars_cut s n Hs Hne Hn) as H. destruct (split_at_chars s n) as [c r].
  destruct H as (H1 & H2 & H3 & H4).
  assert (str_is_empty c = false) as -> by (destruct c; [cbn in H2; lia|done]).
  destruct (IH r H3 ltac:(lia)) as [I1 I2]. split; [|by apply Forall_cons_2].
  change (c +:+ concat_strings (hard_chunks_loop fuel r n) = s). by rewrite I1.
Qed.

Lemma hard_chunks_spec (n : nat) (s : string) :
  0 < n -> head_ok s = true ->
  concat_strings (hard_chunks s n) = s /\ Forall (fun c => 0 < char_count c <= n) (hard_chunks s n).
Proof.
  intros Hn Hs. unfold hard_chunks. rewrite (proj2 (Nat.eqb_neq _ _)) by lia. by apply hard_chunks_loop_spec.
Qed.

(** ** The chunks of a text *)

(** The paragraphs: what stands between blank lines, trimmed, unless empty. *)
Definition paragraphs (text : string) : list string :=
  List.filter (fun p => negb (str_is_empty p)) (map trim (split_str gap text)).

(** The reference: short paragraphs are gathered as long as they fit, a
    paragraph that does not fit alone is cut into parts. *)
Inductive Chunked (limit : nat) : list string -> list string -> Prop :=
| Chunked_nil : Chunked limit [] []
| Chunked_group g ps cs :
    g <> [] -> char_count (join gap g) <= limit ->
    (forall p ps', ps = p :: ps' -> limit < char_count (join gap (g ++ [p]))) ->
    Chunked limit ps cs -> Chunked limit (g ++ ps) (join gap g :: cs)
| Chunked_long p parts ps cs :
    limit < char_count p -> parts <> [] -> concat_strings parts = p ->
    Forall (fun c => 0 < char_count c <= limit) parts ->
    Chunked limit ps cs -> Chunked limit (p :: ps) (parts ++ cs).

Lemma chunked_empty (limit : nat) (ps : list string) : Chunked limit ps [] -> ps = [].
Proof.
  intros H. inversion H as [|g ps' cs Hg Hc Hm HC|p parts ps' cs Hp Hn Hc HF HC]; subst; try done.
  by destruct parts.
Qed.

Section chunks.
Variable limit : nat.
Hypothesis Hlimit : 0 < limit.

Definition flushed (acc : list string * string) : list string :=
  if negb (is_blank acc.2) then acc.1 ++ [trim acc.2] else acc.1.

Lemma flush_group (out g : list string) :
  Forall para g -> flushed (out, join gap g) = match g with [] => out | _ => out ++ [join gap g] end.
Proof.
  intros Hg. unfold flushed. cbn [fst snd]. destruct (decide (g = [])) as [->|Hn]; [done|].
  pose proof (join_para g Hn Hg) as Hp. rewrite (para_not_blank _ Hp). destruct Hp as (_ & -> & _). by destruct g.
Qed.

Lemma join_empty_iff (g : list string) : Forall para g -> str_is_empty (join gap g) = bool_decide (g = []).
Proof.
  intros Hg. destruct (decide (g = [])) as [->|Hn]; [done|].
  rewrite bool_decide_eq_false_2 by done. destruct (join_para g Hn Hg) as (_ & _ & H). by destruct (join gap g).
Qed.

(** One paragraph, seen from a buffer that holds the group [g]. *)
Lemma add_paragraph_group (out g : list string) (piece : string) :
  Forall para g -> head_ok piece = true ->
  add_paragraph limit (out, join gap g) piece =
    if str_is_empty (trim piece) then (out, join gap g)
    else if limit <? char_count (trim piece)
         then (flushed (out, join gap g) ++ hard_chunks (trim piece) limit, EmptyString)
         else if (limit <? char_count (join gap (g ++ [trim piece]))) && negb (bool_decide (g = []))
              then (out ++ [join gap g], trim piece)
              else (out, join gap (g ++ [trim piece])).
Proof.
  intros Hg Hh. unfold add_paragraph. destruct (str_is_empty (trim piece)) eqn:Ee; [done|].
  assert (para (trim piece)) as Hp by (apply trim_para; [done|intros H; by rewrite H in Ee]).
  destruct (limit <? char_count (trim piece)) eqn:El.
  - unfold flushed. cbn [fst snd]. destruct (is_blank (join gap g)) eqn:Eb; cbn [negb]; [|done].
    destruct (decide (g = [])) as [->|Hn]; [done|]. by rewrite para_not_blank in Eb by by apply join_para.
  - rewrite join_empty_iff by done. destruct (decide (g = [])) as [->|Hn].
    { rewrite bool_decide_eq_true_2 by done. by rewrite !andb_false_r. }
    rewrite bool_decide_eq_false_2 by done. cbn [negb]. rewrite !andb_true_r.
    pose proof (join_para g Hn Hg) as Hj. destruct (para_append _ _ Hj Hp) as [_ Hc].
    rewrite join_snoc, Hc by done.
    replace (char_count (join gap g) + 2 + char_count (trim piece))
      with (char_count (join gap g) + char_count (trim piece) + 2) by lia.
    destruct (limit <? char_count (join gap g) + char_count (trim piece) + 2).
    + destruct Hj as (_ & -> & _). done.
    + rewrite join_empty_iff by done. rewrite bool_decide_eq_false_2 by done. cbn [negb]. by rewrite app_assoc_str.
Qed.

Lemma filter_cons_para (p : string) (ps : list string) :
  List.filter (fun p => negb (str_is_empty p)) (p :: ps) =
  (if str_is_empty p then [] else [p]) ++ List.filter (fun p => negb (str_is_empty p)) ps.
Proof. cbn. by destruct (str_is_empty p). Qed.

(** The whole loop from a group that fits. *)
Lemma chunks_from_group (pieces out g : list string) :
  Forall (fun x => head_ok x = true) pieces -> Forall para g -> char_count (join gap g) <= limit ->
  exists cs, flushed (fold_left (add_paragraph limit) pieces (out, join gap g)) = out ++ cs
    /\ Chunked limit (g ++ List.filter (fun p => negb (str_is_empty p)) (map trim pieces)) cs.
Proof using Hlimit.
  revert out g. induction pieces as [|x pieces IH]; intros out g Hx Hg Hc.
  { cbn [fold_left map List.filter]. rewrite flush_group by done. destruct g as [|p g].
    - exists []. rewrite app_nil_r. split; [done|constructor].
    - exists [join gap (p :: g)]. split; [done|]. by constructor; [| |intros|constructor]. }
  apply Forall_cons in Hx as [Hx Hxs]. cbn [fold_left map]. rewrite filter_cons_para, add_paragraph_group by done.
  destruct (str_is_empty (trim x)) eqn:Ee; [by apply IH|].
  assert (para (trim x)) as Hp by (apply trim_para; [done|intros H; by rewrite H in Ee]).
  destruct (limit <? char_count (trim x)) eqn:El; [apply Nat.ltb_lt in El|apply Nat.ltb_ge in El].
  - destruct (hard_chunks_spec limit (trim x) Hlimit (proj1 Hp)) as [H1 H2].
    destruct (IH (flushed (out, join gap g) ++ hard_chunks (trim x) limit) [] Hxs ltac:(constructor) ltac:(cbn; lia))
      as (cs & E & HC).
    assert (Chunked limit (trim x :: List.filter (fun p => negb (str_is_empty p)) (map trim pieces))
      (hard_chunks (trim x) limit ++ cs)) as HL.
    { apply Chunked_long; try done. intros Hn. rewrite Hn in H1. by destruct Hp as (_ & _ & []). }
    rewrite flush_group in E |- * by done. destruct g as [|p g].
    + exists (hard_chunks (trim x) limit ++ cs). by rewrite app_assoc.
    + exists (join gap (p :: g) :: hard_chunks (trim x) limit ++ cs). split.
      * etransitivity; [exact E|]. by rewrite <- !app_assoc.
      * apply (Chunked_group limit (p :: g)); [done|done| |done]. intros q qs Hq; injection Hq as <- <-.
        rewrite join_snoc by done. destruct (para_append _ _ (join_para (p :: g) ltac:(done) Hg) Hp) as [_ ->]. lia.
  - destruct (limit <? char_count (join gap (g ++ [trim x]))) eqn:Ej; cbn [andb].
    + apply Nat.ltb_lt in Ej. destruct (decide (g = [])) as [->|Hn]; [cbn in Ej; lia|].
      rewrite bool_decide_eq_false_2 by done. cbn [negb].
      destruct (IH (out ++ [join gap g]) [trim x] Hxs ltac:(by apply Forall_singleton) El) as (cs & E & HC).
      exists (join gap g :: cs). split; [etransitivity; [exact E|by rewrite <- app_assoc]|].
      apply Chunked_group; [done|done| |done]. by intros q qs Hq; injection Hq as <- <-.
    + apply Nat.ltb_ge in Ej.
      destruct (IH out (g ++ [trim x]) Hxs) as (cs & E & HC); [apply Forall_app; split; [done|by apply Forall_singleton]|done|].
      exists cs. split; [exact E|]. by rewrite <- app_assoc in HC.
Qed.

Lemma blank_text (l : list string) :
  Forall (fun x => head_ok x = true) l ->
  List.filter (fun p => negb (str_is_empty p)) (map trim l) = [] -> is_blank (join gap l) = true.
Proof.
  induction l as [|x l IH]; intros HF; [done|]. apply Forall_cons in HF as [Hx HF].
  cbn [map]. rewrite filter_cons_para. destruct (str_is_empty (trim x)) eqn:E; [|done]. cbn [app]. intros H.
  specialize (IH HF H). destruct l as [|y l]; [done|].
  change (is_blank (x +:+ gap +:+ join gap (y :: l)) = true).
  assert (head_ok (join gap (y :: l)) = true) as Hj.
  { clear -HF. induction l as [|z l IHl] using rev_ind; [by apply Forall_cons in HF as [? _]|].
    change (y :: l ++ [z]) with ((y :: l) ++ [z]) in *. apply Forall_app in HF as [HF Hz]. apply Forall_cons in Hz as [Hz _].
    rewrite join_snoc by done. apply head_ok_app; [by apply IHl|]. by apply head_ok_app. }
  rewrite !is_blank_app by (done || by apply head_ok_app). rewrite IH.
  change (is_blank gap) with true. unfold is_blank. by rewrite E.
Qed.
End chunks.

(** C16: No text is lost and no chunk is too long: the chunks of a text are what
    the reference makes of its paragraphs.  As many paragraphs in a row as fit
    the limit are one chunk, with a blank line between them; a paragraph longer
    than the limit is cut into parts that fit it and are the paragraph when
    put together again. *)
Theorem chunks_keep_the_paragraphs (text : string) (limit : nat) :
  well_placed text = true -> 0 < limit -> Chunked limit (paragraphs text) (chunk_text text limit).
Proof.
  intros Ht Hl. pose proof (split_gap_placed (String.length text) text Ht) as Hs.
  assert (Forall (fun x => head_ok x = true) (split_str gap text)) as Hh.
  { eapply Forall_impl; [exact Hs|]. intros x. apply well_placed_head_ok. }
  destruct (chunks_from_group limit Hl (split_str gap text) [] [] Hh ltac:(constructor) ltac:(cbn; lia)) as (cs & E & HC).
  unfold chunk_text. unfold flushed in E. change (join gap []) with EmptyString in E.
  destruct (fold_left (add_paragraph limit) (split_str gap text) ([], EmptyString)) as [out buf].
  cbn [fst snd] in E. rewrite E. cbn [app] in HC |- *. unfold paragraphs.
  destruct cs as [|c cs]; [|exact HC]. pose proof (chunked_empty _ _ HC) as Hp. rewrite Hp in HC |- *.
  pose proof (blank_text (split_str gap text) Hh Hp) as Hb.
  unfold split_str in Hb. rewrite join_split_loop in Hb. rewrite Hb. exact HC.
Qed.

Definition two_notes : string := "  one" +:+ gap +:+ "two " +:+ gap +:+ nl +:+ gap +:+ "three three".

Example chunks_keep_the_paragraphs_witness :
  Chunked 8 ["one"; "two"; "three three"] ["one" +:+ gap +:+ "two"; "three th"; "ree"].
Proof. exact (chunks_keep_the_paragraphs two_notes 8 eq_refl ltac:(lia)). Defined.

(** A chunk size of zero drops the whole text. *)
Theorem no_chunks_of_size_zero (text : string) : chunk_text text 0 = [].
Proof.
  unfold chunk_text.
  assert (forall pieces, fold_left (add_paragraph 0) pieces ([], EmptyString) = ([], EmptyString)) as ->.
  { induction pieces as [|x pieces IH]; [done|]. cbn [fold_left]. rewrite <- IH at 2. f_equal.
    unfold add_paragraph. destruct (str_is_empty (trim x)) eqn:E; [done|].
    assert (0 < char_count (trim x)) as Hc.
    { unfold char_count. destruct (chars (trim x)) eqn:Ec; [|cbn; lia]. apply chars_empty in Ec. by rewrite Ec in E. }
    by rewrite (proj2 (Nat.ltb_lt _ _) Hc). }
  cbn [negb is_blank]. by destruct (is_blank text).
Qed.

(** ** The vectors of an ingestion *)

Lemma assign_vectors_zip (vecs : list (list Z)) (pre mid post : list KbDocDocument) :
  length mid = length vecs ->
  assign_vectors (length pre) vecs (pre ++ mid ++ post) = Some (pre ++ zip_with with_vector mid vecs ++ post).
Proof.
  revert pre mid. induction vecs as [|v vecs IH]; intros pre mid Hl.
  { by apply nil_length_inv in Hl as ->. }
  destruct mid as [|d mid]; [done|]. injection Hl as Hl. cbn [assign_vectors].
  change ((d :: mid) ++ post) with (d :: mid ++ post). rewrite list_lookup_middle by done.
  rewrite insert_app_r_alt by lia. rewrite Nat.sub_diag.
  change (<[0 := with_vector d v]> (d :: mid ++ post)) with (with_vector d v :: mid ++ post).
  replace (S (length pre)) with (length (pre ++ [with_vector d v])) by (rewrite length_app; cbn; lia).
  replace (pre ++ with_vector d v :: mid ++ post) with ((pre ++ [with_vector d v]) ++ mid ++ post)
    by by rewrite <- app_assoc.
  rewrite IH by done. by rewrite <- app_assoc.
Qed.

Lemma zip_with_vectors (vec : string -> list Z) (ds : list KbDocDocument) :
  zip_with with_vector ds (map vec (map doc_text ds)) = map (fun d => with_vector d (vec (doc_text d))) ds.
Proof. induction ds as [|d ds IH]; cbn; [done|]. by rewrite IH. Qed.

Section embedding.
Context {W : Type}.
Variables (llm_embed : list string -> Act W CoreError.t (list (list Z))) (vec : string -> list Z).
Hypothesis Hembed : forall texts w, exists w', llm_embed texts w = (Ok (map vec texts), w').

Lemma embed_loop_from (fuel idx : nat) (ds : list KbDocDocument) (w : W) :
  length ds <= idx + fuel ->
  let embedded := map (fun d => with_vector d (vec (doc_text d))) in
  exists w', embed_loop llm_embed fuel idx (embedded (take idx ds) ++ drop idx ds) w = (Some (Ok (embedded ds)), w').
Proof using Hembed.
  intros Hf embedded. revert idx w Hf. induction fuel as [|fuel IH]; intros idx w Hf; cbn [embed_loop].
  { exists w. unfold prog_ret. rewrite take_ge, drop_ge, app_nil_r by lia. done. }
  assert (length (embedded (take idx ds) ++ drop idx ds) = length ds) as HL
    by (unfold embedded; rewrite length_app, length_map, length_take, length_drop; lia).
  rewrite HL. destruct (idx <? length ds) eqn:E; [apply Nat.ltb_lt in E|apply Nat.ltb_ge in E].
  2: { exists w. unfold prog_ret. rewrite take_ge, drop_ge, app_nil_r by lia. done. }
  set (stop := Nat.min (idx + BATCH) (length ds)).
  assert (idx < stop <= length ds) as Hstop by (unfold stop, BATCH; lia).
  assert (length (embedded (take idx ds)) = idx) as Hpre by (unfold embedded; rewrite length_map, length_take; lia).
  assert (drop idx (embedded (take idx ds) ++ drop idx ds) = drop idx ds) as Hd
    by (rewrite drop_app_length' by done; done).
  set (mid := take (stop - idx) (drop idx ds)).
  destruct (Hembed (map doc_text mid) w) as [w1 Ew].
  assert (forall A (k : list (list Z) -> Prog W string A),
    prog_bind (prog_act (fun e => "embed failed: " +:+ CoreError.display e) (llm_embed (map doc_text mid))) k w
    = k (map vec (map doc_text mid)) w1) as Hb.
  { intros A k. unfold prog_bind, prog_act. by rewrite Ew. }
  rewrite Hd. fold mid. rewrite Hb.
  assert (drop idx ds = mid ++ drop stop ds) as Hm.
  { unfold mid. rewrite <- (take_drop (stop - idx) (drop idx ds)) at 1. rewrite drop_drop. do 2 f_equal. lia. }
  assert (assign_vectors idx (map vec (map doc_text mid)) (embedded (take idx ds) ++ drop idx ds)
    = Some (embedded (take stop ds) ++ drop stop ds)) as Ha.
  { rewrite Hm. rewrite <- Hpre at 1. rewrite assign_vectors_zip by by rewrite !length_map.
    rewrite zip_with_vectors. f_equal. rewrite app_assoc. f_equal. unfold embedded. rewrite <- map_app. f_equal.
    unfold mid. replace stop with (idx + (stop - idx)) at 2 by lia.
    rewrite <- (take_drop idx (take (idx + (stop - idx)) ds)). rewrite take_take, skipn_firstn_comm.
    replace (Nat.min idx (idx + (stop - idx))) with idx by lia.
    do 2 f_equal. lia. }
  rewrite Ha. unfold prog_bind at 1, prog_option. cbn [option_map]. apply IH. lia.
Qed.
End embedding.

(** C37: As long as the provider returns one vector for each text, an ingestion of
    any number of documents panics nowhere, whatever the batches: each
    document keeps all it had and gets the vector of its own text. *)
Theorem every_document_is_embedded {W} (llm_embed : list string -> Act W CoreError.t (list (list Z)))
    (vec : string -> list Z) (ds : list KbDocDocument) (w : W) :
  (forall texts w, exists w', llm_embed texts w = (Ok (map vec texts), w')) ->
  exists w', embed_loop llm_embed (length ds) 0 ds w =
    (Some (Ok (map (fun d => with_vector d (vec (doc_text d))) ds)), w').
Proof. intros H. apply (embed_loop_from llm_embed vec H (length ds) 0 ds w). lia. Qed.

Example every_document_is_embedded_witness :
  let embed (texts : list string) : Act nat CoreError.t (list (list Z)) :=
    fun calls => (Ok (map (fun t => [Z.of_nat (String.length t)]) texts), S calls) in
  let ds := repeat (chunk_document "kb" "a.md" 0 0 "text") 65 in
  exists calls, embed_loop embed (length ds) 0 ds 0 =
    (Some (Ok (map (fun d => with_vector d [Z.of_nat (String.length (doc_text d))]) ds)), calls).
Proof.
  intros embed ds. apply (every_document_is_embedded embed (fun t => [Z.of_nat (String.length t)]) ds 0).
  intros texts w. eexists. reflexivity.
Defined.

(** A provider that returns too few vectors goes unnoticed: documents keep the
    empty vector.  One that returns too many makes the last batch panic. *)
Theorem short_embeddings_go_unnoticed :
  let few (texts : list string) : Act unit CoreError.t (list (list Z)) := act_ret [[7%Z]] in
  let many (texts : list string) : Act unit CoreError.t (list (list Z)) := act_ret (map (fun _ => [7%Z]) ("" :: texts)) in
  let ds := [chunk_document "kb" "a" 0 0 "x"; chunk_document "kb" "a" 0 1 "y"] in
  (embed_loop few 2 0 ds tt).1 = Some (Ok (imap (fun i d => if i =? 0 then with_vector d [7%Z] else d) ds))
  /\ (embed_loop many 2 0 ds tt).1 = None.
Proof. split; vm_compute; reflexivity. Qed.

(** ** The hits of a search *)

Lemma SFcompare_swap (a b : spec_float) : SFcompare a b = Some Gt -> SFcompare b a = Some Lt.
Proof.
  destruct a as [s|s| |s m e], b as [s'|s'| |s' m' e']; try destruct s; try destruct s'; try done; cbn [SFcompare];
    rewrite (Z.compare_antisym e e'); destruct (e ?= e')%Z; cbn [CompOpp]; try done;
    pose proof (Pos.compare_cont_antisym m m' Eq) as Hm; cbn [CompOpp] in Hm; rewrite <- Hm;
    by destruct (Pos.compare_cont Eq m m').
Qed.

#[export] Instance score_le_total : Total score_le.
Proof.
  intros a b. unfold score_le, score_cmp. destruct (F32.partial_cmp (typed_score a) (typed_score b)) as [[]|] eqn:E; cbn; auto.
  right. unfold F32.partial_cmp in *. by rewrite (SFcompare_swap _ _ E).
Qed.

(** A search returns at most [k] of the store's hits, all of its data set, in
    the order of their scores. *)
Lemma select_hits_spec (dataset : string) (k : Z) (hits : list (ScoredTypedVectorDocument KbDocMetadata)) :
  length (select_hits dataset k hits) <= Z.to_nat k
  /\ Forall (fun h => dataset_id (doc_metadata (typed_item h)) = dataset) (select_hits dataset k hits)
  /\ (exists rest, select_hits dataset k hits ++ rest
        ≡ₚ List.filter (fun h => String.eqb (dataset_id (doc_metadata (typed_item h))) dataset) hits)
  /\ Sorted score_le (select_hits dataset k hits).
Proof.
  unfold select_hits. set (l := List.filter _ hits). pose proof (sort_by_perm score_le l) as Hp. split_and!.
  - rewrite length_take. lia.
  - apply Forall_take. eapply Forall_impl; [|intros h H; apply String.eqb_eq, H].
    rewrite Hp. apply Forall_forall. intros h Hh. apply list_elem_of_In, filter_In in Hh. apply Hh.
  - exists (drop (Z.to_nat k) (sort_by score_le l)). by rewrite take_drop.
  - pose proof (sort_by_sorted score_le l) as Hs. rewrite <- (take_drop (Z.to_nat k) (sort_by score_le l)) in Hs.
    revert Hs. generalize (drop (Z.to_nat k) (sort_by score_le l)). intros r.
    induction (take (Z.to_nat k) (sort_by score_le l)) as [|x t IH]; [constructor|].
    cbn. intros [Ht Hx]%Sorted_inv. constructor; [by apply IH|]. destruct t; [constructor|].
    constructor. by apply HdRel_inv in Hx.
Qed.

(** The data set is chosen after the store's: five hits of another one, and a
    search for one document finds nothing. *)
Theorem another_dataset_crowds_out (other : ScoredTypedVectorDocument KbDocMetadata) (dataset : string) (k : Z) n :
  dataset_id (doc_metadata (typed_item other)) <> dataset -> select_hits dataset k (repeat other n) = [].
Proof.
  intros H. unfold select_hits. assert (List.filter
    (fun h => String.eqb (dataset_id (doc_metadata (typed_item h))) dataset) (repeat other n) = []) as ->.
  { induction n as [|n IH]; [done|]. cbn. rewrite (proj2 (String.eqb_neq _ _) H). exact IH. }
  by destruct (Z.to_nat k).
Qed.
