(* ===== verification/ExampleSuites.v ===== *)
(** * The example suites

    [src/src/suites]: the knowledge base, the document review and the suite
    debugger.  All three run one agent per message under the workflow runner;
    they differ in the settings of the agent, in what they check first and in
    their tools.  The agent's run ([AgentLoop.run_until_block]) is an argument
    of the executors, over the thread store the run shares with them. *)

From stdpp Require Import base list strings gmap.
From Stdlib Require Import ZArith Lia Ascii.
From S2P Require Import Prelude.
From S2P Require Import RustStr.
From S2P Require Import Json.
From S2P Require Import Errors.
From S2P Require Import Text.
From S2P Require Import Scope.
From S2P Require Import Storage.
From S2P Require Import MemoryStorage.
From S2P Require Import Caching.
From S2P Require Import SessionTypes.
From S2P Require Import Samples.
From S2P Require Import ThreadStore.
From S2P Require Import Workflow.
From S2P Require Import Tools.
From S2P Require Import Transcript.
From S2P Require Import Llm.
From S2P Require Import Redaction.
From S2P Require Import JsonRepair.
From S2P Require Import AgentLoop.
From S2P Require Import Dates.
From S2P Require Import Analysis.
From S2P Require Import Suites.
From S2P Require Import Floats.
From S2P Require Import Utf8.
From S2P Require Import Vectors.
From S2P Require Import KnowledgeBase.

(** ** One agent run per message *)

(** What a suite sets of the agent's context, its prompt and its model call. *)
Record AgentRun : Type := {
  run_top_k : nat;
  run_timeout_secs : Z;
  run_max_steps : nat;
  run_agent_name : string;
  run_system_prompt : string;
  run_tools_card : string;
  run_question : string;
  run_options : LlmCallOptions
}.

Definition interrupt_kind (k : InterruptKind.t) : string :=
  match k with InterruptKind.AwaitUser => "await_user" | InterruptKind.AwaitApproval => "await_approval" end.

(** The outcome of a run as the outcome of the phase. *)
Definition phase_outcome (r : Result RunOutcome.t CoreError.t) : PhaseOutcome.t FlowFrame.t :=
  match r with
  | Ok (RunOutcome.Complete _ result) =>
      PhaseOutcome.Return [FlowFrame.Complete (mkFlowKind (tr_kind result)) (tr_payload result) (tr_display result)]
  | Ok (RunOutcome.Interrupt _ kind prompt) =>
      PhaseOutcome.Return [FlowFrame.Interrupt (mkFlowKind (interrupt_kind kind)) prompt]
  | Err e => PhaseOutcome.Failed (CoreError.display e)
  end.

(** [WorkflowConfig { max_phase_steps: 1, .. }] *)
Definition one_phase_step : Config := {|
  max_phase_steps := 1; max_consecutive_waiting_idle := 5; max_consecutive_waiting_active := 12;
  max_total_steps := max_total_steps default_config
|}.

Section suites.
Context {W K : Type} `{HSt : !StorageAdapter W, HT : !Timer W, HK : !Keyspace K,
  HC : !Codec ThreadLog.t, HU : !UtcClock W, HR : !ToRfc3339}.
Variable scope : RequestScope.
Variable keyspace : K.
(** [Agent::run_until_block] with its context. *)
Variable run_agent : AgentRun -> ThreadStore W -> Result RunOutcome.t CoreError.t * ThreadStore W.

(** [step_count] of every executor. *)
Definition logged_steps (thread_id : string) (s : ThreadStore W) : nat * ThreadStore W :=
  match ThreadStore.get scope keyspace thread_id s with
  | (Ok log, s) => (length (ThreadLog.steps log), s)
  | (Err _, s) => (0, s)
  end.

(** An executor whose turn runs the agent that [prepare] sets up, or fails. *)
Definition agent_executor (thread_id : string)
  (prepare : ThreadStore W -> Result AgentRun string * ThreadStore W) : PhaseExecutor (ThreadStore W) FlowFrame.t := {|
  execute_turn out s :=
    match prepare s with
    | (Ok setup, s) => let '(r, s) := run_agent setup s in (phase_outcome r, out, s)
    | (Err e, s) => (PhaseOutcome.Failed e, out, s)
    end;
  on_budget_exhausted out _ s := (out, s);
  step_count := logged_steps thread_id
|}.

(** [run_kb], [run_review], [run_debug]: [None] is the runner out of fuel. *)
Definition run_suite (thread_id : string)
  (prepare : ThreadStore W -> Result AgentRun string * ThreadStore W) : Prog W string (list FlowFrame.t) :=
  fun w =>
    match Workflow.run (PhaseExecutor0 := agent_executor thread_id prepare) one_phase_step (ThreadStore.new w) with
    | Some (Ok frames, s) => (Some (Ok frames), storage s)
    | Some (Err (e, _), s) => (Some (Err (WorkflowError.display e)), storage s)
    | None => (None, w)
    end.

(** [ctx.ensure_preflight_phase_step(..)], by a writer of its own. *)
Definition ctx_preflight (thread_id agent suite : string) : Op W unit :=
  fun w => let '(now, w) := now_iso w in
           let '(r, s) := ensure_preflight_phase_step scope keyspace now thread_id agent (Some suite) "preflight"
                            (ThreadStore.new w) in
           (match r with Ok _ => Ok tt | Err e => Err e end, storage s).

(** The handlers after the check of the agent type. *)
Definition handle_message (suite thread_id agent_type : string)
  (prepare : ThreadStore W -> Result AgentRun string * ThreadStore W) : Prog W string (list FlowFrame.t) :=
  run! _ <- prog_act CoreError.display (ctx_preflight thread_id agent_type suite);
  run! frames <- run_suite thread_id prepare;
  run! _ <- prog_act CoreError.display (record_flow_frames scope keyspace thread_id agent_type frames);
  prog_ret frames.

(** ** The knowledge base *)

Definition kb_system_prompt : string :=
  nl +:+ "You are a knowledge-base assistant." +:+ nl +:+ nl
  +:+ "You can ingest local files into the vector store and then answer questions using semantic search." +:+ nl +:+ nl
  +:+ "Rules:" +:+ nl
  +:+ "- Prefer using kb_search to retrieve relevant snippets before answering." +:+ nl
  +:+ "- If the knowledge base is empty or missing relevant content, ingest a directory with kb_ingest_dir." +:+ nl
  +:+ "- When you answer, cite the filename(s) you used and keep quotes short." +:+ nl.

Definition kb_validate_agent_type (agent_type : string) : Result unit string :=
  if String.eqb agent_type "kb" then Ok tt
  else Err ("invalid agent_type '" +:+ agent_type +:+ "' for suite 'kb' (expected 'kb')").

(** The names and descriptions of the tools; their calls are arguments. *)
Definition kb_tools (ingest search : Value -> Act (ThreadStore W) string Value) : list (Tool (ThreadStore W)) := [
  {| tool_name := "kb_ingest_dir";
     description := "Ingest a local directory of text files. args: {dir, dataset_id, max_files?, max_bytes?, chunk_chars?}.";
     max_output_bytes := MAX_OUTPUT_BYTES; tool_call := ingest |};
  {| tool_name := "kb_search";
     description := "Semantic search over kind=doc embeddings. args: {query, k, dataset_id} (default dataset_id "
       +:+ dquote +:+ "kb" +:+ dquote +:+ ").";
     max_output_bytes := MAX_OUTPUT_BYTES; tool_call := search |}].

Definition duplicate_display (e : DuplicateTool) : string := "duplicate tool registered: " +:+ duplicate_name e.

Definition kb_build_tools (ingest search : Value -> Act (ThreadStore W) string Value) (has_vector : bool)
  : Result (ToolRegistry (W := ThreadStore W)) string :=
  match register_all (kb_tools ingest search) registry_new with
  | Err e => Err (duplicate_display e)
  | Ok r => if has_vector then Ok r else Err "vector provider missing"
  end.

(** [LLM_KB_MAX_TOKENS], and [LLM_KB_REASONING_EFFORT] with its aliases. *)
Definition kb_max_tokens (env : string -> option string) : Z :=
  Z.min (Z.max (default 4000%Z (env "LLM_KB_MAX_TOKENS" ≫= parse_uint u32_max)) 800) 32000.

Definition effort_names : list (string * ReasoningEffort) :=
  [("none", EffortNone); ("low", Low); ("medium", Medium); ("high", High); ("", High);
   ("extra_high", ExtraHigh); ("xhigh", ExtraHigh)].

Definition kb_effort `{!UnicodeLower} (env : string -> option string) : ReasoningEffort :=
  match (fun s => to_lowercase (trim s)) <$> env "LLM_KB_REASONING_EFFORT" with
  | None => High
  | Some name => default High (assoc_get name effort_names)
  end.

Definition suite_options (prompt : string) (thread_id : option string) (max_out : Z) (effort : ReasoningEffort)
  (temp timeout : option Z) : LlmCallOptions :=
  {| prompt_id := prompt; opt_thread_id := thread_id; model := None; expected_format := JsonObject;
     max_output_tokens := Some max_out; temperature := temp; top_p := None; reasoning_effort := Some effort;
     timeout_secs := timeout |}.

Definition kb_setup `{!UnicodeLower} (env : string -> option string) (registry : ToolRegistry (W := ThreadStore W))
  (thread_id question : string) : AgentRun :=
  {| run_top_k := 20; run_timeout_secs := 30; run_max_steps := 30; run_agent_name := "kb";
     run_system_prompt := kb_system_prompt; run_tools_card := tool_card registry; run_question := question;
     run_options := suite_options "kb.run" (Some thread_id) (kb_max_tokens env) (kb_effort env) None None |}.

Definition kb_prepare `{!UnicodeLower} (env : string -> option string)
  (tools : Result (ToolRegistry (W := ThreadStore W)) string) (thread_id question : string)
  (s : ThreadStore W) : Result AgentRun string * ThreadStore W :=
  match tools with
  | Err e => (Err e, s)
  | Ok registry => (Ok (kb_setup env registry thread_id question), s)
  end.

(** [handle_new], [handle_open] and [handle_user] are the same. *)
Definition kb_handle `{!UnicodeLower} (env : string -> option string)
  (tools : Result (ToolRegistry (W := ThreadStore W)) string) (thread_id question agent_type : string)
  : Prog W string (list FlowFrame.t) :=
  run! _ <- prog_act id (act_lift (kb_validate_agent_type agent_type));
  handle_message "kb" thread_id agent_type (kb_prepare env tools thread_id question).

(** ** Document review *)

Definition review_system_prompt : string :=
  "You are a document review agent for a bridging loan application platform." +:+ nl
  +:+ nl
  +:+ "Your job is to:" +:+ nl
  +:+ "1. Extract text from uploaded documents using the extract_text tool" +:+ nl
  +:+ "2. Assess whether the extracted text satisfies the given requirement using the assess_requirement tool" +:+ nl
  +:+ "3. Return the assessment result" +:+ nl
  +:+ nl
  +:+ "Always call extract_text first, then assess_requirement with the extracted text." +:+ nl
  +:+ "If text extraction fails or returns empty, return a needs_human_review verdict.".

(** The code of [0.1f32]. *)
Definition tenth : Z := 1036831949.

Definition review_setup (registry : ToolRegistry (W := ThreadStore W))
  (thread_id question : string) : AgentRun :=
  {| run_top_k := 10; run_timeout_secs := 120; run_max_steps := 10; run_agent_name := "goggles_review";
     run_system_prompt := review_system_prompt; run_tools_card := tool_card registry; run_question := question;
     run_options := suite_options "goggles_review.run" (Some thread_id) 4000 Medium (Some tenth) (Some 120%Z) |}.

Definition review_prepare (registry : ToolRegistry (W := ThreadStore W))
  (thread_id question : string) (s : ThreadStore W) : Result AgentRun string * ThreadStore W :=
  (Ok (review_setup registry thread_id question), s).

Definition review_handle (registry : ToolRegistry (W := ThreadStore W))
  (thread_id question agent_type : string) : Prog W string (list FlowFrame.t) :=
  if negb (String.eqb agent_type "goggles_review")
  then prog_err ("invalid agent_type '" +:+ agent_type +:+ "' for goggles_review suite")
  else handle_message "goggles_review" thread_id agent_type (review_prepare registry thread_id question).
End suites.

(** ** The tools of the document review *)

Definition is_ascii_printable (c : string) : bool :=
  match c with
  | String a EmptyString =>
      let n := nat_of_ascii a in ((33 <=? n) && (n <=? 126)) || existsb (Nat.eqb n) [9; 10; 12; 13; 32]
  | _ => false
  end.

Definition extract_pdf_text (content : string) : Value :=
  let cleaned := concat_strings (List.filter is_ascii_printable (chars (from_utf8_lossy content))) in
  let text := trim cleaned in
  if String.length text <? 50
  then json_obj [("method", VString "pdf_fallback");
                 ("note", VString "Could not extract meaningful text from PDF. May be a scanned document requiring OCR or LLM vision.");
                 ("raw_length", num (Z.of_nat (String.length content))); ("text", VString ""); ("pages", VArray [])]
  else json_obj [("method", VString "pdf_text_layer"); ("text", VString text);
                 ("pages", VArray [json_obj [("page", num 1); ("text", VString text)]])].

Definition extraction (s3_key content_type content : string) : Value :=
  if contains content_type "pdf" then extract_pdf_text content
  else if starts_with content_type "image/" then
    json_obj [("method", VString "image_passthrough");
              ("note", VString "Image content requires LLM vision analysis. Pass the s3_key to the LLM with vision enabled.");
              ("s3_key", VString s3_key); ("content_type", VString content_type);
              ("size_bytes", num (Z.of_nat (String.length content)))]
  else json_obj [("method", VString "plaintext"); ("text", VString (from_utf8_lossy content)); ("pages", VArray [])].

Definition extract_text_call {W} `{HSt : !StorageAdapter W} (args : Value) : Act W string Value :=
  do! s3_key <- act_lift (match arg_str args "s3_key" with Some k => Ok k | None => Err "s3_key is required" end);
  let content_type := default "application/pdf" (arg_str args "content_type") in
  do! content <- act_map_err (fun e => "failed to read document from storage: " +:+ CoreError.display e) (get_bytes s3_key);
  act_ret (json_obj [("ok", VBool true); ("s3_key", VString s3_key); ("content_type", VString content_type);
                     ("extraction", extraction s3_key content_type content)]).

(** A verdict that asks for a person. *)
Definition needs_human_review (reasoning : string) : Value :=
  json_obj [("verdict", VString "needs_human_review"); ("confidence", VNumber (Float (F64.to_bits (F64.of_Z 0))));
            ("reasoning", VString reasoning); ("citations", VArray [])].

Definition assess_message (label descr question text : string) : string :=
  "REQUIREMENT: " +:+ label +:+ nl +:+ "DESCRIPTION: " +:+ descr +:+ nl +:+ "QUESTION CONTEXT: " +:+ question
    +:+ nl +:+ nl +:+ "EXTRACTED TEXT:" +:+ nl +:+ text.

Definition ASSESSMENT_PROMPT : string :=
  "You are a legal document reviewer assessing whether uploaded evidence satisfies a specific requirement for a bridging loan application." +:+ nl
  +:+ nl
  +:+ "You will be given:" +:+ nl
  +:+ "1. The REQUIREMENT that needs to be satisfied" +:+ nl
  +:+ "2. The QUESTION CONTEXT explaining what was asked" +:+ nl
  +:+ "3. The EXTRACTED TEXT from the uploaded document" +:+ nl
  +:+ nl
  +:+ "Your task:" +:+ nl
  +:+ "- Determine if the document satisfies the requirement" +:+ nl
  +:+ "- Quote verbatim passages from the document that support your conclusion" +:+ nl
  +:+ "- Provide a confidence score (0.0 to 1.0)" +:+ nl
  +:+ "- Explain your reasoning" +:+ nl
  +:+ nl
  +:+ "Respond with valid JSON in this exact format:" +:+ nl
  +:+ "{" +:+ nl
  +:+ "  " +:+ dquote +:+ "verdict" +:+ dquote +:+ ": " +:+ dquote +:+ "satisfied" +:+ dquote +:+ " | " +:+ dquote +:+ "not_satisfied" +:+ dquote +:+ " | " +:+ dquote +:+ "inconclusive" +:+ dquote +:+ " | " +:+ dquote +:+ "needs_human_review" +:+ dquote +:+ "," +:+ nl
  +:+ "  " +:+ dquote +:+ "confidence" +:+ dquote +:+ ": 0.85," +:+ nl
  +:+ "  " +:+ dquote +:+ "reasoning" +:+ dquote +:+ ": " +:+ dquote +:+ "Brief explanation of your assessment" +:+ dquote +:+ "," +:+ nl
  +:+ "  " +:+ dquote +:+ "citations" +:+ dquote +:+ ": [" +:+ nl
  +:+ "    {" +:+ nl
  +:+ "      " +:+ dquote +:+ "text" +:+ dquote +:+ ": " +:+ dquote +:+ "Exact verbatim quote from the document" +:+ dquote +:+ "," +:+ nl
  +:+ "      " +:+ dquote +:+ "page" +:+ dquote +:+ ": 1," +:+ nl
  +:+ "      " +:+ dquote +:+ "paragraph" +:+ dquote +:+ ": null," +:+ nl
  +:+ "      " +:+ dquote +:+ "relevance_note" +:+ dquote +:+ ": " +:+ dquote +:+ "Why this passage is relevant to the requirement" +:+ dquote +:+ nl
  +:+ "    }" +:+ nl
  +:+ "  ]" +:+ nl
  +:+ "}" +:+ nl
  +:+ nl
  +:+ "Rules:" +:+ nl
  +:+ "- Use " +:+ dquote +:+ "satisfied" +:+ dquote +:+ " only when the document clearly meets the requirement" +:+ nl
  +:+ "- Use " +:+ dquote +:+ "not_satisfied" +:+ dquote +:+ " when the document clearly does NOT meet the requirement" +:+ nl
  +:+ "- Use " +:+ dquote +:+ "inconclusive" +:+ dquote +:+ " when the document is ambiguous or partially meets it" +:+ nl
  +:+ "- Use " +:+ dquote +:+ "needs_human_review" +:+ dquote +:+ " when you cannot determine from text alone (e.g. signatures, stamps, image quality)" +:+ nl
  +:+ "- Citations MUST be verbatim quotes from the extracted text" +:+ nl
  +:+ "- Be conservative: when in doubt, use " +:+ dquote +:+ "needs_human_review" +:+ dquote +:+ nl.

Section assess.
Context {W : Type} `{HV : !DeserializeOwned Value}.
(** [ctx.llm_chat] *)
Variable llm_chat : list ChatMessage -> LlmCallOptions -> Prog W CoreError.t string.

Definition assess_options : LlmCallOptions :=
  suite_options "goggles_review.assess" None 2000 Medium (Some tenth) (Some 60%Z).

Definition parse_verdict (response : string) : Value :=
  match from_str (DeserializeOwned := HV) response with
  | Ok v => v
  | Err _ => needs_human_review ("Failed to parse LLM response as JSON. Raw: " +:+ truncate_chars_ellipsis response 500)
  end.

Definition assess_requirement_call (args : Value) : Prog W string Value :=
  let text := default EmptyString (arg_str args "extracted_text") in
  if is_blank text
  then prog_ret (needs_human_review "No text could be extracted from the document. Manual review required.")
  else
    run! response <- prog_map_err (fun e => "LLM assessment failed: " +:+ CoreError.display e)
      (llm_chat
        [{| role := ChatRole.System; content := ASSESSMENT_PROMPT |};
         {| role := ChatRole.User;
            content := assess_message (default "Unknown requirement" (arg_str args "requirement_label"))
              (default EmptyString (arg_str args "requirement_description"))
              (default EmptyString (arg_str args "question_prompt")) text |}]
        assess_options);
    prog_ret (parse_verdict response).
End assess.

(** ** One message, one run *)

Section laws.
Context {W K : Type} `{HSt : !StorageAdapter W, HT : !Timer W, HK : !Keyspace K,
  HC : !Codec ThreadLog.t, HU : !UtcClock W, HR : !ToRfc3339}.
Variables (scope : RequestScope) (ks : K).
Variable run_agent : AgentRun -> ThreadStore W -> Result RunOutcome.t CoreError.t * ThreadStore W.

(** What a run of the agent leaves to the transport. *)
Definition run_frames (r : Result RunOutcome.t CoreError.t) : Result (list FlowFrame.t) string :=
  match r with
  | Ok (RunOutcome.Complete _ result) =>
      Ok [FlowFrame.Complete (mkFlowKind (tr_kind result)) (tr_payload result) (tr_display result)]
  | Ok (RunOutcome.Interrupt _ kind prompt) => Ok [FlowFrame.Interrupt (mkFlowKind (interrupt_kind kind)) prompt]
  | Err e => Err (CoreError.display e)
  end.

(** One turn of the runner, without the runner. *)
Definition one_turn (thread_id : string) (prepare : ThreadStore W -> Result AgentRun string * ThreadStore W)
  : Act W string (list FlowFrame.t) :=
  fun w =>
    let s := (logged_steps scope ks thread_id (ThreadStore.new w)).2 in
    match prepare s with
    | (Err e, s) => (Err e, storage s)
    | (Ok setup, s) => let '(r, s) := run_agent setup s in (run_frames r, storage s)
    end.

Lemma first_turn_decides (config : Config) (fuel remaining : nat) thread_id prepare (s : ThreadStore W) :
  (max_total_steps config <? 1) = false ->
  run_loop (PhaseExecutor0 := agent_executor scope ks run_agent thread_id prepare) config (S fuel) (S remaining) 0 0 [] s
  = let s := (logged_steps scope ks thread_id s).2 in
    match prepare s with
    | (Err e, s) => Some (Err (WorkflowError.Failed e, []), s)
    | (Ok setup, s) =>
        let '(r, s) := run_agent setup s in
        Some (match run_frames r with Ok frames => Ok frames | Err e => Err (WorkflowError.Failed e, []) end, s)
    end.
Proof.
  intros H. cbn [run_loop step_count execute_turn agent_executor Nat.add]. rewrite H.
  destruct (logged_steps scope ks thread_id s) as [n s0]. cbn [snd].
  destruct (prepare s0) as [[setup|e] s1]; [|done].
  by destruct (run_agent setup s1) as [[[tid result|tid kind prompt]|e] s2].
Qed.

Lemma run_suite_one_turn thread_id prepare (w : W) :
  run_suite scope ks run_agent thread_id prepare w = prog_act id (one_turn thread_id prepare) w.
Proof.
  unfold run_suite, prog_act, one_turn, Workflow.run. rewrite Nat.add_1_r.
  change (max_phase_steps one_phase_step) with 1. rewrite first_turn_decides by done. cbv zeta.
  generalize (logged_steps scope ks thread_id (ThreadStore.new w)).2. intros s0.
  destruct (prepare s0) as [[setup|e] s1]; [|done].
  by destruct (run_agent setup s1) as [[[tid result|tid kind prompt]|e] s2].
Qed.

(** C40: A message to a suite runs its agent once: the handler, the workflow runner
    and its budgets come to the same as noting the first phase, one turn of
    the agent, and recording what it produced; a failure of any of the three
    ends the message with its text, and nothing is recorded of a failed run. *)
Theorem a_message_runs_the_agent_once (suite thread_id agent_type : string)
    (prepare : ThreadStore W -> Result AgentRun string * ThreadStore W) (w : W) :
  handle_message scope ks run_agent suite thread_id agent_type prepare w =
  prog_act id
    (do! _ <- act_map_err CoreError.display (ctx_preflight scope ks thread_id agent_type suite);
     do! frames <- one_turn thread_id prepare;
     do! _ <- act_map_err CoreError.display (record_flow_frames scope ks thread_id agent_type frames);
     act_ret frames) w.
Proof.
  unfold handle_message, prog_bind, prog_act, act_bind, act_map_err.
  destruct (ctx_preflight scope ks thread_id agent_type suite w) as [[[]|e] w1]; [|done].
  cbn [res_map_err]. rewrite run_suite_one_turn. unfold prog_act.
  destruct (one_turn thread_id prepare w1) as [[frames|e] w2]; [|done]. cbn [res_map_err id].
  destruct (record_flow_frames scope ks thread_id agent_type frames w2) as [[[]|e] w3]; done.
Qed.

(** A message for another agent type leaves everything as it was. *)
Theorem foreign_agent_types_are_refused `{HLow : !UnicodeLower} (env : string -> option string) tools registry
    (thread_id question agent_type : string) (w : W) :
  agent_type <> "kb" -> agent_type <> "goggles_review" ->
  (exists e, kb_handle scope ks run_agent env tools thread_id question agent_type w = (Some (Err e), w))
  /\ (exists e, review_handle scope ks run_agent registry thread_id question agent_type w = (Some (Err e), w)).
Proof.
  intros H1 H2. unfold kb_handle, review_handle, kb_validate_agent_type.
  rewrite (proj2 (String.eqb_neq _ _) H1), (proj2 (String.eqb_neq _ _) H2). split; by eexists.
Qed.
End laws.

(** A response that is no JSON asks for a person, and so does an empty text,
    without a call. *)
Theorem unreadable_assessments_need_a_person {W} `{HV : !DeserializeOwned Value} llm_chat (args : Value) (w : W) :
  is_blank (default EmptyString (arg_str args "extracted_text")) = true ->
  exists v, assess_requirement_call (HV := HV) llm_chat args w = (Some (Ok v), w)
    /\ Json.get v "verdict" = Some (VString "needs_human_review").
Proof. intros H. unfold assess_requirement_call. rewrite H. eexists. split; [done|]. reflexivity. Qed.
