(* ===== verification/SuiteDebugger.v ===== *)
(** * The suite debugger

    [src/src/suites/suite_debugger/src] and the debug provider of the
    knowledge base: finding the thread a question is about, the prompt with
    that thread's summary, the tools that read threads and logs, and the
    findings kept between turns.  Capabilities are arguments, [None] where the
    context has none; the JSON of a summary is a parameter. *)

From stdpp Require Import base list strings gmap.
From Stdlib Require Import ZArith Lia Ascii.
From S2P Require Import Prelude.
From S2P Require Import RustStr.
From S2P Require Import Json.
From S2P Require Import Errors.
From S2P Require Import Text.
From S2P Require Import Scope.
From S2P Require Import Storage.
From S2P Require Import Caching.
From S2P Require Import SessionTypes.
From S2P Require Import ThreadStore.
From S2P Require Import Tools.
From S2P Require Import Llm.
From S2P Require Import Redaction.
From S2P Require Import AgentLoop.
From S2P Require Import Dates.
From S2P Require Import Analysis.
From S2P Require Import Suites.
From S2P Require Import Floats.
From S2P Require Import Utf8.
From S2P Require Import Vectors.
From S2P Require Import KnowledgeBase.
From S2P Require Import ExampleSuites.

(** ** Settings *)

Record SuiteDebuggerConfig : Type := {
  dbg_reasoning_effort : ReasoningEffort;
  dbg_max_output_tokens : Z;
  strict_audit : bool;
  enable_admin_repo_query : bool
}.

Definition default_debugger_config : SuiteDebuggerConfig := {|
  dbg_reasoning_effort := Medium; dbg_max_output_tokens := 4000; strict_audit := false;
  enable_admin_repo_query := false |}.

Definition debugger_config (cap : option SuiteDebuggerConfig) : SuiteDebuggerConfig := default default_debugger_config cap.

(** [target_scope_for_suite] and [target_scope_for_agent]. *)
Definition target_scope (cap : option RequestScope) (own : RequestScope) : RequestScope := default own cap.

Definition build_llm_options (thread_id : string) (cfg : SuiteDebuggerConfig) : LlmCallOptions :=
  suite_options "suite_debugger.run" (Some thread_id) (dbg_max_output_tokens cfg) (dbg_reasoning_effort cfg) None None.

Definition debugger_validate_agent_type (agent_type : string) : Result unit string :=
  if String.eqb agent_type "suite_debugger" then Ok tt
  else Err ("invalid agent_type '" +:+ agent_type +:+ "' for suite 'suite_debugger' (expected 'suite_debugger')").

(** ** The thread a question is about *)

(** [char::is_alphanumeric], by Unicode tables. *)
Class UnicodeAlnum := is_alphanumeric : string -> bool.

Definition is_hex_or_dash (c : string) : bool :=
  match c with
  | String a EmptyString =>
      let n := nat_of_ascii a in
      ((48 <=? n) && (n <=? 57)) || ((65 <=? n) && (n <=? 70)) || ((97 <=? n) && (n <=? 102)) || (n =? 45)
  | _ => false
  end.

(** [trim_matches(|c| !c.is_alphanumeric() && c != '-')] *)
Definition trim_word `{!UnicodeAlnum} (cs : list string) : list string :=
  let out c := negb (is_alphanumeric c) && negb (String.eqb c "-") in
  rev (drop_while out (rev (drop_while out cs))).

Fixpoint first_thread_id `{!UnicodeAlnum} (ws : list (list string)) : option string :=
  match ws with
  | [] => None
  | w :: ws =>
      let cleaned := trim_word w in
      if (8 <=? String.length (concat_strings cleaned)) && forallb is_hex_or_dash cleaned
      then Some (concat_strings cleaned) else first_thread_id ws
  end.

Definition extract_target_thread_id `{!UnicodeAlnum} (question : string) : option string :=
  first_thread_id (words (chars question) []).

Definition extract_target_suite_id `{!UnicodeLower} (question : string) : option string :=
  find (contains (to_lowercase question)) ["kb"; "suite_debugger"].

Definition infer_target_suite_id (s : ThreadSummary) : option string :=
  if existsb (fun p => String.eqb (ps_name p) "kb") (phases s)
     || existsb (fun t => String.eqb (tc_name t) "kb_search" || String.eqb (tc_name t) "kb_ingest_dir") (tool_calls s)
  then Some "kb" else None.

(** ** The prompt *)

Definition debugger_intro : string :=
  "You are a thread execution debugger. You analyze thread logs from a React agent framework "
  +:+ "to identify issues, explain root causes, and suggest fixes." +:+ nl +:+ nl
  +:+ "Use only the tools listed in the tool card." +:+ nl +:+ nl
  +:+ "## Approach" +:+ nl
  +:+ "1. Start with the structured summary to understand the high-level picture" +:+ nl
  +:+ "2. Identify any detected issues (loops, stalls, errors, excessive LLM calls, phase regressions)" +:+ nl
  +:+ "3. Drill into specific steps around issue areas" +:+ nl
  +:+ "4. Check raw logs if you need low-level detail" +:+ nl
  +:+ "5. Provide a clear diagnosis with actionable recommendations" +:+ nl +:+ nl
  +:+ "## Pre-computed Summary" +:+ nl.

Definition audit_requirements : string :=
  nl +:+ "## Audit Requirements" +:+ nl
  +:+ "- Treat this as a forensic audit, not a generic advice session." +:+ nl
  +:+ "- Establish whether the thread completed, partially completed, or failed." +:+ nl
  +:+ "- Explain efficiency: what consumed time, what repeated, and what was unnecessary." +:+ nl
  +:+ "- Identify the single primary root cause and any secondary contributing factors." +:+ nl
  +:+ "- When discussing fixes, tie them to concrete evidence from phases, tool calls, log excerpts, or repo code retrieved via tools." +:+ nl
  +:+ "- Do not speculate when evidence is missing; explicitly say what you verified versus what remains uncertain." +:+ nl.

(** [json] is [serde_json::to_string_pretty] of the summary, when it succeeds. *)
Definition debugger_prompt (json : option string) (domain_context : option string) (strict : bool) : string :=
  debugger_intro +:+ (if strict then audit_requirements else EmptyString) +:+ default EmptyString json
  +:+ match domain_context with
      | Some dc => nl +:+ nl +:+ "## Domain Context" +:+ nl +:+ dc
      | None => EmptyString
      end.

(** ** Findings of earlier turns *)

Definition MAX_PRIOR_FINDINGS : nat := 3.

Record DebugSession : Type := {
  target_thread_id : string;
  target_suite_id : option string;
  prior_findings : list string
}.

Definition newSession (tid : string) (suite : option string) : DebugSession :=
  {| target_thread_id := tid; target_suite_id := suite; prior_findings := [] |}.

Definition extract_findings (result : ThreadResult) (s : DebugSession) : DebugSession :=
  let display := match tr_display result with
                 | Some d => d
                 | None => default "(no display)" (as_str (tr_payload result))
                 end in
  {| target_thread_id := target_thread_id s; target_suite_id := target_suite_id s;
     prior_findings := last_n MAX_PRIOR_FINDINGS (prior_findings s ++ [truncate_chars_ellipsis display 2000]) |}.

Definition finding_block (i : nat) (f : string) : string :=
  nl +:+ "### Turn " +:+ fmt_nat (i + 1) +:+ nl +:+ f +:+ nl.

Definition build_context_block (s : DebugSession) : string :=
  match prior_findings s with
  | [] => EmptyString
  | fs => nl +:+ "## Prior findings from this debug session:" +:+ nl +:+ concat_strings (imap finding_block fs)
  end.

(** ** The tools *)

Section tools.
Context {W K : Type} `{HSt : !StorageAdapter W, HT : !Timer W, HK : !Keyspace K, HC : !Codec ThreadLog.t,
  HCS : !Codec ThreadStep.t}.
Variable keyspace : K.
(** The scope of the agent, and the target scope of its capability. *)
Variables (own : RequestScope) (cap : option RequestScope).
(** [serde_json::to_value] of a summary. *)
Variable summary_value : ThreadSummary -> Result Value string.

Definition required_thread_id (args : Value) : Act W string string :=
  act_lift (match arg_str args "thread_id" with Some t => Ok t | None => Err "thread_id is required" end).

(** A read with a store of its own. *)
Definition read_target (thread_id : string) : Act W string ThreadLog.t :=
  fun w =>
    let '(r, s) := ThreadStore.get (target_scope cap own) keyspace thread_id (ThreadStore.new w) in
    (res_map_err (fun e => "failed to read thread: " +:+ CoreError.display e) r, storage s).

Definition list_threads_call (args : Value) : Act W string Value :=
  fun w =>
    let '(ids, s) := list_threads (target_scope cap own) keyspace (ThreadStore.new w) in
    (Ok (json_obj [("thread_ids", VArray (map VString ids)); ("count", num (Z.of_nat (length ids)))]), storage s).

(** [to_value(step)] with its index. *)
Definition indexed_step (i : nat) (s : ThreadStep.t) : Value :=
  match to_value s with
  | Ok (VObject m) => VObject (btree_insert "_index" (num (Z.of_nat i)) m)
  | Ok v => v
  | Err _ => VNull
  end.

Definition opt_string (o : option string) : Value := from_option VString VNull o.

Definition result_value (r : ThreadResult) : Value :=
  json_obj [("kind", VString (tr_kind r)); ("payload", tr_payload r); ("display", opt_string (tr_display r))].

Definition read_thread_call (args : Value) : Act W string Value :=
  do! thread_id <- required_thread_id args;
  do! log <- read_target thread_id;
  act_ret (json_obj [("thread_id", VString thread_id); ("title", opt_string (ThreadLog.title log));
                     ("step_count", num (Z.of_nat (length (ThreadLog.steps log))));
                     ("result", from_option result_value VNull (ThreadLog.result log));
                     ("steps", VArray (imap indexed_step (ThreadLog.steps log)))]).

Definition read_run_log_call (args : Value) : Act W string Value :=
  do! thread_id <- required_thread_id args;
  do! key <- act_lift (res_map_err (fun e => "invalid thread_id: " +:+ CoreError.display e)
    (thread_log_key keyspace (target_scope cap own) thread_id));
  do! content <- act_map_err (fun e => "failed to read run log: " +:+ CoreError.display e) (get_bytes key);
  let text := from_utf8_lossy content in
  let max_len := Z.to_nat (default 50000%Z (arg_u64 args "max_chars")) in
  act_ret (json_obj [("thread_id", VString thread_id); ("log", VString (truncate_chars text max_len));
                     ("truncated", VBool (max_len <? char_count text));
                     ("total_bytes", num (Z.of_nat (String.length content)))]).

Definition summarize_call `{HP : !Rfc3339, HI : !HashIter} (fmt_seconds : Z -> string) (args : Value) : Act W string Value :=
  do! thread_id <- required_thread_id args;
  do! log <- read_target thread_id;
  act_lift (res_map_err (fun e => "serialization error: " +:+ e) (summary_value (summarize fmt_seconds log))).
End tools.

(** ** [admin_repo_query] *)

Record AdminRepoMetadata : Type := {
  repo_root : string;
  repo_label : string;
  repo_path : string;
  repo_chunk_index : Z;
  sha256 : string
}.

Definition AdminRepoCollection (write : AdminRepoMetadata -> Result string string)
  (read : string -> Result AdminRepoMetadata string) : VectorCollection AdminRepoMetadata := {|
  NAMESPACE := "admin_repo"; metadata_to_string := write; metadata_from_str := read |}.

Definition repo_item (h : ScoredTypedVectorDocument AdminRepoMetadata) : Value :=
  let d := typed_item h in let m := doc_metadata d in
  json_obj [("repo_root", VString (repo_root m)); ("repo_label", VString (repo_label m));
            ("path", VString (repo_path m)); ("chunk_index", num (repo_chunk_index m));
            ("sha256", VString (sha256 m)); ("text", VString (doc_text d)); ("score", score_value (typed_score h))].

Definition admin_repo_query_call {W} `{HM : !VectorCollection AdminRepoMetadata, HVS : !VectorStore W}
  (llm_embed : list string -> Act W CoreError.t (list (list Z))) (has_vector : bool) (scope : RequestScope)
  (args : Value) : Act W string Value :=
  let query := trim (default EmptyString (arg_str args "query")) in
  if str_is_empty query then act_err "query is required" else
  let k := default 8%Z (arg_u64 args "k") in
  if negb has_vector then act_err "vector provider missing" else
  do! vecs <- act_map_err (fun e => "embed failed: " +:+ CoreError.display e) (llm_embed [query]);
  let qv := default [] (last vecs) in
  if bool_decide (qv = []) then act_err "empty embedding vector" else
  do! hits <- query_typed_documents scope qv k;
  act_ret (json_obj [("ok", VBool true); ("items", VArray (map repo_item hits));
                     ("count", num (Z.of_nat (length hits)))]).

(** The tools of the debugger, the query of the repository only where it is
    enabled; their calls are arguments. *)
Definition debugger_tools {W} (listing reading logs summary repo : Value -> Act W string Value) (admin : bool) : list (Tool W) :=
  let tool n d c := {| tool_name := n; description := d; max_output_bytes := MAX_OUTPUT_BYTES; tool_call := c |} in
  [tool "list_threads" "List thread IDs in the current scope. Returns {thread_ids, count}." listing;
   tool "read_thread" "Read the ThreadLog for a thread. args: {thread_id}." reading;
   tool "read_run_log" "Read the plain-text run log. args: {thread_id, max_chars?}." logs;
   tool "summarize_thread" "Structured ThreadSummary with phases, tool/LLM counts, and detected issues. args: {thread_id}." summary]
  ++ (if admin then [tool "admin_repo_query" "Search admin-only repo embeddings. args: {query, k?}." repo] else []).

Definition debugger_build_tools {W} (listing reading logs summary repo : Value -> Act W string Value) (admin : bool)
  : Result (ToolRegistry (W := W)) string :=
  res_map_err duplicate_display (register_all (debugger_tools listing reading logs summary repo admin) registry_new).

(** ** The suite *)

Section debugger.
Context {W K : Type} `{HSt : !StorageAdapter W, HT : !Timer W, HK : !Keyspace K,
  HC : !Codec ThreadLog.t, HU : !UtcClock W, HR : !ToRfc3339, HAl : !UnicodeAlnum, HLow : !UnicodeLower,
  HP : !Rfc3339, HI : !HashIter}.
(** [{:.1}] of a number of seconds, for the summary. *)
Variable fmt_seconds : Z -> string.
Variables (scope : RequestScope) (keyspace : K).
Variable run_agent : AgentRun -> ThreadStore W -> Result RunOutcome.t CoreError.t * ThreadStore W.
Variables (cfg : option SuiteDebuggerConfig) (cap : option RequestScope) (providers : option DebugRegistry.t).
Variable summary_json : ThreadSummary -> option string.
Variable tools : Result (ToolRegistry (W := ThreadStore W)) string.

Definition empty_summary : ThreadSummary := {|
  total_steps := 0; phases := []; llm_calls := 0; tool_calls := []; total_duration_ms := None; issues := [];
  summary_result := None |}.

(** The summary of the target thread and the context of its suite. *)
Definition target_context (question : string) (w : W) : option ThreadSummary * option string * W :=
  match extract_target_thread_id question with
  | None => (None, None, w)
  | Some tid =>
      let '(r, s) := ThreadStore.get (target_scope cap scope) keyspace tid (ThreadStore.new w) in
      let '(summary, suite) :=
        match r with
        | Ok log =>
            let summary := summarize fmt_seconds log in
            (Some summary, match extract_target_suite_id question with
                           | Some id => Some id
                           | None => infer_target_suite_id summary
                           end)
        | Err _ => (None, extract_target_suite_id question)
        end in
      let domain := id ← suite; reg ← providers; domain_context <$> DebugRegistry.get reg id in
      (summary, domain, storage s)
  end.

Definition debugger_prepare (thread_id question : string) (s : ThreadStore W)
  : Result AgentRun string * ThreadStore W :=
  let cfg := debugger_config cfg in
  match tools with
  | Err e => (Err e, s)
  | Ok registry =>
      let '(summary, domain, w) := target_context question (storage s) in
      let summary := default empty_summary summary in
      (Ok {| run_top_k := 20; run_timeout_secs := 30; run_max_steps := 30; run_agent_name := "suite_debugger";
             run_system_prompt := debugger_prompt (summary_json summary) domain (strict_audit cfg);
             run_tools_card := tool_card registry; run_question := question;
             run_options := build_llm_options thread_id cfg |}, mkThreadStore w (cache s))
  end.

Definition debugger_handle (thread_id question agent_type : string) : Prog W string (list FlowFrame.t) :=
  run! _ <- prog_act id (act_lift (debugger_validate_agent_type agent_type));
  handle_message scope keyspace run_agent "suite_debugger" thread_id agent_type (debugger_prepare thread_id question).
End debugger.

(** ** The debug provider of the knowledge base *)

Definition empty_search (s : ThreadStep.t) : bool :=
  match s with
  | ThreadStep.ToolEnd _ name _ _ ToolStepStatus.Ok _ _ observation _ _ =>
      String.eqb name "kb_search"
      && match assoc_get "items" (ToolObservation.extra observation) ≫= as_array with Some [] => true | _ => false end
  | _ => false
  end.

Fixpoint detect_empty_search_results (idx : nat) (steps : list ThreadStep.t) : list Issue :=
  match steps with
  | [] => []
  | s :: steps =>
      (if empty_search s
       then [{| issue_kind := IssueKind.HighErrorRate; issue_description := "kb_search returned zero results";
                step_range := (idx, idx) |}] else [])
      ++ detect_empty_search_results (S idx) steps
  end.

Definition is_ingest (s : ThreadStep.t) : bool :=
  match s with ThreadStep.ToolEnd _ name _ _ _ _ _ _ _ _ => String.eqb name "kb_ingest_dir" | _ => false end.

(** The loop: how many ingestions, and the first one. *)
Fixpoint count_ingestions (idx : nat) (steps : list ThreadStep.t) (count first : nat) : nat * nat :=
  match steps with
  | [] => (count, first)
  | s :: steps =>
      if is_ingest s then count_ingestions (S idx) steps (S count) (if count =? 0 then idx else first)
      else count_ingestions (S idx) steps count first
  end.

Definition detect_unnecessary_reingestion (steps : list ThreadStep.t) : list Issue :=
  let '(count, first) := count_ingestions 0 steps 0 0 in
  if 2 <=? count
  then [{| issue_kind := IssueKind.Loop;
           issue_description := "kb_ingest_dir called " +:+ fmt_nat count +:+ " times in same thread";
           step_range := (first, length steps - 1) |}]
  else [].

Definition kb_domain_context : string :=
  "The KB (Knowledge Base) suite manages vector-indexed document collections." +:+ nl +:+ nl
  +:+ "## Common Failure Patterns" +:+ nl
  +:+ "- Empty search results: a search tool returning zero items usually means the dataset hasn't "
  +:+ "been ingested yet or the query doesn't match any documents." +:+ nl
  +:+ "- Unnecessary re-ingestion: ingesting the same directory repeatedly without "
  +:+ "changes. Each call re-indexes all documents." +:+ nl
  +:+ "- Missing vector store: The suite requires a vector provider to be configured. If missing, "
  +:+ "all operations will fail.".

Definition KbDebugProvider : DebugProvider := {|
  dp_suite_id := "kb";
  detect_domain_issues log :=
    detect_empty_search_results 0 (ThreadLog.steps log) ++ detect_unnecessary_reingestion (ThreadLog.steps log);
  Suites.domain_context := kb_domain_context
|}.

(** ** Laws *)

Lemma drop_while_last (p : string -> bool) (l : list string) x :
  last (rev (drop_while p (rev l))) = Some x -> p x = false.
Proof.
  rewrite <- (rev_involutive (rev (drop_while p (rev l)))), rev_involutive.
  pose proof (drop_while_head p (rev l)) as H. destruct (drop_while p (rev l)) as [|y k]; [done|].
  cbn. rewrite last_snoc. by intros [= <-].
Qed.

(** The thread a question is about is named by eight or more hexadecimal
    digits and dashes, wherever they stand in the question. *)
Lemma target_thread_is_hex `{HAl : !UnicodeAlnum} (question tid : string) :
  extract_target_thread_id question = Some tid ->
  exists cs, tid = concat_strings cs /\ 8 <= String.length tid /\ Forall (fun c => is_hex_or_dash c = true) cs.
Proof.
  unfold extract_target_thread_id. induction (words (chars question) []) as [|w ws IH]; [done|]. cbn [first_thread_id].
  destruct (_ && _) eqn:E; [|exact IH]. apply andb_true_iff in E as [E1 E2]. intros [= <-].
  exists (trim_word w). split_and!; [done|by apply Nat.leb_le|]. apply Forall_forall. intros c Hc.
  rewrite forallb_forall in E2. by apply E2, list_elem_of_In.
Qed.

(** Eight dashes will do. *)
Example dashes_name_a_thread :
  let _ : UnicodeAlnum := fun c => match c with String a _ => is_ascii_alphanumeric a | _ => false end in
  extract_target_thread_id "what is -------- about?" = Some "--------"
  /\ extract_target_thread_id "see thread t-ask-1" = None.
Proof. split; reflexivity. Qed.

Lemma ellipsis_count (s : string) (n : nat) : char_count (truncate_chars_ellipsis s n) <= n + 3.
Proof.
  unfold truncate_chars_ellipsis. pose proof (char_count_truncate s n). cbv zeta.
  destruct (n <? char_count s); [|lia].
  pose proof (char_count_app_le (truncate_chars s n) "..."). change (char_count "...") with 3 in *. lia.
Qed.

(** A session keeps the last three findings, cut to 2000 characters, whatever
    came before. *)
Theorem a_session_keeps_three_findings (results : list ThreadResult) (tid : string) (suite : option string) :
  let s := fold_left (fun s r => extract_findings r s) results (newSession tid suite) in
  length (prior_findings s) = Nat.min 3 (length results)
  /\ Forall (fun f => char_count f <= 2003) (prior_findings s)
  /\ target_thread_id s = tid.
Proof.
  cbv zeta. assert (forall s n, length (prior_findings s) = Nat.min 3 n -> Forall (fun f => char_count f <= 2003) (prior_findings s) ->
    let s' := fold_left (fun s r => extract_findings r s) results s in
    length (prior_findings s') = Nat.min 3 (n + length results)
    /\ Forall (fun f => char_count f <= 2003) (prior_findings s') /\ target_thread_id s' = target_thread_id s) as H.
  { induction results as [|r rs IH]; intros s n Hl Hf; cbn [fold_left length].
    { rewrite Nat.add_0_r. done. }
    destruct (IH (extract_findings r s) (S n)) as (H1 & H2 & H3).
    - cbn [prior_findings extract_findings]. rewrite last_n_length, length_app, Hl. cbn [length]. unfold MAX_PRIOR_FINDINGS. lia.
    - cbn [prior_findings extract_findings]. destruct (last_n_suffix MAX_PRIOR_FINDINGS
        (prior_findings s ++ [truncate_chars_ellipsis (match tr_display r with Some d => d
          | None => default "(no display)" (as_str (tr_payload r)) end) 2000])) as [k Hk].
      assert (Forall (fun f => char_count f <= 2003) (prior_findings s ++ [truncate_chars_ellipsis
        (match tr_display r with Some d => d | None => default "(no display)" (as_str (tr_payload r)) end) 2000])) as HA.
      { apply Forall_app. split; [done|]. apply Forall_singleton. apply ellipsis_count. }
      rewrite Hk in HA. by apply Forall_app in HA as [_ HA].
    - rewrite H1, H3. split_and!; [lia|done|done]. }
  destruct (H (newSession tid suite) 0 eq_refl ltac:(constructor)) as (H1 & H2 & H3). done.
Qed.

(** The debugger refuses messages of other suites before it does anything. *)
Theorem debugger_refuses_other_agents {W K} `{HSt : !StorageAdapter W, HT : !Timer W, HK : !Keyspace K,
    HC : !Codec ThreadLog.t, HU : !UtcClock W, HR : !ToRfc3339, HAl : !UnicodeAlnum, HLow : !UnicodeLower,
    HP : !Rfc3339, HI : !HashIter} fmt scope (ks : K) run_agent cfg cap providers json tools thread_id question agent (w : W) :
  agent <> "suite_debugger" ->
  exists e, debugger_handle fmt scope ks run_agent cfg cap providers json tools thread_id question agent w = (Some (Err e), w).
Proof.
  intros H. unfold debugger_handle, debugger_validate_agent_type. rewrite (proj2 (String.eqb_neq _ _) H). by eexists.
Qed.

(** Every search that found nothing is reported, where it is. *)
Lemma empty_searches_reported (idx : nat) (steps : list ThreadStep.t) (i : nat) :
  (i, i) ∈ map step_range (detect_empty_search_results idx steps) <->
  exists s, idx <= i /\ steps !! (i - idx) = Some s /\ empty_search s = true.
Proof.
  revert idx. induction steps as [|s steps IH]; intros idx; cbn [detect_empty_search_results].
  { split; [intros H; inversion H|by intros (s & _ & H & _)]. }
  rewrite map_app, elem_of_app, IH. split.
  - intros [H|(s' & H1 & H2 & H3)].
    + destruct (empty_search s) eqn:E; [|inversion H]. apply list_elem_of_singleton in H. injection H as ->.
      exists s. by rewrite Nat.sub_diag.
    + exists s'. replace (i - idx) with (S (i - S idx)) by lia. split_and!; [lia|done|done].
  - intros (s' & H1 & H2 & H3). destruct (i - idx) as [|j] eqn:E; cbn in H2.
    + injection H2 as <-. left. rewrite H3. replace i with idx by lia. by apply list_elem_of_singleton.
    + right. exists s'. replace (i - S idx) with j by lia. split_and!; [lia|done|done].
Qed.
