(* ===== verification/Terminal.v ===== *)
(** * The terminal's view of a server

    [src/src/transport/src/ws/terminal.rs], its events and state, and
    [terminal_dbt.rs]: what the terminal renderer remembers of each thread and
    how an event changes it.  An [Instant] is a number of nanoseconds, given
    with each event; a [HashMap] is a finite map. *)

From stdpp Require Import base list strings gmap.
From Stdlib Require Import ZArith Lia Ascii.
From S2P Require Import Prelude.
From S2P Require Import RustStr.
From S2P Require Import Json.
From S2P Require Import Text.
From S2P Require Import Redaction.
From S2P Require Import WsModels.
From S2P Require Import AgentLoop.

(** ** [terminal_dbt.rs] *)

(** [s.replace(p, r)] for a non-empty pattern. *)
Definition replace_str (p r s : string) : string := join r (split_str p s).

Definition DBT_VALIDATE_TOOL_NAME : string := "dbt_validate".

Inductive DbtValidateKind : Type := DbtCompile | DbtBuild | DbtFull.
#[global] Instance DbtValidateKind_eq_dec : EqDecision DbtValidateKind.
Proof. solve_decision. Defined.

Definition is_dbt_validate_label (label : string) : bool :=
  contains (to_ascii_lowercase (trim label)) "validate dbt".

Definition dbt_validate_kind_from_label (label : string) : option DbtValidateKind :=
  let s := to_ascii_lowercase (trim label) in
  if negb (contains s "validate dbt") then None
  else if contains s "compile" then Some DbtCompile
  else if contains s "build" then Some DbtBuild
  else Some DbtFull.

Definition normalize_validate_dbt_label (label : string) : string :=
  replace_str " (compile)" " Compile" (replace_str " (build)" " Build" (trim label)).

Definition validate_dbt_sort_rank (label : string) : option nat :=
  let s := to_ascii_lowercase (trim (normalize_validate_dbt_label label)) in
  if negb (starts_with s "validate dbt") then None
  else if starts_with s "validate dbt compile" then Some 0
  else if starts_with s "validate dbt build" then Some 1
  else Some 2.

(** ** State *)

Module SpanStatus.
Inductive t : Type := Running | Ok | Failed.
#[global] Instance eq_dec : EqDecision t.
Proof. solve_decision. Defined.
End SpanStatus.

Record SpanState : Type := {
  span_label : string;
  span_detail : option string;
  span_description : option string;
  span_status : SpanStatus.t;
  started_at : Z;
  ended_at : option Z;
  span_phase : option string;
  span_ctx : option WsContext.t
}.

(** The five fields of an execution context, none of them without one. *)
Definition WorkItemKey : Type := WsContext.t.

Definition no_key : WorkItemKey := {|
  WsContext.plan_kind := None; WsContext.plan_key := None; WsContext.workgroup_id := None;
  WsContext.task_id := None; WsContext.checklist_item_id := None |}.

Definition key_from_ctx (ctx : option WsContext.t) : WorkItemKey := default no_key ctx.

Record ThreadView : Type := {
  suite_id : option string;
  agent_type : option string;
  current_phase : option string;
  phases : list string;
  completed_phases : list string;
  total_runtime_ms : option Z;
  items : gmap string WsItem.t;
  plans_by_kind : gmap string PlanSnapshot;
  plan_anchor_phase_by_kind : gmap string string;
  tool_spans : gmap string SpanState;
  llm_spans : gmap Z SpanState;
  focus_by_kind : gmap string WorkItemKey;
  expanded_work_items : list WorkItemKey;
  phase_reason_code : gmap string string;
  phase_reason_detail : gmap string Value;
  last_update : Z
}.

(** [ThreadView::default()] at an instant. *)
Definition new_view (now : Z) : ThreadView := {|
  suite_id := None; agent_type := None; current_phase := None; phases := []; completed_phases := [];
  total_runtime_ms := None; items := ∅; plans_by_kind := ∅; plan_anchor_phase_by_kind := ∅; tool_spans := ∅;
  llm_spans := ∅; focus_by_kind := ∅; expanded_work_items := []; phase_reason_code := ∅;
  phase_reason_detail := ∅; last_update := now |}.

Record Model : Type := { threads : gmap string ThreadView; selected : option string; started : Z }.

Definition new_model (now : Z) : Model := {| threads := ∅; selected := None; started := now |}.

(** Assignments to one field of a view. *)
Definition set_current_phase (v : option string) (t : ThreadView) : ThreadView :=
  {| suite_id := suite_id t; agent_type := agent_type t; current_phase := v; phases := phases t;
     completed_phases := completed_phases t; total_runtime_ms := total_runtime_ms t; items := items
     t; plans_by_kind := plans_by_kind t; plan_anchor_phase_by_kind := plan_anchor_phase_by_kind t;
     tool_spans := tool_spans t; llm_spans := llm_spans t; focus_by_kind := focus_by_kind t;
     expanded_work_items := expanded_work_items t; phase_reason_code := phase_reason_code t;
     phase_reason_detail := phase_reason_detail t; last_update := last_update t |}.
Definition set_phases (v : list string) (t : ThreadView) : ThreadView :=
  {| suite_id := suite_id t; agent_type := agent_type t; current_phase := current_phase t; phases :=
     v; completed_phases := completed_phases t; total_runtime_ms := total_runtime_ms t; items :=
     items t; plans_by_kind := plans_by_kind t; plan_anchor_phase_by_kind :=
     plan_anchor_phase_by_kind t; tool_spans := tool_spans t; llm_spans := llm_spans t;
     focus_by_kind := focus_by_kind t; expanded_work_items := expanded_work_items t;
     phase_reason_code := phase_reason_code t; phase_reason_detail := phase_reason_detail t;
     last_update := last_update t |}.
Definition set_completed_phases (v : list string) (t : ThreadView) : ThreadView :=
  {| suite_id := suite_id t; agent_type := agent_type t; current_phase := current_phase t; phases :=
     phases t; completed_phases := v; total_runtime_ms := total_runtime_ms t; items := items t;
     plans_by_kind := plans_by_kind t; plan_anchor_phase_by_kind := plan_anchor_phase_by_kind t;
     tool_spans := tool_spans t; llm_spans := llm_spans t; focus_by_kind := focus_by_kind t;
     expanded_work_items := expanded_work_items t; phase_reason_code := phase_reason_code t;
     phase_reason_detail := phase_reason_detail t; last_update := last_update t |}.
Definition set_items (v : gmap string WsItem.t) (t : ThreadView) : ThreadView :=
  {| suite_id := suite_id t; agent_type := agent_type t; current_phase := current_phase t; phases :=
     phases t; completed_phases := completed_phases t; total_runtime_ms := total_runtime_ms t; items
     := v; plans_by_kind := plans_by_kind t; plan_anchor_phase_by_kind := plan_anchor_phase_by_kind
     t; tool_spans := tool_spans t; llm_spans := llm_spans t; focus_by_kind := focus_by_kind t;
     expanded_work_items := expanded_work_items t; phase_reason_code := phase_reason_code t;
     phase_reason_detail := phase_reason_detail t; last_update := last_update t |}.
Definition set_plans_by_kind (v : gmap string PlanSnapshot) (t : ThreadView) : ThreadView :=
  {| suite_id := suite_id t; agent_type := agent_type t; current_phase := current_phase t; phases :=
     phases t; completed_phases := completed_phases t; total_runtime_ms := total_runtime_ms t; items
     := items t; plans_by_kind := v; plan_anchor_phase_by_kind := plan_anchor_phase_by_kind t;
     tool_spans := tool_spans t; llm_spans := llm_spans t; focus_by_kind := focus_by_kind t;
     expanded_work_items := expanded_work_items t; phase_reason_code := phase_reason_code t;
     phase_reason_detail := phase_reason_detail t; last_update := last_update t |}.
Definition set_plan_anchor_phase_by_kind (v : gmap string string) (t : ThreadView) : ThreadView :=
  {| suite_id := suite_id t; agent_type := agent_type t; current_phase := current_phase t; phases :=
     phases t; completed_phases := completed_phases t; total_runtime_ms := total_runtime_ms t; items
     := items t; plans_by_kind := plans_by_kind t; plan_anchor_phase_by_kind := v; tool_spans :=
     tool_spans t; llm_spans := llm_spans t; focus_by_kind := focus_by_kind t; expanded_work_items
     := expanded_work_items t; phase_reason_code := phase_reason_code t; phase_reason_detail :=
     phase_reason_detail t; last_update := last_update t |}.
Definition set_tool_spans (v : gmap string SpanState) (t : ThreadView) : ThreadView :=
  {| suite_id := suite_id t; agent_type := agent_type t; current_phase := current_phase t; phases :=
     phases t; completed_phases := completed_phases t; total_runtime_ms := total_runtime_ms t; items
     := items t; plans_by_kind := plans_by_kind t; plan_anchor_phase_by_kind :=
     plan_anchor_phase_by_kind t; tool_spans := v; llm_spans := llm_spans t; focus_by_kind :=
     focus_by_kind t; expanded_work_items := expanded_work_items t; phase_reason_code :=
     phase_reason_code t; phase_reason_detail := phase_reason_detail t; last_update := last_update t |}.
Definition set_llm_spans (v : gmap Z SpanState) (t : ThreadView) : ThreadView :=
  {| suite_id := suite_id t; agent_type := agent_type t; current_phase := current_phase t; phases :=
     phases t; completed_phases := completed_phases t; total_runtime_ms := total_runtime_ms t; items
     := items t; plans_by_kind := plans_by_kind t; plan_anchor_phase_by_kind :=
     plan_anchor_phase_by_kind t; tool_spans := tool_spans t; llm_spans := v; focus_by_kind :=
     focus_by_kind t; expanded_work_items := expanded_work_items t; phase_reason_code :=
     phase_reason_code t; phase_reason_detail := phase_reason_detail t; last_update := last_update t |}.
Definition set_focus_by_kind (v : gmap string WorkItemKey) (t : ThreadView) : ThreadView :=
  {| suite_id := suite_id t; agent_type := agent_type t; current_phase := current_phase t; phases :=
     phases t; completed_phases := completed_phases t; total_runtime_ms := total_runtime_ms t; items
     := items t; plans_by_kind := plans_by_kind t; plan_anchor_phase_by_kind :=
     plan_anchor_phase_by_kind t; tool_spans := tool_spans t; llm_spans := llm_spans t;
     focus_by_kind := v; expanded_work_items := expanded_work_items t; phase_reason_code :=
     phase_reason_code t; phase_reason_detail := phase_reason_detail t; last_update := last_update t |}.
Definition set_expanded_work_items (v : list WorkItemKey) (t : ThreadView) : ThreadView :=
  {| suite_id := suite_id t; agent_type := agent_type t; current_phase := current_phase t; phases :=
     phases t; completed_phases := completed_phases t; total_runtime_ms := total_runtime_ms t; items
     := items t; plans_by_kind := plans_by_kind t; plan_anchor_phase_by_kind :=
     plan_anchor_phase_by_kind t; tool_spans := tool_spans t; llm_spans := llm_spans t;
     focus_by_kind := focus_by_kind t; expanded_work_items := v; phase_reason_code :=
     phase_reason_code t; phase_reason_detail := phase_reason_detail t; last_update := last_update t |}.
Definition set_phase_reason_code (v : gmap string string) (t : ThreadView) : ThreadView :=
  {| suite_id := suite_id t; agent_type := agent_type t; current_phase := current_phase t; phases :=
     phases t; completed_phases := completed_phases t; total_runtime_ms := total_runtime_ms t; items
     := items t; plans_by_kind := plans_by_kind t; plan_anchor_phase_by_kind :=
     plan_anchor_phase_by_kind t; tool_spans := tool_spans t; llm_spans := llm_spans t;
     focus_by_kind := focus_by_kind t; expanded_work_items := expanded_work_items t;
     phase_reason_code := v; phase_reason_detail := phase_reason_detail t; last_update :=
     last_update t |}.
Definition set_phase_reason_detail (v : gmap string Value) (t : ThreadView) : ThreadView :=
  {| suite_id := suite_id t; agent_type := agent_type t; current_phase := current_phase t; phases :=
     phases t; completed_phases := completed_phases t; total_runtime_ms := total_runtime_ms t; items
     := items t; plans_by_kind := plans_by_kind t; plan_anchor_phase_by_kind :=
     plan_anchor_phase_by_kind t; tool_spans := tool_spans t; llm_spans := llm_spans t;
     focus_by_kind := focus_by_kind t; expanded_work_items := expanded_work_items t;
     phase_reason_code := phase_reason_code t; phase_reason_detail := v; last_update := last_update
     t |}.
Definition set_last_update (v : Z) (t : ThreadView) : ThreadView :=
  {| suite_id := suite_id t; agent_type := agent_type t; current_phase := current_phase t; phases :=
     phases t; completed_phases := completed_phases t; total_runtime_ms := total_runtime_ms t; items
     := items t; plans_by_kind := plans_by_kind t; plan_anchor_phase_by_kind :=
     plan_anchor_phase_by_kind t; tool_spans := tool_spans t; llm_spans := llm_spans t;
     focus_by_kind := focus_by_kind t; expanded_work_items := expanded_work_items t;
     phase_reason_code := phase_reason_code t; phase_reason_detail := phase_reason_detail t;
     last_update := v |}.
Definition set_header (s a : option string) (ms : Z) (t : ThreadView) : ThreadView :=
  {| suite_id := s; agent_type := a; current_phase := current_phase t; phases := phases t;
     completed_phases := completed_phases t; total_runtime_ms := Some ms; items := items t;
     plans_by_kind := plans_by_kind t; plan_anchor_phase_by_kind := plan_anchor_phase_by_kind t;
     tool_spans := tool_spans t; llm_spans := llm_spans t; focus_by_kind := focus_by_kind t;
     expanded_work_items := expanded_work_items t; phase_reason_code := phase_reason_code t;
     phase_reason_detail := phase_reason_detail t; last_update := last_update t |}.

(** ** Texts *)

(** [s.trim_end()] *)
Definition trim_end (s : string) : string := concat_strings (trim_end_chars (chars s)).

Definition condense_one_line (s : string) (max_len : nat) : string :=
  let out := replace_str (bytes [13]) " " (replace_str nl " ; " (trim s)) in
  truncate_chars_fit (join " " (map concat_strings (words (chars out) []))) max_len.

(** The loop over the lines, with what it has pushed. *)
Fixpoint clean_lines (max_lines : nat) (ls out : list string) : list string :=
  match ls with
  | [] => out
  | line :: ls =>
      let t := trim_end line in
      if is_blank t then
        if match last out with Some x => str_is_empty x | None => false end then clean_lines max_lines ls out
        else clean_lines max_lines ls (out ++ [EmptyString])
      else let out := out ++ [t] in
           if max_lines <=? length out then out else clean_lines max_lines ls out
  end.

Definition clean_multiline (s : string) (max_lines max_chars : nat) : string :=
  let out := clean_lines max_lines (lines (replace_str (bytes [13]) EmptyString s)) [] in
  let out := drop_while str_is_empty out in
  let out := rev (drop_while str_is_empty (rev out)) in
  truncate_chars_fit (join nl out) max_chars.

Definition first_nonempty_line (s : string) : option string :=
  find (fun t => negb (str_is_empty t)) (map trim (lines s)).

(** The first character of each part between underscores in upper case. *)
Definition capitalize (part : string) : string :=
  match chars part with
  | [] => EmptyString
  | c :: cs => to_ascii_uppercase c +:+ concat_strings cs
  end.

Definition middle_dot : string := bytes [194; 183].

Definition llm_label_for_phase (phase : string) : string :=
  let p := trim phase in
  if str_is_empty p then "LLM"
  else "LLM " +:+ middle_dot +:+ " " +:+ join " " (map capitalize (split_byte "_"%char p)).

Definition plan_kind_key (kind : string) : string := to_ascii_lowercase (trim kind).

(** ** Spans and focus *)

Definition is_running (s : SpanState) : bool := bool_decide (span_status s = SpanStatus.Running).

Definition span_values (t : ThreadView) : list SpanState :=
  map snd (map_to_list (tool_spans t)) ++ map snd (map_to_list (llm_spans t)).

Definition has_running_span_for_key (t : ThreadView) (k : WorkItemKey) : bool :=
  existsb (fun s => is_running s && bool_decide (key_from_ctx (span_ctx s) = k)) (span_values t).

Definition update_focus_with_stickiness (plan_kind : string) (next_key : WorkItemKey) (t : ThreadView) : ThreadView :=
  let should_update := match focus_by_kind t !! plan_kind with
                       | Some prev => if decide (prev = next_key) then true else negb (has_running_span_for_key t prev)
                       | None => true
                       end in
  if should_update then set_focus_by_kind (<[plan_kind := next_key]> (focus_by_kind t)) t else t.

Definition insert_key (k : WorkItemKey) (l : list WorkItemKey) : list WorkItemKey :=
  if decide (k ∈ l) then l else l ++ [k].

(** The end of the tool and model events: a context that names a whole work
    item takes the focus. *)
Definition focus_on (ctx : option WsContext.t) (t : ThreadView) : ThreadView :=
  match ctx with
  | Some {| WsContext.plan_kind := Some pk; WsContext.plan_key := Some _; WsContext.workgroup_id := Some _;
            WsContext.task_id := Some _; WsContext.checklist_item_id := Some _ |} =>
      let k := key_from_ctx ctx in
      let t := update_focus_with_stickiness (plan_kind_key pk) k t in
      set_expanded_work_items (insert_key k (expanded_work_items t)) t
  | _ => t
  end.

Definition in_phase (phase : string) (s : SpanState) : bool := bool_decide (span_phase s = Some phase).

Definition clear_spans_for_phase (phase : string) (t : ThreadView) : ThreadView :=
  set_llm_spans (filter (fun p => in_phase phase p.2 = false) (llm_spans t))
    (set_tool_spans (filter (fun p => in_phase phase p.2 = false) (tool_spans t)) t).

(** [position(|p| p == x)] *)
Fixpoint position (x : string) (l : list string) : option nat :=
  match l with
  | [] => None
  | y :: l => if String.eqb y x then Some 0 else S <$> position x l
  end.

(** The elements of [l] not seen before, in order, each once. *)
Fixpoint merge_new (seen l : list string) : list string :=
  match l with
  | [] => seen
  | x :: l => if decide (x ∈ seen) then merge_new seen l else merge_new (seen ++ [x]) l
  end.

Definition push_new (x : string) (l : list string) : list string := if decide (x ∈ l) then l else l ++ [x].

(** ** Events *)

Inductive TerminalEvent : Type :=
| Info (s : string)
| Shutdown
| ThreadState (s : Snapshot.t)
| Plans (thread_id : string) (plans : list PlanSnapshot)
| SubprocessProgress (label detail : string)
| PlansChanged (ev : PlansChangedResponse)
| Phase (ev : PhaseResponse)
| ToolStart (ev : ToolStartResponse)
| ToolEnd (ev : ToolEndResponse)
| LlmStart (ev : LlmStartResponse)
| LlmEnd (ev : LlmEndResponse)
| RawJson (s : string).

(** The entry of a thread, made when it is missing, changed by [f], stamped,
    and selected. *)
Definition on_thread (now : Z) (tid : string) (f : ThreadView -> ThreadView) (m : Model) : Model :=
  {| threads := <[tid := set_last_update now (f (default (new_view now) (threads m !! tid)))]> (threads m);
     selected := Some tid; started := started m |}.

(** Going back to an earlier phase, or to one that stands where the old one
    stands, clears its spans. *)
Definition clear_on_return (prev : option string) (t : ThreadView) : ThreadView :=
  match prev, current_phase t with
  | Some prev, Some cur =>
      if String.eqb prev cur then t
      else match position prev (phases t), position cur (phases t) with
           | Some pi, Some ci => if ci <=? pi then clear_spans_for_phase cur t else t
           | _, _ => t
           end
  | _, _ => t
  end.

Definition apply_thread_state (snap : Snapshot.t) (t : ThreadView) : ThreadView :=
  let prev := current_phase t in
  let t := set_header (Snapshot.suite_id snap) (Snapshot.agent_type snap) (Snapshot.total_runtime_ms snap) t in
  let t := set_current_phase (Snapshot.current_phase snap) t in
  let t := match Snapshot.phases snap with
           | [] => t
           | ps => set_phases (merge_new [] (ps ++ phases t)) t
           end in
  let t := clear_on_return prev t in
  let t := set_completed_phases (fold_left (fun l p => push_new p l) (Snapshot.completed_phases snap) (completed_phases t)) t in
  set_items (fold_left (fun m it => <[WsItem.item_id it := it]> m) (Snapshot.items snap) (items t)) t.

Definition apply_plan (t : ThreadView) (p : PlanSnapshot) : ThreadView :=
  let kind := trim (plan_kind p) in
  if str_is_empty kind then t
  else
    let t := set_plans_by_kind (<[kind := p]> (plans_by_kind t)) t in
    match plan_anchor_phase_by_kind t !! kind with
    | Some _ => t
    | None => set_plan_anchor_phase_by_kind (<[kind := kind +:+ "_plan"]> (plan_anchor_phase_by_kind t)) t
    end.

(** The changed kinds with their new keys, as far as there are keys. *)
Definition drop_stale_plan (t : ThreadView) (change : string * string) : ThreadView :=
  let '(kind, new_key) := change in
  match plans_by_kind t !! kind with
  | Some p => if String.eqb (plan_key p) new_key then t else set_plans_by_kind (delete kind (plans_by_kind t)) t
  | None => t
  end.

Definition apply_plans_changed (ev : PlansChangedResponse) (t : ThreadView) : ThreadView :=
  match changed_plan_keys ev with
  | Some keys => fold_left drop_stale_plan (combine (changed ev) keys) t
  | None => t
  end.

Definition new_item (id status : string) (started finished : option string) (ms : option Z) : WsItem.t :=
  {| WsItem.item_id := id; WsItem.kind := "phase"; WsItem.status := status; WsItem.started_at := started;
     WsItem.finished_at := finished; WsItem.runtime_ms := ms; WsItem.last_error := None; WsItem.outputs := None |}.

Definition leave_phase (ev : PhaseResponse) (t : ThreadView) : ThreadView :=
  match ph_from_phase ev with
  | Some from =>
      let from := trim from in
      if str_is_empty from then t
      else
        let key := "phase:" +:+ from in
        set_items (<[key := new_item key "ok" None (Some (ph_ts ev)) (from_phase_total_runtime_ms ev)]> (items t))
          (set_completed_phases (push_new from (completed_phases t)) t)
  | None => t
  end.

Definition enter_phase (ev : PhaseResponse) (t : ThreadView) : ThreadView :=
  let ph := ph_phase ev in
  let t := set_current_phase (Some ph) t in
  let t := match ph_reason_code ev with
           | Some rc => set_phase_reason_code (<[ph := rc]> (phase_reason_code t)) t
           | None => t
           end in
  let t := match ph_reason_detail ev with
           | Some rd => set_phase_reason_detail (<[ph := reason_detail_value rd]> (phase_reason_detail t)) t
           | None => t
           end in
  let key := "phase:" +:+ ph in
  let ms := match ph_runs ev with [] => None | _ => Some (ph_total_runtime_ms ev) end in
  let t := set_items (<[key := new_item key "running" (Some (ph_ts ev)) None ms]> (items t)) t in
  set_phases (push_new ph (phases t)) t.

(** A new validation replaces the spans of its kind in its phase; one that
    compiles replaces them all. *)
Definition keeps_span (phase : string) (kind : DbtValidateKind) (s : SpanState) : bool :=
  negb (in_phase phase s)
  || negb (is_dbt_validate_label (span_label s))
  || (negb (bool_decide (kind = DbtCompile)) && bool_decide (dbt_validate_kind_from_label (span_label s) <> Some kind)).

Definition replace_validation (name label : string) (phase : option string) (t : ThreadView) : ThreadView :=
  if String.eqb name DBT_VALIDATE_TOOL_NAME then
    match phase, dbt_validate_kind_from_label label with
    | Some ph, Some kind => set_tool_spans (filter (fun p => keeps_span ph kind p.2 = true) (tool_spans t)) t
    | _, _ => t
    end
  else t.

Definition effective_phase (phase : option string) (t : ThreadView) : option string :=
  match phase with Some p => Some p | None => current_phase t end.

Definition apply_tool_start (now : Z) (ev : ToolStartResponse) (t : ThreadView) : ThreadView :=
  let phase := effective_phase (tst_phase ev) t in
  let label := default (tst_name ev) (tst_clean_name ev) in
  let t := replace_validation (tst_name ev) label phase t in
  let span := {| span_label := label; span_detail := None; span_description := None;
                 span_status := SpanStatus.Running; started_at := now; ended_at := None; span_phase := phase;
                 span_ctx := tst_ctx ev |} in
  focus_on (tst_ctx ev) (set_tool_spans (<[tst_tool_id ev := span]> (tool_spans t)) t).

(** [filter(|s| !s.trim().is_empty())] *)
Definition unless_blank (o : option string) : option string :=
  match o with Some s => if is_blank s then None else Some s | None => None end.

(** The detail and the description of a failed validation. *)
Definition failure_texts (ev : ToolEndResponse) : option string * option string :=
  let from_payload := p ← ten_payload ev; (p : gmap string Value) !! "error_summary" ≫= as_str in
  let detail_src := match from_payload ≫= first_nonempty_line with Some s => Some s | None => ten_error ev end in
  (unless_blank ((fun s => condense_one_line s 180) <$> detail_src),
   unless_blank ((fun s => clean_multiline s 14 4000) <$> from_payload)).

Definition tool_status (s : ToolEventStatus.t) : SpanStatus.t :=
  match s with
  | ToolEventStatus.Ok => SpanStatus.Ok
  | ToolEventStatus.Failed => SpanStatus.Failed
  | ToolEventStatus.Running => SpanStatus.Running
  end.

(** A span that ends: it keeps the start of the one under its id. *)
Definition ended_span (now : Z) (old : option SpanState) (label : string) (detail description : option string)
  (status : SpanStatus.t) (phase : option string) (ctx : option WsContext.t) : SpanState :=
  {| span_label := label; span_detail := detail; span_description := description; span_status := status;
     started_at := from_option started_at now old; ended_at := Some now; span_phase := phase; span_ctx := ctx |}.

Definition apply_tool_end (now : Z) (ev : ToolEndResponse) (t : ThreadView) : ThreadView :=
  let status := tool_status (ten_status ev) in
  let '(detail, description) :=
    if String.eqb (ten_name ev) DBT_VALIDATE_TOOL_NAME && bool_decide (status = SpanStatus.Failed)
    then failure_texts ev else (None, None) in
  let span := ended_span now (tool_spans t !! ten_tool_id ev) (default (ten_name ev) (ten_clean_name ev))
                detail description status (effective_phase (ten_phase ev) t) (ten_ctx ev) in
  focus_on (ten_ctx ev) (set_tool_spans (<[ten_tool_id ev := span]> (tool_spans t)) t).

Definition apply_llm_start (now : Z) (ev : LlmStartResponse) (t : ThreadView) : ThreadView :=
  let span := {| span_label := llm_label_for_phase (lst_phase ev); span_detail := None; span_description := None;
                 span_status := SpanStatus.Running; started_at := now; ended_at := None;
                 span_phase := Some (lst_phase ev); span_ctx := lst_ctx ev |} in
  focus_on (lst_ctx ev) (set_llm_spans (<[lst_call_id ev := span]> (llm_spans t)) t).

Definition apply_llm_end (now : Z) (ev : LlmEndResponse) (t : ThreadView) : ThreadView :=
  let span := ended_span now (llm_spans t !! len_call_id ev) (llm_label_for_phase (len_phase ev)) None None
                (if len_failed ev then SpanStatus.Failed else SpanStatus.Ok) (Some (len_phase ev)) (len_ctx ev) in
  focus_on (len_ctx ev) (set_llm_spans (<[len_call_id ev := span]> (llm_spans t)) t).

Section events.
Context `{HLow : !UnicodeLower}.

(** Whether the progress of a subprocess goes to a span. *)
Definition takes_progress (want : string) (s : SpanState) : bool :=
  let base := to_lowercase (span_label s) in
  is_running s && contains base "validate dbt"
  && negb (String.eqb want "build" && negb (contains base "build"))
  && negb (String.eqb want "compile" && negb (contains base "compile")).

Definition set_detail (d : string) (s : SpanState) : SpanState :=
  {| span_label := span_label s; span_detail := Some d; span_description := span_description s;
     span_status := span_status s; started_at := started_at s; ended_at := ended_at s;
     span_phase := span_phase s; span_ctx := span_ctx s |}.

Definition apply_progress (label detail : string) (t : ThreadView) : ThreadView :=
  let want := to_lowercase (trim label) in
  set_tool_spans ((fun s => if takes_progress want s then set_detail detail s else s) <$> tool_spans t) t.

Definition apply_event (now : Z) (ev : TerminalEvent) (m : Model) : Model :=
  match ev with
  | Info _ | Shutdown | RawJson _ => m
  | ThreadState snap => on_thread now (Snapshot.thread_id snap) (apply_thread_state snap) m
  | Plans tid plans => on_thread now tid (fun t => fold_left apply_plan plans t) m
  | SubprocessProgress label detail =>
      match selected m with
      | None => m
      | Some tid =>
          match threads m !! tid with
          | None => m
          | Some t =>
              let detail := trim detail in
              if str_is_empty detail then m
              else {| threads := <[tid := set_last_update now (apply_progress label detail t)]> (threads m);
                      selected := selected m; started := started m |}
          end
      end
  | PlansChanged ev => on_thread now (eh_thread_id (pc_head ev)) (apply_plans_changed ev) m
  | Phase ev => on_thread now (eh_thread_id (ph_head ev)) (fun t => enter_phase ev (leave_phase ev t)) m
  | ToolStart ev => on_thread now (eh_thread_id (tst_head ev)) (apply_tool_start now ev) m
  | ToolEnd ev => on_thread now (eh_thread_id (ten_head ev)) (apply_tool_end now ev) m
  | LlmStart ev => on_thread now (eh_thread_id (lst_head ev)) (apply_llm_start now ev) m
  | LlmEnd ev => on_thread now (eh_thread_id (len_head ev)) (apply_llm_end now ev) m
  end.

(** Events with the instants they are applied at. *)
Definition apply_events (evs : list (Z * TerminalEvent)) (m : Model) : Model :=
  fold_left (fun m e => apply_event e.1 e.2 m) evs m.
End events.
