(* ===== verification/TerminalLaws.v ===== *)
(** * What the terminal remembers

    Invariants of the renderer's state under any events, for the definitions
    of [Terminal]. *)

From stdpp Require Import base list strings gmap.
From Stdlib Require Import ZArith Lia Ascii.
From S2P Require Import Prelude.
From S2P Require Import RustStr.
From S2P Require Import Json.
From S2P Require Import Redaction.
From S2P Require Import WsModels.
From S2P Require Import Terminal.

(** ** Lists without repetitions *)

Lemma push_new_spec (x : string) (l : list string) :
  NoDup l -> NoDup (push_new x l) /\ l ⊆ push_new x l /\ x ∈ push_new x l.
Proof.
  intros H. unfold push_new. destruct (decide (x ∈ l)) as [Hx|Hx]; [done|]. split_and!.
  - apply NoDup_app. split_and!; [done| |apply NoDup_singleton]. by intros y Hy ->%list_elem_of_singleton.
  - set_solver.
  - set_solver.
Qed.

Lemma push_all_spec (xs l : list string) :
  NoDup l -> NoDup (fold_left (fun l p => push_new p l) xs l) /\ l ⊆ fold_left (fun l p => push_new p l) xs l.
Proof.
  revert l. induction xs as [|x xs IH]; intros l H; cbn [fold_left]; [done|].
  destruct (push_new_spec x l H) as (H1 & H2 & _). destruct (IH _ H1) as [H3 H4]. split; [done|].
  etransitivity; [exact H2|exact H4].
Qed.

Lemma merge_new_spec (l seen : list string) :
  NoDup seen -> NoDup (merge_new seen l) /\ seen ⊆ merge_new seen l /\ l ⊆ merge_new seen l.
Proof.
  revert seen. induction l as [|x l IH]; intros seen H; cbn [merge_new].
  { split_and!; [done|done|]. intros y Hy. inversion Hy. }
  destruct (decide (x ∈ seen)) as [Hx|Hx].
  - destruct (IH _ H) as (H1 & H2 & H3). split_and!; [done|done|]. intros y [->|Hy]%elem_of_cons; [by apply H2|by apply H3].
  - destruct (IH (seen ++ [x])) as (H1 & H2 & H3).
    { destruct (push_new_spec x seen H) as [Hp _]. unfold push_new in Hp. by rewrite decide_False in Hp. }
    split_and!; [done|set_solver|]. intros y [->|Hy]%elem_of_cons; [apply H2; set_solver|by apply H3].
Qed.

(** ** Views *)

Record view_ok (t : ThreadView) : Prop := {
  vo_phases : NoDup (phases t);
  vo_completed : NoDup (completed_phases t)
}.

Record grows (t t' : ThreadView) : Prop := {
  gr_phases : phases t ⊆ phases t';
  gr_completed : completed_phases t ⊆ completed_phases t';
  gr_items : dom (items t) ⊆ dom (items t')
}.

#[export] Instance grows_preorder : PreOrder grows.
Proof. split; [by split|]. intros t1 t2 t3 [A1 A2 A3] [B1 B2 B3]. split; set_solver. Qed.

(** A change keeps a view well formed and forgets nothing. *)
Definition sound (f : ThreadView -> ThreadView) : Prop := forall t, view_ok t -> view_ok (f t) /\ grows t (f t).

(** One that leaves phases, completed phases and items alone is. *)
Definition leaves_core (f : ThreadView -> ThreadView) : Prop :=
  forall t, phases (f t) = phases t /\ completed_phases (f t) = completed_phases t /\ items (f t) = items t.

Lemma leaves_core_sound f : leaves_core f -> sound f.
Proof.
  intros H t [H1 H2]. destruct (H t) as (E1 & E2 & E3).
  split; split; rewrite ?E1, ?E2, ?E3; done.
Qed.

Lemma sound_compose f g : sound f -> sound g -> sound (fun t => g (f t)).
Proof.
  intros Hf Hg t Ht. destruct (Hf t Ht) as [H1 H2]. destruct (Hg _ H1) as [H3 H4]. split; [done|by etransitivity].
Qed.

Lemma sound_fold {A} (f : ThreadView -> A -> ThreadView) (l : list A) :
  (forall a, sound (fun t => f t a)) -> sound (fun t => fold_left f l t).
Proof.
  intros H. induction l as [|a l IH]; intros t Ht; cbn [fold_left]; [by split|].
  destruct (H a t Ht) as [H1 H2]. destruct (IH _ H1) as [H3 H4]. split; [done|by etransitivity].
Qed.

Lemma focus_on_core ctx : leaves_core (focus_on ctx).
Proof.
  intros t. unfold focus_on, update_focus_with_stickiness.
  repeat match goal with |- context [match ?x with _ => _ end] => destruct x end; done.
Qed.

Lemma clear_on_return_core prev : leaves_core (clear_on_return prev).
Proof.
  intros t. unfold clear_on_return. repeat match goal with |- context [match ?x with _ => _ end] => destruct x end; done.
Qed.

Lemma apply_plan_core p : leaves_core (fun t => apply_plan t p).
Proof.
  intros t. unfold apply_plan. destruct (str_is_empty _); [done|]. by destruct (_ !! _).
Qed.

Lemma drop_stale_plan_core c : leaves_core (fun t => drop_stale_plan t c).
Proof.
  intros t. unfold drop_stale_plan. destruct c as [kind key]. destruct (_ !! _) as [p|]; [|done]. by destruct (String.eqb _ _).
Qed.

Lemma replace_validation_core name label phase : leaves_core (replace_validation name label phase).
Proof.
  intros t. unfold replace_validation.
  repeat match goal with |- context [match ?x with _ => _ end] => destruct x end; done.
Qed.

Lemma apply_tool_start_sound now ev : sound (apply_tool_start now ev).
Proof.
  apply leaves_core_sound. intros t. unfold apply_tool_start.
  edestruct (focus_on_core (tst_ctx ev)) as (-> & -> & ->). apply replace_validation_core.
Qed.

Lemma apply_tool_end_sound now ev : sound (apply_tool_end now ev).
Proof.
  apply leaves_core_sound. intros t. unfold apply_tool_end. 
  destruct (if String.eqb (ten_name ev) DBT_VALIDATE_TOOL_NAME && bool_decide (tool_status (ten_status ev) = SpanStatus.Failed)
    then failure_texts ev else (None, None)) as [detail descr].
  by edestruct (focus_on_core (ten_ctx ev)) as (-> & -> & ->).
Qed.

Lemma apply_llm_start_sound now ev : sound (apply_llm_start now ev).
Proof.
  apply leaves_core_sound. intros t. unfold apply_llm_start. by edestruct (focus_on_core (lst_ctx ev)) as (-> & -> & ->).
Qed.

Lemma apply_llm_end_sound now ev : sound (apply_llm_end now ev).
Proof.
  apply leaves_core_sound. intros t. unfold apply_llm_end. by edestruct (focus_on_core (len_ctx ev)) as (-> & -> & ->).
Qed.

Lemma apply_plans_changed_sound ev : sound (apply_plans_changed ev).
Proof.
  unfold apply_plans_changed. destruct (changed_plan_keys ev) as [keys|]; [|by split].
  apply sound_fold. intros c. apply leaves_core_sound, drop_stale_plan_core.
Qed.

Lemma dom_insert_grows (k : string) (v : WsItem.t) (m : gmap string WsItem.t) : dom m ⊆ dom (<[k := v]> m).
Proof. rewrite dom_insert. set_solver. Qed.

Lemma leave_phase_sound ev : sound (leave_phase ev).
Proof.
  intros t [H1 H2]. unfold leave_phase. destruct (ph_from_phase ev) as [from|]; [|by split].
  destruct (str_is_empty _); [by split|]. destruct (push_new_spec (trim from) _ H2) as (H3 & H4 & _).
  split; split; cbn; try done. apply dom_insert_grows.
Qed.

Lemma enter_phase_sound ev : sound (enter_phase ev).
Proof.
  intros t [H1 H2]. unfold enter_phase.
  destruct (push_new_spec (ph_phase ev) _ H1) as (H3 & H4 & _).
  destruct (ph_reason_code ev), (ph_reason_detail ev); (split; split; cbn; try done; apply dom_insert_grows).
Qed.

Lemma items_fold_grows (its : list WsItem.t) (m : gmap string WsItem.t) :
  dom m ⊆ dom (fold_left (fun m it => <[WsItem.item_id it := it]> m) its m).
Proof.
  revert m. induction its as [|i its IH]; intros m; cbn [fold_left]; [done|].
  etransitivity; [apply dom_insert_grows|apply IH].
Qed.

Lemma apply_thread_state_sound snap : sound (apply_thread_state snap).
Proof.
  intros t [H1 H2]. unfold apply_thread_state.
  set (t1 := set_current_phase _ _).
  assert (phases t1 = phases t /\ completed_phases t1 = completed_phases t /\ items t1 = items t) as (E1 & E2 & E3) by done.
  clearbody t1.
  set (t2 := match Snapshot.phases snap with [] => t1 | _ => _ end).
  assert (NoDup (phases t2) /\ phases t ⊆ phases t2 /\ completed_phases t2 = completed_phases t /\ items t2 = items t)
    as (N2 & G2 & C2 & I2).
  { subst t2. destruct (Snapshot.phases snap) as [|p ps]; [by rewrite E1|].
    destruct (merge_new_spec ((p :: ps) ++ phases t1) []) as (A1 & A2 & A3); [constructor|].
    cbn [phases set_phases completed_phases items]. split_and!; [done| |done|done].
    rewrite <- E1. intros x Hx. apply A3. set_solver. }
  clearbody t2. destruct (clear_on_return_core (current_phase t) t2) as (F1 & F2 & F3).
  set (t3 := clear_on_return _ t2) in *. clearbody t3.
  destruct (push_all_spec (Snapshot.completed_phases snap) (completed_phases t3)) as [P1 P2]; [by rewrite F2, C2|].
  split; split; cbn [phases completed_phases items set_items set_completed_phases]; rewrite ?F1; try done.
  - by rewrite F2, C2 in P2 |- *.
  - rewrite F3, I2. apply items_fold_grows.
Qed.

(** ** Models *)

(** The selected thread is there, and there is one as soon as any thread is
    known; every view is well formed. *)
Record model_ok (m : Model) : Prop := {
  mo_selected : match selected m with Some tid => is_Some (threads m !! tid) | None => threads m = ∅ end;
  mo_views tid t : threads m !! tid = Some t -> view_ok t
}.

Definition model_grows (m m' : Model) : Prop :=
  forall tid t, threads m !! tid = Some t -> exists t', threads m' !! tid = Some t' /\ grows t t'.

#[export] Instance model_grows_preorder : PreOrder model_grows.
Proof.
  split.
  - intros m tid t H. by exists t.
  - intros m1 m2 m3 H1 H2 tid t H. destruct (H1 _ _ H) as (t2 & E2 & G2). destruct (H2 _ _ E2) as (t3 & E3 & G3).
    exists t3. split; [done|by etransitivity].
Qed.

Lemma stamped now t : view_ok t -> view_ok (set_last_update now t).
Proof. by intros [H1 H2]. Qed.

Lemma new_view_ok now : view_ok (new_view now).
Proof. split; constructor. Qed.

Lemma view_update_ok (m : Model) (tid : string) (t t' : ThreadView) (sel : option string) :
  (forall x t, threads m !! x = Some t -> view_ok t) -> view_ok t' ->
  (threads m !! tid = Some t /\ grows t t' \/ threads m !! tid = None) ->
  match sel with Some s => s = tid \/ is_Some (threads m !! s) | None => False end ->
  let m' := {| threads := <[tid := t']> (threads m); selected := sel; started := started m |} in
  model_ok m' /\ model_grows m m'.
Proof.
  intros Hv Ht' Ht Hs m'. split; [split|].
  - cbn. destruct sel as [s|]; [|done]. destruct (decide (s = tid)) as [->|Hne].
    + rewrite lookup_insert_eq. by eexists.
    + rewrite lookup_insert_ne by done. by destruct Hs.
  - intros x u. cbn. destruct (decide (x = tid)) as [->|Hne].
    + rewrite lookup_insert_eq. by intros [= <-].
    + rewrite lookup_insert_ne by done. apply Hv.
  - intros x u Hu. cbn. destruct (decide (x = tid)) as [->|Hne].
    + exists t'. rewrite lookup_insert_eq. split; [done|]. destruct Ht as [[E G]|E]; rewrite E in Hu; [|done].
      by injection Hu as <-.
    + exists u. rewrite lookup_insert_ne by done. done.
Qed.

Lemma on_thread_ok now tid f m : sound f -> model_ok m -> model_ok (on_thread now tid f m) /\ model_grows m (on_thread now tid f m).
Proof.
  intros Hf [H1 H2]. unfold on_thread.
  apply (view_update_ok m tid (default (new_view now) (threads m !! tid))); [done| | |by left].
  - apply stamped. apply Hf. destruct (threads m !! tid) as [t|] eqn:E; [by eapply H2|apply new_view_ok].
  - destruct (threads m !! tid) as [t|] eqn:E; [left|by right]. split; [done|].
    destruct (Hf t (H2 _ _ E)) as [_ [G1 G2 G3]]. by split.
Qed.

Section laws.
Context `{HLow : !UnicodeLower}.

Lemma apply_event_ok now ev m : model_ok m -> model_ok (apply_event now ev m) /\ model_grows m (apply_event now ev m).
Proof.
  intros H. destruct ev; cbn [apply_event]; try (by split); try (apply on_thread_ok; [|done]).
  - apply apply_thread_state_sound.
  - apply sound_fold. intros p. apply leaves_core_sound, apply_plan_core.
  - destruct (selected m) as [tid|] eqn:Es; [|by split]. destruct (threads m !! tid) as [t|] eqn:Et; [|by split].
    destruct (str_is_empty _); [by split|]. apply (view_update_ok m tid t); [apply H| | |by left].
    + apply stamped. by destruct (mo_views _ H _ _ Et).
    + left. split; [done|]. by split.
  - apply apply_plans_changed_sound.
  - apply (sound_compose (leave_phase ev) (enter_phase ev)); [apply leave_phase_sound|apply enter_phase_sound].
  - apply apply_tool_start_sound.
  - apply apply_tool_end_sound.
  - apply apply_llm_start_sound.
  - apply apply_llm_end_sound.
Qed.

Lemma apply_events_ok evs m : model_ok m -> model_ok (apply_events evs m) /\ model_grows m (apply_events evs m).
Proof.
  revert m. induction evs as [|[now ev] evs IH]; intros m H; [by split|].
  destruct (apply_event_ok now ev m H) as [H1 H2]. destruct (IH _ H1) as [H3 H4]. split; [exact H3|].
  etransitivity; [exact H2|exact H4].
Qed.

(** Whatever events arrive, in whatever order: the selected thread is one the
    terminal knows, and there is a selected one as soon as it knows any; no
    thread lists a phase twice, among its phases or its completed ones; and a
    thread, a phase, a completed phase or an item once seen stays, whatever
    arrives later. *)
Theorem the_terminal_never_forgets (t0 : Z) (evs later : list (Z * TerminalEvent)) :
  let m := apply_events evs (new_model t0) in
  model_ok m /\ model_grows m (apply_events later m).
Proof.
  assert (model_ok (new_model t0)) as H0 by by split.
  intros m. destruct (apply_events_ok evs _ H0) as [H _]. split; [done|]. by apply apply_events_ok.
Qed.

(** ** Focus *)

(** A context that names a whole work item. *)
Definition full_context (c : WsContext.t) (kind : string) : Prop :=
  WsContext.plan_kind c = Some kind /\ is_Some (WsContext.plan_key c) /\ is_Some (WsContext.workgroup_id c)
  /\ is_Some (WsContext.task_id c) /\ is_Some (WsContext.checklist_item_id c).

Lemma focus_on_full c kind t :
  full_context c kind ->
  focus_on (Some c) t = set_expanded_work_items
    (insert_key c (expanded_work_items (update_focus_with_stickiness (plan_kind_key kind) c t)))
    (update_focus_with_stickiness (plan_kind_key kind) c t).
Proof.
  destruct c as [[pk|] [plan|] [wg|] [task|] [ci|]]; intros (H1 & [? H2] & [? H3] & [? H4] & [? H5]); try done.
  injection H1 as ->. done.
Qed.

Lemma insert_key_in (k : WorkItemKey) (l : list WorkItemKey) : k ∈ insert_key k l.
Proof. unfold insert_key. destruct (decide (k ∈ l)) as [H|H]; [exact H|]. set_solver. Qed.

(** While the work item in focus has a running tool call or model call, a tool
    that starts for another item of the same plan does not take the focus; its
    line stays visible all the same.  Without a running span it does. *)
Theorem focus_is_sticky (now : Z) (ev : ToolStartResponse) (t : ThreadView) (c prev : WorkItemKey) (kind : string) :
  tst_name ev <> DBT_VALIDATE_TOOL_NAME -> tool_spans t !! tst_tool_id ev = None ->
  tst_ctx ev = Some c -> full_context c kind ->
  focus_by_kind t !! plan_kind_key kind = Some prev ->
  let t' := apply_tool_start now ev t in
  c ∈ expanded_work_items t'
  /\ focus_by_kind t' !! plan_kind_key kind =
       Some (if has_running_span_for_key t prev then prev else c).
Proof.
  intros Hn Hid Hc Hfull Hf t'. subst t'. unfold apply_tool_start, replace_validation.
  rewrite (proj2 (String.eqb_neq _ _) Hn), Hc, focus_on_full with (kind := kind) by done.
  set (span := {| span_label := _ |}). set (t1 := set_tool_spans _ t).
  cbn [expanded_work_items focus_by_kind set_expanded_work_items]. split.
  { apply insert_key_in. }
  assert (has_running_span_for_key t1 prev = has_running_span_for_key t prev || bool_decide (c = prev)) as Hr.
  { unfold has_running_span_for_key, span_values, t1. cbn [tool_spans llm_spans set_tool_spans].
    rewrite !existsb_app. assert (existsb (fun s => is_running s && bool_decide (key_from_ctx (span_ctx s) = prev))
      (map snd (map_to_list (<[tst_tool_id ev := span]> (tool_spans t)))) = bool_decide (c = prev)
      || existsb (fun s => is_running s && bool_decide (key_from_ctx (span_ctx s) = prev)) (map snd (map_to_list (tool_spans t)))) as ->.
    { apply eq_true_iff_eq. rewrite orb_true_iff, !existsb_exists, bool_decide_eq_true. split.
      - intros (s & Hs & Hp). apply list_elem_of_In in Hs. rewrite map_to_list_insert in Hs by done. cbn in Hs.
        apply elem_of_cons in Hs as [->|Hs]; [left|right; exists s; by rewrite <- list_elem_of_In].
        apply andb_true_iff in Hp as [_ Hp]. by apply bool_decide_eq_true in Hp.
      - intros [->|(s & Hs & Hp)].
        + exists span. split; [apply list_elem_of_In; rewrite map_to_list_insert by done; cbn; set_solver|].
          apply andb_true_iff. split; by apply bool_decide_eq_true_2.
        + exists s. split; [|done]. apply list_elem_of_In. rewrite map_to_list_insert by done. cbn.
          apply list_elem_of_In in Hs. set_solver. }
    rewrite <- orb_assoc. apply orb_comm. }
  unfold update_focus_with_stickiness. change (focus_by_kind t1) with (focus_by_kind t). rewrite Hf.
  destruct (decide (prev = c)) as [->|Hne].
  - cbn. rewrite lookup_insert_eq. by destruct (has_running_span_for_key t c).
  - rewrite Hr, (bool_decide_eq_false_2 (c = prev)), orb_false_r by congruence.
    destruct (has_running_span_for_key t prev); cbn [negb]; [exact Hf|]. cbn. by rewrite lookup_insert_eq.
Qed.
End laws.
