(* ===== verification/TerminalView.v ===== *)
(** * What the terminal draws

    [src/src/transport/src/ws/terminal.rs], the rendering: the lines of a
    frame from the state of [Terminal].  Colours are third-party ([crossterm])
    and a parameter; so is the order of a hash map, [HashIter]. *)

From stdpp Require Import base list strings gmap sorting.
From Stdlib Require Import ZArith Lia Ascii.
From S2P Require Import Prelude.
From S2P Require Import RustStr.
From S2P Require Import Json.
From S2P Require Import Text.
From S2P Require Import Analysis.
From S2P Require Import Floats.
From S2P Require Import WsModels.
From S2P Require Import History.
From S2P Require Import Terminal.

Inductive Color : Type := White | DarkGrey | Yellow | Green | Red | Magenta | Cyan.

(** [text.yellow().to_string()] and the like. *)
Class Stylize := styled : Color -> string -> string.

Definition check_mark : string := bytes [226; 156; 147].
Definition em_dash : string := bytes [226; 128; 148].

(** ** Durations *)

Definition fmt_ms (ms : Z) : string :=
  if (ms <? 1000)%Z then fmt_Z ms +:+ "ms"
  else if (ms <? 60000)%Z then F64.fmt1 (F64.div (F64.of_Z ms) (F64.of_Z 1000)) +:+ "s"
  else
    let s := (ms / 1000)%Z in
    if (s <? 3600)%Z then fmt_Z (s / 60) +:+ "m" +:+ fmt_Z (s mod 60) +:+ "s"
    else
      let rem := (s mod 3600)%Z in
      fmt_Z (s / 3600) +:+ "h" +:+ fmt_Z (rem / 60) +:+ "m" +:+ fmt_Z (rem mod 60) +:+ "s".

(** [d.as_millis()] of nanoseconds. *)
Definition as_millis (d : Z) : Z := (d / 1000000)%Z.
Definition fmt_dur (d : Z) : string := fmt_ms (as_i64 (as_millis d)).

(** [a.duration_since(b)], which saturates at zero. *)
Definition duration_since (a b : Z) : Z := Z.max 0 (a - b).

(** ** Spans *)

Record SpanAgg : Type := {
  agg_status : SpanStatus.t;
  agg_label : string;
  agg_description : option string;
  agg_count : nat;
  max_dur : Z;
  order_idx : nat
}.

Definition span_display_label (s : SpanState) : string :=
  let base := normalize_validate_dbt_label (span_label s) in
  match span_status s, span_detail s with
  | SpanStatus.Running, Some d => if is_blank d then base else base +:+ " " +:+ trim d
  | SpanStatus.Failed, Some d => if is_blank d then base else base +:+ " " +:+ em_dash +:+ " " +:+ trim d
  | _, _ => base
  end.

Definition MAX_SPAN_LINES : nat := 5.

Definition SPINNER_FRAMES : list string :=
  map (fun n => bytes [226; 160; n]) [139; 153; 185; 184; 188; 180; 166; 167; 135; 143].

Definition spinner_glyph (spinner_idx : nat) : string :=
  "[" +:+ default EmptyString (SPINNER_FRAMES !! (spinner_idx mod length SPINNER_FRAMES)) +:+ "]".

Section render.
Context `{HSty : !Stylize, HI : !HashIter}.

Definition glyph_span_colored (status : SpanStatus.t) (spinner_idx : nat) : string :=
  match status with
  | SpanStatus.Running => styled Yellow (spinner_glyph spinner_idx)
  | SpanStatus.Ok => styled Green ("[" +:+ check_mark +:+ "]")
  | SpanStatus.Failed => styled Red "[x]"
  end.

(** The lines below a span: its description, cut short. *)
Definition description_lines (indent : string) (s : SpanAgg) : list string :=
  if agg_count s =? 1 then
    match agg_description s with
    | Some desc =>
        let d := trim desc in
        if str_is_empty d then []
        else map (fun line => indent +:+ "    " +:+ styled DarkGrey line)
               (List.filter (fun line => negb (is_blank line)) (map trim_end (lines (clean_multiline d 10 2000))))
    | None => []
    end
  else [].

Definition push_span_line (indent : string) (s : SpanAgg) (spinner_idx : nat) : list string :=
  let dur := styled DarkGrey (fmt_dur (max_dur s)) in
  let head := indent +:+ glyph_span_colored (agg_status s) spinner_idx +:+ " " +:+ styled White (agg_label s) +:+ "  " +:+ dur in
  (head +:+ (if 1 <? agg_count s then " (over " +:+ fmt_nat (agg_count s) +:+ " runs)" else EmptyString))
    :: description_lines indent s.

Definition push_span_list (indent : string) (spans : list SpanAgg) (spinner_idx : nat) : list string :=
  if length spans <=? MAX_SPAN_LINES then concat (map (fun s => push_span_line indent s spinner_idx) spans)
  else
    let show := MAX_SPAN_LINES - 1 in
    let omitted := length spans - show in
    (indent +:+ styled DarkGrey ("... and " +:+ fmt_nat omitted +:+ " more"))
      :: concat (map (fun s => push_span_line indent s spinner_idx) (drop (length spans - show) spans)).

(** ** Plans *)

Definition checklist_item_glyph_colored (st : PlanChecklistItemStatus) : string :=
  match st with
  | PlanTaskStatus.Done => styled Green ("[" +:+ check_mark +:+ "]")
  | PlanTaskStatus.InProgress => styled Yellow "[~]"
  | PlanTaskStatus.Blocked | PlanTaskStatus.NeedsUpdate => styled Magenta "[!]"
  | PlanTaskStatus.Pending => styled DarkGrey "[ ]"
  end.

Fixpoint find_item (task item : string) (ts : list PlanTask) : option PlanChecklistItem :=
  match ts with
  | [] => None
  | t :: ts =>
      if String.eqb (task_id t) task then
        match find (fun ci => String.eqb (checklist_item_id ci) item) (checklist t) with
        | Some ci => Some ci
        | None => find_item task item ts
        end
      else find_item task item ts
  end.

Definition lookup_checklist_item (p : PlanSnapshot) (task item : string) : option PlanChecklistItem :=
  find_item task item (tasks p).

Definition render_plan_summary_line (kind : string) (p : PlanSnapshot) : string :=
  "  " +:+ styled Cyan "[~]" +:+ " " +:+ styled White (kind +:+ " plan") +:+ " " +:+ styled Cyan (plan_key p) +:+ "  "
    +:+ styled DarkGrey (PlanStatus.debug_lower (ps_status p)).

(** The counts of the items of a group: all, done, in progress, blocked. *)
Record Tally : Type := { total_items : nat; done_items : nat; in_progress_items : nat; blocked_items : nat }.

Definition no_items : Tally := {| total_items := 0; done_items := 0; in_progress_items := 0; blocked_items := 0 |}.

Definition tally_item (p : PlanSnapshot) (t : Tally) (r : PlanWorkGroupItemRef) : Tally :=
  let one (b : bool) : nat := if b then 1 else 0 in
  let st := ci_status <$> lookup_checklist_item p (ref_task_id r) (ref_checklist_item_id r) in
  {| total_items := S (total_items t);
     done_items := done_items t + one (bool_decide (st = Some PlanTaskStatus.Done));
     in_progress_items := in_progress_items t + one (bool_decide (st = Some PlanTaskStatus.InProgress));
     blocked_items := blocked_items t
       + one (bool_decide (st = Some PlanTaskStatus.Blocked) || bool_decide (st = Some PlanTaskStatus.NeedsUpdate)) |}.

Definition allowed (kinds : list PlanWorkGroupKind.t) (g : PlanWorkGroup) : bool := bool_decide (wg_kind g ∈ kinds).

Definition summarize_plan_workgroups (p : PlanSnapshot) (kinds : list PlanWorkGroupKind.t) : option string :=
  let groups := List.filter (allowed kinds) (work_groups p) in
  let t := fold_left (fun t g => fold_left (tally_item p) (wg_items g) t) groups no_items in
  if (length groups =? 0) || (total_items t =? 0) then None
  else Some (fmt_nat (length groups) +:+ " wgs, " +:+ fmt_nat (done_items t) +:+ "/" +:+ fmt_nat (total_items t) +:+ " items done"
    +:+ (if 0 <? in_progress_items t then ", " +:+ fmt_nat (in_progress_items t) +:+ " running" else EmptyString)
    +:+ (if 0 <? blocked_items t then ", " +:+ fmt_nat (blocked_items t) +:+ " blocked" else EmptyString)).

Definition PHASE_STAGE_WORKGROUP_MAP : list (string * list PlanWorkGroupKind.t) :=
  [("author", [PlanWorkGroupKind.AuthorSql; PlanWorkGroupKind.AuthorSchema]);
   ("validate", [PlanWorkGroupKind.Validate])].

Definition workgroup_kinds_for_stage (stage : string) : list PlanWorkGroupKind.t :=
  default [] (assoc_get stage PHASE_STAGE_WORKGROUP_MAP).

(** [ph.rsplit_once('_')], with both sides there. *)
Definition phase_plan_binding (ph : string) : option (string * string) :=
  match str_rfind ph "_" with
  | Some i =>
      let kind := string_take i ph in
      let stage := string_drop (S i) ph in
      if str_is_empty kind || str_is_empty stage then None else Some (kind, stage)
  | None => None
  end.

Definition short_plan_key (s : string) : string := default s (last (split_byte "/"%char s)).

Definition phase_detail_summary (t : ThreadView) (ph : string) : option string :=
  b ← phase_plan_binding ph;
  let '(kind, stage) := b in
  p ← plans_by_kind t !! kind;
  if String.eqb stage "plan"
  then Some (kind +:+ " plan " +:+ short_plan_key (plan_key p) +:+ "  " +:+ PlanStatus.debug_lower (ps_status p))
  else match workgroup_kinds_for_stage stage with [] => None | kinds => summarize_plan_workgroups p kinds end.

(** ** Reasons *)

Definition field (o : option Value) (k : string) : option Value := o ≫= fun v => Json.get v k.
Definition str_field (o : option Value) (k : string) : option string := field o k ≫= as_str.
Definition count_field (o : option Value) (k : string) : Z := default 0%Z (field o k ≫= as_u64).
Definition array_field (o : option Value) (k : string) : list Value := default [] (field o k ≫= as_array).

Definition plural (n : nat) (many : string) : string := if n =? 1 then EmptyString else many.

Definition example_text (l : list Value) : string :=
  match head l ≫= as_str with
  | Some s => " " +:+ em_dash +:+ " e.g. " +:+ truncate_chars_fit (trim s) 72
  | None => EmptyString
  end.

Definition review_reason (rd : option Value) : string :=
  "replan from " +:+ default "review" (str_field rd "review_phase") +:+ " ("
    +:+ default "unknown" (str_field (field rd "meta") "tier") +:+ ", "
    +:+ fmt_nat (length (array_field (field rd "meta") "dataset_ids")) +:+ " targets)".

Definition plan_update_reason (rd : option Value) : option string :=
  let counts := field (field rd "plan_update_summary") "counts" in
  let touched := count_field counts "touched_tasks" in
  let added := count_field counts "added_tasks" in
  let removed := count_field counts "removed_tasks" in
  let review := count_field counts "review_items" in
  if ((touched =? 0) && (added =? 0) && (removed =? 0) && (review =? 0))%Z then None
  else Some ("plan update: " +:+ fmt_Z touched +:+ " touched, +" +:+ fmt_Z added +:+ "/-" +:+ fmt_Z removed +:+ ", "
    +:+ fmt_Z review +:+ " review items").

Definition blocked_reason (rd : option Value) : string :=
  let kind := default "blocked" (str_field rd "kind") in
  if String.eqb kind "plan_design_critique" then
    let blockers := array_field rd "blockers" in
    let fixes := array_field rd "fixes" in
    let round := match field rd "round" ≫= as_u64, field rd "max_rounds" ≫= as_u64 with
                 | Some r, Some m => ", round " +:+ fmt_Z r +:+ "/" +:+ fmt_Z m
                 | _, _ => EmptyString
                 end in
    "blocked: design critique (" +:+ fmt_nat (length blockers) +:+ " blocker" +:+ plural (length blockers) "s" +:+ ", "
      +:+ fmt_nat (length fixes) +:+ " fix" +:+ plural (length fixes) "es" +:+ ")" +:+ round +:+ example_text blockers
  else if String.eqb kind "plan_semantic_invalid" then
    let errors := array_field rd "errors" in
    "blocked: plan semantics (" +:+ fmt_nat (length errors) +:+ " error" +:+ plural (length errors) "s" +:+ ")"
      +:+ example_text errors
  else "blocked: " +:+ kind.

Definition phase_reason_summary (t : ThreadView) (ph : string) : option string :=
  let rc := default EmptyString (phase_reason_code t !! ph) in
  let rd := phase_reason_detail t !! ph in
  if String.eqb rc "review_actionable_true" then Some (review_reason rd)
  else if existsb (String.eqb rc) ["plan_auto_approved"; "plan_approved"; "plan_already_approved"] then plan_update_reason rd
  else if String.eqb rc "phase_blocked" then Some (blocked_reason rd)
  else None.

(** ** Focus *)

(** The derived order of [WorkItemKey]. *)
Definition opt_cmp (a b : option string) : comparison :=
  match a, b with
  | None, None => Eq
  | None, Some _ => Lt
  | Some _, None => Gt
  | Some x, Some y => String.compare x y
  end.

Fixpoint lex (l : list comparison) : comparison :=
  match l with [] => Eq | Eq :: l => lex l | c :: _ => c end.

Definition key_fields (k : WorkItemKey) : list (option string) :=
  [WsContext.plan_kind k; WsContext.plan_key k; WsContext.workgroup_id k; WsContext.task_id k;
   WsContext.checklist_item_id k].

Definition key_cmp (a b : WorkItemKey) : comparison := lex (zip_with opt_cmp (key_fields a) (key_fields b)).

Definition plan_kind_from_str (kind : string) : option string :=
  let k := to_ascii_lowercase (trim kind) in if str_is_empty k then None else Some k.

(** [max_d > *bd || (max_d == *bd && k < bk)] *)
Definition better (a b : WorkItemKey * Z) : bool :=
  (b.2 <? a.2)%Z || ((a.2 =? b.2)%Z && match key_cmp a.1 b.1 with Lt => true | _ => false end).

Definition take_better (best : option (WorkItemKey * Z)) (x : WorkItemKey * Z) : option (WorkItemKey * Z) :=
  match best with
  | None => Some x
  | Some b => if better x b then Some x else best
  end.

Definition is_candidate (kind : string) (groups : list string) (k : WorkItemKey) : bool :=
  bool_decide (WsContext.plan_kind k = plan_kind_from_str kind)
  && match WsContext.workgroup_id k with Some wg => bool_decide (wg ∈ groups) | None => false end.

Definition longest (spans : list SpanAgg) : Z := fold_left (fun d s => if (d <? max_dur s)%Z then max_dur s else d) spans 0%Z.

Definition any_running (spans : list SpanAgg) : bool :=
  existsb (fun s => bool_decide (agg_status s = SpanStatus.Running)) spans.

(** One round of the loop over the buckets. *)
Definition consider (kind : string) (groups : list string)
  (acc : option (WorkItemKey * Z) * option (WorkItemKey * Z)) (bucket : WorkItemKey * list SpanAgg)
  : option (WorkItemKey * Z) * option (WorkItemKey * Z) :=
  let '(running, any) := acc in
  let '(k, spans) := bucket in
  if is_candidate kind groups k then
    let x := (k, longest spans) in
    (if any_running spans then take_better running x else running, take_better any x)
  else acc.

Definition pick_focus_key_filtered (kind : string) (buckets : list (WorkItemKey * list SpanAgg))
  (preferred : option WorkItemKey) (groups : list string) : option WorkItemKey :=
  let search :=
    let '(running, any) := fold_left (consider kind groups) buckets (None, None) in
    fst <$> match running with Some x => Some x | None => any end in
  match preferred with
  | Some p =>
      if bool_decide (WsContext.plan_kind p = plan_kind_from_str kind)
         && match WsContext.workgroup_id p with Some wg => bool_decide (wg ∈ groups) | None => false end
      then Some p else search
  | None => search
  end.

(** ** Work groups *)

Definition item_key (kind : string) (p : PlanSnapshot) (g : PlanWorkGroup) (r : PlanWorkGroupItemRef) : WorkItemKey := {|
  WsContext.plan_kind := plan_kind_from_str kind; WsContext.plan_key := Some (plan_key p);
  WsContext.workgroup_id := Some (group_id g); WsContext.task_id := Some (ref_task_id r);
  WsContext.checklist_item_id := Some (ref_checklist_item_id r) |}.

Fixpoint bucket_get (k : WorkItemKey) (b : list (WorkItemKey * list SpanAgg)) : option (list SpanAgg) :=
  match b with
  | [] => None
  | (k', l) :: b => if decide (k' = k) then Some l else bucket_get k b
  end.

Definition workgroup_line (p : PlanSnapshot) (g : PlanWorkGroup) : bool * string :=
  let t := fold_left (tally_item p) (wg_items g) no_items in
  let pending := total_items t - (done_items t + in_progress_items t + blocked_items t) in
  let wg_done := (0 <? total_items t) && (done_items t =? total_items t) in
  let wg_running := 0 <? in_progress_items t in
  let glyph := if 0 <? blocked_items t then styled Magenta "[!]"
               else if wg_done then styled Green ("[" +:+ check_mark +:+ "]")
               else if wg_running then styled Yellow "[~]" else styled DarkGrey "[ ]" in
  let detail := fmt_nat (done_items t) +:+ "/" +:+ fmt_nat (total_items t) +:+ " done"
    +:+ (if wg_running then ", running" else EmptyString)
    +:+ (if 0 <? pending then ", " +:+ fmt_nat pending +:+ " pending" else EmptyString) in
  (wg_done, "  " +:+ glyph +:+ " " +:+ styled White (wg_label g) +:+ "  " +:+ styled DarkGrey (group_id g) +:+ "  "
     +:+ styled DarkGrey detail).

Definition item_lines (kind : string) (p : PlanSnapshot) (g : PlanWorkGroup)
  (buckets : list (WorkItemKey * list SpanAgg)) (expanded : list WorkItemKey) (focus : option WorkItemKey)
  (spinner_idx : nat) (r : PlanWorkGroupItemRef) : list string :=
  let '(ig, label) := match lookup_checklist_item p (ref_task_id r) (ref_checklist_item_id r) with
                      | None => (styled DarkGrey "[ ]", ref_checklist_item_id r)
                      | Some x => (checklist_item_glyph_colored (ci_status x), ci_label x)
                      end in
  let k := item_key kind p g r in
  let spans := bucket_get k buckets in
  ("    " +:+ ig +:+ " " +:+ styled White (ref_task_id r))
  :: (if bool_decide (focus = Some k) || bool_decide (k ∈ expanded) || bool_decide (is_Some spans)
      then ("      " +:+ ig +:+ " " +:+ styled White label)
           :: from_option (fun l => push_span_list "        " l spinner_idx) [] spans
      else []).

Definition render_plan_workgroups_compact (kind : string) (p : PlanSnapshot)
  (buckets : list (WorkItemKey * list SpanAgg)) (expanded : list WorkItemKey) (preferred : option WorkItemKey)
  (spinner_idx : nat) (kinds : list PlanWorkGroupKind.t) : list string :=
  let groups := List.filter (allowed kinds) (work_groups p) in
  match groups with
  | [] => []
  | _ =>
      let focus := pick_focus_key_filtered kind buckets preferred (map group_id groups) in
      concat (map (fun g =>
        let '(wg_done, line) := workgroup_line p g in
        line :: if wg_done then []
                else concat (map (item_lines kind p g buckets expanded focus spinner_idx) (wg_items g))) groups)
  end.

(** ** Buckets of spans *)

(** The values of a map in the order of the hash map. *)
Definition values {A} (m : gmap string A) : list A := map snd (hash_order (map_to_list m)).

Definition starts_before (a b : SpanState) : Prop := (started_at a <= started_at b)%Z.
#[local] Instance starts_before_dec : RelDecision starts_before.
Proof. intros a b. unfold starts_before. apply _. Defined.

Definition all_spans (t : ThreadView) : list SpanState :=
  sort_by starts_before (values (tool_spans t)
    ++ map snd (hash_order (map (fun p => (fmt_Z p.1, p.2)) (map_to_list (llm_spans t))))).

Definition KEEP_RECENT : Z := 300000000000.

Definition is_old (now : Z) (s : SpanState) : bool :=
  match ended_at s with Some e => (KEEP_RECENT <? duration_since now e)%Z | None => false end.

Definition agg_of (now : Z) (idx : nat) (s : SpanState) : SpanAgg :=
  {| agg_status := span_status s; agg_label := span_display_label s; agg_description := span_description s;
     agg_count := 1; max_dur := duration_since (default now (ended_at s)) (started_at s); order_idx := idx |}.

Fixpoint bucket_push (k : WorkItemKey) (a : SpanAgg) (b : list (WorkItemKey * list SpanAgg))
  : list (WorkItemKey * list SpanAgg) :=
  match b with
  | [] => [(k, [a])]
  | (k', l) :: b => if decide (k' = k) then (k', l ++ [a]) :: b else (k', l) :: bucket_push k a b
  end.

Definition place_span (now : Z) (acc : gmap string (list SpanAgg) * list (WorkItemKey * list SpanAgg))
  (x : nat * SpanState) : gmap string (list SpanAgg) * list (WorkItemKey * list SpanAgg) :=
  let '(by_phase, by_key) := acc in
  let '(idx, s) := x in
  if is_old now s then acc
  else let a := agg_of now idx s in
       match span_ctx s, span_phase s with
       | None, Some ph => (<[ph := default [] (by_phase !! ph) ++ [a]]> by_phase, by_key)
       | _, _ => (by_phase, bucket_push (key_from_ctx (span_ctx s)) a by_key)
       end.

Definition span_buckets (now : Z) (t : ThreadView) : gmap string (list SpanAgg) * list (WorkItemKey * list SpanAgg) :=
  fold_left (place_span now) (imap pair (all_spans t)) (∅, []).

(** Spans that look the same are one. *)
Definition same_agg (a b : SpanAgg) : bool :=
  bool_decide (agg_status a = agg_status b) && String.eqb (agg_label a) (agg_label b)
  && bool_decide (agg_description a = agg_description b).

Definition merge_agg (agg s : SpanAgg) : SpanAgg :=
  {| agg_status := agg_status agg; agg_label := agg_label agg; agg_description := agg_description agg;
     agg_count := agg_count agg + 1;
     max_dur := if (max_dur agg <? max_dur s)%Z then max_dur s else max_dur agg;
     order_idx := if order_idx s <? order_idx agg then order_idx s else order_idx agg |}.

Fixpoint add_agg (l : list SpanAgg) (s : SpanAgg) : list SpanAgg :=
  match l with
  | [] => [s]
  | a :: l => if same_agg a s then merge_agg a s :: l else a :: add_agg l s
  end.

(** The comparison of [sort_by]. *)
Definition agg_cmp (a b : SpanAgg) : comparison :=
  match validate_dbt_sort_rank (agg_label a), validate_dbt_sort_rank (agg_label b) with
  | Some ra, Some rb => lex [Nat.compare ra rb; Nat.compare (order_idx a) (order_idx b)]
  | _, _ => Nat.compare (order_idx a) (order_idx b)
  end.

(** The sort goes by [agg_cmp] where that is an order; where it is not, the
    result of [sort_by] is unspecified and this is one of its results. *)
Definition agg_le (a b : SpanAgg) : Prop := agg_cmp a b <> Gt.
#[local] Instance agg_le_dec : RelDecision agg_le.
Proof. intros a b. unfold agg_le. solve_decision. Defined.

Definition consolidate (l : list SpanAgg) : list SpanAgg :=
  sort_by agg_le (map snd (hash_order (map (fun a => (agg_label a, a)) (fold_left add_agg l [])))).

(** ** A frame *)

Definition phase_glyph (blocked current future done_ : bool) : string :=
  if blocked then styled Magenta "[!]"
  else if current then styled Yellow "[~]"
  else if future then styled DarkGrey "[ ]"
  else if done_ then styled Green ("[" +:+ check_mark +:+ "]") else styled DarkGrey "[ ]".

Definition plan_lines (t : ThreadView) (ph : string) : list string :=
  concat (map (fun kp =>
    let '(kind, p) := kp in
    if String.eqb (default (kind +:+ "_plan") (plan_anchor_phase_by_kind t !! kind)) ph
    then [render_plan_summary_line kind p] else []) (hash_order (map_to_list (plans_by_kind t)))).

Definition workgroup_lines (t : ThreadView) (buckets : list (WorkItemKey * list SpanAgg)) (spinner_idx : nat) (ph : string)
  : list string :=
  match phase_plan_binding ph with
  | Some (kind, stage) =>
      match plans_by_kind t !! kind, workgroup_kinds_for_stage stage with
      | Some p, (_ :: _) as kinds =>
          render_plan_workgroups_compact kind p buckets (expanded_work_items t) (focus_by_kind t !! kind) spinner_idx kinds
      | _, _ => []
      end
  | None => []
  end.

Definition phase_lines (t : ThreadView) (by_phase : gmap string (list SpanAgg))
  (buckets : list (WorkItemKey * list SpanAgg)) (spinner_idx : nat) (idx : nat) (ph : string) : list string :=
  let cur := default DEFAULT_INITIAL_PHASE (current_phase t) in
  let item := items t !! ("phase:" +:+ ph) in
  let status := WsItem.status <$> item in
  let blocked := bool_decide (status = Some "blocked") in
  let future := match position cur (phases t) with Some ci => ci <? idx | None => false end in
  let current := String.eqb ph cur in
  let done_ := bool_decide (status = Some "ok") || bool_decide (ph ∈ completed_phases t) in
  let runtime := if future then None else item ≫= WsItem.runtime_ms in
  let line := phase_glyph blocked current future done_ +:+ " " +:+ styled White ph
    +:+ from_option (fun ms => "  " +:+ styled DarkGrey (fmt_ms ms)) EmptyString runtime in
  let parts := if negb future && (current || blocked || done_)
               then option_list (phase_detail_summary t ph) ++ option_list (phase_reason_summary t ph) else [] in
  let line := match parts with [] => line | _ => line +:+ "  " +:+ styled DarkGrey (join " | " parts) end in
  if negb future && negb current && done_ then [line]
  else line :: from_option (fun l => push_span_list "  " l spinner_idx) [] (by_phase !! ph)
         ++ plan_lines t ph ++ workgroup_lines t buckets spinner_idx ph.

Definition render_thread_detail (now : Z) (t : ThreadView) (spinner_idx : nat) : list string :=
  let '(by_phase, by_key) := span_buckets now t in
  let by_phase := consolidate <$> by_phase in
  let by_key := map (fun p => (p.1, consolidate p.2)) by_key in
  concat (imap (phase_lines t by_phase by_key spinner_idx) (phases t)).

Definition header_line (now : Z) (m : Model) : string :=
  styled White "Running" +:+ " " +:+ styled DarkGrey "thread" +:+ styled Cyan (" " +:+ default "-" (selected m)) +:+ " "
    +:+ styled DarkGrey ("... " +:+ fmt_ms (as_i64 (as_millis (duration_since now (started m))))).

Definition waiting_line : string := "waiting for events" +:+ ellipsis.

Definition render_model (now : Z) (m : Model) : list string :=
  let spinner_idx := Z.to_nat (as_millis (duration_since now (started m)) / 120) mod length SPINNER_FRAMES in
  header_line now m ::
    match selected m ≫= fun tid => threads m !! tid with
    | Some t => render_thread_detail now t spinner_idx
    | None => [waiting_line]
    end.
End render.
