(* ===== verification/TerminalViewLaws.v ===== *)
(** * Laws of what the terminal draws

    Of [TerminalView]: the work item in focus does not depend on the order of
    the hash map of buckets, spans are counted once each, and three places
    where the rendering is not what it was meant to be. *)

From stdpp Require Import base list strings gmap sorting.
From Stdlib Require Import ZArith Lia Ascii OrderedTypeEx.
From S2P Require Import Prelude.
From S2P Require Import RustStr.
From S2P Require Import Json.
From S2P Require Import Analysis.
From S2P Require Import WsModels.
From S2P Require Import History.
From S2P Require Import Terminal.
From S2P Require Import TerminalView.

(** ** Comparisons *)

(** A comparison that is a total order on the values of [P]. *)
Record TotalCmp {A} (P : A -> Prop) (cmp : A -> A -> comparison) : Prop := {
  cmp_eq : forall a b, P a -> P b -> cmp a b = Eq <-> a = b;
  cmp_antisym : forall a b, P a -> P b -> cmp b a = CompOpp (cmp a b);
  cmp_trans : forall a b c, P a -> P b -> P c -> cmp a b = Lt -> cmp b c = Lt -> cmp a c = Lt
}.
Arguments cmp_eq {A P cmp}.
Arguments cmp_antisym {A P cmp}.
Arguments cmp_trans {A P cmp}.

Definition anything {A} (_ : A) : Prop := True.

Lemma string_compare_total : TotalCmp anything String.compare.
Proof.
  split.
  - intros a b _ _. apply String_as_OT.cmp_eq.
  - intros a b _ _. apply String_as_OT.cmp_antisym.
  - intros a b c _ _ _ H1%String_as_OT.cmp_lt H2%String_as_OT.cmp_lt.
    apply String_as_OT.cmp_lt. by eapply String_as_OT.lt_trans.
Qed.

Lemma opt_cmp_total : TotalCmp anything opt_cmp.
Proof.
  destruct string_compare_total as [He Ha Ht]. split.
  - intros [a|] [b|] _ _; cbn; try (split; congruence). rewrite He by done. split; congruence.
  - intros [a|] [b|] _ _; cbn; try done. by apply Ha.
  - intros [a|] [b|] [c|] _ _ _; cbn; try done. by apply Ht.
Qed.

Lemma lex_total {A} (cmp : A -> A -> comparison) n :
  TotalCmp anything cmp -> TotalCmp (fun l : list A => length l = n) (fun l k => lex (zip_with cmp l k)).
Proof.
  intros [He Ha Ht]. induction n as [|n IH].
  - split; intros; repeat match goal with H : length _ = 0 |- _ => apply nil_length_inv in H as -> end; done.
  - destruct IH as [Ie Ia It]. split.
    + intros [|a l] [|b k] Hl Hk; try done. cbn in *. injection Hl as Hl. injection Hk as Hk.
      specialize (He a b I I). specialize (Ie l k Hl Hk).
      destruct (cmp a b); [rewrite Ie, (proj1 He eq_refl)| |]; split; try congruence;
        intros [= -> ->]; by rewrite (proj2 He eq_refl) in *.
    + intros [|a l] [|b k] Hl Hk; try done. cbn in *. injection Hl as Hl. injection Hk as Hk.
      rewrite (Ha a b I I). destruct (cmp a b); cbn; [by apply Ia|done|done].
    + intros [|a l] [|b k] [|c m] Hl Hk Hm; try done. cbn in *.
      injection Hl as Hl. injection Hk as Hk. injection Hm as Hm.
      destruct (cmp a b) eqn:Hab; intros H1; [|clear H1|done];
        (destruct (cmp b c) eqn:Hbc; intros H2; [|clear H2|done]).
      * apply He in Hab as ->; [|done..]. rewrite Hbc. eauto.
      * apply He in Hab as ->; [|done..]. by rewrite Hbc.
      * apply He in Hbc as ->; [|done..]. by rewrite Hab.
      * by rewrite (Ht a b c I I I Hab Hbc).
Qed.

Lemma key_cmp_total : TotalCmp anything key_cmp.
Proof.
  destruct (lex_total opt_cmp 5 opt_cmp_total) as [He Ha Ht]. split.
  - intros [] [] _ _. unfold key_cmp. rewrite He by done. cbn. split; [intros [=]; by subst|by intros [= -> -> -> -> ->]].
  - intros a b _ _. by apply Ha.
  - intros a b c _ _ _. by apply Ht.
Qed.

(** ** The work item in focus *)

Definition better_prop (a b : WorkItemKey * Z) : Prop := better a b = true.

Lemma better_spec a b :
  better a b = true <-> (b.2 < a.2)%Z \/ (a.2 = b.2 /\ key_cmp a.1 b.1 = Lt).
Proof.
  unfold better. rewrite orb_true_iff, andb_true_iff, Z.ltb_lt, Z.eqb_eq.
  destruct (key_cmp a.1 b.1); naive_solver.
Qed.

Lemma better_trans a b c : better a b = true -> better b c = true -> better a c = true.
Proof.
  rewrite !better_spec. pose proof (cmp_trans key_cmp_total a.1 b.1 c.1 I I I) as Ht.
  intros [|[? ?]] [|[? ?]]; [left; lia|left; lia|left; lia|right; split; [lia|auto]].
Qed.

Lemma better_irrefl a : better a a = false.
Proof.
  destruct (better a a) eqn:H; [|done]. apply better_spec in H as [H|[_ H]]; [lia|].
  by rewrite (proj2 (cmp_eq key_cmp_total a.1 a.1 I I) eq_refl) in H.
Qed.

Lemma better_total a b : better a b = false -> better b a = false -> a = b.
Proof.
  intros H1 H2.
  assert (~ ((b.2 < a.2)%Z \/ (a.2 = b.2 /\ key_cmp a.1 b.1 = Lt))) as N1 by (rewrite <- better_spec; congruence).
  assert (~ ((a.2 < b.2)%Z \/ (b.2 = a.2 /\ key_cmp b.1 a.1 = Lt))) as N2 by (rewrite <- better_spec; congruence).
  destruct a as [k d], b as [k' d']; cbn [fst snd] in *. assert (d = d') as -> by lia.
  rewrite (cmp_antisym key_cmp_total k k' I I) in N2.
  destruct (key_cmp k k') eqn:Hc; cbn [CompOpp] in *; [|tauto..].
  by apply (cmp_eq key_cmp_total) in Hc as ->.
Qed.

(** The best of a list, and its order does not matter. *)
Definition best (l : list (WorkItemKey * Z)) (b : option (WorkItemKey * Z)) := fold_left take_better l b.

Lemma take_better_comm b x y : take_better (take_better b x) y = take_better (take_better b y) x.
Proof.
  assert (forall u v, better u v = true -> better v u = false) as Hasym.
  { intros u v H. destruct (better v u) eqn:H'; [|done].
    pose proof (better_trans _ _ _ H H') as H''. by rewrite better_irrefl in H''. }
  destruct b as [b|]; cbn.
  - destruct (better x b) eqn:Hx, (better y b) eqn:Hy; cbn; rewrite ?Hx, ?Hy; try done.
    + destruct (better x y) eqn:H1, (better y x) eqn:H2; try done.
      * by rewrite (Hasym _ _ H1) in H2.
      * by rewrite (better_total _ _ H1 H2).
    + destruct (better y x) eqn:H; [|done]. by rewrite (better_trans _ _ _ H Hx) in Hy.
    + destruct (better x y) eqn:H; [|done]. by rewrite (better_trans _ _ _ H Hy) in Hx.
  - destruct (better x y) eqn:H1, (better y x) eqn:H2; try done.
    + by rewrite (Hasym _ _ H1) in H2.
    + by rewrite (better_total _ _ H1 H2).
Qed.

Lemma best_perm l l' b : l ≡ₚ l' -> best l b = best l' b.
Proof.
  intros H. revert b. induction H as [|x l l' _ IH|x y l|l l2 l3 _ IH1 _ IH2]; intros b; [done|apply IH| |].
  - unfold best. cbn. by rewrite take_better_comm.
  - by rewrite IH1.
Qed.

Lemma best_spec l b :
  match best l b with
  | Some x => (Some x = b \/ x ∈ l) /\ (forall y, Some y = b \/ y ∈ l -> better y x = false)
  | None => b = None /\ l = []
  end.
Proof.
  revert b. induction l as [|z l IH]; intros b; unfold best; cbn.
  { destruct b as [x|]; [|done]. split; [by left|].
    intros y [[= ->]|H]; [apply better_irrefl|inversion H]. }
  specialize (IH (take_better b z)). unfold best in IH.
  destruct (fold_left take_better l (take_better b z)) as [x|] eqn:Hx.
  - destruct IH as [Hin Hmax]. split.
    + destruct Hin as [Hin|Hin]; [|right; by apply elem_of_cons; right].
      destruct b as [b|]; cbn in Hin; [destruct (better z b)|]; try (injection Hin as ->);
        try (right; apply elem_of_cons; by left). by left.
    + assert (forall y, Some y = b \/ y = z -> better y x = false) as Hold.
      { intros y Hy. destruct (better y x) eqn:Hb; [exfalso|done].
        destruct b as [b|]; cbn in Hmax.
        - destruct (better z b) eqn:Hzb.
          + specialize (Hmax z (or_introl eq_refl)). destruct Hy as [[= ->]| ->]; [|congruence].
            by rewrite (better_trans _ _ _ Hzb Hb) in Hmax.
          + specialize (Hmax b (or_introl eq_refl)). destruct Hy as [[= ->]| ->]; [congruence|].
            destruct (better b z) eqn:Hbz.
            * by rewrite (better_trans _ _ _ Hbz Hb) in Hmax.
            * rewrite (better_total _ _ Hzb Hbz) in Hb. congruence.
        - specialize (Hmax z (or_introl eq_refl)). destruct Hy as [?| ->]; congruence. }
      intros y [Hy|[ ->|Hy]%elem_of_cons]; [auto|auto|]. apply Hmax. by right.
  - destruct IH as [Hn _]. destruct b as [b|]; cbn in Hn; [destruct (better z b)|]; done.
Qed.

(** The buckets in question, with the longest of their spans. *)
Definition candidates (kind : string) (groups : list string) (running : bool)
  (buckets : list (WorkItemKey * list SpanAgg)) : list (WorkItemKey * Z) :=
  omap (fun b : WorkItemKey * list SpanAgg =>
    if is_candidate kind groups b.1 && (negb running || any_running b.2)
    then Some (b.1, longest b.2) else None) buckets.

Lemma consider_all kind groups buckets r a :
  fold_left (consider kind groups) buckets (r, a)
  = (best (candidates kind groups true buckets) r, best (candidates kind groups false buckets) a).
Proof.
  revert r a. induction buckets as [|[k spans] buckets IH]; intros r a; [done|].
  cbn [fold_left]. unfold candidates, consider at 2. cbn [omap list_omap fst snd].
  destruct (is_candidate kind groups k); cbn [andb negb orb]; [|apply IH].
  rewrite IH. by destruct (any_running spans).
Qed.

Lemma elem_of_candidates kind groups running buckets x :
  x ∈ candidates kind groups running buckets <->
  exists spans, (x.1, spans) ∈ buckets /\ x.2 = longest spans /\ is_candidate kind groups x.1 = true
    /\ (running = true -> any_running spans = true).
Proof.
  unfold candidates. rewrite list_elem_of_omap. split.
  - intros ([k spans] & Hin & H). cbn [fst snd] in H.
    destruct (is_candidate kind groups k) eqn:Hc; cbn [andb] in H; [|done].
    destruct (negb running || any_running spans) eqn:Hr; [|done].
    injection H as <-. exists spans. cbn. repeat split; [done|done|]. intros ->. exact Hr.
  - intros (spans & Hin & He & Hc & Hr). exists (x.1, spans). split; [done|]. cbn [fst snd]. rewrite Hc.
    destruct x as [k d], running; cbn [fst snd andb negb orb] in *; [rewrite Hr by done|]; by subst.
Qed.

(** The key the search settles on. *)
Definition found (kind : string) (groups : list string) (buckets : list (WorkItemKey * list SpanAgg))
  : option WorkItemKey :=
  fst <$> match best (candidates kind groups true buckets) None with
          | Some x => Some x
          | None => best (candidates kind groups false buckets) None
          end.

Definition is_preferred (kind : string) (groups : list string) (preferred : option WorkItemKey) (k : WorkItemKey) : Prop :=
  preferred = Some k /\ is_candidate kind groups k = true.

Lemma pick_is kind buckets preferred groups :
  pick_focus_key_filtered kind buckets preferred groups
  = match preferred with
    | Some p => if is_candidate kind groups p then Some p else found kind groups buckets
    | None => found kind groups buckets
    end.
Proof. unfold pick_focus_key_filtered, found. rewrite consider_all. by destruct preferred. Qed.

Lemma found_is_best kind groups buckets :
  match found kind groups buckets with
  | Some k => exists spans, (k, spans) ∈ buckets /\ is_candidate kind groups k = true
      /\ (forall k' spans', (k', spans') ∈ buckets -> is_candidate kind groups k' = true ->
          any_running spans' = true -> any_running spans = true /\ (longest spans' <= longest spans)%Z)
  | None => forall k spans, (k, spans) ∈ buckets -> is_candidate kind groups k = false
  end.
Proof.
  unfold found. pose proof (best_spec (candidates kind groups true buckets) None) as Hr.
  destruct (best (candidates kind groups true buckets) None) as [[k d]|]; cbn [fmap option_fmap option_map fst].
  - destruct Hr as [[?|Hin] Hmax]; [done|].
    apply elem_of_candidates in Hin as (spans & Hin & Hd & Hc & Hrun). cbn in *.
    exists spans. split_and!; [done..|]. intros k' spans' Hin' Hc' Hrun'. split; [auto|].
    specialize (Hmax (k', longest spans')). destruct (Z.leb_spec (longest spans') (longest spans)); [done|].
    exfalso. assert (better (k', longest spans') (k, d) = false) as Hb.
    { apply Hmax. right. apply elem_of_candidates. exists spans'. cbn. eauto. }
    apply not_true_iff_false in Hb. apply Hb, better_spec. left. cbn. lia.
  - destruct Hr as [_ Hnil].
    assert (forall k spans, (k, spans) ∈ buckets -> is_candidate kind groups k = true -> any_running spans <> true) as Hno.
    { intros k spans Hin Hc Hrun. assert ((k, longest spans) ∈ candidates kind groups true buckets) as H.
      { apply elem_of_candidates. exists spans. eauto. } rewrite Hnil in H. inversion H. }
    pose proof (best_spec (candidates kind groups false buckets) None) as Ha.
    destruct (best (candidates kind groups false buckets) None) as [[k d]|]; cbn [fmap option_fmap option_map fst].
    + destruct Ha as [[?|Hin] _]; [done|]. apply elem_of_candidates in Hin as (spans & Hin & _ & Hc & _).
      exists spans. split_and!; [done..|]. intros k' spans' Hin' Hc' Hrun'. by destruct (Hno _ _ Hin' Hc').
    + destruct Ha as [_ Ha]. intros k spans Hin. apply not_true_iff_false. intros Hc.
      assert ((k, longest spans) ∈ candidates kind groups false buckets) as H.
      { apply elem_of_candidates. exists spans. by split_and!. } rewrite Ha in H. inversion H.
Qed.

(** The work item in focus is the same in whatever order the hash map of
    buckets is visited.  It is the preferred one where that belongs to the
    plan's allowed groups; else some bucket of an allowed group, and where any
    of those has a running span, one that runs and whose longest span is the
    longest of theirs; and there is none only where there is no such bucket. *)
Theorem focus_does_not_flap kind groups preferred buckets buckets' :
  buckets ≡ₚ buckets' ->
  pick_focus_key_filtered kind buckets preferred groups = pick_focus_key_filtered kind buckets' preferred groups /\
  match pick_focus_key_filtered kind buckets preferred groups with
  | Some k => is_preferred kind groups preferred k \/
      exists spans, (k, spans) ∈ buckets /\ is_candidate kind groups k = true /\
        forall k' spans', (k', spans') ∈ buckets -> is_candidate kind groups k' = true ->
          any_running spans' = true -> any_running spans = true /\ (longest spans' <= longest spans)%Z
  | None => forall k spans, (k, spans) ∈ buckets -> is_candidate kind groups k = false
  end.
Proof.
  intros Hp. rewrite !pick_is.
  assert (found kind groups buckets = found kind groups buckets') as Hf.
  { unfold found. assert (forall r, best (candidates kind groups r buckets) None
                                   = best (candidates kind groups r buckets') None) as H.
    { intros r. apply best_perm. unfold candidates. by rewrite Hp. }
    by rewrite !H. }
  pose proof (found_is_best kind groups buckets) as Hs.
  destruct preferred as [p|]; [destruct (is_candidate kind groups p) eqn:Hc|].
  - split; [done|]. by left.
  - split; [done|]. destruct (found kind groups buckets); [by right|done].
  - split; [done|]. destruct (found kind groups buckets); [by right|done].
Qed.

(** A bucket where one item runs, and one, of the same plan, where a longer
    one has ended. *)
Definition sample_key (item : string) : WorkItemKey := {|
  WsContext.plan_kind := Some "model"; WsContext.plan_key := Some "p"; WsContext.workgroup_id := Some "g";
  WsContext.task_id := Some "t"; WsContext.checklist_item_id := Some item |}.

Definition sample_agg (st : SpanStatus.t) (label : string) (d : Z) (idx : nat) : SpanAgg :=
  {| agg_status := st; agg_label := label; agg_description := None; agg_count := 1; max_dur := d; order_idx := idx |}.

Definition sample_buckets : list (WorkItemKey * list SpanAgg) :=
  [(sample_key "a", [sample_agg SpanStatus.Running "read" 5 0]);
   (sample_key "b", [sample_agg SpanStatus.Ok "write" 9 1])].

Lemma focus_does_not_flap_witness :
  sample_buckets ≡ₚ reverse sample_buckets /\
  pick_focus_key_filtered " Model" (reverse sample_buckets) None ["g"] = Some (sample_key "a").
Proof.
  assert (sample_buckets ≡ₚ reverse sample_buckets) as Hp by (by rewrite reverse_Permutation).
  split; [exact Hp|].
  destruct (focus_does_not_flap " Model" ["g"] None _ _ Hp) as [<- _]. vm_compute. reflexivity.
Defined.

(** ** Spans are counted once *)

Definition agg_key (a : SpanAgg) : SpanStatus.t * string * option string :=
  (agg_status a, agg_label a, agg_description a).

Lemma same_agg_spec a b : same_agg a b = true <-> agg_key a = agg_key b.
Proof.
  unfold same_agg, agg_key. rewrite !andb_true_iff, !bool_decide_eq_true, String.eqb_eq.
  split; [intros [[-> ->] ->]; done|intros [=]; done].
Qed.

Lemma agg_key_merge a s : agg_key (merge_agg a s) = agg_key a.
Proof. done. Qed.

Lemma add_agg_keys l s : forall k, k ∈ map agg_key (add_agg l s) <-> k ∈ map agg_key l \/ k = agg_key s.
Proof.
  induction l as [|a l IH]; intros k; cbn [add_agg map].
  - rewrite elem_of_cons. set_solver.
  - destruct (same_agg a s) eqn:Hs; cbn [map]; rewrite ?elem_of_cons, ?IH, ?agg_key_merge; [|naive_solver].
    apply same_agg_spec in Hs. rewrite <- Hs. naive_solver.
Qed.

Lemma add_agg_nodup l s : NoDup (map agg_key l) -> NoDup (map agg_key (add_agg l s)).
Proof.
  induction l as [|a l IH]; cbn [add_agg map]; intros Hn; [apply NoDup_singleton|].
  apply NoDup_cons in Hn as [Ha Hn].
  destruct (same_agg a s) eqn:Hs; cbn [map]; rewrite ?agg_key_merge; apply NoDup_cons; [done|].
  split; [|auto]. rewrite add_agg_keys. intros [?|He]; [done|].
  apply same_agg_spec in He. congruence.
Qed.

Lemma add_agg_total l s :
  agg_count s = 1 -> sum_list_with agg_count (add_agg l s) = sum_list_with agg_count l + 1.
Proof.
  intros Hs. induction l as [|a l IH]; cbn [add_agg]; [cbn; lia|].
  destruct (same_agg a s); cbn in *; lia.
Qed.

(** [a] stands for [s]: it looks the same, and is no shorter and no later. *)
Definition covers (a s : SpanAgg) : Prop :=
  same_agg a s = true /\ (max_dur s <= max_dur a)%Z /\ order_idx a <= order_idx s.

Lemma merge_covers a s : same_agg a s = true -> covers (merge_agg a s) s.
Proof.
  intros Hs. split; [|split].
  - apply same_agg_spec. rewrite agg_key_merge. by apply same_agg_spec.
  - unfold merge_agg; cbn [max_dur]. destruct (Z.ltb_spec (max_dur a) (max_dur s)); lia.
  - unfold merge_agg; cbn [order_idx]. destruct (Nat.ltb_spec (order_idx s) (order_idx a)); lia.
Qed.

Lemma merge_still_covers a s x : covers a x -> covers (merge_agg a s) x.
Proof.
  intros (Hk & Hd & Ho). split; [|split].
  - apply same_agg_spec. rewrite agg_key_merge. by apply same_agg_spec.
  - unfold merge_agg; cbn [max_dur]. destruct (Z.ltb_spec (max_dur a) (max_dur s)); lia.
  - unfold merge_agg; cbn [order_idx]. destruct (Nat.ltb_spec (order_idx s) (order_idx a)); lia.
Qed.

Lemma covers_refl a : covers a a.
Proof. split; [by apply same_agg_spec|done]. Qed.

Lemma add_agg_covers l s x :
  (x = s \/ exists a, a ∈ l /\ covers a x) -> exists a, a ∈ add_agg l s /\ covers a x.
Proof.
  induction l as [|b l IH]; cbn [add_agg].
  - intros [->|(a & Ha & _)]; [|inversion Ha]. exists s. split; [set_solver|apply covers_refl].
  - destruct (same_agg b s) eqn:Hs.
    + intros [->|(a & [->|Ha]%elem_of_cons & Hc)].
      * exists (merge_agg b s). split; [set_solver|by apply merge_covers].
      * exists (merge_agg b s). split; [set_solver|by apply merge_still_covers].
      * exists a. split; [set_solver|done].
    + intros H. assert (x = s \/ (exists a, a ∈ l /\ covers a x) \/ covers b x) as H'.
      { destruct H as [->|(a & [->|Ha]%elem_of_cons & Hc)]; [by left|by right; right|right; left; eauto]. }
      destruct H' as [H'|[H'|H']]; [| |exists b; split; [set_solver|done]];
        (destruct IH as (a & ? & ?); [by (left + right)|]; exists a; split; [set_solver|done]).
Qed.

Section counting.
Context `{HI : !HashIter}.

Lemma consolidate_perm l : consolidate l ≡ₚ fold_left add_agg l [].
Proof.
  unfold consolidate. rewrite sort_by_perm, hash_order_perm, map_map. cbn. by rewrite map_id.
Qed.

Lemma add_aggs l : Forall (fun s => agg_count s = 1) l -> forall acc,
  NoDup (map agg_key acc) ->
  let r := fold_left add_agg l acc in
  sum_list_with agg_count r = sum_list_with agg_count acc + length l /\ NoDup (map agg_key r)
  /\ (forall x, x ∈ l \/ (exists a, a ∈ acc /\ covers a x) -> exists a, a ∈ r /\ covers a x).
Proof.
  induction 1 as [|s l Hs Hl IH]; intros acc Hn; cbn [fold_left length].
  - split_and!; [lia|done|]. intros x [Hx|Hx]; [inversion Hx|done].
  - destruct (IH (add_agg acc s) (add_agg_nodup acc s Hn)) as (Ht & Hd & Hc).
    rewrite add_agg_total in Ht by done. split_and!; [lia|done|].
    intros x [[->|Hx]%elem_of_cons|Hx]; apply Hc; [right|by left|right]; apply add_agg_covers; auto.
Qed.

(** The spans drawn under a phase or a work item: however the hash maps are
    visited, no two lines look the same, the counts on the lines add up to the
    number of spans, and every span is on a line that looks like it, whose
    duration is no less and whose place is no later than its own. *)
Theorem spans_are_counted_once now (xs : list (nat * SpanState)) :
  let spans := map (fun x => agg_of now x.1 x.2) xs in
  let r := consolidate spans in
  sum_list_with agg_count r = length xs /\
  NoDup (map agg_key r) /\
  (forall s, s ∈ spans -> exists a, a ∈ r /\ covers a s).
Proof.
  cbv zeta. set (spans := map _ xs).
  assert (Forall (fun s => agg_count s = 1) spans) as Hone by (by apply Forall_map, Forall_true).
  destruct (add_aggs spans Hone [] (NoDup_nil_2)) as (Ht & Hd & Hc).
  pose proof (consolidate_perm spans) as Hp. split_and!.
  - rewrite Hp, Ht. unfold spans. by rewrite length_map.
  - by rewrite Hp.
  - intros s Hs. destruct (Hc s (or_introl Hs)) as (a & Ha & Hcov). exists a. by rewrite Hp.
Qed.
End counting.

(** ** Where the rendering goes wrong *)

(** The comparison the lines are sorted by is no order: a build of dbt comes
    before another tool, that tool before a compile that started later, and
    the compile before the build. *)
Theorem lines_are_sorted_by_no_order :
  exists a b c, agg_cmp a b = Lt /\ agg_cmp b c = Lt /\ agg_cmp c a = Lt.
Proof.
  exists (sample_agg SpanStatus.Ok "Validate dbt (build)" 1 0), (sample_agg SpanStatus.Ok "Read file" 1 1),
    (sample_agg SpanStatus.Ok "Validate dbt (compile)" 1 2). vm_compute. done.
Qed.

(** The summaries of a plan update and of a design critique read fields that
    a phase event's details do not have: no detail gives a plan summary, and
    every critique counts no blockers and no fixes. *)
Theorem typed_details_have_no_summary (d : PhaseReasonDetail) :
  plan_update_reason (Some (reason_detail_value d)) = None /\
  (prd_kind d = Some "plan_design_critique" ->
   blocked_reason (Some (reason_detail_value d)) = "blocked: design critique (0 blockers, 0 fixes)").
Proof.
  destruct d as [[] [] [] [] [] [] []]; split; try reflexivity; cbn; intros [= ->]; reflexivity.
Qed.

(** The kind of a plan is put in lower case when it is looked for and not when
    it is stored: a plan whose kind has capitals finds none of its spans. *)
Theorem capitals_hide_the_spans groups k :
  WsContext.plan_kind k = Some "Model" -> is_candidate "Model" groups k = false.
Proof. intros H. unfold is_candidate. rewrite H. reflexivity. Qed.
