(* ===== verification/TerminalScreen.v ===== *)
(** * Painting the terminal

    [src/src/transport/src/ws/terminal.rs], [run_terminal] and
    [refresh_stdout]: the loop of the renderer's thread, and the repainting of
    the rows that changed.  The terminal itself is behind an interface, [Tty],
    with the documented behaviour of its commands as laws; that it shows the
    frame last drawn is proved against them. *)

From stdpp Require Import base list strings gmap.
From Stdlib Require Import ZArith Lia.
From S2P Require Import Prelude.
From S2P Require Import RustStr.
From S2P Require Import Text.
From S2P Require Import Analysis.
From S2P Require Import Redaction.
From S2P Require Import Terminal.
From S2P Require Import TerminalView.

(** The commands that are written to the standard output. *)
Inductive Cmd : Type :=
| Hide
| MoveTo (row : nat)
| ClearFromCursorDown
| ClearCurrentLine
| MoveToColumn (col : nat)
| Write (s : string).

(** A terminal: what a command does to it, or that writing it failed. *)
Class Tty (Scr : Type) := {
  exec : Cmd -> Scr -> option Scr;
  row_of : Scr -> nat -> string;
  cursor : Scr -> nat * nat;
  (** No control characters but colours, and one column for each character. *)
  plain : string -> bool
}.

Definition run_cmds `{Tty Scr} (cmds : list Cmd) (s : Scr) : option Scr :=
  fold_left (fun s c => s ≫= exec c) cmds (Some s).

(** [row as u16] *)
Definition as_u16 (n : nat) : nat := Z.to_nat (Z.of_nat n mod 65536).

Definition fit_line (s : string) (width : Z) : string := ansi_fit_line s (Z.to_nat (Z.max width 10)).

(** The lines as they are drawn in a terminal of the given size. *)
Definition fit_frame (size : option (Z * Z)) (new_lines : list string) : list string :=
  let '(w, h) := default (120, 40)%Z size in
  let max_lines := Z.to_nat (Z.max h 3) in
  let new_lines := map (fun l => fit_line l w) new_lines in
  if max_lines <? length new_lines then take (max_lines - 1) new_lines ++ [ellipsis] else new_lines.

Definition paint_row (row : nat) (line : string) : list Cmd :=
  [MoveTo (as_u16 row); ClearCurrentLine; MoveToColumn 0; Write line].

Definition clear_row (row : nat) : list Cmd := [MoveTo (as_u16 row); ClearCurrentLine].

(** The rows two frames have in common, then those only the new one has, then
    those only the old one has. *)
Definition repaint (prev new : list string) : list (list Cmd) :=
  let common := Nat.min (length prev) (length new) in
  imap (fun row '(p, n) => if String.eqb p n then [] else paint_row row n) (zip prev new)
  ++ imap (fun i n => paint_row (common + i) n) (drop common new)
  ++ map clear_row (seq (length new) (length prev - length new)).

(** What is written, and the lines that are remembered. *)
Definition refresh_stdout (size : option (Z * Z)) (prev_lines new_lines : list string) : list Cmd * list string :=
  let new_lines := fit_frame size new_lines in
  if bool_decide (prev_lines = new_lines) then ([], prev_lines)
  else ((match prev_lines with [] => [MoveTo 0; ClearFromCursorDown] | _ => [] end)
          ++ concat (repaint prev_lines new_lines), new_lines).

(** ** The loop *)

(** What one wait on the channel brings, up to what is queued. *)
Inductive Received : Type :=
| Batch (evs : list (Z * TerminalEvent))
| Tick
| Disconnected.

(** A wait, and when and for which size the frame after it is drawn. *)
Record Round : Type := { received : Received; drawn_at : Z; size_then : option (Z * Z) }.

(** Queued events up to a shutdown. *)
Fixpoint drain `{!UnicodeLower} (evs : list (Z * TerminalEvent)) (m : Model) : Model * bool :=
  match evs with
  | [] => (m, false)
  | (now, ev) :: evs => match ev with Shutdown => (m, true) | _ => drain evs (apply_event now ev m) end
  end.

Definition receive `{!UnicodeLower} (r : Received) (m : Model) : Model * bool :=
  match r with Batch evs => drain evs m | Tick => (m, false) | Disconnected => (m, true) end.

Section loop.
Context `{HLow : !UnicodeLower, HSty : !Stylize, HI : !HashIter, HT : !Tty Scr}.

(** The renderer: its model, the lines it drew, the terminal, and whether it
    has ended. *)
Record Ui : Type := { model : Model; prev_lines : list string; screen : Scr; ended : bool }.

Definition draw (now : Z) (size : option (Z * Z)) (m : Model) (prev : list string) (s : Scr) : option Ui :=
  let '(cmds, prev) := refresh_stdout size prev (render_model now m) in
  (fun s => {| model := m; prev_lines := prev; screen := s; ended := false |}) <$> run_cmds cmds s.

Definition ui_round (u : Ui) (r : Round) : option Ui :=
  if ended u then Some u
  else let '(m, stop) := receive (received r) (model u) in
       if stop then Some {| model := m; prev_lines := prev_lines u; screen := screen u; ended := true |}
       else draw (drawn_at r) (size_then r) m (prev_lines u) (screen u).

(** [None] where the terminal refuses a write; hiding the cursor may fail. *)
Definition run_terminal (start : Z) (size : option (Z * Z)) (s : Scr) (rounds : list Round) : option Ui :=
  fold_left (fun u r => u ≫= fun u => ui_round u r) rounds
    (draw start size (new_model start) [] (default s (exec Hide s))).
End loop.
Arguments Ui : clear implicits.

(** ** The laws of a terminal *)

(** [s'] shows what [s] shows, but for row [r], where it shows [t]. *)
Definition one_row `{Tty Scr} (rows : nat) (r : nat) (t : string) (s s' : Scr) : Prop :=
  forall i, i < rows -> row_of s' i = if i =? r then t else row_of s i.

Class TtyLaws (Scr : Type) `{HT : !Tty Scr} (rows columns : nat) : Prop := {
  move_to r s s' : exec (MoveTo r) s = Some s' -> r < rows ->
    cursor s' = (r, 0) /\ forall i, i < rows -> row_of s' i = row_of s i;
  clear_line s s' : exec ClearCurrentLine s = Some s' ->
    cursor s' = cursor s /\ one_row rows (cursor s).1 EmptyString s s';
  clear_down s s' : exec ClearFromCursorDown s = Some s' -> (cursor s).2 = 0 ->
    forall i, i < rows -> row_of s' i = if (cursor s).1 <=? i then EmptyString else row_of s i;
  to_column c s s' : exec (MoveToColumn c) s = Some s' -> c < columns ->
    cursor s' = ((cursor s).1, c) /\ forall i, i < rows -> row_of s' i = row_of s i;
  write_text t s s' : exec (Write t) s = Some s' -> plain t = true -> ansi_display_width t <= columns ->
    (cursor s).2 = 0 -> row_of s (cursor s).1 = EmptyString -> one_row rows (cursor s).1 t s s'
}.

Section shown.
Context {Scr : Type} `{HT : !Tty Scr}.
Context (rows columns : nat) `{HL : !TtyLaws Scr rows columns}.

Lemma run_cons c cs s : run_cmds (c :: cs) s = exec c s ≫= run_cmds cs.
Proof.
  unfold run_cmds. cbn. destruct (exec c s); [done|]. cbn. by induction cs.
Qed.

Lemma run_app cs ds s : run_cmds (cs ++ ds) s = run_cmds cs s ≫= run_cmds ds.
Proof.
  revert s. induction cs as [|c cs IH]; intros s; [done|].
  cbn [app]. rewrite !run_cons. destruct (exec c s); [apply IH|done].
Qed.

(** [b] changes row [r] by [f] and leaves the other rows. *)
Definition changes (r : nat) (b : list Cmd) (f : string -> string) : Prop :=
  forall s s', run_cmds b s = Some s' -> one_row rows r (f (row_of s r)) s s'.

Lemma changes_nothing r f : (forall old, f old = old) -> changes r [] f.
Proof. intros Hf s s' [= <-] i _. rewrite Hf. by destruct (Nat.eqb_spec i r) as [->|]. Qed.

Lemma move_and_clear r s s' :
  r < rows -> (exec (MoveTo r) s ≫= exec ClearCurrentLine) = Some s' ->
  cursor s' = (r, 0) /\ one_row rows r EmptyString s s'.
Proof.
  intros Hr. destruct (exec (MoveTo r) s) as [s1|] eqn:H1; cbn; intros H2; [|done].
  destruct (move_to _ _ _ H1 Hr) as [Hc1 Hr1], (clear_line _ _ H2) as [Hc2 Hr2].
  rewrite Hc1 in *. split; [done|]. intros i Hi. rewrite (Hr2 i Hi). cbn. by rewrite Hr1.
Qed.

Lemma as_u16_small r : r < rows -> (Z.of_nat rows <= 65536)%Z -> as_u16 r = r.
Proof. intros ??. unfold as_u16. rewrite Z.mod_small by lia. lia. Qed.

Context (rows_u16 : (Z.of_nat rows <= 65536)%Z) (columns_pos : 0 < columns).

Lemma clear_row_changes r : r < rows -> changes r (clear_row r) (fun _ => EmptyString).
Proof.
  intros Hr s s'. unfold clear_row. rewrite as_u16_small, run_cons by done.
  destruct (exec (MoveTo r) s) as [s1|] eqn:H1; cbn [mbind option_bind]; [|done]. cbn [mbind option_bind]. rewrite run_cons.
  destruct (exec ClearCurrentLine s1) as [s2|] eqn:H2; [|done]. intros [= <-].
  eapply move_and_clear; [done|]. by rewrite H1.
Qed.

Lemma paint_row_changes r t :
  r < rows -> plain t = true -> ansi_display_width t <= columns -> changes r (paint_row r t) (fun _ => t).
Proof.
  intros Hr Hp Hw s s'. unfold paint_row. rewrite as_u16_small, run_cons by done.
  destruct (exec (MoveTo r) s) as [s1|] eqn:H1; cbn [mbind option_bind]; [|done]. cbn [mbind option_bind]. rewrite run_cons.
  destruct (exec ClearCurrentLine s1) as [s2|] eqn:H2; cbn [mbind option_bind]; [|done]. cbn [mbind option_bind]. rewrite run_cons.
  destruct (exec (MoveToColumn 0) s2) as [s3|] eqn:H3; cbn [mbind option_bind]; [|done]. cbn [mbind option_bind]. rewrite run_cons.
  destruct (exec (Write t) s3) as [s4|] eqn:H4; [|done]. intros [= <-].
  destruct (move_and_clear r s s2 Hr) as [Hc2 Hr2]; [by rewrite H1|].
  destruct (to_column _ _ _ H3 columns_pos) as [Hc3 Hr3]. rewrite Hc2 in Hc3. cbn in Hc3.
  assert (row_of s3 r = EmptyString) as He.
  { rewrite Hr3, (Hr2 r Hr) by done. by rewrite Nat.eqb_refl. }
  assert (one_row rows r t s3 s4) as Hr4.
  { pose proof (write_text t s3 s4 H4 Hp Hw) as H. rewrite Hc3 in H. cbn in H. by apply H. }
  intros i Hi. rewrite (Hr4 i Hi). destruct (Nat.eqb_spec i r) as [|Hne]; [done|].
  rewrite Hr3, (Hr2 i Hi) by done. by rewrite (proj2 (Nat.eqb_neq i r) Hne).
Qed.

(** Blocks of commands for rows that follow each other. *)
Lemma run_blocks (f : nat -> string -> string) (bs : list (list Cmd)) a s s' :
  (forall i b, bs !! i = Some b -> changes (a + i) b (f (a + i))) ->
  run_cmds (concat bs) s = Some s' ->
  forall i, i < rows ->
    row_of s' i = if (a <=? i) && (i <? a + length bs) then f i (row_of s i) else row_of s i.
Proof.
  revert a s. induction bs as [|b bs IH]; intros a s Hb Hrun i Hi.
  { injection Hrun as <-. cbn [length]. by destruct (Nat.leb_spec a i), (Nat.ltb_spec i (a + 0)); cbn; try lia. }
  cbn [concat] in Hrun. rewrite run_app in Hrun.
  destruct (run_cmds b s) as [s1|] eqn:H1; [|done]. cbn in Hrun.
  pose proof (Hb 0 b eq_refl) as H0. rewrite Nat.add_0_r in H0. specialize (H0 s s1 H1 i Hi).
  rewrite (IH (S a) s1 (fun i b Hl => eq_rect _ (fun n => changes n b (f n)) (Hb (S i) b Hl) _ (Nat.add_succ_r a i))
    Hrun i Hi), H0. cbn [length].
  destruct (Nat.eqb_spec i a) as [->|Hne].
  - rewrite (proj2 (Nat.leb_gt (S a) a)), (proj2 (Nat.leb_le a a)), (proj2 (Nat.ltb_lt a (a + S (length bs)))) by lia.
    done.
  - destruct (Nat.leb_spec (S a) i), (Nat.leb_spec a i); try lia; cbn [andb]; [|done].
    destruct (Nat.ltb_spec i (S a + length bs)), (Nat.ltb_spec i (a + S (length bs))); try lia; done.
Qed.

(** The rows of the terminal are the lines, and blank below them. *)
Definition shows (lines : list string) (s : Scr) : Prop :=
  forall i, i < rows -> row_of s i = default EmptyString (lines !! i).

(** Lines the terminal has room for. *)
Definition drawable (lines : list string) : Prop :=
  length lines <= rows /\ Forall (fun l => plain l = true /\ ansi_display_width l <= columns) lines.

(** What the repainting does to a row. *)
Definition repainted (prev new : list string) (i : nat) (old : string) : string :=
  match new !! i with
  | Some n => if decide (prev !! i = Some n) then old else n
  | None => EmptyString
  end.

Lemma length_repaint prev new : length (repaint prev new) = Nat.max (length prev) (length new).
Proof.
  unfold repaint. rewrite !length_app, !length_imap, length_zip_with, length_drop, length_map, length_seq. lia.
Qed.

Lemma paint_drawable new i n f :
  drawable new -> new !! i = Some n -> (forall old, f old = n) -> changes i (paint_row i n) f.
Proof.
  intros [Hl Hd] Hi Hf. pose proof (proj1 (Forall_lookup _ _) Hd i n Hi) as [Hp Hw].
  assert (i < rows) as Hr by (apply lookup_lt_Some in Hi; lia).
  intros s s' H. rewrite Hf. by apply (paint_row_changes i n Hr Hp Hw).
Qed.

Lemma repaint_changes prev new :
  length prev <= rows -> drawable new ->
  forall i b, repaint prev new !! i = Some b -> changes i b (repainted prev new i).
Proof.
  intros Hp Hn i b. unfold repaint. set (common := Nat.min _ _).
  assert (length (zip prev new) = common) as Hz by (by rewrite length_zip_with).
  rewrite lookup_app. rewrite list_lookup_imap.
  destruct (zip prev new !! i) as [[p n]|] eqn:Hi; cbn.
  - intros [= <-]. apply lookup_zip_with_Some in Hi as (p' & n' & [= <- <-] & Hpi & Hni).
    destruct (String.eqb_spec p n) as [->|Hne].
    + apply changes_nothing. intros old. unfold repainted. rewrite Hni. by rewrite decide_True.
    + eapply paint_drawable; [done..|]. intros old. unfold repainted. rewrite Hni.
      rewrite decide_False; [done|]. rewrite Hpi. congruence.
  - apply lookup_ge_None in Hi. rewrite length_imap, Hz in *. rewrite lookup_app, list_lookup_imap, lookup_drop.
    replace (common + (i - common)) with i by lia.
    destruct (new !! i) as [n|] eqn:Hni; cbn.
    + intros [= <-]. eapply paint_drawable; [done..|]. intros old. unfold repainted. rewrite Hni.
      rewrite decide_False; [done|]. intros Hpi%lookup_lt_Some. apply lookup_lt_Some in Hni. unfold common in Hi. lia.
    + rewrite length_imap, length_drop. rewrite list_lookup_fmap. intros Hb.
      apply fmap_Some in Hb as (row & Hs%lookup_seq & ->). apply lookup_ge_None in Hni. destruct Hs as [-> Hs].
      assert (length new + (i - common - (length new - common)) = i) as -> by (unfold common in *; lia).
      intros s s' H. unfold repainted. rewrite (proj2 (lookup_ge_None new i) Hni).
      apply clear_row_changes; [unfold common in *; lia|done].
Qed.

Lemma clear_screen s s' : 0 < rows -> run_cmds [MoveTo 0; ClearFromCursorDown] s = Some s' -> shows [] s'.
Proof.
  intros Hpos. rewrite run_cons. destruct (exec (MoveTo 0) s) as [s1|] eqn:H1; [|done]. cbn [mbind option_bind].
  rewrite run_cons. destruct (exec ClearFromCursorDown s1) as [s2|] eqn:H2; [|done]. intros [= <-] i Hi.
  destruct (move_to _ _ _ H1 Hpos) as [Hc _]. pose proof (clear_down _ _ H2) as H. rewrite Hc in H.
  by rewrite (H eq_refl i Hi).
Qed.

Lemma repaint_shows prev new s s' :
  shows prev s -> length prev <= rows -> drawable new ->
  run_cmds (concat (repaint prev new)) s = Some s' -> shows new s'.
Proof.
  intros Hs Hp Hn Hrun i Hi.
  pose proof (run_blocks (repainted prev new) _ 0 s s' (repaint_changes prev new Hp Hn) Hrun i Hi) as H.
  cbn [Nat.leb andb Nat.add] in H. rewrite length_repaint in H. rewrite H. unfold repainted.
  specialize (Hs i Hi). destruct (Nat.ltb_spec i (Nat.max (length prev) (length new))) as [Hl|Hl].
  - destruct (new !! i) as [n|]; cbn; [|done]. destruct (decide _) as [He|]; [|done]. by rewrite Hs, He.
  - rewrite Hs, !(proj2 (lookup_ge_None _ i)) by lia. done.
Qed.

Lemma refresh_shows size prev lines cmds new s s' :
  refresh_stdout size prev lines = (cmds, new) -> fit_frame size lines <> [] ->
  (prev <> [] -> shows prev s) -> length prev <= rows -> 0 < rows -> drawable (fit_frame size lines) ->
  run_cmds cmds s = Some s' -> new = fit_frame size lines /\ shows new s'.
Proof.
  unfold refresh_stdout. intros Heq Hne Hs Hp Hpos Hd Hrun. destruct (bool_decide_reflect (prev = fit_frame size lines)).
  - injection Heq as <- <-. injection Hrun as <-. subst. auto.
  - injection Heq as <- <-. split; [done|]. destruct prev as [|p prev].
    + rewrite run_app in Hrun. destruct (run_cmds [MoveTo 0; ClearFromCursorDown] s) as [s1|] eqn:H1; [|done].
      apply (repaint_shows [] _ s1); [by eapply clear_screen|done|done|exact Hrun].
    + apply (repaint_shows (p :: prev) _ s); [by apply Hs|done|done|exact Hrun].
Qed.
End shown.

(** ** A run of the renderer *)

Definition round_events (r : Round) : list (Z * TerminalEvent) :=
  match received r with Batch evs => evs | _ => [] end.

Definition last_draw (start : Z) (rounds : list Round) : Z := default start (drawn_at <$> last rounds).

Section run.
Context {Scr : Type} `{HLow : !UnicodeLower, HSty : !Stylize, HI : !HashIter, HT : !Tty Scr}.
Context (w h : Z) `{HL : !TtyLaws Scr (Z.to_nat (Z.max h 3)) (Z.to_nat (Z.max w 10))}.
Context (h_u16 : (h < 65536)%Z).

Lemma drain_applies evs m :
  let '(m', stop) := drain evs m in stop = false -> m' = apply_events evs m.
Proof.
  revert m. induction evs as [|[now ev] evs IH]; intros m; [done|].
  cbn [drain]. specialize (IH (apply_event now ev m)).
  destruct ev; try exact IH. done.
Qed.

Lemma length_fit_frame lines : length (fit_frame (Some (w, h)) lines) <= Z.to_nat (Z.max h 3).
Proof.
  unfold fit_frame. cbn [default from_option id].
  destruct (Nat.ltb_spec (Z.to_nat (Z.max h 3)) (length (map (fun l => fit_line l w) lines))) as [Hl|Hl]; [|done].
  rewrite length_app, length_take. cbn. lia.
Qed.

Lemma fit_frame_ne lines : lines <> [] -> fit_frame (Some (w, h)) lines <> [].
Proof.
  intros Hne. unfold fit_frame. cbn [default from_option id].
  destruct (_ <? _); [by destruct (take _ _)|]. by destruct lines.
Qed.

Lemma fits_columns lines :
  Forall (fun l => ansi_display_width l <= Z.to_nat (Z.max w 10)) (fit_frame (Some (w, h)) lines).
Proof.
  assert (Forall (fun l => ansi_display_width l <= Z.to_nat (Z.max w 10)) (map (fun l => fit_line l w) lines)) as H.
  { apply Forall_map, Forall_true. intros l. apply (ansi_fit_line_fits l). }
  unfold fit_frame. cbn [default from_option id]. destruct (_ <? _); [|done].
  apply Forall_app. split; [by apply Forall_take|]. apply Forall_singleton.
  change (ansi_display_width ellipsis) with 1. lia.
Qed.

(** What holds between rounds. *)
Definition ui_ok (start : Z) (rounds : list Round) (u : Ui Scr) : Prop :=
  shows (Z.to_nat (Z.max h 3)) (prev_lines u) (screen u) /\
  prev_lines u <> [] /\ length (prev_lines u) <= Z.to_nat (Z.max h 3) /\
  (ended u = false ->
     model u = apply_events (concat (map round_events rounds)) (new_model start) /\
     prev_lines u = fit_frame (Some (w, h)) (render_model (last_draw start rounds) (model u))).

Lemma draw_ok now m prev s u :
  (prev <> [] -> shows (Z.to_nat (Z.max h 3)) prev s) -> length prev <= Z.to_nat (Z.max h 3) ->
  draw now (Some (w, h)) m prev s = Some u -> Forall (fun l => plain l = true) (prev_lines u) ->
  shows (Z.to_nat (Z.max h 3)) (prev_lines u) (screen u) /\ prev_lines u <> [] /\
  length (prev_lines u) <= Z.to_nat (Z.max h 3) /\ ended u = false /\ model u = m /\
  prev_lines u = fit_frame (Some (w, h)) (render_model now m).
Proof.
  unfold draw. intros Hs Hp Hd Hplain.
  destruct (refresh_stdout (Some (w, h)) prev (render_model now m)) as [cmds new] eqn:Hr.
  destruct (run_cmds cmds s) as [s'|] eqn:Hrun; [|done]. injection Hd as <-. cbn in Hplain |- *.
  assert (new = fit_frame (Some (w, h)) (render_model now m)) as Hnew.
  { unfold refresh_stdout in Hr. destruct (bool_decide_reflect (prev = fit_frame (Some (w, h)) (render_model now m)));
      injection Hr as _ <-; [done|done]. }
  destruct (refresh_shows (Z.to_nat (Z.max h 3)) (Z.to_nat (Z.max w 10)) ltac:(lia) ltac:(lia)
              _ _ _ _ _ s s' Hr) as [_ Hshow]; [by apply fit_frame_ne|done|done|lia| |done|].
  - split; [apply length_fit_frame|]. apply Forall_and. split; [by rewrite <- Hnew|apply fits_columns].
  - split_and!; [done| |subst; apply length_fit_frame|done|done|done].
    subst. by apply fit_frame_ne.
Qed.

Lemma ui_round_ok start rounds r u u' :
  size_then r = Some (w, h) -> ui_ok start rounds u -> ui_round u r = Some u' ->
  Forall (fun l => plain l = true) (prev_lines u') -> (ended u = true -> ended u' = true) /\ ui_ok start (rounds ++ [r]) u'.
Proof.
  intros Hsize (Hs & Hne & Hl & Hend) Hround Hplain. unfold ui_round in Hround. destruct (ended u) eqn:He.
  { injection Hround as <-. split; [done|]. split_and!; [done..|]. congruence. }
  specialize (Hend eq_refl) as [Hm _]. split; [done|].
  destruct (receive (received r) (model u)) as [m stop] eqn:Hrec. destruct stop.
  { injection Hround as <-. split_and!; done. }
  rewrite Hsize in Hround. destruct (draw_ok _ _ _ _ _ (fun _ => Hs) Hl Hround Hplain) as (? & ? & ? & ? & Hmu & Hpu).
  split_and!; [done..|]. intros _. split.
  - rewrite map_app, concat_app. unfold apply_events. rewrite fold_left_app. cbn. rewrite app_nil_r.
    fold (apply_events (concat (map round_events rounds)) (new_model start)). rewrite <- Hm, Hmu.
    fold (apply_events (round_events r) (model u)). unfold round_events.
    destruct (received r) as [evs| |]; cbn in Hrec; [|by injection Hrec as <-|done].
    pose proof (drain_applies evs (model u)) as Hdr. rewrite Hrec in Hdr. by apply Hdr.
  - unfold last_draw. rewrite last_snoc. cbn. by rewrite Hmu.
Qed.

(** C15: The terminal shows the server.  As long as the window keeps its size
    and the lines drawn are texts it shows as they are, and while the renderer
    runs, whatever events came in whatever rounds, each row of the terminal is
    the line of that number of the frame drawn from all the events so far,
    fitted to the terminal, and blank where the frame has no such line; when it
    has ended the terminal still shows the last frame. *)
Theorem the_screen_shows_the_frame start s rounds u :
  Forall (fun r => size_then r = Some (w, h)) rounds ->
  run_terminal start (Some (w, h)) s rounds = Some u ->
  (forall k v, run_terminal start (Some (w, h)) s (take k rounds) = Some v ->
     Forall (fun l => plain l = true) (prev_lines v)) ->
  shows (Z.to_nat (Z.max h 3)) (prev_lines u) (screen u) /\
  (ended u = false ->
     model u = apply_events (concat (map round_events rounds)) (new_model start) /\
     prev_lines u = fit_frame (Some (w, h)) (render_model (last_draw start rounds) (model u))).
Proof.
  intros Hsizes Hrun Hplain. enough (ui_ok start rounds u) as (? & _ & _ & ?) by done.
  revert u Hsizes Hrun Hplain. induction rounds as [|r rounds IH] using rev_ind; intros u Hsizes Hrun Hplain.
  - specialize (Hplain 0 u Hrun). cbn in Hrun.
    destruct (draw_ok start (new_model start) [] _ u ltac:(done) ltac:(cbn; lia) Hrun Hplain) as (? & ? & ? & ? & Hm & Hp).
    split_and!; [done..|]. rewrite Hm. done.
  - apply Forall_app in Hsizes as [Hsizes Hr]. apply Forall_cons in Hr as [Hr _].
    unfold run_terminal in Hrun. rewrite fold_left_app in Hrun. cbn [fold_left] in Hrun.
    fold (run_terminal start (Some (w, h)) s rounds) in Hrun.
    destruct (run_terminal start (Some (w, h)) s rounds) as [v|] eqn:Hv; [|done]. cbn [mbind option_bind] in Hrun.
    assert (ui_ok start rounds v) as Hok.
    { apply IH; [done|done|]. intros k v' Hk. destruct (le_lt_dec k (length rounds)) as [Hle|Hgt].
      - apply (Hplain k). by rewrite take_app_le.
      - apply (Hplain (length rounds)). rewrite take_app_length. rewrite take_ge in Hk by lia. done. }
    eapply ui_round_ok; [done|done|exact Hrun|].
    apply (Hplain (length (rounds ++ [r]))). rewrite take_ge by done.
    unfold run_terminal. rewrite fold_left_app. cbn [fold_left].
    fold (run_terminal start (Some (w, h)) s rounds). by rewrite Hv.
Qed.
End run.

(** ** A terminal *)

(** A screen of some rows: moves stop at the last row, and text replaces the
    row from the cursor on. *)
Record Device : Type := { dev_rows : nat; dev_text : nat -> string; dev_cursor : nat * nat }.

Definition set_row (r : nat) (t : string) (f : nat -> string) (i : nat) : string := if i =? r then t else f i.

Definition device_exec (c : Cmd) (d : Device) : option Device :=
  let '(r, col) := dev_cursor d in
  let text f := {| dev_rows := dev_rows d; dev_text := f; dev_cursor := dev_cursor d |} in
  let at_ x := {| dev_rows := dev_rows d; dev_text := dev_text d; dev_cursor := x |} in
  match c with
  | Hide => Some d
  | MoveTo r => Some (at_ (Nat.min r (dev_rows d - 1), 0))
  | ClearFromCursorDown => Some (text (fun i => if r <=? i then EmptyString else dev_text d i))
  | ClearCurrentLine => Some (text (set_row r EmptyString (dev_text d)))
  | MoveToColumn c => Some (at_ (r, c))
  | Write t => Some {| dev_rows := dev_rows d;
      dev_text := set_row r (String.substring 0 col (dev_text d r) +:+ t) (dev_text d);
      dev_cursor := (r, col + ansi_display_width t) |}
  end.

(** The number of rows is fixed with the interface's: a device of [n]. *)
Definition device_tty (n : nat) : Tty Device := {|
  exec c d := device_exec c {| dev_rows := n; dev_text := dev_text d; dev_cursor := dev_cursor d |};
  row_of := dev_text; cursor := dev_cursor; plain _ := true |}.

Lemma substring_0 s : String.substring 0 0 s = EmptyString.
Proof. by destruct s. Qed.

Lemma device_laws n columns : TtyLaws Device (HT := device_tty n) n columns.
Proof.
  split; cbn.
  - intros r s s' H Hr. unfold device_exec in H. destruct (dev_cursor _). injection H as <-. cbn.
    split; [by rewrite Nat.min_l by lia|done].
  - intros s s' H. unfold device_exec in H. cbn in H. destruct (dev_cursor s) as [r c] eqn:He. injection H as <-. cbn.
    split; [done|]. intros i _. done.
  - intros s s' H Hc i Hi. unfold device_exec in H. cbn in H. destruct (dev_cursor s) as [r c]. by injection H as <-.
  - intros c s s' H Hc. unfold device_exec in H. cbn in H. destruct (dev_cursor s) as [r c']. by injection H as <-.
  - intros t s s' H _ _ Hc Hrow i Hi. unfold device_exec in H. cbn in H.
    destruct (dev_cursor s) as [r c]. injection H as <-. cbn in *. subst c.
    unfold set_row. by rewrite substring_0.
Qed.

(** Two rounds on a terminal of three rows: a progress note that no thread
    takes, and a tick. *)
Definition sample_rounds : list Round :=
  [{| received := Batch [(5%Z, Info "hello")]; drawn_at := 6; size_then := Some (40%Z, 3%Z) |};
   {| received := Tick; drawn_at := 2000000000; size_then := Some (40%Z, 3%Z) |}].

Definition scribbled : Device :=
  {| dev_rows := 3; dev_text := fun _ => "left by the shell"; dev_cursor := (2, 7) |}.

#[local] Instance lower_id : UnicodeLower := fun s => s.
#[local] Instance uncoloured : Stylize := fun _ s => s.
#[local] Program Instance in_order : HashIter := {| hash_order := fun A l => l |}.
Next Obligation. done. Qed.
#[local] Instance sample_tty : Tty Device := device_tty 3.

Lemma the_screen_shows_the_frame_witness :
  exists u, run_terminal 0 (Some (40%Z, 3%Z)) scribbled sample_rounds = Some u /\
    map (row_of (screen u)) [0; 1; 2] = ["Running thread - ... 2.0s"; waiting_line; EmptyString].
Proof.
  destruct (run_terminal 0 (Some (40%Z, 3%Z)) scribbled sample_rounds) as [u|] eqn:Hu;
    [|exfalso; revert Hu; vm_compute; discriminate].
  exists u. split; [reflexivity|].
  destruct (the_screen_shows_the_frame 40 3 (HL := device_laws 3 40) ltac:(lia) 0 scribbled sample_rounds u) as [Hs _].
  - repeat constructor.
  - exact Hu.
  - intros k v _. apply Forall_true. intros l. reflexivity.
  - assert (prev_lines u = ["Running thread - ... 2.0s"; waiting_line]) as Hp.
    { revert Hu. vm_compute. intros [= <-]. reflexivity. }
    cbn [map]. rewrite !Hs by (cbn; lia). rewrite Hp. reflexivity.
Defined.

(** In a window made smaller between two frames, the rows that no longer exist
    are cleared where the moves to them stop, at the last row: the line just
    painted there is lost, and is not painted again while the frame stays the
    same. *)
Theorem a_shrunk_window_loses_its_last_line :
  let small := Some (40%Z, 3%Z) in
  let lines := ["one"; "two"; "three"; "four"; "five"] in
  let '(cmds, prev) := refresh_stdout small lines lines in
  prev = ["one"; "two"; ellipsis] /\
  (fun s => map (row_of s) [0; 1; 2]) <$> run_cmds cmds {| dev_rows := 3; dev_text := fun i => nth i lines EmptyString;
                                                           dev_cursor := (0, 0) |}
    = Some ["one"; "two"; EmptyString] /\
  refresh_stdout small prev lines = ([], prev).
Proof. vm_compute. done. Qed.
