(* ===== verification/LanceStore.v ===== *)
(** * The vector store over LanceDB

    [src/src/modules/providers/vector-lance/src]: records in one table of a
    LanceDB database, searched by distance and deleted by SQL predicates.  The
    database and Arrow are the class [LanceDb], with their documented behaviour
    as [LanceLaws]; the predicates the store builds, the columns it reads back
    and the order of its calls are the program's own. *)

From stdpp Require Import base list strings.
From Stdlib Require Import ZArith Lia Ascii SpecFloat.
From S2P Require Import Prelude.
From S2P Require Import RustStr.
From S2P Require Import Floats.

Record Chunk : Type := {
  chunk_id : string;
  chunk_namespace : string;
  chunk_text : string;
  chunk_vector : list Z;
  chunk_metadata_json : string;
  chunk_epoch : Z
}.

Record ScoredChunk : Type := { chunk_item : Chunk; chunk_score : F32.t }.

Record LanceDbStore : Type := { uri : string; storage_options : list (string * string) }.

Definition EMBEDDINGS_TABLE_V2 : string := "embeddings_v2".

Definition newLance (u : string) : LanceDbStore := {| uri := u; storage_options := [] |}.

Definition with_storage_options (opts : list (string * string)) (s : LanceDbStore) : LanceDbStore :=
  {| uri := uri s; storage_options := opts |}.

(** ** Predicates *)

Definition quote : ascii := "'"%char.

(** [raw.replace('\'', "''")] *)
Fixpoint escape_sql_literal (raw : string) : string :=
  match raw with
  | EmptyString => EmptyString
  | String a s => if Ascii.eqb a quote then String quote (String quote (escape_sql_literal s))
                  else String a (escape_sql_literal s)
  end.

Definition quoted (s : string) : string := String quote (s +:+ String quote EmptyString).

Definition delete_predicate (column value : string) : string :=
  column +:+ " = " +:+ quoted (escape_sql_literal value).

Definition like_prefix_predicate (column prefix : string) : string :=
  column +:+ " LIKE " +:+ quoted (escape_sql_literal prefix +:+ "%").

Definition thread_predicate (thread_id : string) : string :=
  "id LIKE " +:+ quoted ("%:" +:+ escape_sql_literal thread_id +:+ ":%").

Definition every_row : string := "id IS NOT NULL".

(** ** The database *)

(** A batch of the answer to a search: the columns it has, its rows, and the
    text of a cell. *)
Record SearchBatch : Type := {
  index_of : string -> option nat;
  num_rows : nat;
  array_value_to_string : nat -> nat -> option string
}.

(** Errors are the texts that [{:?}] writes; [arrow_batch] lays records out in
    columns, for vectors of one length. *)
Class LanceDb (W : Type) := {
  Conn : Type;
  Table : Type;
  arrow_batch : Z -> list Chunk -> Result (list Chunk) string;
  lance_connect : string -> list (string * string) -> Act W string Conn;
  open_table : Conn -> string -> Act W string Table;
  create_table : Conn -> string -> list Chunk -> Act W string Table;
  table_add : Table -> list Chunk -> Act W string unit;
  vector_search : Table -> list Z -> Z -> Act W string (list (Result SearchBatch string));
  table_delete : Table -> string -> Act W string unit
}.

Section store.
Context {W : Type} `{HL : !LanceDb W}.
(** [str::parse::<f32>()] *)
Variable parse_f32 : string -> option F32.t.

Definition connect (st : LanceDbStore) : Act W string Conn := lance_connect (uri st) (storage_options st).

(** The loop that checks the dimensions. *)
Definition same_dims (dims : nat) (items : list Chunk) : bool :=
  forallb (fun c => Nat.eqb (length (chunk_vector c)) dims) items.

(** What is checked before the database is touched. *)
Definition build_batch (items : list Chunk) : Result (list Chunk) string :=
  let dims := from_option (fun c => length (chunk_vector c)) 0 (head items) in
  if Nat.eqb dims 0 then Err "empty vectors"
  else if negb (same_dims dims items) then Err "inconsistent vector dims"
  else arrow_batch (Z.of_nat dims) items.

(** [match db.open_table(..).await { Ok(t) => t, Err(_) => create }] *)
Definition open_or_create (db : Conn) (batch : list Chunk) : Act W string Table :=
  fun w => match open_table db EMBEDDINGS_TABLE_V2 w with
           | (Ok t, w) => (Ok t, w)
           | (Err _, w) => create_table db EMBEDDINGS_TABLE_V2 batch w
           end.

Definition lance_upsert (st : LanceDbStore) (items : list Chunk) : Act W string unit :=
  match items with
  | [] => act_ret tt
  | _ =>
      do! batch <- act_lift (build_batch items);
      do! db <- connect st;
      do! tbl <- open_or_create db batch;
      table_add tbl batch
  end.

(** [s_val]: the text of a cell, empty where there is no such column. *)
Definition s_val (b : SearchBatch) (r : nat) (name : string) : string :=
  default EmptyString (index_of b name ≫= fun j => array_value_to_string b j r).

Definition read_row (b : SearchBatch) (r : nat) : ScoredChunk := {|
  chunk_item := {| chunk_id := s_val b r "id"; chunk_namespace := s_val b r "namespace"; chunk_text := s_val b r "text";
                   chunk_vector := []; chunk_metadata_json := s_val b r "metadata_json";
                   chunk_epoch := default 0%Z (parse_uint u64_max (s_val b r "epoch")) |};
  chunk_score := default (S754_zero false) (parse_f32 (s_val b r "_distance")) |}.

Definition in_namespace (namespace : option string) (s : ScoredChunk) : bool :=
  match namespace with Some ns => String.eqb ns (chunk_namespace (chunk_item s)) | None => true end.

Definition read_batch (namespace : option string) (b : SearchBatch) : list ScoredChunk :=
  List.filter (in_namespace namespace) (map (read_row b) (seq 0 (num_rows b))).

(** The loop over the stream. *)
Fixpoint read_stream (namespace : option string) (bs : list (Result SearchBatch string)) : Result (list ScoredChunk) string :=
  match bs with
  | [] => Ok []
  | Err e :: _ => Err e
  | Ok b :: bs => let? rest := read_stream namespace bs in Ok (read_batch namespace b ++ rest)
  end.

Definition query_v2 (st : LanceDbStore) (query_vec : list Z) (k : Z) (namespace : option string)
  : Act W string (list ScoredChunk) :=
  do! db <- connect st;
  fun w => match open_table db EMBEDDINGS_TABLE_V2 w with
           | (Err _, w) => (Ok [], w)
           | (Ok tbl, w) =>
               (do! bs <- vector_search tbl query_vec k; act_lift (read_stream namespace bs)) w
           end.

Definition score_le (a b : ScoredChunk) : Prop :=
  default Eq (F32.partial_cmp (chunk_score a) (chunk_score b)) <> Gt.
#[export] Instance score_le_dec : RelDecision score_le.
Proof. intros a b. unfold score_le. solve_decision. Defined.

Definition lance_query (st : LanceDbStore) (query_vec : list Z) (k : Z) (namespace : option string)
  : Act W string (list ScoredChunk) :=
  do! out <- query_v2 st query_vec k namespace;
  act_ret (sort_by score_le out).

Definition delete_where (st : LanceDbStore) (table_name predicate : string) : Act W string unit :=
  do! db <- connect st;
  fun w => match open_table db table_name w with
           | (Ok tbl, w) => table_delete tbl predicate w
           | (Err _, w) => (Ok tt, w)
           end.

Definition lance_delete_thread_embeddings (st : LanceDbStore) (thread_id : string) : Act W string unit :=
  delete_where st EMBEDDINGS_TABLE_V2 (thread_predicate thread_id).

Definition delete_pipeline_embeddings (st : LanceDbStore) : Act W string unit :=
  delete_where st EMBEDDINGS_TABLE_V2 every_row.

Definition lance_delete_namespace (st : LanceDbStore) (namespace : string) : Act W string unit :=
  delete_where st EMBEDDINGS_TABLE_V2 (delete_predicate "namespace" namespace).

Definition lance_delete_ids_with_prefix (st : LanceDbStore) (prefix : string) : Act W string unit :=
  delete_where st EMBEDDINGS_TABLE_V2 (like_prefix_predicate "id" prefix).

(** [global_lance_store.rs] *)
Definition global_upsert (u : string) (items : list Chunk) : Act W string unit := lance_upsert (newLance u) items.

Definition global_query (u : string) (query_vec : list Z) (k : Z) : Act W string (list ScoredChunk) :=
  lance_query (newLance u) query_vec k None.
End store.

(** ** What a predicate says *)

(** The value of a quoted literal, and what follows it: a doubled quote stands
    for one. *)
Fixpoint read_literal (s : string) : option (string * string) :=
  match s with
  | EmptyString => None
  | String a s' =>
      if Ascii.eqb a quote then
        match s' with
        | String b s'' =>
            if Ascii.eqb b quote then (fun p => (String quote p.1, p.2)) <$> read_literal s''
            else Some (EmptyString, s')
        | EmptyString => Some (EmptyString, EmptyString)
        end
      else (fun p => (String a p.1, p.2)) <$> read_literal s'
  end.

Lemma read_escaped (s rest : string) :
  match rest with String b _ => b <> quote | EmptyString => True end -> read_literal (escape_sql_literal s +:+ String quote rest) = Some (s, rest).
Proof.
  intros Hr. induction s as [|a s IH].
  - cbn [escape_sql_literal]. change (EmptyString +:+ String quote rest) with (String quote rest).
    cbn [read_literal]. rewrite Ascii.eqb_refl. destruct rest as [|b rest]; [done|].
    by rewrite (proj2 (Ascii.eqb_neq b quote) Hr).
  - cbn [escape_sql_literal]. destruct (Ascii.eqb_spec a quote) as [->|Hne].
    + change (read_literal (String quote (String quote ((escape_sql_literal s) +:+ String quote rest))) = Some (String quote s, rest)).
      cbn [read_literal]. rewrite Ascii.eqb_refl, IH. done.
    + change ((escape_sql_literal s) +:+ String quote rest) with (escape_sql_literal s +:+ String quote rest) in IH.
      change (read_literal (String a (escape_sql_literal s +:+ String quote rest)) = Some (String a s, rest)).
      cbn [read_literal]. rewrite (proj2 (Ascii.eqb_neq a quote) Hne), IH. done.
Qed.

(** The predicates of the store as values: equality, a pattern, every row. *)
Inductive Predicate : Type :=
| ColumnIs (column value : string)
| ColumnLike (column pattern : string)
| AnyRow.

(** The literal that makes up all that follows [prefix]. *)
Definition literal_after (prefix s : string) : option string :=
  if starts_with s prefix
  then match read_literal (string_drop (String.length prefix) s) with
       | Some (v, EmptyString) => Some v
       | _ => None
       end
  else None.

Definition parse_predicate (s : string) : option Predicate :=
  if String.eqb s every_row then Some AnyRow
  else match literal_after "namespace = '" s with
       | Some v => Some (ColumnIs "namespace" v)
       | None => ColumnLike "id" <$> literal_after "id LIKE '" s
       end.

(** ** The contract of the database

    The rows of the store's table, [None] where there is none.  Opening fails
    at least where there is none; a table is created with the rows it is given;
    adding appends; deleting takes the rows a predicate matches. *)

(** A row of an answer as the record it was read from. *)
Definition row_of_chunk (b : SearchBatch) (r : nat) (c : Chunk) : Prop :=
  s_val b r "id" = chunk_id c /\ s_val b r "namespace" = chunk_namespace c /\ s_val b r "text" = chunk_text c
  /\ s_val b r "metadata_json" = chunk_metadata_json c.

Definition answer_rows (bs : list (Result SearchBatch string)) : nat :=
  sum_list_with (fun b => match b with Ok b => num_rows b | Err _ => 0 end) bs.

Class LanceLaws (W : Type) `{HL : !LanceDb W} := {
  rows : W -> option (list Chunk);
  (** [value LIKE pattern] *)
  like : string -> string -> bool;
  like_none : like EmptyString EmptyString = true;
  like_literal c p d s : c <> "%"%char -> c <> "_"%char -> c <> "\"%char ->
    like (String c p) (String d s) = Ascii.eqb c d && like p s;
  like_short c p : c <> "%"%char -> like (String c p) EmptyString = false;
  like_any s : like "%" s = true;
  like_skip p x s : like p s = true -> like (String "%" p) (x +:+ s) = true;
  arrow_law dims items b : arrow_batch dims items = Ok b -> b = items;
  connect_law u o w r w' : lance_connect u o w = (r, w') -> rows w' = rows w;
  open_law db w r w' : open_table db EMBEDDINGS_TABLE_V2 w = (r, w') ->
    rows w' = rows w /\ (is_Ok r = true -> is_Some (rows w));
  create_law db b w r w' : create_table db EMBEDDINGS_TABLE_V2 b w = (r, w') ->
    if is_Ok r then rows w = None /\ rows w' = Some b else rows w' = rows w;
  add_law t b w r w' : table_add t b w = (r, w') ->
    rows w' = if is_Ok r then (fun l => l ++ b) <$> rows w else rows w;
  delete_law t s p w r w' : table_delete t s w = (r, w') -> parse_predicate s = Some p ->
    rows w' = if is_Ok r then List.filter (fun c => negb (match p with
      | ColumnIs _ v => String.eqb (chunk_namespace c) v
      | ColumnLike _ pat => like pat (chunk_id c)
      | AnyRow => true end)) <$> rows w else rows w;
  search_law t q k w bs w' : vector_search t q k w = (Ok bs, w') ->
    rows w' = rows w /\ (0 <= k -> Z.of_nat (answer_rows bs) <= k)%Z
    /\ forall b r, Ok b ∈ bs -> r < num_rows b -> exists c, c ∈ default [] (rows w) /\ row_of_chunk b r c;
  search_err_law t q k w e w' : vector_search t q k w = (Err e, w') -> rows w' = rows w
}.

Section laws.
Context {W : Type} `{HL : !LanceDb W, HLaws : !LanceLaws W}.

Lemma build_batch_items items b : build_batch items = Ok b -> b = items.
Proof.
  unfold build_batch. destruct (Nat.eqb _ 0); [done|]. destruct (negb _); [done|]. apply arrow_law.
Qed.

(** An upsert appends: of records with an id that is stored already both stay,
    and the records of the first upsert, which makes the table, are stored
    twice.  One that fails changes nothing, unless the table was made and the
    records could not be added to it. *)
Theorem upserts_append (st : LanceDbStore) (items : list Chunk) (w : W) :
  let '(r, w') := lance_upsert st items w in
  if is_Ok r
  then rows w' = match items, rows w with
                 | [], before => before
                 | _, None => Some (items ++ items)
                 | _, Some before => Some (before ++ items)
                 end
  else rows w' = rows w \/ (rows w = None /\ rows w' = Some items).
Proof.
  unfold lance_upsert. destruct items as [|c items]; [done|]. set (all := c :: items).
  unfold act_bind, act_lift. destruct (build_batch all) as [b|e] eqn:Hb; [|by left].
  apply build_batch_items in Hb as ->.
  destruct (connect st w) as [[db|e] w1] eqn:Hc; apply connect_law in Hc; [|by left].
  unfold open_or_create. destruct (open_table db EMBEDDINGS_TABLE_V2 w1) as [[t|e] w2] eqn:Ho;
    destruct (open_law _ _ _ _ Ho) as [Hr Hsome].
  - destruct (Hsome eq_refl) as [l Hl]. destruct (table_add t all w2) as [[[]|e] w3] eqn:Ha; apply add_law in Ha; cbn in *.
    + rewrite Ha, Hr, Hl, <- Hc, Hl. done.
    + left. congruence.
  - destruct (create_table db EMBEDDINGS_TABLE_V2 all w2) as [[t|e2] w3] eqn:Hcr; apply create_law in Hcr; cbn in Hcr.
    + destruct Hcr as [Hn Hs]. assert (rows w = None) as Hw by congruence.
      destruct (table_add t all w3) as [[[]|e2] w4] eqn:Ha; apply add_law in Ha; cbn in *.
      * by rewrite Ha, Hs, Hw.
      * right. split; congruence.
    + left. cbn. congruence.
Qed.

Lemma literal_after_escaped (prefix v : string) :
  literal_after prefix (prefix +:+ (escape_sql_literal v +:+ String quote EmptyString)) = Some v.
Proof.
  unfold literal_after. rewrite starts_with_self_app.
  pose proof (string_drop_app prefix (escape_sql_literal v +:+ String quote EmptyString) 0) as Hd.
  rewrite Nat.add_0_r in Hd. rewrite Hd. cbn [string_drop]. by rewrite read_escaped.
Qed.

(** No value escapes its literal: the predicates say what they were built to
    say, whatever quotes the value has. *)
Lemma namespace_predicate_parses v : parse_predicate (delete_predicate "namespace" v) = Some (ColumnIs "namespace" v).
Proof.
  change (delete_predicate "namespace" v)
    with ("namespace = '" +:+ (escape_sql_literal v +:+ String quote EmptyString)).
  unfold parse_predicate. rewrite literal_after_escaped. done.
Qed.

Lemma escape_plain_suffix s t :
  forallb (fun a => negb (Ascii.eqb a quote)) (String.list_ascii_of_string t) = true ->
  escape_sql_literal (s +:+ t) = escape_sql_literal s +:+ t.
Proof.
  intros Ht. induction s as [|a s IH].
  - change (EmptyString +:+ t) with t. change (escape_sql_literal EmptyString +:+ t) with t.
    induction t as [|b t IHt]; [done|]. cbn in Ht |- *. apply andb_true_iff in Ht as [Hb Ht].
    destruct (Ascii.eqb b quote); [done|]. by rewrite IHt.
  - change ((String a s) +:+ t) with (String a (s +:+ t)). cbn [escape_sql_literal].
    destruct (Ascii.eqb a quote); by rewrite IH.
Qed.

Lemma prefix_predicate_parses p : parse_predicate (like_prefix_predicate "id" p) = Some (ColumnLike "id" (p +:+ "%")).
Proof.
  unfold like_prefix_predicate. rewrite <- (escape_plain_suffix p "%") by done.
  change ("id" +:+ " LIKE " +:+ quoted (escape_sql_literal (p +:+ "%")))
    with ("id LIKE '" +:+ (escape_sql_literal (p +:+ "%") +:+ String quote EmptyString)).
  unfold parse_predicate. rewrite literal_after_escaped. done.
Qed.

(** Prefixes without the wildcards of [LIKE] and its escape. *)
Definition no_wildcards (p : string) : bool :=
  forallb (fun a => negb (Ascii.eqb a "%"%char || Ascii.eqb a "_"%char || Ascii.eqb a "\"%char))
    (String.list_ascii_of_string p).

Lemma like_prefix p s : no_wildcards p = true -> like (p +:+ "%") s = starts_with s p.
Proof.
  revert s. induction p as [|a p IH]; intros s Hp.
  - change (EmptyString +:+ "%") with "%". rewrite like_any. by destruct s.
  - cbn in Hp. apply andb_true_iff in Hp as [Ha Hp]. apply negb_true_iff in Ha.
    apply orb_false_iff in Ha as [[H1 H2]%orb_false_iff H3]. apply Ascii.eqb_neq in H1, H2, H3.
    change (String a p +:+ "%") with (String a (p +:+ "%")). destruct s as [|b s].
    + rewrite like_short by done. done.
    + rewrite like_literal by done. rewrite IH by done. cbn. rewrite (Ascii.eqb_sym b a). by destruct (Ascii.eqb a b).
Qed.

(** The rows that a deletion keeps, where the database opens the table it has. *)
Lemma delete_where_rows st pred p w :
  parse_predicate pred = Some p ->
  (forall db w, is_Some (rows w) -> is_Ok (open_table db EMBEDDINGS_TABLE_V2 w).1 = true) ->
  let '(r, w') := delete_where st EMBEDDINGS_TABLE_V2 pred w in
  rows w' = if is_Ok r then List.filter (fun c => negb (match p with
      | ColumnIs _ v => String.eqb (chunk_namespace c) v
      | ColumnLike _ pat => like pat (chunk_id c)
      | AnyRow => true end)) <$> rows w else rows w.
Proof.
  intros Hp Hopen. unfold delete_where, act_bind.
  destruct (connect st w) as [[db|e] w1] eqn:Hc; apply connect_law in Hc; [|by cbn].
  destruct (open_table db EMBEDDINGS_TABLE_V2 w1) as [[t|e] w2] eqn:Ho; destruct (open_law _ _ _ _ Ho) as [Hr _].
  - destruct (table_delete t pred w2) as [r w3] eqn:Hd. apply (delete_law _ _ _ _ _ _ Hd) in Hp.
    rewrite Hp. by rewrite Hr, Hc.
  - cbn. specialize (Hopen db w1). rewrite Ho in Hopen. cbn in Hopen.
    destruct (rows w1) as [l|] eqn:Hl; [by specialize (Hopen ltac:(eauto))|]. rewrite Hr. by rewrite <- Hc.
Qed.

(** Deleting a namespace deletes its records and no others, and deleting by a
    prefix without wildcards those whose id starts with it, whatever quotes
    the namespace or the prefix has. *)
Theorem deletions_are_exact st (ns prefix : string) w :
  (forall db w, is_Some (rows w) -> is_Ok (open_table db EMBEDDINGS_TABLE_V2 w).1 = true) ->
  no_wildcards prefix = true ->
  (let '(r, w') := lance_delete_namespace st ns w in
   rows w' = if is_Ok r then List.filter (fun c => negb (String.eqb (chunk_namespace c) ns)) <$> rows w else rows w) /\
  (let '(r, w') := lance_delete_ids_with_prefix st prefix w in
   rows w' = if is_Ok r then List.filter (fun c => negb (starts_with (chunk_id c) prefix)) <$> rows w else rows w).
Proof.
  intros Hopen Hp. split.
  - apply (delete_where_rows st _ _ w (namespace_predicate_parses ns) Hopen).
  - pose proof (delete_where_rows st _ _ w (prefix_predicate_parses prefix) Hopen) as H.
    unfold lance_delete_ids_with_prefix. destruct (delete_where _ _ _ w) as [r w']. rewrite H.
    destruct (is_Ok r); [|done]. destruct (rows w) as [l|]; [|done]. cbn. f_equal.
    apply List.filter_ext. intros c. by rewrite like_prefix.
Qed.

Context (parse_f32 : string -> option F32.t).

Lemma read_batch_length ns b : length (read_batch parse_f32 ns b) <= num_rows b.
Proof.
  unfold read_batch. etransitivity; [apply List.filter_length_le|]. by rewrite length_map, length_seq.
Qed.

Lemma read_stream_rows ns bs out :
  read_stream parse_f32 ns bs = Ok out ->
  length out <= answer_rows bs /\
  Forall (fun x => in_namespace ns x = true /\ exists b r, Ok b ∈ bs /\ r < num_rows b /\ x = read_row parse_f32 b r) out.
Proof.
  revert out. induction bs as [|[b|e] bs IH]; intros out; cbn [read_stream]; [by intros [= <-]| |done].
  unfold res_bind. destruct (read_stream parse_f32 ns bs) as [rest|e]; [|done]. intros [= <-].
  destruct (IH rest eq_refl) as [Hl Hf]. split.
  - rewrite length_app. pose proof (read_batch_length ns b) as Hb. unfold answer_rows in *. cbn. cbn in *.
    unfold read_batch in Hb |- *. lia.
  - apply Forall_app. split.
    + apply Forall_forall. intros x Hx. apply list_elem_of_In, filter_In in Hx as [Hx Hn].
      apply in_map_iff in Hx as (r & <- & Hr%in_seq). split; [done|]. exists b, r. split; [by left|].
      split; [lia|done].
    + eapply Forall_impl; [exact Hf|]. cbn. intros x (Hn & b' & r & Hb & Hr & ->).
      split; [done|]. exists b', r. split; [by right|done].
Qed.

(** A search changes nothing and returns at most as many records as it was
    asked for, each with the id, the namespace, the text and the metadata of a
    stored row, and of the namespace asked for. *)
Theorem queries_read_stored_rows st q k ns w :
  let '(r, w') := lance_query parse_f32 st q k ns w in
  rows w' = rows w /\
  forall out, r = Ok out -> (0 <= k)%Z ->
    (Z.of_nat (length out) <= k)%Z /\
    Forall (fun x => in_namespace ns x = true /\
      exists c, c ∈ default [] (rows w) /\ chunk_id (chunk_item x) = chunk_id c /\
        chunk_namespace (chunk_item x) = chunk_namespace c /\ chunk_text (chunk_item x) = chunk_text c /\
        chunk_metadata_json (chunk_item x) = chunk_metadata_json c) out.
Proof.
  unfold lance_query, query_v2, act_bind, act_ret.
  destruct (connect st w) as [[db|e] w1] eqn:Hc; apply connect_law in Hc; [|by split].
  destruct (open_table db EMBEDDINGS_TABLE_V2 w1) as [[t|e] w2] eqn:Ho; destruct (open_law _ _ _ _ Ho) as [Hr _].
  2: { split; [congruence|]. intros out [= <-] Hk. split; [cbn; lia|constructor]. }
  destruct (vector_search t q k w2) as [[bs|e] w3] eqn:Hv; [|apply search_err_law in Hv; split; [congruence|done]].
  apply search_law in Hv as (Hr3 & Hk & Hrow). unfold act_lift.
  destruct (read_stream parse_f32 ns bs) as [l|e] eqn:Hs; [|split; [congruence|done]].
  destruct (read_stream_rows _ _ _ Hs) as [Hl Hf].
  split; [congruence|]. intros out [= <-] Hk0. specialize (Hk Hk0). pose proof (sort_by_perm score_le l) as Hp. split.
  - rewrite Hp. lia.
  - rewrite Hp. eapply Forall_impl; [exact Hf|]. cbn. intros x (Hn & b & r & Hb & Hlt & ->). split; [done|].
    destruct (Hrow b r Hb Hlt) as (c & Hcin & H1 & H2 & H3 & H4). exists c.
    split; [by rewrite <- Hc, <- Hr|done].
Qed.
End laws.

(** ** A database

    One table, whose rows come back in the order they were written. *)
Module Shelf.
Definition World : Type := option (list Chunk).

Fixpoint wild (p s : string) : bool :=
  match p with
  | EmptyString => str_is_empty s
  | String c p =>
      if Ascii.eqb c "%"%char then
        (fix skip (s : string) : bool := wild p s || match s with String _ s => skip s | EmptyString => false end) s
      else match s with
           | String d s => (Ascii.eqb c "_"%char || Ascii.eqb c d) && wild p s
           | EmptyString => false
           end
  end.

Definition matches (p : Predicate) (c : Chunk) : bool :=
  match p with
  | ColumnIs _ v => String.eqb (chunk_namespace c) v
  | ColumnLike _ pat => wild pat (chunk_id c)
  | AnyRow => true
  end.

Definition columns : list (string * (Chunk -> string)) :=
  [("id", chunk_id); ("namespace", chunk_namespace); ("text", chunk_text); ("metadata_json", chunk_metadata_json)].

Definition cell (l : list Chunk) (j r : nat) : option string :=
  c ← l !! r; col ← columns !! j; Some (col.2 c).

Definition answer (l : list Chunk) : SearchBatch := {|
  index_of name := fst <$> list_find (fun col => col.1 = name) columns;
  num_rows := length l;
  array_value_to_string := cell l |}.

#[export] Instance db : LanceDb World := {|
  Conn := unit; Table := unit;
  arrow_batch _ items := Ok items;
  lance_connect _ _ := act_ret tt;
  open_table _ _ w := (match w with Some _ => Ok tt | None => Err "no such table" end, w);
  create_table _ _ b w := match w with None => (Ok tt, Some b) | Some l => (Err "table exists", Some l) end;
  table_add _ b w := (Ok tt, (fun l => l ++ b) <$> w);
  vector_search _ _ k w := (Ok [Ok (answer (take (Z.to_nat k) (default [] w)))], w);
  table_delete _ s w := (Ok tt, match parse_predicate s with
    | Some p => List.filter (fun c => negb (matches p c)) <$> w
    | None => w end) |}.

Lemma wild_skips p x s : wild p s = true -> wild (String "%" p) (x +:+ s) = true.
Proof.
  intros H. change (((fix skip (s : string) : bool := wild p s || match s with String _ s => skip s | EmptyString => false end)
    (x +:+ s)) = true).
  induction x as [|a x IH]; [|by cbn; rewrite IH, orb_true_r].
  change (EmptyString +:+ s) with s. destruct s; by rewrite H.
Qed.

#[export] Program Instance laws : LanceLaws World := {| rows w := w; like := wild |}.
Next Obligation. done. Qed.
Next Obligation.
  intros c p d s H1 H2 _. cbn. rewrite (proj2 (Ascii.eqb_neq _ _) H1), (proj2 (Ascii.eqb_neq _ _) H2). done.
Qed.
Next Obligation. intros c p H. cbn. by rewrite (proj2 (Ascii.eqb_neq _ _) H). Qed.
Next Obligation. intros s. induction s as [|a s IH]; [done|]. exact IH. Qed.
Next Obligation. exact wild_skips. Qed.
Next Obligation. by intros _ items b [= <-]. Qed.
Next Obligation. by intros _ _ w r w' [= _ <-]. Qed.
Next Obligation. intros _ [l|] r w' [= <- <-]; by split; eauto. Qed.
Next Obligation. by intros _ b [l|] r w' [= <- <-]. Qed.
Next Obligation. by intros _ b w r w' [= <- <-]. Qed.
Next Obligation. intros _ s p w r w' [= <- <-] ->. done. Qed.
Next Obligation.
  intros _ _ k w bs w' [= <- <-]. split; [done|]. split.
  - intros Hk. unfold answer_rows. cbn. rewrite length_take. lia.
  - intros b r [= ->]%list_elem_of_singleton Hr. cbn [num_rows answer] in Hr.
    destruct (take (Z.to_nat k) (default [] w) !! r) as [c|] eqn:Hc; [|apply lookup_ge_None in Hc; lia].
    exists c. split.
    + apply list_elem_of_lookup_2 in Hc. by apply elem_of_take in Hc as (i & Hi & _); apply list_elem_of_lookup_2 in Hi.
    + unfold row_of_chunk, s_val. cbn. unfold cell. rewrite Hc. done.
Qed.
Next Obligation. done. Qed.
End Shelf.
Import Shelf.

Definition sample_chunk (id ns : string) : Chunk := {|
  chunk_id := id; chunk_namespace := ns; chunk_text := "text of " +:+ id; chunk_vector := [0%Z];
  chunk_metadata_json := "{}"; chunk_epoch := 0 |}.

Definition sample_rows : list Chunk :=
  [sample_chunk "kb_doc:a" "kb_doc"; sample_chunk "kb-doc:b" "other"; sample_chunk "it's" "it's"].

Definition sample_store : LanceDbStore := newLance "memory".

Lemma deletions_are_exact_witness :
  option_map (map chunk_id) (lance_delete_namespace sample_store "it's" (Some sample_rows)).2 = Some ["kb_doc:a"; "kb-doc:b"] /\
  option_map (map chunk_id) (lance_delete_ids_with_prefix sample_store "kb-doc:" (Some sample_rows)).2 = Some ["kb_doc:a"; "it's"].
Proof.
  destruct (deletions_are_exact sample_store "it's" "kb-doc:" (Some sample_rows)) as [H1 H2].
  - intros [] w [l Hl]. cbn in Hl. by subst w.
  - reflexivity.
  - destruct (lance_delete_namespace sample_store "it's" (Some sample_rows)) as [r1 w1] eqn:E1.
    destruct (lance_delete_ids_with_prefix sample_store "kb-doc:" (Some sample_rows)) as [r2 w2] eqn:E2.
    assert (is_Ok r1 = true /\ is_Ok r2 = true) as [O1 O2].
    { split; [change r1 with (r1, w1).1; rewrite <- E1|change r2 with (r2, w2).1; rewrite <- E2]; reflexivity. }
    rewrite O1 in H1. rewrite O2 in H2. cbn [rows laws] in H1, H2. cbn [snd]. rewrite H1, H2. split; reflexivity.
Defined.

(** The records of the first upsert are stored twice, and writing them again
    adds a third copy: the store does not keep one record for each id, as its
    callers rely on. *)
Theorem the_first_upsert_stores_twice :
  let once := (lance_upsert sample_store [sample_chunk "a" "kb_doc"] None).2 in
  let again := (lance_upsert sample_store [sample_chunk "a" "kb_doc"] once).2 in
  option_map (map chunk_id) once = Some ["a"; "a"] /\ option_map (map chunk_id) again = Some ["a"; "a"; "a"].
Proof. vm_compute. done. Qed.

(** An underscore of a prefix stands for any character: deleting the records
    under [kb_doc:] deletes those under [kb-doc:] too. *)
Theorem an_underscore_deletes_its_neighbours :
  option_map (map chunk_id) (lance_delete_ids_with_prefix sample_store "kb_doc:" (Some sample_rows)).2 = Some ["it's"].
Proof. vm_compute. done. Qed.

(** The namespace is looked at after the search was limited: with a nearer
    record of another namespace, a search for one record finds none. *)
Theorem another_namespace_crowds_out :
  (lance_query (fun _ => None) sample_store [0%Z] 1 (Some "other") (Some sample_rows)).1 = Ok [].
Proof. vm_compute. done. Qed.
