(* ===== verification/Execute.v ===== *)
(** * Executions over HTTP

    [src/src/http-protocol/src/lib.rs] (requests, responses and frames, and
    what serde derives for them), [src/src/runtime/src/execute.rs] (a request
    run by a suite) and the handlers of [src/src/runtime/src/http.rs].  Of the
    context of a suite a request changes the scope, the scope of the resolved
    configuration and one capability; they are the first half of the suite's
    world.  A fresh UUID is an argument; serving HTTP is third-party. *)

From stdpp Require Import base list strings gmap.
From Stdlib Require Import ZArith Lia.
From S2P Require Import Prelude.
From S2P Require Import RustStr.
From S2P Require Import Json.
From S2P Require Import Errors.
From S2P Require Import Scope.
From S2P Require Import Suites.
From S2P Require Import WsModels.
From S2P Require Import Config.

(** ** The protocol *)

Inductive ExecuteAction : Type := New | Open | User.

Record ExecuteScopeOverride : Type := {
  so_tenant : option string;
  so_workspace : option string;
  so_project_id : option string
}.

Record ExecuteContext : Type := {
  ec_scope : option ExecuteScopeOverride;
  ec_correlation_id : option string;
  ec_metadata : Value
}.

Record ExecuteRequest : Type := {
  eq_suite_id : string;
  eq_agent_type : option string;
  eq_thread_id : option string;
  eq_question : string;
  eq_action : ExecuteAction;
  eq_context : option ExecuteContext
}.

Module Wire.
Inductive FlowFrame : Type :=
| Complete (kind : string) (payload : Value) (display : option string)
| Review (text : string) (meta : option Value)
| Checkpoint (kind : string) (payload : Value) (display : option string)
| Interrupt (kind prompt : string).

Definition terminal (f : FlowFrame) : bool := match f with Checkpoint _ _ _ => false | _ => true end.

(** [frames.iter().rev().find(..)] *)
Definition terminal_frame (frames : list FlowFrame) : option FlowFrame := List.find terminal (reverse frames).

Definition value (f : FlowFrame) : Value :=
  match f with
  | Complete kind payload display =>
      VObject ([("type", VString "Complete"); ("kind", VString kind); ("payload", payload)] ++ opt_field "display" VString display)
  | Review text meta => VObject ([("type", VString "Review"); ("text", VString text)] ++ opt_field "meta" id meta)
  | Checkpoint kind payload display =>
      VObject ([("type", VString "Checkpoint"); ("kind", VString kind); ("payload", payload)] ++ opt_field "display" VString display)
  | Interrupt kind prompt => VObject [("type", VString "Interrupt"); ("kind", VString kind); ("prompt", VString prompt)]
  end.

(** A frame with a kind, a payload and perhaps a display. *)
Definition of_payload (build : string -> Value -> option string -> FlowFrame) (v : Value) : option FlowFrame :=
  kind ← str_at "kind" v;
  payload ← Json.get v "payload";
  display ← opt_at as_str "display" v;
  Some (build kind payload display).

Definition of_value (v : Value) : option FlowFrame :=
  t ← str_at "type" v;
  if String.eqb t "Complete" then of_payload Complete v
  else if String.eqb t "Review" then
    text ← str_at "text" v;
    meta ← opt_at Some "meta" v;
    Some (Review text meta)
  else if String.eqb t "Checkpoint" then of_payload Checkpoint v
  else if String.eqb t "Interrupt" then
    kind ← str_at "kind" v;
    prompt ← str_at "prompt" v;
    Some (Interrupt kind prompt)
  else None.
End Wire.

Record ExecuteResponse : Type := { er_thread_id : string; er_agent_type : string; er_frames : list Wire.FlowFrame }.

Definition execute_response_value (r : ExecuteResponse) : Value :=
  VObject [("thread_id", VString (er_thread_id r)); ("agent_type", VString (er_agent_type r));
           ("frames", VArray (map Wire.value (er_frames r)))].

Definition action_of (v : Value) : option ExecuteAction :=
  s ← as_str v;
  assoc_get s [("new", New); ("open", Open); ("user", User)].

(** A struct all of whose fields have defaults is still read from an object only. *)
Definition is_object (v : Value) : bool := match v with VObject _ => true | _ => false end.

Definition scope_override_of (v : Value) : option ExecuteScopeOverride :=
  if is_object v then
    t ← opt_at as_str "tenant" v;
    w ← opt_at as_str "workspace" v;
    p ← opt_at as_str "project_id" v;
    Some {| so_tenant := t; so_workspace := w; so_project_id := p |}
  else None.

Definition context_of (v : Value) : option ExecuteContext :=
  if is_object v then
    scope ← opt_at scope_override_of "scope" v;
    cid ← opt_at as_str "correlation_id" v;
    Some {| ec_scope := scope; ec_correlation_id := cid; ec_metadata := default VNull (Json.get v "metadata") |}
  else None.

Definition execute_request_of (v : Value) : option ExecuteRequest :=
  suite ← str_at "suite_id" v;
  agent ← opt_at as_str "agent_type" v;
  thread ← opt_at as_str "thread_id" v;
  question ← str_at "question" v;
  action ← match Json.get v "action" with None => Some New | Some a => action_of a end;
  context ← opt_at context_of "context" v;
  Some {| eq_suite_id := suite; eq_agent_type := agent; eq_thread_id := thread; eq_question := question;
          eq_action := action; eq_context := context |}.

(** ** Execution *)

Inductive ExecuteError : Type :=
| SuiteNotFound (suite_id : string)
| InvalidRequest (message : string)
| ExecutionFailed (message : string).

Definition execute_error_display (e : ExecuteError) : string :=
  match e with
  | SuiteNotFound s => "unknown suite_id '" +:+ s +:+ "'"
  | InvalidRequest m | ExecutionFailed m => m
  end.

Record RequestExecutionContext : Type := { rx_correlation_id : option string; rx_metadata : Value }.

(** What a request decides of a suite's context. *)
Record RequestCtx : Type := {
  ctx_scope : RequestScope;
  ctx_resolved_config : option ReactResolvedConfig;
  ctx_request : option RequestExecutionContext
}.

Definition protocol_flow_frame (f : FlowFrame.t) : Wire.FlowFrame :=
  match f with
  | FlowFrame.Complete kind payload display => Wire.Complete (flow_kind kind) payload display
  | FlowFrame.Review text meta => Wire.Review text meta
  | FlowFrame.Checkpoint kind payload display => Wire.Checkpoint (flow_kind kind) payload display
  | FlowFrame.Interrupt kind prompt => Wire.Interrupt (flow_kind kind) prompt
  end.

Definition core_terminal (f : FlowFrame.t) : bool := match f with FlowFrame.Checkpoint _ _ _ => false | _ => true end.

Definition terminal_frame (frames : list FlowFrame.t) : option FlowFrame.t := List.find core_terminal (reverse frames).

Definition resolve_scope (base : RequestScope) (requested : option ExecuteScopeOverride) : Result RequestScope ExecuteError :=
  res_map_err (fun e => InvalidRequest (CoreError.display e))
    (RequestScope_parse (default (tenant_str (tenant base)) (requested ≫= so_tenant))
                        (default (workspace_str (workspace base)) (requested ≫= so_workspace))
                        (default (project_str (project_id base)) (requested ≫= so_project_id))).

Definition with_config_scope (scope : RequestScope) (c : ReactResolvedConfig) : ReactResolvedConfig :=
  {| server_port := server_port c; storage := storage c; Config.scope := scope; llm := llm c; suite_config := suite_config c |}.

Definition request_suite_ctx (base : RequestCtx) (context : option ExecuteContext) : Result RequestCtx ExecuteError :=
  let? scope := resolve_scope (ctx_scope base) (context ≫= ec_scope) in
  Ok {| ctx_scope := scope; ctx_resolved_config := with_config_scope scope <$> ctx_resolved_config base;
        ctx_request := match context with
                       | Some c => Some {| rx_correlation_id := ec_correlation_id c; rx_metadata := ec_metadata c |}
                       | None => ctx_request base
                       end |}.

(** A trimmed value that is not blank. *)
Definition nonblank (o : option string) : option string :=
  match trim <$> o with Some s => if str_is_empty s then None else Some s | None => None end.

Definition action_name (a : ExecuteAction) : string := match a with New => "new" | Open => "open" | User => "user" end.

Definition resolve_thread_id (uuid : string) (r : ExecuteRequest) : Result string ExecuteError :=
  match eq_action r, nonblank (eq_thread_id r) with
  | New, provided => Ok (default uuid provided)
  | _, Some tid => Ok tid
  | a, None => Err (InvalidRequest ("thread_id is required for '" +:+ action_name a +:+ "' actions"))
  end.

Definition resolve_agent_type {W} (suite : Suite W) (requested : option string) : Result string ExecuteError :=
  let agent := default (default_agent_type suite) (nonblank requested) in
  let supported := supported_agent_types suite in
  if bool_decide (supported = []) || existsb (fun c => String.eqb c agent) supported then Ok agent
  else Err (InvalidRequest ("unsupported agent_type '" +:+ agent +:+ "' for suite '" +:+ suite_id suite
              +:+ "' (expected one of: " +:+ join ", " supported +:+ ")")).

Section execute.
Context {W : Type}.
Variable registry : SuiteRegistry (RequestCtx * W).
Variable base_suite_ctx : RequestCtx.

(** The handler of an action. *)
Definition action_handler (suite : Suite (RequestCtx * W)) (a : ExecuteAction)
  : string -> string -> string -> Act (RequestCtx * W) string (list FlowFrame.t) :=
  match a with New => handle_new suite | Open => handle_open suite | User => handle_user suite end.

(** A computation in the context of the request. *)
Definition in_ctx {E A} (ctx : RequestCtx) (m : Act (RequestCtx * W) E A) : Act W E A :=
  fun w => let '(r, (_, w)) := m (ctx, w) in (r, w).

Definition execute_request (uuid : string) (r : ExecuteRequest) : Act W ExecuteError ExecuteResponse :=
  do! suite <- act_lift (match Registry.get registry (eq_suite_id r) with
                         | Some s => Ok s
                         | None => Err (SuiteNotFound (eq_suite_id r))
                         end);
  do! thread_id <- act_lift (resolve_thread_id uuid r);
  do! agent_type <- act_lift (resolve_agent_type suite (eq_agent_type r));
  do! ctx <- act_lift (request_suite_ctx base_suite_ctx (eq_context r));
  do! frames <- act_map_err ExecutionFailed
                  (in_ctx ctx (action_handler suite (eq_action r) thread_id (eq_question r) agent_type));
  act_ret {| er_thread_id := thread_id; er_agent_type := agent_type; er_frames := map protocol_flow_frame frames |}.

(** ** [http.rs] *)

Definition health : Value := json_obj [("ok", VBool true)].

Record SuiteDescriptor : Type := {
  sd_id : string;
  sd_label : string;
  sd_default_agent_type : string;
  sd_supported_agent_types : list string
}.

Definition descriptor (s : Suite (RequestCtx * W)) : SuiteDescriptor := {|
  sd_id := suite_id s; sd_label := label s; sd_default_agent_type := default_agent_type s;
  sd_supported_agent_types := supported_agent_types s |}.

Definition list_suites : list SuiteDescriptor :=
  omap (fun id => descriptor <$> Registry.get registry id) (Registry.list_ids registry).

Definition status_of (e : ExecuteError) : Z :=
  match e with SuiteNotFound _ => 404 | InvalidRequest _ => 400 | ExecutionFailed _ => 422 end.

Definition error_response (e : ExecuteError) : Z * Value :=
  (status_of e, VObject [("error", VString (execute_error_display e))]).

(** The answer to [POST /api/executions], status and body. *)
Definition execute (uuid : string) (r : ExecuteRequest) (w : W) : (Z * Value) * W :=
  let '(res, w) := execute_request uuid r w in
  (match res with Ok resp => (200%Z, execute_response_value resp) | Err e => error_response e end, w).
End execute.

(** ** Laws *)

(** The two views of a run's end agree: the frame that ends the response is the
    one that ended the run. *)
Theorem terminal_frames_agree frames :
  Wire.terminal_frame (map protocol_flow_frame frames) = protocol_flow_frame <$> terminal_frame frames.
Proof.
  unfold Wire.terminal_frame, terminal_frame.
  change (map protocol_flow_frame frames) with (protocol_flow_frame <$> frames). rewrite <- fmap_reverse.
  induction (reverse frames) as [|f l IH]; [done|]. cbn. by destruct f; cbn.
Qed.

(** A scope override of nothing changes nothing, for a scope that was parsed. *)
Lemma resolve_scope_base t w p base : RequestScope_parse t w p = Ok base -> resolve_scope base None = Ok base.
Proof.
  intros H. unfold resolve_scope. cbn [default mbind option_bind from_option id].
  assert (tenant_str (tenant base) = t /\ workspace_str (workspace base) = w /\ project_str (project_id base) = p) as (-> & -> & ->).
  { revert H. unfold RequestScope_parse, TenantId_parse, WorkspaceId_parse, ProjectId_parse, res_bind.
    destruct (ensure_safe_scope_segment _ t); [|done]. destruct (ensure_safe_scope_segment _ w); [|done].
    destruct (ensure_safe_scope_segment _ p); [|done]. by intros [= <-]. }
  by rewrite H.
Qed.

Section laws.
Context {W : Type}.
Variable registry : SuiteRegistry (RequestCtx * W).
Variable base : RequestCtx.

(** The agent a request gets is one its suite supports, where it names any. *)
Lemma agent_is_supported (suite : Suite (RequestCtx * W)) requested agent :
  resolve_agent_type suite requested = Ok agent ->
  (supported_agent_types suite = [] \/ agent ∈ supported_agent_types suite) /\
  agent = default (default_agent_type suite) (nonblank requested).
Proof.
  unfold resolve_agent_type. set (a := default _ _).
  destruct (bool_decide_reflect (supported_agent_types suite = [])) as [He|_]; cbn [orb]; [intros [= <-]; auto|].
  destruct (existsb _ _) eqn:E; [|done]. intros [= <-]. split; [right|done].
  apply existsb_exists in E as (c & Hc & ->%String.eqb_eq). by apply list_elem_of_In.
Qed.

Lemma bind_lift {S E A B} (r : Result A E) (k : A -> Act S E B) s :
  act_bind (act_lift r) k s = match r with Ok a => k a s | Err e => (Err e, s) end.
Proof. by destruct r. Qed.

(** What a client sent for a field: the text without the space around it, if
    that leaves any. *)
Definition given (o : option string) : option string :=
  t ← o; let t := trim t in if decide (t = EmptyString) then None else Some t.

Lemma nonblank_given o : nonblank o = given o.
Proof. destruct o as [t|]; [|done]. cbn. by destruct (trim t). Qed.

(** The frame on the wire is the frame of the suite. *)
Definition same_frame (f : FlowFrame.t) (g : Wire.FlowFrame) : Prop :=
  match f, g with
  | FlowFrame.Complete k p d, Wire.Complete k' p' d' | FlowFrame.Checkpoint k p d, Wire.Checkpoint k' p' d' =>
      flow_kind k = k' /\ p = p' /\ d = d'
  | FlowFrame.Review t m, Wire.Review t' m' => t = t' /\ m = m'
  | FlowFrame.Interrupt k p, Wire.Interrupt k' p' => flow_kind k = k' /\ p = p'
  | _, _ => False
  end.

Lemma protocol_same_frames frames : Forall2 same_frame frames (map protocol_flow_frame frames).
Proof. induction frames as [|f l IH]; [constructor|]. constructor; [by destruct f|done]. Qed.

(** The identifiers asked for, and for the rest those of the server. *)
Definition asked_scope (own : RequestScope) (o : option ExecuteScopeOverride) (got : RequestScope) : Prop :=
  let pick (f : ExecuteScopeOverride -> option string) d := match o with Some x => default d (f x) | None => d end in
  tenant_str (tenant got) = pick so_tenant (tenant_str (tenant own)) /\
  workspace_str (workspace got) = pick so_workspace (workspace_str (workspace own)) /\
  project_str (project_id got) = pick so_project_id (project_str (project_id own)).

Lemma resolved_scope own o got : resolve_scope own o = Ok got -> asked_scope own o got.
Proof.
  unfold resolve_scope, RequestScope_parse, TenantId_parse, WorkspaceId_parse, ProjectId_parse, res_bind.
  do 3 (destruct (ensure_safe_scope_segment _ _); [|done]). intros [= <-]. by destruct o.
Qed.

(** The context of a request: the scope asked for, in the configuration too,
    and the identity of the request where it has a context. *)
Definition asked_ctx (q : ExecuteRequest) (ctx : RequestCtx) : Prop :=
  asked_scope (ctx_scope base) (eq_context q ≫= ec_scope) (ctx_scope ctx) /\
  Config.scope <$> ctx_resolved_config ctx = (fun _ => ctx_scope ctx) <$> ctx_resolved_config base /\
  match eq_context q, ctx_request ctx with
  | Some c, Some x => rx_correlation_id x = ec_correlation_id c /\ rx_metadata x = ec_metadata c
  | Some _, None => False
  | None, x => x = ctx_request base
  end.

Lemma request_ctx_asked q ctx : request_suite_ctx base (eq_context q) = Ok ctx -> asked_ctx q ctx.
Proof.
  unfold request_suite_ctx, res_bind. destruct (resolve_scope _ _) as [sc|] eqn:E; [|done]. intros [= <-].
  apply resolved_scope in E. split; [exact E|]. cbn. split; [by destruct (ctx_resolved_config base)|].
  by destruct (eq_context q).
Qed.

(** C29: What a request comes to.  An answer tells, frame by frame, what
    exactly one run handed out: of the registered suite, by its handler for a
    new, an opened or a user's message as the action says, on the thread the
    request names (a fresh one for a new request that names none), with the
    question, the agent asked for or else the suite's own, one the suite
    supports, in the context of the scope asked for.  A failed execution is
    that run's failure.  A request that is refused changes nothing: for its
    suite exactly when that is not registered. *)
Theorem executions_are_runs uuid (q : ExecuteRequest) (w : W) :
  let '(r, w') := execute_request registry base uuid q w in
  let run suite ctx tid agent frames :=
    (registry : gmap string (Suite (RequestCtx * W))) !! eq_suite_id q = Some suite /\
    agent = default (default_agent_type suite) (given (eq_agent_type q)) /\
    (supported_agent_types suite = [] \/ agent ∈ supported_agent_types suite) /\
    asked_ctx q ctx /\
    match given (eq_thread_id q) with Some t => tid = t | None => tid = uuid /\ eq_action q = New end /\
    exists ctx',
      match eq_action q with
      | New => handle_new suite tid (eq_question q) agent (ctx, w)
      | Open => handle_open suite tid (eq_question q) agent (ctx, w)
      | User => handle_user suite tid (eq_question q) agent (ctx, w)
      end = (frames, (ctx', w')) in
  match r with
  | Ok resp => exists suite ctx frames,
      run suite ctx (er_thread_id resp) (er_agent_type resp) (Ok frames) /\ Forall2 same_frame frames (er_frames resp)
  | Err (ExecutionFailed e) => exists suite ctx tid agent, run suite ctx tid agent (Err e)
  | Err (SuiteNotFound s) =>
      w' = w /\ s = eq_suite_id q /\ (registry : gmap string (Suite (RequestCtx * W))) !! s = None
  | Err (InvalidRequest _) => w' = w /\ is_Some ((registry : gmap string (Suite (RequestCtx * W))) !! eq_suite_id q)
  end.
Proof.
  unfold execute_request. rewrite bind_lift. unfold Registry.get.
  destruct ((registry : gmap string _) !! eq_suite_id q) as [suite|] eqn:Hs; [|done].
  rewrite bind_lift. destruct (resolve_thread_id uuid q) as [tid|e] eqn:Ht.
  2: { unfold resolve_thread_id in Ht. destruct (eq_action q), (nonblank (eq_thread_id q)); try done;
       injection Ht as <-; by eauto. }
  assert (match given (eq_thread_id q) with Some t => tid = t | None => tid = uuid /\ eq_action q = New end) as Htid.
  { unfold resolve_thread_id in Ht. rewrite nonblank_given in Ht.
    destruct (eq_action q), (given (eq_thread_id q)); by simplify_eq/=. }
  rewrite bind_lift. destruct (resolve_agent_type suite (eq_agent_type q)) as [agent|e] eqn:Ha.
  2: { unfold resolve_agent_type in Ha. destruct (_ || _); [done|]. injection Ha as <-. by eauto. }
  destruct (agent_is_supported _ _ _ Ha) as [Hsup Hagent]. rewrite nonblank_given in Hagent.
  rewrite bind_lift. destruct (request_suite_ctx base (eq_context q)) as [ctx|e] eqn:Hc.
  2: { unfold request_suite_ctx, res_bind in Hc. destruct (resolve_scope _ _) eqn:Hr; [done|]. injection Hc as <-.
       unfold resolve_scope in Hr. destruct (RequestScope_parse _ _ _); [done|]. injection Hr as <-. by eauto. }
  apply request_ctx_asked in Hc. unfold act_bind, act_map_err, act_ret, in_ctx, action_handler.
  destruct (eq_action q) eqn:Eact; match goal with |- context [?h suite tid (eq_question q) agent (ctx, w)] =>
    destruct (h suite tid (eq_question q) agent (ctx, w)) as [[frames|e] [ctx' w']] eqn:Hrun end; cbn;
    [exists suite, ctx, frames|exists suite, ctx, tid, agent|exists suite, ctx, frames
    |exists suite, ctx, tid, agent|exists suite, ctx, frames|exists suite, ctx, tid, agent];
    split_and!; eauto using protocol_same_frames.
Qed.
End laws.

(** What a server writes of a frame, a client reads, but for a review whose
    meta is [null]. *)
Theorem frames_survive_the_wire f :
  (forall text, f <> Wire.Review text (Some VNull)) -> Wire.of_value (Wire.value f) = Some f.
Proof.
  intros H. destruct f as [kind payload [d|]|text [m|]|kind payload [d|]|kind prompt]; try reflexivity.
  destruct m; try reflexivity. by specialize (H text).
Qed.

Lemma frames_survive_the_wire_witness :
  Wire.of_value (Wire.value (Wire.Review "ok" (Some (VBool true)))) = Some (Wire.Review "ok" (Some (VBool true))).
Proof. apply (frames_survive_the_wire (Wire.Review "ok" (Some (VBool true)))). intros text. discriminate. Defined.

(** A review with the meta [null] is read back as one without a meta. *)
Theorem a_null_meta_is_lost : Wire.of_value (Wire.value (Wire.Review "ok" (Some VNull))) = Some (Wire.Review "ok" None).
Proof. reflexivity. Qed.

(** A request without an action is a new one; with an action it does not know
    it is no request. *)
Theorem requests_default_to_new (s q : string) (a : Value) :
  let fields := [("suite_id", VString s); ("question", VString q)] in
  eq_action <$> execute_request_of (VObject fields) = Some New /\
  (action_of a = None -> execute_request_of (VObject (fields ++ [("action", a)])) = None).
Proof.
  split; [reflexivity|]. intros Ha. unfold execute_request_of. cbn -[action_of]. by rewrite Ha.
Qed.
