(* ===== verification/StoredThread.v ===== *)
(** * The thread store as the log of a run

    A run reaches its thread's log only through [StepLog] ([Observed]) and
    [Runtime] ([Gateway]).  Here the thread store implements both: on storage
    the process owns, [append_step] either fails and leaves the log alone or
    adds the step at its end, and [get] reads what was appended.  The module
    [ThreadLogWriter] is [src/src/core/src/session/log_writer.rs]. *)

From stdpp Require Import base list strings gmap.
From Stdlib Require Import ZArith Lia.
From S2P Require Import Prelude.
From S2P Require Import RustStr.
From S2P Require Import Json.
From S2P Require Import Errors.
From S2P Require Import Scope.
From S2P Require Import Storage.
From S2P Require Import Caching.
From S2P Require Import Budget.
From S2P Require Import SessionTypes.
From S2P Require Import ThreadStore.
From S2P Require Import ThreadStoreShared.
From S2P Require Import ThreadStoreOwned.
From S2P Require Import Observed.
From S2P Require Import Observability.
From S2P Require Import Gateway.
From S2P Require Import Suites.

(** The writer a suite appends with: each call is the store's. *)
Module ThreadLogWriter.
Section writer.
Context {St K : Type} `{HSt : !StorageAdapter St, HT : !Timer St, HK : !Keyspace K, HC : !Codec ThreadLog.t}.
Variable scope : RequestScope.
Variable keyspace : K.

Definition new (storage : St) : ThreadStore St := ThreadStore.new storage.

Definition append_step (thread_id : string) (step : ThreadStep.t) : Op (ThreadStore St) unit :=
  ThreadStore.append_step scope keyspace thread_id step.

Definition set_title_if_absent (thread_id title : string) : Op (ThreadStore St) unit :=
  ThreadStore.set_title_if_absent scope keyspace thread_id title.

Definition lock_title (thread_id title : string) : Op (ThreadStore St) unit :=
  ThreadStore.lock_title scope keyspace thread_id title.

Definition delete (thread_id : string) : Op (ThreadStore St) unit :=
  ThreadStore.delete_thread scope keyspace thread_id.

Definition append_step_if_new (thread_id : string) (step : ThreadStep.t) : Op (ThreadStore St) unit :=
  ThreadStore.append_step_if_new scope keyspace thread_id step.

Definition ensure_preflight_phase_step (now thread_id agent : string) (suite_id : option string)
  (initial_phase : string) : Op (ThreadStore St) (option (nat * string)) :=
  ThreadStore.ensure_preflight_phase_step scope keyspace now thread_id agent suite_id initial_phase.
End writer.
End ThreadLogWriter.

(** ** A thread on storage the process owns *)

Section thread.
Context {St K : Type} `{HSd : !Serde, HSt : !StorageAdapter St, HV : !StorageView St,
  HL : !StorageLaws St, HT : !Timer St, HK : !Keyspace K, HC : !Codec ThreadLog.t}.
Variables (scope : RequestScope) (ks : K) (thread_id key : string).
Hypothesis Hkey : thread_store_key scope ks thread_id = Ok key.
(** A log that serde writes, it reads back. *)
Hypothesis roundtrip : forall log b, encode_log log = Some b -> decode_log b = Some log.

Implicit Types s : ThreadStore St.

Lemma readable_apply step log : readable log -> readable (apply_step step log).
Proof. by destruct step. Qed.

(** A log that cannot be written is not. *)
Lemma save_unencodable s log : coherent key s -> encode_log log = None ->
  exists e s', save_thread_log_if_etag_matches thread_id key log (etag_of <$> object key s) s = (Err e, s') /\
    (forall m, e <> CoreError.AuditConflict m) /\ coherent key s' /\
    contents (storage s') = contents (storage s).
Proof using HL.
  intros Hc He. pose proof Hc as [Hv _]. unfold save_thread_log_if_etag_matches, encode_log in *.
  destruct (to_value log) as [v|e]; cbn [res_map_err].
  2: { eexists _, s. split; [by apply act_bind_Err|]. done. }
  destruct (to_vec v) as [b|e] eqn:Hvec; [done|].
  set (err := json_err "put_json_if_etag_matches" key "serialize" e).
  destruct (on_storage_run (retry_put_json_if_etag_matches key v (etag_of <$> object key s))
    (Spec.put_json_if_etag_matches etag_of key v (etag_of <$> object key s)) s
    (Err err) (contents (storage s))) as (st & E & Hst & Hv').
  { apply retry_refines; [by apply put_json_if_refines|]. intros n e'. cbn.
    unfold Spec.put_json_if_etag_matches, act_bind, act_lift, encode_json. rewrite Hvec. by intros [= <-]. }
  { done. }
  { unfold Spec.put_json_if_etag_matches, act_bind, act_lift, encode_json. by rewrite Hvec. }
  exists err, (mkThreadStore st (cache s)). split; [|split; [done|split; [by apply coherent_same|done]]].
  rewrite (act_bind_Ok _ _ s v s) by done. by apply act_bind_Err.
Qed.

(** Saving over what was loaded, whatever the codec makes of the log. *)
Lemma save_either s log : coherent key s ->
  exists r s', (do! etag <- save_thread_log_if_etag_matches thread_id key log (etag_of <$> object key s);
                remember_log key log etag) s = (r, s') /\ coherent key s' /\
    match r with
    | Ok _ => exists b, contents (storage s') = <[key := b]> (contents (storage s) : gmap string string) /\
                        decode_log b = Some log
    | Err e => (forall m, e <> CoreError.AuditConflict m) /\ contents (storage s') = contents (storage s)
    end.
Proof using roundtrip HL.
  intros Hc. destruct (encode_log log) as [b|] eqn:He.
  - destruct (save_owned key thread_id s log b Hc He (roundtrip _ _ He)) as (s' & E & C & S).
    exists (Ok tt), s'. split; [done|]. split; [done|]. exists b. auto.
  - destruct (save_unencodable s log Hc He) as (e & s' & E & Hne & C & S).
    exists (Err e), s'. by rewrite (act_bind_Err _ _ _ _ _ E).
Qed.

(** Appending. *)
Lemma append_step_either step s log : coherent key s -> holds (object key s) log -> readable log ->
  exists r s', ThreadStore.append_step scope ks thread_id step s = (r, s') /\ coherent key s' /\
    match r with
    | Ok _ => exists b, contents (storage s') = <[key := b]> (contents (storage s) : gmap string string) /\
                        decode_log b = Some (apply_step step log)
    | Err _ => contents (storage s') = contents (storage s)
    end.
Proof using Hkey roundtrip HL.
  intros Hc Hh Hr. destruct (load_owned key s log Hc Hh Hr) as (l & s1 & E1 & Hl & Ht & C1 & S1).
  destruct (save_either s1 (apply_step step log) C1) as (r & s2 & E2 & C2 & H2). rewrite S1 in H2.
  assert (append_step_locked key thread_id step s = (r, s2)) as El.
  { unfold append_step_locked. rewrite (act_bind_Ok _ _ _ _ _ E1), Hl, Ht. unfold object in *. by rewrite <- S1. }
  unfold ThreadStore.append_step. rewrite (act_bind_Ok _ _ s key s) by (unfold act_lift; by rewrite Hkey).
  change (Z.to_nat AUDIT_MAX_CONFLICT_RETRIES + 1) with 6. cbn [append_attempts]. rewrite El.
  exists r, s2. destruct r as [[]|e]; [done|]. destruct H2 as [Hne H2]. split; [|done].
  destruct e as [| | | | | | | |m| | |]; try done. by destruct (Hne m).
Qed.

(** ** The thread as a log *)

(** The log of the object, the empty one when there is none. *)
Definition thread_log s : ThreadLog.t :=
  match object key s with
  | Some b => default ThreadLog.default (decode_log b)
  | None => ThreadLog.default
  end.

Definition owns s : Prop := coherent key s /\ holds (object key s) (thread_log s) /\ readable (thread_log s).

Lemma holds_thread_log s log : holds (object key s) log -> thread_log s = log.
Proof. unfold thread_log, holds. by destruct (object key s) as [b|]; [intros ->|]. Qed.

Lemma owns_intro s log : coherent key s -> holds (object key s) log -> readable log -> owns s.
Proof. intros Hc Hh Hr. unfold owns. by rewrite (holds_thread_log s log Hh). Qed.

Lemma owns_same s s' : owns s -> coherent key s' -> contents (storage s') = contents (storage s) ->
  owns s' /\ thread_log s' = thread_log s.
Proof.
  intros (Hc & Hh & Hr) C S. assert (holds (object key s') (thread_log s)) as H by (unfold object; by rewrite S).
  split; [by eapply owns_intro|by apply holds_thread_log].
Qed.

(** A fresh store over storage in a valid state. *)
Lemma owns_new (w : St) log : valid w -> holds ((contents w : gmap string string) !! key) log -> readable log ->
  owns (ThreadStore.new w) /\ thread_log (ThreadStore.new w) = log.
Proof.
  intros Hv Hh Hr. split; [|by apply holds_thread_log]. eapply (owns_intro (ThreadStore.new w)); [by split|exact Hh|done].
Qed.

Lemma owns_storage s : owns s ->
  valid (storage s) /\ holds ((contents (storage s) : gmap string string) !! key) (thread_log s) /\ readable (thread_log s).
Proof. intros ([Hv _] & Hh & Hr). done. Qed.

(** What an append leaves. *)
Definition appends (step : ThreadStep.t) s (r : Result unit CoreError.t) s' : Prop :=
  only_key key (contents (storage s)) (contents (storage s')) /\
  match r with
  | Ok _ => thread_log s' = apply_step step (thread_log s) /\ is_Some (object key s')
  | Err _ => contents (storage s') = contents (storage s)
  end.

Lemma append_step_appends step s : owns s ->
  let '(r, s') := ThreadStore.append_step scope ks thread_id step s in owns s' /\ appends step s r s'.
Proof using Hkey roundtrip HL.
  intros (Hc & Hh & Hr). destruct (append_step_either step s _ Hc Hh Hr) as (r & s' & -> & C & H).
  destruct r as [u|e].
  - destruct H as (b & S & Hb).
    assert (object key s' = Some b) as Ho by (unfold object, Spec.Store in *; by rewrite S, lookup_insert_eq).
    assert (holds (object key s') (apply_step step (thread_log s))) as Hh' by (by rewrite Ho).
    split; [by eapply owns_intro, readable_apply|]. split; [rewrite S; apply only_key_insert|].
    split; [by apply holds_thread_log|by rewrite Ho].
  - split; [by apply (owns_same s)|]. unfold appends, only_key. by rewrite H.
Qed.

(** Reading a thread that has an object. *)
Lemma get_thread_log s : owns s -> is_Some (object key s) ->
  exists s', get scope ks thread_id s = (Ok (thread_log s), s') /\ owns s' /\
    contents (storage s') = contents (storage s).
Proof using Hkey HL.
  intros Ho [b Hb]. pose proof Ho as (Hc & Hh & Hr).
  destruct (get_owned scope ks thread_id key s b (thread_log s) Hkey Hc Hb) as (s' & E & C & S); [|done|].
  { by rewrite Hb in Hh. }
  exists s'. split; [done|]. split; [by apply (owns_same s)|done].
Qed.

(** The first phase of a thread: a step of the log, or nothing. *)
Lemma preflight_owns now agent suite phase s : owns s ->
  let '(r, s') := ensure_preflight_phase_step scope ks now thread_id agent suite phase s in
  owns s' /\ only_key key (contents (storage s)) (contents (storage s')) /\
  exists pre, ThreadLog.steps (thread_log s') = ThreadLog.steps (thread_log s) ++ pre /\ length pre <= 1.
Proof using Hkey roundtrip HL.
  intros Ho. pose proof Ho as (Hc & Hh & Hr).
  assert (forall s', coherent key s' -> contents (storage s') = contents (storage s) ->
    owns s' /\ only_key key (contents (storage s)) (contents (storage s')) /\
    exists pre, ThreadLog.steps (thread_log s') = ThreadLog.steps (thread_log s) ++ pre /\ length pre <= 1) as Hsame.
  { intros s' C S. destruct (owns_same s s' Ho C S) as [Ho' ->]. unfold only_key. rewrite S. split_and!; [done..|].
    exists []. rewrite app_nil_r. split; [done|cbn; lia]. }
  destruct (first_phase 0 (ThreadLog.steps (thread_log s))) as [f|] eqn:Hf.
  { destruct (preflight_found scope ks now thread_id agent suite phase key s _ f Hkey Hc Hh Hr Hf) as (s' & -> & C & S).
    by apply Hsame. }
  destruct (load_owned key s _ Hc Hh Hr) as (l & s1 & E1 & Hl & Ht & C1 & S1).
  unfold ensure_preflight_phase_step. rewrite (act_bind_Ok _ _ s key s) by (unfold act_lift; by rewrite Hkey).
  rewrite (act_bind_Ok _ _ _ _ _ E1), Hl, Hf. set (log' := ThreadLog.push _ (thread_log s)).
  destruct (save_either s1 log' C1) as (r & s2 & E2 & C2 & H2).
  assert (loaded_etag l = etag_of <$> object key s1) as -> by (rewrite Ht; unfold object; by rewrite S1).
  unfold act_bind in E2 |- *. destruct (save_thread_log_if_etag_matches _ _ _ _ s1) as [[e|e] s3]; simplify_eq.
  2: { apply Hsame; [done|]. destruct H2 as [_ ->]. done. }
  cbn in E2 |- *. injection E2 as <- <-. destruct H2 as (b & Sb & Hb). rewrite S1 in Sb.
  assert (holds (object key (mkThreadStore (storage s3) (<[key:={| ce_log := log'; ce_etag := e |}]> (cache s3)))) log') as Hh'.
  { cbn in Sb. unfold object, Spec.Store in *. cbn. by rewrite Sb, lookup_insert_eq. }
  split; [by eapply owns_intro|]. rewrite (holds_thread_log _ _ Hh'). cbn in Sb |- *. rewrite Sb.
  split; [apply only_key_insert|]. by eexists.
Qed.

Lemma get_owns s : owns s ->
  owns (get scope ks thread_id s).2 /\ contents (storage (get scope ks thread_id s).2) = contents (storage s).
Proof using Hkey HL.
  intros Ho. destruct (object key s) as [b|] eqn:Hb.
  - destruct (get_thread_log s Ho) as (s' & -> & H); [by rewrite Hb|done].
  - destruct (get_missing_owned scope ks thread_id key s Hkey (proj1 Ho) Hb) as (e & s' & -> & C & S).
    split; [by apply (owns_same s)|done].
Qed.

(** ** The world of a run: its surroundings and the thread's store *)

Context {H : Type}.

Record Hosted : Type := { host : H; stored : ThreadStore St }.

Definition on_host {A} (f : H -> A * H) (w : Hosted) : A * Hosted :=
  let '(a, h) := f (host w) in (a, {| host := h; stored := stored w |}).

Definition on_stored {A} (f : ThreadStore St -> A * ThreadStore St) (w : Hosted) : A * Hosted :=
  let '(a, s) := f (stored w) in (a, {| host := host w; stored := s |}).

Definition with_host (h : H) (w : Hosted) : Hosted := {| host := h; stored := stored w |}.

(** The run's log is the thread's. *)
#[local] Instance hosted_log : StepLog Hosted := {|
  steps_of w := ThreadLog.steps (thread_log (stored w));
  append step := on_stored (ThreadStore.append_step scope ks thread_id step);
  log_ok w := owns (stored w)
|}.

Lemma append_hosted step (w : Hosted) : owns (stored w) ->
  let '(r, w') := append step w in
  host w' = host w /\ owns (stored w') /\ appends step (stored w) r (stored w').
Proof using Hkey roundtrip HL.
  intros Ho. cbn [append hosted_log]. unfold on_stored. pose proof (append_step_appends step (stored w) Ho) as Ha.
  destruct (ThreadStore.append_step scope ks thread_id step (stored w)). by destruct Ha.
Qed.

Lemma thread_log_same s s' : contents (storage s') = contents (storage s) -> thread_log s' = thread_log s.
Proof. unfold thread_log, object. by intros ->. Qed.

(** The thread store keeps the log's contract. *)
#[local] Instance hosted_log_laws : StepLogLaws Hosted.
Proof using Hkey roundtrip HL.
  split. intros step w Ho. pose proof (append_hosted step w Ho) as Ha.
  destruct (append step w) as [[u|e] w']; destruct Ha as (_ & Ho' & _ & Ha); split; try done; cbn.
  - destruct Ha as [-> _]. apply apply_step_steps.
  - by rewrite (thread_log_same (stored w) (stored w')), app_nil_r.
Qed.

(** Only this thread's log changes, and it only grows. *)
Definition extends (w w' : Hosted) : Prop :=
  owns (stored w) ->
  owns (stored w') /\
  (exists new, ThreadLog.steps (thread_log (stored w')) = ThreadLog.steps (thread_log (stored w)) ++ new) /\
  only_key key (contents (storage (stored w))) (contents (storage (stored w'))).

#[export] Instance extends_preorder : PreOrder extends.
Proof.
  split.
  - intros w Ho. split_and!; [done|exists []; by rewrite app_nil_r|done].
  - intros w1 w2 w3 H1 H2 Ho. destruct (H1 Ho) as (Ho2 & (n1 & E1) & O1). destruct (H2 Ho2) as (Ho3 & (n2 & E2) & O2).
    split_and!; [done|exists (n1 ++ n2); by rewrite E2, E1, app_assoc|]. unfold only_key in *. congruence.
Qed.

Lemma extends_stored (w w' : Hosted) : stored w' = stored w -> extends w w'.
Proof. unfold extends. intros -> Ho. split_and!; [done|exists []; by rewrite app_nil_r|done]. Qed.

Lemma extends_get w : extends w (on_stored (get scope ks thread_id) w).2.
Proof using Hkey HL.
  intros Ho. pose proof (get_owns (stored w) Ho) as [Ho' E]. unfold on_stored.
  destruct (get scope ks thread_id (stored w)) as [r s]. cbn in *. split; [done|].
  rewrite (thread_log_same _ _ E). unfold only_key. rewrite E. split; [exists []; by rewrite app_nil_r|done].
Qed.

Lemma extends_append step w : extends w (append step w).2.
Proof using Hkey roundtrip HL.
  intros Ho. pose proof (append_hosted step w Ho) as Ha. pose proof (append_logs step w Ho) as [_ Hs].
  destruct (append step w) as [r w']; destruct Ha as (_ & Ho' & O & _). cbn [fst snd] in *.
  split_and!; [done|by eexists|done].
Qed.

(** [race] ends the race of a tool call against cancellation and the timer: a
    call that loses may have logged something before it was dropped. *)
Context `{HRun : !Runtime H}.
Variable race : string -> Value -> Z -> Hosted -> Raced unit * Hosted.

Definition read_stored : Act Hosted CoreError.t (list ThreadStep.t) :=
  do! log <- on_stored (get scope ks thread_id); act_ret (ThreadLog.steps log).

#[local] Instance hosted_runtime : Runtime Hosted := {|
  meter w := meter (host w);
  set_meter m w := with_host (set_meter m (host w)) w;
  is_cancelled w := is_cancelled (host w);
  caches w := caches (host w);
  set_caches c w := with_host (set_caches c (host w)) w;
  now := on_host now;
  fresh_uuid := on_host fresh_uuid;
  sleep d w := with_host (sleep d (host w)) w;
  throttle p e n w := with_host (throttle p e n (host w)) w;
  send_progress n w := with_host (send_progress n (host w)) w;
  send_pre_step text w := with_host (send_pre_step text (host w)) w;
  send_trace text w := with_host (send_trace text (host w)) w;
  read_steps := read_stored;
  chat m o := on_host (chat m o);
  chat_within t m o := on_host (chat_within t m o);
  embed t := on_host (embed t);
  tool_race := race
|}.

Lemma stored_on_host {A} (f : H -> A * H) w : stored (on_host f w).2 = stored w.
Proof. unfold on_host. by destruct (f (host w)). Qed.

Lemma stored_charge c w : stored (charge c w).2 = stored w.
Proof. unfold charge. cbn [meter set_meter hosted_runtime]. by destruct (BudgetMeter.charge c _). Qed.

Lemma read_stored_world w : (read_stored w).2 = (on_stored (get scope ks thread_id) w).2.
Proof. unfold read_stored, act_bind, act_ret. by destruct (on_stored _ w) as [[log|e] w']. Qed.

(** Whatever a run does, if its tools only log, extends the thread. *)
#[local] Instance extends_advancing : (forall n a t w, extends w (race n a t w).2) -> Advancing extends.
Proof using Hkey roundtrip HL.
  intros Hrace. split; [|apply extends_append|exact Hrace].
  split; first [exact _|(intros; by apply extends_stored)|(intros c w; apply extends_stored, stored_charge)
    |(intros; apply extends_stored, stored_on_host)|idtac].
  intros w. cbn [read_steps hosted_runtime]. rewrite read_stored_world. apply extends_get.
Qed.

Context `{HLogH : !StepLog H, HLawsH : !RuntimeLaws H}.

Lemma hosted_quiet (w w' : Hosted) : stored w' = stored w -> quiet (host w) (host w') -> quiet w w'.
Proof. intros E [_ Hm]. split; [|exact Hm]. intros Ho. cbn. rewrite E. by rewrite app_nil_r. Qed.

Lemma quiet_on_host {A} (f : H -> A * H) w : quiet (host w) (f (host w)).2 -> quiet w (on_host f w).2.
Proof. intros Hq. apply hosted_quiet; [apply stored_on_host|]. unfold on_host. by destruct (f (host w)). Qed.

Lemma quiet_read_stored w : quiet w (read_stored w).2.
Proof using Hkey HL.
  rewrite read_stored_world. split.
  - intros Ho. pose proof (get_owns (stored w) Ho) as [Ho' E]. unfold on_stored.
    destruct (get scope ks thread_id (stored w)) as [r s]. cbn in *. by rewrite (thread_log_same _ _ E), app_nil_r.
  - unfold on_stored. by destruct (get scope ks thread_id (stored w)).
Qed.

(** The hosted world keeps the laws of an environment, if the host does. *)
#[local] Instance hosted_laws : (forall n a t w, moved w (race n a t w).2) -> RuntimeLaws Hosted.
Proof using Hkey roundtrip HL HLawsH.
  intros Hrace. split; first [done|exact _|(intros; cbn; apply meter_set)|exact quiet_read_stored|idtac].
  all: intros; first [(apply quiet_on_host; first [apply quiet_now|apply quiet_uuid|apply quiet_chat
    |apply quiet_chat_within|apply quiet_embed])|(apply hosted_quiet; [done|]; first [apply quiet_caches|apply quiet_sleep
    |apply quiet_throttle|apply quiet_progress|apply quiet_pre_step|apply quiet_trace])|idtac].
  - exact (logs_nil _).
  - cbn [append hosted_log]. unfold on_stored. by destruct (ThreadStore.append_step _ _ _ _ _).
Qed.
End thread.

Arguments Hosted St H : clear implicits.
Arguments extends {St HSd HV HC} key {H} _ _.
