(* ===== verification/StoredRuns.v ===== *)
(** * Runs and messages of the agent whose log is a stored thread

    The agent loop ([AgentLoop]) over the thread store ([StoredThread]): what
    a run that completed left in storage.  Then a message to a suite
    ([ExampleSuites.handle_message]) whose agent is that loop: the loop's
    policy and the suite both record a completion, and the thread keeps one. *)

From stdpp Require Import base list strings gmap.
From Stdlib Require Import ZArith Lia.
From S2P Require Import Prelude.
From S2P Require Import RustStr.
From S2P Require Import Json.
From S2P Require Import Errors.
From S2P Require Import Budget.
From S2P Require Import Scope.
From S2P Require Import Storage.
From S2P Require Import MemoryStorage.
From S2P Require Import Caching.
From S2P Require Import SessionTypes.
From S2P Require Import Samples.
From S2P Require Import ThreadStore.
From S2P Require Import ThreadStoreShared.
From S2P Require Import ThreadStoreOwned.
From S2P Require Import Observed.
From S2P Require Import Workflow.
From S2P Require Import ErrorContext.
From S2P Require Import JsonRepair.
From S2P Require Import Schema.
From S2P Require Import Tools.
From S2P Require Import Transcript.
From S2P Require Import Llm.
From S2P Require Import Redaction.
From S2P Require Import Observability.
From S2P Require Import Gateway.
From S2P Require Import Parsing.
From S2P Require Import AgentLoop.
From S2P Require Import AgentLaws.
From S2P Require Import AgentRuns.
From S2P Require Import Dates.
From S2P Require Import Analysis.
From S2P Require Import Suites.
From S2P Require Import ExampleSuites.
From S2P Require Import StoredThread.
Import OneStep.

(** ** How a run under the default policy completes *)

Section completed.
Context {W : Type} `{HR : !Runtime W, HL : !StepLog W, HSha : !Sha256, HLow : !UnicodeLower, HSd : !Serde}.
Context `{HSt : !JsonStream, HV : !DeserializeOwned Value, HS : !DeserializeOwned AgentStepV1, HT : !SchemaTools}.
Context `{HJ : !JsonDisplay, HP : !JsonPretty, HUp : !UnicodeUpper}.
Context (R : relation W) `{HA : !Advancing R}.
Variable env : string -> option string.
Variable hash_args : Value -> Z.
Variable ctx : AgentCtx.
Variable tools : @ToolRegistry W.
Hypothesis Hstore : ctx_has_store ctx = true.
Hypothesis Htools : forall name t args w,
  (tools : gmap string (Tool W)) !! name = Some t -> R w (tool_call t args w).2.

(** The step that records a completion. *)
Definition complete_step (result : ThreadResult) (ts : string) : ThreadStep.t :=
  ThreadStep.Complete (tr_kind result) (tr_payload result) (tr_display result) Observation.success ts
    (agent_name_or_default ctx).

(** The last thing a run did was to append its completion. *)
Definition completed (w w' : W) (result : ThreadResult) : Prop :=
  exists w0 ts, R w w0 /\ append (complete_step result ts) w0 = (Ok tt, w').

Definition completes (tid : string) {A} (m : Prog W Verdict A) : Prop :=
  forall w, match m w with
  | (Some (Err (Ok (RunOutcome.Complete t result))), w') => t = tid /\ completed w w' result
  | _ => True
  end.

Lemma completes_bind tid {A B} (m : Prog W Verdict A) (k : A -> Prog W Verdict B) :
  moves R m -> completes tid m -> (forall a, completes tid (k a)) -> completes tid (prog_bind m k).
Proof.
  intros Hm Hc Hk w. unfold prog_bind. specialize (Hm w). specialize (Hc w).
  destruct (m w) as [[[a|v]|] w1]; [|exact Hc|done]. specialize (Hk a w1). cbn [snd] in Hm.
  destruct (k a w1) as [[[b|[[t result|]|e]]|] w2]; try done.
  destruct Hk as [-> (w0 & ts & H0 & Ha)]. split; [done|]. exists w0, ts. split; [by etrans|done].
Qed.

Lemma completes_or_return tid {A} (m : Prog W CoreError.t A) : completes tid (or_return m).
Proof. intros w. unfold or_return, prog_map_err. by destruct (m w) as [[[a|e]|] w']. Qed.

Lemma completes_do tid {A} (f : W -> A * W) : completes tid (prog_do f).
Proof. intros w. unfold prog_do. by destruct (f w). Qed.

Lemma completes_ret tid {A} (a : A) : completes tid (prog_ret a).
Proof. by intros w. Qed.

Lemma completes_option tid {A} (o : option A) : completes tid (prog_option o).
Proof. intros w. unfold prog_option. by destruct o. Qed.

Notation policy := DefaultPolicy.

Lemma default_policy_keeps : keeps R ctx tools policy.
Proof.
  split; [exact Htools| |done]. intros tid ce t w. cbn [handle_complete DefaultPolicy]. unfold accept_any.
  rewrite Hstore. pose proof (stable_now w) as H1. destruct (now w) as [ts w1]. cbn [snd] in H1.
  unfold act_bind, act_map_err. set (step := ThreadStep.Complete _ _ _ _ _ _).
  pose proof (advancing_append step w1) as H2. destruct (append step w1) as [[u|e] w2]; by etrans.
Qed.

Lemma completes_complete tid ce t ledger : completes tid (complete_turn ctx policy tid ce t ledger).
Proof.
  intros w. unfold complete_turn, prog_bind at 1, or_return, prog_map_err, prog_act.
  cbn [handle_complete DefaultPolicy]. unfold accept_any. rewrite Hstore.
  pose proof (stable_now w) as H1. destruct (now w) as [ts w1]. cbn [snd] in H1.
  unfold act_bind, act_map_err. set (result := {| tr_kind := _; tr_payload := _; tr_display := _ |}).
  change (ThreadStep.Complete _ _ _ _ ts _) with (complete_step result ts).
  destruct (append (complete_step result ts) w1) as [[[]|e] w2] eqn:E; [|done].
  split; [done|]. by exists w1, ts.
Qed.

Lemma completes_fall_back tid {A} t : completes tid (A := A) (stop_and_fall_back ctx policy tid t).
Proof. intros w. unfold stop_and_fall_back, prog_bind, or_return, prog_map_err. by destruct (record_run_loop_stop _ _ w) as [[[u|e]|] w1]. Qed.

Lemma completes_observation tid t raw action outcome :
  completes tid (append_observation_to_transcript ctx t raw action outcome).
Proof.
  apply completes_bind; [apply (moves_trace_entry R)|apply completes_do|]. intros _.
  apply completes_bind; [apply moves_option|apply completes_option|]. intros [t' o'].
  apply completes_bind; [apply (moves_trace_entry R)|apply completes_do|]. intros _. apply completes_ret.
Qed.

Lemma completes_tool tid raw action args t ledger :
  completes tid (tool_turn hash_args ctx tools policy tid raw action args t ledger).
Proof.
  pose proof default_policy_keeps as Hk. apply completes_bind.
  { intros w. pose proof (moves_execute R ctx tools policy Hk action args w) as H.
    by destruct (execute_tool_call _ _ _ _ _ w). }
  { intros w. by destruct (execute_tool_call _ _ _ _ _ w) as [[o|] w1]. }
  intros outcome. destruct (interrupt_for_action policy action args _) as [[kind prompt]|].
  - apply completes_bind; [apply moves_map_err, (moves_stop R)|apply completes_or_return|intros _; by intros w].
  - apply completes_bind; [apply (moves_observation R)|apply completes_observation|]. intros t'. destruct (outcome_is_ok outcome); [apply completes_ret|].
    destruct (record_failure _ _ _ _) as [[n|n] l]; [apply completes_ret|apply completes_fall_back].
Qed.

Lemma completes_after tid {A} (m : Prog W Verdict A) w w1 : R w w1 -> completes tid m ->
  match m w1 with
  | (Some (Err (Ok (RunOutcome.Complete t result))), w') => t = tid /\ completed w w' result
  | _ => True
  end.
Proof.
  intros H1 Hc. specialize (Hc w1). destruct (m w1) as [[[a|[[t result|]|e]]|] w2]; try done.
  destruct Hc as [-> (w0 & ts & H0 & Ha)]. split; [done|]. exists w0, ts. split; [by etrans|done].
Qed.

Lemma completes_work options tid step_idx t ledger :
  completes tid (charged_turn env hash_args ctx tools policy options tid step_idx t ledger).
Proof.
  apply completes_bind; [apply moves_do, stable_progress|apply completes_do|]. intros _.
  apply completes_bind; [apply moves_do, stable_pre_step|apply completes_do|]. intros _.
  apply completes_bind; [apply moves_map_err, (moves_ask R)|apply completes_or_return|]. intros raw.
  apply completes_bind; [apply moves_map_err, (moves_parse R)|apply completes_or_return|].
  intros [[[action args|ce] raw'] t'].
  - apply completes_tool.
  - apply completes_complete.
Qed.

Lemma completes_turn options tid step_idx t ledger :
  completes tid (turn env hash_args ctx tools policy options tid step_idx t ledger).
Proof.
  intros w. unfold turn. pose proof (stable_charge AgentStep w) as Hc.
  destruct (charge AgentStep w) as [[u|b] w1]; cbn [snd] in Hc.
  - destruct (is_cancelled w1); [done|]. apply completes_after; [done|apply completes_work].
  - destruct b; try done. apply completes_after; [done|apply completes_fall_back].
Qed.

Lemma run_turns_completed fuel options tid step_idx t ledger w t' result w' :
  run_turns env hash_args ctx tools policy fuel options tid step_idx t ledger w
    = Some (Some (Ok (RunOutcome.Complete t' result)), w') ->
  t' = tid /\ completed w w' result.
Proof.
  revert step_idx t ledger w. induction fuel as [|fuel IH]; intros step_idx t ledger w H; [done|].
  cbn [run_turns] in H. pose proof (completes_turn options tid step_idx t ledger w) as Hc.
  pose proof (moves_turn R env hash_args ctx tools policy default_policy_keeps options tid step_idx t ledger w) as Hm.
  destruct (turn _ _ _ _ _ _ _ _ _ _ w) as [[[[t1 l1]|v]|] w1]; cbn [snd] in Hm; simplify_eq; [|done].
  destruct (IH _ _ _ _ H) as [-> (w0 & ts & H0 & Ha)]. split; [done|]. exists w0, ts. split; [by etrans|done].
Qed.

Lemma run_completed fuel system_prompt tools_card question options tid w t' result w' :
  ctx_thread_id ctx = Some tid ->
  run_until_block env hash_args ctx tools policy fuel system_prompt tools_card question options w
    = Some (Some (Ok (RunOutcome.Complete t' result)), w') ->
  t' = tid /\ completed w w' result.
Proof.
  intros Htid. unfold run_until_block. rewrite Htid. intros H. apply run_turns_completed in H as [-> Hc].
  split; [done|]. destruct Hc as (w0 & ts & H0 & Ha). exists w0, ts. split; [|done].
  etrans; [apply stable_trace|exact H0].
Qed.
End completed.

(** ** What the run left in storage *)

Section stored_runs.
Context {St K H : Type} `{HSd : !Serde, HSt : !StorageAdapter St, HV : !StorageView St,
  HL : !StorageLaws St, HT : !Timer St, HK : !Keyspace K, HC : !Codec ThreadLog.t, HRun : !Runtime H}.
Context `{HSha : !Sha256, HLow : !UnicodeLower, HUp : !UnicodeUpper, HStream : !JsonStream,
  HVal : !DeserializeOwned Value, HStep : !DeserializeOwned AgentStepV1, HTools : !SchemaTools,
  HJ : !JsonDisplay, HP : !JsonPretty}.
Variables (scope : RequestScope) (ks : K) (thread_id key : string).
Hypothesis Hkey : thread_store_key scope ks thread_id = Ok key.
Hypothesis roundtrip : forall log b, encode_log log = Some b -> decode_log b = Some log.

Notation World := (Hosted St H).
Variable race : string -> Value -> Z -> World -> Raced unit * World.

#[local] Instance world_log : StepLog World := hosted_log scope ks thread_id key.
#[local] Instance world_runtime : Runtime World := hosted_runtime scope ks thread_id race.

(** Tools that do no more to the storage than to log, also when they lose the
    race against the timer. *)
Definition only_log (tools : @ToolRegistry World) : Prop :=
  (forall n a d w, extends key w (race n a d w).2) /\
  (forall name tool args w, (tools : gmap string (Tool World)) !! name = Some tool ->
    extends key w (tool_call tool args w).2).

Section agent.
Variable env : string -> option string.
Variable hash_args : Value -> Z.
Variable ctx : AgentCtx.
Variable tools : @ToolRegistry World.
Hypothesis Hstore : ctx_has_store ctx = true.
Hypothesis Htid : ctx_thread_id ctx = Some thread_id.
Hypothesis Htools : only_log tools.

Lemma run_extends fuel system_prompt tools_card question options (w : World) v w' :
  run_until_block env hash_args ctx tools DefaultPolicy fuel system_prompt tools_card question options w
    = Some (v, w') -> extends key w w'.
Proof using Hkey Hstore Htid Htools roundtrip HL.
  unfold run_until_block. rewrite Htid. intros Hrun. destruct Htools as [Hrace Hcalls].
  pose proof (extends_advancing scope ks thread_id key Hkey roundtrip race Hrace) as HA.
  pose proof (default_policy_keeps (extends key) ctx tools Hstore Hcalls) as Hk.
  etrans; [|by eapply kept_run_turns]. apply stable_trace.
Qed.

(** A completed run, read in the thread's log. *)
Lemma run_completes_log fuel system_prompt tools_card question options (w : World) t result w' :
  owns key (stored w) ->
  run_until_block env hash_args ctx tools DefaultPolicy fuel system_prompt tools_card question options w
    = Some (Some (Ok (RunOutcome.Complete t result)), w') ->
  t = thread_id /\ is_Some (object key (stored w')) /\ ThreadLog.result (thread_log key (stored w')) = Some result /\
  exists new ts, ThreadLog.steps (thread_log key (stored w')) =
    ThreadLog.steps (thread_log key (stored w)) ++ new ++ [complete_step ctx result ts].
Proof using Hkey Hstore Htid Htools roundtrip HL.
  intros Ho Hrun. destruct Htools as [Hrace Hcalls].
  pose proof (extends_advancing scope ks thread_id key Hkey roundtrip race Hrace) as HA.
  destruct (run_completed (extends key) env hash_args ctx tools Hstore Hcalls
    _ _ _ _ _ _ _ _ _ _ Htid Hrun) as [-> (w0 & ts & He & Ha)]. split; [done|].
  destruct (He Ho) as (Ho0 & (new & E0) & _).
  pose proof (append_hosted scope ks thread_id key Hkey roundtrip (complete_step ctx result ts) w0 Ho0) as Hs.
  unfold world_log in Ha. rewrite Ha in Hs. destruct Hs as (_ & _ & _ & El & Hsome). rewrite El.
  split; [done|]. split; [by destruct result|]. exists new, ts. by rewrite apply_step_steps, E0, app_assoc.
Qed.

(** C17: Runs are on record.  Over a thread in storage the process owns, and under
    the default policy, a run of the agent loop only ever adds steps to the
    thread's log and touches no other object, however it ends, a panic
    included, as long as the tools do no more to the storage than to log.
    When it returns [Complete], reading the thread back succeeds: the result
    on record is the one the caller got, and the log is the one before, then
    what the run logged, then the completion with this result. *)
Theorem runs_are_on_record fuel system_prompt tools_card question options (w : World) v w' :
  owns key (stored w) ->
  run_until_block env hash_args ctx tools DefaultPolicy fuel system_prompt tools_card question options w
    = Some (v, w') ->
  extends key w w' /\
  match v with
  | Some (Ok (RunOutcome.Complete t result)) =>
      t = thread_id /\
      exists log' s' new ts,
        get scope ks thread_id (stored w') = (Ok log', s') /\ ThreadLog.result log' = Some result /\
        ThreadLog.steps log' = ThreadLog.steps (thread_log key (stored w)) ++ new ++ [complete_step ctx result ts]
  | _ => True
  end.
Proof using Hkey Hstore Htid Htools roundtrip HL.
  intros Ho Hrun. pose proof (run_extends _ _ _ _ _ _ _ _ Hrun) as He. split; [done|].
  destruct v as [[[t result|]|]|]; try done.
  destruct (run_completes_log _ _ _ _ _ _ _ _ _ Ho Hrun) as (-> & Hsome & Hr & new & ts & E). split; [done|].
  destruct (get_thread_log scope ks thread_id key Hkey (stored w') (proj1 (He Ho)) Hsome) as (s' & Eg & _ & _).
  by exists (thread_log key (stored w')), s', new, ts.
Qed.
End agent.
End stored_runs.

(** ** A codec for the logs of one run

    The logs are the prefixes of a list of steps; a log is stored as its
    length. *)
Module TraceCodec.
#[local] Instance Observation_eq_dec : EqDecision Observation.t.
Proof. solve_decision. Defined.
#[local] Instance ToolObservation_eq_dec : EqDecision ToolObservation.t.
Proof. solve_decision. Defined.
#[local] Instance ExecutionContext_eq_dec : EqDecision ExecutionContext.
Proof. solve_decision. Defined.
#[local] Instance ThreadResult_eq_dec : EqDecision ThreadResult.
Proof. solve_decision. Defined.
#[local] Instance ArtifactKind_eq_dec : EqDecision ArtifactKind.
Proof. solve_decision. Defined.
#[local] Instance ArtifactSaveStatus_eq_dec : EqDecision ArtifactSaveStatus.t.
Proof. solve_decision. Defined.
#[local] Instance RunLoopStopKind_eq_dec : EqDecision RunLoopStopKind.t.
Proof. solve_decision. Defined.
#[local] Instance ThreadStep_eq_dec : EqDecision ThreadStep.t.
Proof. solve_decision. Defined.
#[local] Instance ThreadLog_eq_dec : EqDecision ThreadLog.t.
Proof. solve_decision. Defined.

Section codec.
Variable trace : list ThreadStep.t.

Definition log_of (n : nat) : ThreadLog.t :=
  fold_left (fun log step => apply_step step log) (take n trace) ThreadLog.default.

Definition codec : Codec ThreadLog.t := {|
  SessionTypes.to_value log := match list_find (fun n => log = log_of n) (seq 0 (S (length trace))) with
                               | Some (_, n) => Ok (VArray (repeat VNull n))
                               | None => Err "unsupported"
                               end;
  SessionTypes.from_value v := match v with VArray l => Ok (log_of (length l)) | _ => Err "unsupported" end
|}.

Lemma roundtrip log b :
  encode_log (HSd := CountCodec.serde) (HC := codec) log = Some b ->
  decode_log (HSd := CountCodec.serde) (HC := codec) b = Some log.
Proof.
  unfold encode_log, decode_log. cbn [SessionTypes.to_value codec].
  destruct (list_find _ _) as [[i n]|] eqn:E; [|done]. apply list_find_Some in E as (_ & -> & _).
  cbn. rewrite repeat_length. intros [= <-]. cbn. by rewrite repeat_length, CountCodec.unary_length.
Qed.
End codec.
End TraceCodec.

(** ** A stored run

    The scripted run of [AgentRuns] over an in-memory store. *)
Module Traced.
#[export] Existing Instances no_hash ascii_lower_all no_upper display pretty_json CountCodec.serde.

Definition ctx : AgentCtx :=
  {| ctx_thread_id := Some "x"; ctx_agent_name := None; ctx_per_step_timeout_secs := 30; ctx_exec_ctx := None;
     ctx_has_store := true; ctx_llm := None |}.

(** The run in a world [W], with a budget of ten steps. *)
Definition run {W} `{!Runtime W, !StepLog W} (w : W) :=
  run_until_block Scripted.env (fun _ => 0%Z) ctx (∅ : @ToolRegistry W) DefaultPolicy 11 "sys" "card" "question"
    Scripted.options w.

(** Its steps: the call to the model, then the completion. *)
Definition trace : list ThreadStep.t :=
  match run (Scripted.start [Ok OneStep.text]) with
  | Some (_, w) => steps_of w
  | None => []
  end.

#[export] Instance codec : Codec ThreadLog.t := TraceCodec.codec trace.

Definition key : string := "t/w/p/threads/x.json".

#[export] Instance memory : StorageAdapter InMemoryStorageAdapter := memory_adapter.
#[export] Instance laws : StorageLaws InMemoryStorageAdapter := memory_laws.
Lemma start_owned : owns key sample_store.
Proof. apply (owns_intro key sample_store ThreadLog.default); [|done|done]. split; [apply map_Forall_empty|done]. Qed.

Definition World : Type := Hosted InMemoryStorageAdapter Scripted.World.
Definition start : World := {| host := Scripted.start [Ok OneStep.text]; stored := sample_store |}.

Lemma at_key : thread_store_key sample_scope Local "x" = Ok key.
Proof. reflexivity. Qed.

Definition no_race (_ : string) (_ : Value) (_ : Z) (w : World) : Raced unit * World := (Finished tt, w).

#[export] Instance log : StepLog World := hosted_log sample_scope Local "x" key.
#[export] Instance runtime : Runtime World := hosted_runtime sample_scope Local "x" no_race.

Lemma no_tools_log {HC : Codec ThreadLog.t} : only_log (HC := HC) key no_race (∅ : @ToolRegistry World).
Proof.
  split; [intros n a d w; by apply extends_stored|]. intros name tool args w.
  change (∅ : @ToolRegistry World) with (∅ : gmap string (Tool World)). by rewrite lookup_empty.
Qed.
End Traced.
Import Traced.

Lemma runs_are_on_record_witness :
  exists t result w', Traced.run Traced.start = Some (Some (Ok (RunOutcome.Complete t result)), w') /\
    extends Traced.key Traced.start w' /\ t = "x" /\ exists log' s' new ts,
    get sample_scope Local "x" (stored w') = (Ok log', s') /\ ThreadLog.result log' = Some result /\
    ThreadLog.steps log' = [] ++ new ++ [complete_step Traced.ctx result ts].
Proof.
  assert (match Traced.run Traced.start with
          | Some (Some (Ok (RunOutcome.Complete _ _)), _) => true
          | _ => false
          end = true) as Hc by (vm_compute; reflexivity).
  destruct (Traced.run Traced.start) as [[[[[t result|tid kind prompt]|e]|] w']|] eqn:E; try discriminate Hc.
  exists t, result, w'. split; [done|].
  exact (runs_are_on_record (HSd := CountCodec.serde) (HC := Traced.codec) sample_scope Local "x" Traced.key
    Traced.at_key (TraceCodec.roundtrip Traced.trace) Traced.no_race Scripted.env (fun _ => 0%Z) Traced.ctx ∅ eq_refl eq_refl
    Traced.no_tools_log 11 "sys" "card" "question" Scripted.options Traced.start _ w' Traced.start_owned E).
Defined.

Section messages.
Context {St K H : Type} `{HSd : !Serde, HSt : !StorageAdapter St, HV : !StorageView St,
  HL : !StorageLaws St, HT : !Timer St, HK : !Keyspace K, HC : !Codec ThreadLog.t, HRun : !Runtime H}.
Context `{HSha : !Sha256, HLow : !UnicodeLower, HUp : !UnicodeUpper, HStream : !JsonStream,
  HVal : !DeserializeOwned Value, HStep : !DeserializeOwned AgentStepV1, HTools : !SchemaTools,
  HJ : !JsonDisplay, HP : !JsonPretty}.
Context `{HU : !UtcClock St, HRfc : !ToRfc3339} (times : string -> Prop) `{HClock : !ClockOf St times}.
Variables (scope : RequestScope) (ks : K) (thread_id key : string).
Hypothesis Hkey : thread_store_key scope ks thread_id = Ok key.
Hypothesis roundtrip : forall log b, encode_log log = Some b -> decode_log b = Some log.

(** Recording a frame the log already tells writes nothing. *)
Lemma record_known_frame agent frame (w : St) log :
  valid w -> holds ((contents w : gmap string string) !! key) log -> readable log ->
  (forall ts, existsb (same_event (flow_frame_to_step ts frame agent)) (ThreadLog.steps log) = true) ->
  exists w', record_flow_frames scope ks thread_id agent [frame] w = (Ok tt, w') /\
    valid w' /\ contents w' = contents w.
Proof using Hkey HL HClock.
  intros Hv Hh Hr Hdup. unfold record_flow_frames. cbn [record_frames]. unfold store_now, act_bind at 1.
  pose proof (clock_contents w) as Ht1. pose proof (clock_valid w Hv) as Ht2.
  cbn [storage new]. destruct (now_iso w) as [ts w1]; cbn [fst snd] in *.
  destruct (duplicate_check_owned scope ks thread_id key (flow_frame_to_step ts frame agent)
    (mkThreadStore w1 (cache (ThreadStore.new w))) log Hkey) as (s1 & E1 & [V1 _] & S1); [by split| |done|].
  { unfold object. cbn. by rewrite Ht1. }
  rewrite Hdup in E1. pose proof (same_event_kinds _ _ (Hdup ts)) as Hkind.
  exists (storage s1). cbn in S1. rewrite S1, Ht1. split; [|done].
  destruct (flow_frame_to_step ts frame agent) eqn:Es; try done;
    unfold append_step_if_new; by rewrite (act_bind_Ok _ _ _ _ _ (act_bind_Ok _ _ _ _ _ E1)).
Qed.

(** The loop over the thread, for one set-up of the agent. *)
Notation World := (Hosted St H).
Variable race : string -> Value -> Z -> World -> Raced unit * World.

#[local] Instance message_log : StepLog World := hosted_log scope ks thread_id key.
#[local] Instance message_runtime : Runtime World := hosted_runtime scope ks thread_id race.

Variable env : string -> option string.
Variable hash_args : Value -> Z.
Variable ctx : AgentCtx.
Variable tools : @ToolRegistry World.
Hypothesis Hstore : ctx_has_store ctx = true.
Hypothesis Htid : ctx_thread_id ctx = Some thread_id.
Hypothesis Htools : only_log key race tools.

Definition loop (fuel : nat) (setup : AgentRun) (w : World) : option (option AgentLoop.Verdict * World) :=
  run_until_block env hash_args ctx tools DefaultPolicy fuel (run_system_prompt setup) (run_tools_card setup)
    (run_question setup) (run_options setup) w.

Definition completion (result : ThreadResult) : FlowFrame.t :=
  FlowFrame.Complete (mkFlowKind (tr_kind result)) (tr_payload result) (tr_display result).

Lemma completion_is_told result ts ts' agent steps :
  existsb (same_event (flow_frame_to_step ts (completion result) agent)) (steps ++ [complete_step ctx result ts']) = true.
Proof.
  rewrite existsb_app. cbn. rewrite String.eqb_refl, bool_decide_eq_true_2 by done. by rewrite orb_true_r.
Qed.

Variable run_agent : AgentRun -> ThreadStore St -> Result RunOutcome.t CoreError.t * ThreadStore St.

(** The thread as the agent finds it. *)
Definition found (suite agent_type : string) (w : St) : ThreadStore St :=
  (logged_steps scope ks thread_id
     (ThreadStore.new (ctx_preflight scope ks thread_id agent_type suite w).2)).2.

Lemma found_owns suite agent_type (w : St) log :
  valid w -> holds ((contents w : gmap string string) !! key) log -> readable log ->
  owns key (found suite agent_type w) /\
  only_key key (contents w) (contents (storage (found suite agent_type w))) /\
  exists pre, ThreadLog.steps (thread_log key (found suite agent_type w)) = ThreadLog.steps log ++ pre /\ length pre <= 1.
Proof using Hkey roundtrip HL HClock.
  intros Hv Hh Hr. unfold found, ctx_preflight.
  pose proof (clock_contents w) as Ht1. pose proof (clock_valid w Hv) as Ht2.
  destruct (now_iso w) as [ts w1]; cbn [fst snd] in *.
  destruct (owns_new key w1 log) as [Ho El]; [done|by rewrite Ht1|done|].
  pose proof (preflight_owns scope ks thread_id key Hkey roundtrip ts agent_type (Some suite) "preflight" _ Ho) as Hp.
  destruct (ensure_preflight_phase_step _ _ _ _ _ _ _ _) as [r s1]. rewrite El in Hp. cbn in Hp. cbn [snd].
  destruct Hp as (Ho1 & O1 & pre & E1 & Hlen). rewrite Ht1 in O1.
  destruct (owns_new key (storage s1) (thread_log key s1)) as [Ho2 E2]; [apply (owns_storage key s1 Ho1)..|].
  unfold logged_steps. pose proof (get_owns scope ks thread_id key Hkey _ Ho2) as [Ho3 S3].
  destruct (get scope ks thread_id (ThreadStore.new (storage s1))) as [[log'|e] s3]; cbn [snd] in *;
    rewrite (thread_log_same key _ _ S3), E2, S3; eauto.
Qed.

(** A completed message is recorded once.  When the agent of a message is the
    agent loop over the thread and its run completes, the handler answers with
    the completion's frame and the thread is left with the log it had, at most
    one step for the first phase, what the run logged, and the completion as
    its last step: recording the frame adds no second one.  The thread's result
    is that of the run, and no other object of the storage has changed. *)
Theorem a_completed_message_is_recorded_once (suite agent_type : string) prepare setup fuel (h : H) result
    (w : St) log w2 :
  valid w -> holds ((contents w : gmap string string) !! key) log -> readable log ->
  (ctx_preflight scope ks thread_id agent_type suite w).1 = Ok tt ->
  (forall s, prepare s = (Ok setup, s)) ->
  loop fuel setup {| host := h; stored := found suite agent_type w |}
    = Some (Some (Ok (RunOutcome.Complete thread_id result)), w2) ->
  run_agent setup (found suite agent_type w) = (Ok (RunOutcome.Complete thread_id result), stored w2) ->
  exists w' log' pre new ts,
    handle_message scope ks run_agent suite thread_id agent_type prepare w = (Some (Ok [completion result]), w') /\
    valid w' /\ holds ((contents w' : gmap string string) !! key) log' /\
    ThreadLog.steps log' = ThreadLog.steps log ++ pre ++ new ++ [complete_step ctx result ts] /\ length pre <= 1 /\
    ThreadLog.result log' = Some result /\
    only_key key (contents w) (contents w').
Proof using Hkey roundtrip Hstore Htid Htools HL HClock.
  intros Hv Hh Hr Hpre Hprep Hloop Hagent.
  destruct (found_owns suite agent_type w log Hv Hh Hr) as (Ho & O1 & pre & E1 & Hlen).
  pose proof (run_extends scope ks thread_id key Hkey roundtrip race env hash_args ctx tools Hstore Htid Htools
    _ _ _ _ _ _ _ _ Hloop Ho) as (Ho2 & _ & O2).
  destruct (run_completes_log scope ks thread_id key Hkey roundtrip race env hash_args ctx tools Hstore Htid Htools
    _ _ _ _ _ {| host := h; stored := found suite agent_type w |} _ _ _ Ho Hloop) as (_ & _ & Hres & new & ts & E2).
  cbn [stored] in O2, E2. pose proof (owns_storage key _ Ho2) as (V2 & H2 & R2).
  destruct (record_known_frame agent_type (completion result) (storage (stored w2)) _ V2 H2 R2) as (w' & Er & V' & C').
  { intros ts'. rewrite E2, app_assoc. apply completion_is_told. }
  exists w', (thread_log key (stored w2)), pre, new, ts. split_and!; try done.
  - unfold handle_message, prog_bind at 1, prog_act.
    unfold found in Hagent. destruct (ctx_preflight scope ks thread_id agent_type suite w) as [r w1]. cbn [fst snd] in *.
    subst r. cbn [res_map_err]. unfold prog_bind at 1. rewrite run_suite_one_turn. unfold prog_act, one_turn.
    rewrite Hprep, Hagent. cbn [run_frames res_map_err]. unfold prog_bind, prog_act. fold (completion result). by rewrite Er.
  - by rewrite C'.
  - by rewrite E2, E1, <- app_assoc.
  - unfold only_key in *. rewrite C'. congruence.
Qed.
End messages.
