(* ===== verification/RegisteredSuites.v ===== *)
(** * The registered example suites

    The suites of [src/src/suites] as values of the [Suite] trait, the registry
    a server builds of them, and what an execution of the API comes to when
    the agent behind the suite is the agent loop over the thread store. *)

From stdpp Require Import base list strings gmap.
From Stdlib Require Import ZArith Lia.
From S2P Require Import Prelude.
From S2P Require Import RustStr.
From S2P Require Import Json.
From S2P Require Import Errors.
From S2P Require Import Scope.
From S2P Require Import Budget.
From S2P Require Import Storage.
From S2P Require Import MemoryStorage.
From S2P Require Import Caching.
From S2P Require Import SessionTypes.
From S2P Require Import Samples.
From S2P Require Import ThreadStore.
From S2P Require Import ThreadStoreShared.
From S2P Require Import ThreadStoreOwned.
From S2P Require Import Observed.
From S2P Require Import ErrorContext.
From S2P Require Import JsonRepair.
From S2P Require Import Schema.
From S2P Require Import Tools.
From S2P Require Import Transcript.
From S2P Require Import Llm.
From S2P Require Import Redaction.
From S2P Require Import Observability.
From S2P Require Import Gateway.
From S2P Require Import Parsing.
From S2P Require Import AgentLoop.
From S2P Require Import AgentLaws.
From S2P Require Import Suites.
From S2P Require Import AgentRuns.
From S2P Require Import StoredThread.
From S2P Require Import Workflow.
From S2P Require Import Dates.
From S2P Require Import Analysis.
From S2P Require Import ExampleSuites.
From S2P Require Import SuiteDebugger.
From S2P Require Import Config.
From S2P Require Import Execute.
From S2P Require Import StoredRuns.

Section suites.
Context {W K : Type} `{HSt : !StorageAdapter W, HT : !Timer W, HK : !Keyspace K,
  HC : !Codec ThreadLog.t, HU : !UtcClock W, HR : !ToRfc3339, HLow : !UnicodeLower}.
Variable keyspace : K.
(** The agent's run, in the context of a request and a thread. *)
Variable run_agent : RequestCtx -> string -> AgentRun -> ThreadStore W -> Result RunOutcome.t CoreError.t * ThreadStore W.

(** A message's handler: the runner has fuel for it ([messages_answer]), so it
    has a result. *)
Definition answer {A} (m : Prog W string A) : Act W string A :=
  fun w => match m w with (Some r, w') => (r, w') | (None, w') => (Err EmptyString, w') end.

(** A handler in the context of a request. *)
Definition handler (h : RequestCtx -> string -> string -> string -> Prog W string (list FlowFrame.t))
  (thread_id question agent_type : string) : Act (RequestCtx * W) string (list FlowFrame.t) :=
  fun '(c, w) => let '(r, w) := answer (h c thread_id question agent_type) w in (r, (c, w)).

(** ** The document review *)

Definition review_tools (extract assess : Value -> Act (ThreadStore W) string Value) : list (Tool (ThreadStore W)) := [
  {| tool_name := "extract_text";
     description := "Download and extract text from a document in storage. args: {s3_key, content_type}.";
     max_output_bytes := MAX_OUTPUT_BYTES; tool_call := extract |};
  {| tool_name := "assess_requirement";
     description := "Assess whether extracted text satisfies a requirement. args: {extracted_text, requirement_label, "
       +:+ "requirement_description, question_prompt}.";
     max_output_bytes := MAX_OUTPUT_BYTES; tool_call := assess |}].

(** [registry.register(..).expect(..)], twice. *)
Definition review_registry (extract assess : Value -> Act (ThreadStore W) string Value)
  : option (ToolRegistry (W := ThreadStore W)) := res_ok (register_all (review_tools extract assess) registry_new).

Definition review_on_message (registry : ToolRegistry (W := ThreadStore W)) (c : RequestCtx)
  (thread_id question agent_type : string) : Prog W string (list FlowFrame.t) :=
  review_handle (ctx_scope c) keyspace (run_agent c thread_id) registry thread_id question agent_type.

Definition GogglesReviewSuite (registry : ToolRegistry (W := ThreadStore W)) : Suite (RequestCtx * W) := {|
  suite_id := "goggles_review";
  label := "Goggles Document Review";
  supported_agent_types := ["goggles_review"];
  default_agent_type := "goggles_review";
  Suites.phase_order _ := [];
  initial_phase := "preflight";
  load_ws_plans _ := act_ret [];
  handle_new := handler (review_on_message registry);
  handle_open := handler (review_on_message registry);
  handle_user := handler (review_on_message registry)
|}.

(** ** The knowledge base *)

Variable env : string -> option string.

Definition kb_on_message (tools : RequestCtx -> Result (ToolRegistry (W := ThreadStore W)) string) (c : RequestCtx)
  (thread_id question agent_type : string) : Prog W string (list FlowFrame.t) :=
  kb_handle (ctx_scope c) keyspace (run_agent c thread_id) env (tools c) thread_id question agent_type.

Definition KbSuite (tools : RequestCtx -> Result (ToolRegistry (W := ThreadStore W)) string) : Suite (RequestCtx * W) := {|
  suite_id := "kb";
  label := "KB";
  supported_agent_types := ["kb"];
  default_agent_type := "kb";
  Suites.phase_order _ := [];
  initial_phase := "preflight";
  load_ws_plans _ := act_ret [];
  handle_new := handler (kb_on_message tools);
  handle_open := handler (kb_on_message tools);
  handle_user := handler (kb_on_message tools)
|}.

(** ** The debugger *)

Section debugger.
Context `{HAl : !UnicodeAlnum, HP : !Rfc3339, HI : !HashIter}.
(** What [SuiteDebugger] leaves as arguments; the capabilities are those of
    the request's context. *)
Variables (fmt_seconds : Z -> string) (cfg : RequestCtx -> option SuiteDebuggerConfig)
  (cap : RequestCtx -> option RequestScope) (providers : RequestCtx -> option DebugRegistry.t)
  (summary_json : ThreadSummary -> option string)
  (tools : RequestCtx -> Result (ToolRegistry (W := ThreadStore W)) string).

Definition debugger_on_message (c : RequestCtx) (thread_id question agent_type : string)
  : Prog W string (list FlowFrame.t) :=
  debugger_handle fmt_seconds (ctx_scope c) keyspace (run_agent c thread_id) (cfg c) (cap c) (providers c)
    summary_json (tools c) thread_id question agent_type.

Definition DebuggerSuite : Suite (RequestCtx * W) := {|
  suite_id := "suite_debugger";
  label := "Suite Debugger";
  supported_agent_types := ["suite_debugger"];
  default_agent_type := "suite_debugger";
  Suites.phase_order _ := [];
  initial_phase := "preflight";
  load_ws_plans _ := act_ret [];
  handle_new := handler debugger_on_message;
  handle_open := handler debugger_on_message;
  handle_user := handler debugger_on_message
|}.
End debugger.
End suites.

(** ** Every message is answered *)

Section answers.
Context {W K : Type} `{HSt : !StorageAdapter W, HT : !Timer W, HK : !Keyspace K,
  HC : !Codec ThreadLog.t, HU : !UtcClock W, HR : !ToRfc3339, HLow : !UnicodeLower}.
Variables (scope : RequestScope) (ks : K).
Variable run_agent : AgentRun -> ThreadStore W -> Result RunOutcome.t CoreError.t * ThreadStore W.

(** The runner never lacks fuel. *)
Lemma messages_answer suite thread_id agent_type prepare (w : W) :
  exists r w', handle_message scope ks run_agent suite thread_id agent_type prepare w = (Some r, w').
Proof.
  unfold handle_message, prog_bind, prog_act.
  destruct (ctx_preflight scope ks thread_id agent_type suite w) as [[[]|e] w1]; cbn [res_map_err]; [|by eauto].
  rewrite run_suite_one_turn. unfold prog_act.
  destruct (one_turn scope ks run_agent thread_id prepare w1) as [[frames|e] w2]; cbn [res_map_err]; [|by eauto].
  destruct (record_flow_frames scope ks thread_id agent_type frames w2) as [[[]|e] w3]; cbn [res_map_err]; eauto.
Qed.
End answers.

(** An execution whose handler returns. *)
Lemma handled_executions {W} (registry : SuiteRegistry (RequestCtx * W)) base uuid q suite tid agent ctx w frames w' :
  Registry.get registry (eq_suite_id q) = Some suite ->
  resolve_thread_id uuid q = Ok tid -> resolve_agent_type suite (eq_agent_type q) = Ok agent ->
  request_suite_ctx base (eq_context q) = Ok ctx ->
  action_handler suite (eq_action q) tid (eq_question q) agent (ctx, w) = (Ok frames, (ctx, w')) ->
  execute_request registry base uuid q w =
    (Ok {| er_thread_id := tid; er_agent_type := agent; er_frames := map protocol_flow_frame frames |}, w').
Proof.
  intros Hs Ht Ha Hc Hh. unfold execute_request. rewrite bind_lift, Hs, bind_lift, Ht, bind_lift, Ha, bind_lift, Hc.
  unfold act_bind, act_map_err, in_ctx, act_ret. by rewrite Hh.
Qed.

(** ** Executions over stored threads *)

Section executions.
Context {St K H : Type} `{HSd : !Serde, HSt : !StorageAdapter St, HV : !StorageView St,
  HL : !StorageLaws St, HT : !Timer St, HK : !Keyspace K, HC : !Codec ThreadLog.t, HRun : !Runtime H}.
Context `{HSha : !Sha256, HLow : !UnicodeLower, HUp : !UnicodeUpper, HStream : !JsonStream,
  HVal : !DeserializeOwned Value, HStep : !DeserializeOwned AgentStepV1, HTools : !SchemaTools,
  HJ : !JsonDisplay, HP : !JsonPretty}.
Context `{HU : !UtcClock St, HRfc : !ToRfc3339} (times : string -> Prop) `{HClock : !ClockOf St times}.
Variables (ks : K) (thread_id key : string) (rctx : RequestCtx).
Notation scope := (ctx_scope rctx).
Hypothesis Hkey : thread_store_key scope ks thread_id = Ok key.
Hypothesis roundtrip : forall log b, encode_log log = Some b -> decode_log b = Some log.

(** The agent of the review is the loop over the thread. *)
Variable race : string -> Value -> Z -> Hosted St H -> Raced unit * Hosted St H.
Variable env : string -> option string.
Variable hash_args : Value -> Z.
Variable actx : AgentCtx.
Variable tools : @ToolRegistry (Hosted St H).
Hypothesis Hstore : ctx_has_store actx = true.
Hypothesis Htid : ctx_thread_id actx = Some thread_id.
Hypothesis Htools : only_log key race tools.
Variable run_agent : RequestCtx -> string -> AgentRun -> ThreadStore St -> Result RunOutcome.t CoreError.t * ThreadStore St.
Variables (registry : SuiteRegistry (RequestCtx * St)) (base : RequestCtx).

(** What is left by an execution of [q] on the suite [id] that completes with
    [result]: the answer, and the thread in storage. *)
Definition recorded_execution uuid (q : ExecuteRequest) (id : string) (result : ThreadResult) (w : St) log : Prop :=
  exists w' log' pre new ts,
    execute_request registry base uuid q w =
      (Ok {| er_thread_id := thread_id; er_agent_type := id;
             er_frames := [Wire.Complete (tr_kind result) (tr_payload result) (tr_display result)] |}, w') /\
    valid w' /\ holds ((contents w' : gmap string string) !! key) log' /\
    ThreadLog.steps log' = ThreadLog.steps log ++ pre ++ new ++ [complete_step actx result ts] /\ length pre <= 1 /\
    ThreadLog.result log' = Some result /\
    only_key key (contents w) (contents w').

(** The agent's run of a message, and that it completes. *)
Definition agent_completes (id : string) (setup : AgentRun) fuel (h : H) (result : ThreadResult) (w : St) w2 : Prop :=
  let thread := found scope ks thread_id id id w in
  loop scope ks thread_id key race env hash_args actx tools fuel setup {| host := h; stored := thread |}
    = Some (Some (Ok (RunOutcome.Complete thread_id result)), w2) /\
  run_agent rctx thread_id setup thread = (Ok (RunOutcome.Complete thread_id result), stored w2).

(** A request of the thread that its suite takes. *)
Record accepted (uuid : string) (q : ExecuteRequest) (id : string) : Prop := {
  acc_suite : eq_suite_id q = id;
  acc_thread : resolve_thread_id uuid q = Ok thread_id;
  acc_agent : default id (nonblank (eq_agent_type q)) = id;
  acc_context : request_suite_ctx base (eq_context q) = Ok rctx
}.

Lemma messages_are_recorded id suite prepare setup uuid q fuel (h : H) result (w : St) log w2 :
  Registry.get registry id = Some suite -> supported_agent_types suite = [id] -> default_agent_type suite = id ->
  (forall w r w', handle_message scope ks (run_agent rctx thread_id) id thread_id id prepare w = (Some r, w') ->
    action_handler suite (eq_action q) thread_id (eq_question q) id (rctx, w) = (r, (rctx, w'))) ->
  (forall s, prepare s = (Ok setup, s)) ->
  accepted uuid q id ->
  valid w -> holds ((contents w : gmap string string) !! key) log -> readable log ->
  (ctx_preflight scope ks thread_id id id w).1 = Ok tt ->
  agent_completes id setup fuel h result w w2 ->
  recorded_execution uuid q id result w log.
Proof using Hkey roundtrip Hstore Htid Htools HL HClock.
  intros Hs Hsup Hdef Hact Hprep [Hq Ht Ha Hc] Hv Hh Hr Hpre [Hloop Hagent].
  destruct (a_completed_message_is_recorded_once times scope ks thread_id key Hkey roundtrip race env hash_args actx tools
    Hstore Htid Htools (run_agent rctx thread_id) id id prepare setup
    fuel h result w log w2 Hv Hh Hr Hpre Hprep Hloop Hagent)
    as (w' & log' & pre & new & ts & Hm & Hrest).
  exists w', log', pre, new, ts. split; [|exact Hrest].
  apply (handled_executions registry base uuid q suite _ _ rctx _ [completion result]);
    [by rewrite Hq|done| |done|by apply Hact].
  unfold resolve_agent_type. rewrite Hsup, Hdef, Ha. cbn. by rewrite String.eqb_refl.
Qed.

(** C6: An execution is on record.  A request to the review suite, be it new, open
    or user, whose agent's run over the stored thread completes is answered
    with exactly the completion's frame, for the thread and the agent it
    resolved.  The thread it leaves in storage has the log from before, at
    most one step for the first phase, what the run logged, and the completion
    once, as its last step, with the result of the run; no other object of the
    storage has changed. *)
Theorem executions_are_on_record review_reg uuid (q : ExecuteRequest) fuel (h : H) result (w : St) log w2 :
  let id := "goggles_review" in
  Registry.get registry id = Some (GogglesReviewSuite ks run_agent review_reg) ->
  accepted uuid q id ->
  valid w -> holds ((contents w : gmap string string) !! key) log -> readable log ->
  (ctx_preflight scope ks thread_id id id w).1 = Ok tt ->
  agent_completes id (review_setup review_reg thread_id (eq_question q)) fuel h result w w2 ->
  recorded_execution uuid q id result w log.
Proof using Hkey roundtrip Hstore Htid Htools HL HClock.
  intros id Hs. apply (messages_are_recorded id (GogglesReviewSuite ks run_agent review_reg) (review_prepare review_reg thread_id (eq_question q))); try done.
  subst id. intros w0 r w' E. assert (handler (review_on_message ks run_agent review_reg) thread_id (eq_question q) "goggles_review" (rctx, w0)
    = (r, (rctx, w'))) as Ea; [|by destruct (eq_action q)].
  unfold handler, answer, review_on_message, review_handle. rewrite String.eqb_refl. cbn [negb]. by rewrite E.
Qed.

(** So is one of the knowledge base, where its tools can be built. *)
Theorem kb_executions_are_on_record kb_env kb_tools kb_reg uuid (q : ExecuteRequest) fuel (h : H) result (w : St) log w2 :
  let id := "kb" in
  Registry.get registry id = Some (KbSuite ks run_agent kb_env kb_tools) -> kb_tools rctx = Ok kb_reg ->
  accepted uuid q id ->
  valid w -> holds ((contents w : gmap string string) !! key) log -> readable log ->
  (ctx_preflight scope ks thread_id id id w).1 = Ok tt ->
  agent_completes id (kb_setup kb_env kb_reg thread_id (eq_question q)) fuel h result w w2 ->
  recorded_execution uuid q id result w log.
Proof using Hkey roundtrip Hstore Htid Htools HL HClock.
  intros id Hs Ht. apply (messages_are_recorded id (KbSuite ks run_agent kb_env kb_tools) (kb_prepare kb_env (kb_tools rctx) thread_id (eq_question q))); try done.
  - subst id. intros w0 r w' E. assert (handler (kb_on_message ks run_agent kb_env kb_tools) thread_id (eq_question q) "kb" (rctx, w0)
      = (r, (rctx, w'))) as Ea; [|by destruct (eq_action q)].
    unfold handler, answer, kb_on_message, kb_handle, kb_validate_agent_type. rewrite String.eqb_refl.
    unfold prog_bind at 1, prog_act at 1, act_lift. cbn [res_map_err]. by rewrite E.
  - intros s. unfold kb_prepare. by rewrite Ht.
Qed.
End executions.

(** ** A server with the three suites *)

Module Served.
Import OneStep Traced.
#[export] Existing Instances still_clock one_date.

Definition base : RequestCtx := {| ctx_scope := sample_scope; ctx_resolved_config := None; ctx_request := None |}.

Definition request : ExecuteRequest :=
  {| eq_suite_id := "goggles_review"; eq_action := New; eq_thread_id := Some " x "; eq_agent_type := None;
     eq_question := "Is the deed signed?"; eq_context := None |}.

(** The review's tools; the run below completes without calling one. *)
Definition no_call (_ : Value) : Act (ThreadStore InMemoryStorageAdapter) string Value := act_err "unused".
Definition review_reg : ToolRegistry (W := ThreadStore InMemoryStorageAdapter) :=
  default registry_new (review_registry no_call no_call).
Definition setup : AgentRun := review_setup review_reg "x" (eq_question request).

Definition phase_step : ThreadStep.t :=
  ThreadStep.Phase "preflight" None (Some "thread_started") (Some (VObject [("suite_id", VString "goggles_review")]))
    Observation.success "t" "goggles_review".

(** The scripted run after the first phase, for the codec. *)
Definition trace : list ThreadStep.t :=
  match run_until_block Scripted.env (fun _ => 0%Z) Traced.ctx (∅ : @ToolRegistry Scripted.World) DefaultPolicy 11
          (run_system_prompt setup) (run_tools_card setup) (run_question setup) (run_options setup)
          {| Scripted.w_meter := BudgetMeter.new STANDARD; Scripted.w_cancelled := false;
             Scripted.w_caches := no_caches; Scripted.w_log := [phase_step];
             Scripted.w_replies := [Ok OneStep.text] |} with
  | Some (_, w) => steps_of w
  | None => []
  end.

#[export] Instance codec : Codec ThreadLog.t := TraceCodec.codec trace.

Definition surroundings : Scripted.World := Scripted.start [Ok OneStep.text].

Definition run_loop : nat -> AgentRun -> Traced.World -> option (option AgentLoop.Verdict * Traced.World) :=
  loop sample_scope Local "x" Traced.key Traced.no_race Scripted.env (fun _ => 0%Z) Traced.ctx ∅.

Definition run_agent (_ : RequestCtx) (_ : string) (setup : AgentRun) (s : ThreadStore InMemoryStorageAdapter)
  : Result RunOutcome.t CoreError.t * ThreadStore InMemoryStorageAdapter :=
  match run_loop 11 setup {| host := surroundings; stored := s |} with
  | Some (Some r, w) => (r, stored w)
  | _ => (Err (CoreError.Agent "stopped"), s)
  end.

Section server.
Context {W K : Type} `{HSt : !StorageAdapter W, HT : !Timer W, HK : !Keyspace K,
  HC : !Codec ThreadLog.t, HU : !UtcClock W, HR : !ToRfc3339, HLow : !UnicodeLower,
  HAl : !UnicodeAlnum, HP : !Rfc3339, HI : !HashIter}.

(** The registry of a server that offers all three. *)
Definition registry (ks : K) run_agent review_reg env kb_tools fmt_seconds cfg cap providers summary_json debug_tools
  : SuiteRegistry (RequestCtx * W) :=
  Registry.register (GogglesReviewSuite ks run_agent review_reg)
    (Registry.register (KbSuite ks run_agent env kb_tools)
       (Registry.register
          (DebuggerSuite ks run_agent fmt_seconds cfg cap providers summary_json debug_tools) Registry.new)).

(** [GET /api/suites] lists the three, by their ids. *)
Example three_suites_are_listed ks ra rr env kt fs cfg cap ps sj dt :
  list_suites (registry ks ra rr env kt fs cfg cap ps sj dt) =
    [{| sd_id := "goggles_review"; sd_label := "Goggles Document Review"; sd_default_agent_type := "goggles_review";
        sd_supported_agent_types := ["goggles_review"] |};
     {| sd_id := "kb"; sd_label := "KB"; sd_default_agent_type := "kb"; sd_supported_agent_types := ["kb"] |};
     {| sd_id := "suite_debugger"; sd_label := "Suite Debugger"; sd_default_agent_type := "suite_debugger";
        sd_supported_agent_types := ["suite_debugger"] |}].
Proof.
  assert (forall a b c : Suite (RequestCtx * W),
    suite_id a = "goggles_review" -> suite_id b = "kb" -> suite_id c = "suite_debugger" ->
    list_suites (Registry.register a (Registry.register b (Registry.register c Registry.new)))
      = [descriptor a; descriptor b; descriptor c]) as H.
  { intros a b c Ha Hb Hc. unfold Registry.register. rewrite Ha, Hb, Hc. vm_compute. reflexivity. }
  unfold registry. by rewrite H.
Qed.
End server.

Definition reviews : SuiteRegistry (RequestCtx * InMemoryStorageAdapter) :=
  Registry.register (GogglesReviewSuite Local run_agent review_reg) Registry.new.

Definition empty : InMemoryStorageAdapter := (∅ : InMemoryStorageAdapter).
Definition before : ThreadStore InMemoryStorageAdapter :=
  found sample_scope Local "x" "goggles_review" "goggles_review" empty.

Lemma reviews_registered :
  Registry.get reviews "goggles_review" = Some (GogglesReviewSuite Local run_agent review_reg).
Proof. apply (lookup_insert_eq (M := gmap string)). Qed.

Lemma accepted_request : accepted "x" base base "uuid" request "goggles_review".
Proof. by split. Qed.
End Served.
Import OneStep Traced Served.

Lemma executions_are_on_record_witness :
  exists result w2,
    agent_completes Local "x" Traced.key Served.base Traced.no_race Scripted.env (fun _ => 0%Z) Traced.ctx ∅ Served.run_agent
      "goggles_review" Served.setup 11 Served.surroundings result Served.empty w2 /\
    recorded_execution "x" Traced.key Traced.ctx Served.reviews Served.base "uuid" Served.request "goggles_review"
      result Served.empty ThreadLog.default.
Proof.
  assert (match run_loop 11 Served.setup {| host := Served.surroundings; stored := Served.before |} with
          | Some (Some (Ok (RunOutcome.Complete t _)), _) => String.eqb t "x"
          | _ => false
          end = true) as Hc by (vm_compute; reflexivity).
  destruct (run_loop 11 Served.setup {| host := Served.surroundings; stored := Served.before |})
    as [[[[[t result|tid kind prompt]|e]|] w2]|] eqn:E; try discriminate Hc.
  apply String.eqb_eq in Hc. subst t. exists result, w2.
  match goal with |- ?A /\ _ => assert A as Ha end.
  { split; [exact E|]. unfold run_agent. change (found _ _ _ _ _ _) with Served.before. by rewrite E. }
  split; [exact Ha|].
  apply (executions_are_on_record (HSd := CountCodec.serde) (HC := Served.codec) (eq "t") (HClock := still_clock_of _ _)
    Local "x" Traced.key Served.base Traced.at_key (TraceCodec.roundtrip Served.trace) Traced.no_race Scripted.env
    (fun _ => 0%Z) Traced.ctx ∅ eq_refl eq_refl Traced.no_tools_log Served.run_agent Served.reviews Served.base
    Served.review_reg "uuid" Served.request 11 Served.surroundings result Served.empty ThreadLog.default w2
    Served.reviews_registered Served.accepted_request);
    [apply map_Forall_empty|reflexivity|reflexivity|vm_compute; reflexivity|exact Ha].
Defined.
