(* ===== verification/RunLogs.v ===== *)
(** * The log of a run

    [src/src/runtime/src/thread_logs.rs]: what a run writes to its log, kept
    in a file with a temporary name until the thread is known, then renamed
    (local storage), or read back and uploaded (the others).  An open file
    follows its name when that changes; once another file has taken the name,
    what is written through it is lost to readers. *)

From stdpp Require Import base list strings gmap sets.
From Stdlib Require Import ZArith Lia.
From S2P Require Import Prelude.
From S2P Require Import RustStr.
From S2P Require Import Errors.
From S2P Require Import Scope.
From S2P Require Import Json.
From S2P Require Import Storage.
From S2P Require Import MemoryStorage.
From S2P Require Import Samples.
From S2P Require Import FileSystem.
From S2P Require Import LocalStorage.

(** ** What the logs use of [std::fs] *)

(** [OpenOptions::new().create(true).append(true).open(p)] *)
Definition open_append (p : path) (fs : Fs) : Result (path * Fs) IoError :=
  match walk fs [] p with
  | Err e => Err e
  | Ok q =>
      if decide (q ∈ dirs fs) then Err IsADirectory
      else match files fs !! q with
           | Some _ => Ok (q, fs)
           | None => Ok (q, {| files := <[q := EmptyString]> (files fs); dirs := dirs fs |})
           end
  end.

(** [file.write_all(bytes)] of a file open at [q] for appending *)
Definition append (q : path) (bytes : string) (fs : Fs) : Fs :=
  {| files := <[q := default EmptyString (files fs !! q) +:+ bytes]> (files fs); dirs := dirs fs |}.

(** [root.join(rel)] *)
Definition join_path (root : path) (rel : string) : path :=
  if starts_with rel "/" then components rel else root ++ components rel.

(** Where the file open at [at_] is once [src] has been renamed to [dst]. *)
Definition follow (src dst : path) (at_ : option path) : option path :=
  match at_ with
  | Some q => if decide (q = src) then Some dst else if decide (q = dst) then None else Some q
  | None => None
  end.

Section renaming.
(** Whether two places are on different devices. *)
Variable cross_device : path -> path -> bool.

(** [std::fs::rename] of a file, with the names it moved between. *)
Definition rename (src dst : path) (fs : Fs) : option (path * path * Fs) :=
  match walk fs [] src, walk fs [] dst with
  | Ok q, Ok r =>
      match files fs !! q with
      | Some bytes =>
          if decide (r ∈ dirs fs) then None
          else if cross_device q r then None
          else Some (q, r, {| files := <[r := bytes]> (delete q (files fs)); dirs := dirs fs |})
      | None => None
      end
  | _, _ => None
  end.
End renaming.

(** [std::fs::copy] *)
Definition copy (src dst : path) (fs : Fs) : Result Fs IoError :=
  match read fs src with Ok bytes => write dst bytes fs | Err e => Err e end.

(** ** The log *)

Inductive Mode : Type :=
| Local (root_dir : path)
| Buffered.

(** [Inner]; [file] is where the open file is found. *)
Record RunThreadLogs : Type := {
  mode : Mode;
  log_scope : RequestScope;
  tmp_path : path;
  file : option path;
  bound_thread_id : option string
}.

(** The directory [new_local] makes for a scope. *)
Definition logs_dir (root : path) (scope : RequestScope) : path :=
  join_path (join_path (join_path root (trim (tenant_str (tenant scope))))
    (trim (workspace_str (workspace scope)))) (trim (project_str (project_id scope))) ++ ["logs"].

Section logs.
Variable io_text : IoError -> string.
Variable cross_device : path -> path -> bool.

Definition new_local (root : path) (scope : RequestScope) (uuid : string) (fs : Fs)
  : Result (RunThreadLogs * Fs) string :=
  let dir := logs_dir root scope in
  match create_dir_all [] dir fs with
  | Err e => Err (io_text e)
  | Ok fs =>
      let tmp := dir ++ [".run_tmp_" +:+ uuid +:+ ".log"] in
      match open_append tmp fs with
      | Err e => Err (io_text e)
      | Ok (q, fs) =>
          Ok ({| mode := Local root; log_scope := scope; tmp_path := tmp; file := Some q; bound_thread_id := None |}, fs)
      end
  end.

Definition new_buffered (temp_dir : path) (scope : RequestScope) (uuid : string) (fs : Fs)
  : Result (RunThreadLogs * Fs) string :=
  let tmp := temp_dir ++ ["react-run-" +:+ uuid +:+ ".log"] in
  match open_append tmp fs with
  | Err e => Err (io_text e)
  | Ok (q, fs) =>
      Ok ({| mode := Buffered; log_scope := scope; tmp_path := tmp; file := Some q; bound_thread_id := None |}, fs)
  end.

(** [RunThreadLogWriter::write] *)
Definition write_log (bytes : string) (l : RunThreadLogs) (fs : Fs) : Fs :=
  match file l with Some q => append q bytes fs | None => fs end.

Definition write_logs (texts : list string) (l : RunThreadLogs) (fs : Fs) : Fs :=
  fold_left (fun fs bytes => write_log bytes l fs) texts fs.

Definition bound (l : RunThreadLogs) (thread_id : string) : RunThreadLogs :=
  {| mode := mode l; log_scope := log_scope l; tmp_path := tmp_path l; file := file l;
     bound_thread_id := Some thread_id |}.

Definition moved (l : RunThreadLogs) (src dst : path) : RunThreadLogs :=
  {| mode := mode l; log_scope := log_scope l; tmp_path := tmp_path l; file := follow src dst (file l);
     bound_thread_id := bound_thread_id l |}.

Context {K : Type} `{HK : !Keyspace K}.

(** The directory of the final name, then the name itself. *)
Definition place (final : path) (l : RunThreadLogs) (fs : Fs) : Result unit string * RunThreadLogs * Fs :=
  match match parent final with Some d => create_dir_all [] d fs | None => Ok fs end with
  | Err e => (Err (io_text e), l, fs)
  | Ok fs =>
      match rename cross_device (tmp_path l) final fs with
      | Some (q, r, fs) => (Ok tt, moved l q r, fs)
      | None =>
          match copy (tmp_path l) final fs with
          | Ok fs => (Ok tt, l, fs)
          | Err e => (Err (io_text e), l, fs)
          end
      end
  end.

Definition bind_thread_id (keyspace : K) (thread_id : string) (l : RunThreadLogs) (fs : Fs)
  : Result unit string * RunThreadLogs * Fs :=
  if decide (bound_thread_id l = Some thread_id) then (Ok tt, l, fs)
  else
    let l := bound l thread_id in
    match mode l with
    | Buffered => (Ok tt, l, fs)
    | Local root =>
        match thread_log_key keyspace (log_scope l) thread_id with
        | Err e => (Err (CoreError.display e), l, fs)
        | Ok key => place (join_path root key) l fs
        end
    end.

Context {W : Type} `{HSt : !StorageAdapter W}.

Definition upload_snapshot (keyspace : K) (thread_id : string) (l : RunThreadLogs) (fs : Fs) (w : W)
  : Result unit string * W :=
  match thread_log_key keyspace (log_scope l) thread_id with
  | Err e => (Err (CoreError.display e), w)
  | Ok key =>
      match read fs (tmp_path l) with
      | Err e => (Err (io_text e), w)
      | Ok bytes =>
          if str_is_empty bytes then (Ok tt, w)
          else let '(r, w) := put_bytes key bytes "text/plain" w in (res_map_err CoreError.display r, w)
      end
  end.

(** What the background task does each time it wakes, until it is stopped. *)
Definition upload_tick (keyspace : K) (l : RunThreadLogs) (stopped : bool) (fs : Fs) (w : W) : W :=
  match mode l with
  | Local _ => w
  | Buffered =>
      if stopped then w
      else match bound_thread_id l with
           | Some tid => (upload_snapshot keyspace tid l fs w).2
           | None => w
           end
  end.

Definition upload_if_needed (keyspace : K) (thread_id : string) (l : RunThreadLogs) (fs : Fs) (w : W)
  : Result unit string * RunThreadLogs * Fs * W :=
  let '(_, l, fs) := bind_thread_id keyspace thread_id l fs in
  match mode l with
  | Local _ => (Ok tt, l, fs, w)
  | Buffered => let '(r, w) := upload_snapshot keyspace thread_id l fs w in (r, l, fs, w)
  end.
End logs.

(** ** Laws of the file system *)

Lemma fs_ok_insert fs d n b :
  fs_ok fs -> d ∈ dirs fs -> d ++ [n] ∉ dirs fs ->
  fs_ok {| files := <[d ++ [n] := b]> (files fs); dirs := dirs fs |}.
Proof.
  intros [O1 O2 O3 O4] Hd Hn. split; cbn; [done| |done|].
  - intros p m [c Hc]. apply lookup_insert_Some in Hc as [[E _]|[_ Hc]]; [|eapply O2; by eexists].
    by apply app_inj_2 in E as [<- _].
  - intros p Hp. rewrite lookup_insert_ne by (by intros <-). by apply O4.
Qed.

Lemma fs_ok_delete fs p : fs_ok fs -> fs_ok {| files := delete p (files fs); dirs := dirs fs |}.
Proof.
  intros [O1 O2 O3 O4]. split; cbn; [done| |done|].
  - intros q n [c Hc]. apply lookup_delete_Some in Hc as [_ Hc]. eapply O2. by eexists.
  - intros q Hq. apply lookup_delete_None. right. by apply O4.
Qed.

Lemma create_dir_all_free at_ p fs fs' :
  (forall q, q ∈ dirs fs -> files fs !! q = None) -> create_dir_all at_ p fs = Ok fs' ->
  forall i, 0 < i <= length p -> files fs !! (at_ ++ take i p) = None.
Proof.
  revert at_ fs. induction p as [|c p IH]; intros at_ fs Hdis Hmk i Hi; cbn in Hi; [lia|].
  cbn [create_dir_all] in Hmk.
  enough (files fs !! (at_ ++ [c]) = None /\
          (forall j, 0 < j <= length p -> files fs !! ((at_ ++ [c]) ++ take j p) = None)) as [H0 Hj].
  { destruct i as [|[|i]]; [lia|cbn; by rewrite take_0|]. specialize (Hj (S i) ltac:(lia)).
    by rewrite <- app_assoc in Hj. }
  case_decide as Hd; [split; [by apply Hdis|by apply IH]|].
  destruct (files fs !! (at_ ++ [c])) eqn:Ef; [done|]. split; [done|].
  eapply (IH _ {| files := files fs; dirs := {[at_ ++ [c]]} ∪ dirs fs |}); [|exact Hmk].
  cbn. intros q [->%elem_of_singleton|Hq]%elem_of_union; [done|by apply Hdis].
Qed.

(** A directory that could be made is there, and nothing else has changed. *)
Lemma create_dir_all_Ok p fs fs' :
  fs_ok fs -> create_dir_all [] p fs = Ok fs' ->
  fs_ok fs' /\ files fs' = files fs /\ p ∈ dirs fs' /\ dirs fs ⊆ dirs fs'.
Proof.
  intros Hok Hmk.
  pose proof (create_dir_all_free _ _ _ _ (fs_disjoint _ Hok) Hmk) as Hfree.
  destruct (create_dir_all_clear fs [] p Hok (fs_root _ Hok) Hfree) as (fs2 & H1 & H2 & H3 & H4 & H5 & _).
  rewrite H1 in Hmk. by injection Hmk as <-.
Qed.

Lemma walk_in fs d n : fs_ok fs -> plain_path (d ++ [n]) -> d ∈ dirs fs -> walk fs [] (d ++ [n]) = Ok (d ++ [n]).
Proof.
  intros Hok [Hd Hn]%Forall_app Hin. apply Forall_cons in Hn as [Hn _].
  rewrite walk_dirs by done. cbn [walk]. by rewrite decide_True, Hn.
Qed.

Lemma open_append_fresh fs d n q fs' :
  fs_ok fs -> plain_path (d ++ [n]) -> d ∈ dirs fs -> files fs !! (d ++ [n]) = None ->
  open_append (d ++ [n]) fs = Ok (q, fs') ->
  q = d ++ [n] /\ fs' = {| files := <[d ++ [n] := EmptyString]> (files fs); dirs := dirs fs |} /\ fs_ok fs'.
Proof.
  intros Hok Hp Hd Hn. unfold open_append. rewrite (walk_in fs d n), Hn by done.
  case_decide; [done|]. intros [= <- <-]. split_and!; [done..|by apply fs_ok_insert].
Qed.

(** ** Writing *)

Lemma write_logs_file texts l fs q b :
  file l = Some q -> files fs !! q = Some b ->
  write_logs texts l fs = {| files := <[q := b +:+ concat_strings texts]> (files fs); dirs := dirs fs |}.
Proof.
  intros Hf. revert fs b. induction texts as [|t texts IH]; intros fs b Hb.
  - cbn. rewrite app_nil_r_str, insert_id by done. by destruct fs.
  - unfold write_logs in *. cbn [fold_left concat_strings]. unfold write_log at 2. rewrite Hf. unfold append. rewrite Hb. cbn [default].
    rewrite (IH _ (b +:+ t)); cbn [files dirs]; [|by rewrite lookup_insert_eq].
    by rewrite insert_insert_eq, app_assoc_str.
Qed.

(** ** Laws of the log *)

Section laws.
Variable io_text : IoError -> string.
Variable cross_device : path -> path -> bool.

Lemma new_local_fresh root scope uuid fs l fs' :
  let tmp := logs_dir root scope ++ [".run_tmp_" +:+ uuid +:+ ".log"] in
  fs_ok fs -> plain_path (logs_dir root scope) -> files fs !! tmp = None ->
  new_local io_text root scope uuid fs = Ok (l, fs') ->
  l = {| mode := Local root; log_scope := scope; tmp_path := tmp; file := Some tmp; bound_thread_id := None |} /\
  fs_ok fs' /\ files fs' = <[tmp := EmptyString]> (files fs) /\ logs_dir root scope ∈ dirs fs' /\ plain_path tmp.
Proof.
  intros tmp Hok Hp Hn. unfold new_local. destruct (create_dir_all _ _ _) as [fs1|] eqn:E1; [|done].
  apply create_dir_all_Ok in E1 as (Hok1 & Hf1 & Hd1 & _); [|done].
  assert (plain_path tmp) as Ht by (apply Forall_app; split; [done|]; repeat constructor).
  rewrite <- Hf1 in Hn. fold tmp. destruct (open_append tmp fs1) as [[q fs2]|] eqn:E2; [|done].
  eapply open_append_fresh in E2 as (-> & -> & Hok2); [|done..]. intros [= <- <-]. split_and!; try done; cbn; by rewrite Hf1.
Qed.

(** How placing a log can end: it has its final name; it was copied there and
    stays open where it was; or nothing has changed. *)
Lemma place_cases final l fs td tn b :
  let tmp := td ++ [tn] in
  fs_ok fs -> plain_path final -> tmp_path l = tmp -> plain_path tmp ->
  file l = Some tmp -> files fs !! tmp = Some b ->
  let '(r, l', fs') := place io_text cross_device final l fs in
  match r with
  | Ok _ => if cross_device tmp final then file l' = Some tmp /\ files fs' = <[final := b]> (files fs)
            else file l' = Some final /\ files fs' = <[final := b]> (delete tmp (files fs))
  | Err _ => file l' = Some tmp /\ files fs' = files fs
  end.
Proof.
  intros tmp Hok Hfp Htmp Htp Hfile Hb. unfold place.
  destruct (match parent final with Some d => _ | None => _ end) as [fs1|] eqn:Emk; [|done].
  assert (fs_ok fs1 /\ files fs1 = files fs /\ walk fs1 [] final = Ok final) as (Hok1 & Hf1 & Hw).
  { destruct (decide (final = [])) as [->|Hne]; [by injection Emk as <-|].
    destruct (exists_last Hne) as (d & n & ->). destruct (d ++ [n]) eqn:E; [done|]. rewrite <- E in *.
    cbn [parent] in Emk. replace (parent (d ++ [n])) with (Some d) in Emk.
    2:{ rewrite E. cbn [parent]. rewrite <- E. unfold up. rewrite length_app. cbn.
        by rewrite Nat.add_sub, take_app_length. }
    apply create_dir_all_Ok in Emk as (? & ? & ? & _); [|done]. split_and!; [done..|by apply walk_in]. }
  assert (td ∈ dirs fs1) as Htd by (eapply fs_file_parent; [done|]; rewrite Hf1; by eexists).
  assert (walk fs1 [] tmp = Ok tmp) as Hwt by by apply walk_in.
  unfold rename, copy, read, write. rewrite Htmp, Hwt, Hw, Hf1, Hb.
  destruct (decide (final ∈ dirs fs1)); [done|]. destruct (cross_device tmp final); [done|].
  cbn. rewrite Hfile. cbn. by rewrite decide_True.
Qed.

Context {K : Type} `{HK : !Keyspace K}.
Variable keyspace : K.

(** Binding a log again changes nothing. *)
Lemma bind_again tid l fs :
  bound_thread_id l = Some tid -> bind_thread_id io_text cross_device keyspace tid l fs = (Ok tt, l, fs).
Proof. intros H. unfold bind_thread_id. by rewrite decide_True. Qed.

Lemma place_bound final l fs : bound_thread_id (place io_text cross_device final l fs).1.2 = bound_thread_id l.
Proof. unfold place. repeat case_match; by simplify_eq. Qed.

Lemma bind_bound tid l fs :
  bound_thread_id (bind_thread_id io_text cross_device keyspace tid l fs).1.2 = Some tid.
Proof.
  unfold bind_thread_id. case_decide as H; [done|]. destruct (mode l) eqn:Em; cbn [bound mode]; rewrite Em; [|done].
  case_match; [|done]. by rewrite place_bound.
Qed.

(** C19: Nothing a run writes to its local log is lost.  If the log gets its
    name by renaming, all of it, from before the thread is known and from
    afterwards, is one file under the name of the thread's log, in order and
    whole, and none is left under the temporary name.  If the two names are on
    different devices the file is copied: then the temporary one goes on to be
    the whole log, and the thread's log stops at the binding.  If the binding
    fails, the temporary file is the whole log.  In every case no other file
    has changed, and binding the thread once more changes nothing.  (What was
    in a log of that name before, from an earlier run of the thread, is
    gone.) *)
Theorem a_local_log_is_whole root scope uuid fs l fs1 before tid key after :
  let tmp := logs_dir root scope ++ [".run_tmp_" +:+ uuid +:+ ".log"] in
  let final := join_path root key in
  fs_ok fs -> plain_path (logs_dir root scope) -> files fs !! tmp = None ->
  thread_log_key keyspace scope tid = Ok key -> plain_path final ->
  new_local io_text root scope uuid fs = Ok (l, fs1) ->
  let '(r, l2, fs2) := bind_thread_id io_text cross_device keyspace tid l (write_logs before l fs1) in
  files (write_logs after l2 fs2) =
    match r with
    | Ok _ => if cross_device tmp final
              then <[tmp := concat_strings (before ++ after)]> (<[final := concat_strings before]> (files fs))
              else <[final := concat_strings (before ++ after)]> (files fs)
    | Err _ => <[tmp := concat_strings (before ++ after)]> (files fs)
    end /\
  forall fs3, bind_thread_id io_text cross_device keyspace tid l2 fs3 = (Ok tt, l2, fs3).
Proof.
  intros tmp final Hok Hp Hn Hkey Hfp Hnew.
  pose proof (bind_bound tid l (write_logs before l fs1)) as Hbound.
  destruct (bind_thread_id _ _ _ _ _ _) as [[r l2] fs2] eqn:Hbind. cbn in Hbound.
  split; [|intros; by apply bind_again].
  eapply new_local_fresh in Hnew as (-> & Hok1 & Hf1 & Hd1 & Htp); [|done..].
  set (td := logs_dir root scope) in *. set (tn := ".run_tmp_" +:+ uuid +:+ ".log") in *.
  erewrite write_logs_file in Hbind; [|done|by rewrite Hf1, lookup_insert_eq].
  unfold bind_thread_id in Hbind. rewrite decide_False in Hbind by done. cbn [bound mode log_scope] in Hbind.
  rewrite Hkey in Hbind. fold final in Hbind. clearbody td tn final. cbn [append String.append] in Hbind.
  match type of Hbind with place _ _ _ ?l0 ?fs0 = _ =>
    pose proof (place_cases final l0 fs0 td tn (concat_strings before)) as Hc end.
  cbn zeta in Hc. rewrite Hbind in Hc. fold tmp in Hc. cbn [tmp_path file files] in Hc. rewrite concat_strings_app.
  specialize (Hc ltac:(apply fs_ok_insert; [done..|]; intros Hd; apply (fs_disjoint _ Hok1) in Hd;
                       by rewrite Hf1, lookup_insert_eq in Hd) Hfp eq_refl Htp eq_refl ltac:(by rewrite lookup_insert_eq)).
  rewrite Hf1, insert_insert_eq in Hc.
  destruct r as [[]|e]; [destruct (cross_device tmp final)|]; destruct Hc as [Hfile Hfs].
  - erewrite write_logs_file; [|exact Hfile|]; cbn [files]; rewrite Hfs.
    + destruct (decide (final = tmp)) as [->|Hne]; [by rewrite !insert_insert_eq|].
      by rewrite (insert_insert_ne _ final tmp), insert_insert_eq, (insert_insert_ne _ tmp final) by done.
    + destruct (decide (final = tmp)) as [->|Hne]; [by rewrite lookup_insert_eq|].
      by rewrite lookup_insert_ne, lookup_insert_eq by done.
  - erewrite write_logs_file; [|exact Hfile|by rewrite Hfs, lookup_insert_eq]. cbn [files].
    by rewrite Hfs, insert_insert_eq, delete_insert_eq, delete_id.
  - erewrite write_logs_file; [|exact Hfile|by rewrite Hfs, lookup_insert_eq]. cbn [files].
    by rewrite Hfs, insert_insert_eq.
Qed.

Lemma bind_mode tid l fs :
  mode (bind_thread_id io_text cross_device keyspace tid l fs).1.2 = mode l.
Proof.
  unfold bind_thread_id. case_decide; [done|]. destruct (mode l) eqn:Em; cbn [bound mode]; rewrite Em; [|exact Em].
  case_match; [|exact Em]. unfold place. repeat case_match; simplify_eq; exact Em.
Qed.

Lemma bind_buffered tid l fs :
  mode l = Buffered -> bind_thread_id io_text cross_device keyspace tid l fs = (Ok tt, bound l tid, fs).
Proof.
  intros Hm. unfold bind_thread_id. case_decide as H; [|cbn [bound mode]; by rewrite Hm].
  destruct l; cbn in *; by rewrite H.
Qed.

Context {W : Type} `{HSt : !StorageAdapter W}.

(** What an upload does with all that was written. *)
Definition upload_text (key text : string) (w : W) : Result unit string * W :=
  if str_is_empty text then (Ok tt, w)
  else let '(r, w) := put_bytes key text "text/plain" w in (res_map_err CoreError.display r, w).

(** An upload of what the file holds. *)
Lemma upload_written tid key l fs w td tn text :
  tmp_path l = td ++ [tn] -> plain_path (td ++ [tn]) -> fs_ok fs -> td ∈ dirs fs ->
  files fs !! (td ++ [tn]) = Some text -> thread_log_key keyspace (log_scope l) tid = Ok key ->
  upload_snapshot io_text keyspace tid l fs w = upload_text key text w.
Proof. intros Ht Hp Hok Hd Hf Hk. unfold upload_snapshot, read. by rewrite Hk, Ht, walk_in, Hf. Qed.

Lemma upload_if_needed_written tid key l fs w td tn text :
  mode l = Buffered -> tmp_path l = td ++ [tn] -> plain_path (td ++ [tn]) -> fs_ok fs -> td ∈ dirs fs ->
  files fs !! (td ++ [tn]) = Some text -> thread_log_key keyspace (log_scope l) tid = Ok key ->
  upload_if_needed io_text cross_device keyspace tid l fs w =
  ((upload_text key text w).1, bound l tid, fs, (upload_text key text w).2).
Proof.
  intros Hm Ht Hp Hok Hd Hf Hk. unfold upload_if_needed. rewrite bind_buffered by done. cbn [bound mode]. rewrite Hm.
  erewrite upload_written by done. by destruct (upload_text _ _ _).
Qed.

(** The log of a run over remote storage, just begun. *)
Lemma new_buffered_fresh temp_dir scope uuid fs l fs' :
  let tmp := temp_dir ++ ["react-run-" +:+ uuid +:+ ".log"] in
  fs_ok fs -> temp_dir ∈ dirs fs -> plain_path temp_dir -> files fs !! tmp = None ->
  new_buffered io_text temp_dir scope uuid fs = Ok (l, fs') ->
  l = {| mode := Buffered; log_scope := scope; tmp_path := tmp; file := Some tmp; bound_thread_id := None |} /\
  fs' = {| files := <[tmp := EmptyString]> (files fs); dirs := dirs fs |} /\ fs_ok fs' /\ plain_path tmp.
Proof.
  intros tmp Hok Hd Hp Hn. assert (plain_path tmp) as Ht by (apply Forall_app; split; [done|]; by repeat constructor).
  unfold new_buffered. fold tmp. destruct (open_append tmp fs) as [[q fs1]|] eqn:E; [|done].
  eapply open_append_fresh in E as (-> & -> & Hok1); [|done..]. intros [= <- <-]. by split_and!.
Qed.

(** What is written is in the file, wherever else directories were made. *)
Lemma write_logs_ok texts l fs td tn b :
  fs_ok fs -> td ∈ dirs fs -> file l = Some (td ++ [tn]) -> files fs !! (td ++ [tn]) = Some b ->
  fs_ok (write_logs texts l fs) /\ td ∈ dirs (write_logs texts l fs) /\
  files (write_logs texts l fs) !! (td ++ [tn]) = Some (b +:+ concat_strings texts).
Proof.
  intros Hok Hd Hf Hb. erewrite write_logs_file by done. cbn [files dirs]. rewrite lookup_insert_eq. split_and!; [|done..].
  apply fs_ok_insert; [done..|]. intros Hin. apply (fs_disjoint _ Hok) in Hin. by rewrite Hb in Hin.
Qed.

(** The log of a run over remote storage: every upload, of the background
    task and the one at the end, puts all the run has written so far, in
    order, under the key of the thread's log (and nothing at all when nothing
    was written); the task does nothing before the thread is known and after
    it is stopped; the run itself learns how the last upload went. *)
Theorem uploads_are_whole temp_dir scope uuid fs l fs1 texts tid key w :
  fs_ok fs -> temp_dir ∈ dirs fs -> plain_path temp_dir ->
  files fs !! (temp_dir ++ ["react-run-" +:+ uuid +:+ ".log"]) = None ->
  thread_log_key keyspace scope tid = Ok key ->
  new_buffered io_text temp_dir scope uuid fs = Ok (l, fs1) ->
  let fs2 := write_logs texts l fs1 in
  let put := upload_text key (concat_strings texts) w in
  upload_if_needed io_text cross_device keyspace tid l fs2 w = (put.1, bound l tid, fs2, put.2) /\
  upload_tick io_text keyspace (bound l tid) false fs2 w = put.2 /\
  upload_tick io_text keyspace (bound l tid) true fs2 w = w /\
  upload_tick io_text keyspace l false fs2 w = w.
Proof.
  intros Hok Htd Hp Hn Hkey Hnew. eapply new_buffered_fresh in Hnew as (-> & -> & Hok1 & Htp); [|done..].
  set (l := {| mode := Buffered |}). set (fs2 := write_logs texts l _).
  eapply (write_logs_ok texts l) in Hok1 as (Hok2 & Hd2 & Hf2); [|done..|by apply lookup_insert_eq]. fold fs2 in Hok2, Hd2, Hf2.
  split_and!; [by eapply upload_if_needed_written| |done..].
  cbn [upload_tick bound mode l bound_thread_id]. by erewrite upload_written by done.
Qed.

(** A binding that failed is not tried again: the thread's id has been
    recorded before, and to bind it once more is to do nothing, without an
    error. *)
Theorem a_failed_binding_is_never_retried tid l fs :
  let '(_, l', fs') := bind_thread_id io_text cross_device keyspace tid l fs in
  bind_thread_id io_text cross_device keyspace tid l' fs' = (Ok tt, l', fs').
Proof.
  pose proof (bind_bound tid l fs) as H. destruct (bind_thread_id _ _ _ _ l fs) as [[r l'] fs'].
  by apply bind_again.
Qed.
End laws.

(** ** A disk with a directory *)

Section examples.
Definition here (p q : path) : bool := false.
Definition elsewhere (p q : path) : bool := true.
Definition told (e : IoError) : string := "io".

Definition srv : path := ["srv"].
Definition begun : Result (RunThreadLogs * Fs) string := new_local told srv sample_scope "u" disk.
Definition begun_log : RunThreadLogs :=
  {| mode := Local srv; log_scope := sample_scope; tmp_path := ["srv"; "t"; "w"; "p"; "logs"; ".run_tmp_u.log"];
     file := Some ["srv"; "t"; "w"; "p"; "logs"; ".run_tmp_u.log"]; bound_thread_id := None |}.
Definition begun_disk : Fs := match begun with Ok (_, fs) => fs | Err _ => disk end.

(** The log of the thread [a], bound after two texts. *)
Definition bind_a (cross_device : path -> path -> bool) : Result unit string * RunThreadLogs * Fs :=
  bind_thread_id told cross_device Scope.Local "a" begun_log (write_logs ["one "; "two "] begun_log begun_disk).

Lemma a_local_log_is_whole_witness :
  files (write_logs ["three"] (bind_a here).1.2 (bind_a here).2) !! ["srv"; "t"; "w"; "p"; "logs"; "a.log"] =
  Some "one two three".
Proof.
  pose proof (a_local_log_is_whole told here Scope.Local srv sample_scope "u" disk begun_log begun_disk
    ["one "; "two "] "a" "t/w/p/logs/a.log" ["three"]) as H.
  specialize (H disk_ok ltac:(by vm_compute; repeat constructor) ltac:(by vm_compute) eq_refl
    ltac:(by vm_compute; repeat constructor) ltac:(by vm_compute)).
  fold (bind_a here) in H. destruct (bind_a here) as [[r l2] fs2] eqn:E. destruct H as [H _].
  assert (r = Ok tt) as -> by (revert E; vm_compute; congruence).
  cbn [fst snd]. rewrite H. by vm_compute.
Defined.

(** Where a log cannot be renamed it is copied, and the open file stays where
    it was: what is written afterwards does not reach the thread's log. *)
Theorem a_copied_log_stops_growing :
  let '(r, l, fs) := bind_a elsewhere in
  r = Ok tt /\
  files (write_logs ["three"] l fs) !! ["srv"; "t"; "w"; "p"; "logs"; "a.log"] = Some "one two " /\
  files (write_logs ["three"] l fs) !! tmp_path l = Some "one two three".
Proof. by vm_compute. Qed.

Definition begun_remote : RunThreadLogs :=
  {| mode := Buffered; log_scope := sample_scope; tmp_path := ["srv"; "react-run-u.log"];
     file := Some ["srv"; "react-run-u.log"]; bound_thread_id := None |}.
Definition begun_remote_disk : Fs :=
  {| files := <[["srv"; "react-run-u.log"] := EmptyString]> (files disk); dirs := dirs disk |}.

#[local] Existing Instance CountCodec.serde.

Lemma uploads_are_whole_witness :
  upload_tick told Scope.Local (bound begun_remote "a") false
    (write_logs ["one "; "two"] begun_remote begun_remote_disk) (∅ : InMemoryStorageAdapter) =
  (upload_text "t/w/p/logs/a.log" "one two" (∅ : InMemoryStorageAdapter)).2.
Proof.
  destruct (uploads_are_whole told here Scope.Local srv sample_scope "u" disk begun_remote begun_remote_disk
    ["one "; "two"] "a" "t/w/p/logs/a.log" (∅ : InMemoryStorageAdapter)) as (_ & H & _);
    [apply disk_ok|by vm_compute|by repeat constructor|by vm_compute|done|by vm_compute|exact H].
Defined.
End examples.
