(* ===== verification/RunEngine.v ===== *)
(** * A run from a configuration

    [src/src/runtime/src/run_engine.rs], [bootstrap.rs], [host.rs] and
    [secrets.rs]: the base context a configuration builds, and a headless run
    with its environment, its log, its terminal and its outcome.  The run
    itself is [Headless.run_headless].  What is printed and traced is left
    out; the texts that reach the log are given. *)

From stdpp Require Import base list strings gmap sets.
From Stdlib Require Import ZArith Lia.
From S2P Require Import Prelude.
From S2P Require Import RustStr.
From S2P Require Import Json.
From S2P Require Import Errors.
From S2P Require Import Scope.
From S2P Require Import Storage.
From S2P Require Import MemoryStorage.
From S2P Require Import Caching.
From S2P Require Import SessionTypes.
From S2P Require Import Samples.
From S2P Require Import ThreadStore.
From S2P Require Import ThreadStoreOwned.
From S2P Require Import ControlState.
From S2P Require Import Redaction.
From S2P Require Import Dates.
From S2P Require Import View.
From S2P Require Import Suites.
From S2P Require Import WsModels.
From S2P Require Import History.
From S2P Require Import ThreadState.
From S2P Require Import Connection.
From S2P Require Import Streaming.
From S2P Require Import StreamingLaws.
From S2P Require Import Handlers.
From S2P Require Import Headless.
From S2P Require Import FileSystem.
From S2P Require Import LocalStorage.
From S2P Require Import Config.
From S2P Require Import S3Storage.
From S2P Require Import RouterModel.
From S2P Require Import RunLogs.

(** ** The environment *)

(** [std::env::set_var] *)
Definition set_var (key value : string) (s : Settings) : Settings :=
  {| env_vars := fun k => if String.eqb k key then Some value else env_vars s k;
     resolved_config := resolved_config s; scope_preference := scope_preference s |}.

(** Sets a variable that is missing or blank. *)
Definition default_var (key value : string) (s : Settings) : Settings :=
  match env_opt (env_vars s) key with Some _ => s | None => set_var key value s end.

(** The targets kept at [info] when everything else is at [debug]. *)
Definition quiet_targets : list string :=
  ["aws_smithy_http"; "aws_smithy_http_tower"; "aws_smithy_runtime"; "aws_sdk_s3"; "aws_sdk_sts";
   "aws_sdk_athena"; "aws_sdk_glue"; "aws_config"; "tokio_tungstenite"; "tungstenite"; "lance";
   "lance_core"; "lance_io"; "lance_table"; "react_transport::ws"; "react::vector"; "h2"; "rustls";
   "tokio_rustls"; "hyper_rustls"; "hyper"; "reqwest"].

Definition init_logging (log : option string) (verbose_debug : bool) (s : Settings) : Settings :=
  let level := default "info" log in
  default_var "RUST_LOG"
    (if (String.eqb level "debug" || String.eqb level "trace") && negb verbose_debug
     then join "," (level :: map (fun t => t +:+ "=info") quiet_targets)
     else level) s.

Definition resolve_log_dir (cfg : ReactResolvedConfig) (env : string -> option string) : string :=
  match getenv_nonempty env "REACT_LOG_DIR" with
  | Some p => p
  | None =>
      match Config.mode (storage cfg), storage_path (storage cfg) with
      | StorageMode.Local, Some root => if str_is_empty root then "logs" else path_join root "logs"
      | _, _ => "./.react/logs"
      end
  end.

Definition resolve_default_suite_id {W} (registry : SuiteRegistry W) : option string :=
  head (Registry.list_ids registry).

Definition bind_runtime_scope_preference (sc : RequestScope) : Settings -> Settings :=
  set_scope_preference (tenant_str (tenant sc)) (workspace_str (workspace sc)) (project_str (project_id sc)).

(** [EnvSecretsProvider::get_secret] *)
Definition get_secret (s : Settings) (name : string) : Result (option string) string :=
  if String.eqb name "LLM_API_KEY" then Ok (Rs.llm_api_key s) else Ok (env_vars s name).

(** [registry_from_host] *)
Definition registry_from_host {W} (register_suites : SuiteRegistry W -> SuiteRegistry W) : SuiteRegistry W :=
  register_suites Registry.new.

(** ** The terminal of the process

    [SINK] is set once; the thread that draws ends with the run. *)
Inductive TerminalState : Type := NoTerminal | Drawing | Ended.

Definition terminal_init (tty : bool) (t : TerminalState) : TerminalState :=
  match t with NoTerminal => if tty then Drawing else NoTerminal | _ => t end.
Definition terminal_shutdown (t : TerminalState) : TerminalState :=
  match t with Drawing => Ended | _ => t end.
(** [terminal::enabled()] *)
Definition terminal_enabled (t : TerminalState) : bool := match t with NoTerminal => false | _ => true end.

(** ** The base context *)

(** The adapter below the cache. *)
Inductive Backing (W : Type) : Type :=
| OnDisk (base : path)
| OnBucket (adapter : S3StorageAdapter W).
Arguments OnDisk {W} base.
Arguments OnBucket {W} adapter.

Inductive BaseKeyspace : Type := KsLocal (k : LocalKeyspace) | KsDefault (k : DefaultKeyspace).

(** What of [SuiteCtx] the bootstrap fills in. *)
Record BaseCtx (W : Type) : Type := {
  bc_storage : Backing W;
  bc_llm : LlmConfig;
  bc_scope : RequestScope;
  bc_keyspace : BaseKeyspace;
  bc_config : option ReactResolvedConfig
}.
Arguments bc_storage {W} _.
Arguments bc_llm {W} _.
Arguments bc_scope {W} _.
Arguments bc_keyspace {W} _.
Arguments bc_config {W} _.

Section bootstrap.
Variable io_text : IoError -> string.
(** The current directory. *)
Variable cwd : path.
Context {W : Type}.

Definition base_ctx (cfg : ReactResolvedConfig) (s : Settings) (b : Backing W) (k : BaseKeyspace) : BaseCtx W :=
  {| bc_storage := b; bc_llm := config_from_resolved s cfg; bc_scope := scope cfg; bc_keyspace := k;
     bc_config := Some cfg |}.

Definition build_base_suite_ctx (cfg : ReactResolvedConfig) (s : Settings) (w : W) (fs : Fs)
  : Result (BaseCtx W) string * Fs :=
  match Config.mode (storage cfg) with
  | StorageMode.Local =>
      match storage_path (storage cfg) with
      | None => (Err "missing storage.path for local mode", fs)
      | Some root =>
          let base := join_path cwd root in
          match LocalStorage.new io_text base fs with
          | (Ok _, fs) => (Ok (base_ctx cfg s (OnDisk base) (KsLocal Scope.Local)), fs)
          | (Err e, fs) => (Err (CoreError.display e), fs)
          end
      end
  | StorageMode.S3 =>
      match bucket (storage cfg) with
      | None => (Err "missing storage.bucket for s3 mode", fs)
      | Some b =>
          match match s3_credentials (storage cfg) with
                | Some creds => Ok (from_resolved_credentials b creds w)
                | None => res_map_err (fun e => "R2 OBJECTS_* credentials: " +:+ e) (from_env (env_vars s) b w)
                end with
          | Ok a => (Ok (base_ctx cfg s (OnBucket a) (KsDefault {| Scope.bucket := b |})), fs)
          | Err e => (Err e, fs)
          end
      end
  end.

(** [build_suite_ctx_with]: the host extends the base context. *)
Definition build_suite_ctx_with (configure : ReactResolvedConfig -> BaseCtx W -> Result (BaseCtx W) string)
  (cfg : ReactResolvedConfig) (s : Settings) (w : W) (fs : Fs) : Result (BaseCtx W) string * Fs :=
  match build_base_suite_ctx cfg s w fs with
  | (Ok ctx, fs) => (configure cfg ctx, fs)
  | (Err e, fs) => (Err e, fs)
  end.
End bootstrap.

(** ** The run *)

Record HeadlessRunOpts : Type := {
  log_level : option string;
  verbose_debug : bool;
  opt_terminal : bool;
  opt_thread_id : option string;
  opt_suite_id : option string;
  opt_agent : string;
  skip_logging_init : bool;
  opt_headless_prompt : option string
}.

Record HeadlessRunOutcome : Type := {
  out_exit_code : Z;
  out_thread_id : option string;
  out_failure_summary : option string
}.

(** The process a run happens in. *)
Record Process (W : Type) : Type := {
  pr_settings : Settings;
  pr_fs : Fs;
  pr_world : W;
  pr_terminal : TerminalState
}.
Arguments pr_settings {W} _.
Arguments pr_fs {W} _.
Arguments pr_world {W} _.
Arguments pr_terminal {W} _.

(** How a run ended: its code, its thread and a summary of its failure. *)
Definition failed_outcome (e : string) : HeadlessRunOutcome :=
  {| out_exit_code := 1; out_thread_id := None; out_failure_summary := Some e |}.

Definition outcome_of (run : option (Result HeadlessResult string)) : HeadlessRunOutcome :=
  match run with
  | Some (Ok r) => {| out_exit_code := Headless.exit_code r; out_thread_id := Some (hr_result_thread_id r);
                      out_failure_summary := Headless.failure_summary r |}
  | Some (Err e) => failed_outcome e
  | None => {| out_exit_code := 130; out_thread_id := None; out_failure_summary := None |}
  end.

(** Whether the terminal is asked for, and what it makes of the environment. *)
Definition wants_terminal (o : HeadlessRunOpts) : bool :=
  opt_terminal o || match log_level o with None => true | Some _ => false end.

Definition run_settings (cfg : ReactResolvedConfig) (o : HeadlessRunOpts) (s : Settings) : Settings :=
  let s := if skip_logging_init o then s else init_logging (log_level o) (verbose_debug o) s in
  let s := bind_resolved_config cfg (bind_runtime_scope_preference (scope cfg) s) in
  let s := if wants_terminal o
           then default_var "REACT_LOG_LLM_RESPONSE_TEXT" "1" (default_var "REACT_LOG_LLM_CALLS" "1" s)
           else s in
  default_var "REACT_HEADLESS" "1" s.

Definition wanted_suite {W} (registry : SuiteRegistry W) (o : HeadlessRunOpts) : option string :=
  not_blank (opt_suite_id o) or_else resolve_default_suite_id registry.

Section engine.
Context {W K : Type} `{HSd : !Serde, HSt : !StorageAdapter W, HT : !Timer W, HK : !Keyspace K,
  HC : !Codec ThreadLog.t, HE : !Codec ControlStateEnvelope, HU : !UtcClock W, HR : !ToRfc3339, HD : !Rfc3339,
  HP : !PlanReader, HA : !AnswerReaders, HDR : !DetailReaders, HL : !UnicodeLower, HI : !Uuids W,
  HQ : !RequestErrors}.
Variable io_text : IoError -> string.
Variable cross_device : path -> path -> bool.
Variables cwd temp_dir : path.
(** Whether the process has a terminal to draw on. *)
Variable tty : bool.
(** A fresh UUID, for the temporary name of the log. *)
Variable uuid : string.

Notation P := (Process W).

(** What was made before a call failed is left out. *)
Definition best_effort (f : Fs -> Result Fs IoError) (fs : Fs) : Fs :=
  match f fs with Ok fs => fs | Err _ => fs end.

Definition open_logs (cfg : ReactResolvedConfig) (fs : Fs) : option RunThreadLogs * Fs :=
  match Config.mode (storage cfg) with
  | StorageMode.Local =>
      match storage_path (storage cfg) with
      | Some root => match new_local io_text (join_path cwd root) (scope cfg) uuid fs with
                     | Ok (l, fs) => (Some l, fs)
                     | Err _ => (None, fs)
                     end
      | None => (None, fs)
      end
  | StorageMode.S3 => match new_buffered io_text temp_dir (scope cfg) uuid fs with
                      | Ok (l, fs) => (Some l, fs)
                      | Err _ => (None, fs)
                      end
  end.

(** The logs there are, bound to the thread there is. *)
Definition bind_logs (ks : K) (tid : option string) (logs : option RunThreadLogs) (fs : Fs)
  : option RunThreadLogs * Fs :=
  match logs, tid with
  | Some l, Some tid => let '(_, l, fs) := bind_thread_id io_text cross_device ks tid l fs in (Some l, fs)
  | _, _ => (logs, fs)
  end.

Definition log_texts (texts : list string) (logs : option RunThreadLogs) (fs : Fs) : Fs :=
  match logs with Some l => write_logs texts l fs | None => fs end.

(** The last thing a run does with its logs. *)
Definition finish_logs (ks : K) (tid : option string) (logs : option RunThreadLogs) (fs : Fs) (w : W) : Fs * W :=
  match logs, tid with
  | Some l, Some tid =>
      let '(_, l, fs) := bind_thread_id io_text cross_device ks tid l fs in
      let '(_, _, fs, w) := upload_if_needed io_text cross_device ks tid l fs w in
      (fs, w)
  | _, _ => (fs, w)
  end.

(** The server of the process as it is during the run. *)
Definition with_process (srv : Server W K) (s : Settings) (t : TerminalState) : Server W K :=
  {| reg := reg srv; srv_scope := srv_scope srv; srv_keyspace := srv_keyspace srv; srv_env := env_vars s;
     has_terminal := terminal_enabled t; has_hub := has_hub srv; delete_embeddings := delete_embeddings srv |}.

(** [run_headless_with_ctx].  [texts] is what reaches the log before and after
    the thread is told; a run that has not returned when the schedule ends is
    interrupted.  The uploads of the background task are doings of the world,
    like those of anyone else ([Others] of the schedule). *)
Definition run_headless_with_ctx (cfg : ReactResolvedConfig) (srv : Server W K) (o : HeadlessRunOpts)
  (receive : list ServerMessage.t -> list ServerMessage.t) (schedule : list (Event W))
  (texts : list string * list string) (p : P) : HeadlessRunOutcome * P :=
  let s := run_settings cfg o (pr_settings p) in
  let '(logs, fs) := open_logs cfg (pr_fs p) in
  let fs := best_effort (create_dir_all [] (join_path cwd (resolve_log_dir cfg (env_vars s)))) fs in
  let t := if wants_terminal o then terminal_init tty (pr_terminal p) else pr_terminal p in
  let ks := srv_keyspace srv in
  let requested := opt_thread_id o in
  let '(logs, fs) := bind_logs ks requested logs fs in
  match wanted_suite (reg srv) o with
  | None => (failed_outcome "no suites registered for headless execution",
             {| pr_settings := s; pr_fs := fs; pr_world := pr_world p; pr_terminal := t |})
  | Some suite =>
      let tx := match logs, requested with Some _, None => true | _, _ => false end in
      let '(run, told, w) := run_headless (with_process srv s t) receive
        {| ro_thread_id := requested; ro_suite_id := suite; ro_agent := opt_agent o; ro_thread_id_tx := tx;
           ro_headless_prompt := opt_headless_prompt o |} schedule (pr_world p) in
      let fs := log_texts (fst texts) logs fs in
      let '(logs, fs) := bind_logs ks (head told) logs fs in
      let fs := log_texts (snd texts) logs fs in
      let out := outcome_of run in
      let tid := out_thread_id out or_else requested in
      let '(fs, w) := finish_logs ks tid logs fs w in
      ({| out_exit_code := out_exit_code out; out_thread_id := tid; out_failure_summary := out_failure_summary out |},
       {| pr_settings := s; pr_fs := fs; pr_world := w;
          pr_terminal := if wants_terminal o then terminal_shutdown t else t |})
  end.

(** [run_headless_from_config], [run_headless_with_host]: a context that
    cannot be built ends the run. *)
Definition run_headless_from {C} (ctx : Result C string) (run : C -> P -> HeadlessRunOutcome * P) (p : P)
  : HeadlessRunOutcome * P :=
  match ctx with Ok c => run c p | Err e => (failed_outcome e, p) end.
End engine.

(** ** The environment of a run *)

Lemma set_var_other key v s k : k <> key -> env_vars (set_var key v s) k = env_vars s k.
Proof. intros H. cbn. by destruct (String.eqb_spec k key). Qed.

Lemma env_opt_set env k v : env_opt env k = Some v -> env k = Some v /\ is_blank v = false.
Proof.
  unfold env_opt, is_blank. destruct (env k) as [x|]; [|done]. cbn.
  destruct (str_is_empty (trim x)) eqn:E; [done|]. by intros [= <-].
Qed.

Lemma default_var_keeps key v s k x :
  env_opt (env_vars s) k = Some x -> env_opt (env_vars (default_var key v s)) k = Some x.
Proof.
  intros Hx. unfold default_var. destruct (env_opt (env_vars s) key) eqn:E; [done|].
  unfold env_opt at 1. rewrite set_var_other by (intros ->; congruence). exact Hx.
Qed.

Lemma default_var_sets key v s :
  is_blank v = false -> is_Some (env_opt (env_vars (default_var key v s)) key).
Proof.
  intros Hv. unfold default_var. destruct (env_opt (env_vars s) key) eqn:E; [by eexists|].
  unfold env_opt, is_blank in *. cbn. rewrite String.eqb_refl. cbn. rewrite Hv. by eexists.
Qed.

Lemma default_var_config key v s : resolved_config (default_var key v s) = resolved_config s.
Proof. unfold default_var. by case_match. Qed.
Lemma default_var_scope key v s : scope_preference (default_var key v s) = scope_preference s.
Proof. unfold default_var. by case_match. Qed.

(** A run only fills in the environment: a variable that has a value keeps
    it.  Afterwards the process is headless, the configuration and the scope
    it reads are those of the first run in it, and the terminal's two
    switches are set if the terminal is wanted. *)
Theorem runs_fill_in_the_environment cfg o s k v :
  env_opt (env_vars s) k = Some v ->
  let s' := run_settings cfg o s in
  env_vars s' k = Some v /\ is_Some (env_opt (env_vars s') "REACT_HEADLESS") /\
  (wants_terminal o = true ->
     is_Some (env_opt (env_vars s') "REACT_LOG_LLM_CALLS") /\
     is_Some (env_opt (env_vars s') "REACT_LOG_LLM_RESPONSE_TEXT")) /\
  resolved_config s' = Some (default cfg (resolved_config s)) /\
  (forall sp, scope_preference s = Some sp -> scope_preference s' = Some sp) /\
  forall cfg2 o2, resolved_config (run_settings cfg2 o2 s') = resolved_config s' /\
                  scope_preference (run_settings cfg2 o2 s') = scope_preference s'.
Proof.
  intros Hk s'.
  set (s1 := if skip_logging_init o then s else init_logging (log_level o) (verbose_debug o) s).
  assert (env_opt (env_vars s1) k = Some v) as H1.
  { unfold s1. destruct (skip_logging_init o); [done|]. by apply default_var_keeps. }
  assert (resolved_config s1 = resolved_config s /\ scope_preference s1 = scope_preference s) as [Hc1 Hp1].
  { unfold s1. destruct (skip_logging_init o); [done|]. unfold init_logging. by rewrite default_var_config, default_var_scope. }
  assert (forall cfg o s, resolved_config (run_settings cfg o s) = Some (default cfg (resolved_config s)) /\
    exists sp, scope_preference (run_settings cfg o s) = Some (default sp (scope_preference s))) as Hrun.
  { clear. intros cfg o s. unfold run_settings.
    rewrite default_var_config, default_var_scope. destruct (wants_terminal o); rewrite ?default_var_config, ?default_var_scope;
      cbn; destruct (skip_logging_init o); unfold init_logging; rewrite ?default_var_config, ?default_var_scope; eauto. }
  split_and!.
  - apply env_opt_set. unfold s', run_settings. apply default_var_keeps. fold s1.
    destruct (wants_terminal o); [do 2 apply default_var_keeps|]; exact H1.
  - by apply default_var_sets.
  - intros Hw. unfold s', run_settings. rewrite Hw. fold s1. set (s2 := bind_resolved_config _ _).
    destruct (default_var_sets "REACT_LOG_LLM_CALLS" "1" s2) as [x Hx]; [done|].
    destruct (default_var_sets "REACT_LOG_LLM_RESPONSE_TEXT" "1" (default_var "REACT_LOG_LLM_CALLS" "1" s2)) as [y Hy]; [done|].
    split; eexists; [do 2 apply default_var_keeps; exact Hx|apply default_var_keeps; exact Hy].
  - apply Hrun.
  - intros sp Hsp. destruct (Hrun cfg o s) as [_ [sp' Hsp']]. unfold s'. by rewrite Hsp', Hsp.
  - intros cfg2 o2. destruct (Hrun cfg o s) as [Ha [sp Hb]]. destruct (Hrun cfg2 o2 s') as [Hc [sp2 Hd]].
    rewrite Hc, Hd. unfold s'. by rewrite Ha, Hb.
Qed.

(** A configuration for the examples, with remote storage. *)
Definition sample_cfg (m : StorageMode.t) : ReactResolvedConfig :=
  {| server_port := 8787;
     storage := {| Config.mode := m; bucket := Some "runtime"; storage_path := Some "/srv"; s3_credentials := None |};
     scope := sample_scope;
     llm := {| llm_provider := LlmProvider.Openai; base_url := None; reason_model := None; task_model := None;
               embed_model := None; context_length := None; gpu_layers := None; http_timeout_secs := None;
               max_tokens := None; temperature := None; top_p := None |};
     suite_config := VObject [] |}.

Definition sample_opts (thread_id : option string) : HeadlessRunOpts :=
  {| log_level := None; verbose_debug := false; opt_terminal := false; opt_thread_id := thread_id;
     opt_suite_id := None; opt_agent := "ask"; skip_logging_init := false; opt_headless_prompt := None |}.

Definition sample_settings : Settings :=
  {| env_vars := fun k => if String.eqb k "RUST_LOG" then Some "warn" else None;
     resolved_config := None; scope_preference := None |}.

Lemma runs_fill_in_the_environment_witness :
  env_vars (run_settings (sample_cfg StorageMode.S3) (sample_opts None) sample_settings) "RUST_LOG" = Some "warn".
Proof.
  apply (runs_fill_in_the_environment (sample_cfg StorageMode.S3) (sample_opts None) sample_settings "RUST_LOG" "warn").
  reflexivity.
Defined.

(** ** The base context *)

Section contexts.
Variable io_text : IoError -> string.
Variable cwd : path.
Context {W : Type}.

(** A complete configuration builds a context for its scope, or says what is
    wrong.  With local storage the base directory is made first, and only
    that can fail; with a bucket nothing fails but the search of the
    environment for credentials the configuration does not have, and then
    adapter and keys are of the bucket and the credentials are those of the
    configuration.  Nothing else is touched. *)
Theorem complete_configs_build cfg s (w : W) fs :
  complete cfg ->
  match build_base_suite_ctx io_text cwd cfg s w fs with
  | (Ok ctx, fs') =>
      bc_scope ctx = scope cfg /\ bc_config ctx = Some cfg /\ bc_llm ctx = config_from_resolved s cfg /\
      match bc_storage ctx, bc_keyspace ctx with
      | OnDisk base, KsLocal _ =>
          Config.mode (storage cfg) = StorageMode.Local /\ create_dir_all [] base fs = Ok fs' /\
          (fs_ok fs -> base ∈ dirs fs' /\ files fs' = files fs)
      | OnBucket a, KsDefault k =>
          Config.mode (storage cfg) = StorageMode.S3 /\ fs' = fs /\ bucket (storage cfg) = Some (s3_bucket a) /\
          Scope.bucket k = s3_bucket a /\ S3Storage.world a = w /\
          (forall creds, s3_credentials (storage cfg) = Some creds -> client a = creds)
      | _, _ => False
      end
  | (Err e, fs') =>
      fs' = fs /\
      match Config.mode (storage cfg) with
      | StorageMode.Local => exists root err, storage_path (storage cfg) = Some root /\
                               create_dir_all [] (join_path cwd root) fs = Err err
      | StorageMode.S3 => s3_credentials (storage cfg) = None /\
          exists err, objects_credentials_from_env (env_vars s) = Err err /\ e = "R2 OBJECTS_* credentials: " +:+ err
      end
  end.
Proof.
  intros [Hs _ _]. unfold build_base_suite_ctx. destruct (Config.mode (storage cfg)).
  - destruct Hs as [_ (root & -> & _)]. unfold LocalStorage.new, fs_do.
    destruct (create_dir_all [] (join_path cwd root) fs) as [fs'|e] eqn:E; [|by eauto].
    split_and!; try done. cbn. split_and!; [done..|]. intros Hok. by apply create_dir_all_Ok in E as (_ & ? & ? & _).
  - destruct Hs as [[b ->] _]. destruct (s3_credentials (storage cfg)) as [creds|].
    + split_and!; try done. cbn. split_and!; try done. by intros ? [= <-].
    + unfold from_env. destruct (objects_credentials_from_env (env_vars s)) as [c|err]; cbn; [by split_and!|eauto].
Qed.
End contexts.

Definition local_cfg : ReactResolvedConfig :=
  {| server_port := 8787;
     storage := {| Config.mode := StorageMode.Local; bucket := None; storage_path := Some "/srv/data"; s3_credentials := None |};
     scope := sample_scope;
     llm := {| llm_provider := LlmProvider.Openai; base_url := Some "u"; reason_model := Some "r"; task_model := Some "t";
               embed_model := None; context_length := None; gpu_layers := None; http_timeout_secs := None;
               max_tokens := None; temperature := None; top_p := None |};
     suite_config := VObject [] |}.

Lemma local_cfg_complete : complete local_cfg.
Proof. split; cbn; [split; eauto|split_and!; by eexists|by split_and!]. Qed.

Lemma complete_configs_build_witness :
  exists ctx fs', build_base_suite_ctx (fun _ => "io") [] local_cfg sample_settings tt disk = (Ok ctx, fs') /\
    bc_scope ctx = sample_scope /\ ["srv"; "data"] ∈ dirs fs'.
Proof.
  pose proof (complete_configs_build (fun _ => "io") [] local_cfg sample_settings tt disk local_cfg_complete) as H.
  destruct (build_base_suite_ctx (fun _ => "io") [] local_cfg sample_settings tt disk) as [[ctx|e] fs'] eqn:E.
  - exists ctx, fs'. destruct H as (H1 & _). split_and!; [done|exact H1|].
    injection E as <- <-. by vm_compute.
  - destruct H as (_ & root & err & [= <-] & H). by vm_compute in H.
Defined.

(** ** How a run ends *)

Section runs.
Context {W K : Type} `{HSd : !Serde, HSt : !StorageAdapter W, HT : !Timer W, HK : !Keyspace K,
  HC : !Codec ThreadLog.t, HE : !Codec ControlStateEnvelope, HU : !UtcClock W, HR : !ToRfc3339, HD : !Rfc3339,
  HP : !PlanReader, HA : !AnswerReaders, HDR : !DetailReaders, HL : !UnicodeLower, HI : !Uuids W,
  HQ : !RequestErrors}.
Variable io_text : IoError -> string.
Variable cross_device : path -> path -> bool.
Variables cwd temp_dir : path.
Variable tty : bool.
Variable uuid : string.
Variable cfg : ReactResolvedConfig.
Variable srv : Server W K.
Variable o : HeadlessRunOpts.
Variable receive : list ServerMessage.t -> list ServerMessage.t.
Variable schedule : list (Event W).
Variable texts : list string * list string.

Notation run_it p := (run_headless_with_ctx io_text cross_device cwd temp_dir tty uuid cfg srv o receive schedule texts p).

(** The terminal during the run, and the server that runs it. *)
Definition terminal_of (p : Process W) : TerminalState :=
  if wants_terminal o then terminal_init tty (pr_terminal p) else pr_terminal p.
Definition server_of (p : Process W) : Server W K :=
  with_process srv (run_settings cfg o (pr_settings p)) (terminal_of p).

(** Whether the run's log waits to be told its thread. *)
Definition waits (p : Process W) : bool :=
  match (open_logs io_text cwd temp_dir uuid cfg (pr_fs p)).1, opt_thread_id o with
  | Some _, None => true
  | _, _ => false
  end.

(** The run itself. *)
Definition inner_run (suite : string) (p : Process W) : option (Result HeadlessResult string) * list string * W :=
  run_headless (server_of p) receive
    {| ro_thread_id := opt_thread_id o; ro_suite_id := suite; ro_agent := opt_agent o; ro_thread_id_tx := waits p;
       ro_headless_prompt := opt_headless_prompt o |} schedule (pr_world p).

(** Logs on local storage upload nothing. *)
Definition logs_stay (logs : option RunThreadLogs) : Prop :=
  forall l, logs = Some l -> exists root, RunLogs.mode l = Local root.

Lemma open_logs_stay p :
  Config.mode (storage cfg) = StorageMode.Local -> logs_stay (open_logs io_text cwd temp_dir uuid cfg (pr_fs (W := W) p)).1.
Proof.
  intros Hm. unfold open_logs. rewrite Hm. destruct (storage_path (storage cfg)) as [root|]; [|done].
  unfold new_local. destruct (create_dir_all _ _ _); [|done]. destruct (open_append _ _) as [[]|]; [|done].
  intros ? [= <-]. by eexists.
Qed.

Lemma bind_logs_stay (ks : K) tid logs fs :
  logs_stay logs -> logs_stay (bind_logs io_text cross_device ks tid logs fs).1.
Proof.
  intros Hl. unfold bind_logs. destruct logs as [l|], tid as [t|]; [|done..].
  pose proof (bind_mode io_text cross_device ks t l fs) as Hm.
  destruct (bind_thread_id _ _ _ _ _ _) as [[r l2] fs2]. intros ? [= <-]. cbn in Hm. rewrite Hm. by apply Hl.
Qed.

Lemma finish_logs_stay (ks : K) tid logs fs w :
  tid = None \/ logs_stay logs -> (finish_logs io_text cross_device ks tid logs fs w).2 = w.
Proof.
  unfold finish_logs. intros H. destruct logs as [l|], tid as [t|]; [|done..]. destruct H as [|Hl]; [done|].
  destruct (Hl l eq_refl) as [root Hr].
  pose proof (bind_mode io_text cross_device ks t l fs) as Hm. destruct (bind_thread_id _ _ _ _ l fs) as [[r l2] fs2].
  cbn in Hm. unfold upload_if_needed. pose proof (bind_mode io_text cross_device ks t l2 fs2) as Hm2.
  destruct (bind_thread_id _ _ _ _ l2 fs2) as [[r3 l3] fs3]. cbn in Hm2. by rewrite Hm2, Hm, Hr.
Qed.

(** Binding the thread that was asked for does not change who waits. *)
Lemma binding_waits (ks : K) logs fs :
  match (bind_logs io_text cross_device ks (opt_thread_id o) logs fs).1, opt_thread_id o with
  | Some _, None => true | _, _ => false end =
  match logs, opt_thread_id o with Some _, None => true | _, _ => false end.
Proof. destruct (opt_thread_id o), logs; cbn; try done; by case_match. Qed.

(** A run that has a suite ends as the headless run of that suite ended: with
    its code, its summary and its thread; with 1 and the error, or with 130
    when it was interrupted, and then the thread is the one asked for, if
    any.  The terminal no longer draws.  Without a thread, or over local
    storage, what is stored is what the run stored: no log is uploaded. *)
Theorem runs_end_as_the_run_ended p suite :
  wanted_suite (reg srv) o = Some suite ->
  let '(out, p') := run_it p in
  let '(run, told, w) := inner_run suite p in
  out_exit_code out = match run with
                      | Some (Ok r) => Headless.exit_code r
                      | Some (Err _) => 1%Z
                      | None => 130%Z
                      end /\
  out_failure_summary out = match run with
                            | Some (Ok r) => Headless.failure_summary r
                            | Some (Err e) => Some e
                            | None => None
                            end /\
  out_thread_id out = match run with Some (Ok r) => Some (hr_result_thread_id r) | _ => opt_thread_id o end /\
  pr_settings p' = run_settings cfg o (pr_settings p) /\
  (wants_terminal o = true -> pr_terminal p' <> Drawing) /\
  (out_thread_id out = None \/ Config.mode (storage cfg) = StorageMode.Local -> pr_world p' = w).
Proof.
  intros Hsuite. unfold run_headless_with_ctx, inner_run, waits, server_of, terminal_of. rewrite Hsuite.
  pose proof (open_logs_stay p) as Hstay.
  destruct (open_logs io_text cwd temp_dir uuid cfg (pr_fs p)) as [logs fs].
  set (t := if wants_terminal o then _ else _). set (s := run_settings cfg o (pr_settings p)).
  set (fs0 := best_effort _ fs). set (ks := srv_keyspace srv).
  pose proof (bind_logs_stay ks (opt_thread_id o) logs fs0) as Hb1.
  pose proof (binding_waits ks logs fs0) as Htx.
  destruct (bind_logs io_text cross_device ks (opt_thread_id o) logs fs0) as [logs1 fs1]. cbn [fst] in *. rewrite Htx.
  destruct (run_headless _ _ _ _ _) as [[run told] w].
  set (fs2 := log_texts _ logs1 fs1). pose proof (bind_logs_stay ks (head told) logs1 fs2) as Hb2.
  destruct (bind_logs io_text cross_device ks (head told) logs1 fs2) as [logs2 fs3]. cbn [fst] in Hb2.
  set (fs4 := log_texts _ logs2 fs3). set (tid := out_thread_id (outcome_of run) or_else opt_thread_id o).
  pose proof (finish_logs_stay ks tid logs2 fs4 w) as Hf.
  destruct (finish_logs _ _ _ _ _ _ _) as [fs5 w5]. cbn in Hf. cbn.
  split_and!.
  - by destruct run as [[|]|].
  - by destruct run as [[|]|].
  - by destruct run as [[|]|].
  - done.
  - intros Hw. rewrite Hw. destruct t; done.
  - intros [Hn|Hm]; apply Hf; [by left|right]. auto.
Qed.

(** A run for which there is no suite stops where it looks for one: nothing
    is stored, and a terminal that was started goes on drawing. *)
Theorem a_run_without_suites_keeps_the_terminal p :
  wanted_suite (reg srv) o = None ->
  let '(out, p') := run_it p in
  out = failed_outcome "no suites registered for headless execution" /\ pr_world p' = pr_world p /\
  pr_terminal p' = terminal_of p /\
  (wants_terminal o = true -> tty = true -> pr_terminal p = NoTerminal -> pr_terminal p' = Drawing).
Proof.
  intros Hsuite. unfold run_headless_with_ctx. rewrite Hsuite.
  destruct (open_logs _ _ _ _ _ _) as [logs fs]. destruct (bind_logs _ _ _ _ _ _) as [logs1 fs1]. cbn.
  split_and!; try done. intros -> -> ->. done.
Qed.

(** ** The log of a run over remote storage *)

Definition tmp_name : string := "react-run-" +:+ uuid +:+ ".log".

(** A buffered log that holds a text. *)
Record holds (logs : option RunThreadLogs) (fs : Fs) (text : string) : Prop := {
  log_there : exists l, logs = Some l /\ RunLogs.mode l = Buffered /\ log_scope l = scope cfg /\
    tmp_path l = temp_dir ++ [tmp_name] /\ RunLogs.file l = Some (temp_dir ++ [tmp_name]);
  disk_sound : fs_ok fs;
  temp_there : temp_dir ∈ dirs fs;
  text_there : files fs !! (temp_dir ++ [tmp_name]) = Some text
}.

Hypothesis temp_plain : plain_path temp_dir.

Lemma tmp_plain : plain_path (temp_dir ++ [tmp_name]).
Proof using temp_plain. apply Forall_app. split; [done|]. by repeat constructor. Qed.

Lemma open_logs_holds p :
  Config.mode (storage cfg) = StorageMode.S3 -> fs_ok (pr_fs (W := W) p) -> temp_dir ∈ dirs (pr_fs p) ->
  temp_dir ++ [tmp_name] ∉ dirs (pr_fs p) -> files (pr_fs p) !! (temp_dir ++ [tmp_name]) = None ->
  let '(logs, fs) := open_logs io_text cwd temp_dir uuid cfg (pr_fs p) in holds logs fs EmptyString.
Proof using temp_plain.
  intros Hm Hok Ht Hnd Hn. unfold open_logs. rewrite Hm. unfold new_buffered. fold tmp_name. unfold open_append.
  rewrite walk_in, decide_False, Hn by (try done; apply tmp_plain). split; cbn; [|by apply fs_ok_insert|done|by apply lookup_insert_eq].
  eexists. by split_and!.
Qed.

Lemma mkdir_holds logs fs text d :
  holds logs fs text -> holds logs (best_effort (create_dir_all [] d) fs) text.
Proof using Type.
  intros [Hl Hok Ht Hf]. unfold best_effort. destruct (create_dir_all [] d fs) as [fs'|] eqn:E; [|done].
  apply create_dir_all_Ok in E as (? & Hfs & _ & Hsub); [|done]. split; [done..| |by rewrite Hfs]. by apply Hsub.
Qed.

Lemma bind_holds (ks : K) tid logs fs text :
  holds logs fs text ->
  let '(logs', fs') := bind_logs io_text cross_device ks tid logs fs in holds logs' fs' text.
Proof using Type.
  intros [(l & -> & Hm & Hs & Htp & Hfile) Hok Ht Hf]. unfold bind_logs. destruct tid as [t|].
  - rewrite bind_buffered by done. split; [|done..]. exists (bound l t). by split_and!.
  - split; [|done..]. by exists l.
Qed.

Lemma log_texts_holds ts logs fs text :
  holds logs fs text -> holds logs (log_texts ts logs fs) (text +:+ concat_strings ts).
Proof using Type.
  intros [(l & -> & Hm & Hs & Htp & Hfile) Hok Ht Hf]. cbn [log_texts].
  eapply (write_logs_ok ts l) in Hok as (? & ? & ?); [|done..]. split; [|done..]. by exists l.
Qed.

Lemma finish_holds (ks : K) tid key logs fs text w :
  holds logs fs text -> thread_log_key ks (scope cfg) tid = Ok key ->
  (finish_logs io_text cross_device ks (Some tid) logs fs w).2 = (upload_text key text w).2.
Proof using temp_plain.
  intros [(l & -> & Hm & Hs & Htp & Hfile) Hok Ht Hf] Hk. unfold finish_logs. rewrite bind_buffered by done.
  erewrite upload_if_needed_written; [|exact Hm|exact Htp|apply tmp_plain|done..|]; [done|]. cbn. by rewrite Hs.
Qed.

(** Over remote storage a run that ends with a thread leaves under the key of
    that thread's log all that reached the log, from its beginning, in order:
    that is what it puts last, and nothing if nothing reached the log. *)
Theorem remote_runs_upload_their_log p suite tid key :
  Config.mode (storage cfg) = StorageMode.S3 -> fs_ok (pr_fs p) -> temp_dir ∈ dirs (pr_fs p) ->
  temp_dir ++ [tmp_name] ∉ dirs (pr_fs p) -> files (pr_fs p) !! (temp_dir ++ [tmp_name]) = None ->
  wanted_suite (reg srv) o = Some suite -> out_thread_id (run_it p).1 = Some tid ->
  thread_log_key (srv_keyspace srv) (scope cfg) tid = Ok key ->
  pr_world (run_it p).2 = (upload_text key (concat_strings (fst texts ++ snd texts)) (inner_run suite p).2).2.
Proof using temp_plain.
  intros Hm Hok Ht Hnd Hn Hsuite. unfold run_headless_with_ctx, inner_run, waits, server_of, terminal_of. rewrite Hsuite.
  pose proof (open_logs_holds p Hm Hok Ht Hnd Hn) as Hh.
  destruct (open_logs io_text cwd temp_dir uuid cfg (pr_fs p)) as [logs fs].
  set (t := if wants_terminal o then _ else _). set (s := run_settings cfg o (pr_settings p)).
  set (ks := srv_keyspace srv). apply (mkdir_holds _ _ _ (join_path cwd (resolve_log_dir cfg (env_vars s)))) in Hh.
  set (fs0 := best_effort _ fs) in *.
  pose proof (binding_waits ks logs fs0) as Htx.
  apply (bind_holds ks (opt_thread_id o)) in Hh.
  destruct (bind_logs io_text cross_device ks (opt_thread_id o) logs fs0) as [logs1 fs1]. cbn [fst] in *. rewrite Htx.
  destruct (run_headless _ _ _ _ _) as [[run told] w].
  apply (log_texts_holds (fst texts)), (bind_holds ks (head told)) in Hh.
  destruct (bind_logs io_text cross_device ks (head told) logs1 _) as [logs2 fs3].
  apply (log_texts_holds (snd texts)) in Hh. set (fs4 := log_texts _ logs2 fs3) in *.
  set (otid := out_thread_id (outcome_of run) or_else opt_thread_id o).
  destruct (finish_logs io_text cross_device ks otid logs2 fs4 w) as [fs5 w5] eqn:Ef. cbn.
  intros Htid Hkey. rewrite Htid in Ef. eapply (finish_holds ks tid key logs2 fs4 _ w) in Hh; [|done].
  rewrite Ef in Hh. cbn in Hh. by rewrite Hh, concat_strings_app.
Qed.
End runs.

(** ** A thread resumed over remote storage *)

Module Resumed.
Notation M := InMemoryStorageAdapter.
Definition io (e : IoError) : string := "io".
Definition one_device (p q : path) : bool := false.
Definition process : Process M :=
  {| pr_settings := sample_settings; pr_fs := disk; pr_world := Resuming.world; pr_terminal := NoTerminal |}.
Definition lines : list string * list string := (["begin "], ["end"]).

(** The process without a terminal; its temporary directory is [/srv]. *)
Definition run (registry : SuiteRegistry M) (tty : bool) (o : HeadlessRunOpts) (schedule : list (Event M))
  : HeadlessRunOutcome * Process M :=
  run_headless_with_ctx (HSd := Resuming.serde) (HSt := @memory_adapter Resuming.serde) (HC := Resuming.codec)
    (HE := EnvelopeCodec.codec) (HU := still_clock) (HR := one_date) (HD := digit_dates) (HP := fun _ => None)
    (HA := Sample.no_answers) (HDR := Sample.no_details) (HL := fun s => s) (HI := Asking.uuids)
    (HQ := fun _ _ => "bad request") io one_device [] ["srv"] tty "u" (sample_cfg StorageMode.S3)
    {| reg := registry; srv_scope := sample_scope; srv_keyspace := Scope.Local; srv_env := Sample.env;
       has_terminal := false; has_hub := true; delete_embeddings := None |}
    o (fun l => l) schedule lines process.

Definition server (registry : SuiteRegistry M) : Server M LocalKeyspace :=
  {| reg := registry; srv_scope := sample_scope; srv_keyspace := Scope.Local; srv_env := Sample.env;
     has_terminal := false; has_hub := true; delete_embeddings := None |}.

Definition opts : HeadlessRunOpts := sample_opts (Some Resuming.thread).
Definition resumed : HeadlessRunOutcome * Process M := run (reg Sample.server) false opts Resuming.schedule.

(** The run inside. *)
Definition inner : option (Result HeadlessResult string) * list string * M :=
  inner_run (HSd := Resuming.serde) (HSt := @memory_adapter Resuming.serde) (HC := Resuming.codec)
    (HE := EnvelopeCodec.codec) (HU := still_clock) (HR := one_date) (HD := digit_dates) (HP := fun _ => None)
    (HA := Sample.no_answers) (HDR := Sample.no_details) (HL := fun s => s) (HI := Asking.uuids)
    (HQ := fun _ _ => "bad request") io [] ["srv"] false "u" (sample_cfg StorageMode.S3) (server (reg Sample.server)) opts (fun l => l)
    Resuming.schedule "plain" process.
Definition result : HeadlessResult :=
  {| exit_code := 0; hr_result_thread_id := Resuming.thread; failure_summary := None |}.

Lemma suite_found : wanted_suite (reg Sample.server) opts = Some "plain".
Proof. by vm_compute. Qed.
Lemma inner_returns : inner.1.1 = Some (Ok result).
Proof. by vm_compute. Qed.
Definition key : string := "t/w/p/logs/" +:+ Resuming.thread +:+ ".log".
End Resumed.

Lemma runs_end_as_the_run_ended_witness :
  out_exit_code Resumed.resumed.1 = 0%Z /\ out_thread_id Resumed.resumed.1 = Some Resuming.thread.
Proof.
  pose proof (runs_end_as_the_run_ended (HSd := Resuming.serde) (HSt := @memory_adapter Resuming.serde) (HC := Resuming.codec)
    (HE := EnvelopeCodec.codec) (HU := still_clock) (HR := one_date) (HD := digit_dates) (HP := fun _ => None)
    (HA := Sample.no_answers) (HDR := Sample.no_details) (HL := fun s => s) (HI := Asking.uuids)
    (HQ := fun _ _ => "bad request") Resumed.io Resumed.one_device [] ["srv"] false "u"
    (sample_cfg StorageMode.S3) (Resumed.server (reg Sample.server)) Resumed.opts (fun l => l) Resuming.schedule
    Resumed.lines Resumed.process "plain" Resumed.suite_found) as H.
  change (let '(out, p') := Resumed.resumed in let '(run, told, w) := Resumed.inner in
    out_exit_code out = match run with
      | Some (Ok r) => Headless.exit_code r | Some (Err _) => 1%Z | None => 130%Z end /\
    out_failure_summary out = match run with
      | Some (Ok r) => Headless.failure_summary r | Some (Err e) => Some e | None => None end /\
    out_thread_id out = match run with Some (Ok r) => Some (hr_result_thread_id r) | _ => Some Resuming.thread end /\
    pr_settings p' = run_settings (sample_cfg StorageMode.S3) Resumed.opts sample_settings /\
    (true = true -> pr_terminal p' <> Drawing) /\
    (out_thread_id out = None \/ StorageMode.S3 = StorageMode.Local -> pr_world p' = w)) in H.
  pose proof Resumed.inner_returns as Hi. destruct Resumed.resumed as [out p'], Resumed.inner as [[run told] w].
  cbn in Hi. rewrite Hi in H. by destruct H as (H1 & _ & H3 & _).
Defined.

Lemma a_run_without_suites_keeps_the_terminal_witness :
  (Resumed.run Registry.new true (sample_opts None) []).1 = failed_outcome "no suites registered for headless execution" /\
  pr_terminal (Resumed.run Registry.new true (sample_opts None) []).2 = Drawing.
Proof.
  pose proof (a_run_without_suites_keeps_the_terminal (HSd := Resuming.serde) (HSt := @memory_adapter Resuming.serde) (HC := Resuming.codec)
    (HE := EnvelopeCodec.codec) (HU := still_clock) (HR := one_date) (HD := digit_dates) (HP := fun _ => None)
    (HA := Sample.no_answers) (HDR := Sample.no_details) (HL := fun s => s) (HI := Asking.uuids)
    (HQ := fun _ _ => "bad request") Resumed.io Resumed.one_device [] ["srv"] true "u"
    (sample_cfg StorageMode.S3) (Resumed.server Registry.new) (sample_opts None) (fun l => l) [] Resumed.lines
    Resumed.process ltac:(vm_compute; reflexivity)) as H.
  unfold Resumed.run. fold (Resumed.server Registry.new).
  destruct (run_headless_with_ctx _ _ _ _ _ _ _ _ _ _ _ _ _) as [out p']. destruct H as (H1 & _ & _ & H2).
  split; [exact H1|]. by apply H2.
Defined.

Lemma remote_runs_upload_their_log_witness :
  pr_world Resumed.resumed.2 = (upload_text (HSt := @memory_adapter Resuming.serde) Resumed.key "begin end" Resumed.inner.2).2.
Proof.
  apply (remote_runs_upload_their_log (HSd := Resuming.serde) (HSt := @memory_adapter Resuming.serde) (HC := Resuming.codec)
    (HE := EnvelopeCodec.codec) (HU := still_clock) (HR := one_date) (HD := digit_dates) (HP := fun _ => None)
    (HA := Sample.no_answers) (HDR := Sample.no_details) (HL := fun s => s) (HI := Asking.uuids)
    (HQ := fun _ _ => "bad request") Resumed.io Resumed.one_device [] ["srv"] false "u"
    (sample_cfg StorageMode.S3) (Resumed.server (reg Sample.server)) Resumed.opts (fun l => l) Resuming.schedule
    Resumed.lines ltac:(by repeat constructor) Resumed.process "plain" Resuming.thread Resumed.key);
    [done|apply disk_ok|by vm_compute|by vm_compute|by vm_compute|apply Resumed.suite_found|by vm_compute|done].
Defined.
