(* ===== verification/Contexts.v ===== *)
(** * Contexts and capabilities

    [src/src/core/src/capability.rs], [thread_ctx.rs], the context types of
    [suite.rs] and [agent/mod.rs] with their builders and setters, and the
    providers that provide nothing.  Shared objects (adapters, channels,
    models, policies) are values of types given as parameters; a type used as
    a key is its code. *)

From stdpp Require Import base list strings gmap.
From Stdlib Require Import ZArith Lia Eqdep_dec.
From S2P Require Import Prelude.
From S2P Require Import RustStr.
From S2P Require Import Json.
From S2P Require Import Errors.
From S2P Require Import Scope.
From S2P Require Import Storage.
From S2P Require Import Budget.
From S2P Require Import Transcript.
From S2P Require Import Llm.
From S2P Require Import Suites.

(** ** Capabilities *)

Section capabilities.
(** The codes of the types a capability may have ([TypeId]). *)
Context {T : Type} `{HT : EqDecision T} `{HCT : !Countable T} {interp : T -> Type}.

(** [Arc<dyn Any>] *)
Definition Any : Type := sigT interp.
Definition CapabilityMap : Type := gmap T Any.

(** [downcast::<T>()] *)
Definition downcast (t : T) (a : Any) : option (interp t) :=
  match decide (projT1 a = t) with
  | left e => Some (eq_rect (projT1 a) interp (projT2 a) t e)
  | right _ => None
  end.

Definition cap_get (t : T) (m : CapabilityMap) : option (interp t) := (m : gmap T Any) !! t ≫= downcast t.
Definition cap_set (t : T) (v : interp t) (m : CapabilityMap) : CapabilityMap := <[t := existT t v]> (m : gmap T Any).

Lemma downcast_own t v : downcast t (existT t v) = Some v.
Proof.
  unfold downcast. cbn. destruct (decide (t = t)) as [e|]; [|done].
  by rewrite (UIP_dec HT e eq_refl).
Qed.

Lemma cap_get_set t v m : cap_get t (cap_set t v m) = Some v.
Proof. unfold cap_get, cap_set. rewrite lookup_insert_eq. apply downcast_own. Qed.

Lemma cap_get_other t t' v m : t <> t' -> cap_get t (cap_set t' v m) = cap_get t m.
Proof. intros H. unfold cap_get, cap_set. by rewrite lookup_insert_ne. Qed.

(** Every capability is filed under its own type. *)
Definition cap_wf (m : CapabilityMap) : Prop := map_Forall (fun t (a : Any) => projT1 a = t) (m : gmap T Any).

(** A capability is given back as it was put in last, whatever else is put in,
    and a look-up fails only where nothing was put in: the conversion to the
    type that is asked for never does. *)
Theorem capabilities_are_given_back t v m :
  cap_get t (cap_set t v m) = Some v /\
  (forall t' v', t' <> t -> cap_get t (cap_set t' v' (cap_set t v m)) = Some v) /\
  cap_wf (∅ : gmap T Any) /\ (cap_wf m -> cap_wf (cap_set t v m)) /\
  (cap_wf m -> (cap_get t m = None <-> (m : gmap T Any) !! t = None)).
Proof.
  split_and!.
  - apply cap_get_set.
  - intros t' v' H. rewrite cap_get_other by done. apply cap_get_set.
  - apply map_Forall_empty.
  - intros Hm. by apply map_Forall_insert_2.
  - intros Hm. unfold cap_get. destruct ((m : gmap T Any) !! t) as [a|] eqn:E; [|done]. cbn.
    pose proof (Hm _ _ E) as Ha. cbn in Ha. unfold downcast. by destruct (decide (projT1 a = t)).
Qed.
End capabilities.
Arguments CapabilityMap T {HT HCT} interp.

(** ** The context of an agent *)

Section agent.
(** The shared objects of a run, and its capabilities. *)
Context {Cancel Tx Policy Llm Storage Keysp Vec TStore Exec Config Observer Caps : Type}.

Record AgentCtx : Type := mkAgentCtx {
  a_top_k : Z;
  a_per_step_timeout_secs : Z;
  a_budget : BudgetMeter.t;
  a_cancel : Cancel;
  a_thread_id : option string;
  a_progress_tx : option Tx;
  a_pre_step_tx : option Tx;
  a_trace_tx : option Tx;
  a_agent_name : option string;
  a_policy : Policy;
  a_llm : Llm;
  a_storage : Storage;
  a_scope : RequestScope;
  a_keyspace : Keysp;
  a_vector : option Vec;
  a_thread_store : option TStore;
  a_exec_ctx : option Exec;
  a_resolved_config : option Config;
  a_capabilities : Caps;
  a_throttle_observer : option Observer
}.

Record AgentCtxBuilder : Type := mkAgentCtxBuilder {
  b_top_k : Z;
  b_per_step_timeout_secs : Z;
  b_budget : RunBudget;
  b_cancel : Cancel;
  b_thread_id : option string;
  b_progress_tx : option Tx;
  b_pre_step_tx : option Tx;
  b_trace_tx : option Tx;
  b_agent_name : option string;
  b_policy : Policy;
  b_llm : Llm;
  b_storage : Storage;
  b_scope : RequestScope;
  b_keyspace : Keysp;
  b_vector : option Vec;
  b_thread_store : option TStore;
  b_exec_ctx : option Exec;
  b_resolved_config : option Config;
  b_capabilities : Caps
}.

(** [AgentCtxBuilder::new]; [cancel] is a fresh one. *)
Definition agent_builder (cancel : Cancel) (caps : Caps) (llm : Llm) (storage : Storage) (scope : RequestScope)
  (keyspace : Keysp) (policy : Policy) : AgentCtxBuilder :=
  mkAgentCtxBuilder 10 30 STANDARD cancel None None None None None policy llm storage scope keyspace None None None None caps.

(** [v as u32] *)
Definition as_u32 (v : Z) : Z := (v mod (u32_max + 1))%Z.

(** The methods of the builder. *)
Inductive AgentSetting : Type :=
| TopK (v : Z) | PerStepTimeoutSecs (v : Z) | MaxSteps (v : Z) | SetBudget (v : RunBudget) | SetCancel (v : Cancel)
| ThreadIdIs (v : string) | ProgressTx (v : Tx) | PreStepTx (v : Tx) | TraceTx (v : option Tx) | AgentName (v : string)
| SetVector (v : option Vec) | SetThreadStore (v : TStore) | SetExecCtx (v : Exec) | SetResolvedConfig (v : option Config)
| SetCapabilities (v : Caps).

Definition agent_set (s : AgentSetting) (b : AgentCtxBuilder) : AgentCtxBuilder :=
  let '(mkAgentCtxBuilder k p u c th pg ps tr nm po l st sc ks ve ts ex rc ca) := b in
  match s with
  | TopK v => mkAgentCtxBuilder v p u c th pg ps tr nm po l st sc ks ve ts ex rc ca
  | PerStepTimeoutSecs v => mkAgentCtxBuilder k v u c th pg ps tr nm po l st sc ks ve ts ex rc ca
  | MaxSteps v => mkAgentCtxBuilder k p (agent_steps (as_u32 v)) c th pg ps tr nm po l st sc ks ve ts ex rc ca
  | SetBudget v => mkAgentCtxBuilder k p v c th pg ps tr nm po l st sc ks ve ts ex rc ca
  | SetCancel v => mkAgentCtxBuilder k p u v th pg ps tr nm po l st sc ks ve ts ex rc ca
  | ThreadIdIs v => mkAgentCtxBuilder k p u c (Some v) pg ps tr nm po l st sc ks ve ts ex rc ca
  | ProgressTx v => mkAgentCtxBuilder k p u c th (Some v) ps tr nm po l st sc ks ve ts ex rc ca
  | PreStepTx v => mkAgentCtxBuilder k p u c th pg (Some v) tr nm po l st sc ks ve ts ex rc ca
  | TraceTx v => mkAgentCtxBuilder k p u c th pg ps v nm po l st sc ks ve ts ex rc ca
  | AgentName v => mkAgentCtxBuilder k p u c th pg ps tr (Some v) po l st sc ks ve ts ex rc ca
  | SetVector v => mkAgentCtxBuilder k p u c th pg ps tr nm po l st sc ks v ts ex rc ca
  | SetThreadStore v => mkAgentCtxBuilder k p u c th pg ps tr nm po l st sc ks ve (Some v) ex rc ca
  | SetExecCtx v => mkAgentCtxBuilder k p u c th pg ps tr nm po l st sc ks ve ts (Some v) rc ca
  | SetResolvedConfig v => mkAgentCtxBuilder k p u c th pg ps tr nm po l st sc ks ve ts ex v ca
  | SetCapabilities v => mkAgentCtxBuilder k p u c th pg ps tr nm po l st sc ks ve ts ex rc v
  end.

Definition agent_build (b : AgentCtxBuilder) : AgentCtx :=
  let '(mkAgentCtxBuilder k p u c th pg ps tr nm po l st sc ks ve ts ex rc ca) := b in
  mkAgentCtx k p (BudgetMeter.new u) c th pg ps tr nm po l st sc ks ve ts ex rc ca None.

(** The field a method of the builder sets. *)
Definition agent_field (s : AgentSetting) : nat :=
  match s with
  | TopK _ => 0
  | PerStepTimeoutSecs _ => 1
  | MaxSteps _ => 2
  | SetBudget _ => 2
  | SetCancel _ => 3
  | ThreadIdIs _ => 4
  | ProgressTx _ => 5
  | PreStepTx _ => 6
  | TraceTx _ => 7
  | AgentName _ => 8
  | SetVector _ => 14
  | SetThreadStore _ => 15
  | SetExecCtx _ => 16
  | SetResolvedConfig _ => 17
  | SetCapabilities _ => 18
  end.

(** The setters of a context that was built. *)
Inductive CtxSetting : Type :=
| CtxMaxSteps (v : Z) | CtxPolicy (v : Policy) | CtxThreadId (v : option string) | CtxThreadStore (v : option TStore)
| CtxExecCtx (v : option Exec) | CtxResolvedConfig (v : option Config) | CtxProgressTx (v : option Tx)
| CtxPreStepTx (v : option Tx) | CtxThrottleObserver (v : option Observer) | CtxCapability (f : Caps -> Caps).

Definition ctx_set (s : CtxSetting) (x : AgentCtx) : AgentCtx :=
  let '(mkAgentCtx k p u c th pg ps tr nm po l st sc ks ve ts ex rc ca ob) := x in
  match s with
  | CtxMaxSteps v => mkAgentCtx k p (BudgetMeter.raise_agent_steps (as_u32 v) u) c th pg ps tr nm po l st sc ks ve ts ex rc ca ob
  | CtxPolicy v => mkAgentCtx k p u c th pg ps tr nm v l st sc ks ve ts ex rc ca ob
  | CtxThreadId v => mkAgentCtx k p u c v pg ps tr nm po l st sc ks ve ts ex rc ca ob
  | CtxThreadStore v => mkAgentCtx k p u c th pg ps tr nm po l st sc ks ve v ex rc ca ob
  | CtxExecCtx v => mkAgentCtx k p u c th pg ps tr nm po l st sc ks ve ts v rc ca ob
  | CtxResolvedConfig v => mkAgentCtx k p u c th pg ps tr nm po l st sc ks ve ts ex v ca ob
  | CtxProgressTx v => mkAgentCtx k p u c th v ps tr nm po l st sc ks ve ts ex rc ca ob
  | CtxPreStepTx v => mkAgentCtx k p u c th pg v tr nm po l st sc ks ve ts ex rc ca ob
  | CtxThrottleObserver v => mkAgentCtx k p u c th pg ps tr nm po l st sc ks ve ts ex rc ca v
  | CtxCapability f => mkAgentCtx k p u c th pg ps tr nm po l st sc ks ve ts ex rc (f ca) ob
  end.

(** [AgentCtx::max_steps] *)
Definition max_steps (x : AgentCtx) : Z := max_agent_steps (BudgetMeter.budget (a_budget x)).
Definition ctx_agent_name_or_default (x : AgentCtx) : string := default "unknown" (a_agent_name x).

(** The methods of the builder may be called in any order, and of those that
    set the same thing (the step limit and the budget do) the last one counts. *)
Theorem builders_take_the_last s1 s2 b :
  (agent_field s1 = agent_field s2 -> agent_set s2 (agent_set s1 b) = agent_set s2 b) /\
  (agent_field s1 <> agent_field s2 -> agent_set s2 (agent_set s1 b) = agent_set s1 (agent_set s2 b)).
Proof. split; intros H; destruct b, s1, s2; try done; by destruct H. Qed.

(** The limits of a context.  A step limit that fits its type is the limit of
    the agent that is built, and each of its calls of the model and of tools
    is limited to eight a step, at least eight; nothing has been used.  The
    limit of a context that was built is only ever raised. *)
Theorem step_limits_hold v w b :
  (0 <= v <= u32_max)%Z -> (0 <= w <= u32_max)%Z ->
  let x := agent_build (agent_set (MaxSteps v) b) in
  max_steps x = v /\ BudgetMeter.budget (a_budget x) = agent_steps v /\
  BudgetMeter.steps (a_budget x) = 0%Z /\
  max_steps (ctx_set (CtxMaxSteps w) x) = Z.max v w /\
  (forall c, (ceiling (BudgetMeter.budget (a_budget x)) c <=
              ceiling (BudgetMeter.budget (a_budget (ctx_set (CtxMaxSteps w) x))) c)%Z).
Proof.
  intros Hv Hw. destruct b. cbn [agent_set agent_build ctx_set max_steps a_budget BudgetMeter.new BudgetMeter.budget BudgetMeter.steps BudgetMeter.raise_agent_steps].
  unfold max_steps, as_u32. cbn [a_budget BudgetMeter.budget BudgetMeter.raise_agent_steps]. rewrite !Z.mod_small by lia.
  split_and!; try done.
  - cbn. lia.
  - intros c. apply agent_steps_mono. cbn. lia.
Qed.

(** A step limit above the type wraps round: an agent built with [2^32] steps
    has none. *)
Theorem a_wide_step_limit_wraps b : max_steps (agent_build (agent_set (MaxSteps 4294967296) b)) = 0%Z.
Proof. by destruct b. Qed.

(** Raising the step limit of a context replaces the limits of its calls by
    those that go with the steps, also where they were set on their own: an
    agent that may call its model once may call it eighty times after its
    step limit was "set" to what it was. *)
Theorem setting_the_steps_forgets_the_limits b :
  let own := {| max_llm_calls := 1; max_tool_calls := 1; max_agent_steps := 10 |} in
  let x := agent_build (agent_set (SetBudget own) b) in
  ceiling (BudgetMeter.budget (a_budget x)) LlmCall = 1%Z /\
  ceiling (BudgetMeter.budget (a_budget (ctx_set (CtxMaxSteps 10) x))) LlmCall = 80%Z /\
  max_steps (ctx_set (CtxMaxSteps 5) x) = 10%Z.
Proof. by destruct b. Qed.
End agent.

(** ** The context of a suite *)

Section suite.
Context {Tx Llm Storage Keysp Secrets Vec StateS Config Caps : Type}.

Record SuiteCtx : Type := mkSuiteCtx {
  s_storage : Storage;
  s_scope : RequestScope;
  s_keyspace : Keysp;
  s_secrets : Secrets;
  s_llm : Llm;
  s_resolved_config : option Config;
  s_trace_tx : option Tx;
  s_vector : option Vec;
  s_state : option StateS;
  s_capabilities : Caps
}.

Record SuiteCtxBuilder : Type := mkSuiteCtxBuilder {
  sb_storage : Storage;
  sb_scope : RequestScope;
  sb_keyspace : Keysp;
  sb_secrets : Secrets;
  sb_llm : Llm;
  sb_resolved_config : option Config;
  sb_trace_tx : option Tx;
  sb_vector : option Vec;
  sb_state : option StateS;
  sb_capabilities : Caps
}.

(** [SuiteCtx::new] and [SuiteCtxBuilder::new]; [caps] is the empty map. *)
Definition newSuiteCtx (caps : Caps) (st : Storage) (se : Secrets) (l : Llm) (sc : RequestScope) (ks : Keysp) : SuiteCtx :=
  mkSuiteCtx st sc ks se l None None None None caps.
Definition suite_builder (caps : Caps) (st : Storage) (se : Secrets) (l : Llm) (sc : RequestScope) (ks : Keysp) : SuiteCtxBuilder :=
  mkSuiteCtxBuilder st sc ks se l None None None None caps.

(** The methods of the builder, and the setters of the context. *)
Inductive SuiteSetting : Type :=
| SResolvedConfig (v : option Config) | STraceTx (v : option Tx) | SVector (v : option Vec) | SState (v : option StateS)
| SCapabilities (f : Caps -> Caps).

Definition suite_set (s : SuiteSetting) (b : SuiteCtxBuilder) : SuiteCtxBuilder :=
  let '(mkSuiteCtxBuilder st sc ks se l rc tr ve sa ca) := b in
  match s with
  | SResolvedConfig v => mkSuiteCtxBuilder st sc ks se l v tr ve sa ca
  | STraceTx v => mkSuiteCtxBuilder st sc ks se l rc v ve sa ca
  | SVector v => mkSuiteCtxBuilder st sc ks se l rc tr v sa ca
  | SState v => mkSuiteCtxBuilder st sc ks se l rc tr ve v ca
  | SCapabilities f => mkSuiteCtxBuilder st sc ks se l rc tr ve sa (f ca)
  end.

Definition suite_build (b : SuiteCtxBuilder) : SuiteCtx :=
  let '(mkSuiteCtxBuilder st sc ks se l rc tr ve sa ca) := b in mkSuiteCtx st sc ks se l rc tr ve sa ca.

Definition suite_ctx_set (s : SuiteSetting) (x : SuiteCtx) : SuiteCtx :=
  let '(mkSuiteCtx st sc ks se l rc tr ve sa ca) := x in
  match s with
  | SResolvedConfig v => mkSuiteCtx st sc ks se l v tr ve sa ca
  | STraceTx v => mkSuiteCtx st sc ks se l rc v ve sa ca
  | SVector v => mkSuiteCtx st sc ks se l rc tr v sa ca
  | SState v => mkSuiteCtx st sc ks se l rc tr ve v ca
  | SCapabilities f => mkSuiteCtx st sc ks se l rc tr ve sa (f ca)
  end.

Lemma suite_build_set s b : suite_build (suite_set s b) = suite_ctx_set s (suite_build b).
Proof. by destruct b, s. Qed.

(** A context that is built is the one that is made and then set the same
    way, in the same order. *)
Theorem built_contexts_are_set_contexts caps st se l sc ks settings :
  suite_build (fold_left (fun b s => suite_set s b) settings (suite_builder caps st se l sc ks)) =
  fold_left (fun x s => suite_ctx_set s x) settings (newSuiteCtx caps st se l sc ks).
Proof.
  change (newSuiteCtx caps st se l sc ks) with (suite_build (suite_builder caps st se l sc ks)).
  generalize (suite_builder caps st se l sc ks). induction settings as [|s settings IH]; intros b; [done|].
  cbn [fold_left]. by rewrite IH, suite_build_set.
Qed.
End suite.

(** ** What provides nothing *)

(** [NullSecretsProvider::get_secret] *)
Definition null_secret (name : string) : Result (option string) string := Ok None.

(** [LargeLanguageModel] *)
Record LanguageModel (W : Type) : Type := {
  lm_chat : list ChatMessage -> LlmCallOptions -> Act W LlmError.t string;
  lm_embed : list string -> Act W LlmError.t (list (list Z))
}.
Arguments lm_chat {W} _ _ _ _.
Arguments lm_embed {W} _ _ _.

(** [NullModel] *)
Definition null_model {W} : LanguageModel W := {|
  lm_chat _ _ := act_err (LlmError.Fatal "LLM provider not configured");
  lm_embed _ := act_err (LlmError.Fatal "LLM provider not configured")
|}.

(** [SuiteCtx::llm_embed] *)
Definition llm_embed {W} (llm : LanguageModel W) (texts : list string) : Act W CoreError.t (list (list Z)) :=
  act_map_err CoreError.Llm (lm_embed llm texts).

(** What the throttle observer of a context is told. *)
Record LlmThrottleEvent : Type := { te_prompt_id : string; te_error_summary : string; te_attempt : nat }.

(** A call of the model that is not there changes nothing, and its error is
    one that is not tried again. *)
Lemma the_null_model_fails_for_good {W} messages options texts (w : W) :
  exists e, lm_chat null_model messages options w = (Err e, w) /\ lm_embed null_model texts w = (Err e, w) /\
    llm_embed null_model texts w = (Err (CoreError.Llm e), w) /\ LlmError.retryable e = false.
Proof. by eexists. Qed.

(** [SuiteCtx::default]; it panics if its scope is refused. *)
Definition default_scope : Result RequestScope CoreError.t := RequestScope_parse "default" "default" "default".
Definition default_keyspace_value : DefaultKeyspace := {| bucket := "unset" |}.
Definition default_suite_ctx {Tx Llm Vec StateS Config Caps} (null_model : Llm) (caps : Caps)
  : option (SuiteCtx (Tx := Tx) (Vec := Vec) (StateS := StateS) (Config := Config)) :=
  match default_scope with
  | Ok sc => Some (newSuiteCtx caps NullStorageAdapter null_secret null_model sc default_keyspace_value)
  | Err _ => None
  end.

Lemma default_suite_ctx_is_made {Tx Llm Vec StateS Config Caps} (m : Llm) (caps : Caps) :
  is_Some (default_suite_ctx (Tx := Tx) (Vec := Vec) (StateS := StateS) (Config := Config) m caps).
Proof. by eexists. Qed.

(** ** The thread of a task

    A task reads the innermost id it was scoped with; a task that is spawned
    from it starts with none. *)
Definition Task (R : Type) : Type := option string -> R.
Definition scope_thread_id {R} (thread_id : string) (fut : Task R) : Task R := fun _ => fut (Some thread_id).
Definition current_thread_id : Task (option string) := fun local => local.
Definition spawn {R} (fut : Task R) : Task R := fun _ => fut None.

(** Work that is spawned must be scoped anew to know its thread. *)
Lemma spawned_tasks_have_no_thread {R} tid (f : option string -> R) :
  scope_thread_id tid (fun l => f (current_thread_id l)) None = f (Some tid) /\
  scope_thread_id tid (spawn (fun l => f (current_thread_id l))) None = f None /\
  scope_thread_id tid (spawn (scope_thread_id tid (fun l => f (current_thread_id l)))) None = f (Some tid).
Proof. done. Qed.
