(* ===== verification/Progress.v ===== *)
(** * The progress display

    [src/src/core/src/helpers/progress.rs]: tasks with their states, the thread
    that redraws them in place, and the block of lines they are on a terminal.
    The terminal is its rows, without end below, and a cursor; long lines do
    not wrap. *)

From stdpp Require Import base list strings.
From Stdlib Require Import ZArith Lia.
From S2P Require Import Prelude.
From S2P Require Import RustStr.

Definition FRAMES : list string := ["⠋"; "⠙"; "⠹"; "⠸"; "⠼"; "⠴"; "⠦"; "⠧"; "⠇"; "⠏"].

Module TaskState.
Inductive t : Type := Pending | Active | Completed.
End TaskState.

Record Task : Type := { task_name : string; task_state : TaskState.t }.

(** [UiState]; [ended] says that the thread has gone. *)
Record UiState : Type := {
  tasks : list Task;
  frame_idx : nat;
  running : bool;
  last_lines : nat;
  enabled : bool;
  ended : bool
}.

Definition new (on : bool) : UiState :=
  {| tasks := []; frame_idx := 0; running := on; last_lines := 0; enabled := on; ended := negb on |}.

Definition with_tasks (ts : list Task) (s : UiState) : UiState :=
  {| tasks := ts; frame_idx := frame_idx s; running := running s; last_lines := last_lines s;
     enabled := enabled s; ended := ended s |}.

Definition add_tasks (names : list string) (s : UiState) : UiState :=
  if enabled s
  then with_tasks (tasks s ++ map (fun n => {| task_name := n; task_state := TaskState.Pending |}) names) s
  else s.

(** The first task of a name. *)
Fixpoint mark (st : TaskState.t) (name : string) (ts : list Task) : list Task :=
  match ts with
  | [] => []
  | t :: ts => if String.eqb (task_name t) name then {| task_name := task_name t; task_state := st |} :: ts
               else t :: mark st name ts
  end.

Definition start (name : string) (s : UiState) : UiState :=
  if enabled s then with_tasks (mark TaskState.Active name (tasks s)) s else s.
Definition complete (name : string) (s : UiState) : UiState :=
  if enabled s then with_tasks (mark TaskState.Completed name (tasks s)) s else s.

(** [finish] up to the [join] *)
Definition stop (s : UiState) : UiState :=
  if enabled s
  then {| tasks := tasks s; frame_idx := frame_idx s; running := false; last_lines := last_lines s;
          enabled := enabled s; ended := ended s |}
  else s.

(** ** Drawing *)

(** What is printed. *)
Inductive Out : Type :=
| HideCursor
| ShowCursor
| PrevLine (n : nat)
| ClearLine
| Text (s : string)
| NewLine.

(** A task's line; [None] is an index out of bounds. *)
Definition task_line (frame : nat) (t : Task) : option string :=
  match task_state t with
  | TaskState.Pending => Some ("○ " +:+ task_name t)
  | TaskState.Active => (fun f => f +:+ " " +:+ task_name t) <$> FRAMES !! frame
  | TaskState.Completed => Some ("✔ " +:+ task_name t)
  end.

Definition print_line (l : string) : list Out := [ClearLine; Text l; NewLine].

(** [render]; [None] is a panic. *)
Definition render (s : UiState) : option (list Out * UiState) :=
  if enabled s
  then
    lines ← mapM (task_line (frame_idx s)) (tasks s);
    Some ((if 0 <? last_lines s then [PrevLine (last_lines s)] else []) ++ (lines ≫= print_line),
          {| tasks := tasks s; frame_idx := frame_idx s; running := running s; last_lines := length lines;
             enabled := enabled s; ended := ended s |})
  else Some ([], s).

Definition next_frame (s : UiState) : UiState :=
  {| tasks := tasks s; frame_idx := (frame_idx s + 1) mod length FRAMES; running := running s;
     last_lines := last_lines s; enabled := enabled s; ended := ended s |}.
Definition end_thread (s : UiState) : UiState :=
  {| tasks := tasks s; frame_idx := frame_idx s; running := running s; last_lines := last_lines s;
     enabled := enabled s; ended := true |}.

(** One turn of the thread's loop, the last one with what follows the loop. *)
Definition wake (s : UiState) : option (list Out * UiState) :=
  if ended s then Some ([], s)
  else if running s then render (next_frame s)
  else '(out, s) ← render s; Some (out ++ [ShowCursor], end_thread s).

(** ** The terminal *)

Record Term : Type := { rows : nat -> string; row : nat }.

Definition put (t : Term) (l : string) : Term :=
  {| rows := fun r => if r =? row t then l else rows t r; row := row t |}.

(** The cursor is at the end of what was written on a cleared line. *)
Definition out (t : Term) (o : Out) : Term :=
  match o with
  | HideCursor | ShowCursor => t
  | PrevLine n => {| rows := rows t; row := row t - n |}
  | ClearLine => put t EmptyString
  | Text s => put t (rows t (row t) +:+ s)
  | NewLine => {| rows := rows t; row := S (row t) |}
  end.

Definition outs (l : list Out) (t : Term) : Term := fold_left out l t.

(** ** A run *)

Inductive Event : Type :=
| AddTasks (names : list string)
| Start (name : string)
| Complete (name : string)
| Stop
| Wake.

Definition ui_step (e : Event) (s : UiState) : option (list Out * UiState) :=
  match e with
  | AddTasks names => Some ([], add_tasks names s)
  | Start name => Some ([], start name s)
  | Complete name => Some ([], complete name s)
  | Stop => Some ([], stop s)
  | Wake => wake s
  end.

Fixpoint run (events : list Event) (s : UiState) : option (list Out * UiState) :=
  match events with
  | [] => Some ([], s)
  | e :: events => '(o, s) ← ui_step e s; '(o', s) ← run events s; Some (o ++ o', s)
  end.

(** What the thread prints before its loop. *)
Definition opening (on : bool) : list Out := if on then [HideCursor] else [].

(** [finish]: the thread is told to stop and waited for. *)
Definition finish (s : UiState) : option (list Out * UiState) := wake (stop s).

(** ** Laws *)

Lemma outs_app l1 l2 t : outs (l1 ++ l2) t = outs l2 (outs l1 t).
Proof. apply fold_left_app. Qed.

Lemma outs_lines lines t :
  let t' := outs (lines ≫= print_line) t in
  row t' = row t + length lines /\
  (forall i l, lines !! i = Some l -> rows t' (row t + i) = l) /\
  (forall r, r < row t \/ row t + length lines <= r -> rows t' r = rows t r).
Proof.
  revert t. induction lines as [|x lines IH]; intros t; cbn [mbind list_bind].
  { cbn. split_and!; [lia|done|done]. }
  rewrite outs_app. set (t1 := outs (print_line x) t).
  assert (row t1 = S (row t)) as H1 by done.
  assert (rows t1 (row t) = x /\ forall r, r <> row t -> rows t1 r = rows t r) as [H2 H3].
  { split; [|intros r Hr]; cbn; repeat (case_match; try done); try (by apply Nat.eqb_neq in H; lia);
      by (apply Nat.eqb_eq in H; lia) || (rewrite Nat.eqb_refl in *; done). }
  destruct (IH t1) as (I1 & I2 & I3). rewrite H1 in *. cbn [length]. split_and!.
  - rewrite I1. lia.
  - intros [|i] l Hl; cbn in Hl.
    + injection Hl as ->. rewrite Nat.add_0_r, I3 by lia. exact H2.
    + rewrite <- (I2 i l Hl). f_equal. lia.
  - intros r Hr. rewrite I3 by lia. apply H3. lia.
Qed.

Lemma frames_there i : i < length FRAMES -> is_Some (FRAMES !! i).
Proof. apply lookup_lt_is_Some_2. Qed.

(** No task's line is out of bounds. *)
Lemma lines_there i ts : i < length FRAMES -> exists lines, mapM (task_line i) ts = Some lines /\ length lines = length ts.
Proof.
  intros Hi. assert (is_Some (mapM (task_line i) ts)) as [lines H].
  { apply mapM_is_Some, Forall_true. intros [n st]. destruct (frames_there i Hi) as [f Hf].
    unfold task_line. cbn [task_state task_name]. destruct st; [by eexists| |by eexists]. rewrite Hf. by eexists. }
  exists lines. split; [done|]. apply mapM_Some_1, Forall2_length in H. lia.
Qed.

Lemma mark_names st name ts : map task_name (mark st name ts) = map task_name ts.
Proof. induction ts as [|t ts IH]; [done|]. cbn. case_match; cbn; by rewrite ?IH. Qed.

Lemma mark_length st name ts : length (mark st name ts) = length ts.
Proof. rewrite <- (length_map task_name), mark_names. apply length_map. Qed.

(** The display of a state whose block begins at a row of the terminal it was
    started on. *)
Record drawn (t0 : Term) (s : UiState) (t : Term) : Prop := {
  frame_ok : frame_idx s < length FRAMES;
  block_end : row t = row t0 + last_lines s;
  only_grows : last_lines s <= length (tasks s);
  rest_kept r : r < row t0 \/ row t <= r -> rows t r = rows t0 r
}.

(** Redrawing shows the tasks as they are. *)
Lemma render_drawn t0 s t :
  drawn t0 s t -> enabled s = true ->
  exists o s', render s = Some (o, s') /\ drawn t0 s' (outs o t) /\ tasks s' = tasks s /\
    enabled s' = true /\ ended s' = ended s /\ running s' = running s /\ frame_idx s' = frame_idx s /\
    row (outs o t) = row t0 + length (tasks s) /\
    forall i task, tasks s !! i = Some task -> task_line (frame_idx s) task = Some (rows (outs o t) (row t0 + i)).
Proof.
  intros [H1 H2 H3 H4] Hon. destruct (lines_there (frame_idx s) (tasks s) H1) as (lines & Hl & Hlen).
  unfold render. rewrite Hon, Hl. cbn [mbind option_bind]. eexists _, _. split; [done|].
  rewrite outs_app. set (t1 := outs (if 0 <? last_lines s then _ else _) t).
  assert (row t1 = row t0 /\ rows t1 = rows t) as [E1 E2].
  { unfold t1. destruct (Nat.ltb_spec 0 (last_lines s)); cbn; split; try done; lia. }
  destruct (outs_lines lines t1) as (O1 & O2 & O3). rewrite E1, E2 in *.
  split; [split; cbn [frame_idx last_lines tasks]; [done|by rewrite O1|lia|]|].
  - intros r Hr. rewrite O3 by lia. apply H4. lia.
  - split_and!; try done; [by rewrite O1, Hlen|]. intros i task Hi.
    eapply mapM_Some_1, Forall2_lookup_l in Hl as (l & Hli & Htl); [|exact Hi]. by rewrite (O2 i l Hli).
Qed.

(** The names an event adds. *)
Definition named (e : Event) : list string := match e with AddTasks names => names | _ => [] end.

Lemma drawn_other t0 s s' t :
  drawn t0 s t -> frame_idx s' < length FRAMES -> last_lines s' = last_lines s ->
  last_lines s <= length (tasks s') -> drawn t0 s' t.
Proof. intros [H1 H2 H3 H4] Hf Hl Ht. split; rewrite ?Hl; done. Qed.

Lemma next_frame_drawn t0 s t : drawn t0 s t -> drawn t0 (next_frame s) t.
Proof. intros Hd. eapply drawn_other; [exact Hd|cbn [frame_idx next_frame]; by apply Nat.mod_upper_bound|done|apply Hd]. Qed.

(** A turn of the thread. *)
Lemma wake_drawn t0 s t :
  drawn t0 s t -> enabled s = true ->
  exists o s', wake s = Some (o, s') /\ drawn t0 s' (outs o t) /\ enabled s' = true /\ tasks s' = tasks s /\
    (ended s = false -> row (outs o t) = row t0 + length (tasks s) /\
       forall i task, tasks s !! i = Some task -> task_line (frame_idx s') task = Some (rows (outs o t) (row t0 + i))).
Proof.
  intros Hd Hon. unfold wake. destruct (ended s) eqn:He; [by exists [], s|]. destruct (running s).
  - destruct (render_drawn t0 (next_frame s) t (next_frame_drawn _ _ _ Hd) Hon) as (o & s' & H1 & H2 & H3 & H4 & _ & _ & H5 & H6 & H7).
    exists o, s'. rewrite H5. by split_and!.
  - destruct (render_drawn t0 s t Hd Hon) as (o & s' & H1 & H2 & H3 & H4 & _ & _ & H5 & H6 & H7). rewrite H1. cbn.
    exists (o ++ [ShowCursor]), (end_thread s'). rewrite outs_app. cbn [outs fold_left out end_thread frame_idx tasks enabled]. rewrite H5.
    split_and!; try done. destruct H2. by split.
Qed.

Lemma ui_step_drawn e t0 s t :
  drawn t0 s t -> enabled s = true ->
  exists o s', ui_step e s = Some (o, s') /\ drawn t0 s' (outs o t) /\ enabled s' = true /\
    map task_name (tasks s') = map task_name (tasks s) ++ named e.
Proof.
  intros Hd Hon. pose proof (only_grows _ _ _ Hd) as Hg. destruct e as [names|n|n| |]; cbn [ui_step named];
    unfold add_tasks, start, complete, stop; try rewrite Hon.
  - eexists _, _. split; [done|]. cbn [outs fold_left]. split_and!; [|done|].
    + eapply drawn_other; [exact Hd|apply Hd|done|]. cbn. rewrite length_app. lia.
    + cbn. rewrite map_app, map_map. f_equal. apply map_id.
  - eexists _, _. split; [done|]. cbn [outs fold_left]. split_and!; [|done|].
    + eapply drawn_other; [exact Hd|apply Hd|done|]. cbn. by rewrite mark_length.
    + cbn. by rewrite mark_names, app_nil_r.
  - eexists _, _. split; [done|]. cbn [outs fold_left]. split_and!; [|done|].
    + eapply drawn_other; [exact Hd|apply Hd|done|]. cbn. by rewrite mark_length.
    + cbn. by rewrite mark_names, app_nil_r.
  - eexists _, _. split; [done|]. cbn [outs fold_left]. split_and!; [|done|by rewrite app_nil_r].
    eapply drawn_other; [exact Hd|apply Hd|done|done].
  - destruct (wake_drawn t0 s t Hd Hon) as (o & s' & H1 & H2 & H3 & H4 & _). exists o, s'. by rewrite H4, app_nil_r.
Qed.

Lemma run_drawn events t0 s t :
  drawn t0 s t -> enabled s = true ->
  exists o s', run events s = Some (o, s') /\ drawn t0 s' (outs o t) /\ enabled s' = true /\
    map task_name (tasks s') = map task_name (tasks s) ++ (events ≫= named).
Proof.
  revert s t. induction events as [|e events IH]; intros s t Hd Hon; cbn [run mbind list_bind].
  { exists [], s. by rewrite app_nil_r. }
  destruct (ui_step_drawn e t0 s t Hd Hon) as (o & s1 & H1 & H2 & H3 & H4). rewrite H1. cbn [mbind option_bind].
  destruct (IH s1 _ H2 H3) as (o' & s2 & I1 & I2 & I3 & I4). rewrite I1. cbn [mbind option_bind]. exists (o ++ o'), s2.
  rewrite outs_app, I4, H4. by rewrite <- app_assoc.
Qed.

(** Whatever is asked of the display, in whatever order, and whenever its
    thread gets a turn: nothing panics, only the rows of the block change, the
    tasks are those that were added, in order, and the next redrawing, of a
    turn or of [finish], shows each of them on its row as it is then.  A
    display that is off has no tasks and prints nothing. *)
Theorem the_display_follows_the_tasks on events t0 :
  exists o s, run events (new on) = Some (o, s) /\
  let t := outs (opening on ++ o) t0 in
  (forall r, r < row t0 \/ row t <= r -> rows t r = rows t0 r) /\
  (if on
   then map task_name (tasks s) = (events ≫= named) /\
     (ended s = false -> forall draw, draw = wake \/ draw = finish ->
        exists o2 s2, draw s = Some (o2, s2) /\ tasks s2 = tasks s /\
          row (outs o2 t) = row t0 + length (tasks s) /\
          forall i task, tasks s !! i = Some task ->
            task_line (frame_idx s2) task = Some (rows (outs o2 t) (row t0 + i)))
   else o = [] /\ tasks s = []).
Proof.
  destruct on; cbn [opening].
  - assert (drawn t0 (new true) t0) as Hd by (split; cbn; try done; lia).
    destruct (run_drawn events t0 _ _ Hd eq_refl) as (o & s & H1 & H2 & H3 & H4). exists o, s. split; [done|].
    rewrite outs_app. cbn [outs fold_left out]. split; [apply H2|]. split; [exact H4|]. intros He draw Hdraw.
    assert (exists s1, draw s = wake s1 /\ drawn t0 s1 (outs o t0) /\ enabled s1 = true /\ tasks s1 = tasks s /\ ended s1 = false)
      as (s1 & -> & D1 & D2 & D3 & D4).
    { destruct Hdraw as [-> | ->]; [by exists s|]. exists (stop s). split; [done|]. unfold stop. rewrite H3. cbn.
      split_and!; try done. eapply drawn_other; [exact H2|apply H2|done|apply H2]. }
    destruct (wake_drawn t0 s1 _ D1 D2) as (o2 & s2 & W1 & W2 & W3 & W4 & W5). exists o2, s2. rewrite <- D3.
    destruct (W5 D4). by split_and!.
  - exists [], (new false). split; [|cbn; by split_and!]. induction events as [|e events IH]; [done|]. cbn [run].
    destruct e; cbn in *; by rewrite IH.
Qed.

(** Of tasks with the same name only the first is ever marked: the others
    stay pending. *)
Theorem a_second_task_of_a_name_stays_pending :
  option_map (fun '(o, s) => (map task_state (tasks s), rows (outs o {| rows := fun _ => EmptyString; row := 0 |}) 1))
    (run [AddTasks ["a"; "a"]; Complete "a"; Complete "a"; Stop; Wake] (new true)) =
  Some ([TaskState.Completed; TaskState.Pending], "○ a").
Proof. by vm_compute. Qed.
